(* ===== verification/_CoqProject ===== *)
-Q . S2P
Prelude.v
Utf8.v
Wire.v
Properties.v
LinkedList.v
Clients.v
Packet.v
State.v
Store.v
Persistence.v
FileStore.v
PacketIO.v
Protocol.v
Invariant.v
Exchange.v
Receiver.v
Session.v
Safety.v
Retry.v
Base64.v
SHA1.v
Socket.v
Writes.v
Reads.v
Socks5.v
WsFrames.v
WsReads.v
WsFactory.v
Outgoing.v
AsyncCommands.v
AsyncQueue.v
AsyncClient.v
AsyncReceive.v
AsyncSafety.v
AsyncInbox.v
AsyncApi.v
SyncClient.v
SyncConnect.v
SyncWaits.v
SyncSafety.v
Trees.v
TreeShapes.v
TreeRuns.v
TreeWalk.v
TreeRemoval.v
TreeBalance.v
TreeSpec.v
HeapTracker.v
HeapSafety.v
