(* ===== verification/Prelude.v ===== *)
(** * An MQTT client library in C, its SOCKS5 proxy support, and what is proved of it

    The program is the Eclipse Paho client for MQTT 3.1, 3.1.1 and 5 ([src/src]), with a
    client of SOCKS5 proxies added for Windows.  An application uses it through a
    synchronous API ([MQTTClient.c]) or an asynchronous one ([MQTTAsync.c],
    [MQTTAsyncUtils.c]).  Both stand on the same layers, from the top: the exchanges of
    the protocol ([MQTTProtocolClient.c], [MQTTProtocolOut.c]), packets ([MQTTPacket.c],
    [MQTTPacketOut.c], [MQTTProperties.c], [utf-8.c]), persistence ([MQTTPersistence.c]),
    WebSocket frames ([WebSocket.c], [Base64.c], [SHA1.c]), sockets and their buffers
    ([Socket.c], [SocketBuffer.c], [MQTTSocks5Proxy.c]), and doubly linked lists
    ([LinkedList.c]), which hold everything.  Every allocation goes through a tracker of the
    blocks in use ([Heap.c]), which keeps them in a red-black tree ([Tree.c]).

    ** How C is modelled

    A function that cannot fail is a function; one that can returns [res], where [Oob] is
    an access outside an object or to a freed one; one that changes the state is [SM S],
    a function from the state to a result and a state, whose writes are made in the order
    of the code.  Integers are [Z] with their wrap-around written out where the code can
    reach it; bytes are numbers from 0 to 255.  A loop that is not structural has fuel:
    [None] or [Fail] (in the trees [Oob]) is then a loop that goes on, and each time a lemma shows that the
    fuel given is enough, or the theorem says when the loop does not end.  [malloc]
    succeeds, but for the trees and the tracker, and so do the calls for mutexes, semaphores and threads.  The parts of the
    code for OpenSSL are not modelled.

    ** The files

    - [Prelude]: outcomes, the state monad with its rules for total correctness ([wp]) and
      for correctness up to errors of the environment ([wpo]), integers of C, lists.
    - [Utf8], [Wire], [Properties], [Packet]: from bytes to packets and back.  A validator
      equivalent to the definition of UTF-8; the variable byte integers; the property
      lists of MQTT 5, in their array that grows; the packet functions of the table
      [new_packets] and the bytes of every packet sent.  What is written is read back, and
      which malformed packets are read out of bounds is characterised.
    - [LinkedList]: the pointer implementation over a store of elements, which refines
      sequences with a cursor ([AList]), the lists all other files use.
    - [Clients], [State], [Store]: the records of a client; the interfaces [Transport] (the
      network) and [PersistenceOps] with its laws (the function pointers of
      [MQTTClientPersistence.h]), each with an instance for examples; the store of
      publications with their reference counts.
    - [Persistence], [PacketIO]: keys and records, the restoration of in-flight messages and
      of the queue; the reading of a packet in pieces and the sending of a frame.
    - [FileStore]: the default persistence, a directory of files over an interface for the file
      system; it is the map from keys to records that [PersistenceLaws] describes, but for
      the clearing of the store, which does nothing.
    - [Protocol], [Session]: the handlers of the packets received, publication, keep alive,
      retries, the end of a session: the operations of [MQTTClient.c] for one client.
    - [Invariant], [Exchange], [Receiver], [Safety], [Retry]: theorems about those.
      [Invariant] is the well-formedness of a session and what each operation does to it;
      [Exchange] and [Receiver] are abstract specifications of the sender and the receiver
      with the refinement theorems; [Safety] is the total correctness of every sequence of
      operations; [Retry] says which packets are offered to a connection again and when,
      whatever becomes of the writes.
    - [Base64], [SHA1]: against RFC 4648 and FIPS 180-4, for the code without OpenSSL.
    - [Socket], [Writes], [Reads]: non-blocking sockets over an interface for the operating
      system ([Sys]); the bytes written are whole frames in order, the packets read are
      made of the bytes received.  [Reads] is the instance of [Transport] over sockets.
    - [Socks5]: the negotiation with a proxy; it refines the dialogue of RFC 1928 and 1929,
      written down there without the functions of the code, but for the port after a domain
      name, which it leaves unread.
    - [WsFrames], [WsReads], [WsFactory]: WebSocket frames sent and received, and packets read
      from frames, against RFC 6455.
    - [Outgoing]: server addresses, proxy settings and [MQTTProtocol_connect], over an
      interface for opening sockets ([Connector]).
    - [AsyncCommands]: the commands of the asynchronous API and their records; after any
      history of the store a restart finds the commands in it, in their order, all but the
      UNSUBSCRIBE commands stored below MQTT 5; a PUBLISH is restored whole.
    - [AsyncQueue], [AsyncClient]: the handles and the shared queue of commands; the calls that
      add one; [MQTTAsync_processCommand], completed writes, acknowledgements, time-outs,
      reconnection, the end of a session.
    - [AsyncReceive]: a turn of the receiving thread: the continuation of a connection, the
      packets, the messages handed to the application at once or from the queue.
    - [AsyncSafety]: an invariant over every interleaving of those, and what follows: no
      command is lost or freed twice, no queued command is reported twice, commands of a client
      are carried out in order, the counts of buffered messages are right.
    - [AsyncInbox]: the messages received are handed to the application as a queue hands over
      what it holds: in order, each until it is accepted, none lost.
    - [AsyncApi]: what a call to send promises.
    - [SyncClient]: the calls of the synchronous API as an application without callbacks makes
      them, from creation to destruction, with their waits, over an interface for [select]
      ([Poller]).
    - [SyncConnect], [SyncWaits], [SyncSafety]: what connecting leaves; that every call with a
      time-out ends; that the session satisfies its invariant after any calls.
    - [Trees]: the operations of the red-black trees over a store of nodes with parent
      pointers.  [TreeShapes]: trees as values, a tree and a path up from it, how a store shows
      them, and the rotations; [TreeRuns], [TreeWalk], [TreeRemoval]: what each operation does to
      the tree shown; [TreeBalance]: which of them keep it red-black; [TreeSpec]: the
      refinement of sorted sequences by any sequence of operations.
    - [HeapTracker], [HeapSafety]: the replacements of [malloc], [realloc] and [free] over an
      interface for the allocator ([Allocator]); what any program that calls them gets, what is
      counted and what is reported.

    ** Correspondence

    Functions, structures and constants keep the names of the code.  A part of a long C
    function that has a definition of its own says in its comment which part it is.  A
    session ([St]) is one client with what the clients share; the asynchronous [World] has
    the list of handles, and runs an operation on one client through [on_session].  A
    socket belongs to one client, so the searches of a client by its socket are left out.
    Events record the callbacks in the order they are called.  Structures of commands have
    an identifier ([q_id]), for their address.

    ** Interleaving

    The code of the asynchronous client runs in the threads of the application, a sending
    and a receiving thread, under locks.  A step is what one of them does while it holds
    [mqttasync_mutex] or, in a call of the API, [mqttcommand_mutex]; the runs are all
    sequences of steps.  Callbacks do not call the library.

    ** Bounds and fuel

    The loop of [MQTTAsync_assignMsgId] and of [MQTTProtocol_assignMsgId] has as many turns as there are
    identifiers, and ends earlier unless all are in use and none was the last; the reading
    of a remaining length has the turns the code allows; the parsing of properties,
    SUBACK codes and UTF-8 consumes a byte each turn; searches of lists have the length of
    the list; the loops of the trees go up or down and have the number of nodes, and that of
    a removal two more for the node on the stack and its last turn; an address with an escape for each percent sign is read in as many turns as
    it has characters, and one without never ends; [MQTTAsync_randomJitter] draws from a given list of
    values of [rand].  The waits of the synchronous client have fuel for their turns, and give
    [None] when it is out: a turn takes a microsecond at least, so that those of the
    time-out are enough; publishing, which waits without a time-out, may need any number.

    ** Conditions

    What recurs in the hypotheses, because the code needs it: four byte integers of MQTT 5
    properties are below 2^31 ([int4_ok]; [Wire.writeInt4] writes greater ones wrongly);
    a message is published with QoS 0, 1 or 2, which the synchronous API does not test;
    strings have at most 65535 bytes and no NUL; property lists are well formed
    ([props_inv]).  A store that loses nothing is [PersistenceReliable].  Each theorem says
    in its comment which of these it needs, and what else.

    ** Not modelled

    TLS ([SSLSocket.c]); threads and locks ([Thread.c]), and so the background thread of the
    synchronous client with its callbacks and semaphores; the variants for
    Windows of the persistence on files; the mutex of the tracker, its text, stack traces and
    [HeapDumpString], and the allocation of the structure of a tree; the wrappers of
    [memory_pahomqtt.c]; logging, names and version tables; the name resolution
    and the connection of a TCP socket; the validation and copying of the options of the
    asynchronous connect and create; the handshake of WebSockets. *)

From Stdlib Require Import ZArith Lia List.
From stdpp Require Import base numbers list gmap.

Open Scope Z_scope.

Declare Scope mqtt_scope.
Delimit Scope mqtt_scope with mqtt.

(** ** Outcomes of C code

    [Ok a] is a normal return, [Fail] the error return of the function at hand
    ([NULL], [-1], [SOCKET_ERROR]) and [Oob] an access outside the object the
    code was given, for which C promises nothing: a theorem that rules [Oob]
    out is a memory-safety theorem. *)
Inductive res (A : Type) : Type :=
| Ok (a : A)
| Fail
| Oob.
Arguments Ok {A} a.
Arguments Fail {A}.
Arguments Oob {A}.

#[export] Instance res_ret : MRet res := fun A a => Ok a.
#[export] Instance res_bind : MBind res := fun A B f m =>
  match m with Ok a => f a | Fail => Fail | Oob => Oob end.
#[export] Instance res_fmap : FMap res := fun A B f m =>
  match m with Ok a => Ok (f a) | Fail => Fail | Oob => Oob end.

#[export] Instance res_eq_dec `{EqDecision A} : EqDecision (res A).
Proof. solve_decision. Defined.

(** ** State and failure

    Code that changes a state [S] and may fail is a function from the state before
    to an outcome with the state after. *)
Definition SM (S A : Type) : Type := S -> res (A * S).

#[export] Instance sm_ret {S} : MRet (SM S) := fun A a s => Ok (a, s).
#[export] Instance sm_bind {S} : MBind (SM S) := fun A B f m s =>
  match m s with Ok (a, s') => f a s' | Fail => Fail | Oob => Oob end.

Definition sm_get {S} : SM S S := fun s => Ok (s, s).
Definition sm_gets {S A} (f : S -> A) : SM S A := fun s => Ok (f s, s).
Definition sm_modify {S} (f : S -> S) : SM S () := fun s => Ok ((), f s).
Definition sm_lift {S A} (r : res A) : SM S A := fun s => a ← r; Ok (a, s).
Definition sm_oob {S A} : SM S A := fun _ => Oob.
Definition sm_fail {S A} : SM S A := fun _ => Fail.

(** ** Machine integers

    A C object is the [Z] of its value; the conversions are written out. *)

(** Conversion to [unsigned char] (also the bit pattern stored through a
    [char] pointer). *)
Definition to_byte (z : Z) : Z := z mod 256.

(** The value of the bit pattern [b] read as a (signed) [char]. *)
Definition schar (b : Z) : Z := if b <? 128 then b else b - 256.

(** Conversion to [unsigned int] (32 bits) and to [size_t] (64 bits). *)
Definition to_u32 (z : Z) : Z := z mod 4294967296.
Definition to_u64 (z : Z) : Z := z mod 18446744073709551616.

(** Conversion to [int] (32 bits, two's complement). *)
Definition to_i32 (z : Z) : Z :=
  let m := z mod 4294967296 in
  if m <? 2147483648 then m else m - 4294967296.

(** The ranges. *)
Definition byte_ok (b : Z) : Prop := 0 <= b < 256.
Definition u16_ok (n : Z) : Prop := 0 <= n < 65536.
Definition u32_ok (n : Z) : Prop := 0 <= n < 4294967296.
Definition bytes_ok (l : list Z) : Prop := Forall byte_ok l.

#[export] Instance byte_ok_dec b : Decision (byte_ok b).
Proof. unfold byte_ok. apply _. Defined.
#[export] Instance u16_ok_dec b : Decision (u16_ok b).
Proof. unfold u16_ok. apply _. Defined.
#[export] Instance u32_ok_dec b : Decision (u32_ok b).
Proof. unfold u32_ok. apply _. Defined.
#[export] Instance bytes_ok_dec l : Decision (bytes_ok l).
Proof. unfold bytes_ok. apply _. Defined.

(** The length of a list as a C count. *)
Definition Zlen {A} (l : list A) : Z := Z.of_nat (length l).

Create HintDb mqtt.
Create Rewrite HintDb mqtt_len.

Lemma to_byte_ok z : byte_ok (to_byte z).
Proof. unfold byte_ok, to_byte. apply Z.mod_pos_bound. lia. Qed.

Lemma to_byte_id b : byte_ok b -> to_byte b = b.
Proof. unfold byte_ok, to_byte. intros. apply Z.mod_small. lia. Qed.

Lemma to_u32_id n : u32_ok n -> to_u32 n = n.
Proof. unfold u32_ok, to_u32. intros. apply Z.mod_small. lia. Qed.

Lemma to_i32_id n : -2147483648 <= n < 2147483648 -> to_i32 n = n.
Proof.
  intros H. unfold to_i32.
  destruct (Z_lt_le_dec n 0).
  - replace (n mod 4294967296) with (n + 4294967296)
      by (rewrite <- (Z_mod_plus_full n 1); rewrite Z.mod_small; lia).
    destruct (Z.ltb_spec (n + 4294967296) 2147483648); lia.
  - rewrite Z.mod_small by lia. destruct (Z.ltb_spec n 2147483648); lia.
Qed.

Lemma to_i32_u32 n : u32_ok n -> to_u32 (to_i32 n) = n.
Proof.
  unfold u32_ok, to_u32, to_i32. intros H.
  rewrite (Z.mod_small n) by lia.
  destruct (Z.ltb_spec n 2147483648).
  - apply Z.mod_small; lia.
  - rewrite <- (Z_mod_plus_full _ 1). rewrite Z.mod_small; lia.
Qed.

Lemma Zlen_nil {A} : Zlen (@nil A) = 0.
Proof. reflexivity. Qed.

Lemma Zlen_cons {A} (x : A) l : Zlen (x :: l) = 1 + Zlen l.
Proof. unfold Zlen. simpl length. lia. Qed.

Lemma Zlen_app {A} (l k : list A) : Zlen (l ++ k) = Zlen l + Zlen k.
Proof. unfold Zlen. rewrite length_app. lia. Qed.

Lemma Zlen_nonneg {A} (l : list A) : 0 <= Zlen l.
Proof. unfold Zlen. lia. Qed.

Lemma Zlen_to_nat {A} (l : list A) : Z.to_nat (Zlen l) = length l.
Proof. unfold Zlen. lia. Qed.

Lemma bytes_ok_app l k : bytes_ok (l ++ k) <-> bytes_ok l /\ bytes_ok k.
Proof. apply Forall_app. Qed.

Lemma bytes_ok_cons b l : bytes_ok (b :: l) <-> byte_ok b /\ bytes_ok l.
Proof. apply Forall_cons. Qed.

#[export] Hint Resolve to_byte_ok Zlen_nonneg : mqtt.
#[export] Hint Rewrite @Zlen_nil @Zlen_cons @Zlen_app : mqtt_len.

(** Linear arithmetic after the lengths are normalised and the ranges unfolded. *)
Ltac zlen :=
  unfold byte_ok, u16_ok, u32_ok in *;
  autorewrite with mqtt_len in *;
  repeat match goal with
         | |- context [@Zlen ?A ?l] =>
             lazymatch goal with
             | _ : 0 <= @Zlen A l |- _ => fail
             | _ => pose proof (@Zlen_nonneg A l)
             end
         | _ : context [@Zlen ?A ?l] |- _ =>
             lazymatch goal with
             | _ : 0 <= @Zlen A l |- _ => fail
             | _ => pose proof (@Zlen_nonneg A l)
             end
         end;
  try lia.

(** Inversion of the success of a sequence of fallible calls. *)
Lemma res_bind_Ok {A B} (m : res A) (f : A -> res B) b :
  m ≫= f = Ok b <-> exists a, m = Ok a /\ f a = Ok b.
Proof.
  destruct m; simpl; split.
  - intros H. eauto.
  - intros (x & [= ->] & H). exact H.
  - discriminate.
  - intros (x & [=] & _).
  - discriminate.
  - intros (x & [=] & _).
Qed.

Lemma res_fmap_Ok {A B} (f : A -> B) (m : res A) b : f <$> m = Ok b -> exists a, m = Ok a /\ b = f a.
Proof. destruct m; simpl; intros [= <-]. eauto. Qed.

Lemma sm_bind_Ok {S A B} (m : SM S A) (f : A -> SM S B) s b s2 :
  (m ≫= f) s = Ok (b, s2) <-> exists a s1, m s = Ok (a, s1) /\ f a s1 = Ok (b, s2).
Proof.
  unfold mbind, sm_bind. destruct (m s) as [[a s1]| |]; split.
  - eauto.
  - intros (? & ? & [= <- <-] & H). exact H.
  - discriminate.
  - intros (? & ? & [=] & _).
  - discriminate.
  - intros (? & ? & [=] & _).
Qed.

Lemma sm_bind_run {S A B} (m : SM S A) (f : A -> SM S B) s a s1 :
  m s = Ok (a, s1) -> (m ≫= f) s = f a s1.
Proof. unfold mbind, sm_bind. by intros ->. Qed.

(** *** What a computation does to the state

    [respects R m]: when [m] succeeds, the states before and after it are related by
    [R].  For a preorder it is enough that every part does. *)
Definition respects {S A} (R : S -> S -> Prop) (m : SM S A) : Prop := forall s a s', m s = Ok (a, s') -> R s s'.

(** Nothing [view] shows is changed. *)
Definition same_view {S V} (view : S -> V) (s s' : S) : Prop := view s' = view s.
#[export] Instance same_view_preorder {S V} (view : S -> V) : PreOrder (same_view view).
Proof. split; [done|]. intros x y z H1 H2. unfold same_view in *. by rewrite H2. Qed.

Section Respects.
Context {S : Type} (R : S -> S -> Prop) `{!PreOrder R}.

Lemma respects_ret {A} (a : A) : respects R (mret a).
Proof. by intros s x s' [= _ <-]. Qed.
Lemma respects_bind {A B} (m : SM S A) (f : A -> SM S B) : respects R m -> (forall a, respects R (f a)) -> respects R (m ≫= f).
Proof. intros Hm Hf s y s' E. apply sm_bind_Ok in E as (x & s1 & E1 & E2). etrans; [by eapply Hm|by eapply Hf]. Qed.
Lemma respects_get : respects R sm_get.
Proof. by intros s x s' [= _ <-]. Qed.
Lemma respects_lift {A} (r : res A) : respects R (sm_lift r).
Proof. intros s x s' E. unfold sm_lift in E. destruct r; [by injection E as _ <-|done|done]. Qed.
Lemma respects_oob {A} : respects R (sm_oob (A:=A)).
Proof. done. Qed.
Lemma respects_fail {A} : respects R (sm_fail (A:=A)).
Proof. done. Qed.
Lemma respects_modify (f : S -> S) : (forall s, R s (f s)) -> respects R (sm_modify f).
Proof. intros H s x s' [= _ <-]. apply H. Qed.
End Respects.

Create HintDb respects.
Ltac head_of t := lazymatch t with ?f _ => head_of f | _ => t end.
(** One step of the proof that a computation respects a preorder: by its structure, by a
    lemma of the database, or by its definition. *)
Ltac respects1 :=
  lazymatch goal with
  | |- respects ?R (mret _) => apply (respects_ret R)
  | |- respects ?R (_ ≫= _) => apply (respects_bind R); [|intros ?]
  | |- respects ?R sm_get => apply (respects_get R)
  | |- respects ?R (sm_lift _) => apply (respects_lift R)
  | |- respects _ sm_oob => apply respects_oob
  | |- respects _ sm_fail => apply respects_fail
  | |- respects _ (sm_modify _) => apply respects_modify; intros ?; first [exact eq_refl | solve [eauto with respects nocore]]
  | |- respects _ (let '_ := ?x in _) => destruct x
  | |- respects _ (match ?x with _ => _ end) => destruct x
  | |- respects _ (if ?x then _ else _) => destruct x
  | |- respects _ ?m =>
      first [solve [eauto with respects nocore]
            | let f := head_of m in progress unfold f; cbv beta zeta]
  end.
Ltac respects := repeat respects1.

(** *** Total correctness

    [wp m s Q]: from the state [s] the computation [m] succeeds, with a result and a
    state that satisfy [Q]. *)
Definition wp {S A} (m : SM S A) (s : S) (Q : A -> S -> Prop) : Prop :=
  exists a s', m s = Ok (a, s') /\ Q a s'.

Lemma wp_ret {S A} (a : A) (s : S) (Q : A -> S -> Prop) : Q a s -> wp (mret a) s Q.
Proof. intros H. by exists a, s. Qed.

Lemma wp_bind {S A B} (m : SM S A) (f : A -> SM S B) s Q :
  wp m s (fun a s' => wp (f a) s' Q) -> wp (m ≫= f) s Q.
Proof.
  intros (a & s1 & Hm & b & s2 & Hf & HQ). exists b, s2. split; [|done].
  by rewrite (sm_bind_run _ _ _ _ _ Hm).
Qed.

(** A step that is done in two parts. *)
Lemma wp_bind_assoc {S A B C} (m : SM S A) (f : A -> SM S B) (g : B -> SM S C) s Q :
  wp (x ← m; f x) s (fun b s' => wp (g b) s' Q) -> wp (x ← m; y ← f x; g y) s Q.
Proof.
  intros H. apply (wp_bind (x ← m; f x) g) in H as (c & s2 & E & HQ). exists c, s2. split; [|done].
  rewrite <- E. unfold mbind, sm_bind. by destruct (m s) as [[? ?]| |].
Qed.

Lemma wp_mono {S A} (m : SM S A) s (Q R : A -> S -> Prop) :
  wp m s Q -> (forall a s', Q a s' -> R a s') -> wp m s R.
Proof. intros (a & s' & Hm & HQ) HR. exists a, s'. auto. Qed.

(** A run has one outcome. *)
Lemma wp_conj {S A} (m : SM S A) s (Q R : A -> S -> Prop) :
  wp m s Q -> wp m s R -> wp m s (fun a s' => Q a s' /\ R a s').
Proof. intros (a & s1 & E1 & H1) (a2 & s2 & E2 & H2). rewrite E1 in E2. injection E2 as <- <-. by exists a, s1. Qed.

Lemma wp_get {S} (s : S) (Q : S -> S -> Prop) : Q s s -> wp sm_get s Q.
Proof. intros H. by exists s, s. Qed.

Lemma wp_modify {S} (f : S -> S) s (Q : () -> S -> Prop) : Q () (f s) -> wp (sm_modify f) s Q.
Proof. intros H. by exists (), (f s). Qed.

Lemma wp_lift {S A} (r : res A) (a : A) (s : S) (Q : A -> S -> Prop) :
  r = Ok a -> Q a s -> wp (sm_lift r) s Q.
Proof. intros -> H. by exists a, s. Qed.

Lemma wp_run {S A} (m : SM S A) s a s' (Q : A -> S -> Prop) :
  m s = Ok (a, s') -> Q a s' -> wp m s Q.
Proof. intros Hm H. by exists a, s'. Qed.

(** *** Outcomes with a condition on accesses out of bounds *)

Definition wpo {S A} (P : Prop) (m : SM S A) (s : S) (Q : A -> S -> Prop) : Prop :=
  match m s with Ok (a, s') => Q a s' | Fail => False | Oob => P end.

Lemma wpo_Ok {S A} P (m : SM S A) s Q a s' : wpo P m s Q -> m s = Ok (a, s') -> Q a s'.
Proof. unfold wpo. intros H E. by rewrite E in H. Qed.

Lemma wpo_not_fail {S A} P (m : SM S A) s Q : wpo P m s Q -> m s <> Fail.
Proof. unfold wpo. by destruct (m s) as [[]| |]. Qed.

Lemma wpo_wp {S A} P (m : SM S A) s Q : wp m s Q -> wpo P m s Q.
Proof. intros (a & s' & E & HQ). unfold wpo. by rewrite E. Qed.

Lemma wpo_bind {S A B} P (m : SM S A) (f : A -> SM S B) s Q :
  wpo P m s (fun a s' => wpo P (f a) s' Q) -> wpo P (m ≫= f) s Q.
Proof. unfold wpo, mbind, sm_bind. by destruct (m s) as [[a s']| |]. Qed.

Lemma wpo_mono {S A} P (m : SM S A) s (Q R : A -> S -> Prop) :
  wpo P m s Q -> (forall a s', Q a s' -> R a s') -> wpo P m s R.
Proof. unfold wpo. destruct (m s) as [[a s']| |]; auto. Qed.

Lemma wpo_ret {S A} P (a : A) (s : S) (Q : A -> S -> Prop) : Q a s -> wpo P (mret a) s Q.
Proof. done. Qed.

Lemma wpo_get {S} P (s : S) (Q : S -> S -> Prop) : Q s s -> wpo P sm_get s Q.
Proof. done. Qed.

Lemma wpo_modify {S} P (f : S -> S) s (Q : () -> S -> Prop) : Q () (f s) -> wpo P (sm_modify f) s Q.
Proof. done. Qed.

(** Inversion of the success of a fallible computation, step by step. *)
Ltac res_inv :=
  repeat match goal with
         | H : _ ≫= _ = Ok _ |- _ =>
             apply res_bind_Ok in H; let x := fresh "r" in destruct H as (x & ? & H)
         | H : (if ?b then _ else _) = Ok _ |- _ => destruct b eqn:?; try discriminate H
         | r : (_ * _)%type |- _ => destruct r
         | H : Ok _ = Ok _ |- _ => injection H; clear H; intros; subst
         | H : Fail = Ok _ |- _ => discriminate H
         | H : Oob = Ok _ |- _ => discriminate H
         end.

Lemma Ok_pair_fst {A B} (a c : A) (b d : B) : Ok (a, b) = Ok (c, d) -> a = c.
Proof. congruence. Qed.

Lemma drop_app_exact {A} (l k : list A) : drop (length l) (l ++ k) = k.
Proof. apply drop_app_length. Qed.

Lemma take_app_exact {A} (l k : list A) : take (length l) (l ++ k) = l.
Proof. apply take_app_length. Qed.

Lemma list_map_delete {A B} (f : A -> B) (l : list A) i : map f (delete i l) = delete i (map f l).
Proof. apply (list_fmap_delete f l i). Qed.

Lemma list_map_insert {A B} (f : A -> B) (l : list A) i x : map f (<[i := x]> l) = <[i := f x]> (map f l).
Proof. apply (list_fmap_insert f l i x). Qed.

Lemma mapM_known {A} (l : list A) : mapM id (map Some l) = Some l.
Proof. induction l as [|x l IH]; [done|]. cbn. by rewrite IH. Qed.

(** A decidable property of bytes holds of all of them when it does of the 256. *)
Lemma byte_forall (P : Z -> bool) :
  forallb P (seqZ 0 256) = true -> forall b, byte_ok b -> P b = true.
Proof.
  intros H b Hb. rewrite forallb_forall in H. apply H.
  apply list_elem_of_In, elem_of_seqZ. unfold byte_ok in Hb. lia.
Qed.

(** Case analysis on the boolean comparisons of a goal. *)
Ltac zcases :=
  repeat match goal with
         | |- context [?a <? ?b] => destruct (Z.ltb_spec a b)
         | |- context [?a <=? ?b] => destruct (Z.leb_spec a b)
         | |- context [?a =? ?b] => destruct (Z.eqb_spec a b)
         end.

(** Linear arithmetic with quotients and remainders by constants. *)
Ltac dlia := Z.to_euclidean_division_equations; lia.

(** Decidable facts by computation. *)
Lemma decide_by (P : Prop) `{Decision P} : bool_decide P = true -> P.
Proof. apply bool_decide_eq_true_1. Qed.

Ltac by_compute :=
  lazymatch goal with |- ?P => apply (decide_by P); vm_compute; reflexivity end.
