(* ===== verification/Utf8.v ===== *)
(** * UTF-8 validation ([src/src/utf-8.c])

    The table-driven validator, and the equivalence of the whole validation
    loop with the definition of UTF-8: the byte strings it accepts are exactly
    the encodings of sequences of Unicode scalar values. *)

From S2P Require Import Prelude.
From Stdlib Require Import ZArith Lia List.
From stdpp Require Import base numbers list.

Open Scope Z_scope.

Module Utf8.

(** One row of [valid_ranges]: the length and the [lower]/[upper] limits, which
    are (signed) [char]s. *)
Record range_row := { row_len : Z; row_bytes : list (Z * Z) }.

Definition rng (lo hi : Z) : Z * Z := (schar lo, schar hi).

Definition valid_ranges : list range_row :=
  [ {| row_len := 1; row_bytes := [rng 0x00 0x7F] |};
    {| row_len := 2; row_bytes := [rng 0xC2 0xDF; rng 0x80 0xBF] |};
    {| row_len := 3; row_bytes := [rng 0xE0 0xE0; rng 0xA0 0xBF; rng 0x80 0xBF] |};
    {| row_len := 3; row_bytes := [rng 0xE1 0xEC; rng 0x80 0xBF; rng 0x80 0xBF] |};
    {| row_len := 3; row_bytes := [rng 0xED 0xED; rng 0x80 0x9F; rng 0x80 0xBF] |};
    {| row_len := 3; row_bytes := [rng 0xEE 0xEF; rng 0x80 0xBF; rng 0x80 0xBF] |};
    {| row_len := 4; row_bytes := [rng 0xF0 0xF0; rng 0x90 0xBF; rng 0x80 0xBF; rng 0x80 0xBF] |};
    {| row_len := 4; row_bytes := [rng 0xF1 0xF3; rng 0x80 0xBF; rng 0x80 0xBF; rng 0x80 0xBF] |};
    {| row_len := 4; row_bytes := [rng 0xF4 0xF4; rng 0x80 0x8F; rng 0x80 0xBF; rng 0x80 0xBF] |} ].

(** The inner loop over [j]: every byte of the character is in the range of the
    row, the comparisons being those of signed characters. *)
Fixpoint row_matches (bs : list (Z * Z)) (data : list Z) : bool :=
  match bs, data with
  | [], _ => true
  | _, [] => false
  | (lo, hi) :: bs', b :: data' =>
      if (schar b <? lo) || (hi <? schar b) then false else row_matches bs' data'
  end.

(** The number of bytes the first byte announces. *)
Definition charlen_of (b : Z) : Z :=
  if Z.land b 128 =? 0 then 1
  else if Z.land b 0xF0 =? 0xF0 then 4
  else if Z.land b 0xE0 =? 0xE0 then 3
  else 2.

(** [UTF8_char_validate(len, data)]: [None] is the null pointer, [Some rest] the
    pointer to the start of the next character.  [data] holds the bytes from the
    pointer to the end of the string, and the caller passes [len > 0]. *)
Definition UTF8_char_validate (len : Z) (data : list Z) : option (list Z) :=
  match data with
  | [] => None
  | b :: _ =>
      let charlen := charlen_of b in
      if len <? charlen then None
      else if existsb (fun row => (row_len row =? charlen) && row_matches (row_bytes row) data)
                valid_ranges
           then Some (drop (Z.to_nat charlen) data)
           else None
  end.

(** The [while] loop of [UTF8_validate]; [len] is [data + len - curdata]. *)
Fixpoint validate_loop (fuel : nat) (cur : option (list Z)) : option (list Z) :=
  match fuel, cur with
  | _, None => None
  | _, Some [] => Some []
  | O, Some l => Some l
  | S fuel', Some l => validate_loop fuel' (UTF8_char_validate (Zlen l) l)
  end.

(** [UTF8_validate(len, data)]; the data pointer may be null. *)
Definition UTF8_validate (len : Z) (data : option (list Z)) : bool :=
  match data with
  | None => true
  | Some d =>
      if len =? 0 then true
      else match validate_loop (length d) (UTF8_char_validate len d) with
           | Some _ => true
           | None => false
           end
  end.

(** [UTF8_validateString(string)]: a C string, without its terminator. *)
Definition UTF8_validateString (string : option (list Z)) : bool :=
  match string with
  | None => false
  | Some s => UTF8_validate (Zlen s) (Some s)
  end.

(** ** The definition of UTF-8 *)

(** A Unicode scalar value: a code point that is not a surrogate. *)
Definition scalar (c : Z) : Prop :=
  0 <= c < 0xD800 \/ 0xE000 <= c < 0x110000.

(** Its encoding. *)
Definition encode_char (c : Z) : list Z :=
  if c <? 0x80 then [c]
  else if c <? 0x800 then [0xC0 + c / 64; 0x80 + c mod 64]
  else if c <? 0x10000 then [0xE0 + c / 4096; 0x80 + c / 64 mod 64; 0x80 + c mod 64]
  else [0xF0 + c / 262144; 0x80 + c / 4096 mod 64; 0x80 + c / 64 mod 64; 0x80 + c mod 64].

Definition encode_string (cs : list Z) : list Z := concat (map encode_char cs).

(** ** The character validator *)

Definition in_rng (lo hi b : Z) : bool := (lo <=? b) && (b <=? hi).

(** Comparing signed characters is comparing the bytes, for a range on one side of 0x80. *)
Lemma rng_spec lo hi b :
  byte_ok b -> 0 <= lo -> lo <= hi < 256 -> (hi < 128 \/ 128 <= lo) ->
  ((schar b <? schar lo) || (schar hi <? schar b)) = negb (in_rng lo hi b).
Proof.
  unfold byte_ok, schar, in_rng. intros.
  destruct (Z.ltb_spec b 128), (Z.ltb_spec lo 128), (Z.ltb_spec hi 128); zcases; simpl; lia.
Qed.

Lemma in_rng_spec lo hi b : in_rng lo hi b = true <-> lo <= b <= hi.
Proof. unfold in_rng. rewrite andb_true_iff, !Z.leb_le. tauto. Qed.

Lemma charlen_of_spec b :
  byte_ok b ->
  charlen_of b = if b <? 0x80 then 1 else if b <? 0xE0 then 2 else if b <? 0xF0 then 3 else 4.
Proof.
  intros Hb. apply Z.eqb_eq.
  apply (byte_forall (fun b => charlen_of b =? (if b <? 0x80 then 1 else
    if b <? 0xE0 then 2 else if b <? 0xF0 then 3 else 4))); [vm_compute; reflexivity | exact Hb].
Qed.

(** [matches rs data]: the first bytes of [data] lie in the (unsigned) ranges [rs]. *)
Definition matches (rs : list (Z * Z)) (data : list Z) : Prop :=
  exists pre rest, data = pre ++ rest /\ Forall2 (fun r b => r.1 <= b <= r.2) rs pre.

Definition good_rng (r : Z * Z) : Prop :=
  0 <= r.1 /\ r.1 <= r.2 < 256 /\ (r.2 < 128 \/ 128 <= r.1).

Lemma row_matches_spec rs data :
  Forall good_rng rs -> bytes_ok data ->
  row_matches (map (fun r => rng r.1 r.2) rs) data = true <-> matches rs data.
Proof.
  intros Hrs. revert data. induction Hrs as [|[lo hi] rs (H1 & H2 & H3) Hrs IH]; intros data Hd.
  - split; [|done]. intros _. exists [], data. split; [done | constructor].
  - destruct data as [|b data]; simpl.
    + split; [done|]. intros (pre & rest & Heq & Hf). inversion Hf; subst. discriminate Heq.
    + apply bytes_ok_cons in Hd as [Hb Hd]. simpl in *.
      rewrite rng_spec by done. specialize (IH data Hd).
      destruct (in_rng lo hi b) eqn:E; simpl.
      * apply in_rng_spec in E. rewrite IH. split.
        -- intros (pre & rest & -> & Hf). exists (b :: pre), rest. split; [done|]. by constructor.
        -- intros (pre & rest & Heq & Hf). inversion Hf as [|? y ? pre' Hy Hf']; subst.
           simplify_eq/=. by exists pre', rest.
      * split; [done|]. intros (pre & rest & Heq & Hf).
        inversion Hf as [|? y ? pre' Hy Hf']; subst. simplify_eq/=.
        apply in_rng_spec in Hy. congruence.
Qed.

(** The table with unsigned limits. *)
Definition utf8_rows : list (list (Z * Z)) :=
  [ [(0x00, 0x7F)];
    [(0xC2, 0xDF); (0x80, 0xBF)];
    [(0xE0, 0xE0); (0xA0, 0xBF); (0x80, 0xBF)];
    [(0xE1, 0xEC); (0x80, 0xBF); (0x80, 0xBF)];
    [(0xED, 0xED); (0x80, 0x9F); (0x80, 0xBF)];
    [(0xEE, 0xEF); (0x80, 0xBF); (0x80, 0xBF)];
    [(0xF0, 0xF0); (0x90, 0xBF); (0x80, 0xBF); (0x80, 0xBF)];
    [(0xF1, 0xF3); (0x80, 0xBF); (0x80, 0xBF); (0x80, 0xBF)];
    [(0xF4, 0xF4); (0x80, 0x8F); (0x80, 0xBF); (0x80, 0xBF)] ].

Lemma valid_ranges_rows :
  valid_ranges =
  map (fun rs => {| row_len := Zlen rs; row_bytes := map (fun r => rng r.1 r.2) rs |}) utf8_rows.
Proof. reflexivity. Qed.

Lemma utf8_rows_good : Forall (Forall good_rng) utf8_rows.
Proof. repeat first [apply Forall_nil_2 | apply Forall_cons_2 | (unfold good_rng; simpl; lia)]. Qed.

(** The lookup of a row is a membership question in the unsigned table. *)
Lemma find_row_spec charlen data :
  bytes_ok data ->
  existsb (fun row => (row_len row =? charlen) && row_matches (row_bytes row) data) valid_ranges
    = true <->
  exists rs, In rs utf8_rows /\ Zlen rs = charlen /\ matches rs data.
Proof.
  intros Hd. rewrite valid_ranges_rows, existsb_exists. split.
  - intros (row & Hin & Hb). apply in_map_iff in Hin as (rs & <- & Hin). simpl in Hb.
    apply andb_true_iff in Hb as [Hl Hm]. apply Z.eqb_eq in Hl.
    exists rs. split; [done|]. split; [done|]. apply row_matches_spec; [|done|done].
    apply (proj1 (List.Forall_forall _ _) utf8_rows_good). done.
  - intros (rs & Hin & Hl & Hm). eexists. split; [apply in_map, Hin|]. simpl.
    apply andb_true_iff. split; [by apply Z.eqb_eq|]. apply row_matches_spec; [|done|done].
    apply (proj1 (List.Forall_forall _ _) utf8_rows_good). done.
Qed.

(** What the rows describe is the encoding of the scalar values. *)
Lemma row_decodes rs pre :
  In rs utf8_rows -> Forall2 (fun r b => r.1 <= b <= r.2) rs pre ->
  exists c, scalar c /\ pre = encode_char c.
Proof.
  unfold scalar, encode_char.
  intros Hin HF. simpl in Hin.
  destruct Hin as [<-|[<-|[<-|[<-|[<-|[<-|[<-|[<-|[<-|[]]]]]]]]]];
    repeat match goal with
           | H : Forall2 _ (_ :: _) _ |- _ => inversion H; clear H; subst; simpl in *
           | H : Forall2 _ [] _ |- _ => inversion H; clear H; subst
           end.
  { match goal with |- context [[?b0]] => exists b0 end. zcases; split; try done; lia. }
  { match goal with |- context [[?b0; ?b1]] => exists ((b0 - 0xC0) * 64 + (b1 - 0x80)) end.
    zcases; try lia. split; [lia|]. repeat (f_equal; try dlia). }
  1-4: match goal with |- context [[?b0; ?b1; ?b2]] =>
         exists ((b0 - 0xE0) * 4096 + (b1 - 0x80) * 64 + (b2 - 0x80)) end;
       zcases; try lia; (split; [lia|]); repeat (f_equal; try dlia).
  all: match goal with |- context [[?b0; ?b1; ?b2; ?b3]] =>
         exists ((b0 - 0xF0) * 262144 + (b1 - 0x80) * 4096 + (b2 - 0x80) * 64 + (b3 - 0x80)) end;
       zcases; try lia; (split; [lia|]); repeat (f_equal; try dlia).
Qed.

Ltac in_row :=
  repeat first [apply Forall2_nil_2 | (apply Forall2_cons_2; [simpl; dlia|])].

Lemma scalar_row c :
  scalar c ->
  exists rs, In rs utf8_rows /\ Forall2 (fun r b => r.1 <= b <= r.2) rs (encode_char c).
Proof.
  unfold scalar, encode_char. intros Hc.
  assert (Hrow : forall i rs, utf8_rows !! i = Some rs -> In rs utf8_rows)
    by (intros i rs H; apply list_elem_of_In, list_elem_of_lookup; eauto).
  zcases.
  - exists [(0x00, 0x7F)]. split; [by apply (Hrow 0%nat)|]. in_row.
  - exists [(0xC2, 0xDF); (0x80, 0xBF)]. split; [by apply (Hrow 1%nat)|]. in_row.
  - destruct (Z_lt_le_dec c 0x1000); [|destruct (Z_lt_le_dec c 0xD000);
      [|destruct (Z_lt_le_dec c 0xE000)]].
    + eexists. split; [by apply (Hrow 2%nat)|]. in_row.
    + eexists. split; [by apply (Hrow 3%nat)|]. in_row.
    + eexists. split; [by apply (Hrow 4%nat)|]. in_row.
    + eexists. split; [by apply (Hrow 5%nat)|]. in_row.
  - destruct (Z_lt_le_dec c 0x40000); [|destruct (Z_lt_le_dec c 0x100000)].
    + eexists. split; [by apply (Hrow 6%nat)|]. in_row.
    + eexists. split; [by apply (Hrow 7%nat)|]. in_row.
    + eexists. split; [by apply (Hrow 8%nat)|]. in_row.
Qed.

Lemma row_charlen rs pre rest :
  In rs utf8_rows -> Forall2 (fun r b => r.1 <= b <= r.2) rs pre ->
  exists b tl, pre ++ rest = b :: tl /\ byte_ok b /\ charlen_of b = Zlen rs.
Proof.
  intros Hin HF. simpl in Hin.
  destruct Hin as [<-|[<-|[<-|[<-|[<-|[<-|[<-|[<-|[<-|[]]]]]]]]]];
    inversion HF as [|? b ? tl Hb]; subst; simpl in Hb;
    exists b, (tl ++ rest);
    (assert (byte_ok b) by (unfold byte_ok; lia));
    (split; [done|]); (split; [done|]); rewrite charlen_of_spec by done;
    unfold Zlen; simpl; zcases; lia.
Qed.

(** The validator steps over exactly one encoded scalar value, or fails. *)
Lemma UTF8_char_validate_spec data rest :
  bytes_ok data ->
  UTF8_char_validate (Zlen data) data = Some rest <->
  exists c, scalar c /\ data = encode_char c ++ rest.
Proof.
  intros Hd. split.
  - unfold UTF8_char_validate. destruct data as [|b tl] eqn:Ed; [done|]. rewrite <- Ed in *.
    destruct (Z.ltb_spec (Zlen data) (charlen_of b)); [done|].
    destruct (existsb _ _) eqn:Eb; [|done]. intros [= <-].
    apply find_row_spec in Eb as (rs & Hin & Hl & pre & rest' & Heq & HF); [|done].
    destruct (row_decodes _ _ Hin HF) as (c & Hc & Epre).
    exists c. split; [done|]. rewrite <- Epre, <- Hl, Zlen_to_nat, Heq.
    apply Forall2_length in HF. by rewrite HF, drop_app_exact.
  - intros (c & Hc & ->). destruct (scalar_row c Hc) as (rs & Hin & HF).
    destruct (row_charlen _ _ rest Hin HF) as (b & tl & Eb & Hb & Hcl).
    assert (Hlen := Forall2_length _ _ _ HF).
    unfold UTF8_char_validate. rewrite Eb, Hcl, <- Eb.
    destruct (Z.ltb_spec (Zlen (encode_char c ++ rest)) (Zlen rs)).
    { unfold Zlen in *. rewrite length_app in *. lia. }
    rewrite (proj2 (find_row_spec (Zlen rs) _ Hd)).
    { by rewrite Zlen_to_nat, Hlen, drop_app_exact. }
    exists rs. split; [done|]. split; [done|]. by exists (encode_char c), rest.
Qed.

Lemma encode_char_nonempty c : exists b tl, encode_char c = b :: tl.
Proof. unfold encode_char. zcases; eauto. Qed.

Lemma validate_loop_spec fuel l :
  bytes_ok l -> (length l <= fuel)%nat ->
  match validate_loop fuel (Some l) with
  | Some r => r = [] /\ exists cs, Forall scalar cs /\ l = encode_string cs
  | None => ~ exists cs, Forall scalar cs /\ l = encode_string cs
  end.
Proof.
  revert l. induction fuel as [|fuel IH]; intros l Hl Hf.
  - destruct l; [|simpl in Hf; lia]. simpl. split; [done|]. by exists [].
  - destruct l as [|b l'] eqn:El; [simpl; split; [done|]; by exists []|]. rewrite <- El in *.
    assert (validate_loop (S fuel) (Some l) =
            validate_loop fuel (UTF8_char_validate (Zlen l) l)) as -> by by rewrite El.
    destruct (UTF8_char_validate (Zlen l) l) as [rest|] eqn:Ev.
    + apply UTF8_char_validate_spec in Ev as (c & Hc & Heq); [|done].
      destruct (encode_char_nonempty c) as (b0 & t0 & Ec).
      assert (bytes_ok rest) as Hr by (rewrite Heq, bytes_ok_app in Hl; tauto).
      assert (length rest <= fuel)%nat as Hfr
        by (rewrite Heq, Ec in Hf; simpl in Hf; rewrite length_app in Hf; lia).
      specialize (IH rest Hr Hfr). destruct (validate_loop fuel (Some rest)).
      * destruct IH as (-> & cs & Hcs & ->). split; [done|].
        exists (c :: cs). split; [by constructor|]. done.
      * intros (cs & Hcs & Hcs'). apply IH. destruct Hcs as [|c' cs Hc' Hcs]; [rewrite El in Hcs'; discriminate Hcs'|].
        assert (UTF8_char_validate (Zlen l) l = Some (encode_string cs)) as E1
          by (apply UTF8_char_validate_spec; eauto).
        assert (UTF8_char_validate (Zlen l) l = Some rest) as E2
          by (apply UTF8_char_validate_spec; eauto).
        exists cs. split; [done|]. congruence.
    + assert (validate_loop fuel None = None) as -> by by destruct fuel.
      intros (cs & Hcs & Hcs'). destruct Hcs as [|c' cs Hc' Hcs]; [rewrite El in Hcs'; discriminate Hcs'|].
      assert (UTF8_char_validate (Zlen l) l = Some (encode_string cs)) as E1
        by (apply UTF8_char_validate_spec; eauto).
      congruence.
Qed.

(** C35. [UTF8_validate] accepts a byte string exactly when it is the UTF-8
    encoding of a sequence of Unicode scalar values: overlong forms, surrogates,
    code points above 10FFFF, stray continuation bytes and truncated characters
    are all refused and everything else is accepted.  The validation loop always
    ends: the fuel is the length of the string. *)
Theorem UTF8_validate_iff (d : list Z) :
  bytes_ok d ->
  UTF8_validate (Zlen d) (Some d) = true <->
  exists cs, Forall scalar cs /\ d = encode_string cs.
Proof.
  intros Hd. unfold UTF8_validate.
  destruct d as [|b d'] eqn:Ed; [simpl; split; [by exists []|done]|]. rewrite <- Ed in *.
  destruct (Z.eqb_spec (Zlen d) 0); [subst; zlen|].
  assert (validate_loop (length d) (UTF8_char_validate (Zlen d) d) =
          validate_loop (S (length d)) (Some d)) as -> by by rewrite Ed.
  pose proof (validate_loop_spec (S (length d)) d Hd ltac:(lia)) as H.
  destruct (validate_loop (S (length d)) (Some d)); [tauto|]. split; [done|tauto].
Qed.

(** The two-character string "A" U+1D11E. *)
Lemma UTF8_validate_iff_witness :
  bytes_ok [0x41; 0xF0; 0x9D; 0x84; 0x9E] /\
  UTF8_validate 5 (Some [0x41; 0xF0; 0x9D; 0x84; 0x9E]) = true.
Proof.
  assert (bytes_ok [0x41; 0xF0; 0x9D; 0x84; 0x9E]) as H by by_compute.
  split; [exact H|].
  apply (UTF8_validate_iff _ H). exists [0x41; 0x1D11E]. split; [|reflexivity].
  repeat constructor; unfold scalar; lia.
Defined.

End Utf8.
