(* ===== verification/Wire.v ===== *)
(** * The wire primitives of [src/src/MQTTPacket.c]

    Variable byte integers, two and four byte integers, length-prefixed strings:
    the readers work on the bytes between the cursor and [enddata] (running past
    them is [Oob]), the writers return the bytes they store. *)

From S2P Require Import Prelude.
From Stdlib Require Import ZArith Lia List.
From stdpp Require Import base numbers list.

Open Scope Z_scope.

Module Wire.

(** ** Definitions *)

(** [readChar]: one byte. *)
Definition readChar (l : list Z) : res (Z * list Z) :=
  match l with
  | b :: rest => Ok (b, rest)
  | [] => Oob
  end.

(** [readInt]: a two byte, big endian integer. *)
Definition readInt (l : list Z) : res (Z * list Z) :=
  match l with
  | a :: b :: rest => Ok (256 * a + b, rest)
  | _ => Oob
  end.

(** [readInt4]: the products and the sum are of type [int]; the result is the
    two's complement value. *)
Definition readInt4 (l : list Z) : res (Z * list Z) :=
  match l with
  | a :: b :: c :: d :: rest => Ok (to_i32 (16777216 * a + 65536 * b + 256 * c + d), rest)
  | _ => Oob
  end.

(** Moving the cursor forward by [n] bytes. *)
Definition skip (n : Z) (l : list Z) : res (list Z) :=
  if Zlen l <? n then Oob else Ok (drop (Z.to_nat n) l).

(** [readUTFlen]: [NULL] when the length does not fit before [enddata]. *)
Definition readUTFlen (l : list Z) : res (list Z * Z * list Z) :=
  if Zlen l >? 1 then
    '(len, l1) ← readInt l;
    if len <=? Zlen l1 then
      Ok (take (Z.to_nat len) l1, len, drop (Z.to_nat len) l1)
    else Fail
  else Fail.

Definition readUTF (l : list Z) : res (list Z * list Z) :=
  '(s, _, rest) ← readUTFlen l; Ok (s, rest).

(** [MQTTLenStringRead]: the length returned is that of the field, prefix included. *)
Definition MQTTLenStringRead (l : list Z) : res (list Z * Z * list Z) :=
  if Zlen l >? 1 then
    '(len, l1) ← readInt l;
    if len <=? Zlen l1 then
      Ok (take (Z.to_nat len) l1, 2 + len, drop (Z.to_nat len) l1)
    else Fail
  else Fail.

(** [writeChar]: a [char] is stored. *)
Definition writeChar (c : Z) : list Z := [to_byte c].

(** [writeInt]: C division truncates. *)
Definition writeInt (anInt : Z) : list Z :=
  [to_byte (Z.quot anInt 256); to_byte (Z.rem anInt 256)].

(** [writeInt4]: the parameter is an [int]. *)
Definition writeInt4 (anInt0 : Z) : list Z :=
  let anInt := to_i32 anInt0 in
  let b3 := to_byte (Z.quot anInt 16777216) in
  let anInt := Z.rem anInt 16777216 in
  let b2 := to_byte (Z.quot anInt 65536) in
  let anInt := Z.rem anInt 65536 in
  [b3; b2; to_byte (Z.quot anInt 256); to_byte (Z.rem anInt 256)].

(** A C string is the list of its bytes, up to the first zero. *)
Fixpoint cstr (l : list Z) : list Z :=
  match l with
  | [] => []
  | b :: l' => if b =? 0 then [] else b :: cstr l'
  end.

Definition strlen (s : list Z) : Z := Zlen (cstr s).

(** [writeUTF]: [strlen] bytes of the string after their number. *)
Definition writeUTF (string : list Z) : list Z :=
  writeInt (strlen string) ++ cstr string.

(** [writeData] and [writeMQTTLenString]: [datalen] bytes, the data being that long. *)
Definition writeData (data : list Z) : list Z := writeInt (Zlen data) ++ data.
Definition writeMQTTLenString (data : list Z) : list Z := writeInt (Zlen data) ++ data.

(** [MQTTPacket_encode]: a [size_t] is exhausted after ten base 128 digits. *)
Fixpoint encode_loop (fuel : nat) (length : Z) : list Z :=
  match fuel with
  | O => []
  | S fuel' =>
      let d := length mod 128 in
      let length' := length / 128 in
      if 0 <? length' then Z.lor d 128 :: encode_loop fuel' length' else [d]
  end.

Definition MQTTPacket_encode (length : Z) : list Z := encode_loop 10 (to_u64 length).

(** [MQTTPacket_VBIlen]: the parameter is an [int]. *)
Definition MQTTPacket_VBIlen (rem_len0 : Z) : Z :=
  let rem_len := to_i32 rem_len0 in
  if rem_len <? 128 then 1
  else if rem_len <? 16384 then 2
  else if rem_len <? 2097152 then 3
  else 4.

(** [MQTTPacket_VBIdecode]: the [do] loop.  [getc] is [getcharfn], with the state
    of the source; the result is the length returned and the value stored. *)
Section VBIdecode.
Context {S : Type} (getc : S -> res (Z * S)).

Fixpoint VBIdecode_loop (fuel : nat) (len value multiplier : Z) (s : S) : res (Z * Z) :=
  match fuel with
  | O => Fail
  | Datatypes.S fuel' =>
      let len := len + 1 in
      if 4 <? len then Ok (len, value)
      else
        '(c, s') ← getc s;
        let value := to_u32 (value + Z.land c 127 * multiplier) in
        let multiplier := multiplier * 128 in
        if negb (Z.land c 128 =? 0) then VBIdecode_loop fuel' len value multiplier s'
        else Ok (len, value)
  end.

(** At most five turns, the fifth one giving up. *)
Definition MQTTPacket_VBIdecode (s : S) : res (Z * Z) := VBIdecode_loop 5 0 0 1 s.
End VBIdecode.

(** [bufchar(&c, 1)] reads the next byte of the buffer. *)
Definition bufchar : list Z -> res (Z * list Z) := readChar.

(** [MQTTPacket_decodeBuf]: the length and the value; the caller moves its cursor. *)
Definition MQTTPacket_decodeBuf (l : list Z) : res (Z * Z) := MQTTPacket_VBIdecode bufchar l.

#[global] Arguments writeInt : simpl never.
#[global] Arguments writeInt4 : simpl never.
#[global] Arguments writeUTF : simpl never.
#[global] Arguments writeData : simpl never.
#[global] Arguments writeMQTTLenString : simpl never.
#[global] Arguments MQTTPacket_encode : simpl never.

(** ** Readers and writers: round trips *)

Lemma cstr_id s : Forall (fun b => b <> 0) s -> cstr s = s.
Proof.
  induction 1 as [|b s Hb Hs IH]; [done|]. simpl.
  destruct (Z.eqb_spec b 0); [done|]. by rewrite IH.
Qed.

Lemma writeInt_length n : Zlen (writeInt n) = 2.
Proof. reflexivity. Qed.

Lemma writeInt4_length n : Zlen (writeInt4 n) = 4.
Proof. reflexivity. Qed.

Lemma writeUTF_length s : Zlen (writeUTF s) = strlen s + 2.
Proof. unfold writeUTF, strlen. rewrite Zlen_app, writeInt_length. lia. Qed.

Lemma writeMQTTLenString_length s : Zlen (writeMQTTLenString s) = Zlen s + 2.
Proof. unfold writeMQTTLenString. rewrite Zlen_app, writeInt_length. lia. Qed.

Lemma writeInt_bytes n : bytes_ok (writeInt n).
Proof. unfold writeInt, bytes_ok. auto with mqtt. Qed.

Lemma readChar_write c out rest :
  readChar ((writeChar c ++ out) ++ rest) = Ok (to_byte c, out ++ rest).
Proof. reflexivity. Qed.

Lemma writeInt_u16 n rest : u16_ok n -> readInt (writeInt n ++ rest) = Ok (n, rest).
Proof.
  unfold u16_ok. intros Hn. unfold writeInt, to_byte. simpl.
  rewrite Z.quot_div_nonneg, Z.rem_mod_nonneg by lia. repeat f_equal. dlia.
Qed.

Lemma readUTFlen_write s rest :
  Zlen s < 65536 ->
  readUTFlen (writeInt (Zlen s) ++ s ++ rest) = Ok (s, Zlen s, rest).
Proof.
  intros Hs. unfold readUTFlen.
  destruct (Z.gtb_spec (Zlen (writeInt (Zlen s) ++ s ++ rest)) 1) as [Hl|Hl].
  - rewrite writeInt_u16 by zlen. simpl.
    destruct (Z.leb_spec (Zlen s) (Zlen (s ++ rest))); [|zlen].
    by rewrite Zlen_to_nat, take_app_exact, drop_app_exact.
  - rewrite Zlen_app, writeInt_length in Hl. zlen.
Qed.

Lemma MQTTLenStringRead_write s rest :
  Zlen s < 65536 ->
  MQTTLenStringRead (writeMQTTLenString s ++ rest) = Ok (s, 2 + Zlen s, rest).
Proof.
  intros Hs. unfold MQTTLenStringRead, writeMQTTLenString. rewrite <- app_assoc.
  destruct (Z.gtb_spec (Zlen (writeInt (Zlen s) ++ s ++ rest)) 1) as [Hl|Hl].
  - rewrite writeInt_u16 by zlen. simpl.
    destruct (Z.leb_spec (Zlen s) (Zlen (s ++ rest))); [|zlen].
    by rewrite Zlen_to_nat, take_app_exact, drop_app_exact.
  - rewrite Zlen_app, writeInt_length in Hl. zlen.
Qed.

(** ** Variable byte integers *)

Lemma cont_digit d :
  0 <= d < 128 ->
  Z.land (Z.lor d 128) 127 = d /\ Z.land (Z.lor d 128) 128 <> 0 /\ byte_ok (Z.lor d 128).
Proof.
  intros Hd.
  pose proof (byte_forall (fun d => (128 <=? d) ||
    ((Z.land (Z.lor d 128) 127 =? d) && negb (Z.land (Z.lor d 128) 128 =? 0)
     && (0 <=? Z.lor d 128) && (Z.lor d 128 <? 256)))
    ltac:(vm_compute; reflexivity) d ltac:(unfold byte_ok; lia)) as H. simpl in H.
  unfold byte_ok. lia.
Qed.

Lemma last_digit d : 0 <= d < 128 -> Z.land d 127 = d /\ Z.land d 128 = 0.
Proof.
  intros Hd.
  pose proof (byte_forall (fun d => (128 <=? d) ||
    ((Z.land d 127 =? d) && (Z.land d 128 =? 0)))
    ltac:(vm_compute; reflexivity) d ltac:(unfold byte_ok; lia)) as H. simpl in H. lia.
Qed.

Lemma encode_loop_bytes f n : bytes_ok (encode_loop f n).
Proof.
  revert n. induction f as [|f IH]; intros n; simpl; [constructor|].
  assert (0 <= n mod 128 < 128) by dlia.
  case_match; constructor; [apply cont_digit; lia | apply IH | unfold byte_ok; lia | constructor].
Qed.

Lemma encode_loop_nonempty f n : 1 <= Zlen (encode_loop (S f) n).
Proof. simpl. case_match; zlen. Qed.

(** One turn of the loops. *)
Lemma VBIdecode_loop_cons f len v m b l :
  VBIdecode_loop bufchar (S f) len v m (b :: l) =
  if 4 <? len + 1 then Ok (len + 1, v)
  else let v' := to_u32 (v + Z.land b 127 * m) in
       if negb (Z.land b 128 =? 0) then VBIdecode_loop bufchar f (len + 1) v' (m * 128) l
       else Ok (len + 1, v').
Proof. reflexivity. Qed.

Lemma encode_loop_S g n :
  encode_loop (S g) n =
  if 0 <? n / 128 then Z.lor (n mod 128) 128 :: encode_loop g (n / 128) else [n mod 128].
Proof. reflexivity. Qed.

(** [decode] after [encode], from any point of the loop where there is room. *)
Lemma VBIdecode_loop_encode f len v m n rest :
  (1 <= f <= 4)%nat -> len = 4 - Z.of_nat f -> 0 <= v -> 0 < m -> 0 <= n < 128 ^ Z.of_nat f ->
  v + n * m < 4294967296 ->
  forall g, (f <= g)%nat ->
  VBIdecode_loop bufchar (S f) len v m (encode_loop g n ++ rest) =
    Ok (len + Zlen (encode_loop g n), v + n * m).
Proof.
  revert len v m n. induction f as [|f IH]; intros len v m n Hf -> Hv Hm Hn Hb g Hg; [lia|].
  destruct g as [|g]; [lia|].
  assert (0 <= n mod 128 < 128 /\ n = 128 * (n / 128) + n mod 128) as [Hd Hdiv] by dlia.
  rewrite encode_loop_S.
  destruct (Z.ltb_spec 0 (n / 128)) as [Hq|Hq];
    (cbn [app]; rewrite VBIdecode_loop_cons;
     destruct (Z.ltb_spec 4 (4 - Z.of_nat (S f) + 1)); [lia|]; cbv zeta).
  - destruct (cont_digit (n mod 128) Hd) as (-> & E2 & _).
    destruct (Z.eqb_spec (Z.land (Z.lor (n mod 128) 128) 128) 0); [done|].
    cbn [negb].
    assert (v + n mod 128 * m + (n / 128) * (m * 128) = v + n * m) as Hsum by nia.
    assert (0 <= n / 128 * (m * 128)) by (apply Z.mul_nonneg_nonneg; nia).
    assert (0 <= n mod 128 * m) by (apply Z.mul_nonneg_nonneg; lia).
    rewrite to_u32_id by (unfold u32_ok; lia).
    rewrite Nat2Z.inj_succ, Z.pow_succ_r in Hn by lia.
    assert (f <> 0)%nat by (intros ->; change (128 ^ Z.of_nat 0) with 1 in Hn; dlia).
    assert (n / 128 < 128 ^ Z.of_nat f) by (apply Z.div_lt_upper_bound; lia).
    rewrite IH; [|lia|lia|lia|lia|lia|lia|lia].
    f_equal. f_equal; [zlen|lia].
  - destruct (last_digit (n mod 128) Hd) as (-> & ->). cbn [negb Z.eqb].
    replace (n / 128) with 0 in Hdiv by dlia. replace (n mod 128) with n by lia.
    rewrite to_u32_id by (unfold u32_ok; nia). repeat f_equal; zlen.
Qed.

(** The size [MQTTProperties_len] and [MQTTPacket_send] reckon with. *)
Lemma VBIlen_encode n :
  0 <= n < 268435456 -> Zlen (MQTTPacket_encode n) = MQTTPacket_VBIlen n.
Proof.
  intros Hn. unfold MQTTPacket_encode, MQTTPacket_VBIlen.
  unfold to_u64. rewrite Z.mod_small by lia. rewrite to_i32_id by lia.
  cbn [encode_loop].
  destruct (Z.ltb_spec n 128); [destruct (Z.ltb_spec 0 (n / 128)); [dlia|done]|].
  destruct (Z.ltb_spec 0 (n / 128)); [|dlia].
  destruct (Z.ltb_spec n 16384); [destruct (Z.ltb_spec 0 (n / 128 / 128)); [dlia|done]|].
  destruct (Z.ltb_spec 0 (n / 128 / 128)); [|dlia].
  destruct (Z.ltb_spec n 2097152); [destruct (Z.ltb_spec 0 (n / 128 / 128 / 128)); [dlia|done]|].
  destruct (Z.ltb_spec 0 (n / 128 / 128 / 128)); [|dlia].
  destruct (Z.ltb_spec 0 (n / 128 / 128 / 128 / 128)); [dlia|done].
Qed.

Lemma encode_length_pos n : 1 <= Zlen (MQTTPacket_encode n).
Proof. apply (encode_loop_nonempty 9). Qed.

Lemma decodeBuf_encode n rest :
  0 <= n < 268435456 ->
  MQTTPacket_decodeBuf (MQTTPacket_encode n ++ rest) = Ok (MQTTPacket_VBIlen n, n).
Proof.
  intros Hn. rewrite <- VBIlen_encode by done.
  unfold MQTTPacket_decodeBuf, MQTTPacket_VBIdecode, MQTTPacket_encode.
  unfold to_u64. rewrite Z.mod_small by lia.
  rewrite (VBIdecode_loop_encode 4 0 0 1 n rest) by lia.
  f_equal. f_equal; lia.
Qed.

Lemma skip_app l k : skip (Zlen l) (l ++ k) = Ok k.
Proof.
  unfold skip. destruct (Z.ltb_spec (Zlen (l ++ k)) (Zlen l)); [zlen|].
  by rewrite Zlen_to_nat, drop_app_exact.
Qed.

(** Beyond four digits the decoder keeps the low ones and reports five bytes. *)
Lemma VBIdecode_loop_long f len v m n rest :
  (f <= 4)%nat -> len = 4 - Z.of_nat f -> 0 <= v < m -> 0 < m -> 128 ^ Z.of_nat f <= n ->
  m * 128 ^ Z.of_nat f <= 4294967296 ->
  forall g, (f < g)%nat ->
  VBIdecode_loop bufchar (S f) len v m (encode_loop g n ++ rest) =
    Ok (5, v + n mod 128 ^ Z.of_nat f * m).
Proof.
  revert len v m n. induction f as [|f IH]; intros len v m n Hf -> Hv Hm Hn Hb g Hg.
  - destruct g as [|g]; [lia|]. rewrite encode_loop_S. change (128 ^ Z.of_nat 0) with 1.
    rewrite Z.mod_1_r. case_match; cbn [app]; rewrite VBIdecode_loop_cons; simpl; f_equal; f_equal; lia.
  - destruct g as [|g]; [lia|].
    rewrite Nat2Z.inj_succ, Z.pow_succ_r in * by lia.
    assert (0 < 128 ^ Z.of_nat f) as Hp by (apply Z.pow_pos_nonneg; lia).
    assert (0 <= n mod 128 < 128 /\ n = 128 * (n / 128) + n mod 128) as [Hd Hdiv] by dlia.
    assert (128 ^ Z.of_nat f <= n / 128) as Hn' by (apply Z.div_le_lower_bound; lia).
    rewrite encode_loop_S. destruct (Z.ltb_spec 0 (n / 128)); [|lia].
    cbn [app]. rewrite VBIdecode_loop_cons.
    destruct (Z.ltb_spec 4 (4 - Z.succ (Z.of_nat f) + 1)); [lia|]. cbv zeta.
    destruct (cont_digit (n mod 128) Hd) as (-> & E2 & _).
    destruct (Z.eqb_spec (Z.land (Z.lor (n mod 128) 128) 128) 0); [done|]. cbn [negb].
    assert (0 <= n mod 128 * m) by (apply Z.mul_nonneg_nonneg; lia).
    assert (n mod 128 * m <= 127 * m) by (apply Z.mul_le_mono_nonneg_r; lia).
    assert (m * 1 <= m * 128 ^ Z.of_nat f) by (apply Z.mul_le_mono_nonneg_l; lia).
    rewrite to_u32_id by (unfold u32_ok; lia).
    rewrite IH by lia.
    rewrite (Z.rem_mul_r n 128) by lia. f_equal. f_equal. lia.
Qed.

(** The readers only move forward over the bytes they are given. *)
Lemma skip_sound n l rest : 0 <= n -> skip n l = Ok rest -> exists pre, l = pre ++ rest /\ Zlen pre = n.
Proof.
  unfold skip. intros Hn. destruct (Z.ltb_spec (Zlen l) n); [done|]. intros [= <-].
  exists (take (Z.to_nat n) l). rewrite take_drop. split; [done|].
  unfold Zlen in *. rewrite length_take. lia.
Qed.

Lemma readInt_sound l n rest :
  bytes_ok l -> readInt l = Ok (n, rest) -> u16_ok n /\ exists a b, l = a :: b :: rest.
Proof.
  intros Hl. destruct l as [|a [|b l]]; [done..|]. intros [= <- <-].
  rewrite !bytes_ok_cons in Hl. unfold u16_ok, byte_ok in *. split; [lia|eauto].
Qed.

Lemma MQTTLenStringRead_sound l s n rest :
  bytes_ok l -> MQTTLenStringRead l = Ok (s, n, rest) ->
  exists pre, l = pre ++ s ++ rest /\ Zlen pre = 2 /\ n = 2 + Zlen s /\ Zlen s < 65536.
Proof.
  intros Hl. unfold MQTTLenStringRead. destruct (Z.gtb_spec (Zlen l) 1); [|done].
  destruct (readInt l) as [[len l1]| |] eqn:E; [|done|done]. cbn [mbind res_bind].
  apply readInt_sound in E as (Hn & a & b & ->); [|done]. unfold u16_ok in Hn.
  destruct (Z.leb_spec len (Zlen l1)); [|done]. intros [= <- <- <-].
  exists [a; b]. rewrite take_drop. split; [done|]. split; [done|].
  unfold Zlen in *. rewrite length_take. lia.
Qed.

Lemma VBIdecode_loop_sound f len v m l n x :
  VBIdecode_loop bufchar f len v m l = Ok (n, x) -> 0 <= len <= 4 -> 0 <= v < m -> 
  m = 128 ^ len -> len < n <= 5 /\ 0 <= x < 268435456 /\ x < 128 ^ n.
Proof.
  revert len v m l. induction f as [|f IH]; intros len v m l H Hl Hv Hm; [done|].
  destruct l as [|b l].
  { simpl in H. destruct (Z.ltb_spec 4 (len + 1)); [|done]. injection H as <- <-.
    replace len with 4 in * by lia. subst m. lia. }
  rewrite VBIdecode_loop_cons in H. destruct (Z.ltb_spec 4 (len + 1)).
  { injection H as <- <-. replace len with 4 in * by lia. subst m. lia. }
  cbv zeta in H. pose proof (Z.land_nonneg b 127) as [_ Hb0]. specialize (Hb0 ltac:(lia)).
  assert (Z.land b 127 < 128) as Hb.
  { change 127 with (Z.ones 7). rewrite Z.land_ones by lia. dlia. }
  assert (m * 128 = 128 ^ (len + 1)) as Hm' by (rewrite Z.pow_add_r, Hm by lia; lia).
  assert (m * 128 <= 268435456) as Hmax.
  { rewrite Hm'. change 268435456 with (128 ^ 4). apply Z.pow_le_mono_r; lia. }
  assert (0 <= Z.land b 127 * m <= 127 * m) by (split; [apply Z.mul_nonneg_nonneg; lia|
    apply Z.mul_le_mono_nonneg_r; lia]).
  rewrite to_u32_id in H by (unfold u32_ok; lia).
  destruct (Z.land b 128 =? 0); simpl in H.
  - injection H as <- <-. lia.
  - apply IH in H; [|lia..]. lia.
Qed.

Lemma decodeBuf_sound l n x :
  MQTTPacket_decodeBuf l = Ok (n, x) -> 1 <= n <= 5 /\ 0 <= x < 268435456.
Proof. intros H. apply VBIdecode_loop_sound in H; try lia; done. Qed.

(** The canonical encoding of a value read is not longer than what was read. *)
Lemma decodeBuf_canonical l n x : MQTTPacket_decodeBuf l = Ok (n, x) -> MQTTPacket_VBIlen x <= n.
Proof.
  intros H. apply VBIdecode_loop_sound in H as (Hn & Hx & Hp); [|lia..|done].
  unfold MQTTPacket_VBIlen. rewrite to_i32_id by lia.
  assert (n = 1 \/ n = 2 \/ n = 3 \/ 4 <= n) as [-> | [-> | [-> | ?]]] by lia; zcases; lia.
Qed.

(** Variable byte integers round-trip: for every value MQTT allows, what
    [MQTTPacket_encode] writes is read back by [MQTTPacket_decodeBuf], which
    reports the number of bytes [MQTTPacket_VBIlen] announced and leaves the
    cursor right behind them. *)
Theorem VBI_roundtrip (n : Z) (rest : list Z) :
  0 <= n < 268435456 ->
  MQTTPacket_decodeBuf (MQTTPacket_encode n ++ rest) = Ok (MQTTPacket_VBIlen n, n) /\
  skip (MQTTPacket_VBIlen n) (MQTTPacket_encode n ++ rest) = Ok rest /\
  bytes_ok (MQTTPacket_encode n).
Proof.
  intros Hn. split; [by apply decodeBuf_encode|]. split; [|apply encode_loop_bytes].
  rewrite <- VBIlen_encode by done. apply skip_app.
Qed.

Lemma VBI_roundtrip_witness :
  MQTTPacket_encode 268435455 = [255; 255; 255; 127] /\
  MQTTPacket_decodeBuf ([255; 255; 255; 127] ++ [7]) = Ok (4, 268435455).
Proof.
  split; [reflexivity|]. apply (VBI_roundtrip 268435455 [7]). lia.
Defined.

(** Nothing refuses a length above 268435455 when a packet is written:
    [MQTTPacket_encode] then writes five bytes or more, [MQTTPacket_VBIlen] still
    announces four (or one, when the length is no positive [int]), and the decoder
    gives up after four digits with a truncated value. *)
Theorem VBI_oversize (n : Z) (rest : list Z) :
  268435456 <= n < 18446744073709551616 ->
  MQTTPacket_decodeBuf (MQTTPacket_encode n ++ rest) = Ok (5, n mod 268435456) /\
  5 <= Zlen (MQTTPacket_encode n) /\ MQTTPacket_VBIlen n <= 4.
Proof.
  intros Hn. unfold MQTTPacket_decodeBuf, MQTTPacket_VBIdecode, MQTTPacket_encode.
  unfold to_u64. rewrite Z.mod_small by lia. split; [|split].
  - rewrite (VBIdecode_loop_long 4) by lia. change (128 ^ Z.of_nat 4) with 268435456. f_equal. f_equal. lia.
  - do 4 (rewrite encode_loop_S; match goal with |- context [0 <? ?q] =>
      destruct (Z.ltb_spec 0 q); [|dlia] end; rewrite Zlen_cons).
    pose proof (encode_loop_nonempty 5 (n / 128 / 128 / 128 / 128)). lia.
  - unfold MQTTPacket_VBIlen. repeat case_match; lia.
Qed.

Lemma VBI_oversize_witness :
  MQTTPacket_decodeBuf (MQTTPacket_encode 268435456 ++ []) = Ok (5, 0).
Proof. apply (VBI_oversize 268435456 []). lia. Defined.

(** Values below 2^31 survive [writeInt4] and [readInt4]. *)
Lemma writeInt4_small n rest :
  0 <= n < 2147483648 -> readInt4 (writeInt4 n ++ rest) = Ok (n, rest).
Proof.
  intros Hn. unfold writeInt4, readInt4, to_byte. rewrite to_i32_id by lia. cbn [app].
  rewrite !Z.rem_mod_nonneg, !Z.quot_div_nonneg by dlia.
  f_equal. f_equal. rewrite to_i32_id; dlia.
Qed.

(** [writeInt4] takes an [int] and divides with truncation: an unsigned four
    byte value survives [writeInt4] and [readInt4] exactly when it is below 2^31 or
    a multiple of 2^24. Every other value with the top bit set, such as
    4294967295, is sent as another number. *)
Theorem writeInt4_roundtrip_iff (n : Z) (rest : list Z) :
  u32_ok n ->
  (exists i, readInt4 (writeInt4 n ++ rest) = Ok (i, rest) /\ to_u32 i = n) <->
  n < 2147483648 \/ n mod 16777216 = 0.
Proof.
  intros Hn. unfold u32_ok in Hn.
  set (w := 16777216 * to_byte (Z.quot (to_i32 n) 16777216)
            + 65536 * to_byte (Z.quot (Z.rem (to_i32 n) 16777216) 65536)
            + 256 * to_byte (Z.quot (Z.rem (Z.rem (to_i32 n) 16777216) 65536) 256)
            + to_byte (Z.rem (Z.rem (Z.rem (to_i32 n) 16777216) 65536) 256)).
  assert (readInt4 (writeInt4 n ++ rest) = Ok (to_i32 w, rest)) as -> by reflexivity.
  assert (u32_ok w) as Hw.
  { unfold u32_ok, w. repeat match goal with |- context [to_byte ?x] =>
      let H := fresh in pose proof (to_byte_ok x) as H; unfold byte_ok in H;
      generalize dependent (to_byte x); intros end. lia. }
  assert (to_u32 (to_i32 w) = w) as Hw' by by apply to_i32_u32.
  assert (w = n <-> n < 2147483648 \/ n mod 16777216 = 0) as <-.
  { clear Hw Hw'. subst w. unfold to_i32, to_byte. rewrite (Z.mod_small n) by lia.
    destruct (Z.ltb_spec n 2147483648).
    - rewrite !Z.rem_mod_nonneg, !Z.quot_div_nonneg by dlia. dlia.
    - replace (n - 4294967296) with (- (4294967296 - n)) by lia.
      rewrite !Z.rem_opp_l, !Z.quot_opp_l by lia. dlia. }
  split.
  - intros (i & [= <-] & Hi). lia.
  - intros ->. eauto.
Qed.

Lemma writeInt4_roundtrip_iff_witness :
  u32_ok 4294967295 /\ readInt4 (writeInt4 4294967295) = Ok (255, []) /\
  ~ (exists i, readInt4 (writeInt4 4294967295 ++ []) = Ok (i, []) /\ to_u32 i = 4294967295).
Proof.
  assert (u32_ok 4294967295) as H by by_compute.
  split; [exact H|]. split; [reflexivity|].
  rewrite (writeInt4_roundtrip_iff 4294967295 [] H). intros [C|C]; [lia | discriminate C].
Defined.

(** The length-prefixed string reader is safe on every buffer: it never reads
    past [enddata], and when it succeeds the string, its length and the new cursor
    are those the two length bytes say; it fails exactly when the string does not
    fit. *)
Theorem readUTFlen_spec (l : list Z) :
  bytes_ok l ->
  match readUTFlen l with
  | Ok (s, len, rest) =>
      exists hi lo, l = hi :: lo :: s ++ rest /\ len = Zlen s /\ len = 256 * hi + lo
  | Fail => match l with
            | hi :: lo :: tl => Zlen tl < 256 * hi + lo
            | _ => True
            end
  | Oob => False
  end.
Proof.
  intros Hl. unfold readUTFlen.
  destruct l as [|hi [|lo tl]]; [done..|].
  destruct (Z.gtb_spec (Zlen (hi :: lo :: tl)) 1) as [_|H]; [|zlen].
  cbn [mbind res_bind readInt].
  rewrite !bytes_ok_cons in Hl. destruct Hl as (Hhi & Hlo & Htl).
  destruct (Z.leb_spec (256 * hi + lo) (Zlen tl)) as [H|H]; [|lia].
  exists hi, lo. rewrite take_drop. split; [done|]. split; [|done].
  unfold byte_ok, Zlen in *. rewrite length_take. lia.
Qed.

Lemma readUTFlen_spec_witness :
  bytes_ok [0; 2; 104; 105; 9] /\ readUTFlen [0; 2; 104; 105; 9] = Ok ([104; 105], 2, [9]) /\
  exists hi lo, [0; 2; 104; 105; 9] = hi :: lo :: [104; 105] ++ [9] /\ 2 = Zlen [104; 105] /\ 2 = 256 * hi + lo.
Proof.
  assert (bytes_ok [0; 2; 104; 105; 9]) as H by by_compute.
  split; [exact H|]. split; [reflexivity|]. exact (readUTFlen_spec _ H).
Defined.

End Wire.
