(* ===== verification/Properties.v ===== *)
(** * MQTT 5 properties ([src/src/MQTTProperties.c], [MQTTProperties.h])

    The property list with its growing array and its running byte length, the
    writer and the reader of the wire format, and the query functions. *)

From S2P Require Import Prelude.
From S2P Require Import Wire.
From Stdlib Require Import ZArith Lia List String.
From stdpp Require Import base numbers list.

Open Scope Z_scope.

Module Properties.
Import Wire.

(** ** Data *)

Inductive MQTTPropertyTypes :=
| TYPE_BYTE
| TYPE_TWO_BYTE_INTEGER
| TYPE_FOUR_BYTE_INTEGER
| TYPE_VARIABLE_BYTE_INTEGER
| TYPE_BINARY_DATA
| TYPE_UTF_8_ENCODED_STRING
| TYPE_UTF_8_STRING_PAIR.

#[export] Instance MQTTPropertyTypes_eq_dec : EqDecision MQTTPropertyTypes.
Proof. solve_decision. Defined.

(** The property codes, by their numbers. *)
Definition namesToTypes : list (Z * MQTTPropertyTypes) :=
  [ (1, TYPE_BYTE);                      (* PAYLOAD_FORMAT_INDICATOR *)
    (2, TYPE_FOUR_BYTE_INTEGER);         (* MESSAGE_EXPIRY_INTERVAL *)
    (3, TYPE_UTF_8_ENCODED_STRING);      (* CONTENT_TYPE *)
    (8, TYPE_UTF_8_ENCODED_STRING);      (* RESPONSE_TOPIC *)
    (9, TYPE_BINARY_DATA);               (* CORRELATION_DATA *)
    (11, TYPE_VARIABLE_BYTE_INTEGER);    (* SUBSCRIPTION_IDENTIFIER *)
    (17, TYPE_FOUR_BYTE_INTEGER);        (* SESSION_EXPIRY_INTERVAL *)
    (18, TYPE_UTF_8_ENCODED_STRING);     (* ASSIGNED_CLIENT_IDENTIFER *)
    (19, TYPE_TWO_BYTE_INTEGER);         (* SERVER_KEEP_ALIVE *)
    (21, TYPE_UTF_8_ENCODED_STRING);     (* AUTHENTICATION_METHOD *)
    (22, TYPE_BINARY_DATA);              (* AUTHENTICATION_DATA *)
    (23, TYPE_BYTE);                     (* REQUEST_PROBLEM_INFORMATION *)
    (24, TYPE_FOUR_BYTE_INTEGER);        (* WILL_DELAY_INTERVAL *)
    (25, TYPE_BYTE);                     (* REQUEST_RESPONSE_INFORMATION *)
    (26, TYPE_UTF_8_ENCODED_STRING);     (* RESPONSE_INFORMATION *)
    (28, TYPE_UTF_8_ENCODED_STRING);     (* SERVER_REFERENCE *)
    (31, TYPE_UTF_8_ENCODED_STRING);     (* REASON_STRING *)
    (33, TYPE_TWO_BYTE_INTEGER);         (* RECEIVE_MAXIMUM *)
    (34, TYPE_TWO_BYTE_INTEGER);         (* TOPIC_ALIAS_MAXIMUM *)
    (35, TYPE_TWO_BYTE_INTEGER);         (* TOPIC_ALIAS *)
    (36, TYPE_BYTE);                     (* MAXIMUM_QOS *)
    (37, TYPE_BYTE);                     (* RETAIN_AVAILABLE *)
    (38, TYPE_UTF_8_STRING_PAIR);        (* USER_PROPERTY *)
    (39, TYPE_FOUR_BYTE_INTEGER);        (* MAXIMUM_PACKET_SIZE *)
    (40, TYPE_BYTE);                     (* WILDCARD_SUBSCRIPTION_AVAILABLE *)
    (41, TYPE_BYTE);                     (* SUBSCRIPTION_IDENTIFIERS_AVAILABLE *)
    (42, TYPE_BYTE) ].                   (* SHARED_SUBSCRIPTION_AVAILABLE *)

(** The union [value]: the member last stored.  Reading another member is [Oob]. *)
Inductive pvalue :=
| PByte (byte : Z)
| PInteger2 (integer2 : Z)
| PInteger4 (integer4 : Z)
| PData (data : list Z)
| PPair (data value : list Z).

Record MQTTProperty := mkProperty { identifier : Z; value : pvalue }.

#[export] Instance pvalue_eq_dec : EqDecision pvalue.
Proof. solve_decision. Defined.
#[export] Instance MQTTProperty_eq_dec : EqDecision MQTTProperty.
Proof. solve_decision. Defined.

(** [array] is null or the entries stored so far. *)
Record MQTTProperties := mkProperties {
  count : Z;
  max_count : Z;
  length : Z;
  array : option (list MQTTProperty)
}.

#[export] Instance MQTTProperties_eq_dec : EqDecision MQTTProperties.
Proof. solve_decision. Defined.

Definition MQTTProperties_initializer : MQTTProperties := mkProperties 0 0 0 None.

(** The entries the loops over [i < count] visit. *)
Definition entries (props : MQTTProperties) : list MQTTProperty :=
  match array props with
  | Some a => take (Z.to_nat (count props)) a
  | None => []
  end.

(** ** Types of properties *)

Fixpoint assoc_find {A} (table : list (Z * A)) (key : Z) : option A :=
  match table with
  | [] => None
  | (k, a) :: table' => if k =? key then Some a else assoc_find table' key
  end.

(** [MQTTProperty_getType]: [None] is -1. *)
Definition MQTTProperty_getType (id : Z) : option MQTTPropertyTypes :=
  assoc_find namesToTypes id.

(** ** Lists of properties *)

(** [MQTTProperties_len]: a null pointer takes one byte on the wire. *)
Definition MQTTProperties_len (props : option MQTTProperties) : Z :=
  match props with
  | None => 1
  | Some p => length p + MQTTPacket_VBIlen (length p)
  end.

(** The bytes the value of a property takes, as [MQTTProperties_add] reckons. *)
Definition value_len (type : MQTTPropertyTypes) (v : pvalue) : res Z :=
  match type, v with
  | TYPE_BYTE, _ => Ok 1
  | TYPE_TWO_BYTE_INTEGER, _ => Ok 2
  | TYPE_FOUR_BYTE_INTEGER, _ => Ok 4
  | TYPE_VARIABLE_BYTE_INTEGER, PInteger4 n => Ok (MQTTPacket_VBIlen n)
  | TYPE_BINARY_DATA, PData d => Ok (2 + Zlen d)
  | TYPE_UTF_8_ENCODED_STRING, PData d => Ok (2 + Zlen d)
  | TYPE_UTF_8_STRING_PAIR, PPair d v => Ok (2 + Zlen d + (2 + Zlen v))
  | _, _ => Oob
  end.

(** [array[i] = p] in an array with room for [max] entries. *)
Definition array_store (max : Z) (a : list MQTTProperty) (i : Z) (p : MQTTProperty)
    : res (list MQTTProperty) :=
  if (i <? 0) || (max <=? i) then Oob
  else if i <? Zlen a then Ok (<[Z.to_nat i := p]> a)
  else if i =? Zlen a then Ok (a ++ [p])
  else Oob.

Definition MQTT_INVALID_PROPERTY_ID : Z := -2.

(** [MQTTProperties_add]: the return code and the new list.  [malloc] and
    [realloc] succeed; [realloc] keeps the entries. *)
Definition MQTTProperties_add (props : MQTTProperties) (prop : MQTTProperty)
    : res (Z * MQTTProperties) :=
  match MQTTProperty_getType (identifier prop) with
  | None => Ok (MQTT_INVALID_PROPERTY_ID, props)
  | Some type =>
      let '(max, arr) :=
        match array props with
        | None => (10, [])
        | Some a => (if count props =? max_count props then max_count props + 10
                     else max_count props, a)
        end in
      arr' ← array_store max arr (count props) prop;
      len ← value_len type (value prop);
      Ok (0, {| count := count props + 1; max_count := max;
                length := to_i32 (length props + (len + 1)); array := Some arr' |})
  end.

(** [MQTTProperty_write]: the bytes stored and the return code.  The error code
    of an unknown identifier, -1, is returned plus one. *)
Definition MQTTProperty_write (prop : MQTTProperty) : res (list Z * Z) :=
  match MQTTProperty_getType (identifier prop) with
  | None => Ok ([], -1 + 1)
  | Some type =>
      '(out, rc) ←
        match type, value prop with
        | TYPE_BYTE, PByte b => Ok (writeChar b, 1)
        | TYPE_TWO_BYTE_INTEGER, PInteger2 n => Ok (writeInt n, 2)
        | TYPE_FOUR_BYTE_INTEGER, PInteger4 n => Ok (writeInt4 n, 4)
        | TYPE_VARIABLE_BYTE_INTEGER, PInteger4 n =>
            let e := MQTTPacket_encode n in Ok (e, Zlen e)
        | TYPE_BINARY_DATA, PData d | TYPE_UTF_8_ENCODED_STRING, PData d =>
            Ok (writeMQTTLenString d, Zlen d + 2)
        | TYPE_UTF_8_STRING_PAIR, PPair d v =>
            Ok (writeMQTTLenString d ++ writeMQTTLenString v, Zlen d + Zlen v + 4)
        | _, _ => Oob
        end;
      Ok (writeChar (identifier prop) ++ out, rc + 1)
  end.

(** The loop of [MQTTProperties_write]. *)
Fixpoint write_loop (ps : list MQTTProperty) (rc len : Z) : res (list Z * Z) :=
  match ps with
  | [] => Ok ([], if 0 <=? rc then len else rc)
  | p :: ps' =>
      '(out, rc) ← MQTTProperty_write p;
      if rc <? 0 then Ok (out, rc)
      else '(out', rc') ← write_loop ps' rc (len + rc);
           Ok (out ++ out', rc')
  end.

(** [MQTTProperties_write]. *)
Definition MQTTProperties_write (properties : option MQTTProperties) : res (list Z * Z) :=
  match properties with
  | None => Ok (MQTTPacket_encode 0, 1)
  | Some p =>
      '(out, rc) ← write_loop (entries p) 1 1;
      Ok (MQTTPacket_encode (length p) ++ out, rc)
  end.

(** [MQTTProperty_read]: the property, the bytes it took and the cursor; [Fail] is -1. *)
Definition MQTTProperty_read (l : list Z) : res (MQTTProperty * Z * list Z) :=
  '(id, l) ← readChar l;
  match MQTTProperty_getType id with
  | None => Fail
  | Some type =>
      '(v, len, l) ←
        match type with
        | TYPE_BYTE => '(b, l) ← readChar l; Ok (PByte b, 1, l)
        | TYPE_TWO_BYTE_INTEGER => '(n, l) ← readInt l; Ok (PInteger2 n, 2, l)
        | TYPE_FOUR_BYTE_INTEGER => '(n, l) ← readInt4 l; Ok (PInteger4 (to_u32 n), 4, l)
        | TYPE_VARIABLE_BYTE_INTEGER =>
            '(len, n) ← MQTTPacket_decodeBuf l;
            l' ← skip len l;
            Ok (PInteger4 n, len, l')
        | TYPE_BINARY_DATA | TYPE_UTF_8_ENCODED_STRING =>
            '(d, len, l) ← MQTTLenStringRead l; Ok (PData d, len, l)
        | TYPE_UTF_8_STRING_PAIR =>
            '(d, len, l) ← MQTTLenStringRead l;
            '(v, proplen, l) ← MQTTLenStringRead l;
            Ok (PPair d v, len + proplen, l)
        end;
      Ok (mkProperty id v, len + 1, l)
  end.

(** The [while (remlength > 0)] loop of [MQTTProperties_read]; [remlength] is
    unsigned and wraps.  Every turn consumes at least one byte, so the number of
    bytes left bounds the turns; with none left the next read is out of bounds. *)
Fixpoint read_loop (fuel : nat) (remlength : Z) (props : MQTTProperties) (l : list Z)
    : res (MQTTProperties * list Z) :=
  if remlength =? 0 then Ok (props, l)
  else
    match fuel with
    | O => Oob
    | S fuel' =>
        let max := if count props =? max_count props then max_count props + 10
                   else max_count props in
        let arr := match array props with Some a => a | None => [] end in
        '(p, proplen, l') ← MQTTProperty_read l;
        arr' ← array_store max arr (count props) p;
        read_loop fuel' (to_u32 (remlength - proplen))
          {| count := count props + 1; max_count := max; length := length props;
             array := Some arr' |} l'
    end.

(** [MQTTProperties_read] of an initialised list: [Ok] is 1, and on failure the
    list is freed. *)
Definition MQTTProperties_read (properties : MQTTProperties) (l : list Z)
    : res (MQTTProperties * list Z) :=
  if 0 <? Zlen l then
    '(len, remlength) ← MQTTPacket_decodeBuf l;
    l' ← skip len l;
    read_loop (List.length l') remlength
      {| count := count properties; max_count := max_count properties;
         length := to_i32 remlength; array := array properties |} l'
  else Fail.

(** [MQTTProperties_free] leaves a zeroed structure. *)
Definition MQTTProperties_free (props : option MQTTProperties) : option MQTTProperties :=
  match props with
  | None => None
  | Some _ => Some (mkProperties 0 0 0 None)
  end.

(** [MQTTProperties_copy]: errors of [MQTTProperties_add] are logged and ignored. *)
Definition MQTTProperties_copy (props : MQTTProperties) : res MQTTProperties :=
  foldl (fun acc p => result ← acc; '(_, result') ← MQTTProperties_add result p; Ok result')
    (Ok MQTTProperties_initializer) (entries props).

(** ** Queries *)

Definition MQTTProperties_hasProperty (props : MQTTProperties) (propid : Z) : bool :=
  existsb (fun p => propid =? identifier p) (entries props).

Fixpoint count_loop (ps : list MQTTProperty) (propid count : Z) : Z :=
  match ps with
  | [] => count
  | p :: ps' => count_loop ps' propid (if propid =? identifier p then count + 1 else count)
  end.

Definition MQTTProperties_propertyCount (props : MQTTProperties) (propid : Z) : Z :=
  count_loop (entries props) propid 0.

(** The value of a property as an [int], or the code of a property without one. *)
Definition numeric_value (p : MQTTProperty) : res Z :=
  match MQTTProperty_getType (identifier p), value p with
  | Some TYPE_BYTE, PByte b => Ok b
  | Some TYPE_TWO_BYTE_INTEGER, PInteger2 n => Ok n
  | Some TYPE_FOUR_BYTE_INTEGER, PInteger4 n => Ok (to_i32 n)
  | Some TYPE_VARIABLE_BYTE_INTEGER, PInteger4 n => Ok (to_i32 n)
  | Some (TYPE_BYTE | TYPE_TWO_BYTE_INTEGER | TYPE_FOUR_BYTE_INTEGER
          | TYPE_VARIABLE_BYTE_INTEGER), _ => Oob
  | _, _ => Ok (-999999)
  end.

Fixpoint numeric_loop (ps : list MQTTProperty) (propid index cur_index : Z) : res Z :=
  match ps with
  | [] => Ok (-9999999)
  | p :: ps' =>
      if identifier p =? propid then
        if cur_index <? index then numeric_loop ps' propid index (cur_index + 1)
        else numeric_value p
      else numeric_loop ps' propid index cur_index
  end.

Definition MQTTProperties_getNumericValueAt (props : MQTTProperties) (propid index : Z) : res Z :=
  numeric_loop (entries props) propid index 0.

Definition MQTTProperties_getNumericValue (props : MQTTProperties) (propid : Z) : res Z :=
  MQTTProperties_getNumericValueAt props propid 0.

Fixpoint property_loop (ps : list MQTTProperty) (propid index cur_index : Z)
    : option MQTTProperty :=
  match ps with
  | [] => None
  | p :: ps' =>
      if identifier p =? propid then
        if cur_index =? index then Some p else property_loop ps' propid index (cur_index + 1)
      else property_loop ps' propid index cur_index
  end.

Definition MQTTProperties_getPropertyAt (props : MQTTProperties) (propid index : Z)
    : option MQTTProperty :=
  property_loop (entries props) propid index 0.

Definition MQTTProperties_getProperty (props : MQTTProperties) (propid : Z)
    : option MQTTProperty :=
  MQTTProperties_getPropertyAt props propid 0.

(** ** Well-formed properties and lists *)

(** The member of the union is the one of the type and in its range. *)
Definition prop_ok (p : MQTTProperty) : Prop :=
  match MQTTProperty_getType (identifier p), value p with
  | Some TYPE_BYTE, PByte b => byte_ok b
  | Some TYPE_TWO_BYTE_INTEGER, PInteger2 n => u16_ok n
  | Some TYPE_FOUR_BYTE_INTEGER, PInteger4 n => u32_ok n
  | Some TYPE_VARIABLE_BYTE_INTEGER, PInteger4 n => 0 <= n < 268435456
  | Some (TYPE_BINARY_DATA | TYPE_UTF_8_ENCODED_STRING), PData d =>
      bytes_ok d /\ Zlen d < 65536
  | Some TYPE_UTF_8_STRING_PAIR, PPair d v =>
      bytes_ok d /\ Zlen d < 65536 /\ bytes_ok v /\ Zlen v < 65536
  | _, _ => False
  end.

(** A four byte integer [writeInt4] writes faithfully (see [Wire]). *)
Definition int4_ok (p : MQTTProperty) : Prop :=
  match MQTTProperty_getType (identifier p), value p with
  | Some TYPE_FOUR_BYTE_INTEGER, PInteger4 n => n < 2147483648
  | _, _ => True
  end.

(** The wire size of a property, identifier included. *)
Definition prop_size (p : MQTTProperty) : Z :=
  match MQTTProperty_getType (identifier p), value p with
  | Some TYPE_BYTE, _ => 2
  | Some TYPE_TWO_BYTE_INTEGER, _ => 3
  | Some TYPE_FOUR_BYTE_INTEGER, _ => 5
  | Some TYPE_VARIABLE_BYTE_INTEGER, PInteger4 n => 1 + MQTTPacket_VBIlen n
  | _, PData d => 3 + Zlen d
  | _, PPair d v => 5 + Zlen d + Zlen v
  | _, _ => 0
  end.

Definition props_size (ps : list MQTTProperty) : Z := foldr (fun p acc => prop_size p + acc) 0 ps.

(** The invariant of a property list: the count, the capacity and the running
    length agree with the entries, and the list fits the length field. *)
Record props_inv (props : MQTTProperties) : Prop := {
  inv_count : count props = Zlen (match array props with Some a => a | None => [] end);
  inv_max : count props <= max_count props;
  inv_length : length props = props_size (entries props);
  inv_ok : Forall prop_ok (entries props);
  inv_bound : length props < 268435456
}.

#[export] Instance prop_ok_dec p : Decision (prop_ok p).
Proof. unfold prop_ok. repeat case_match; apply _. Defined.

(** ** One property *)

(** Identifiers with a type are positive bytes. *)
Lemma getType_byte id ty : MQTTProperty_getType id = Some ty -> 0 < id < 128.
Proof.
  unfold MQTTProperty_getType, namesToTypes. cbn [assoc_find].
  repeat (match goal with |- context [if ?a =? id then _ else _] =>
    destruct (Z.eqb_spec a id); [intros _; lia|] end). discriminate.
Qed.

Lemma VBIlen_range n : 1 <= MQTTPacket_VBIlen n <= 4.
Proof. unfold MQTTPacket_VBIlen. repeat case_match; lia. Qed.

Lemma prop_size_pos p : prop_ok p -> 2 <= prop_size p.
Proof.
  unfold prop_ok, prop_size. intros H. repeat case_match; try done; zlen.
  pose proof (VBIlen_range integer4). lia.
Qed.

Lemma props_size_app ps qs : props_size (ps ++ qs) = props_size ps + props_size qs.
Proof. induction ps; simpl; lia. Qed.

Lemma props_size_nonneg ps : Forall prop_ok ps -> 0 <= props_size ps.
Proof. induction 1 as [|p ps Hp Hps IH]; simpl; [lia|]. apply prop_size_pos in Hp. lia. Qed.

Lemma props_size_length ps : Forall prop_ok ps -> 2 * Zlen ps <= props_size ps.
Proof.
  induction 1 as [|p ps Hp Hps IH]; simpl; [unfold Zlen; simpl; lia|].
  apply prop_size_pos in Hp. zlen.
Qed.

Lemma value_len_size p :
  prop_ok p ->
  exists ty len, MQTTProperty_getType (identifier p) = Some ty /\
                 value_len ty (value p) = Ok len /\ prop_size p = len + 1.
Proof.
  unfold prop_ok, prop_size, value_len.
  destruct (MQTTProperty_getType (identifier p)) as [ty|]; [|done].
  intros H. exists ty. destruct ty, (value p); try done; eexists; (split; [done|]);
    (split; [done|]); lia.
Qed.

(** What is written for a property has its size. *)
Lemma MQTTProperty_write_spec p :
  prop_ok p ->
  exists out, MQTTProperty_write p = Ok (out, prop_size p) /\
              Zlen out = prop_size p /\ bytes_ok out.
Proof.
  unfold prop_ok, prop_size, MQTTProperty_write.
  destruct (MQTTProperty_getType (identifier p)) as [ty|] eqn:Ety; [|done].
  intros H. destruct ty, (value p) as [b|n|n|d|d v]; try done; cbn [mbind res_bind];
    eexists; (split; [f_equal; f_equal; try lia|]).
  all: unfold writeChar; rewrite ?VBIlen_encode by done; try lia.
  all: (split; [rewrite ?Zlen_app, ?Zlen_cons, ?Zlen_nil, ?writeMQTTLenString_length,
                  ?writeInt_length, ?writeInt4_length, ?VBIlen_encode by done; lia|]).
  all: unfold bytes_ok, writeInt, writeInt4, writeMQTTLenString in *;
    rewrite ?Forall_app, ?Forall_cons; intuition auto with mqtt.
  all: try apply encode_loop_bytes; try apply writeInt_bytes.
Qed.

(** What is written for a property is read back, whatever follows. *)
Lemma MQTTProperty_read_write p out rest :
  prop_ok p -> int4_ok p ->
  MQTTProperty_write p = Ok (out, prop_size p) ->
  MQTTProperty_read (out ++ rest) = Ok (p, prop_size p, rest).
Proof.
  unfold prop_ok, int4_ok, prop_size, MQTTProperty_write.
  destruct (MQTTProperty_getType (identifier p)) as [ty|] eqn:Ety; [|done].
  intros Hok H4. pose proof (getType_byte _ _ Ety) as Hid.
  assert (to_byte (identifier p) = identifier p) as Hb by (apply to_byte_id; unfold byte_ok; lia).
  destruct p as [id v]. cbn [identifier value] in *.
  destruct ty, v as [b|n|n|d|d v]; try done; cbn [mbind res_bind];
    intros Hw; apply Ok_pair_fst in Hw as <-;
    unfold MQTTProperty_read; rewrite readChar_write; cbn [mbind res_bind];
    rewrite Hb, Ety.
  - cbn. by rewrite to_byte_id.
  - rewrite writeInt_u16 by done. done.
  - rewrite writeInt4_small by (unfold u32_ok in *; lia). cbn [mbind res_bind].
    by rewrite to_u32_id.
  - rewrite decodeBuf_encode by done. cbn [mbind res_bind].
    rewrite <- VBIlen_encode by done. rewrite skip_app. cbn [mbind res_bind].
    do 3 f_equal; lia.
  - rewrite MQTTLenStringRead_write by tauto. cbn [mbind res_bind]. do 3 f_equal; lia.
  - rewrite MQTTLenStringRead_write by tauto. cbn [mbind res_bind]. do 3 f_equal; lia.
  - rewrite <- app_assoc, MQTTLenStringRead_write by tauto. cbn [mbind res_bind].
    rewrite MQTTLenStringRead_write by tauto. cbn [mbind res_bind]. do 3 f_equal; lia.
Qed.

(** ** Lists *)

Lemma write_loop_spec ps rc len :
  Forall prop_ok ps -> 0 <= rc -> 0 <= len ->
  exists out, write_loop ps rc len = Ok (out, len + props_size ps) /\
              Zlen out = props_size ps /\ bytes_ok out.
Proof.
  intros Hps. revert rc len. induction Hps as [|p ps Hp Hps IH]; intros rc len Hrc Hlen.
  - exists []. simpl. destruct (Z.leb_spec 0 rc); [|lia]. rewrite Z.add_0_r.
    split; [done|]. split; [done|]. constructor.
  - destruct (MQTTProperty_write_spec p Hp) as (o & Ho & Hl & Hb).
    pose proof (prop_size_pos _ Hp).
    destruct (IH (prop_size p) (len + prop_size p)) as (out & Hout & Hol & Hob); [lia..|].
    exists (o ++ out). cbn [write_loop]. rewrite Ho. cbn [mbind res_bind].
    destruct (Z.ltb_spec (prop_size p) 0); [lia|]. rewrite Hout. cbn [mbind res_bind].
    split; [|split].
    + f_equal. f_equal. simpl. lia.
    + rewrite Zlen_app, Hl, Hol. done.
    + by apply bytes_ok_app.
Qed.

(** The reading loop over what the writing loop wrote. *)
Lemma read_loop_write ps rc len out res rest fuel props a0 :
  Forall prop_ok ps -> Forall int4_ok ps -> props_size ps < 4294967296 ->
  write_loop ps rc len = Ok (out, res) -> 0 <= rc -> 0 <= len ->
  (List.length (out ++ rest) <= fuel)%nat ->
  array props = Some a0 \/ array props = None /\ a0 = [] ->
  count props = Zlen a0 -> count props <= max_count props ->
  exists props',
    read_loop fuel (props_size ps) props (out ++ rest) = Ok (props', rest) /\
    entries props' = a0 ++ ps /\ length props' = length props /\
    count props' = Zlen (match array props' with Some a => a | None => [] end) /\
    count props' <= max_count props'.
Proof.
  intros Hps. revert rc len out res fuel props a0.
  induction Hps as [|p ps Hp Hps IH];
    intros rc len out res fuel props a0 H4 Hsz Hw Hrc Hlen Hfuel Ha Hc Hm.
  - injection Hw as <- _. exists props. simpl. rewrite app_nil_r.
    assert (entries props = a0) as He.
    { unfold entries. destruct Ha as [-> | [-> ->]]; [|done].
      rewrite Hc, Zlen_to_nat. by apply firstn_all. }
    destruct fuel; simpl; (split; [done|]); (split; [done|]); (split; [done|]);
      (split; [|done]); destruct Ha as [-> | [-> ->]]; done.
  - apply Forall_cons in H4 as [H4p H4ps]. simpl in Hsz.
    pose proof (prop_size_pos _ Hp) as Hpos. pose proof (props_size_nonneg _ Hps).
    destruct (MQTTProperty_write_spec p Hp) as (o & Ho & Hol & _).
    cbn [write_loop] in Hw. rewrite Ho in Hw. cbn [mbind res_bind] in Hw.
    destruct (Z.ltb_spec (prop_size p) 0); [lia|].
    destruct (write_loop ps _ _) as [[o' r']| |] eqn:Ew; [|done|done].
    cbn [mbind res_bind] in Hw. injection Hw as <- _. rewrite <- app_assoc in *.
    destruct fuel as [|fuel]; [unfold Zlen in *; rewrite !length_app in Hfuel; lia|].
    cbn [read_loop]. change (props_size (p :: ps)) with (prop_size p + props_size ps).
    destruct (Z.eqb_spec (prop_size p + props_size ps) 0); [lia|].
    rewrite (MQTTProperty_read_write p o) by done. cbn [mbind res_bind].
    assert (match array props with Some a => a | None => [] end = a0) as ->
      by (destruct Ha as [-> | [-> ->]]; done).
    unfold array_store at 1. rewrite Hc in Hm |- *. pose proof (Zlen_nonneg a0).
    set (max := if Zlen a0 =? max_count props then max_count props + 10 else max_count props).
    assert (Zlen a0 < max) by (subst max; zcases; lia).
    destruct (Z.ltb_spec (Zlen a0) 0); [lia|]. destruct (Z.leb_spec max (Zlen a0)); [lia|].
    cbn [orb]. rewrite Z.ltb_irrefl, Z.eqb_refl. cbn [mbind res_bind].
    replace (to_u32 (prop_size p + props_size ps - prop_size p)) with (props_size ps)
      by (rewrite to_u32_id; [lia | unfold u32_ok; lia]).
    destruct (IH (prop_size p) (len + prop_size p) o' r' fuel
      {| count := Zlen a0 + 1; max_count := max; length := length props;
         array := Some (a0 ++ [p]) |} (a0 ++ [p])) as (props' & Hr & He & Hl & Hrest);
      simpl; try done; try lia.
    + unfold Zlen in *. rewrite !length_app in *. lia.
    + by left.
    + zlen.
    + exists props'. split; [exact Hr|]. split; [|done]. by rewrite He, <- app_assoc.
Qed.

Lemma entries_full props :
  count props = Zlen (match array props with Some a => a | None => [] end) ->
  entries props = match array props with Some a => a | None => [] end.
Proof.
  intros Hc. unfold entries. rewrite Hc. destruct (array props); [|done].
  rewrite Zlen_to_nat. by apply firstn_all.
Qed.

Lemma props_inv_initializer : props_inv MQTTProperties_initializer.
Proof. split; simpl; try lia; [done|constructor]. Qed.

Lemma props_inv_length props : props_inv props -> 0 <= length props < 268435456.
Proof.
  intros [_ _ Hl Hok Hb]. split; [|done]. rewrite Hl. by apply props_size_nonneg.
Qed.

(** Appending a property. *)
Lemma MQTTProperties_add_ok props p :
  props_inv props -> prop_ok p -> length props + prop_size p < 268435456 ->
  exists props', MQTTProperties_add props p = Ok (0, props') /\
    entries props' = entries props ++ [p] /\ props_inv props'.
Proof.
  intros Hi Hp Hb. pose proof (props_inv_length _ Hi) as Hlen.
  pose proof (entries_full _ (inv_count _ Hi)) as He.
  destruct Hi as [Hc Hm Hl Hok _]. rewrite He in *.
  destruct (value_len_size p Hp) as (ty & len & Hty & Hvl & Hsz).
  pose proof (prop_size_pos p Hp).
  set (a := match array props with Some a => a | None => [] end) in *.
  set (max := match array props with
              | None => 10
              | Some _ => if count props =? max_count props then max_count props + 10
                          else max_count props end).
  assert (Zlen a < max) as Hmax
    by (subst max a; destruct (array props); zcases; unfold Zlen in *; simpl in *; lia).
  set (props' := {| count := Zlen a + 1; max_count := max;
                    length := length props + prop_size p; array := Some (a ++ [p]) |}).
  exists props'.
  assert (entries props' = a ++ [p]) as He'.
  { apply entries_full. simpl. rewrite Zlen_app. done. }
  split; [|split; [done|]].
  - unfold MQTTProperties_add. rewrite Hty.
    assert (match array props with
            | Some a0 => (if count props =? max_count props then max_count props + 10
                          else max_count props, a0)
            | None => (10, [])
            end = (max, a)) as -> by (subst max a; by destruct (array props)).
    rewrite Hc. unfold array_store. pose proof (Zlen_nonneg a).
    destruct (Z.ltb_spec (Zlen a) 0); [lia|]. destruct (Z.leb_spec max (Zlen a)); [lia|].
    cbn [orb]. rewrite Z.ltb_irrefl, Z.eqb_refl. cbn [mbind res_bind]. rewrite Hvl.
    cbn [mbind res_bind]. rewrite to_i32_id by lia. rewrite <- Hsz. done.
  - split; rewrite ?He'; simpl.
    + rewrite Zlen_app. done.
    + lia.
    + rewrite props_size_app. simpl. lia.
    + apply Forall_app. by repeat constructor.
    + lia.
Qed.

(** Adding a property: an unknown identifier is refused and changes nothing;
    otherwise the property is appended, growing the array when it is full, and the
    invariant (count, capacity, running byte length) is kept as long as the list
    fits the 268435455 bytes a properties field can announce. *)
Theorem MQTTProperties_add_spec (props : MQTTProperties) (p : MQTTProperty) :
  props_inv props ->
  (MQTTProperty_getType (identifier p) = None ->
   MQTTProperties_add props p = Ok (MQTT_INVALID_PROPERTY_ID, props)) /\
  (prop_ok p -> length props + prop_size p < 268435456 ->
   exists props', MQTTProperties_add props p = Ok (0, props') /\
     entries props' = entries props ++ [p] /\ props_inv props').
Proof.
  intros Hi. split.
  - intros H. unfold MQTTProperties_add. by rewrite H.
  - by apply MQTTProperties_add_ok.
Qed.

Definition sample_property : MQTTProperty := mkProperty 38 (PPair [107; 49] [118]).

Lemma MQTTProperties_add_spec_witness :
  props_inv MQTTProperties_initializer /\
  exists props', MQTTProperties_add MQTTProperties_initializer sample_property = Ok (0, props') /\
    entries props' = [] ++ [sample_property] /\ props_inv props'.
Proof.
  split; [exact props_inv_initializer|].
  apply (MQTTProperties_add_spec _ sample_property props_inv_initializer);
    [by_compute | reflexivity].
Defined.

(** The bytes of a list. *)
Lemma MQTTProperties_write_ok props :
  props_inv props ->
  exists body, write_loop (entries props) 1 1 = Ok (body, 1 + props_size (entries props)) /\
    MQTTProperties_write (Some props) =
      Ok (MQTTPacket_encode (length props) ++ body, 1 + props_size (entries props)) /\
    Zlen body = length props /\ bytes_ok body.
Proof.
  intros Hi. destruct (write_loop_spec (entries props) 1 1) as (body & Hw & Hl & Hb);
    [apply Hi | lia | lia|].
  exists body. split; [done|]. split; [|split; [by rewrite (inv_length _ Hi)|done]].
  simpl. rewrite Hw. done.
Qed.

(** [MQTTProperties_write] stores exactly the number of bytes
    [MQTTProperties_len] announced, which is what its callers allocate: the
    length field and then the announced number of property bytes. *)
Theorem MQTTProperties_write_fits (props : MQTTProperties) :
  props_inv props ->
  exists out rc, MQTTProperties_write (Some props) = Ok (out, rc) /\
    Zlen out = MQTTProperties_len (Some props) /\ bytes_ok out.
Proof.
  intros Hi. pose proof (props_inv_length _ Hi).
  destruct (MQTTProperties_write_ok _ Hi) as (body & _ & -> & Hl & Hb).
  do 2 eexists. split; [done|]. split.
  - rewrite Zlen_app, VBIlen_encode by done. simpl. lia.
  - apply bytes_ok_app. split; [apply encode_loop_bytes | done].
Qed.

Definition sample_props : MQTTProperties :=
  mkProperties 2 10 13 (Some [sample_property; mkProperty 17 (PInteger4 3600)]).

Lemma sample_props_inv : props_inv sample_props.
Proof. split; [reflexivity | simpl; lia | reflexivity | by_compute | simpl; lia]. Qed.

Lemma MQTTProperties_write_fits_witness :
  props_inv sample_props /\
  exists out rc, MQTTProperties_write (Some sample_props) = Ok (out, rc) /\
    Zlen out = MQTTProperties_len (Some sample_props) /\ bytes_ok out.
Proof. exact (conj sample_props_inv (MQTTProperties_write_fits _ sample_props_inv)). Defined.

Lemma MQTTProperties_read_write (props : MQTTProperties) (rest out : list Z) (rc : Z) :
  props_inv props -> Forall int4_ok (entries props) ->
  MQTTProperties_write (Some props) = Ok (out, rc) ->
  exists props',
    MQTTProperties_read MQTTProperties_initializer (out ++ rest) = Ok (props', rest) /\
    entries props' = entries props /\ length props' = length props /\ props_inv props'.
Proof.
  intros Hi H4 Hw. pose proof (props_inv_length _ Hi) as Hlen.
  destruct (MQTTProperties_write_ok _ Hi) as (body & Hwl & Hw' & Hl & Hb).
  rewrite Hw' in Hw. apply Ok_pair_fst in Hw as <-.
  unfold MQTTProperties_read.
  pose proof (encode_length_pos (length props)).
  destruct (Z.ltb_spec 0 (Zlen ((MQTTPacket_encode (length props) ++ body) ++ rest))); [|zlen].
  rewrite <- app_assoc, decodeBuf_encode by done. cbn [mbind res_bind].
  rewrite <- VBIlen_encode by done. rewrite skip_app. cbn [mbind res_bind].
  rewrite to_i32_id by lia.
  destruct (read_loop_write (entries props) 1 1 body (1 + props_size (entries props)) rest
    (List.length (body ++ rest))
    (mkProperties 0 0 (length props) None) []) as (props' & Hr & He & Hl' & Hc & Hm);
    simpl; try done; try lia.
  - apply Hi.
  - rewrite <- (inv_length _ Hi). lia.
  - by right.
  - rewrite <- (inv_length _ Hi) in Hr. exists props'. simpl in He, Hl'.
    split; [exact Hr|]. split; [done|]. split; [done|].
    split; rewrite ?He, ?Hl'; first [done | apply Hi].
Qed.

Lemma MQTTProperties_read_null rest :
  MQTTProperties_read MQTTProperties_initializer (0 :: rest) = Ok (MQTTProperties_initializer, rest).
Proof.
  unfold MQTTProperties_read. rewrite Zlen_cons. pose proof (Zlen_nonneg rest).
  destruct (Z.ltb_spec 0 (1 + Zlen rest)); [|lia]. cbn [mbind res_bind].
  change (MQTTPacket_decodeBuf (0 :: rest)) with (Ok (1, 0) : res (Z * Z)). cbn [mbind res_bind].
  unfold skip. rewrite Zlen_cons. destruct (Z.ltb_spec (1 + Zlen rest) 1); [lia|].
  cbn [mbind res_bind]. change (drop (Z.to_nat 1) (0 :: rest)) with rest. by destruct rest.
Qed.

(** What the packets need of a list they write, a null pointer being the empty list. *)
Definition props_arg_ok (o : option MQTTProperties) : Prop :=
  match o with None => True | Some p => props_inv p /\ Forall int4_ok (entries p) end.
Definition arg_entries (o : option MQTTProperties) : list MQTTProperty :=
  match o with None => [] | Some p => entries p end.

Lemma props_arg_len o : props_arg_ok o -> 1 <= MQTTProperties_len o <= 268435460.
Proof.
  destruct o as [p|]; [|simpl; lia]. intros [Hi _]. pose proof (props_inv_length _ Hi).
  pose proof (VBIlen_range (length p)). simpl. lia.
Qed.

Lemma props_arg_write o :
  props_arg_ok o ->
  exists out rc, MQTTProperties_write o = Ok (out, rc) /\ Zlen out = MQTTProperties_len o /\
    forall rest, exists p, MQTTProperties_read MQTTProperties_initializer (out ++ rest) = Ok (p, rest) /\
      entries p = arg_entries o /\ props_inv p.
Proof.
  destruct o as [p|]; simpl.
  - intros [Hi H4]. destruct (MQTTProperties_write_ok _ Hi) as (body & _ & Hw & Hl & Hb).
    do 2 eexists. split; [exact Hw|]. split.
    + rewrite Zlen_app, VBIlen_encode by (by apply props_inv_length). lia.
    + intros rest. destruct (MQTTProperties_read_write p rest _ _ Hi H4 Hw) as (p' & ? & ? & _ & ?). eauto.
  - intros _. do 2 eexists. split; [done|]. split; [done|]. intros rest.
    exists MQTTProperties_initializer. split; [apply MQTTProperties_read_null|].
    split; [done | apply props_inv_initializer].
Qed.

(** C33. Property lists round-trip: what [MQTTProperties_write] writes of a well formed list
    whose four byte integers are below 2^31 is read back by [MQTTProperties_read] into a
    list with the same entries and length that again satisfies the invariant, and the
    cursor is left right behind it.  ([Wire.writeInt4_roundtrip_iff]: a greater integer is
    not written as it is.) *)
Theorem MQTTProperties_roundtrip (props : MQTTProperties) (rest out : list Z) (rc : Z) :
  props_inv props -> Forall int4_ok (entries props) ->
  MQTTProperties_write (Some props) = Ok (out, rc) ->
  exists props',
    MQTTProperties_read MQTTProperties_initializer (out ++ rest) = Ok (props', rest) /\
    entries props' = entries props /\ length props' = length props /\ props_inv props'.
Proof. apply MQTTProperties_read_write. Qed.

Lemma MQTTProperties_roundtrip_witness :
  let out := MQTTPacket_encode 13 ++ [38; 0; 2; 107; 49; 0; 1; 118; 17; 0; 0; 14; 16] in
  props_inv sample_props /\ Forall int4_ok (entries sample_props) /\
  MQTTProperties_write (Some sample_props) = Ok (out, 14) /\
  exists props',
    MQTTProperties_read MQTTProperties_initializer (out ++ [1]) = Ok (props', [1]) /\
    entries props' = entries sample_props /\ length props' = length sample_props /\
    props_inv props'.
Proof.
  intros out.
  assert (MQTTProperties_write (Some sample_props) = Ok (out, 14)) as Hw by reflexivity.
  assert (Forall int4_ok (entries sample_props)) as H4
    by (repeat constructor; vm_compute; reflexivity).
  split; [exact sample_props_inv|]. split; [exact H4|]. split; [exact Hw|].
  exact (MQTTProperties_roundtrip sample_props [1] out 14 sample_props_inv H4 Hw).
Defined.

(** ** Reading untrusted bytes *)

(** What a successful read of one property consumed. *)
Lemma MQTTProperty_read_sound l p n rest :
  bytes_ok l -> MQTTProperty_read l = Ok (p, n, rest) ->
  prop_ok p /\ prop_size p <= n /\ 2 <= n /\ exists pre, l = pre ++ rest /\ Zlen pre = n.
Proof.
  intros Hl. unfold MQTTProperty_read. destruct l as [|id l]; [done|].
  apply bytes_ok_cons in Hl as [Hid Hl]. cbn [readChar mbind res_bind].
  destruct (MQTTProperty_getType id) as [ty|] eqn:Ety; [|done].
  destruct (match ty with TYPE_BYTE => _ | _ => _ end) as [[[v len] l']| |] eqn:E; [|done|done].
  cbn [mbind res_bind]. intros [= <- <- <-].
  assert (prop_ok (mkProperty id v) /\ prop_size (mkProperty id v) <= 1 + len /\ 1 <= len /\
          exists pre, l = pre ++ l' /\ Zlen pre = len) as (Hok & Hsz & Hlen & pre & -> & Hpre).
  2: { split; [done|]. split; [lia|]. split; [lia|]. exists (id :: pre). split; [done|]. zlen. }
  unfold prop_ok, prop_size. cbn [identifier value]. rewrite Ety.
  destruct ty; cbn [mbind res_bind] in E.
  - destruct l as [|b l]; [done|]. injection E as <- <- <-. apply bytes_ok_cons in Hl as [Hb _].
    split; [done|]. split; [lia|]. split; [lia|]. by exists [b].
  - destruct (readInt l) as [[x l1]| |] eqn:Ei; [|done|done]. injection E as <- <- <-.
    apply readInt_sound in Ei as (Hx & a & b & ->); [|done].
    split; [done|]. split; [lia|]. split; [lia|]. by exists [a; b].
  - destruct l as [|a [|b [|c [|d l]]]]; [done..|]. injection E as <- <- <-.
    split; [unfold u32_ok, to_u32; apply Z.mod_pos_bound; lia|]. split; [lia|]. split; [lia|].
    by exists [a; b; c; d].
  - destruct (MQTTPacket_decodeBuf l) as [[k x]| |] eqn:Ed; [|done|done].
    pose proof (decodeBuf_canonical _ _ _ Ed). apply decodeBuf_sound in Ed as [Hk Hx]. cbn [mbind res_bind] in E.
    destruct (skip k l) as [l1| |] eqn:Es; [|done|done]. injection E as <- <- <-.
    apply skip_sound in Es; [|lia]. split; [done|]. split; [lia|]. split; [lia|done].
  - destruct (MQTTLenStringRead l) as [[[s k] l1]| |] eqn:Es; [|done|done].
    injection E as <- <- <-. apply MQTTLenStringRead_sound in Es as (pre & -> & Hp & -> & Hs); [|done].
    rewrite !bytes_ok_app in Hl. split; [tauto|]. split; [zlen|]. split; [zlen|]. exists (pre ++ s).
    rewrite <- app_assoc, Zlen_app. split; [done|lia].
  - destruct (MQTTLenStringRead l) as [[[s k] l1]| |] eqn:Es; [|done|done].
    injection E as <- <- <-. apply MQTTLenStringRead_sound in Es as (pre & -> & Hp & -> & Hs); [|done].
    rewrite !bytes_ok_app in Hl. split; [tauto|]. split; [zlen|]. split; [zlen|]. exists (pre ++ s).
    rewrite <- app_assoc, Zlen_app. split; [done|lia].
  - destruct (MQTTLenStringRead l) as [[[s k] l1]| |] eqn:Es; [|done|done].
    apply MQTTLenStringRead_sound in Es as (pre & -> & Hp & -> & Hs); [|done].
    rewrite !bytes_ok_app in Hl. cbn [mbind res_bind] in E.
    destruct (MQTTLenStringRead l1) as [[[s2 k2] l2]| |] eqn:Es2; [|done|done].
    injection E as <- <- <-.
    apply MQTTLenStringRead_sound in Es2 as (pre2 & -> & Hp2 & -> & Hs2); [|tauto].
    rewrite !bytes_ok_app in Hl. split; [tauto|]. split; [zlen|]. split; [zlen|].
    exists (pre ++ s ++ pre2 ++ s2). rewrite <- !app_assoc, !Zlen_app. split; [done|lia].
Qed.

Lemma read_loop_sound fuel rem props l props' rest a0 :
  bytes_ok l -> Zlen l < 4294967296 -> 0 <= rem < 4294967296 ->
  array props = Some a0 \/ array props = None /\ a0 = [] ->
  count props = Zlen a0 -> count props <= max_count props ->
  read_loop fuel rem props l = Ok (props', rest) ->
  exists body ps, l = body ++ rest /\ Zlen body = rem /\ (Forall prop_ok ps /\ props_size ps <= rem) /\
    entries props' = a0 ++ ps /\ count props' = Zlen (a0 ++ ps) /\
    count props' <= max_count props' /\ length props' = length props.
Proof.
  revert rem props l a0. induction fuel as [|fuel IH]; intros rem props l a0 Hl Hsz Hrem Ha Hc Hm H.
  all: simpl in H; destruct (Z.eqb_spec rem 0) as [->|Hne].
  2: done.
  1,2: injection H as <- <-; exists [], []; rewrite app_nil_r; repeat split; try done;
    unfold entries; destruct Ha as [-> | [-> ->]]; rewrite ?Hc, ?Zlen_to_nat; try done;
    by apply firstn_all.
  destruct (MQTTProperty_read l) as [[[p n] l1]| |] eqn:Er; [|done|done].
  cbn [mbind res_bind] in H.
  apply MQTTProperty_read_sound in Er as (Hp & Hsp & Hn & pre & -> & Hpre); [|done].
  destruct (array_store _ _ _ _) as [arr'| |] eqn:Es; [|done|done]. cbn [mbind res_bind] in H.
  assert (match array props with Some a => a | None => [] end = a0) as Ea
    by (destruct Ha as [-> | [-> ->]]; done).
  rewrite Ea, Hc in Es. unfold array_store in Es. rewrite Z.ltb_irrefl, Z.eqb_refl in Es.
  destruct ((Zlen a0 <? 0) || _) eqn:Eb; [done|]. injection Es as <-.
  apply orb_false_iff in Eb as [_ Eb]. apply Z.leb_gt in Eb.
  apply bytes_ok_app in Hl as [_ Hl1]. rewrite Zlen_app in Hsz. pose proof (Zlen_nonneg l1).
  apply (IH _ _ _ (a0 ++ [p])) in H; simpl; try done; try lia.
  - destruct H as (body & ps & -> & Hb & Hps & He & Hc' & Hm' & Hl').
    rewrite Zlen_app in *. pose proof (Zlen_nonneg rest). pose proof (Zlen_nonneg body).
    assert (n <= rem).
    { unfold to_u32 in Hb. destruct (Z_lt_le_dec rem n); [|lia].
      rewrite <- (Z_mod_plus_full _ 1) in Hb. rewrite Z.mod_small in Hb; lia. }
    rewrite to_u32_id in Hb by (unfold u32_ok; lia).
    exists (pre ++ body), (p :: ps). rewrite <- !app_assoc, Zlen_app in *.
    destruct Hps as [Hps Hss]. repeat split; try done; try lia; [by constructor|]. simpl.
    rewrite to_u32_id in Hss by (unfold u32_ok; lia). lia.
  - unfold to_u32. apply Z.mod_pos_bound. lia.
  - by left.
  - rewrite Hc, Zlen_app. done.
  - zcases; lia.
Qed.

Lemma MQTTProperties_read_ok (l rest : list Z) (props : MQTTProperties) :
  bytes_ok l -> Zlen l < 4294967296 ->
  MQTTProperties_read MQTTProperties_initializer l = Ok (props, rest) ->
  exists vbi body, l = vbi ++ body ++ rest /\
    MQTTPacket_decodeBuf l = Ok (Zlen vbi, Zlen body) /\
    length props = Zlen body /\ count props = Zlen (entries props) /\
    count props <= max_count props /\ Forall prop_ok (entries props) /\
    props_size (entries props) <= Zlen body < 268435456.
Proof.
  intros Hl Hsz. unfold MQTTProperties_read. destruct (0 <? Zlen l); [|done].
  destruct (MQTTPacket_decodeBuf l) as [[k x]| |] eqn:Ed; [|done|done].
  apply decodeBuf_sound in Ed as [Hk Hx]. cbn [mbind res_bind].
  destruct (skip k l) as [l1| |] eqn:Es; [|done|done]. cbn [mbind res_bind].
  apply skip_sound in Es as (vbi & -> & Hv); [|lia]. rewrite Zlen_app in Hsz.
  apply bytes_ok_app in Hl as [_ Hl1]. intros H. pose proof (Zlen_nonneg vbi).
  apply (read_loop_sound _ _ _ _ _ _ []) in H as (body & ps & -> & Hb & [Hps Hss] & He & Hc & Hm & Hlen);
    simpl; try done; try lia; [|by right].
  exists vbi, body. simpl in *. rewrite He, Hlen, Hc, to_i32_id by lia. rewrite Hv, Hb.
  repeat split; try done; lia.
Qed.

(** C34. Reading a property list from untrusted bytes: when [MQTTProperties_read]
    succeeds, the bytes consumed are a length field and exactly the announced number
    of bytes after it, even though [remlength] is an unsigned integer that wraps when
    a property is longer than what is left; every property stored has a known
    identifier and a value in the range of its type, and count and capacity agree
    with the array. *)
Theorem MQTTProperties_read_sound (l rest : list Z) (props : MQTTProperties) :
  bytes_ok l -> Zlen l < 4294967296 ->
  MQTTProperties_read MQTTProperties_initializer l = Ok (props, rest) ->
  exists vbi body, l = vbi ++ body ++ rest /\
    MQTTPacket_decodeBuf l = Ok (Zlen vbi, Zlen body) /\
    length props = Zlen body /\ count props = Zlen (entries props) /\
    count props <= max_count props /\ Forall prop_ok (entries props).
Proof.
  intros Hl Hsz H. destruct (MQTTProperties_read_ok l rest props Hl Hsz H)
    as (vbi & body & H1 & H2 & H3 & H4 & H5 & H6 & _).
  exists vbi, body. done.
Qed.

Lemma MQTTProperties_read_sound_witness :
  let l := [5; 17; 0; 0; 14; 16; 99] in
  let props := mkProperties 1 10 5 (Some [mkProperty 17 (PInteger4 3600)]) in
  bytes_ok l /\ MQTTProperties_read MQTTProperties_initializer l = Ok (props, [99]) /\
  exists vbi body, l = vbi ++ body ++ [99] /\
    MQTTPacket_decodeBuf l = Ok (Zlen vbi, Zlen body) /\
    length props = Zlen body /\ count props = Zlen (entries props) /\
    count props <= max_count props /\ Forall prop_ok (entries props).
Proof.
  intros l props. assert (bytes_ok l) as Hl by by_compute.
  assert (MQTTProperties_read MQTTProperties_initializer l = Ok (props, [99])) as Hr by reflexivity.
  split; [exact Hl|]. split; [exact Hr|].
  exact (MQTTProperties_read_sound l [99] props Hl eq_refl Hr).
Defined.

(** The fixed-size values are read without a look at [enddata]: a packet that
    announces properties and ends early, right behind the length or right behind an
    identifier of a byte, two byte, four byte or variable byte property, makes
    [MQTTProperties_read] run past the end of the packet. *)
Theorem MQTTProperties_read_overruns (len id : Z) :
  0 < len < 128 ->
  MQTTProperties_read MQTTProperties_initializer [len] = Oob /\
  (match MQTTProperty_getType id with
   | Some (TYPE_BYTE | TYPE_TWO_BYTE_INTEGER | TYPE_FOUR_BYTE_INTEGER
           | TYPE_VARIABLE_BYTE_INTEGER) => True
   | _ => False
   end ->
   MQTTProperties_read MQTTProperties_initializer [len; id] = Oob).
Proof.
  intros Hlen.
  destruct (last_digit len) as [E1 E2]; [lia|].
  assert (forall l, MQTTPacket_decodeBuf (len :: l) = Ok (1, len)) as Hd.
  { intros l. unfold MQTTPacket_decodeBuf, MQTTPacket_VBIdecode.
    rewrite VBIdecode_loop_cons. simpl. rewrite E1, E2. simpl.
    rewrite Z.mul_1_r, to_u32_id by (unfold u32_ok; lia). done. }
  unfold MQTTProperties_read. cbn [Zlen List.length]. simpl (0 <? _).
  rewrite !Hd. split.
  - simpl. destruct (Z.eqb_spec len 0); [lia|done].
  - intros Hid. simpl. destruct (Z.eqb_spec len 0); [lia|]. unfold MQTTProperty_read. simpl.
    by destruct (MQTTProperty_getType id) as [[]|].
Qed.

Lemma MQTTProperties_read_overruns_witness :
  MQTTProperties_read MQTTProperties_initializer [1; 1] = Oob.
Proof. apply (MQTTProperties_read_overruns 1 1); [lia|exact I]. Defined.

(** ** Copies and queries *)

Lemma copy_loop ps acc :
  props_inv acc -> Forall prop_ok ps -> length acc + props_size ps < 268435456 ->
  exists props',
    foldl (fun acc p => result ← acc; '(_, result') ← MQTTProperties_add result p; Ok result')
      (Ok acc) ps = Ok props' /\
    entries props' = entries acc ++ ps /\ props_inv props'.
Proof.
  revert acc. induction ps as [|p ps IH]; intros acc Hi Hps Hb.
  - exists acc. rewrite app_nil_r. done.
  - apply Forall_cons in Hps as [Hp Hps]. simpl in Hb.
    pose proof (props_size_nonneg _ Hps).
    destruct (MQTTProperties_add_ok acc p Hi Hp) as (acc' & Ha & He & Hi'); [lia|].
    destruct (IH acc' Hi' Hps) as (props' & Hf & He' & Hi'').
    + rewrite (inv_length _ Hi'), He, props_size_app, <- (inv_length _ Hi). simpl. lia.
    + exists props'. simpl. rewrite Ha. cbn [mbind res_bind]. split; [exact Hf|].
      split; [|done]. by rewrite He', He, <- app_assoc.
Qed.

(** A list whose copy is well-formed: typed values, and not too many.  A list that was
    received may announce a length that is not the canonical one. *)
Definition props_typed (props : MQTTProperties) : Prop :=
  Forall prop_ok (entries props) /\ props_size (entries props) < 268435456.

Lemma props_inv_typed props : props_inv props -> props_typed props.
Proof. intros Hi. split; [apply Hi|]. rewrite <- (inv_length _ Hi). apply Hi. Qed.

Lemma MQTTProperties_copy_ok props :
  props_typed props ->
  exists props', MQTTProperties_copy props = Ok props' /\ entries props' = entries props /\ props_inv props'.
Proof.
  intros [Hp Hb]. destruct (copy_loop (entries props) MQTTProperties_initializer) as (p' & H1 & H2 & H3).
  - apply props_inv_initializer.
  - done.
  - done.
  - exists p'. done.
Qed.

(** Queries see the entries in the order they were added.
    [MQTTProperties_copy] gives a list with the same entries that satisfies the
    invariant; [hasProperty], [propertyCount], [getPropertyAt] and
    [getNumericValueAt] are membership, length and indexing of the sublist of
    entries with the identifier; a negative index finds nothing for the former and
    is taken for 0 by the latter. *)
Theorem MQTTProperties_queries (props : MQTTProperties) (propid index : Z) :
  let m := filter (fun p => identifier p = propid) (entries props) in
  (props_inv props -> exists props', MQTTProperties_copy props = Ok props' /\
     entries props' = entries props /\ props_inv props') /\
  (MQTTProperties_hasProperty props propid = true <-> m <> []) /\
  MQTTProperties_propertyCount props propid = Zlen m /\
  MQTTProperties_getPropertyAt props propid index =
    (if index <? 0 then None else m !! Z.to_nat index) /\
  MQTTProperties_getNumericValueAt props propid index =
    match m !! Z.to_nat index with
    | Some p => numeric_value p
    | None => Ok (-9999999)
    end.
Proof.
  intros m. split; [|split; [|split; [|split]]].
  - intros Hi. apply MQTTProperties_copy_ok. by apply props_inv_typed.
  - unfold MQTTProperties_hasProperty, m. induction (entries props) as [|p ps IH]; [done|].
    rewrite filter_cons. simpl. destruct (Z.eqb_spec propid (identifier p)); case_decide;
      simpl; try congruence; done.
  - unfold MQTTProperties_propertyCount, m.
    enough (forall c, count_loop (entries props) propid c =
      c + Zlen (filter (fun p => identifier p = propid) (entries props))) as -> by lia.
    induction (entries props) as [|p ps IH]; intros c; simpl; [unfold Zlen; simpl; lia|].
    rewrite IH, filter_cons. destruct (Z.eqb_spec propid (identifier p)); case_decide;
      simpl; try congruence; zlen.
  - unfold MQTTProperties_getPropertyAt, m.
    enough (forall c, property_loop (entries props) propid index c =
      if index <? c then None
      else filter (fun p => identifier p = propid) (entries props) !! Z.to_nat (index - c)) as ->
      by (rewrite Z.sub_0_r; done).
    induction (entries props) as [|p ps IH]; intros c; simpl.
    + by destruct (index <? c).
    + rewrite !IH, filter_cons. destruct (Z.eqb_spec (identifier p) propid); case_decide;
        try congruence; try done.
      destruct (Z.eqb_spec c index) as [->|]; [by rewrite Z.ltb_irrefl, Z.sub_diag|].
      zcases; try done; try lia.
      replace (Z.to_nat (index - c)) with (S (Z.to_nat (index - (c + 1)))) by lia. done.
  - unfold MQTTProperties_getNumericValueAt, m.
    enough (forall c, numeric_loop (entries props) propid index c =
      match filter (fun p => identifier p = propid) (entries props) !! Z.to_nat (index - c) with
      | Some p => numeric_value p | None => Ok (-9999999) end) as ->
      by (rewrite Z.sub_0_r; done).
    induction (entries props) as [|p ps IH]; intros c; simpl.
    + done.
    + rewrite !IH, filter_cons. destruct (Z.eqb_spec (identifier p) propid); case_decide;
        try congruence; try done.
      destruct (Z.ltb_spec c index).
      * replace (Z.to_nat (index - c)) with (S (Z.to_nat (index - (c + 1)))) by lia. done.
      * replace (Z.to_nat (index - c)) with O by lia. done.
Qed.

Lemma MQTTProperties_queries_witness :
  props_inv sample_props /\
  MQTTProperties_getNumericValueAt sample_props 17 0 = Ok 3600 /\
  exists props', MQTTProperties_copy sample_props = Ok props' /\
     entries props' = entries sample_props /\ props_inv props'.
Proof.
  split; [exact sample_props_inv|]. split; [reflexivity|].
  apply (MQTTProperties_queries sample_props 17 0). exact sample_props_inv.
Defined.

End Properties.
