(* ===== verification/LinkedList.v ===== *)
(** * Doubly linked lists ([src/src/LinkedList.c], [LinkedList.h])

    The pointer implementation over an explicit store of list elements, with
    [malloc] as a choice of an unused address and [free] as the removal of an
    element, and the abstract lists it implements: a sequence of contents and the
    position of the [current] cursor.  Every operation of the implementation is
    shown to refine the operation on abstract lists that the other components use. *)

From S2P Require Import Prelude.
From Stdlib Require Import ZArith Lia List.
From stdpp Require Import base numbers list gmap.

Open Scope Z_scope.

(** ** Abstract lists *)
Module AList.

(** The items in order, and the index of the [current] element. *)
Record t (A : Type) := mk { items : list A; current : option nat }.
Arguments mk {A} items current.
Arguments items {A} _.
Arguments current {A} _.

Definition empty {A} : t A := mk [] None.

Definition append {A} (x : A) (l : t A) : t A := mk (items l ++ [x]) (current l).

(** Insertion before the element of index [i]. *)
Definition insert_before {A} (i : nat) (x : A) (l : t A) : t A :=
  mk (take i (items l) ++ x :: drop i (items l))
     ((fun j => if Nat.leb i j then S j else j) <$> current l).

(** The element of index [i] that satisfies the predicate. *)
Definition holds {A} (f : A -> bool) (l : list A) (i : nat) : bool :=
  match l !! i with Some x => f x | None => false end.

Fixpoint find_from {A} (f : A -> bool) (i : nat) (l : list A) : option nat :=
  match l with
  | [] => None
  | x :: l' => if f x then Some i else find_from f (S i) l'
  end.

(** The search: the cursor is tried first, and moved to what is found. *)
Definition find {A} (f : A -> bool) (l : t A) : option nat * t A :=
  match current l with
  | Some i =>
      if holds f (items l) i then (Some i, l)
      else match find_from f 0 (items l) with
           | Some j => (Some j, mk (items l) (Some j))
           | None => (None, l)
           end
  | None =>
      match find_from f 0 (items l) with
      | Some j => (Some j, mk (items l) (Some j))
      | None => (None, l)
      end
  end.

(** Removal of the element of index [i]: a cursor on it moves to the next one. *)
Definition remove_at {A} (i : nat) (l : t A) : t A :=
  mk (delete i (items l))
     (match current l with
      | None => None
      | Some j =>
          if Nat.eqb j i then (if Nat.ltb (S i) (length (items l)) then Some i else None)
          else if Nat.ltb i j then Some (pred j) else Some j
      end).

(** [ListUnlink]: the element found, if any, and the list without it. *)
Definition unlink {A} (f : A -> bool) (l : t A) : option A * t A :=
  match fst (find f l) with
  | Some i => (items l !! i, remove_at i l)
  | None => (None, l)
  end.

(** [ListDetachHead] and [ListPopTail]: the cursor steps off the element. *)
Definition detach_head {A} (l : t A) : option A * t A :=
  match items l with
  | [] => (None, l)
  | x :: _ => (Some x, remove_at 0 l)
  end.

Definition pop_tail {A} (l : t A) : option A * t A :=
  match last (items l) with
  | None => (None, l)
  | Some x =>
      let n := pred (length (items l)) in
      (Some x, mk (take n (items l))
                  (match current l with
                   | Some j => if Nat.eqb j n then (match n with O => None | S m => Some m end)
                               else Some j
                   | None => None
                   end))
  end.

(** The position is inside the list. *)
Definition wf {A} (l : t A) : Prop :=
  match current l with Some i => (i < length (items l))%nat | None => True end.

Lemma find_from_spec {A} (f : A -> bool) l i :
  match find_from f i l with
  | Some j => (i <= j)%nat /\ holds f l (j - i) = true /\
              forall k, (k < j - i)%nat -> holds f l k = false
  | None => forall k, holds f l k = false
  end.
Proof.
  unfold holds. revert i. induction l as [|x l IH]; intros i; simpl; [done|].
  destruct (f x) eqn:E.
  - rewrite Nat.sub_diag. split; [lia|]. split; [done|lia].
  - specialize (IH (S i)). destruct (find_from f (S i) l) as [j|].
    + destruct IH as (Hj & Hh & Hk). replace (j - i)%nat with (S (j - S i)) by lia. simpl.
      split; [lia|]. split; [done|]. intros [|k] Hlt; [done|]. apply Hk. lia.
    + intros [|k]; [done|]. apply IH.
Qed.

(** What a search gives, cursor or not: an element that satisfies the predicate,
    unless none does. *)
Lemma find_spec {A} (f : A -> bool) l :
  match find f l with
  | (Some i, l') => holds f (items l) i = true /\ l' = mk (items l) (Some i)
  | (None, l') => (forall i, holds f (items l) i = false) /\ l' = l
  end.
Proof.
  unfold find. pose proof (find_from_spec f (items l) 0) as H.
  destruct l as [xs [c|]]; simpl in *.
  - destruct (holds f xs c) eqn:E; [done|].
    destruct (find_from f 0 xs); [|done]. rewrite Nat.sub_0_r in H. split; [tauto|done].
  - destruct (find_from f 0 xs); [|done]. rewrite Nat.sub_0_r in H. split; [tauto|done].
Qed.

Lemma holds_lookup {A} (f : A -> bool) l i :
  holds f l i = true <-> exists x, l !! i = Some x /\ f x = true.
Proof.
  unfold holds. destruct (l !! i); split; [eauto|by intros (? & [= ->] & ?)|done|].
  by intros (? & ? & ?).
Qed.

End AList.

(** ** The implementation *)
Module LinkedList.

Section Impl.
Context {C : Type}.

(** [ListElement]: the contents are what the [content] pointer designates. *)
Record ListElement := mkElement {
  prev : option positive;
  next : option positive;
  content : C
}.

(** [List]; [lsize] is the field [size]. *)
Record LList := mkList {
  first : option positive;
  last : option positive;
  current : option positive;
  count : Z;
  lsize : Z
}.

Abbreviation heap := (gmap positive ListElement).

(** Accesses to an element: the pointer must be to a live one. *)
Definition deref (h : heap) (p : positive) : res ListElement :=
  match h !! p with Some n => Ok n | None => Oob end.

Definition set_next (h : heap) (p : positive) (x : option positive) : res heap :=
  n ← deref h p; Ok (<[p := mkElement (prev n) x (content n)]> h).

Definition set_prev (h : heap) (p : positive) (x : option positive) : res heap :=
  n ← deref h p; Ok (<[p := mkElement x (next n) (content n)]> h).

(** [free] of an element. *)
Definition free_element (h : heap) (p : positive) : res heap :=
  _ ← deref h p; Ok (delete p h).

(** [ListZero], [ListInitialize]. *)
Definition ListZero : LList := mkList None None None 0 0.

(** [ListAppendNoMalloc]: [newel] is an element of its own. *)
Definition ListAppendNoMalloc (h : heap) (aList : LList) (c : C) (newel : positive) (size : Z)
    : res (heap * LList) :=
  let h := <[newel := mkElement (last aList) None c]> h in
  '(h, fst) ←
    match first aList, last aList with
    | None, _ => Ok (h, Some newel)
    | Some f, Some l => h' ← set_next h l (Some newel); Ok (h', Some f)
    | Some _, None => Oob
    end;
  Ok (h, mkList fst (Some newel) (current aList) (count aList + 1) (lsize aList + size)).

(** [ListAppend]: [malloc] gives an unused address. *)
Definition ListAppend (h : heap) (aList : LList) (c : C) (size : Z) : res (positive * heap * LList) :=
  let newel := fresh (dom h) in
  '(h', l') ← ListAppendNoMalloc h aList c newel size; Ok (newel, h', l').

(** [ListInsert]: before [index], or at the end when it is null. *)
Definition ListInsert (h : heap) (aList : LList) (c : C) (size : Z) (index : option positive)
    : res (positive * heap * LList) :=
  let newel := fresh (dom h) in
  match index with
  | None => '(h', l') ← ListAppendNoMalloc h aList c newel size; Ok (newel, h', l')
  | Some i =>
      ni ← deref h i;
      let h := <[newel := mkElement (prev ni) (Some i) c]> h in
      h ← set_prev h i (Some newel);
      '(h, fst) ←
        match prev ni with
        | Some q => h' ← set_next h q (Some newel); Ok (h', first aList)
        | None => Ok (h, Some newel)
        end;
      Ok (newel, h,
          mkList fst (last aList) (current aList) (count aList + 1) (lsize aList + size))
  end.

(** [ListNextElement], [ListPrevElement]. *)
Definition ListNextElement (h : heap) (aList : LList) (pos : option positive)
    : res (option positive) :=
  match pos with
  | None => Ok (first aList)
  | Some p => n ← deref h p; Ok (next n)
  end.

Definition ListPrevElement (h : heap) (aList : LList) (pos : option positive)
    : res (option positive) :=
  match pos with
  | None => Ok (last aList)
  | Some p => n ← deref h p; Ok (prev n)
  end.

(** The [while] loop of [ListFindItem]; a list longer than its elements would be
    circular. *)
Fixpoint find_loop (fuel : nat) (h : heap) (aList : LList) (callback : C -> bool)
    (pos : option positive) : res (option positive) :=
  match fuel with
  | O => Oob
  | S fuel' =>
      cur ← ListNextElement h aList pos;
      match cur with
      | None => Ok None
      | Some p =>
          n ← deref h p;
          if callback (content n) then Ok (Some p)
          else find_loop fuel' h aList callback (Some p)
      end
  end.

(** [ListFindItem]; [callback] is the comparison with the content looked for
    (equality of pointers when there is none, as in [ListFind]). *)
Definition ListFindItem (h : heap) (aList : LList) (callback : C -> bool)
    : res (option positive * LList) :=
  let search :=
    rc ← find_loop (S (size h)) h aList callback None;
    Ok (rc, match rc with
            | Some _ => mkList (first aList) (last aList) rc (count aList) (lsize aList)
            | None => aList
            end) in
  match current aList with
  | Some c =>
      n ← deref h c;
      if callback (content n) then Ok (Some c, aList) else search
  | None => search
  end.

Definition ListFind `{EqDecision C} (h : heap) (aList : LList) (c : C)
    : res (option positive * LList) :=
  ListFindItem h aList (fun c' => bool_decide (c' = c)).

(** [ListUnlink]: the content removed, which the caller frees or keeps. *)
Definition ListUnlink (h : heap) (aList : LList) (callback : C -> bool)
    : res (option C * heap * LList) :=
  let saved := current aList in
  '(found, aList) ← ListFindItem h aList callback;
  match found with
  | None => Ok (None, h, aList)
  | Some cur =>
      n ← deref h cur;
      '(h, fst) ←
        match prev n with
        | None => Ok (h, next n)
        | Some q => h' ← set_next h q (next n); Ok (h', first aList)
        end;
      '(h, lst) ←
        match next n with
        | None => Ok (h, prev n)
        | Some q => h' ← set_prev h q (prev n); Ok (h', last aList)
        end;
      h ← free_element h cur;
      Ok (Some (content n), h,
          mkList fst lst (if decide (saved = Some cur) then next n else saved) (count aList - 1)
            (lsize aList))
  end.

Definition ListDetach `{EqDecision C} (h : heap) (aList : LList) (c : C) :=
  ListUnlink h aList (fun c' => bool_decide (c' = c)).
Definition ListRemove `{EqDecision C} (h : heap) (aList : LList) (c : C) :=
  ListUnlink h aList (fun c' => bool_decide (c' = c)).
Definition ListDetachItem (h : heap) (aList : LList) (callback : C -> bool) :=
  ListUnlink h aList callback.
Definition ListRemoveItem (h : heap) (aList : LList) (callback : C -> bool) :=
  ListUnlink h aList callback.

(** [ListDetachHead] ([ListRemoveHead] also frees the content). *)
Definition ListDetachHead (h : heap) (aList : LList) : res (option C * heap * LList) :=
  if 0 <? count aList then
    match first aList with
    | None => Oob
    | Some f =>
        n ← deref h f;
        let cur := if decide (current aList = Some f) then next n else current aList in
        let lst := if decide (last aList = Some f) then None else last aList in
        h ← match next n with Some q => set_prev h q None | None => Ok h end;
        h ← free_element h f;
        Ok (Some (content n), h, mkList (next n) lst cur (count aList - 1) (lsize aList))
    end
  else Ok (None, h, aList).

(** [ListPopTail]. *)
Definition ListPopTail (h : heap) (aList : LList) : res (option C * heap * LList) :=
  if 0 <? count aList then
    match last aList with
    | None => Oob
    | Some l =>
        n ← deref h l;
        let cur := if decide (current aList = Some l) then prev n else current aList in
        let fst := if decide (first aList = Some l) then None else first aList in
        h ← match prev n with Some q => set_next h q None | None => Ok h end;
        h ← free_element h l;
        Ok (Some (content n), h, mkList fst (prev n) cur (count aList - 1) (lsize aList))
    end
  else Ok (None, h, aList).

(** The loop of [ListEmpty] (and of [ListFreeNoContent]): the contents it frees. *)
Fixpoint empty_loop (fuel : nat) (h : heap) (fst : option positive) : res (list C * heap) :=
  match fst with
  | None => Ok ([], h)
  | Some f =>
      match fuel with
      | O => Oob
      | S fuel' =>
          n ← deref h f;
          h ← free_element h f;
          '(cs, h) ← empty_loop fuel' h (next n);
          Ok (content n :: cs, h)
      end
  end.

Definition ListEmpty (h : heap) (aList : LList) : res (list C * heap * LList) :=
  '(cs, h) ← empty_loop (size h) h (first aList);
  Ok (cs, h, ListZero).

(** ** The representation *)

Definition prev_loc (ps : list positive) (i : nat) : option positive :=
  match i with O => None | S j => ps !! j end.

(** The addresses [ps] hold the contents [cs], linked in order, and nothing else
    is in the store. *)
Record chain (h : heap) (ps : list positive) (cs : list C) : Prop := {
  chain_length : length ps = length cs;
  chain_nodup : NoDup ps;
  chain_node : forall i p c, ps !! i = Some p -> cs !! i = Some c ->
                 h !! p = Some (mkElement (prev_loc ps i) (ps !! S i) c);
  chain_dom : forall p, p ∉ ps -> h !! p = None
}.

(** A list structure and its store represent an abstract list, at addresses [ps]. *)
Record rep_at (h : heap) (L : LList) (a : AList.t C) (ps : list positive) : Prop := {
  rep_chain : chain h ps (AList.items a);
  rep_first : first L = ps !! O;
  rep_last : last L = list.last ps;
  rep_current : current L = AList.current a ≫= (fun i => ps !! i);
  rep_wf : AList.wf a;
  rep_count : count L = Zlen (AList.items a)
}.

Definition rep (h : heap) (L : LList) (a : AList.t C) : Prop := exists ps, rep_at h L a ps.

(** ** Chains *)

Lemma chain_lookup h ps cs i p :
  chain h ps cs -> ps !! i = Some p ->
  exists c, cs !! i = Some c /\ h !! p = Some (mkElement (prev_loc ps i) (ps !! S i) c).
Proof.
  intros Hc Hi. pose proof (lookup_lt_Some _ _ _ Hi) as Hlt.
  rewrite (chain_length _ _ _ Hc) in Hlt. apply lookup_lt_is_Some_2 in Hlt as [c Hcs].
  exists c. split; [done|]. by apply (chain_node _ _ _ Hc).
Qed.

Lemma chain_inj h ps cs i j p :
  chain h ps cs -> ps !! i = Some p -> ps !! j = Some p -> i = j.
Proof. intros Hc. apply NoDup_lookup, Hc. Qed.

Lemma chain_size h ps cs : chain h ps cs -> size h = length ps.
Proof.
  intros Hc. rewrite <- size_dom. 
  assert (dom h = list_to_set (C := gset positive) ps) as ->.
  { apply set_eq. intros p. rewrite elem_of_dom, elem_of_list_to_set. split.
    - intros [n Hn]. destruct (decide (p ∈ ps)); [done|].
      rewrite (chain_dom _ _ _ Hc) in Hn; done.
    - intros [i Hi]%list_elem_of_lookup. 
      destruct (chain_lookup _ _ _ _ _ Hc Hi) as (c & _ & ->). eauto. }
  apply size_list_to_set, Hc.
Qed.

(** What an insertion before position [k] does to the store, pointwise. *)
Definition inserted (h h' : heap) (ps : list positive) (k : nat) (p : positive) (c : C) : Prop :=
  forall q, h' !! q =
    if decide (q = p) then Some (mkElement (prev_loc ps k) (ps !! k) c)
    else (fun n => mkElement (if decide (ps !! k = Some q) then Some p else prev n)
                             (if decide (prev_loc ps k = Some q) then Some p else next n)
                             (content n)) <$> h !! q.

Lemma lookup_insert_at {X} (l : list X) k x i :
  (k <= length l)%nat ->
  (take k l ++ x :: drop k l) !! i =
  if Nat.ltb i k then l !! i else if Nat.eqb i k then Some x else l !! pred i.
Proof.
  intros Hk. destruct (Nat.ltb_spec i k).
  - rewrite lookup_app_l by (rewrite length_take; lia). by rewrite lookup_take_lt.
  - rewrite lookup_app_r by (rewrite length_take; lia). rewrite length_take, Nat.min_l by lia.
    destruct (Nat.eqb_spec i k) as [->|]; [by rewrite Nat.sub_diag|].
    destruct (i - k)%nat as [|m] eqn:E; [lia|]. simpl. rewrite lookup_drop. f_equal. lia.
Qed.

Lemma prev_loc_insert ps k p i :
  (k <= length ps)%nat -> (i <= length ps)%nat ->
  prev_loc (take k ps ++ p :: drop k ps) i =
  if Nat.leb i k then prev_loc ps i else if Nat.eqb i (S k) then Some p else prev_loc ps (pred i).
Proof.
  intros Hk Hi. destruct i as [|i]; [done|].
  unfold prev_loc at 1. rewrite lookup_insert_at by done.
  change (Nat.leb (S i) k) with (Nat.ltb i k). change (Nat.eqb (S i) (S k)) with (Nat.eqb i k).
  destruct (Nat.ltb_spec i k); [done|].
  destruct (Nat.eqb_spec i k); [done|]. destruct i; [lia|]. done.
Qed.

Lemma chain_inserted h h' ps cs k p c :
  chain h ps cs -> (k <= length ps)%nat -> p ∉ ps -> inserted h h' ps k p c ->
  chain h' (take k ps ++ p :: drop k ps) (take k cs ++ c :: drop k cs).
Proof.
  intros Hc Hk Hp Hins. pose proof (chain_length _ _ _ Hc) as Hlen.
  assert (NoDup (take k ps ++ p :: drop k ps)) as Hnd.
  { apply NoDup_Permutation_proper with (x := p :: ps).
    - rewrite <- Permutation_middle. by rewrite take_drop.
    - apply NoDup_cons_2; [done|apply Hc]. }
  split; [|done| |].
  - rewrite !length_app, !length_take. simpl. rewrite !length_drop. lia.
  - intros i q d Hq Hd. rewrite (Hins q).
    pose proof (lookup_lt_Some _ _ _ Hq) as Hi.
    rewrite length_app, length_take in Hi. simpl in Hi. rewrite length_drop in Hi.
    rewrite lookup_insert_at in Hq by done. rewrite lookup_insert_at in Hd by lia.
    rewrite prev_loc_insert, lookup_insert_at by lia.
    destruct (Nat.ltb_spec i k) as [Hik|Hik].
    + destruct (decide (q = p)) as [->|Hqp].
      { exfalso. apply Hp. by eapply list_elem_of_lookup_2. }
      rewrite (chain_node _ _ _ Hc _ _ _ Hq Hd). cbn -[Nat.ltb Nat.eqb Nat.leb prev_loc]. f_equal. f_equal.
      * rewrite decide_False; [destruct (Nat.leb_spec i k); [done|lia]|].
        intros E. pose proof (chain_inj _ _ _ _ _ _ Hc Hq E). lia.
      * destruct (Nat.ltb_spec (S i) k).
        -- rewrite decide_False; [done|]. destruct k as [|k]; [done|]. simpl.
           intros E. pose proof (chain_inj _ _ _ _ _ _ Hc Hq E). lia.
        -- rewrite decide_True; [destruct (Nat.eqb_spec (S i) k); [done|lia]|].
           destruct k as [|k]; [lia|]. simpl. by replace k with i by lia.
    + destruct (Nat.eqb_spec i k) as [->|Hne].
      * injection Hq as <-. injection Hd as <-. rewrite decide_True by done.
        destruct (Nat.leb_spec k k); [|lia]. destruct (Nat.ltb_spec (S k) k); [lia|].
        destruct (Nat.eqb_spec (S k) k); [lia|]. done.
      * destruct (decide (q = p)) as [->|Hqp].
        { exfalso. apply Hp. by eapply list_elem_of_lookup_2. }
        rewrite (chain_node _ _ _ Hc _ _ _ Hq Hd). cbn -[Nat.ltb Nat.eqb Nat.leb prev_loc].
        destruct (Nat.leb_spec i k); [lia|]. destruct (Nat.ltb_spec (S i) k); [lia|].
        destruct (Nat.eqb_spec (S i) k); [lia|]. f_equal. f_equal.
        -- destruct (Nat.eqb_spec i (S k)) as [->|].
           ++ by rewrite decide_True.
           ++ rewrite decide_False; [done|].
              intros E. pose proof (chain_inj _ _ _ _ _ _ Hc Hq E). lia.
        -- rewrite decide_False; [f_equal; lia|]. destruct k as [|k]; [done|]. simpl.
           intros E. pose proof (chain_inj _ _ _ _ _ _ Hc Hq E). lia.
  - intros q Hq. rewrite (Hins q).
    assert (q <> p /\ q ∉ ps) as [Hqp Hqps].
    { rewrite <- Permutation_middle, take_drop in Hq.
      apply not_elem_of_cons in Hq. done. }
    rewrite decide_False by done. by rewrite (chain_dom _ _ _ Hc).
Qed.

(** What the removal of the element at position [k] does to the store. *)
Definition removed (h h' : heap) (ps : list positive) (k : nat) : Prop :=
  forall q, h' !! q =
    if decide (ps !! k = Some q) then None
    else (fun n => mkElement (if decide (ps !! S k = Some q) then prev_loc ps k else prev n)
                             (if decide (prev_loc ps k = Some q) then ps !! S k else next n)
                             (content n)) <$> h !! q.

Lemma lookup_delete_at {X} (l : list X) k i :
  delete k l !! i = if Nat.ltb i k then l !! i else l !! S i.
Proof.
  destruct (Nat.ltb_spec i k).
  - by apply list_lookup_delete_lt.
  - by apply list_lookup_delete_ge.
Qed.

Lemma prev_loc_delete ps k i :
  prev_loc (delete k ps) i =
  if Nat.leb i k then prev_loc ps i else prev_loc ps (S i).
Proof.
  destruct i as [|i]; [done|]. unfold prev_loc at 1. rewrite lookup_delete_at.
  change (Nat.leb (S i) k) with (Nat.ltb i k). by destruct (Nat.ltb_spec i k).
Qed.

(** In a chain an address other than that of position [j] is not met there. *)
Ltac off_position Hc Hq :=
  rewrite decide_False;
  [|let E := fresh in intros E; pose proof (chain_inj _ _ _ _ _ _ Hc Hq E); lia].

Lemma chain_removed h h' ps cs k :
  chain h ps cs -> (k < length ps)%nat -> removed h h' ps k ->
  chain h' (delete k ps) (delete k cs).
Proof.
  intros Hc Hk Hrem. pose proof (chain_length _ _ _ Hc) as Hlen.
  split.
  - rewrite !length_delete by (apply lookup_lt_is_Some; lia). lia.
  - apply (sublist_NoDup _ ps); [apply Hc|apply sublist_delete].
  - intros i q d Hq Hd. rewrite (Hrem q).
    rewrite lookup_delete_at in Hq. rewrite lookup_delete_at in Hd. rewrite prev_loc_delete, lookup_delete_at.
    assert (exists j, ps !! j = Some q /\ cs !! j = Some d /\ j = if Nat.ltb i k then i else S i)
      as (j & Hqj & Hdj & Hj) by (destruct (Nat.ltb_spec i k); eauto).
    clear Hq Hd. assert (j <> k) as Hjk by (subst j; destruct (Nat.ltb_spec i k); lia).
    off_position Hc Hqj.
    rewrite (chain_node _ _ _ Hc _ _ _ Hqj Hdj). cbn -[Nat.ltb Nat.leb prev_loc].
    f_equal. f_equal.
    + destruct (Nat.ltb_spec i k); subst j.
      * off_position Hc Hqj. by destruct (Nat.leb_spec i k); [|lia].
      * destruct (decide (i = k)) as [->|].
        -- rewrite decide_True by done. by rewrite Nat.leb_refl.
        -- off_position Hc Hqj. by destruct (Nat.leb_spec i k); [lia|].
    + destruct k as [|k]; cbn [prev_loc].
      * rewrite decide_False by done. by subst j.
      * destruct (Nat.ltb_spec i (S k)); subst j.
        -- destruct (decide (i = k)) as [->|].
           ++ rewrite decide_True by done. by destruct (Nat.ltb_spec (S k) (S k)); [lia|].
           ++ off_position Hc Hqj. by destruct (Nat.ltb_spec (S i) (S k)); [|lia].
        -- off_position Hc Hqj. by destruct (Nat.ltb_spec (S i) (S k)); [lia|].
  - intros q Hq. rewrite (Hrem q). case_decide as E; [done|].
    rewrite (chain_dom _ _ _ Hc); [done|].
    intros [j Hj]%list_elem_of_lookup. apply Hq. apply list_elem_of_lookup.
    destruct (lt_eq_lt_dec j k) as [ [Hjk| ->] | Hjk ].
    + exists j. rewrite lookup_delete_at. by destruct (Nat.ltb_spec j k); [|lia].
    + by rewrite Hj in E.
    + exists (pred j). rewrite lookup_delete_at. destruct (Nat.ltb_spec (pred j) k); [lia|].
      by replace (S (pred j)) with j by lia.
Qed.

(** ** Allocation *)

Lemma fresh_not_in h ps cs : chain h ps cs -> fresh (dom h) ∉ ps.
Proof.
  intros Hc [i Hi]%list_elem_of_lookup.
  destruct (chain_lookup _ _ _ _ _ Hc Hi) as (c & _ & Hl).
  apply (is_fresh (dom h)). apply elem_of_dom. eauto.
Qed.

Lemma last_lookup_pred {X} (l : list X) : list.last l = l !! pred (length l).
Proof. apply list.last_lookup. Qed.

(** ** The operations refine those on abstract lists *)

Lemma rep_zero : rep ∅ ListZero (@AList.empty C).
Proof.
  exists []. split; try done. split; try done. constructor.
Qed.

Lemma rep_append_at h L a ps c newel sz :
  rep_at h L a ps -> newel ∉ ps -> 
  exists h' L', ListAppendNoMalloc h L c newel sz = Ok (h', L') /\
    rep_at h' L' (AList.append c a) (ps ++ [newel]).
Proof.
  intros [Hc Hf Hl Hcur Hwf Hcnt] Hp. pose proof (chain_length _ _ _ Hc) as Hlen.
  unfold ListAppendNoMalloc. rewrite Hf, Hl.
  assert (forall h', inserted h h' ps (length ps) newel c -> chain h' (ps ++ [newel]) (AList.items a ++ [c]))
    as Hchain.
  { intros h' Hi. pose proof (chain_inserted _ _ _ _ _ _ _ Hc (le_n _) Hp Hi) as H.
    rewrite Hlen in H at 3 4. by rewrite !firstn_all, !drop_all in H. }
  assert (forall L', first L' = (ps ++ [newel]) !! O -> last L' = Some newel ->
    current L' = current L -> count L' = count L + 1 -> forall h', inserted h h' ps (length ps) newel c ->
    rep_at h' L' (AList.append c a) (ps ++ [newel])) as Hrep.
  { intros L' E1 E2 E3 E4 h' Hi. split; simpl.
    - by apply Hchain.
    - done.
    - by rewrite last_snoc.
    - rewrite E3, Hcur. unfold AList.wf in Hwf. destruct (AList.current a) as [i|]; [|done]. simpl.
      rewrite lookup_app_l; [done|]. lia.
    - unfold AList.wf in *. simpl. destruct (AList.current a); [|done]. rewrite length_app. simpl. lia.
    - rewrite E4, Hcnt. zlen. }
  destruct ps as [|p0 ps'] eqn:Eps.
  - simpl. do 2 eexists. split; [done|]. apply Hrep; try done.
    intros q. simpl. rewrite lookup_insert. destruct (decide (newel = q)) as [->|]; case_decide; try done.
    by destruct (h !! q) as [[]|].
  - rewrite <- Eps in *. rewrite last_lookup_pred. cbn [mbind res_bind].
    destruct (ps !! pred (length ps)) as [l|] eqn:El.
    2:{ apply lookup_ge_None in El. subst ps. simpl in El. lia. }
    assert (ps !! 0%nat = Some p0) as E0 by by rewrite Eps. rewrite E0.
    destruct (chain_lookup _ _ _ _ _ Hc El) as (d & _ & Hd).
    assert (l <> newel) as Hne by (intros ->; apply Hp; by eapply list_elem_of_lookup_2).
    unfold set_next, deref. rewrite lookup_insert_ne, Hd by done. cbn [mbind res_bind].
    do 2 eexists. split; [done|]. apply Hrep; try done.
    { simpl. by rewrite Eps. }
    intros q. rewrite lookup_insert. destruct (decide (l = q)) as [->|Hlq].
    + rewrite decide_False by done. rewrite Hd. simpl. f_equal.
      assert (prev_loc ps (length ps) = Some q) as ->.
      { destruct (length ps) eqn:Elen; [|done]. subst ps. done. }
      rewrite (lookup_ge_None_2 ps (length ps)) by lia. by rewrite decide_False, decide_True.
    + rewrite lookup_insert. destruct (decide (newel = q)) as [->|].
      * rewrite decide_True by done. rewrite (lookup_ge_None_2 ps (length ps)) by lia.
        do 2 f_equal. destruct (length ps) eqn:Elen; [subst ps; done|]. done.
      * rewrite decide_False by done. destruct (h !! q) as [[]|]; [|done]. simpl.
        rewrite (lookup_ge_None_2 ps (length ps)) by lia. rewrite !decide_False; [done| |done].
        destruct (length ps) eqn:Elen; [done|]. simpl in *. congruence.
Qed.

Lemma rep_append h L a c sz :
  rep h L a ->
  exists p h' L', ListAppend h L c sz = Ok (p, h', L') /\ rep h' L' (AList.append c a).
Proof.
  intros [ps Hr]. pose proof (fresh_not_in _ _ _ (rep_chain _ _ _ _ Hr)) as Hp.
  destruct (rep_append_at _ _ _ _ c _ sz Hr Hp) as (h' & L' & He & Hr').
  exists (fresh (dom h)), h', L'. unfold ListAppend. rewrite He. split; [done|]. by eexists.
Qed.

(** Insertion before the element of index [k]. *)
Lemma rep_insert h L a ps c sz k q :
  rep_at h L a ps -> ps !! k = Some q ->
  exists p h' L', ListInsert h L c sz (Some q) = Ok (p, h', L') /\
    rep h' L' (AList.insert_before k c a).
Proof.
  intros [Hc Hf Hl Hcur Hwf Hcnt] Hk. pose proof (chain_length _ _ _ Hc) as Hlen.
  pose proof (fresh_not_in _ _ _ Hc) as Hp. set (p := fresh (dom h)) in *.
  pose proof (lookup_lt_Some _ _ _ Hk) as Hlt.
  destruct (chain_lookup _ _ _ _ _ Hc Hk) as (d & _ & Hd).
  assert (q <> p) as Hqp by (intros ->; apply Hp; by eapply list_elem_of_lookup_2).
  unfold ListInsert, deref at 1. fold p. rewrite Hd. cbn [mbind res_bind prev].
  unfold set_prev, deref. rewrite lookup_insert_ne, Hd by done. cbn [mbind res_bind next content].
  set (h1 := <[q := _]> (<[p := _]> h)).
  assert (exists h' fst', match prev_loc ps k with
     | Some q0 => h'0 ← set_next h1 q0 (Some p); Ok (h'0, first L)
     | None => Ok (h1, Some p) end = Ok (h', fst') /\
     fst' = (take k ps ++ p :: drop k ps) !! O /\ inserted h h' ps k p c)
    as (h' & fst' & E & Efst & Hins).
  { destruct (prev_loc ps k) as [q0|] eqn:Ep.
    - destruct k as [|k]; [done|]. simpl in Ep.
      destruct (chain_lookup _ _ _ _ _ Hc Ep) as (d0 & _ & Hd0).
      assert (q0 <> p) by (intros ->; apply Hp; by eapply list_elem_of_lookup_2).
      assert (q0 <> q) by (intros ->; pose proof (chain_inj _ _ _ _ _ _ Hc Ep Hk); lia).
      unfold set_next, deref. subst h1. rewrite !lookup_insert_ne, Hd0 by done.
      cbn [mbind res_bind prev content]. do 2 eexists. split; [done|]. split.
      + rewrite Hf. rewrite lookup_insert_at by lia. done.
      + intros r. rewrite !lookup_insert. simpl prev_loc. rewrite Ep, Hk.
        destruct (decide (q0 = r)) as [->|].
        { rewrite decide_False by done. rewrite Hd0. simpl. f_equal. f_equal.
          - rewrite decide_False; congruence. - by rewrite decide_True. }
        destruct (decide (q = r)) as [->|].
        { rewrite decide_False by done. rewrite Hd. simpl. f_equal. f_equal.
          - by rewrite decide_True. - rewrite decide_False; congruence. }
        destruct (decide (p = r)) as [->|]; [by rewrite decide_True|].
        rewrite decide_False by done. destruct (h !! r) as [[]|]; [|done]. simpl.
        rewrite !decide_False; congruence.
    - assert (k = O) as -> by (destruct k; [done|]; simpl in Ep; apply lookup_ge_None in Ep; lia).
      do 2 eexists. split; [done|]. split; [done|].
      intros r. subst h1. rewrite !lookup_insert. simpl prev_loc. rewrite Hk.
      destruct (decide (q = r)) as [->|].
      { rewrite decide_False by done. rewrite Hd. simpl. f_equal. f_equal.
        by rewrite decide_True. }
      destruct (decide (p = r)) as [->|]; [by rewrite decide_True|].
      rewrite decide_False by done. destruct (h !! r) as [[]|]; [|done]. simpl.
      rewrite !decide_False; congruence. }
  rewrite E. cbn [mbind res_bind]. do 3 eexists. split; [done|].
  exists (take k ps ++ p :: drop k ps). split; simpl.
  - apply (chain_inserted h); [done|lia|done|done].
  - done.
  - rewrite Hl, !last_lookup_pred, lookup_insert_at by lia.
    assert (pred (length (take k ps ++ p :: drop k ps)) = length ps) as ->
      by (rewrite length_app, length_take; simpl; rewrite length_drop; lia).
    destruct (Nat.ltb_spec (length ps) k); [lia|]. by destruct (Nat.eqb_spec (length ps) k); [lia|].
  - rewrite Hcur. unfold AList.wf in Hwf. destruct (AList.current a) as [i|]; [|done]. simpl.
    rewrite lookup_insert_at by lia. destruct (Nat.leb_spec k i).
    + destruct (Nat.ltb_spec (S i) k); [lia|]. by destruct (Nat.eqb_spec (S i) k); [lia|].
    + by destruct (Nat.ltb_spec i k); [|lia].
  - unfold AList.wf in *. simpl. rewrite length_app, length_take. simpl. rewrite length_drop.
    destruct (AList.current a) as [i|]; simpl; [|done]. destruct (Nat.leb_spec k i); lia.
  - rewrite Hcnt. unfold Zlen. rewrite length_app, length_take. simpl. rewrite length_drop. lia.
Qed.

(** ** Searching *)

Lemma next_at h L a ps i :
  rep_at h L a ps -> (i <= length ps)%nat ->
  ListNextElement h L (prev_loc ps i) = Ok (ps !! i).
Proof.
  intros Hr Hi. destruct i as [|i]; simpl; [by rewrite (rep_first _ _ _ _ Hr)|].
  destruct (lookup_lt_is_Some_2 ps i Hi) as [p Hp]. rewrite Hp. simpl.
  destruct (chain_lookup _ _ _ _ _ (rep_chain _ _ _ _ Hr) Hp) as (c & _ & Hd).
  unfold deref. by rewrite Hd.
Qed.

Lemma find_loop_spec h L a ps cb fuel i :
  rep_at h L a ps -> (i <= length ps)%nat -> (length ps - i < fuel)%nat ->
  find_loop fuel h L cb (prev_loc ps i) =
    Ok (AList.find_from cb i (drop i (AList.items a)) ≫= fun j => ps !! j).
Proof.
  intros Hr. pose proof (rep_chain _ _ _ _ Hr) as Hc. pose proof (chain_length _ _ _ Hc) as Hlen.
  revert i. induction fuel as [|fuel IH]; intros i Hi Hf; [lia|].
  cbn [find_loop]. rewrite (next_at _ _ _ _ _ Hr Hi). cbn [mbind res_bind].
  destruct (ps !! i) as [p|] eqn:Hp.
  - destruct (chain_lookup _ _ _ _ _ Hc Hp) as (c & Hcs & Hd).
    unfold deref. rewrite Hd. cbn [mbind res_bind content].
    rewrite (drop_S _ _ _ Hcs). simpl. destruct (cb c); [simpl; by rewrite Hp|].
    pose proof (lookup_lt_Some _ _ _ Hp).
    rewrite <- IH by lia. simpl. by rewrite Hp.
  - apply lookup_ge_None in Hp. rewrite drop_ge by lia. done.
Qed.

Lemma rep_find h L a ps cb :
  rep_at h L a ps ->
  exists L', ListFindItem h L cb = Ok (fst (AList.find cb a) ≫= (fun i => ps !! i), L') /\
    rep_at h L' (snd (AList.find cb a)) ps.
Proof.
  intros Hr. pose proof (rep_chain _ _ _ _ Hr) as Hc. pose proof (chain_length _ _ _ Hc) as Hlen.
  pose proof (find_loop_spec h L a ps cb (S (size h)) 0 Hr (Nat.le_0_l _)) as Hs.
  rewrite (chain_size _ _ _ Hc) in Hs. specialize (Hs ltac:(lia)). rewrite drop_0 in Hs.
  simpl prev_loc in Hs.
  pose proof (AList.find_from_spec cb (AList.items a) 0) as Hff.
  assert (forall j, AList.find_from cb 0 (AList.items a) = Some j ->
    (j < length ps)%nat /\ exists p, ps !! j = Some p) as Hj.
  { intros j Ej. rewrite Ej in Hff. destruct Hff as (_ & Hh & _). rewrite Nat.sub_0_r in Hh.
    apply AList.holds_lookup in Hh as (x & Hx & _). apply lookup_lt_Some in Hx.
    split; [lia|]. apply lookup_lt_is_Some. lia. }
  assert (forall c0, AList.current a = c0 ->
    (match c0 with Some i => AList.holds cb (AList.items a) i = false | None => True end) ->
    exists L', (rc ← find_loop (S (size h)) h L cb None;
      Ok (rc, match rc with
            | Some _ => mkList (first L) (last L) rc (count L) (lsize L)
            | None => L end)) =
      Ok (AList.find_from cb 0 (AList.items a) ≫= (fun i => ps !! i), L') /\
    rep_at h L' (match AList.find_from cb 0 (AList.items a) with
                 | Some j => AList.mk (AList.items a) (Some j) | None => a end) ps) as Hsearch.
  { intros c0 _ _. rewrite (chain_size _ _ _ Hc), Hs. cbn [mbind res_bind].
    destruct (AList.find_from cb 0 (AList.items a)) as [j|] eqn:Ej; simpl; [|eauto].
    destruct (Hj j eq_refl) as (Hlt & p & Hp). rewrite Hp. eexists. split; [done|].
    destruct Hr. split; simpl; try done. unfold AList.wf. simpl. lia. }
  unfold ListFindItem, AList.find. rewrite (rep_current _ _ _ _ Hr).
  destruct (AList.current a) as [i|] eqn:Ecur; cbn [mbind option_bind].
  - pose proof (rep_wf _ _ _ _ Hr) as Hwf. unfold AList.wf in Hwf. rewrite Ecur in Hwf.
    assert (i < length ps)%nat as Hi by lia.
    destruct (lookup_lt_is_Some_2 ps i Hi) as [p Hp]. rewrite Hp.
    destruct (chain_lookup _ _ _ _ _ Hc Hp) as (c & Hcs & Hd).
    unfold deref at 1. rewrite Hd. cbn [mbind res_bind content].
    unfold AList.holds in *. rewrite Hcs in *. destruct (cb c) eqn:Ecb.
    + simpl. rewrite Hp. eauto.
    + destruct (Hsearch (Some i) eq_refl) as (L' & E & Hr'); [by rewrite Hcs|].
      exists L'. rewrite E. destruct (AList.find_from cb 0 (AList.items a)); done.
  - destruct (Hsearch None eq_refl I) as (L' & E & Hr').
    exists L'. rewrite E. destruct (AList.find_from cb 0 (AList.items a)); done.
Qed.

(** ** Removal *)

(** The pointer updates that take an element out. *)
Definition unlink_heap (h : heap) (n : ListElement) (p : positive) : res heap :=
  h ← match prev n with None => Ok h | Some q => set_next h q (next n) end;
  h ← match next n with None => Ok h | Some q => set_prev h q (prev n) end;
  free_element h p.

Lemma unlink_heap_spec h ps cs k p c :
  chain h ps cs -> ps !! k = Some p -> cs !! k = Some c ->
  exists h', unlink_heap h (mkElement (prev_loc ps k) (ps !! S k) c) p = Ok h' /\
             removed h h' ps k.
Proof.
  intros Hc Hp Hcs. unfold unlink_heap. cbn [prev next].
  pose proof (chain_node _ _ _ Hc _ _ _ Hp Hcs) as Hd.
  (* the first update *)
  assert (exists h1, match prev_loc ps k with None => Ok h | Some q => set_next h q (ps !! S k) end
      = Ok h1 /\ forall r, h1 !! r =
        (fun n => mkElement (prev n) (if decide (prev_loc ps k = Some r) then ps !! S k else next n)
                            (content n)) <$> h !! r) as (h1 & -> & H1).
  { destruct (prev_loc ps k) as [q|] eqn:Eq.
    - destruct k as [|k]; [done|]. simpl in Eq.
      destruct (chain_lookup _ _ _ _ _ Hc Eq) as (d & _ & Hdq).
      unfold set_next, deref. rewrite Hdq. eexists. split; [done|]. intros r.
      rewrite lookup_insert. destruct (decide (q = r)) as [->|].
      + rewrite Hdq. simpl. by rewrite decide_True.
      + destruct (h !! r) as [[]|]; [|done]. simpl. rewrite decide_False; congruence.
    - eexists. split; [done|]. intros r. destruct (h !! r) as [[]|]; done. }
  cbn [mbind res_bind].
  assert (exists h2, match ps !! S k with None => Ok h1 | Some q => set_prev h1 q (prev_loc ps k) end
      = Ok h2 /\ forall r, h2 !! r =
        (fun n => mkElement (if decide (ps !! S k = Some r) then prev_loc ps k else prev n)
                            (if decide (prev_loc ps k = Some r) then ps !! S k else next n)
                            (content n)) <$> h !! r) as (h2 & -> & H2).
  { destruct (ps !! S k) as [q|] eqn:Eq.
    - destruct (chain_lookup _ _ _ _ _ Hc Eq) as (d & _ & Hdq).
      unfold set_prev, deref. try rewrite Eq in H1. rewrite H1, Hdq. eexists. split; [done|]. intros r.
      rewrite lookup_insert. destruct (decide (q = r)) as [->|].
      + rewrite Hdq. simpl. by rewrite (decide_True (P := Some r = Some r)).
      + rewrite H1. destruct (h !! r) as [[]|]; [|done]. simpl. rewrite (decide_False (P := Some q = Some r)); congruence.
    - eexists. split; [done|]. intros r. try rewrite Eq in H1. rewrite H1.
      destruct (h !! r) as [[]|]; done. }
  cbn [mbind res_bind]. unfold free_element, deref. rewrite H2, Hd. eexists. split; [done|].
  intros r. rewrite lookup_delete, Hp, H2. destruct (decide (p = r)) as [->|].
  - by rewrite decide_True.
  - rewrite decide_False; congruence.
Qed.

(** Any list structure with the right ends represents the list without the element. *)
Lemma rep_removed h h' L L' a ps k cur :
  rep_at h L a ps -> (k < length ps)%nat -> removed h h' ps k ->
  first L' = delete k ps !! O -> last L' = list.last (delete k ps) ->
  current L' = cur ≫= (fun i => delete k ps !! i) ->
  (forall i, cur = Some i -> (S i < length ps)%nat) ->
  count L' = count L - 1 ->
  rep_at h' L' (AList.mk (delete k (AList.items a)) cur) (delete k ps).
Proof.
  intros [Hc Hf Hl Hcur Hwf Hcnt] Hk Hrem E1 E2 E3 E4 E5.
  pose proof (chain_length _ _ _ Hc) as Hlen.
  split; simpl; try done.
  - by apply (chain_removed h).
  - unfold AList.wf. simpl. destruct cur as [i|]; [|done]. specialize (E4 i eq_refl).
    rewrite length_delete by (apply lookup_lt_is_Some; lia). lia.
  - rewrite E5, Hcnt. unfold Zlen. rewrite length_delete by (apply lookup_lt_is_Some; lia). lia.
Qed.

Lemma first_delete (ps : list positive) k :
  (k < length ps)%nat ->
  delete k ps !! O = match prev_loc ps k with None => ps !! S k | Some _ => ps !! O end.
Proof.
  intros Hk. rewrite lookup_delete_at. destruct k as [|k]; [done|].
  cbn [Nat.ltb Nat.leb prev_loc].
  destruct (lookup_lt_is_Some_2 ps k) as [q ->]; [lia|done].
Qed.

Lemma last_delete (ps : list positive) k :
  (k < length ps)%nat ->
  list.last (delete k ps) = match ps !! S k with None => prev_loc ps k | Some _ => list.last ps end.
Proof.
  intros Hk. rewrite !last_lookup_pred, lookup_delete_at.
  rewrite length_delete by (apply lookup_lt_is_Some; lia).
  destruct (ps !! S k) as [q|] eqn:E.
  - apply lookup_lt_Some in E. destruct (Nat.ltb_spec (pred (length ps - 1)) k); [lia|].
    f_equal. lia.
  - apply lookup_ge_None in E. assert (length ps = S k) as Hl by lia. rewrite Hl. simpl.
    rewrite Nat.sub_0_r. destruct k as [|k]; simpl.
    + by apply lookup_ge_None.
    + destruct (Nat.ltb_spec k (S k)); [done|lia].
Qed.

(** The cursor after the removal of the element at [k]. *)
Lemma cursor_removed h L a ps k p :
  rep_at h L a ps -> ps !! k = Some p ->
  (if decide (current L = Some p) then ps !! S k else current L) =
    AList.current (AList.remove_at k a) ≫= (fun i => delete k ps !! i) /\
  (forall i, AList.current (AList.remove_at k a) = Some i -> (S i < length ps)%nat).
Proof.
  intros [Hc Hf Hl Hcur Hwf Hcnt] Hp. pose proof (chain_length _ _ _ Hc) as Hlen.
  pose proof (lookup_lt_Some _ _ _ Hp) as Hk.
  split.
  - rewrite Hcur. unfold AList.remove_at, AList.wf in *. simpl.
    destruct (AList.current a) as [j|]; [|by rewrite decide_False]. cbn [mbind option_bind].
    destruct (Nat.eqb_spec j k) as [->|Hne].
    + rewrite decide_True by done. destruct (Nat.ltb_spec (S k) (length (AList.items a))).
      * simpl. rewrite lookup_delete_at. destruct (Nat.ltb_spec k k); [lia|done].
      * simpl. apply lookup_ge_None. lia.
    + rewrite decide_False.
      2:{ intros E. pose proof (chain_inj _ _ _ _ _ _ Hc E Hp). lia. }
      destruct (Nat.ltb_spec k j); simpl; rewrite lookup_delete_at.
      * destruct (Nat.ltb_spec (pred j) k); [lia|]. f_equal. lia.
      * by destruct (Nat.ltb_spec j k); [|lia].
  - unfold AList.remove_at, AList.wf in *. simpl.
    destruct (AList.current a) as [j|]; [|done]. intros i.
    destruct (Nat.eqb_spec j k) as [->|Hne].
    + destruct (Nat.ltb_spec (S k) (length (AList.items a))); [|done]. intros [= <-]. lia.
    + destruct (Nat.ltb_spec k j); intros [= <-]; lia.
Qed.

Lemma rep_unlink h L a cb :
  rep h L a ->
  exists h' L', ListUnlink h L cb = Ok (fst (AList.unlink cb a), h', L') /\
    rep h' L' (snd (AList.unlink cb a)).
Proof.
  intros [ps Hr]. destruct (rep_find _ _ _ _ cb Hr) as (L1 & Hfind & Hr1).
  pose proof (AList.find_spec cb a) as Hspec. unfold ListUnlink, AList.unlink. rewrite Hfind.
  destruct (AList.find cb a) as [[k|] a1]; simpl in *; destruct Hspec as [Hh ->].
  2:{ do 2 eexists. split; [done|]. by exists ps. }
  apply AList.holds_lookup in Hh as (c & Hc & _).
  pose proof (rep_chain _ _ _ _ Hr) as Hch. pose proof (chain_length _ _ _ Hch) as Hlen.
  pose proof (lookup_lt_Some _ _ _ Hc) as Hk.
  destruct (lookup_lt_is_Some_2 ps k) as [p Hp]; [lia|]. rewrite Hp.
  pose proof (chain_node _ _ _ Hch _ _ _ Hp Hc) as Hd.
  unfold deref at 1. rewrite Hd. cbn [mbind res_bind prev next content].
  destruct (unlink_heap_spec _ _ _ _ _ _ Hch Hp Hc) as (h' & Hu & Hrem).
  unfold unlink_heap in Hu. cbn [prev next] in Hu.
  assert (exists L', (let saved := current L in
     '(h, fst) ← match prev_loc ps k with
        | None => Ok (h, ps !! S k)
        | Some q => h' ← set_next h q (ps !! S k); Ok (h', first L1) end;
     '(h, lst) ← match ps !! S k with
        | None => Ok (h, prev_loc ps k)
        | Some q => h' ← set_prev h q (prev_loc ps k); Ok (h', last L1) end;
     h ← free_element h p;
     Ok (Some c, h, mkList fst lst (if decide (saved = Some p) then ps !! S k else saved)
                      (count L1 - 1) (lsize L1))) = Ok (Some c, h', L') /\
     first L' = delete k ps !! O /\ last L' = list.last (delete k ps) /\
     current L' = (if decide (current L = Some p) then ps !! S k else current L) /\
     count L' = count L - 1) as (L' & E & E1 & E2 & E3 & E4).
  { cbv zeta.
    assert (count L1 = count L) as -> by (rewrite (rep_count _ _ _ _ Hr1), (rep_count _ _ _ _ Hr); done).
    rewrite (rep_first _ _ _ _ Hr1), (rep_last _ _ _ _ Hr1).
    rewrite first_delete, last_delete by lia.
    destruct (prev_loc ps k) as [q|]; [destruct (set_next h q (ps !! S k)) as [h1| |]; [|done|done]|];
      cbn [mbind res_bind] in *;
      (destruct (ps !! S k) as [q'|];
        [match type of Hu with context [set_prev ?x ?y ?z] => destruct (set_prev x y z) as [h2| |] end;
         [|done|done]|]);
      cbn [mbind res_bind] in *; rewrite Hu; eexists; (split; [reflexivity|]); done. }
  cbv zeta in E. rewrite E. rewrite Hc. do 2 eexists. split; [done|]. exists (delete k ps).
  destruct (cursor_removed _ _ _ _ _ _ Hr Hp) as (Hcur & Hb).
  apply (rep_removed h h' L); try done; [lia|]. by rewrite E3.
Qed.

Lemma rep_detach_head h L a :
  rep h L a ->
  exists h' L', ListDetachHead h L = Ok (fst (AList.detach_head a), h', L') /\
    rep h' L' (snd (AList.detach_head a)).
Proof.
  intros [ps Hr]. pose proof (rep_chain _ _ _ _ Hr) as Hch.
  pose proof (chain_length _ _ _ Hch) as Hlen.
  unfold ListDetachHead, AList.detach_head. rewrite (rep_count _ _ _ _ Hr).
  destruct (AList.items a) as [|c cs] eqn:Ei.
  { simpl. do 2 eexists. split; [done|]. by exists ps. }
  destruct ps as [|p ps'] eqn:Eps; [done|]. rewrite <- Eps in *.
  assert (ps !! O = Some p) as Hp by by rewrite Eps.
  pose proof (lookup_lt_Some _ _ _ Hp) as Hpos.
  destruct (Z.ltb_spec 0 (Zlen (c :: cs))); [|zlen].
  rewrite (rep_first _ _ _ _ Hr), Hp.
  pose proof (chain_node _ _ _ Hch 0%nat _ c Hp eq_refl) as Hd. simpl in Hd.
  unfold deref at 1. rewrite Hd. cbn [mbind res_bind prev next content].
  destruct (unlink_heap_spec _ _ _ 0%nat _ c Hch Hp eq_refl) as (h' & Hu & Hrem).
  unfold unlink_heap in Hu. cbn [prev next prev_loc mbind res_bind] in Hu.
  destruct (match ps !! 1%nat with Some q => set_prev h q None | None => Ok h end) as [h1| |];
    [|done|done].
  cbn [mbind res_bind fst snd] in *. rewrite Hu. cbn [mbind res_bind]. do 2 eexists. split; [done|]. exists (delete 0%nat ps).
  destruct (cursor_removed _ _ _ _ _ _ Hr Hp) as (Hcur & Hb).
  unfold AList.remove_at in Hcur, Hb |- *. rewrite Ei in *.
  replace (delete 0%nat (c :: cs)) with (delete 0%nat (AList.items a)) by by rewrite Ei.
  apply (rep_removed h h' L); try done; [by rewrite first_delete| |].
  - rewrite last_delete by lia. cbn [last prev_loc]. rewrite (rep_last _ _ _ _ Hr), last_lookup_pred.
    destruct (ps !! 1%nat) as [q|] eqn:E1.
    + apply decide_False. intros E. pose proof (chain_inj _ _ _ _ _ _ Hch E Hp).
      apply lookup_lt_Some in E1. lia.
    + apply lookup_ge_None in E1. rewrite decide_True; [done|].
      replace (pred (length ps)) with 0%nat by lia. done.
  - simpl. by rewrite (rep_count _ _ _ _ Hr), Ei.
Qed.

Lemma delete_last {X} (l : list X) : delete (pred (length l)) l = take (pred (length l)) l.
Proof.
  apply list_eq. intros i. rewrite lookup_delete_at.
  destruct (Nat.ltb_spec i (pred (length l))).
  - by rewrite lookup_take_lt.
  - rewrite lookup_take_ge by lia. apply lookup_ge_None. lia.
Qed.

Lemma rep_pop_tail h L a :
  rep h L a ->
  exists h' L', ListPopTail h L = Ok (fst (AList.pop_tail a), h', L') /\
    rep h' L' (snd (AList.pop_tail a)).
Proof.
  intros [ps Hr]. pose proof (rep_chain _ _ _ _ Hr) as Hch.
  pose proof (chain_length _ _ _ Hch) as Hlen.
  unfold ListPopTail, AList.pop_tail. rewrite (rep_count _ _ _ _ Hr), last_lookup_pred.
  set (k := pred (length (AList.items a))).
  destruct (AList.items a !! k) as [c|] eqn:Hc.
  2:{ apply lookup_ge_None in Hc. subst k. destruct (AList.items a) eqn:Ei; [|simpl in Hc; lia].
      simpl. do 2 eexists. split; [done|]. by exists ps. }
  pose proof (lookup_lt_Some _ _ _ Hc) as Hk.
  destruct (Z.ltb_spec 0 (Zlen (AList.items a))); [|unfold Zlen in *; lia].
  rewrite (rep_last _ _ _ _ Hr), last_lookup_pred, Hlen. fold k.
  destruct (lookup_lt_is_Some_2 ps k) as [p Hp]; [lia|]. rewrite Hp.
  pose proof (chain_node _ _ _ Hch _ _ _ Hp Hc) as Hd.
  assert (ps !! S k = None) as Hnone by (apply lookup_ge_None; lia).
  unfold deref at 1. rewrite Hd. cbn [mbind res_bind prev next content].
  destruct (unlink_heap_spec _ _ _ _ _ _ Hch Hp Hc) as (h' & Hu & Hrem).
  unfold unlink_heap in Hu. rewrite Hnone in *. cbn [prev next] in Hu.
  destruct (match prev_loc ps k with Some q => set_next h q None | None => Ok h end) as [h1| |];
    [|done|done].
  cbn [mbind res_bind fst snd] in *. rewrite Hu. cbn [mbind res_bind].
  do 2 eexists. split; [done|]. exists (delete k ps).
  assert (take k (AList.items a) = delete k (AList.items a)) as -> by (symmetry; apply delete_last).
  pose proof (rep_wf _ _ _ _ Hr) as Hwf. unfold AList.wf in Hwf.
  apply (rep_removed h h' L); try done; [lia| | | | |]; simpl.
  - rewrite first_delete by lia. rewrite (rep_first _ _ _ _ Hr).
    destruct k as [|k'] eqn:Ek.
    + rewrite decide_True by done. simpl. done.
    + rewrite decide_False.
      2:{ intros E. pose proof (chain_inj _ _ _ _ _ _ Hch E Hp). lia. }
      simpl. destruct (lookup_lt_is_Some_2 ps k') as [? ->]; [lia|done].
  - rewrite last_delete by lia. by rewrite Hnone.
  - rewrite (rep_current _ _ _ _ Hr). destruct (AList.current a) as [j|]; [|by rewrite decide_False].
    cbn [mbind option_bind]. destruct (Nat.eqb_spec j k) as [->|Hne].
    + rewrite decide_True by done. destruct k as [|k']; [done|]. cbn [prev_loc mbind option_bind]. rewrite lookup_delete_at.
      by destruct (Nat.ltb_spec k' (S k')); [|lia].
    + rewrite decide_False.
      2:{ intros E. pose proof (chain_inj _ _ _ _ _ _ Hch E Hp). lia. }
      cbn [mbind option_bind]. rewrite lookup_delete_at.
      destruct (Nat.ltb_spec j k); [done|lia].
  - intros i. destruct (AList.current a) as [j|]; [|done].
    destruct (Nat.eqb_spec j k) as [->|Hne].
    + destruct k as [|k'] eqn:Ek; [done|]. intros [= <-]. lia.
    + intros [= <-]. lia.
  - by rewrite (rep_count _ _ _ _ Hr).
Qed.

Lemma empty_loop_spec ps cs h :
  length ps = length cs -> NoDup ps ->
  (forall i p c, ps !! i = Some p -> cs !! i = Some c ->
     exists pr, h !! p = Some (mkElement pr (ps !! S i) c)) ->
  (forall p, p ∉ ps -> h !! p = None) ->
  empty_loop (length ps) h (ps !! O) = Ok (cs, ∅).
Proof.
  revert cs h. induction ps as [|p ps IH]; intros cs h Hlen Hnd Hnode Hdom.
  - destruct cs; [|done]. simpl. f_equal. f_equal. apply map_eq. intros q.
    rewrite lookup_empty. apply Hdom. apply not_elem_of_nil.
  - destruct cs as [|c cs]; [done|]. apply NoDup_cons in Hnd as [Hp Hnd].
    destruct (Hnode 0%nat p c eq_refl eq_refl) as [pr Hd].
    cbn [length empty_loop lookup list_lookup]. unfold free_element, deref. rewrite Hd.
    cbn [mbind res_bind next content]. simpl (_ !! 1%nat). rewrite (IH cs); [done|..].
    + simpl in Hlen. lia.
    + done.
    + intros i q d Hq Hdq. destruct (Hnode (S i) q d Hq Hdq) as [pr' H'].
      exists pr'. rewrite lookup_delete_ne; [done|]. intros ->. apply Hp.
      by eapply list_elem_of_lookup_2.
    + intros q Hq. rewrite lookup_delete. case_decide as E; [done|]. apply Hdom.
      by apply not_elem_of_cons.
Qed.

Lemma rep_empty h L a :
  rep h L a ->
  exists h' L', ListEmpty h L = Ok (AList.items a, h', L') /\ rep h' L' AList.empty.
Proof.
  intros [ps Hr]. pose proof (rep_chain _ _ _ _ Hr) as Hch.
  unfold ListEmpty. rewrite (chain_size _ _ _ Hch), (rep_first _ _ _ _ Hr).
  rewrite (empty_loop_spec ps (AList.items a)); try apply Hch.
  - do 2 eexists. split; [done|]. apply rep_zero.
  - intros i p c Hp Hc. eexists. by apply (chain_node _ _ _ Hch).
Qed.

(** C32. The linked list implements sequences with a cursor: on a well-formed
    structure no operation touches a freed or foreign element, each ends in a
    well-formed structure, and appending, searching (the cached cursor is tried
    first), inserting before what was found, unlinking (the cursor steps to the next
    element when its own is removed), detaching the head, popping the tail and
    emptying do to the structure what the operations of [AList] do to the sequence. *)
Theorem list_operations_refine (h : heap) (L : LList) (a : AList.t C) :
  rep h L a ->
  (forall c sz, exists p h' L', ListAppend h L c sz = Ok (p, h', L') /\ rep h' L' (AList.append c a)) /\
  (forall callback c sz,
     match AList.find callback a with
     | (Some k, a1) => exists q L1 p h' L',
         ListFindItem h L callback = Ok (Some q, L1) /\ rep h L1 a1 /\
         ListInsert h L1 c sz (Some q) = Ok (p, h', L') /\ rep h' L' (AList.insert_before k c a1)
     | (None, a1) => exists L1, ListFindItem h L callback = Ok (None, L1) /\ rep h L1 a1
     end) /\
  (forall callback, exists h' L',
     ListUnlink h L callback = Ok (fst (AList.unlink callback a), h', L') /\
     rep h' L' (snd (AList.unlink callback a))) /\
  (exists h' L', ListDetachHead h L = Ok (fst (AList.detach_head a), h', L') /\
     rep h' L' (snd (AList.detach_head a))) /\
  (exists h' L', ListPopTail h L = Ok (fst (AList.pop_tail a), h', L') /\
     rep h' L' (snd (AList.pop_tail a))) /\
  (exists h' L', ListEmpty h L = Ok (AList.items a, h', L') /\ rep h' L' AList.empty).
Proof.
  intros Hr. split; [|split; [|split; [|split; [|split]]]].
  - intros c sz. by apply rep_append.
  - intros cb c sz. destruct Hr as [ps Hr]. destruct (rep_find _ _ _ _ cb Hr) as (L1 & Hf & Hr1).
    pose proof (AList.find_spec cb a) as Hs.
    destruct (AList.find cb a) as [[k|] a1]; simpl in *; [|by exists L1; split; [|exists ps]].
    destruct Hs as [Hh ->]. apply AList.holds_lookup in Hh as (x & Hx & _).
    apply lookup_lt_Some in Hx. pose proof (chain_length _ _ _ (rep_chain _ _ _ _ Hr)).
    destruct (lookup_lt_is_Some_2 ps k) as [q Hq]; [lia|]. rewrite Hq in Hf.
    destruct (rep_insert _ _ _ _ c sz _ _ Hr1 Hq) as (p & h' & L' & Hi & Hr').
    exists q, L1, p, h', L'. split; [done|]. split; [by exists ps|]. done.
  - intros cb. by apply rep_unlink.
  - by apply rep_detach_head.
  - by apply rep_pop_tail.
  - by apply rep_empty.
Qed.

End Impl.

Lemma list_operations_refine_witness :
  rep ∅ ListZero (@AList.empty Z) /\
  exists p h' L', ListAppend ∅ ListZero 5 4 = Ok (p, h', L') /\ rep h' L' (AList.append 5 AList.empty).
Proof.
  split; [exact rep_zero|]. apply (list_operations_refine ∅ ListZero AList.empty rep_zero).
Defined.

(** [intcompare] and [stringcompare], on what the pointers designate. *)
Definition intcompare (a b : Z) : bool := a =? b.
Definition stringcompare (a b : list Z) : bool := bool_decide (a = b).

End LinkedList.
