(* ===== verification/Clients.v ===== *)
(** * The data of a client ([src/src/Clients.h], [Clients.c], [MQTTPacket.h])

    Packet headers, the packets, stored publications, in-flight messages and the
    client record the protocol components share. *)

From S2P Require Import Prelude.
From S2P Require Import Wire.
From S2P Require Import Properties.
From S2P Require Import LinkedList.
From Stdlib Require Import ZArith Lia List.
From stdpp Require Import base numbers list gmap.

Open Scope Z_scope.

Module Clients.
Import Properties.

(** ** Constants *)

Definition TCPSOCKET_COMPLETE : Z := 0.
Definition SOCKET_ERROR : Z := -1.
Definition TCPSOCKET_INTERRUPTED : Z := -22.
Definition MQTTCLIENT_PERSISTENCE_ERROR : Z := -2.
Definition MAX_MSG_ID : Z := 65535.
Definition MQTTVERSION_3_1 : Z := 3.
Definition MQTTVERSION_3_1_1 : Z := 4.
Definition MQTTVERSION_5 : Z := 5.

(** [enum msgTypes]. *)
Definition CONNECT := 1.
Definition CONNACK := 2.
Definition PUBLISH := 3.
Definition PUBACK := 4.
Definition PUBREC := 5.
Definition PUBREL := 6.
Definition PUBCOMP := 7.
Definition SUBSCRIBE := 8.
Definition SUBACK := 9.
Definition UNSUBSCRIBE := 10.
Definition UNSUBACK := 11.
Definition PINGREQ := 12.
Definition PINGRESP := 13.
Definition DISCONNECT := 14.
Definition AUTH := 15.

(** ** The header byte (the [Header] union): its bit fields *)

Definition hdr_retain (byte : Z) : Z := Z.land byte 1.
Definition hdr_qos (byte : Z) : Z := Z.land (Z.shiftr byte 1) 3.
Definition hdr_dup (byte : Z) : Z := Z.land (Z.shiftr byte 3) 1.
Definition hdr_type (byte : Z) : Z := Z.land (Z.shiftr byte 4) 15.

(** A header whose four bit fields are assigned. *)
Definition mk_header (type dup qos retain : Z) : Z :=
  Z.lor (Z.land retain 1)
    (Z.lor (Z.shiftl (Z.land qos 3) 1)
       (Z.lor (Z.shiftl (Z.land dup 1) 3) (Z.shiftl (Z.land type 15) 4))).

(** ** Packets *)

(** [topic] and [payload] are null once they have been moved elsewhere. *)
Record Publish := mkPublish {
  pub_header : Z;
  pub_topic : option (list Z);
  pub_topiclen : Z;
  pub_msgId : Z;
  pub_payload : option (list Z);
  pub_payloadlen : Z;
  pub_MQTTVersion : Z;
  pub_properties : MQTTProperties;
  pub_mask : list Z
}.

(** Members that are not assigned on every path are [None] when they are not:
    reading one is reading indeterminate memory. *)
Record Ack := mkAck {
  ack_header : Z;
  ack_msgId : option Z;
  ack_rc : option Z;
  ack_MQTTVersion : Z;
  ack_properties : option MQTTProperties
}.

Record Connack := mkConnack {
  cka_header : Z;
  cka_flags : Z;
  cka_rc : Z;
  cka_MQTTVersion : Z;
  cka_properties : option MQTTProperties
}.

Record Suback := mkSuback {
  sub_header : Z;
  sub_msgId : Z;
  sub_MQTTVersion : Z;
  sub_properties : option MQTTProperties;
  sub_qoss : list Z
}.

(** [reasonCodes] is null before MQTT 5. *)
Record Unsuback := mkUnsuback {
  uns_header : Z;
  uns_msgId : Z;
  uns_MQTTVersion : Z;
  uns_properties : option MQTTProperties;
  uns_reasonCodes : option (list Z)
}.

(** ** Clients *)

Record Publications := mkPublications {
  pbs_topic : option (list Z);
  pbs_topiclen : Z;
  pbs_payload : option (list Z);
  pbs_payloadlen : Z;
  pbs_refcount : Z;
  pbs_mask : list Z
}.

(** [publish] points into the store of publications.  [nextMessageType] is only
    set where the code sets it. *)
Record Messages := mkMessages {
  m_qos : Z;
  m_retain : Z;
  m_msgid : Z;
  m_MQTTVersion : Z;
  m_properties : MQTTProperties;
  m_publish : option positive;
  m_lastTouch : Z;
  m_nextMessageType : option Z
}.

Record willMessages := mkWill {
  will_topic : list Z;
  will_payload : list Z;
  will_retained : Z;
  will_qos : Z
}.

(** The message handed to the application, and its place in the queue. *)
Record qEntry := mkqEntry {
  q_payload : list Z;
  q_qos : Z;
  q_retained : Z;
  q_dup : Z;
  q_msgid : Z;
  q_properties : MQTTProperties;
  q_topicName : list Z;
  q_topicLen : Z;
  q_seqno : Z
}.

(** [networkHandles]: the socket and the time stamps. *)
Record networkHandles := mkNet {
  net_socket : Z;
  net_lastSent : Z;
  net_lastReceived : Z;
  net_lastPing : Z
}.

(** The fields of [Clients] the modelled functions use.  [persistence] says
    whether a persistence implementation is set. *)
Record Clients := mkClients {
  clientID : list Z;
  username : option (list Z);
  password : option (list Z);
  cleansession : Z;
  cleanstart : Z;
  connected : Z;
  good : Z;
  ping_outstanding : Z;
  net : networkHandles;
  msgID : Z;
  keepAliveInterval : Z;
  retryInterval : Z;
  will : option willMessages;
  inboundMsgs : AList.t Messages;
  outboundMsgs : AList.t Messages;
  messageQueue : AList.t qEntry;
  qentry_seqno : Z;
  persistence : bool;
  MQTTVersion : Z;
  connect_state : Z;
  maxInflightMessages : Z;
  sessionExpiry : Z;
  socks5State : Z
}.

#[export] Instance Publish_eq_dec : EqDecision Publish.
Proof. solve_decision. Defined.
#[export] Instance Ack_eq_dec : EqDecision Ack.
Proof. solve_decision. Defined.
#[export] Instance Messages_eq_dec : EqDecision Messages.
Proof. solve_decision. Defined.

(** Updates of single fields. *)
Definition set_inbound (c : Clients) (l : AList.t Messages) : Clients :=
  mkClients (clientID c) (username c) (password c) (cleansession c) (cleanstart c)
    (connected c) (good c) (ping_outstanding c) (net c) (msgID c)
    (keepAliveInterval c) (retryInterval c) (will c) l (outboundMsgs c)
    (messageQueue c) (qentry_seqno c) (persistence c) (MQTTVersion c)
    (connect_state c) (maxInflightMessages c) (sessionExpiry c) (socks5State c).
Definition set_outbound (c : Clients) (l : AList.t Messages) : Clients :=
  mkClients (clientID c) (username c) (password c) (cleansession c) (cleanstart c)
    (connected c) (good c) (ping_outstanding c) (net c) (msgID c)
    (keepAliveInterval c) (retryInterval c) (will c) (inboundMsgs c) l
    (messageQueue c) (qentry_seqno c) (persistence c) (MQTTVersion c)
    (connect_state c) (maxInflightMessages c) (sessionExpiry c) (socks5State c).
Definition set_queue (c : Clients) (l : AList.t qEntry) (seqno : Z) : Clients :=
  mkClients (clientID c) (username c) (password c) (cleansession c) (cleanstart c)
    (connected c) (good c) (ping_outstanding c) (net c) (msgID c)
    (keepAliveInterval c) (retryInterval c) (will c) (inboundMsgs c)
    (outboundMsgs c) l seqno (persistence c) (MQTTVersion c) (connect_state c)
    (maxInflightMessages c) (sessionExpiry c) (socks5State c).
Definition set_msgID (c : Clients) (id : Z) : Clients :=
  mkClients (clientID c) (username c) (password c) (cleansession c) (cleanstart c)
    (connected c) (good c) (ping_outstanding c) (net c) id (keepAliveInterval c)
    (retryInterval c) (will c) (inboundMsgs c) (outboundMsgs c) (messageQueue c)
    (qentry_seqno c) (persistence c) (MQTTVersion c) (connect_state c)
    (maxInflightMessages c) (sessionExpiry c) (socks5State c).
Definition set_net (c : Clients) (n : networkHandles) : Clients :=
  mkClients (clientID c) (username c) (password c) (cleansession c) (cleanstart c)
    (connected c) (good c) (ping_outstanding c) n (msgID c) (keepAliveInterval c)
    (retryInterval c) (will c) (inboundMsgs c) (outboundMsgs c) (messageQueue c)
    (qentry_seqno c) (persistence c) (MQTTVersion c) (connect_state c)
    (maxInflightMessages c) (sessionExpiry c) (socks5State c).
Definition set_flags (c : Clients) (conn : Z) (gd : Z) (ping : Z) : Clients :=
  mkClients (clientID c) (username c) (password c) (cleansession c) (cleanstart c) conn gd
    ping (net c) (msgID c) (keepAliveInterval c) (retryInterval c) (will c)
    (inboundMsgs c) (outboundMsgs c) (messageQueue c) (qentry_seqno c)
    (persistence c) (MQTTVersion c) (connect_state c) (maxInflightMessages c)
    (sessionExpiry c) (socks5State c).
Definition set_connect_state (c : Clients) (s : Z) : Clients :=
  mkClients (clientID c) (username c) (password c) (cleansession c) (cleanstart c)
    (connected c) (good c) (ping_outstanding c) (net c) (msgID c)
    (keepAliveInterval c) (retryInterval c) (will c) (inboundMsgs c)
    (outboundMsgs c) (messageQueue c) (qentry_seqno c) (persistence c)
    (MQTTVersion c) s (maxInflightMessages c) (sessionExpiry c) (socks5State c).
Definition set_socks5State (c : Clients) (s : Z) : Clients :=
  mkClients (clientID c) (username c) (password c) (cleansession c) (cleanstart c)
    (connected c) (good c) (ping_outstanding c) (net c) (msgID c)
    (keepAliveInterval c) (retryInterval c) (will c) (inboundMsgs c)
    (outboundMsgs c) (messageQueue c) (qentry_seqno c) (persistence c)
    (MQTTVersion c) (connect_state c) (maxInflightMessages c) (sessionExpiry c) s.

Definition set_window (c : Clients) (n : Z) : Clients :=
  mkClients (clientID c) (username c) (password c) (cleansession c) (cleanstart c)
    (connected c) (good c) (ping_outstanding c) (net c) (msgID c)
    (keepAliveInterval c) (retryInterval c) (will c) (inboundMsgs c)
    (outboundMsgs c) (messageQueue c) (qentry_seqno c) (persistence c)
    (MQTTVersion c) (connect_state c) n (sessionExpiry c) (socks5State c).
Definition set_will (c : Clients) (w : option willMessages) : Clients :=
  mkClients (clientID c) (username c) (password c) (cleansession c) (cleanstart c)
    (connected c) (good c) (ping_outstanding c) (net c) (msgID c)
    (keepAliveInterval c) (retryInterval c) w (inboundMsgs c) (outboundMsgs c)
    (messageQueue c) (qentry_seqno c) (persistence c) (MQTTVersion c) (connect_state c)
    (maxInflightMessages c) (sessionExpiry c) (socks5State c).

(** [pahomqtt_set_socks5_state], [pahomqtt_get_socks5_state], under the mutex. *)
Definition pahomqtt_set_socks5_state (aClient : Clients) (state : Z) : Z * Clients :=
  (0, set_socks5State aClient state).
Definition pahomqtt_get_socks5_state (aClient : Clients) : Z := socks5State aClient.

(** [clientIDCompare], [clientSocketCompare]. *)
Definition clientIDCompare (client : Clients) (b : list Z) : bool :=
  bool_decide (clientID client = b).
Definition clientSocketCompare (client : Clients) (sock : Z) : bool :=
  net_socket (net client) =? sock.

(** ** The header byte *)

(** The fields of a header built from in-range values are those values. *)
Lemma mk_header_fields type dup qos retain :
  0 <= type < 16 -> 0 <= dup < 2 -> 0 <= qos < 4 -> 0 <= retain < 2 ->
  let h := mk_header type dup qos retain in
  byte_ok h /\ hdr_type h = type /\ hdr_dup h = dup /\ hdr_qos h = qos /\ hdr_retain h = retain.
Proof.
  intros Ht Hd Hq Hr.
  assert (forallb (fun t => forallb (fun d => forallb (fun q => forallb (fun r =>
    let h := mk_header t d q r in
    (0 <=? h) && (h <? 256) && (hdr_type h =? t) && (hdr_dup h =? d) && (hdr_qos h =? q)
    && (hdr_retain h =? r)) (seqZ 0 2)) (seqZ 0 4)) (seqZ 0 2)) (seqZ 0 16) = true) as H
    by (vm_compute; reflexivity).
  assert (forall n x, 0 <= x < n -> In x (seqZ 0 n)) as Hin.
  { intros n x Hx. apply list_elem_of_In, elem_of_seqZ. lia. }
  rewrite forallb_forall in H. specialize (H type (Hin _ _ Ht)). cbv beta in H.
  rewrite forallb_forall in H. specialize (H dup (Hin _ _ Hd)). cbv beta in H.
  rewrite forallb_forall in H. specialize (H qos (Hin _ _ Hq)). cbv beta in H.
  rewrite forallb_forall in H. specialize (H retain (Hin _ _ Hr)). cbv beta zeta in H.
  unfold byte_ok. lia.
Qed.

(** The fields of a header of any values, as assignments truncate them. *)
Lemma mk_header_truncated type dup qos retain :
  0 <= type < 16 -> 0 <= qos < 4 ->
  hdr_type (mk_header type dup qos retain) = type /\ hdr_qos (mk_header type dup qos retain) = qos.
Proof.
  intros Ht Hq.
  assert (forall z, 0 <= Z.land z 1 < 2) as H1
    by (intros z; change 1 with (Z.ones 1) at 1; change 1 with (Z.ones 1) at 2;
        rewrite Z.land_ones by done; change (2 ^ 1) with 2; dlia).
  assert (mk_header type dup qos retain = mk_header type (Z.land dup 1) qos (Z.land retain 1)) as ->
    by (unfold mk_header; by rewrite <- !Z.land_assoc).
  destruct (mk_header_fields type (Z.land dup 1) qos (Z.land retain 1)) as (_ & ? & _ & ? & _); auto.
Qed.

Lemma hdr_qos_range b : 0 <= hdr_qos b < 4.
Proof.
  unfold hdr_qos. change 3 with (Z.ones 2). rewrite Z.land_ones by done. change (2 ^ 2) with 4. dlia.
Qed.

Lemma hdr_retain_range b : 0 <= hdr_retain b < 2.
Proof.
  unfold hdr_retain. change 1 with (Z.ones 1). rewrite Z.land_ones by done. change (2 ^ 1) with 2. dlia.
Qed.

End Clients.
