(* ===== verification/Packet.v ===== *)
(** * Packets ([src/src/MQTTPacket.c], [MQTTPacketOut.c])

    The functions of the [new_packets] table, which build a packet structure from
    the bytes received, and the bytes the [MQTTPacket_send_...] functions hand to
    [MQTTPacket_send].  [malloc] succeeds; an access outside the data received, or
    outside the block allocated for a packet, is [Oob]. *)

From S2P Require Import Prelude.
From S2P Require Import Wire.
From S2P Require Import Properties.
From S2P Require Import LinkedList.
From S2P Require Import Clients.
From Stdlib Require Import ZArith Lia List String.
From stdpp Require Import base numbers list.

Open Scope Z_scope.

Module Packet.
Import Wire Properties Clients.

(** ** Packets received *)

(** [MQTTPacket_publish]: the payload is what is left of the data. *)
Definition MQTTPacket_publish (MQTTVersion aHeader : Z) (data : list Z) : res Publish :=
  '(topic, topiclen, curdata) ← readUTFlen data;
  '(msgId, curdata) ← (if 0 <? hdr_qos aHeader then readInt curdata else Ok (0, curdata));
  '(props, curdata) ← (if MQTTVERSION_5 <=? MQTTVersion
                       then MQTTProperties_read MQTTProperties_initializer curdata
                       else Ok (MQTTProperties_initializer, curdata));
  Ok {| pub_header := aHeader; pub_topic := Some topic; pub_topiclen := topiclen;
        pub_msgId := msgId; pub_payload := Some curdata; pub_payloadlen := to_i32 (Zlen curdata);
        pub_MQTTVersion := MQTTVersion; pub_properties := props; pub_mask := [0; 0; 0; 0] |}.

Definition MQTTREASONCODE_SUCCESS : Z := 0.

(** [MQTTPacket_ack]: PUBACK, PUBREC, PUBREL, PUBCOMP, and DISCONNECT and AUTH. *)
Definition MQTTPacket_ack (MQTTVersion aHeader : Z) (data : list Z) : res Ack :=
  '(msgId, curdata) ← (if hdr_type aHeader =? DISCONNECT then Ok (None, data)
                       else '(n, l) ← readInt data; Ok (Some n, l));
  if MQTTVERSION_5 <=? MQTTVersion then
    '(rc, curdata) ← (if 2 <? Zlen data then readChar curdata
                      else Ok (MQTTREASONCODE_SUCCESS, curdata));
    '(props, _) ← (if 3 <? Zlen data then MQTTProperties_read MQTTProperties_initializer curdata
                   else Ok (MQTTProperties_initializer, curdata));
    Ok (mkAck aHeader msgId (Some rc) MQTTVersion (Some props))
  else Ok (mkAck aHeader msgId None MQTTVersion None).

(** [MQTTPacket_connack]: an MQTT 5 packet of two bytes has no properties, and the
    member is left as [malloc] gave it. *)
Definition MQTTPacket_connack (MQTTVersion aHeader : Z) (data : list Z) : res Connack :=
  '(flags, curdata) ← readChar data;
  '(rc, curdata) ← readChar curdata;
  if MQTTVersion <? MQTTVERSION_5 then
    if negb (Zlen data =? 2) then Fail
    else Ok (mkConnack aHeader flags rc MQTTVersion None)
  else if 2 <? Zlen data then
    '(props, _) ← MQTTProperties_read MQTTProperties_initializer curdata;
    Ok (mkConnack aHeader flags rc MQTTVersion (Some props))
  else Ok (mkConnack aHeader flags rc MQTTVersion None).

(** [MQTTPacket_suback]: every byte left is a code.  With none, the packet is freed
    and its list of codes then read: [Oob]. *)
Definition MQTTPacket_suback (MQTTVersion aHeader : Z) (data : list Z) : res Suback :=
  '(msgId, curdata) ← readInt data;
  '(props, curdata) ← (if MQTTVERSION_5 <=? MQTTVersion then
                         '(p, l) ← MQTTProperties_read MQTTProperties_initializer curdata; Ok (Some p, l)
                       else Ok (None, curdata));
  if Zlen curdata =? 0 then Oob
  else Ok (mkSuback aHeader msgId MQTTVersion props curdata).

Definition MQTTPacket_unsuback (MQTTVersion aHeader : Z) (data : list Z) : res Unsuback :=
  '(msgId, curdata) ← readInt data;
  if MQTTVERSION_5 <=? MQTTVersion then
    '(props, curdata) ← MQTTProperties_read MQTTProperties_initializer curdata;
    if Zlen curdata =? 0 then Fail
    else Ok (mkUnsuback aHeader msgId MQTTVersion (Some props) (Some curdata))
  else Ok (mkUnsuback aHeader msgId MQTTVersion None None).

(** [MQTTPacket_header_only] *)
Definition MQTTPacket_header_only (MQTTVersion aHeader : Z) (data : list Z) : res Z := Ok aHeader.

(** What a function of the table returns. *)
Inductive packet :=
| Pconnack (p : Connack)
| Ppublish (p : Publish)
| Pack (p : Ack)
| Psuback (p : Suback)
| Punsuback (p : Unsuback)
| Pheader (h : Z).

(** The table; [None] is a null entry, and types are nibbles. *)
Definition new_packets (ptype : Z) : option (Z -> Z -> list Z -> res packet) :=
  if ptype =? CONNACK then Some (fun v h d => Pconnack <$> MQTTPacket_connack v h d)
  else if ptype =? PUBLISH then Some (fun v h d => Ppublish <$> MQTTPacket_publish v h d)
  else if (ptype =? PUBACK) || (ptype =? PUBREC) || (ptype =? PUBREL) || (ptype =? PUBCOMP)
          || (ptype =? DISCONNECT) || (ptype =? AUTH)
       then Some (fun v h d => Pack <$> MQTTPacket_ack v h d)
  else if ptype =? SUBACK then Some (fun v h d => Psuback <$> MQTTPacket_suback v h d)
  else if ptype =? UNSUBACK then Some (fun v h d => Punsuback <$> MQTTPacket_unsuback v h d)
  else if (ptype =? PINGREQ) || (ptype =? PINGRESP)
       then Some (fun v h d => Pheader <$> MQTTPacket_header_only v h d)
  else None.

(** The choice [MQTTPacket_Factory] makes between logging an unexpected type and
    calling the function of the table; [None] is the former. *)
Definition factory_entry (MQTTVersion ptype : Z) : option (Z -> Z -> list Z -> res packet) :=
  if (ptype <? CONNECT) || ((MQTTVersion <? MQTTVERSION_5) && (DISCONNECT <=? ptype))
     || ((MQTTVERSION_5 <=? MQTTVersion) && (AUTH <? ptype))
  then None
  else new_packets ptype.

(** [MQTTPacket_name] *)
Definition packet_names : list string :=
  ["RESERVED"; "CONNECT"; "CONNACK"; "PUBLISH"; "PUBACK"; "PUBREC"; "PUBREL";
   "PUBCOMP"; "SUBSCRIBE"; "SUBACK"; "UNSUBSCRIBE"; "UNSUBACK";
   "PINGREQ"; "PINGRESP"; "DISCONNECT"; "AUTH"]%string.
Definition MQTTPacket_name (ptype : Z) : string :=
  if (0 <=? ptype) && (ptype <=? AUTH) then nth (Z.to_nat ptype) packet_names ""%string
  else "UNKNOWN"%string.

(** ** Packets sent *)

(** [malloc(len)], and [out] written from its start: writing past the block is
    [Oob], and so is sending a byte of it that was not written or a length that
    does not fit an [int]. *)
Definition alloc_write (len : Z) (out : list Z) : res (list Z) :=
  if (2147483647 <? len) || negb (Zlen out =? len) then Oob else Ok out.

(** A header whose other bits are zero. *)
Definition header_of (type : Z) : Z := mk_header type 0 0 0.

(** [MQTTPacket_send_disconnect]: the header and the rest of the packet. *)
Definition disconnect_packet (MQTTVersion reason : Z) (props : option MQTTProperties)
    : res (Z * list Z) :=
  if (5 <=? MQTTVersion) && (bool_decide (props ≠ None) || negb (reason =? MQTTREASONCODE_SUCCESS))
  then
    let buflen := 1 + match props with None => 0 | Some _ => MQTTProperties_len props end in
    '(out, _) ← match props with None => Ok ([], 0) | Some _ => MQTTProperties_write props end;
    buf ← alloc_write buflen (writeChar reason ++ out);
    Ok (header_of DISCONNECT, buf)
  else Ok (header_of DISCONNECT, []).

(** [MQTTPacket_send_pingreq] *)
Definition pingreq_packet : Z * list Z := (header_of PINGREQ, []).

(** [MQTTPacket_send_ack] and its callers. *)
Definition ack_packet (type msgid dup : Z) : Z * list Z :=
  (mk_header type dup (if type =? PUBREL then 1 else 0) 0, writeInt msgid).
Definition puback_packet (msgid : Z) := ack_packet PUBACK msgid 0.
Definition pubrec_packet (msgid : Z) := ack_packet PUBREC msgid 0.
Definition pubrel_packet (msgid dup : Z) := ack_packet PUBREL msgid dup.
Definition pubcomp_packet (msgid : Z) := ack_packet PUBCOMP msgid 0.

(** [MQTTPacket_send_publish]: the header and the buffers, in the order they are
    sent.  The topic and the payload are sent from where they are; a null payload
    has no bytes. *)
Definition publish_buffers (pack : Publish) (dup qos retained : Z) : res (Z * list (list Z)) :=
  match pub_topic pack, default [] (pub_payload pack) with
  | Some topic, payload =>
      if negb (Zlen payload =? pub_payloadlen pack) then Oob else
      let header := mk_header PUBLISH dup qos retained in
      let topiclen := writeInt (strlen topic) in
      if (0 <? qos) || (5 <=? pub_MQTTVersion pack) then
        let buflen := (if 0 <? qos then 2 else 0)
                      + (if 5 <=? pub_MQTTVersion pack then MQTTProperties_len (Some (pub_properties pack)) else 0) in
        '(props, _) ← (if 5 <=? pub_MQTTVersion pack then MQTTProperties_write (Some (pub_properties pack))
                       else Ok ([], 0));
        buf ← alloc_write buflen ((if 0 <? qos then writeInt (pub_msgId pack) else []) ++ props);
        Ok (header, [topiclen; cstr topic; buf; payload])
      else Ok (header, [topiclen; cstr topic; payload])
  | None, _ => Oob
  end.

(** The flags byte of a CONNECT packet from its bit fields. *)
Definition connect_flags (cleanstart will willQoS willRetain password username : Z) : Z :=
  Z.lor (Z.shiftl (Z.land cleanstart 1) 1)
    (Z.lor (Z.shiftl (Z.land will 1) 2)
       (Z.lor (Z.shiftl (Z.land willQoS 3) 3)
          (Z.lor (Z.shiftl (Z.land willRetain 1) 5)
             (Z.lor (Z.shiftl (Z.land password 1) 6) (Z.shiftl (Z.land username 1) 7))))).

Definition flag {A} (o : option A) : Z := match o with Some _ => 1 | None => 0 end.

(** [MQTTPacket_send_connect]; an unknown version is [SOCKET_ERROR]. *)
Definition connect_packet (client : Clients) (MQTTVersion : Z)
    (connectProperties willProperties : option MQTTProperties) : res (Z * list Z) :=
  let len := (if MQTTVersion =? MQTTVERSION_3_1 then 12 else 10) + strlen (clientID client) + 2 in
  let len := len + match will client with
                   | Some w => strlen (will_topic w) + 2 + Zlen (will_payload w) + 2
                   | None => 0 end in
  let len := len + match username client with Some u => strlen u + 2 | None => 0 end in
  let len := len + match password client with Some p => Zlen p + 2 | None => 0 end in
  let len := len + (if MQTTVERSION_5 <=? MQTTVersion then
                      MQTTProperties_len connectProperties
                      + match will client with Some _ => MQTTProperties_len willProperties | None => 0 end
                    else 0) in
  proto ← (if MQTTVersion =? MQTTVERSION_3_1 then
             Ok (writeUTF [77; 81; 73; 115; 100; 112] ++ writeChar MQTTVERSION_3_1)
           else if (MQTTVersion =? MQTTVERSION_3_1_1) || (MQTTVersion =? MQTTVERSION_5) then
             Ok (writeUTF [77; 81; 84; 84] ++ writeChar MQTTVersion)
           else Fail);
  let flags := connect_flags
    (if MQTTVERSION_5 <=? MQTTVersion then cleanstart client else cleansession client)
    (flag (will client))
    (match will client with Some w => will_qos w | None => 0 end)
    (match will client with Some w => will_retained w | None => 0 end)
    (flag (password client)) (flag (username client)) in
  '(cprops, _) ← (if MQTTVERSION_5 <=? MQTTVersion then MQTTProperties_write connectProperties
                  else Ok ([], 0));
  wbytes ← match will client with
           | None => Ok []
           | Some w =>
               '(wprops, _) ← (if MQTTVERSION_5 <=? MQTTVersion then MQTTProperties_write willProperties
                               else Ok ([], 0));
               Ok (wprops ++ writeUTF (will_topic w) ++ writeData (will_payload w))
           end;
  buf ← alloc_write len
    (proto ++ writeChar flags ++ writeInt (keepAliveInterval client) ++ cprops
     ++ writeUTF (clientID client) ++ wbytes
     ++ match username client with Some u => writeUTF u | None => [] end
     ++ match password client with Some p => writeData p | None => [] end);
  Ok (header_of CONNECT, buf).

(** [MQTTSubscribe_options]: the members the wire carries. *)
Record MQTTSubscribe_options := mkSubOpts {
  noLocal : Z;
  retainAsPublished : Z;
  retainHandling : Z
}.

(** The options byte: the QoS, as a [char], with the options of MQTT 5. *)
Definition subopts (MQTTVersion qos : Z) (opt : option MQTTSubscribe_options) : Z :=
  match opt with
  | Some o =>
      if MQTTVERSION_5 <=? MQTTVersion then
        to_byte (Z.lor (Z.lor (Z.lor qos (Z.shiftl (noLocal o) 2))
                          (Z.shiftl (retainAsPublished o) 3))
                   (Z.shiftl (retainHandling o) 4))
      else to_byte qos
  | None => to_byte qos
  end.

(** The loop over the topics; a list of QoSs or an array of options that is
    shorter is read out of bounds. *)
Fixpoint subscribe_loop (MQTTVersion : Z) (topics : list (list Z)) (qoss : list Z)
    (opts : option (list MQTTSubscribe_options)) : res (list Z) :=
  match topics with
  | [] => Ok []
  | topic :: topics' =>
      match qoss with
      | [] => Oob
      | qos :: qoss' =>
          '(o, opts') ← match opts with
                        | None => Ok (None, None)
                        | Some (o :: os) => Ok (Some o, Some os)
                        | Some [] => if MQTTVERSION_5 <=? MQTTVersion then Oob else Ok (None, Some [])
                        end;
          rest ← subscribe_loop MQTTVersion topics' qoss' opts';
          Ok (writeUTF topic ++ writeChar (subopts MQTTVersion qos o) ++ rest)
      end
  end.

Definition topics_len (topics : list (list Z)) : Z := foldr (fun t n => strlen t + n) 0 topics.

(** [MQTTPacket_send_subscribe] *)
Definition subscribe_packet (topics : list (list Z)) (qoss : list Z)
    (opts : option (list MQTTSubscribe_options)) (props : option MQTTProperties)
    (msgid dup MQTTVersion : Z) : res (Z * list Z) :=
  let datalen := 2 + Zlen topics * 3 + topics_len topics
                 + (if MQTTVERSION_5 <=? MQTTVersion then MQTTProperties_len props else 0) in
  '(p, _) ← (if MQTTVERSION_5 <=? MQTTVersion then MQTTProperties_write props else Ok ([], 0));
  body ← subscribe_loop MQTTVersion topics qoss opts;
  data ← alloc_write datalen (writeInt msgid ++ p ++ body);
  Ok (mk_header SUBSCRIBE dup 1 0, data).

(** [MQTTPacket_send_unsubscribe] *)
Definition unsubscribe_packet (topics : list (list Z)) (props : option MQTTProperties)
    (msgid dup MQTTVersion : Z) : res (Z * list Z) :=
  let datalen := 2 + Zlen topics * 2 + topics_len topics
                 + (if MQTTVERSION_5 <=? MQTTVersion then MQTTProperties_len props else 0) in
  '(p, _) ← (if MQTTVERSION_5 <=? MQTTVersion then MQTTProperties_write props else Ok ([], 0));
  data ← alloc_write datalen (writeInt msgid ++ p ++ concat (map writeUTF topics));
  Ok (mk_header UNSUBSCRIBE dup 1 0, data).

(** ** Freeing: an indeterminate property list is [Oob] *)

Definition free_properties (MQTTVersion : Z) (props : option MQTTProperties) : res () :=
  if MQTTVERSION_5 <=? MQTTVersion then
    match props with Some p => let _ := MQTTProperties_free (Some p) in Ok () | None => Oob end
  else Ok ().
Definition MQTTPacket_freePublish (pack : Publish) : res () :=
  free_properties (pub_MQTTVersion pack) (Some (pub_properties pack)).
Definition MQTTPacket_freeAck (pack : Ack) : res () :=
  free_properties (ack_MQTTVersion pack) (ack_properties pack).
Definition MQTTPacket_freeSuback (pack : Suback) : res () :=
  free_properties (sub_MQTTVersion pack) (sub_properties pack).
Definition MQTTPacket_freeUnsuback (pack : Unsuback) : res () :=
  free_properties (uns_MQTTVersion pack) (uns_properties pack).
Definition MQTTPacket_freeConnack (pack : Connack) : res () :=
  free_properties (cka_MQTTVersion pack) (cka_properties pack).

(** [MQTTPacket_free_packet]: only a PUBLISH has its members freed. *)
Definition MQTTPacket_free_packet (p : packet) : res () :=
  match p with Ppublish q => MQTTPacket_freePublish q | _ => Ok () end.

(** ** What a server reads in a CONNECT, SUBSCRIBE or UNSUBSCRIBE packet

    Reference decoders written from the layout the MQTT standard gives, with the
    readers of the library. *)

(** The will of a client. *)
Record will_info := mkWillInfo {
  wi_retain : bool;
  wi_qos : Z;
  wi_properties : list MQTTProperty;
  wi_topic : list Z;
  wi_payload : list Z
}.

Record connect_info := mkInfo {
  ci_name : list Z;
  ci_version : Z;
  ci_clean : bool;
  ci_keepalive : Z;
  ci_properties : list MQTTProperty;
  ci_clientid : list Z;
  ci_will : option will_info;
  ci_username : option (list Z);
  ci_password : option (list Z)
}.

Definition decode_properties (version : Z) (l : list Z) : res (list MQTTProperty * list Z) :=
  if MQTTVERSION_5 <=? version then
    '(p, l) ← MQTTProperties_read MQTTProperties_initializer l; Ok (entries p, l)
  else Ok ([], l).

Definition decode_if {A} (b : bool) (f : list Z -> res (A * list Z)) (l : list Z)
    : res (option A * list Z) :=
  if b then '(x, l) ← f l; Ok (Some x, l) else Ok (None, l).

Definition decode_will (v : Z) (retain : bool) (qos : Z) (l : list Z) : res (will_info * list Z) :=
  '(p, l) ← decode_properties v l;
  '(t, l) ← readUTF l;
  '(m, l) ← readUTF l;
  Ok (mkWillInfo retain qos p t m, l).

(** The flags of a CONNECT packet: from bit 0, reserved, clean start (clean session), will,
    two bits of will QoS, will retain, password, user name.  The reserved bit is zero, so
    are the QoS and the retain bit when there is no will, and the QoS is not 3. *)
Definition flags_malformed (fl : Z) : bool :=
  Z.testbit fl 0 || (fl / 8 mod 4 =? 3) || (negb (Z.testbit fl 2) && negb (fl / 8 mod 8 =? 0)).

Definition decode_connect (l : list Z) : res (connect_info * list Z) :=
  '(name, l) ← readUTF l;
  '(v, l) ← readChar l;
  '(fl, l) ← readChar l;
  if flags_malformed fl then Fail
  else
    '(ka, l) ← readInt l;
    '(props, l) ← decode_properties v l;
    '(cid, l) ← readUTF l;
    '(w, l) ← decode_if (Z.testbit fl 2) (decode_will v (Z.testbit fl 5) (fl / 8 mod 4)) l;
    '(u, l) ← decode_if (Z.testbit fl 7) readUTF l;
    '(pw, l) ← decode_if (Z.testbit fl 6) readUTF l;
    Ok (mkInfo name v (Z.testbit fl 1) ka props cid w u pw, l).

(** What is asked for with a topic.  The byte of options has, from bit 0, two bits of QoS,
    No Local, Retain As Published, two bits of Retain Handling, and two that are zero. *)
Record requested := mkRequested { rq_qos : Z; rq_noLocal : bool; rq_asPublished : bool; rq_handling : Z }.

Definition decode_options (o : Z) : res requested :=
  if negb (o / 64 =? 0) || (o mod 4 =? 3) || (o / 16 mod 4 =? 3) then Fail
  else Ok (mkRequested (o mod 4) (Z.testbit o 2) (Z.testbit o 3) (o / 16 mod 4)).

Fixpoint decode_topics (n : nat) (with_options : bool) (l : list Z)
    : res (list (list Z * option requested) * list Z) :=
  match n with
  | O => Ok ([], l)
  | S n' =>
      '(topic, l) ← readUTF l;
      '(o, l) ← decode_if with_options (fun l => '(o, l) ← readChar l; q ← decode_options o; Ok (q, l)) l;
      '(ts, l) ← decode_topics n' with_options l;
      Ok ((topic, o) :: ts, l)
  end.

Definition decode_subscription (version : Z) (n : nat) (with_options : bool) (l : list Z)
    : res (Z * list MQTTProperty * list (list Z * option requested) * list Z) :=
  '(msgid, l) ← readInt l;
  '(props, l) ← decode_properties version l;
  '(ts, l) ← decode_topics n with_options l;
  Ok (msgid, props, ts, l).

(** ** Strings the library is given: C strings the length field can carry *)

Definition str_ok (s : list Z) : Prop :=
  bytes_ok s /\ Forall (fun b => b <> 0) s /\ Zlen s < 65536.
#[export] Instance str_ok_dec s : Decision (str_ok s).
Proof. unfold str_ok. apply _. Defined.

(** A publication as it is handed to [MQTTPacket_send_publish]. *)
Record publish_ok (pack : Publish) (topic payload : list Z) : Prop := {
  pok_topic : pub_topic pack = Some topic;
  pok_str : str_ok topic;
  pok_payload : default [] (pub_payload pack) = payload;
  pok_len : pub_payloadlen pack = Zlen payload;
  pok_int : Zlen payload < 2147483648;
  pok_msgid : u16_ok (pub_msgId pack);
  pok_props : MQTTVERSION_5 <= pub_MQTTVersion pack -> props_arg_ok (Some (pub_properties pack))
}.

(** ** Lemmas *)

Lemma alloc_write_ok len out : Zlen out = len -> len <= 2147483647 -> alloc_write len out = Ok out.
Proof.
  intros H Hl. unfold alloc_write. destruct (Z.ltb_spec 2147483647 len); [lia|].
  rewrite H, Z.eqb_refl. done.
Qed.

Lemma writeUTF_eq s : Forall (fun b => b <> 0) s -> writeUTF s = writeInt (Zlen s) ++ s.
Proof. intros H. unfold writeUTF, strlen. by rewrite cstr_id. Qed.

Lemma strlen_eq s : Forall (fun b => b <> 0) s -> strlen s = Zlen s.
Proof. intros H. unfold strlen. by rewrite cstr_id. Qed.

Lemma readUTF_data s rest : Zlen s < 65536 -> readUTF (writeData s ++ rest) = Ok (s, rest).
Proof.
  intros H. unfold readUTF, writeData. rewrite <- app_assoc, readUTFlen_write by done. done.
Qed.

Lemma readUTF_write s rest : str_ok s -> readUTF (writeUTF s ++ rest) = Ok (s, rest).
Proof.
  intros (Hb & Hz & Hl). rewrite writeUTF_eq by done. by apply readUTF_data.
Qed.

(** The version dependent property block of a packet. *)
Lemma properties_part v o :
  (MQTTVERSION_5 <= v -> props_arg_ok o) ->
  exists out rc,
    (if MQTTVERSION_5 <=? v then MQTTProperties_write o else Ok ([], 0)) = Ok (out, rc) /\
    Zlen out = (if MQTTVERSION_5 <=? v then MQTTProperties_len o else 0) /\
    Zlen out <= 268435460 /\
    forall rest, exists p,
      (if MQTTVERSION_5 <=? v then MQTTProperties_read MQTTProperties_initializer (out ++ rest)
       else Ok (MQTTProperties_initializer, out ++ rest)) = Ok (p, rest) /\
      entries p = (if MQTTVERSION_5 <=? v then arg_entries o else []) /\ props_inv p /\
      decode_properties v (out ++ rest)
        = Ok (if MQTTVERSION_5 <=? v then arg_entries o else [], rest).
Proof.
  intros H. unfold decode_properties. destruct (Z.leb_spec MQTTVERSION_5 v) as [Hv|Hv].
  - destruct (props_arg_write o (H Hv)) as (out & rc & Hw & Hl & Hr).
    pose proof (props_arg_len o (H Hv)).
    exists out, rc. split; [done|]. split; [done|]. split; [lia|]. intros rest.
    destruct (Hr rest) as (p & -> & He & Hi). exists p. simpl. by rewrite He.
  - exists [], 0. split; [done|]. split; [done|]. split; [done|].
    intros rest. exists MQTTProperties_initializer. pose proof props_inv_initializer. done.
Qed.

(** The header's fields are the arguments. *)
Lemma header_qos type dup qos retained :
  0 <= type < 16 -> 0 <= dup < 2 -> 0 <= qos < 4 -> 0 <= retained < 2 ->
  hdr_qos (mk_header type dup qos retained) = qos.
Proof. intros. by apply mk_header_fields. Qed.

(** The buffers of a publication and what their concatenation parses to. *)
Lemma publish_sent_parses (pack : Publish) (topic payload : list Z) (dup qos retained : Z) :
  publish_ok pack topic payload -> 0 <= dup < 2 -> 0 <= qos < 3 -> 0 <= retained < 2 ->
  exists bufs props, let header := mk_header PUBLISH dup qos retained in
    publish_buffers pack dup qos retained = Ok (header, bufs) /\
    MQTTPacket_publish (pub_MQTTVersion pack) header (concat bufs) =
      Ok (mkPublish header (Some topic) (Zlen topic) (if 0 <? qos then pub_msgId pack else 0)
            (Some payload) (Zlen payload) (pub_MQTTVersion pack) props [0; 0; 0; 0]) /\
    entries props = (if MQTTVERSION_5 <=? pub_MQTTVersion pack then entries (pub_properties pack) else []) /\
    props_inv props.
Proof.
  intros [Ht (Hb & Hz & Hl) Hp Hpl Hint Hid Hprops] Hd Hq Hr.
  pose proof (header_qos PUBLISH dup qos retained ltac:(done) Hd ltac:(lia) Hr) as Hfq.
  destruct (properties_part (pub_MQTTVersion pack) (Some (pub_properties pack)) Hprops)
    as (out & rc & Hw & Hlen & Hmax & Hread).
  unfold publish_buffers. rewrite Ht, Hp, Hpl, Z.eqb_refl. cbn [negb].
  rewrite strlen_eq, cstr_id by done. change (5 <=? pub_MQTTVersion pack) with (MQTTVERSION_5 <=? pub_MQTTVersion pack).
  destruct (Hread payload) as (p & Hrd & He & Hi & _).
  set (idb := if 0 <? qos then writeInt (pub_msgId pack) else []).
  assert (forall rest, (if 0 <? qos then readInt (idb ++ rest) else Ok (0, idb ++ rest))
                       = Ok (if 0 <? qos then pub_msgId pack else 0, rest)) as Hidb.
  { intros rest. unfold idb. destruct (0 <? qos); [by apply writeInt_u16 | done]. }
  assert (MQTTPacket_publish (pub_MQTTVersion pack) (mk_header PUBLISH dup qos retained)
            (writeInt (Zlen topic) ++ topic ++ idb ++ out ++ payload)
          = Ok (mkPublish (mk_header PUBLISH dup qos retained) (Some topic) (Zlen topic)
                  (if 0 <? qos then pub_msgId pack else 0) (Some payload) (Zlen payload)
                  (pub_MQTTVersion pack) p [0; 0; 0; 0])) as Hparse.
  { unfold MQTTPacket_publish. rewrite readUTFlen_write by done. cbn [mbind res_bind].
    rewrite Hfq, Hidb. cbn [mbind res_bind]. rewrite Hrd. cbn [mbind res_bind].
    pose proof (Zlen_nonneg payload). by rewrite to_i32_id by lia. }
  rewrite Hw.
  assert (forall b : bool, exists bufs,
    (if b then
       buf ← alloc_write (Zlen idb + Zlen out) (idb ++ out);
       Ok (mk_header PUBLISH dup qos retained, [writeInt (Zlen topic); topic; buf; payload])
     else Ok (mk_header PUBLISH dup qos retained, [writeInt (Zlen topic); topic; payload]))
    = Ok (mk_header PUBLISH dup qos retained, bufs) /\
    concat bufs = writeInt (Zlen topic) ++ topic ++ (if b then idb ++ out else []) ++ payload) as Hb'.
  { assert (Zlen idb <= 2) by (unfold idb; destruct (0 <? qos); [by rewrite writeInt_length | done]).
    intros []; [rewrite alloc_write_ok by zlen|]; (eexists; split; [reflexivity|]);
      cbn [concat]; by rewrite ?app_nil_r, <- ?app_assoc. }
  destruct (Hb' ((0 <? qos) || (MQTTVERSION_5 <=? pub_MQTTVersion pack))) as (bufs & Hbufs & Hc).
  do 2 eexists. split; [|split].
  - rewrite <- Hbufs. cbn [mbind res_bind]. destruct ((0 <? qos) || _); [|done].
    rewrite Hlen. unfold idb. by destruct (0 <? qos); rewrite ?writeInt_length.
  - rewrite Hc, <- Hparse. f_equal. f_equal. f_equal.
    destruct ((0 <? qos) || _) eqn:Eb; [by rewrite <- app_assoc|].
    apply orb_false_iff in Eb as [E1 E2]. unfold idb. rewrite E1. rewrite E2 in Hw.
    by injection Hw as <- <-.
  - done.
Qed.

(** C28. A publication sent is received as it was: the concatenation of the buffers
    [MQTTPacket_send_publish] hands on is parsed by [MQTTPacket_publish] into the same
    topic, payload, identifier (for QoS 1 and 2) and properties (for MQTT 5), whatever
    the DUP, QoS and RETAIN values, which the header carries.  The topic has less than
    2^16 bytes and no NUL, the payload less than 2^31, and the properties are well formed
    with four byte integers below 2^31 ([publish_ok]; [Wire.writeInt4_roundtrip_iff]: a
    greater one is not written as it is). *)
Theorem publish_roundtrip (pack : Publish) (topic payload : list Z) (dup qos retained : Z) :
  publish_ok pack topic payload -> 0 <= dup < 2 -> 0 <= qos < 3 -> 0 <= retained < 2 ->
  exists bufs pack', let header := mk_header PUBLISH dup qos retained in
    publish_buffers pack dup qos retained = Ok (header, bufs) /\
    MQTTPacket_publish (pub_MQTTVersion pack) header (concat bufs) = Ok pack' /\
    pub_topic pack' = Some topic /\ pub_topiclen pack' = Zlen topic /\
    pub_payload pack' = Some payload /\ pub_payloadlen pack' = Zlen payload /\
    pub_msgId pack' = (if 0 <? qos then pub_msgId pack else 0) /\
    entries (pub_properties pack') =
      (if MQTTVERSION_5 <=? pub_MQTTVersion pack then entries (pub_properties pack) else []) /\
    hdr_dup header = dup /\ hdr_qos header = qos /\ hdr_retain header = retained.
Proof.
  intros Hok Hd Hq Hr.
  destruct (publish_sent_parses pack topic payload dup qos retained Hok Hd Hq Hr)
    as (bufs & props & Hb & Hp & He & _).
  destruct (mk_header_fields PUBLISH dup qos retained) as (_ & _ & Hfd & Hfq & Hfr);
    [done | lia | lia | lia |].
  exists bufs. eexists. split; [exact Hb|]. split; [exact Hp|]. done.
Qed.

Definition sample_publish : Publish :=
  mkPublish 0 (Some [97; 47; 98]) 3 513 (Some [1; 0; 255]) 3 5 sample_props [0; 0; 0; 0].

Lemma publish_roundtrip_witness :
  publish_ok sample_publish [97; 47; 98] [1; 0; 255] /\
  exists bufs pack', let header := mk_header PUBLISH 1 2 0 in
    publish_buffers sample_publish 1 2 0 = Ok (header, bufs) /\
    MQTTPacket_publish 5 header (concat bufs) = Ok pack' /\
    pub_topic pack' = Some [97; 47; 98] /\ pub_topiclen pack' = 3 /\
    pub_payload pack' = Some [1; 0; 255] /\ pub_payloadlen pack' = 3 /\
    pub_msgId pack' = 513 /\
    entries (pub_properties pack') = entries sample_props /\
    hdr_dup header = 1 /\ hdr_qos header = 2 /\ hdr_retain header = 0.
Proof.
  assert (publish_ok sample_publish [97; 47; 98] [1; 0; 255]) as H.
  { split; try done.
    - by_compute.
    - intros _. split; [exact sample_props_inv | repeat constructor; vm_compute; reflexivity]. }
  split; [exact H|].
  apply (publish_roundtrip sample_publish [97; 47; 98] [1; 0; 255] 1 2 0 H); lia.
Defined.

(** ** CONNECT *)

Record connect_ok (client : Clients) (v : Z) (cprops wprops : option MQTTProperties) : Prop := {
  cok_version : v = MQTTVERSION_3_1 \/ v = MQTTVERSION_3_1_1 \/ v = MQTTVERSION_5;
  cok_id : str_ok (clientID client);
  cok_keepalive : u16_ok (keepAliveInterval client);
  cok_start : 0 <= cleanstart client < 2 /\ 0 <= cleansession client < 2;
  cok_will : match will client with
             | Some w => str_ok (will_topic w) /\ Zlen (will_payload w) < 65536 /\
                         0 <= will_qos w < 3 /\ 0 <= will_retained w < 2
             | None => True end;
  cok_username : match username client with Some u => str_ok u | None => True end;
  cok_password : match password client with Some p => Zlen p < 65536 | None => True end;
  cok_props : MQTTVERSION_5 <= v -> props_arg_ok cprops;
  cok_wprops : MQTTVERSION_5 <= v -> props_arg_ok wprops
}.

Definition client_flags (client : Clients) (v : Z) : Z :=
  connect_flags (if MQTTVERSION_5 <=? v then cleanstart client else cleansession client)
    (flag (will client))
    (match will client with Some w => will_qos w | None => 0 end)
    (match will client with Some w => will_retained w | None => 0 end)
    (flag (password client)) (flag (username client)).

Definition will_of (props : list MQTTProperty) (w : willMessages) : will_info :=
  mkWillInfo (will_retained w =? 1) (will_qos w) props (will_topic w) (will_payload w).

(** What the server is to read. *)
Definition client_info (client : Clients) (v : Z) (cprops wprops : option MQTTProperties)
    : connect_info :=
  let ents o := if MQTTVERSION_5 <=? v then arg_entries o else [] in
  mkInfo (if v =? MQTTVERSION_3_1 then [77; 81; 73; 115; 100; 112] else [77; 81; 84; 84]) v
    ((if MQTTVERSION_5 <=? v then cleanstart client else cleansession client) =? 1)
    (keepAliveInterval client) (ents cprops) (clientID client)
    (will_of (ents wprops) <$> will client)
    (username client) (password client).

Lemma connect_flags_bits cs w q r p u :
  0 <= cs < 2 -> 0 <= w < 2 -> 0 <= q < 3 -> 0 <= r < 2 -> 0 <= p < 2 -> 0 <= u < 2 -> (w = 0 -> q = 0 /\ r = 0) ->
  let f := connect_flags cs w q r p u in
  byte_ok f /\ flags_malformed f = false /\ Z.testbit f 1 = (cs =? 1) /\ Z.testbit f 2 = (w =? 1) /\ f / 8 mod 4 = q /\
  Z.testbit f 5 = (r =? 1) /\ Z.testbit f 6 = (p =? 1) /\ Z.testbit f 7 = (u =? 1).
Proof.
  intros Hcs Hw Hq Hr Hp Hu Hn.
  assert (forall x, 0 <= x < 2 -> x = 0 \/ x = 1) as B by lia.
  destruct (B _ Hw) as [-> | ->].
  - destruct (Hn eq_refl) as [-> ->]. destruct (B _ Hcs) as [-> | ->], (B _ Hp) as [-> | ->], (B _ Hu) as [-> | ->];
      repeat split; vm_compute; congruence.
  - assert (q = 0 \/ q = 1 \/ q = 2) as [-> | [-> | ->]] by lia;
      destruct (B _ Hcs) as [-> | ->], (B _ Hr) as [-> | ->], (B _ Hp) as [-> | ->], (B _ Hu) as [-> | ->];
      repeat split; vm_compute; congruence.
Qed.

Lemma client_flags_bits client v cprops wprops :
  connect_ok client v cprops wprops ->
  let f := client_flags client v in
  byte_ok f /\ flags_malformed f = false
  /\ Z.testbit f 1 = ((if MQTTVERSION_5 <=? v then cleanstart client else cleansession client) =? 1)
  /\ Z.testbit f 2 = bool_decide (is_Some (will client))
  /\ f / 8 mod 4 = match will client with Some w => will_qos w | None => 0 end
  /\ Z.testbit f 5 = (match will client with Some w => will_retained w | None => 0 end =? 1)
  /\ Z.testbit f 6 = bool_decide (is_Some (password client))
  /\ Z.testbit f 7 = bool_decide (is_Some (username client)).
Proof.
  intros [_ _ _ [Hs Hs'] Hw _ _ _ _].
  assert (forall A (o : option A), 0 <= flag o < 2) as Hf by (intros A []; simpl; lia).
  assert (forall A (o : option A), bool_decide (is_Some o) = (flag o =? 1)) as Hb
    by (intros A []; [by apply bool_decide_eq_true_2 | by apply bool_decide_eq_false_2; intros [? [=]]]).
  rewrite !Hb. apply connect_flags_bits; try apply Hf.
  - destruct (MQTTVERSION_5 <=? v); lia.
  - destruct (will client); [tauto|lia].
  - destruct (will client); [tauto|lia].
  - by destruct (will client).
Qed.

Lemma decode_if_some {A} (f : list Z -> res (A * list Z)) (o : option A) w rest :
  (forall x, o = Some x -> f (w ++ rest) = Ok (x, rest)) -> (o = None -> w = []) ->
  decode_if (bool_decide (is_Some o)) f (w ++ rest) = Ok (o, rest).
Proof.
  intros Hs Hn. unfold decode_if. destruct o as [x|].
  - rewrite bool_decide_eq_true_2 by done. by rewrite (Hs x).
  - rewrite bool_decide_eq_false_2 by (intros [? [=]]). by rewrite Hn.
Qed.

Lemma writeData_length d : Zlen (writeData d) = Zlen d + 2.
Proof. unfold writeData. rewrite Zlen_app, writeInt_length. lia. Qed.

(** The will part of the packet. *)
Lemma will_part client v cprops wprops :
  connect_ok client v cprops wprops ->
  let ents o := if MQTTVERSION_5 <=? v then arg_entries o else [] in
  exists wb,
    match will client with
    | None => Ok []
    | Some w =>
        '(wp, _) ← (if MQTTVERSION_5 <=? v then MQTTProperties_write wprops else Ok ([], 0));
        Ok (wp ++ writeUTF (will_topic w) ++ writeData (will_payload w))
    end = Ok wb /\
    Zlen wb = match will client with
              | Some w => strlen (will_topic w) + 2 + Zlen (will_payload w) + 2
                          + (if MQTTVERSION_5 <=? v then MQTTProperties_len wprops else 0)
              | None => 0 end /\
    Zlen wb <= 268600000 /\
    forall rest,
      decode_if (bool_decide (is_Some (will client)))
        (decode_will v (match will client with Some w => will_retained w | None => 0 end =? 1)
           (match will client with Some w => will_qos w | None => 0 end)) (wb ++ rest)
      = Ok (will_of (ents wprops) <$> will client, rest).
Proof.
  intros [_ _ _ _ Hw _ _ _ Hp] ents. destruct (will client) as [w|]; [|by exists []].
  destruct Hw as (Ht & Hpl & _ & _).
  destruct (properties_part v wprops Hp) as (out & rc & -> & Hlen & Hmax & Hr).
  cbn [mbind res_bind]. eexists. split; [done|].
  assert (Zlen (out ++ writeUTF (will_topic w) ++ writeData (will_payload w))
          = Zlen out + (strlen (will_topic w) + 2) + (Zlen (will_payload w) + 2)) as Hl
    by (rewrite !Zlen_app, writeUTF_length, writeData_length; lia).
  destruct Ht as (Ht1 & Ht2 & Ht3).
  rewrite Hl. split; [rewrite Hlen; lia|]. rewrite (strlen_eq (will_topic w)) by done. split; [lia|].
  intros rest. rewrite bool_decide_eq_true_2 by done. unfold decode_if, decode_will.
  rewrite <- !app_assoc.
  destruct (Hr (writeUTF (will_topic w) ++ writeData (will_payload w) ++ rest)) as (p & _ & _ & _ & ->).
  cbn [mbind res_bind]. rewrite readUTF_write by done. cbn [mbind res_bind].
  by rewrite readUTF_data.
Qed.

Lemma readChar_writeChar c rest : byte_ok c -> readChar (writeChar c ++ rest) = Ok (c, rest).
Proof. intros H. unfold writeChar. rewrite to_byte_id by done. done. Qed.

Lemma decode_connect_concat name v fl ka out e cid wb w ub u pb pw :
  str_ok name -> byte_ok v -> byte_ok fl -> flags_malformed fl = false -> u16_ok ka -> str_ok cid ->
  (forall rest, decode_properties v (out ++ rest) = Ok (e, rest)) ->
  (forall rest, decode_if (Z.testbit fl 2) (decode_will v (Z.testbit fl 5) (fl / 8 mod 4)) (wb ++ rest) = Ok (w, rest)) ->
  (forall rest, decode_if (Z.testbit fl 7) readUTF (ub ++ rest) = Ok (u, rest)) ->
  (forall rest, decode_if (Z.testbit fl 6) readUTF (pb ++ rest) = Ok (pw, rest)) ->
  decode_connect (writeUTF name ++ writeChar v ++ writeChar fl ++ writeInt ka ++ out
                  ++ writeUTF cid ++ wb ++ ub ++ pb)
  = Ok (mkInfo name v (Z.testbit fl 1) ka e cid w u pw, []).
Proof.
  intros Hn Hv Hfl Hgood Hka Hcid He Hw Hu Hp. unfold decode_connect.
  rewrite readUTF_write by done. cbn [mbind res_bind].
  rewrite readChar_writeChar by done. cbn [mbind res_bind].
  rewrite readChar_writeChar by done. cbn [mbind res_bind]. rewrite Hgood.
  rewrite writeInt_u16 by done. cbn [mbind res_bind]. rewrite He. cbn [mbind res_bind].
  rewrite readUTF_write by done. cbn [mbind res_bind]. rewrite Hw. cbn [mbind res_bind].
  rewrite Hu. cbn [mbind res_bind]. specialize (Hp []). rewrite app_nil_r in Hp. by rewrite Hp.
Qed.


Definition sample_client : Clients :=
  mkClients [99; 49] (Some [117]) (Some [112; 0; 119]) 1 0 1 1 0 (mkNet 5 0 0 0) 0 60 20
    (Some (mkWill [119; 47; 116] [98; 121; 101] 1 1)) AList.empty AList.empty AList.empty 0
    false 5 0 10 0 0.


(** ** SUBSCRIBE and UNSUBSCRIBE *)

(** What is asked for with each topic. *)
Definition request (v qos : Z) (opt : option MQTTSubscribe_options) : requested :=
  match opt with
  | Some o => if MQTTVERSION_5 <=? v then mkRequested qos (noLocal o =? 1) (retainAsPublished o =? 1) (retainHandling o)
              else mkRequested qos false false 0
  | None => mkRequested qos false false 0
  end.

Definition requests (v : Z) (qoss : list Z) (opts : option (list MQTTSubscribe_options)) : list (option requested) :=
  match opts with
  | None => map (fun q => Some (request v q None)) qoss
  | Some os => zip_with (fun q o => Some (request v q (Some o))) qoss os
  end.

Definition qos_ok (q : Z) : Prop := 0 <= q < 3.
Definition subopt_ok (o : MQTTSubscribe_options) : Prop :=
  0 <= noLocal o < 2 /\ 0 <= retainAsPublished o < 2 /\ 0 <= retainHandling o < 3.

Lemma subopts_byte v q o : byte_ok (subopts v q o).
Proof. unfold subopts. destruct o; [case_match|]; auto with mqtt. Qed.

Lemma subopts_decoded v q o :
  qos_ok q -> match o with Some o => subopt_ok o | None => True end -> decode_options (subopts v q o) = Ok (request v q o).
Proof.
  unfold qos_ok, subopt_ok, subopts, request. intros Hq Ho.
  assert (q = 0 \/ q = 1 \/ q = 2) as [-> | [-> | ->]] by lia; destruct o as [[n a h]|]; try reflexivity;
    cbn [noLocal retainAsPublished retainHandling] in *; destruct (MQTTVERSION_5 <=? v); try reflexivity;
    (assert (n = 0 \/ n = 1) as [-> | ->] by lia); (assert (a = 0 \/ a = 1) as [-> | ->] by lia);
    (assert (h = 0 \/ h = 1 \/ h = 2) as [-> | [-> | ->]] by lia); reflexivity.
Qed.

Lemma topics_len_cons t ts : topics_len (t :: ts) = strlen t + topics_len ts.
Proof. done. Qed.

Lemma subscribe_loop_spec v topics qoss opts :
  Forall str_ok topics -> List.length qoss = List.length topics ->
  Forall qos_ok qoss ->
  match opts with Some os => List.length os = List.length topics /\ Forall subopt_ok os | None => True end ->
  exists body, subscribe_loop v topics qoss opts = Ok body /\
    Zlen body = Zlen topics * 3 + topics_len topics /\
    forall rest, decode_topics (List.length topics) true (body ++ rest)
                 = Ok (zip topics (requests v qoss opts), rest).
Proof.
  intros Ht. revert qoss opts. induction Ht as [|t ts Hs _ IH]; intros qoss opts Hq Hqs Ho.
  { exists []. done. }
  destruct qoss as [|q qoss]; [done|]. injection Hq as Hq. apply Forall_cons in Hqs as [Hq0 Hqs].
  assert (exists o opts', match opts with
            | None => Ok (None, None)
            | Some (o :: os) => Ok (Some o, Some os)
            | Some [] => if MQTTVERSION_5 <=? v then Oob else Ok (None, Some [])
            end = Ok (o, opts') /\
            match o with Some o => subopt_ok o | None => True end /\
            match opts' with Some os => List.length os = List.length ts /\ Forall subopt_ok os | None => True end /\
            requests v (q :: qoss) opts = Some (request v q o) :: requests v qoss opts')
    as (o & opts' & Eo & Hoo & Hl & Hw).
  { destruct opts as [[|o os]|]; simpl in Ho; [by destruct Ho| |].
    - exists (Some o), (Some os). destruct Ho as [[= Ho] [Ho1 Ho2]%Forall_cons]. done.
    - exists None, None. done. }
  cbn [subscribe_loop]. rewrite Eo. cbn [mbind res_bind].
  destruct (IH qoss opts' Hq Hqs Hl) as (body & -> & Hlen & Hd). cbn [mbind res_bind].
  eexists. split; [done|]. split.
  - rewrite !Zlen_app, writeUTF_length, Hlen, Zlen_cons, topics_len_cons.
    change (Zlen (writeChar (subopts v q o))) with 1. lia.
  - intros rest. cbn [decode_topics List.length]. rewrite <- !app_assoc, readUTF_write by done.
    cbn [mbind res_bind decode_if]. rewrite readChar_writeChar by apply subopts_byte.
    cbn [mbind res_bind]. rewrite subopts_decoded by done. cbn [mbind res_bind]. rewrite Hd. cbn [mbind res_bind]. by rewrite Hw.
Qed.

Lemma unsubscribe_topics_spec topics :
  Forall str_ok topics ->
  Zlen (concat (map writeUTF topics)) = Zlen topics * 2 + topics_len topics /\
  forall rest, decode_topics (List.length topics) false (concat (map writeUTF topics) ++ rest)
               = Ok (map (fun t => (t, None)) topics, rest).
Proof.
  induction 1 as [|t ts Hs _ [IHl IHd]]; [done|]. split.
  - cbn [concat map]. rewrite Zlen_app, writeUTF_length, IHl, Zlen_cons, topics_len_cons. lia.
  - intros rest. cbn [concat map decode_topics List.length]. rewrite <- app_assoc, readUTF_write by done. cbn [mbind res_bind decode_if].
    by rewrite IHd.
Qed.



(** ** Acknowledgements *)

(** The acknowledgements sent are read back as what they acknowledge: header type,
    the DUP bit, the QoS bits (1 in a PUBREL and 0 otherwise) and the message
    identifier; in MQTT 5 the absent reason code is success and the absent property
    list is empty. *)
Theorem ack_roundtrip (type msgid dup v : Z) :
  In type [PUBACK; PUBREC; PUBREL; PUBCOMP] -> u16_ok msgid -> 0 <= dup < 2 ->
  let '(h, data) := ack_packet type msgid dup in
  MQTTPacket_ack v h data =
    Ok (if MQTTVERSION_5 <=? v
        then mkAck h (Some msgid) (Some MQTTREASONCODE_SUCCESS) v (Some MQTTProperties_initializer)
        else mkAck h (Some msgid) None v None) /\
  hdr_type h = type /\ hdr_dup h = dup /\ hdr_qos h = (if type =? PUBREL then 1 else 0) /\
  byte_ok h.
Proof.
  intros Ht Hid Hd. unfold ack_packet.
  assert (0 <= type < 16 /\ type <> DISCONNECT) as [Hr Hn]
    by (simpl in Ht; unfold PUBACK, PUBREC, PUBREL, PUBCOMP, DISCONNECT in *; lia).
  destruct (mk_header_fields type dup (if type =? PUBREL then 1 else 0) 0)
    as (Hb & Ht' & Hd' & Hq & _); [done | done | destruct (type =? PUBREL); lia | lia |].
  repeat split; try done; [|apply Hb..].
  unfold MQTTPacket_ack. rewrite Ht'. destruct (Z.eqb_spec type DISCONNECT); [done|].
  pose proof (writeInt_u16 msgid [] Hid) as Hw. rewrite app_nil_r in Hw. rewrite Hw.
  cbn [mbind res_bind]. rewrite writeInt_length. by destruct (MQTTVERSION_5 <=? v).
Qed.

Lemma ack_roundtrip_witness :
  In PUBREL [PUBACK; PUBREC; PUBREL; PUBCOMP] /\
  let '(h, data) := ack_packet PUBREL 65535 1 in
  MQTTPacket_ack 5 h data =
    Ok (mkAck h (Some 65535) (Some MQTTREASONCODE_SUCCESS) 5 (Some MQTTProperties_initializer)) /\
  hdr_type h = PUBREL /\ hdr_dup h = 1 /\ hdr_qos h = 1 /\ byte_ok h.
Proof.
  assert (In PUBREL [PUBACK; PUBREC; PUBREL; PUBCOMP]) as Hin by (simpl; auto).
  split; [exact Hin|].
  apply (ack_roundtrip PUBREL 65535 1 5 Hin); [by_compute | lia].
Defined.

(** ** Packets that are too short *)

(** The data is too short for the members the function reads before it looks at
    the length. *)
Definition too_short (ptype h : Z) (data : list Z) : Prop :=
  if ptype =? PUBLISH then
    0 < hdr_qos h /\ exists topic n rest, readUTFlen data = Ok (topic, n, rest) /\ Zlen rest < 2
  else if ptype =? SUBACK then Zlen data < 3
  else if (ptype =? PINGREQ) || (ptype =? PINGRESP) then False
  else Zlen data < 2.

Lemma readInt_oob l : readInt l = Oob <-> Zlen l < 2.
Proof. destruct l as [|a [|b l]]; simpl; split; zlen; done. Qed.

Lemma readUTFlen_not_oob l : readUTFlen l <> Oob.
Proof.
  unfold readUTFlen. destruct (Z.gtb_spec (Zlen l) 1) as [H|]; [|done].
  destruct l as [|a [|b l]]; [zlen|zlen|]. simpl. by case_match.
Qed.

Lemma publish_v3_oob v h data : v < MQTTVERSION_5 ->
  MQTTPacket_publish v h data = Oob <->
  0 < hdr_qos h /\ exists topic n rest, readUTFlen data = Ok (topic, n, rest) /\ Zlen rest < 2.
Proof.
  intros Hv. unfold MQTTPacket_publish. destruct (Z.leb_spec MQTTVERSION_5 v); [lia|].
  pose proof (readUTFlen_not_oob data).
  destruct (readUTFlen data) as [[[topic n] rest]| |] eqn:E; 
    [|by split; [|intros (_ & ? & ? & ? & ? & _)]|done].
  cbn [mbind res_bind]. destruct (Z.ltb_spec 0 (hdr_qos h)).
  - destruct (readInt rest) as [[id l]| |] eqn:Er; cbn [mbind res_bind].
    + split; [done|]. intros (_ & t & m & r & [= <- <- <-] & Hlt).
      apply readInt_oob in Hlt. congruence.
    + by destruct rest as [|? [|? ?]].
    + apply readInt_oob in Er. split; [|done]. intros _. split; [done|]. eauto 6.
  - split; [done|lia].
Qed.

(** C31. Where the packet functions are memory safe.  Below MQTT 5, for every packet
    type the client accepts, the function of the table reads outside the packet (or,
    for a SUBACK without codes, frees it and reads it again) exactly when the
    remaining length the peer announced is too short for the fixed members, which
    no check prevents; every longer packet is parsed or refused. *)
Theorem parse_v3_oob_iff (v ptype h : Z) (data : list Z) f :
  v < MQTTVERSION_5 -> hdr_type h = ptype -> factory_entry v ptype = Some f ->
  f v h data = Oob <-> too_short ptype h data.
Proof.
  intros Hv Hh. unfold factory_entry, too_short, new_packets.
  destruct (_ || _) eqn:Ec; [done|]. apply orb_false_iff in Ec as [Ec _].
  apply orb_false_iff in Ec as [_ Ec]. destruct (Z.ltb_spec v MQTTVERSION_5) as [_|]; [|lia].
  simpl in Ec. apply Z.leb_gt in Ec.
  assert (forall {A B} (r : res A) (g : A -> B), g <$> r = Oob <-> r = Oob) as Hmap
    by (intros A B [] g; simpl; split; congruence).
  unfold DISCONNECT, CONNACK, PUBLISH, PUBACK, PUBREC, PUBREL, PUBCOMP, AUTH, SUBACK, UNSUBACK,
    PINGREQ, PINGRESP in *.
  destruct (Z.eqb_spec ptype 2) as [->|]; [|destruct (Z.eqb_spec ptype 3) as [->|]].
  - intros [= <-]. rewrite Hmap. unfold MQTTPacket_connack. simpl.
    destruct (Z.ltb_spec v MQTTVERSION_5); [|lia].
    destruct data as [|a [|b l]]; simpl; split; intros; try done; try zlen.
    by case_match.
  - intros [= <-]. by rewrite <- (publish_v3_oob v) by done; rewrite Hmap.
  - destruct (_ || _) eqn:Ea; [|destruct (Z.eqb_spec ptype 9) as [->|]; [|destruct (Z.eqb_spec ptype 11) as [->|]]].
    + intros [= <-]. rewrite Hmap. unfold MQTTPacket_ack. rewrite Hh. unfold DISCONNECT.
      destruct (Z.eqb_spec ptype 14); [lia|]. destruct (Z.leb_spec MQTTVERSION_5 v); [lia|].
      destruct (Z.eqb_spec ptype 9); [lia|]. assert (ptype <= 7) by lia. clear Ea.
      destruct (_ || _) eqn:Ep; [lia|].
      rewrite <- readInt_oob. by destruct (readInt data) as [[]| |].
    + intros [= <-]. rewrite Hmap. unfold MQTTPacket_suback.
      destruct (Z.leb_spec MQTTVERSION_5 v); [lia|]. simpl.
      destruct data as [|a [|b l]]; simpl; [split; intros; by try zlen..|].
      destruct (Z.eqb_spec (Zlen l) 0); split; intros; try done; zlen.
    + intros [= <-]. rewrite Hmap. unfold MQTTPacket_unsuback.
      destruct (Z.leb_spec MQTTVERSION_5 v); [lia|]. simpl.
      rewrite <- readInt_oob. by destruct (readInt data) as [[]| |].
    + clear Ea. destruct (_ || _) eqn:Ep; [|done]. intros [= <-]. done.
Qed.

Lemma parse_v3_oob_iff_witness :
  exists f, 4 < MQTTVERSION_5 /\ hdr_type 64 = PUBACK /\ factory_entry 4 PUBACK = Some f /\
    (f 4 64 [7] = Oob <-> too_short PUBACK 64 [7]).
Proof.
  eexists. split; [reflexivity|]. split; [reflexivity|]. split; [reflexivity|].
  apply (parse_v3_oob_iff 4 PUBACK 64 [7]); reflexivity.
Defined.

(** ** Freeing what was parsed *)

Definition free_parsed (p : packet) : res () :=
  match p with
  | Pconnack q => MQTTPacket_freeConnack q
  | Ppublish q => MQTTPacket_freePublish q
  | Pack q => MQTTPacket_freeAck q
  | Psuback q => MQTTPacket_freeSuback q
  | Punsuback q => MQTTPacket_freeUnsuback q
  | Pheader _ => Ok ()
  end.

Lemma free_properties_some v p : free_properties v (Some p) = Ok ().
Proof. unfold free_properties. by destruct (_ <=? _). Qed.

Lemma free_properties_v3 v o : (MQTTVERSION_5 <=? v) = false -> free_properties v o = Ok ().
Proof. unfold free_properties. by intros ->. Qed.

Lemma ack_free v h data q : MQTTPacket_ack v h data = Ok q -> MQTTPacket_freeAck q = Ok ().
Proof.
  unfold MQTTPacket_ack, MQTTPacket_freeAck. intros H. res_inv; simpl;
    first [apply free_properties_some | by apply free_properties_v3].
Qed.

Lemma suback_free v h data q : MQTTPacket_suback v h data = Ok q -> MQTTPacket_freeSuback q = Ok ().
Proof.
  unfold MQTTPacket_suback, MQTTPacket_freeSuback. intros H. res_inv; simpl;
    first [apply free_properties_some | by apply free_properties_v3].
Qed.

Lemma unsuback_free v h data q :
  MQTTPacket_unsuback v h data = Ok q -> MQTTPacket_freeUnsuback q = Ok ().
Proof.
  unfold MQTTPacket_unsuback, MQTTPacket_freeUnsuback. intros H. res_inv; simpl;
    first [apply free_properties_some | by apply free_properties_v3].
Qed.

(** A packet the table built can be freed with its own function, its property list
    being initialised, in every case but one: an MQTT 5 CONNACK of two bytes is
    accepted without its property list being set, and [MQTTPacket_freeConnack] then
    frees through an indeterminate pointer. *)
Theorem parsed_free_iff (v ptype h : Z) (data : list Z) f p :
  factory_entry v ptype = Some f -> f v h data = Ok p ->
  free_parsed p = Oob <-> ptype = CONNACK /\ MQTTVERSION_5 <= v /\ Zlen data = 2.
Proof.
  assert (forall o, free_properties v o = Oob <-> MQTTVERSION_5 <= v /\ o = None) as Hfree.
  { intros o. unfold free_properties. destruct (Z.leb_spec MQTTVERSION_5 v); [|split; [done|lia]].
    destruct o; split; try done. by intros [_ [=]]. }
  assert (forall {A} (r : res A) (g : A -> packet), g <$> r = Ok p <-> exists x, r = Ok x /\ p = g x) as Hmap
    by (intros A [x| |] g; simpl; split; [intros [= <-]; eauto | intros (? & [= ->] & ->); done
        | done | by intros (? & ? & ?) | done | by intros (? & ? & ?)]).
  unfold factory_entry, new_packets. destruct (_ || _) as [|]; [done|].
  destruct (Z.eqb_spec ptype CONNACK) as [->|Hn].
  { intros Hf Hp. injection Hf as <-. apply Hmap in Hp as (q & Hq & ->). unfold MQTTPacket_connack in Hq.
    destruct data as [|a [|b l]]; [done|done|]. cbn [readChar mbind res_bind] in Hq.
    unfold free_parsed, MQTTPacket_freeConnack.
    destruct (Z.ltb_spec v MQTTVERSION_5); [|destruct (Z.ltb_spec 2 (Zlen (a :: b :: l)))].
    - destruct (negb _); [done|]. injection Hq as <-. simpl. rewrite Hfree. lia.
    - destruct (MQTTProperties_read _ _) as [[ps l']| |]; [|done|done]. injection Hq as <-.
      simpl. rewrite Hfree. split; [by intros [_ [=]]|lia].
    - injection Hq as <-. simpl. rewrite Hfree. zlen. split; [|naive_solver].
      intros _. split; [done|]. split; [done|]. zlen. }
  intros Hf Hp. assert (free_parsed p <> Oob) as Hfp; [|split; [done | by intros (? & _)]].
  revert Hf Hp. repeat destruct (_ || _); repeat destruct (ptype =? _); try done;
    intros Hf Hp; injection Hf as <-; first [apply Hmap in Hp as (q & Hq & ->) | by injection Hp as <-];
    simpl; unfold MQTTPacket_freePublish;
    first [by rewrite free_properties_some | by erewrite ack_free | by erewrite suback_free
          | by erewrite unsuback_free].
Qed.

Lemma parsed_free_iff_witness :
  exists f p, factory_entry 5 CONNACK = Some f /\ f 5 32 [0; 0] = Ok p /\
    (free_parsed p = Oob <-> CONNACK = CONNACK /\ MQTTVERSION_5 <= 5 /\ Zlen [0; 0] = 2).
Proof.
  do 2 eexists. split; [reflexivity|]. split; [reflexivity|].
  eapply (parsed_free_iff 5 CONNACK 32 [0; 0]); reflexivity.
Defined.

End Packet.
