(* ===== verification/State.v ===== *)
(** * The state of a session and what it stands on

    The interfaces to the network ([Transport]) and to the persistence implementation
    ([PersistenceOps], the function pointers of [src/src/MQTTClientPersistence.h], with
    the documented behaviour in [PersistenceLaws]), and the state the protocol
    functions change: one client, its persistence handle, the store of publications
    and the counters of [MQTTProtocol]. *)

From S2P Require Import Prelude.
From S2P Require Import LinkedList.
From S2P Require Import Clients.
From Stdlib Require Import ZArith Lia List.
From stdpp Require Import base numbers list gmap.

Open Scope Z_scope.

Module State.
Import Clients.

(** ** The persistence interface

    [P] is the state behind the handle.  [beforeWrite] and [afterRead] are the
    application's callbacks, if set; the former may replace the buffers and the
    latter the data. *)
Class PersistenceOps (P : Type) := {
  popen : list Z -> list Z -> P -> Z * P;
  pclose : P -> Z * P;
  pput : list Z -> list (list Z) -> P -> Z * P;
  pget : list Z -> P -> Z * list Z;
  premove : list Z -> P -> Z * P;
  pkeys : P -> Z * list (list Z);
  pclear : P -> Z * P;
  pcontainskey : list Z -> P -> Z;
  beforeWrite : option (list (list Z) -> Z * list (list Z));
  afterRead : option (list Z -> Z * list Z)
}.

(** What the documentation of the functions promises when they return 0. *)
Class PersistenceLaws (P : Type) `{PersistenceOps P} := {
  contents : P -> gmap (list Z) (list Z);
  pput_ok k bufs s s' : pput k bufs s = (0, s') -> contents s' = <[k := concat bufs]> (contents s);
  pget_ok k s d : pget k s = (0, d) -> contents s !! k = Some d;
  premove_ok k s s' : premove k s = (0, s') -> contents s' = delete k (contents s);
  pkeys_ok s ks : pkeys s = (0, ks) -> NoDup ks /\ (forall k, k ∈ ks <-> is_Some (contents s !! k));
  pclear_ok s s' : pclear s = (0, s') -> contents s' = ∅;
  pcontainskey_ok k s : pcontainskey k s = 0 <-> is_Some (contents s !! k)
}.

(** A store whose operations succeed, and no callbacks. *)
Class PersistenceReliable (P : Type) `{PersistenceOps P} := {
  pput_rc k bufs s : fst (pput k bufs s) = 0;
  premove_rc k s : fst (premove k s) = 0;
  pkeys_rc s : fst (pkeys s) = 0;
  pget_rc k s : pcontainskey k s = 0 -> fst (pget k s) = 0;
  no_beforeWrite : beforeWrite = None;
  no_afterRead : afterRead = None
}.

(** A store in memory. *)
Abbreviation MemStore := (gmap (list Z) (list Z)).

#[export] Instance MemStore_ops : PersistenceOps MemStore := {
  popen _ _ s := (0, s);
  pclose s := (0, s);
  pput k bufs s := (0, <[k := concat bufs]> s);
  pget k s := match s !! k with Some d => (0, d) | None => (MQTTCLIENT_PERSISTENCE_ERROR, []) end;
  premove k s := (0, delete k s);
  pkeys s := (0, (map_to_list s).*1);
  pclear s := (0, ∅);
  pcontainskey k s := if decide (is_Some (s !! k)) then 0 else MQTTCLIENT_PERSISTENCE_ERROR;
  beforeWrite := None;
  afterRead := None
}.

Lemma MemStore_keys (s : MemStore) ks :
  (map_to_list s).*1 = ks -> NoDup ks /\ (forall k, k ∈ ks <-> is_Some (s !! k)).
Proof.
  intros <-. split; [apply NoDup_fst_map_to_list|]. intros k.
  rewrite list_elem_of_fmap. split.
  - intros ([k' d] & -> & Hin). apply elem_of_map_to_list in Hin. by exists d.
  - intros [d Hd]. exists (k, d). split; [done|]. by apply elem_of_map_to_list.
Qed.

#[export] Instance MemStore_laws : PersistenceLaws MemStore.
Proof.
  refine {| contents := fun s => s |}; simpl.
  - by intros k bufs s s' [= <-].
  - intros k s d.
    destruct (s !! k); intros H; inversion H; done.
  - by intros k s s' [= <-].
  - intros s ks [= H]. by apply MemStore_keys.
  - by intros s s' [= <-].
  - intros k s. by destruct (decide _).
Defined.

#[export] Instance MemStore_reliable : PersistenceReliable MemStore.
Proof.
  split; try done. intros k s. simpl. destruct (decide _) as [[d Hd]|]; [|done].
  intros _. by rewrite Hd.
Qed.

(** ** The network interface

    [N] is the state of the connections.  [putdatas socket buf0 buffers mask] is
    [WebSocket_putdatas]: it may leave the buffers masked, with the mask used;
    [getch] and [getdata] are the readers, which may stop short; [net_close] closes a
    socket; [time_now] is the clock, in microseconds. *)
Class Transport (N : Type) := {
  putdatas : Z -> list Z -> list (list Z) -> list Z -> N -> Z * list (list Z) * list Z * N;
  noPendingWrites : Z -> N -> bool * N;
  updateWrite : Z -> list Z -> list Z -> N -> bool * N;
  getch : Z -> N -> Z * Z * N;
  getdata : Z -> Z -> N -> option (list Z) * Z * N;
  framePos : N -> Z;
  framePosSeekTo : Z -> N -> N;
  net_close : Z -> N -> N;
  time_now : N -> Z * N
}.

(** What the network does to the buffers keeps their lengths. *)
Class TransportLaws (N : Type) `{Transport N} := {
  putdatas_lengths sk buf0 bufs mask n rc bufs' mask' n' :
    putdatas sk buf0 bufs mask n = (rc, bufs', mask', n') -> Forall2 (fun b b' => Zlen b' = Zlen b) bufs bufs'
}.

(** A scripted network: the results of the writes to come (none left means that
    they complete), the frames written, the bytes to be received, the clock. *)
Record ScriptNet := mkScript {
  sn_results : list Z;
  sn_written : list (list Z);
  sn_input : list Z;
  sn_pos : Z;
  sn_clock : Z
}.

#[export] Instance ScriptNet_transport : Transport ScriptNet := {
  putdatas _ buf0 bufs mask n :=
    let rc := match sn_results n with r :: _ => r | [] => TCPSOCKET_COMPLETE end in
    (rc, bufs, mask,
     mkScript (tl (sn_results n))
       (if rc =? TCPSOCKET_COMPLETE then sn_written n ++ [buf0 ++ concat bufs] else sn_written n)
       (sn_input n) (sn_pos n) (sn_clock n));
  noPendingWrites _ n := (true, n);
  updateWrite _ _ _ n := (true, n);
  getch _ n := match drop (Z.to_nat (sn_pos n)) (sn_input n) with
               | b :: _ => (TCPSOCKET_COMPLETE, b,
                            mkScript (sn_results n) (sn_written n) (sn_input n) (sn_pos n + 1) (sn_clock n))
               | [] => (TCPSOCKET_INTERRUPTED, 0, n)
               end;
  getdata _ bytes n :=
    let d := take (Z.to_nat bytes) (drop (Z.to_nat (sn_pos n)) (sn_input n)) in
    (Some d, Zlen d,
     mkScript (sn_results n) (sn_written n) (sn_input n) (sn_pos n + Zlen d) (sn_clock n));
  framePos n := sn_pos n;
  framePosSeekTo pos n := mkScript (sn_results n) (sn_written n) (sn_input n) pos (sn_clock n);
  net_close _ n := n;
  time_now n := (sn_clock n, n)
}.

#[export] Instance ScriptNet_laws : TransportLaws ScriptNet.
Proof.
  split. intros sk buf0 bufs mask n rc bufs' mask' n'. cbn [putdatas ScriptNet_transport].
  intros E. injection E as _ <- _ _. clear. induction bufs; by constructor.
Qed.

(** ** The state *)

(** The stored publications: the structures, and the list [state.publications]. *)
Record pubstore := mkPubs {
  ps_heap : gmap positive Publications;
  ps_list : AList.t positive
}.

(** [pending_write]: the socket and the publication to keep until it is written. *)
Record pending_write := mkPending {
  pw_socket : Z;
  pw_p : positive
}.

Section St.
Context {P N : Type}.

Record St := mkSt {
  st_client : Clients;
  st_phandle : P;
  st_pubs : pubstore;
  st_pending : list pending_write;
  st_net : N;
  st_msgs_sent : Z;
  st_msgs_received : Z
}.

Definition set_client (s : St) (c : Clients) : St :=
  mkSt c (st_phandle s) (st_pubs s) (st_pending s) (st_net s) (st_msgs_sent s) (st_msgs_received s).
Definition set_phandle (s : St) (p : P) : St :=
  mkSt (st_client s) p (st_pubs s) (st_pending s) (st_net s) (st_msgs_sent s) (st_msgs_received s).
Definition set_pubs (s : St) (p : pubstore) : St :=
  mkSt (st_client s) (st_phandle s) p (st_pending s) (st_net s) (st_msgs_sent s) (st_msgs_received s).
Definition set_pending (s : St) (l : list pending_write) : St :=
  mkSt (st_client s) (st_phandle s) (st_pubs s) l (st_net s) (st_msgs_sent s) (st_msgs_received s).
Definition set_network (s : St) (n : N) : St :=
  mkSt (st_client s) (st_phandle s) (st_pubs s) (st_pending s) n (st_msgs_sent s) (st_msgs_received s).
Definition set_counters (s : St) (sent received : Z) : St :=
  mkSt (st_client s) (st_phandle s) (st_pubs s) (st_pending s) (st_net s) sent received.

Definition modify_client (f : Clients -> Clients) : SM St () :=
  sm_modify (fun s => set_client s (f (st_client s))).

(** Calls of the interfaces. *)
Definition call_persistence (f : P -> Z * P) : SM St Z :=
  fun s => let '(rc, p) := f (st_phandle s) in Ok (rc, set_phandle s p).
Definition call_net {A} (f : N -> A * N) : SM St A :=
  fun s => let '(a, n) := f (st_net s) in Ok (a, set_network s n).

Definition MQTTTime_now `{Transport N} : SM St Z := call_net time_now.

(** [MQTTTime_difftime]: [timersub], with the microseconds of the difference between
    0 and 999999, and a conversion to milliseconds. *)
Definition MQTTTime_difftime (new old : Z) : Z :=
  let d := new - old in (d / 1000000) * 1000 + (d mod 1000000) / 1000.
End St.
Arguments St : clear implicits.

End State.
