(* ===== verification/Store.v ===== *)
(** * Stored publications and messages ([src/src/MQTTProtocolClient.c])

    [MQTTProtocol_storePublication], [MQTTProtocol_removePublication],
    [MQTTProtocol_createMessage] and [MQTTProtocol_emptyMessageList].  A
    [Publications] structure is a cell of a store, a pointer to one is its address;
    using a freed one is [Oob].  The buffers a publication owns are values: freeing
    them is setting the member to null.  The sizes handed to the lists only feed
    their statistics and are left out. *)

From S2P Require Import Prelude.
From S2P Require Import Properties.
From S2P Require Import LinkedList.
From S2P Require Import Clients.
From S2P Require Import State.
From Stdlib Require Import ZArith Lia List.
From stdpp Require Import base numbers list gmap fin_map_dom.

Open Scope Z_scope.

Module Store.
Import Properties Clients State.

Section Store.
Context {P N : Type} `{Transport N}.
Abbreviation M := (SM (St P N)).

(** ** Definitions *)

Definition same_pointer (p q : positive) : bool := bool_decide (p = q).

Definition modify_pubs (f : pubstore -> pubstore) : M () :=
  sm_modify (fun s => set_pubs s (f (st_pubs s))).

(** A pointer to a live structure. *)
Definition deref_pub (p : positive) : M Publications :=
  s ← sm_get;
  match ps_heap (st_pubs s) !! p with Some pb => mret pb | None => sm_oob end.

Definition write_pub (p : positive) (pb : Publications) : M () :=
  modify_pubs (fun ps => mkPubs (<[p := pb]> (ps_heap ps)) (ps_list ps)).

(** [MQTTProtocol_storePublication]: the topic and the payload move to the new
    structure, which is returned with what is left of the packet. *)
Definition MQTTProtocol_storePublication (publish : Publish) : M (positive * Publish) :=
  match pub_topic publish with
  | None => sm_oob
  | Some topic =>
      s ← sm_get;
      let p := fresh (dom (ps_heap (st_pubs s))) in
      _ ← write_pub p (mkPublications (Some topic) (pub_topiclen publish) (pub_payload publish)
                         (pub_payloadlen publish) 1 (pub_mask publish));
      _ ← modify_pubs (fun ps => mkPubs (ps_heap ps) (AList.append p (ps_list ps)));
      mret (p, mkPublish (pub_header publish) None (pub_topiclen publish) (pub_msgId publish) None
                 (pub_payloadlen publish) (pub_MQTTVersion publish) (pub_properties publish)
                 (pub_mask publish))
  end.

(** [ListRemove(&(state.publications), p)]: the structure is freed when it is found. *)
Definition ListRemove_publication (p : positive) : M () :=
  s ← sm_get;
  let '(found, l) := AList.unlink (same_pointer p) (ps_list (st_pubs s)) in
  match found with
  | Some q =>
      _ ← deref_pub q;
      modify_pubs (fun ps => mkPubs (delete q (ps_heap ps)) l)
  | None => mret ()
  end.

(** [MQTTProtocol_removePublication] *)
Definition MQTTProtocol_removePublication (p : option positive) : M () :=
  match p with
  | None => mret ()
  | Some p =>
      pb ← deref_pub p;
      let refcount := pbs_refcount pb - 1 in
      if refcount =? 0 then
        _ ← write_pub p (mkPublications None (pbs_topiclen pb) None (pbs_payloadlen pb) refcount
                           (pbs_mask pb));
        ListRemove_publication p
      else
        write_pub p (mkPublications (pbs_topic pb) (pbs_topiclen pb) (pbs_payload pb)
                       (pbs_payloadlen pb) refcount (pbs_mask pb))
  end.

(** [MQTTProtocol_createMessage]: [mm] is what the pointer it is given points to,
    if anything.  With [allocatePayload] the payload is copied, which the value
    already is. *)
Definition MQTTProtocol_createMessage (publish : Publish) (mm : option Messages)
    (qos retained allocatePayload : Z) : M (Messages * Publish) :=
  '(p, publish') ←
    match (mm ≫= m_publish) with
    | Some p =>
        pb ← deref_pub p;
        _ ← write_pub p (mkPublications (pbs_topic pb) (pbs_topiclen pb) (pbs_payload pb)
                           (pbs_payloadlen pb) (pbs_refcount pb + 1) (pbs_mask pb));
        mret (p, publish)
    | None => MQTTProtocol_storePublication publish
    end;
  props ← (if MQTTVERSION_5 <=? pub_MQTTVersion publish
           then sm_lift (MQTTProperties_copy (pub_properties publish))
           else mret MQTTProperties_initializer);
  now ← MQTTTime_now;
  mret (mkMessages qos retained (pub_msgId publish) (pub_MQTTVersion publish) props (Some p) now
          (if qos =? 2 then Some PUBREC else None), publish').

(** [MQTTProtocol_emptyMessageList] and [MQTTProtocol_freeMessageList]: the list
    left is empty. *)
Fixpoint removePublications (l : list Messages) : M () :=
  match l with
  | [] => mret ()
  | m :: l' => _ ← MQTTProtocol_removePublication (m_publish m); removePublications l'
  end.
Definition MQTTProtocol_emptyMessageList (msgList : AList.t Messages) : M (AList.t Messages) :=
  _ ← removePublications (AList.items msgList); mret AList.empty.
Definition MQTTProtocol_freeMessageList (msgList : AList.t Messages) : M () :=
  _ ← MQTTProtocol_emptyMessageList msgList; mret ().

(** ** The store invariant

    [refs] are the pointers to publications that messages and pending writes hold.
    Every stored publication is held exactly once, with reference count 1, and is in
    the list of publications exactly once. *)

Record store_inv (ps : pubstore) (refs : list positive) : Prop := {
  si_nodup : NoDup refs;
  si_list : AList.items (ps_list ps) ≡ₚ refs;
  si_dom : forall p, is_Some (ps_heap ps !! p) <-> p ∈ refs;
  si_one : forall p pb, ps_heap ps !! p = Some pb -> pbs_refcount pb = 1
}.

Lemma store_inv_perm ps refs refs' : refs ≡ₚ refs' -> store_inv ps refs -> store_inv ps refs'.
Proof.
  intros Hp [Hn Hl Hd H1]. split; [by rewrite <- Hp | by rewrite <- Hp | | done].
  intros p. by rewrite <- Hp.
Qed.

Lemma store_inv_empty : store_inv (mkPubs ∅ AList.empty) [].
Proof.
  split; simpl; [constructor | done | | done].
  intros p. rewrite lookup_empty. split; [by intros [? [=]] | by intros Hin%elem_of_nil].
Qed.

Lemma fresh_not_ref ps refs : store_inv ps refs -> fresh (dom (ps_heap ps)) ∉ refs.
Proof.
  intros Hi Hin. apply (si_dom _ _ Hi) in Hin. apply elem_of_dom in Hin.
  by apply is_fresh in Hin.
Qed.

(** Storing a publication: a new address, held by whoever gets it. *)
Lemma storePublication_spec publish topic s refs :
  pub_topic publish = Some topic -> store_inv (st_pubs s) refs ->
  exists p publish' ps',
    MQTTProtocol_storePublication publish s = Ok ((p, publish'), set_pubs s ps') /\
    p ∉ refs /\ store_inv ps' (p :: refs) /\
    ps_heap ps' = <[p := mkPublications (Some topic) (pub_topiclen publish) (pub_payload publish)
                           (pub_payloadlen publish) 1 (pub_mask publish)]> (ps_heap (st_pubs s)) /\
    pub_topic publish' = None /\ pub_payload publish' = None /\ pub_payloadlen publish' = pub_payloadlen publish.
Proof.
  intros Ht Hi. pose proof (fresh_not_ref _ _ Hi) as Hf.
  unfold MQTTProtocol_storePublication. rewrite Ht.
  do 3 eexists. split; [reflexivity|]. split; [exact Hf|].
  split; [|done]. destruct Hi as [Hn Hl Hd H1]. split; simpl.
  - by constructor.
  - rewrite Hl. by rewrite Permutation_app_comm.
  - intros p. rewrite lookup_insert_is_Some, Hd, elem_of_cons. naive_solver.
  - intros p pb. rewrite lookup_insert_Some. intros [[_ <-]|[_ Hp]]; [done|eauto].
Qed.

Lemma find_same_pointer p (l : AList.t positive) :
  p ∈ AList.items l ->
  exists i, fst (AList.find (same_pointer p) l) = Some i /\ AList.items l !! i = Some p.
Proof.
  intros Hin. pose proof (AList.find_spec (same_pointer p) l) as Hs.
  destruct (AList.find (same_pointer p) l) as [[i|] l']; simpl.
  - destruct Hs as [Hh _]. exists i. split; [done|].
    apply AList.holds_lookup in Hh as (q & Hq & Hb). apply bool_decide_eq_true in Hb as ->. done.
  - destruct Hs as [Hno _]. apply list_elem_of_lookup in Hin as [i Hi].
    specialize (Hno i). unfold AList.holds in Hno. rewrite Hi in Hno.
    by apply bool_decide_eq_false in Hno.
Qed.

(** Freeing a structure of the list, whatever has just been written to it. *)
Lemma ListRemove_gen p s h l pb refs :
  store_inv (mkPubs h l) (p :: refs) -> st_pubs s = mkPubs (<[p := pb]> h) l ->
  exists ps', ListRemove_publication p s = Ok ((), set_pubs s ps') /\ store_inv ps' refs /\
    ps_heap ps' = delete p h.
Proof.
  intros [Hn Hl Hd H1] Hs. simpl in *. unfold ListRemove_publication.
  assert (p ∈ AList.items l) as Hin by (rewrite Hl; left).
  destruct (find_same_pointer _ _ Hin) as (i & Hf & Hi).
  unfold AList.unlink, mbind, sm_bind, sm_get. rewrite Hs. simpl. rewrite Hf, Hi.
  unfold deref_pub, mbind, sm_bind, sm_get. rewrite Hs. simpl. rewrite lookup_insert_eq.
  apply NoDup_cons in Hn as [Hni Hn].
  eexists. split; [reflexivity|].
  simpl. rewrite Hs. simpl. rewrite delete_insert_eq. split; [|done]. split; simpl.
  - done.
  - apply (Permutation_cons_inv (a := p)). rewrite <- Hl. symmetry. by apply delete_Permutation.
  - intros q. rewrite lookup_delete_is_Some, Hd, elem_of_cons. split; [naive_solver|].
    intros Hq. split; [by intros -> | by right].
  - intros q qb. rewrite lookup_delete_Some. intros [_ Hq]. eauto.
Qed.

Lemma store_inv_live ps p refs :
  store_inv ps (p :: refs) -> exists pb, ps_heap ps !! p = Some pb /\ pbs_refcount pb = 1.
Proof.
  intros Hi. destruct (proj2 (si_dom _ _ Hi p)) as [pb Hp]; [left|].
  exists pb. split; [done|]. by apply (si_one _ _ Hi p).
Qed.

Lemma ListRemove_spec p s refs :
  store_inv (st_pubs s) (p :: refs) ->
  exists ps', ListRemove_publication p s = Ok ((), set_pubs s ps') /\ store_inv ps' refs /\
    ps_heap ps' = delete p (ps_heap (st_pubs s)).
Proof.
  intros Hi. destruct (store_inv_live _ _ _ Hi) as (pb & Hp & _).
  destruct (st_pubs s) as [h l] eqn:Es. apply (ListRemove_gen p s h l pb refs Hi).
  rewrite Es. simpl in Hp. by rewrite insert_id.
Qed.

Lemma deref_pub_run p s pb : ps_heap (st_pubs s) !! p = Some pb -> deref_pub p s = Ok (pb, s).
Proof. intros Hp. unfold deref_pub, mbind, sm_bind, sm_get. by rewrite Hp. Qed.

(** Dropping the one reference to a publication frees it. *)
Lemma removePublication_spec p s refs :
  store_inv (st_pubs s) (p :: refs) ->
  exists ps', MQTTProtocol_removePublication (Some p) s = Ok ((), set_pubs s ps') /\
    store_inv ps' refs /\ ps_heap ps' = delete p (ps_heap (st_pubs s)).
Proof.
  intros Hi. destruct (store_inv_live _ _ _ Hi) as (pb & Hp & H1).
  unfold MQTTProtocol_removePublication. rewrite (sm_bind_run _ _ _ _ _ (deref_pub_run _ _ _ Hp)).
  rewrite H1. simpl. unfold write_pub, modify_pubs, sm_modify, mbind, sm_bind.
  destruct (st_pubs s) as [h l] eqn:Es.
  destruct (ListRemove_gen p (set_pubs s (mkPubs (<[p := mkPublications None (pbs_topiclen pb) None
    (pbs_payloadlen pb) 0 (pbs_mask pb)]> h) l)) h l _ refs Hi eq_refl) as (ps' & Hr & Hs & Hh).
  exists ps'. split; [exact Hr | done].
Qed.

(** Emptying message lists frees what their messages hold, and nothing else. *)
Lemma removePublications_spec l s refs :
  store_inv (st_pubs s) (omap m_publish l ++ refs) ->
  exists ps', removePublications l s = Ok ((), set_pubs s ps') /\ store_inv ps' refs.
Proof.
  revert s. induction l as [|m l IH]; intros s Hi; simpl in *.
  { exists (st_pubs s). split; [by destruct s | done]. }
  destruct (m_publish m) as [p|].
  - destruct (removePublication_spec p s _ Hi) as (ps' & Hr & Hs & _).
    rewrite (sm_bind_run _ _ _ _ _ Hr). destruct (IH (set_pubs s ps') Hs) as (ps2 & Hr2 & Hs2).
    exists ps2. done.
  - apply (IH s Hi).
Qed.

(** A new message holds a new publication. *)
Lemma createMessage_spec publish topic qos retained alloc s refs props t n' :
  pub_topic publish = Some topic -> store_inv (st_pubs s) refs ->
  (if MQTTVERSION_5 <=? pub_MQTTVersion publish then MQTTProperties_copy (pub_properties publish)
   else Ok MQTTProperties_initializer) = Ok props ->
  time_now (st_net s) = (t, n') ->
  exists p publish' ps',
    MQTTProtocol_createMessage publish None qos retained alloc s
    = Ok ((mkMessages qos retained (pub_msgId publish) (pub_MQTTVersion publish) props (Some p) t
             (if qos =? 2 then Some PUBREC else None), publish'),
          set_network (set_pubs s ps') n') /\
    p ∉ refs /\ store_inv ps' (p :: refs) /\
    ps_heap ps' = <[p := mkPublications (Some topic) (pub_topiclen publish) (pub_payload publish)
                           (pub_payloadlen publish) 1 (pub_mask publish)]> (ps_heap (st_pubs s)) /\
    pub_payloadlen publish' = pub_payloadlen publish.
Proof.
  intros Ht Hi Hp Hn.
  destruct (storePublication_spec publish topic s refs Ht Hi)
    as (p & publish' & ps' & Hs & Hnin & Hi' & Hh & _ & _ & Hlen).
  exists p, publish', ps'. split; [|done].
  unfold MQTTProtocol_createMessage. cbn [mbind option_bind].
  rewrite (sm_bind_run _ _ _ _ _ Hs). cbv beta iota.
  assert ((if MQTTVERSION_5 <=? pub_MQTTVersion publish
           then sm_lift (MQTTProperties_copy (pub_properties publish))
           else mret MQTTProperties_initializer) (set_pubs s ps') = Ok (props, set_pubs s ps')) as Hc.
  { destruct (MQTTVERSION_5 <=? pub_MQTTVersion publish); [unfold sm_lift; by rewrite Hp|].
    by injection Hp as <-. }
  rewrite (sm_bind_run _ _ _ _ _ Hc). unfold MQTTTime_now, call_net, mbind, sm_bind. simpl.
  by rewrite Hn.
Qed.

End Store.
End Store.
