(* ===== verification/Persistence.v ===== *)
(** * Persistence of packets and queued messages ([src/src/MQTTPersistence.c])

    The keys and records the library stores through the persistence interface, their
    removal, and the restoration of in-flight messages and of the queue of received
    messages.  The interface itself is the class [PersistenceOps] of [State]. *)

From S2P Require Import Prelude.
From S2P Require Import Wire.
From S2P Require Import Properties.
From S2P Require Import LinkedList.
From S2P Require Import Clients.
From S2P Require Import Packet.
From S2P Require Import State.
From S2P Require Import Store.
From Stdlib Require Import ZArith Lia List Sorted.
From stdpp Require Import base numbers list gmap sorting.

Open Scope Z_scope.

Module Persistence.
Import Wire Properties Clients Packet State Store.

(** ** Keys *)

Definition PERSISTENCE_PUBLISH_SENT : list Z := [115; 45].
Definition PERSISTENCE_PUBREL : list Z := [115; 99; 45].
Definition PERSISTENCE_PUBLISH_RECEIVED : list Z := [114; 45].
Definition PERSISTENCE_V5_PUBLISH_SENT : list Z := [115; 53; 45].
Definition PERSISTENCE_V5_PUBREL : list Z := [115; 99; 53; 45].
Definition PERSISTENCE_V5_PUBLISH_RECEIVED : list Z := [114; 53; 45].
Definition PERSISTENCE_COMMAND_KEY : list Z := [99; 45].
Definition PERSISTENCE_V5_COMMAND_KEY : list Z := [99; 53; 45].
Definition PERSISTENCE_QUEUE_KEY : list Z := [113; 45].
Definition PERSISTENCE_V5_QUEUE_KEY : list Z := [113; 53; 45].
Definition PERSISTENCE_MAX_KEY_LENGTH : Z := 9.
Definition PERSISTENCE_SEQNO_LIMIT : Z := 1000000.
Definition MESSAGE_FILENAME_LENGTH : Z := 8.

(** The decimal digits of a number, as [%d] and [%u] print it. *)
Fixpoint digits (fuel : nat) (n : Z) (acc : list Z) : list Z :=
  match fuel with
  | O => acc
  | S fuel' =>
      if n <? 10 then (48 + n) :: acc
      else digits fuel' (n / 10) ((48 + n mod 10) :: acc)
  end.
Definition decimal (n : Z) : list Z :=
  if n <? 0 then 45 :: digits 20 (- n) [] else digits 20 n [].

(** [snprintf(key, keysize, "%s%d", stem, n)], [None] when the key does not fit. *)
Definition snprintf_key (keysize : Z) (stem : list Z) (n : Z) : option (list Z) :=
  let key := stem ++ decimal n in
  if keysize <=? Zlen key then None else Some key.

Definition keysize : Z := MESSAGE_FILENAME_LENGTH + 1.

(** [strncmp(key, stem, strlen(stem)) == 0] *)
Definition has_stem (stem key : list Z) : bool := bool_decide (take (List.length stem) key = stem).

Section Persistence.
Context {P N : Type} `{PersistenceOps P} `{Transport N}.

(** ** Storing and removing records *)

(** The key of a record [MQTTPersistence_putPacket] makes: sent when [scr] is 0,
    received when it is 1. *)
Definition put_key_id (htype scr MQTTVersion : Z) : list Z :=
  if scr =? 0 then
    if htype =? PUBLISH then
      (if MQTTVERSION_5 <=? MQTTVersion then PERSISTENCE_V5_PUBLISH_SENT else PERSISTENCE_PUBLISH_SENT)
    else if htype =? PUBREL then
      (if MQTTVERSION_5 <=? MQTTVersion then PERSISTENCE_V5_PUBREL else PERSISTENCE_PUBREL)
    else PERSISTENCE_PUBLISH_SENT
  else (if MQTTVERSION_5 <=? MQTTVersion then PERSISTENCE_V5_PUBLISH_RECEIVED
        else PERSISTENCE_PUBLISH_RECEIVED).

Definition call_beforeWrite (bufs : list (list Z)) : Z * list (list Z) :=
  match beforeWrite with None => (0, bufs) | Some f => f bufs end.

(** [MQTTPersistence_putPacket] *)
Definition MQTTPersistence_putPacket (client : Clients) (buf0 : list Z) (buffers : list (list Z))
    (htype msgId scr MQTTVersion : Z) (s : P) : Z * P :=
  if persistence client then
    match snprintf_key keysize (put_key_id htype scr MQTTVersion) msgId with
    | None => (MQTTCLIENT_PERSISTENCE_ERROR, s)
    | Some key =>
        let '(rc, bufs) := call_beforeWrite (buf0 :: buffers) in
        if rc =? 0 then pput key bufs s else (rc, s)
    end
  else (0, s).

(** The nested removals of [MQTTPersistence_remove]: a key that does not fit ends
    them with an error, otherwise the return codes are added up. *)
Fixpoint remove_chain (stems : list (list Z)) (msgId rc : Z) (s : P) : Z * P :=
  match stems with
  | [] => (rc, s)
  | stem :: stems' =>
      match snprintf_key keysize stem msgId with
      | None => (MQTTCLIENT_PERSISTENCE_ERROR, s)
      | Some key =>
          let '(r, s') := premove key s in
          remove_chain stems' msgId (rc + r) s'
      end
  end.

(** [MQTTPersistence_remove]; [qos] is not used. *)
Definition MQTTPersistence_remove (c : Clients) (type : list Z) (qos msgId : Z) (s : P) : Z * P :=
  if persistence c then
    if bool_decide (type = PERSISTENCE_PUBLISH_SENT) || bool_decide (type = PERSISTENCE_V5_PUBLISH_SENT)
    then remove_chain [PERSISTENCE_V5_PUBLISH_SENT; PERSISTENCE_V5_PUBREL; PERSISTENCE_PUBLISH_SENT;
                       PERSISTENCE_PUBREL] msgId 0 s
    else remove_chain [PERSISTENCE_V5_PUBLISH_RECEIVED; PERSISTENCE_PUBLISH_RECEIVED] msgId 0 s
  else (0, s).

(** [MQTTPersistence_clear] and [MQTTPersistence_close]. *)
Definition MQTTPersistence_clear (c : Clients) (s : P) : Z * P :=
  if persistence c then pclear s else (0, s).

(** ** Restoring packets *)

(** The length bytes: an [int] that overflows is undefined. *)
Fixpoint length_loop (buffer : list Z) (remaining_length multiplier fixed_header_length : Z)
    : res (Z * Z * list Z) :=
  match buffer with
  | [] => Oob
  | c :: buffer' =>
      let remaining_length := remaining_length + Z.land c 127 * multiplier in
      let multiplier := multiplier * 128 in
      if (2147483647 <? multiplier) || (2147483647 <? remaining_length) then Oob
      else if negb (Z.land c 128 =? 0) then
        length_loop buffer' remaining_length multiplier (fixed_header_length + 1)
      else Ok (remaining_length, fixed_header_length + 1, buffer')
  end.

(** [MQTTPersistence_restorePacket]: [None] is null. *)
Definition MQTTPersistence_restorePacket (MQTTVersion : Z) (buffer : list Z) : res (option packet) :=
  match buffer with
  | [] => Oob
  | header :: rest =>
      '(remaining_length, fixed_header_length, data) ← length_loop rest 0 1 1;
      if fixed_header_length + remaining_length =? Zlen buffer then
        let ptype := hdr_type header in
        if (CONNECT <=? ptype) && (ptype <=? DISCONNECT) then
          match new_packets ptype with
          | Some f => match f MQTTVersion header data with
                      | Ok p => Ok (Some p)
                      | Fail => Ok None
                      | Oob => Oob
                      end
          | None => Ok None
          end
        else Ok None
      else Ok None
  end.

(** [MQTTPersistence_insertInOrder]: before the first message with a greater id. *)
Definition MQTTPersistence_insertInOrder (list : AList.t Messages) (content : Messages)
    : AList.t Messages :=
  match AList.find_from (fun m => m_msgid content <? m_msgid m) 0 (AList.items list) with
  | Some i => AList.insert_before i content list
  | None => AList.append content list
  end.

(** [MQTTPersistence_wrapMsgID]: the loop looks for the widest gap between neighbours,
    [i] being the position of the current element. *)
Fixpoint wrap_loop (prev : Z) (ids : list Z) (i : nat) (gap : Z) (wrapel : option nat)
    : option nat :=
  match ids with
  | [] => wrapel
  | cur :: ids' =>
      let curgap := cur - prev in
      if gap <? curgap then wrap_loop cur ids' (S i) curgap (Some i)
      else wrap_loop cur ids' (S i) gap wrapel
  end.

Definition wrap_index (ids : list Z) : option nat :=
  match ids with
  | [] => None
  | firstMsgID :: rest =>
      let lastMsgID := List.last ids 0 in
      wrap_loop firstMsgID rest 1 (MAX_MSG_ID - lastMsgID + firstMsgID) None
  end.

(** The relinking makes the list start at [wrapel]; the cursor stays on its element. *)
Definition rotate {A} (k : nat) (l : AList.t A) : AList.t A :=
  let xs := AList.items l in
  AList.mk (drop k xs ++ take k xs)
    ((fun j => if Nat.leb k j then Nat.sub j k else Nat.add j (Nat.sub (List.length xs) k))
       <$> AList.current l).

Definition MQTTPersistence_wrapMsgID (client : Clients) : Clients :=
  match wrap_index (map m_msgid (AList.items (outboundMsgs client))) with
  | Some k => set_outbound client (rotate k (outboundMsgs client))
  | None => client
  end.

(** *** [MQTTPersistence_restorePackets] *)

Definition set_next (m : Messages) (t : Z) : Messages :=
  mkMessages (m_qos m) (m_retain m) (m_msgid m) (m_MQTTVersion m) (m_properties m) (m_publish m)
    (m_lastTouch m) (Some t).
Definition set_lastTouch (m : Messages) (t : Z) : Messages :=
  mkMessages (m_qos m) (m_retain m) (m_msgid m) (m_MQTTVersion m) (m_properties m) (m_publish m)
    t (m_nextMessageType m).
Definition set_version (p : Publish) (v : Z) : Publish :=
  mkPublish (pub_header p) (pub_topic p) (pub_topiclen p) (pub_msgId p) (pub_payload p)
    (pub_payloadlen p) v (pub_properties p) (pub_mask p).

Abbreviation M := (SM (St P N)).

Definition call_afterRead (buffer : list Z) : Z * list Z :=
  match afterRead with None => (0, buffer) | Some f => f buffer end.

(** A received PUBLISH: with MQTT 5 it has been delivered already, and only its
    identifier is kept. *)
Definition restore_received (publish : Publish) : M Z :=
  s ← sm_get;
  let c := st_client s in
  let publish := set_version publish (Clients.MQTTVersion c) in
  '(m, _) ← MQTTProtocol_createMessage publish None (hdr_qos (pub_header publish))
              (hdr_retain (pub_header publish)) 1;
  _ ← modify_client (fun c => set_inbound c (AList.append (set_next m PUBREL) (inboundMsgs c)));
  _ ← (if MQTTVERSION_5 <=? Clients.MQTTVersion c then
         match m_publish m with
         | Some p => pb ← deref_pub p;
                     write_pub p (mkPublications None (pbs_topiclen pb) None (pbs_payloadlen pb)
                                    (pbs_refcount pb) (pbs_mask pb))
         | None => sm_oob
         end
       else mret ());
  mret 0.

(** A sent PUBLISH: it awaits PUBCOMP if its PUBREL was stored too. *)
Definition restore_sent (publish : Publish) : M Z :=
  s ← sm_get;
  let v := Clients.MQTTVersion (st_client s) in
  let publish := set_version publish v in
  match snprintf_key keysize (if MQTTVERSION_5 <=? v then PERSISTENCE_V5_PUBREL else PERSISTENCE_PUBREL)
          (pub_msgId publish) with
  | None => mret MQTTCLIENT_PERSISTENCE_ERROR
  | Some key =>
      '(m, _) ← MQTTProtocol_createMessage publish None (hdr_qos (pub_header publish))
                  (hdr_retain (pub_header publish)) 1;
      let m := if pcontainskey key (st_phandle s) =? 0 then set_next m PUBCOMP else m in
      _ ← modify_client (fun c =>
            set_outbound c (MQTTPersistence_insertInOrder (outboundMsgs c) (set_lastTouch m 0)));
      mret 0
  end.

(** A sent PUBREL without its PUBLISH is removed. *)
Definition restore_pubrel (msgId : Z) (thiskey : list Z) : M Z :=
  s ← sm_get;
  match snprintf_key keysize (if MQTTVERSION_5 <=? Clients.MQTTVersion (st_client s)
                              then PERSISTENCE_V5_PUBLISH_SENT else PERSISTENCE_PUBLISH_SENT) msgId with
  | None => mret MQTTCLIENT_PERSISTENCE_ERROR
  | Some key =>
      if pcontainskey key (st_phandle s) =? 0 then mret 0
      else call_persistence (premove thiskey)
  end.

(** The version of the data and the stem, by the key. *)
Definition record_kind (key : list Z) : Z * list Z :=
  if has_stem PERSISTENCE_V5_PUBLISH_RECEIVED key then (MQTTVERSION_5, PERSISTENCE_PUBLISH_RECEIVED)
  else if has_stem PERSISTENCE_V5_PUBLISH_SENT key then (MQTTVERSION_5, PERSISTENCE_PUBLISH_SENT)
  else if has_stem PERSISTENCE_V5_PUBREL key then (MQTTVERSION_5, PERSISTENCE_PUBREL)
  else (MQTTVERSION_3_1_1, key).

(** A record restored according to its key; one that holds another kind of packet
    is used as what it is not. *)
Definition restore_packet (key cur_key : list Z) (pack : packet) : M Z :=
  if has_stem PERSISTENCE_PUBLISH_RECEIVED cur_key then
    match pack with Ppublish p => restore_received p | _ => sm_oob end
  else if has_stem PERSISTENCE_PUBLISH_SENT cur_key then
    match pack with Ppublish p => restore_sent p | _ => sm_oob end
  else if has_stem PERSISTENCE_PUBREL cur_key then
    match pack with
    | Pack a => match ack_msgId a with Some id => restore_pubrel id key | None => sm_oob end
    | _ => sm_oob
    end
  else mret 0.

(** One turn of the loop: the return code, and whether the function is left. *)
Definition restore_key (key : list Z) : M (Z * bool) :=
  if has_stem PERSISTENCE_COMMAND_KEY key || has_stem PERSISTENCE_V5_COMMAND_KEY key
     || has_stem PERSISTENCE_QUEUE_KEY key || has_stem PERSISTENCE_V5_QUEUE_KEY key
  then mret (0, false)
  else
    s ← sm_get;
    let '(rc, buffer) := pget key (st_phandle s) in
    if negb (rc =? 0) then mret (rc, false) else
    let '(rc, buffer) := call_afterRead buffer in
    if negb (rc =? 0) then mret (rc, false) else
    let '(version, cur_key) := record_kind key in
    if (version =? MQTTVERSION_5) && (Clients.MQTTVersion (st_client s) <? MQTTVERSION_5)
    then mret (MQTTCLIENT_PERSISTENCE_ERROR, true)
    else
      pack ← sm_lift (MQTTPersistence_restorePacket version buffer);
      rc ← match pack with
           | Some pack => restore_packet key cur_key pack
           | None => call_persistence (premove key)
           end;
      mret (rc, false).

Fixpoint restore_loop (keys : list (list Z)) : M (Z * bool) :=
  match keys with
  | [] => mret (0, false)
  | key :: keys' =>
      '(rc, leave) ← restore_key key;
      if leave || negb (rc =? 0) then mret (rc, leave) else restore_loop keys'
  end.

Definition restore_records : M (Z * bool) :=
  s ← sm_get;
  if persistence (st_client s) then
    let '(rc, keys) := pkeys (st_phandle s) in
    if rc =? 0 then restore_loop keys else mret (rc, false)
  else mret (0, false).

Definition MQTTPersistence_restorePackets : M Z :=
  '(rc, leave) ← restore_records;
  _ ← (if (leave : bool) then mret () else modify_client MQTTPersistence_wrapMsgID);
  mret rc.

(** [MQTTPersistence_initialize] *)
Definition MQTTPersistence_initialize (serverURI : list Z) : M Z :=
  s ← sm_get;
  if persistence (st_client s) then
    rc ← call_persistence (popen (clientID (st_client s)) serverURI);
    if rc =? 0 then MQTTPersistence_restorePackets else mret rc
  else mret 0.

(** ** The queue of received messages *)

(** An [int] in memory: four bytes, the lowest first. *)
Definition int_bytes (n : Z) : list Z :=
  let u := to_u32 n in
  [u mod 256; u / 256 mod 256; u / 65536 mod 256; u / 16777216 mod 256].
Definition read_int (l : list Z) : res (Z * list Z) :=
  match l with
  | a :: b :: c :: d :: rest => Ok (to_i32 (a + 256 * b + 65536 * c + 16777216 * d), rest)
  | _ => Oob
  end.

(** [MQTTPersistence_unpersistQueueEntry] *)
Definition MQTTPersistence_unpersistQueueEntry (client : Clients) (qe : qEntry) (s : P) : Z * P :=
  match snprintf_key (PERSISTENCE_MAX_KEY_LENGTH + 1)
          (if MQTTVERSION_5 <=? Clients.MQTTVersion client then PERSISTENCE_V5_QUEUE_KEY
           else PERSISTENCE_QUEUE_KEY) (q_seqno qe) with
  | None => (MQTTCLIENT_PERSISTENCE_ERROR, s)
  | Some key => premove key s
  end.

(** The buffers of a queue entry, without the properties. *)
Definition queue_buffers (qe : qEntry) : list (list Z) :=
  [int_bytes (Zlen (q_payload qe)); q_payload qe; int_bytes (q_qos qe); int_bytes (q_retained qe);
   int_bytes (q_dup qe); int_bytes (q_msgid qe); cstr (q_topicName qe) ++ [0]; int_bytes (q_topicLen qe)].

Definition set_seqno (qe : qEntry) (n : Z) : qEntry :=
  mkqEntry (q_payload qe) (q_qos qe) (q_retained qe) (q_dup qe) (q_msgid qe) (q_properties qe)
    (q_topicName qe) (q_topicLen qe) n.

(** [MQTTPersistence_persistQueueEntry]: with MQTT 5, [rc] is what
    [MQTTProperties_write] returns unless [beforeWrite] replaces it. *)
Definition MQTTPersistence_persistQueueEntry (aclient : Clients) (qe : qEntry) (s : P)
    : res (Z * Clients * qEntry * P) :=
  let seqno := to_u32 (qentry_seqno aclient + 1) in
  let seqno := if seqno =? PERSISTENCE_SEQNO_LIMIT then 0 else seqno in
  let aclient := set_queue aclient (messageQueue aclient) seqno in
  '(bufs, rc, stem) ←
    (if MQTTVERSION_5 <=? Clients.MQTTVersion aclient then
       '(out, rc) ← MQTTProperties_write (Some (q_properties qe));
       buf ← alloc_write (MQTTProperties_len (Some (q_properties qe))) out;
       Ok (queue_buffers qe ++ [buf], rc, PERSISTENCE_V5_QUEUE_KEY)
     else Ok (queue_buffers qe, 0, PERSISTENCE_QUEUE_KEY));
  match snprintf_key (PERSISTENCE_MAX_KEY_LENGTH + 1) stem seqno with
  | None => Ok (MQTTCLIENT_PERSISTENCE_ERROR, aclient, qe, s)
  | Some key =>
      let qe := set_seqno qe seqno in
      let '(rc, bufs) := match beforeWrite with None => (rc, bufs) | Some f => f bufs end in
      if rc =? 0 then let '(rc, s') := pput key bufs s in Ok (rc, aclient, qe, s')
      else Ok (rc, aclient, qe, s)
  end.

(** A C string in a buffer: up to its terminator, which must be there. *)
Fixpoint read_cstr (l : list Z) : res (list Z * list Z) :=
  match l with
  | [] => Oob
  | b :: l' => if b =? 0 then Ok ([], l') else '(s, rest) ← read_cstr l'; Ok (b :: s, rest)
  end.

(** [MQTTPersistence_restoreQueueEntry]: a payload length below zero is a request
    for too much memory, and [Fail] is null. *)
Definition MQTTPersistence_restoreQueueEntry (buffer : list Z) (MQTTVersion : Z) : res qEntry :=
  '(payloadlen, ptr) ← read_int buffer;
  if payloadlen <? 0 then Fail else
  if Zlen ptr <? payloadlen then Oob else
  let payload := take (Z.to_nat payloadlen) ptr in
  let ptr := drop (Z.to_nat payloadlen) ptr in
  '(qos, ptr) ← read_int ptr;
  '(retained, ptr) ← read_int ptr;
  '(dup, ptr) ← read_int ptr;
  '(msgid, ptr) ← read_int ptr;
  '(topicName, ptr) ← read_cstr ptr;
  '(topicLen, ptr) ← read_int ptr;
  props ← (if MQTTVERSION_5 <=? MQTTVersion then
             match MQTTProperties_read MQTTProperties_initializer ptr with
             | Ok (p, _) => Ok p
             | Fail => Ok MQTTProperties_initializer
             | Oob => Oob
             end
           else Ok MQTTProperties_initializer);
  Ok (mkqEntry payload qos retained dup msgid props topicName topicLen 0).

(** [MQTTPersistence_insertInSeqOrder] *)
Definition MQTTPersistence_insertInSeqOrder (list : AList.t qEntry) (qe : qEntry) : AList.t qEntry :=
  match AList.find_from (fun e => q_seqno qe <? q_seqno e) 0 (AList.items list) with
  | Some i => AList.insert_before i qe list
  | None => AList.append qe list
  end.

(** [atoi(strchr(key, '-') + 1)] of a key with digits after the dash. *)
Fixpoint atoi_digits (l : list Z) (acc : Z) : Z :=
  match l with
  | [] => acc
  | b :: l' => if (48 <=? b) && (b <=? 57) then atoi_digits l' (10 * acc + (b - 48)) else acc
  end.
Fixpoint after_dash (l : list Z) : list Z :=
  match l with
  | [] => []
  | b :: l' => if b =? 45 then l' else after_dash l'
  end.

(** [MQTTPersistence_restoreMessageQueue]: one key, and the loop. *)
Definition restore_queue_key (key : list Z) (c : Clients) (s : P) : res (Z * Clients) :=
  if negb (has_stem PERSISTENCE_QUEUE_KEY key) && negb (has_stem PERSISTENCE_V5_QUEUE_KEY key)
  then Ok (0, c)
  else
    let '(rc, buffer) := pget key s in
    if negb (rc =? 0) then Ok (rc, c) else
    let '(rc, buffer) := call_afterRead buffer in
    if negb (rc =? 0) then Ok (rc, c) else
    let v := if has_stem PERSISTENCE_V5_QUEUE_KEY key then MQTTVERSION_5 else MQTTVERSION_3_1_1 in
    match MQTTPersistence_restoreQueueEntry buffer v with
    | Ok qe =>
        let seqno := to_u32 (atoi_digits (after_dash key) 0) in
        Ok (0, set_queue c (MQTTPersistence_insertInSeqOrder (messageQueue c) (set_seqno qe seqno))
                 (Z.max (qentry_seqno c) seqno))
    | Fail => Ok (0, c)
    | Oob => Oob
    end.

Fixpoint restore_queue_loop (keys : list (list Z)) (c : Clients) (s : P) : res (Z * Clients) :=
  match keys with
  | [] => Ok (0, c)
  | key :: keys' =>
      '(rc, c') ← restore_queue_key key c s;
      if rc =? 0 then restore_queue_loop keys' c' s else Ok (rc, c')
  end.

Definition MQTTPersistence_restoreMessageQueue (c : Clients) (s : P) : res (Z * Clients) :=
  if persistence c then
    let '(rc, keys) := pkeys s in
    if rc =? 0 then restore_queue_loop keys c s else Ok (rc, c)
  else Ok (0, c).

End Persistence.

(** ** Keys: lemmas *)

Lemma digits_stop f n acc : n < 10 -> digits (S f) n acc = (48 + n) :: acc.
Proof. intros Hn. simpl. by destruct (Z.ltb_spec n 10); [|lia]. Qed.

Lemma digits_step f n acc : 10 <= n -> digits (S f) n acc = digits f (n / 10) ((48 + n mod 10) :: acc).
Proof. intros Hn. simpl. by destruct (Z.ltb_spec n 10); [lia|]. Qed.

(** The number of digits of a message identifier or a sequence number. *)
Lemma decimal_length n :
  0 <= n < 1000000 ->
  Zlen (decimal n) = if n <? 10 then 1 else if n <? 100 then 2 else if n <? 1000 then 3
                     else if n <? 10000 then 4 else if n <? 100000 then 5 else 6.
Proof.
  intros Hn. unfold decimal. destruct (Z.ltb_spec n 0); [lia|].
  destruct (Z.ltb_spec n 10); [by rewrite digits_stop|rewrite digits_step by lia].
  destruct (Z.ltb_spec n 100); [rewrite digits_stop by dlia; done | rewrite digits_step by dlia].
  destruct (Z.ltb_spec n 1000); [rewrite digits_stop by dlia; done | rewrite digits_step by dlia].
  destruct (Z.ltb_spec n 10000); [rewrite digits_stop by dlia; done | rewrite digits_step by dlia].
  destruct (Z.ltb_spec n 100000); [rewrite digits_stop by dlia; done | rewrite digits_step by dlia].
  rewrite digits_stop by dlia. done.
Qed.

Definition key_of (stem : list Z) (n : Z) : list Z := stem ++ decimal n.

(** Which keys of message identifiers fit: all but the MQTT 5 PUBREL ones of five
    digits. *)
Lemma snprintf_key_spec stem n :
  0 <= n < 65536 ->
  snprintf_key keysize stem n =
    if (Zlen stem <=? 3) || ((Zlen stem =? 4) && (n <? 10000)) then Some (key_of stem n)
    else if Zlen (key_of stem n) <? 9 then Some (key_of stem n) else None.
Proof.
  intros Hn. unfold snprintf_key, key_of. change keysize with 9.
  assert (Zlen (decimal n) <= 5 /\ (n < 10000 -> Zlen (decimal n) <= 4)) as [H5 H4].
  { rewrite decimal_length by lia. split; zcases; lia. }
  rewrite Zlen_app.
  destruct (Z.leb_spec (Zlen stem) 3); simpl.
  { destruct (Z.leb_spec 9 (Zlen stem + Zlen (decimal n))); [lia|done]. }
  destruct (Z.eqb_spec (Zlen stem) 4); destruct (Z.ltb_spec n 10000); simpl;
    destruct (Z.leb_spec 9 (Zlen stem + Zlen (decimal n)));
    destruct (Z.ltb_spec (Zlen stem + Zlen (decimal n)) 9); try done; lia.
Qed.

Lemma key_fits stem n : Zlen stem <= 3 -> 0 <= n < 65536 -> snprintf_key keysize stem n = Some (key_of stem n).
Proof. intros Hs Hn. rewrite snprintf_key_spec by done. by destruct (Z.leb_spec (Zlen stem) 3); [|lia]. Qed.

Lemma pubrel_key n : 0 <= n < 65536 ->
  snprintf_key keysize PERSISTENCE_V5_PUBREL n
  = if n <? 10000 then Some (key_of PERSISTENCE_V5_PUBREL n) else None.
Proof.
  intros Hn. rewrite snprintf_key_spec by done. change (Zlen PERSISTENCE_V5_PUBREL) with 4. simpl.
  destruct (Z.ltb_spec n 10000); [done|].
  assert (Zlen (decimal n) = 5) as E by (rewrite decimal_length by lia; zcases; lia).
  unfold key_of. rewrite Zlen_app, E. done.
Qed.

(** The four keys of a sent message differ. *)
Lemma sent_keys_differ n :
  0 <= n ->
  NoDup [key_of PERSISTENCE_V5_PUBLISH_SENT n; key_of PERSISTENCE_V5_PUBREL n;
         key_of PERSISTENCE_PUBLISH_SENT n; key_of PERSISTENCE_PUBREL n].
Proof.
  intros _. unfold key_of, PERSISTENCE_V5_PUBLISH_SENT, PERSISTENCE_V5_PUBREL,
    PERSISTENCE_PUBLISH_SENT, PERSISTENCE_PUBREL.
  repeat (apply NoDup_cons; split; [rewrite ?elem_of_cons, ?elem_of_nil|]); try by apply NoDup_nil.
  - intros [E|[E|[E|[]]]]; discriminate E.
  - intros [E|[E|[]]]; discriminate E.
  - intros [E|[]]; discriminate E.
  - intros [].
Qed.

(** ** Records in a store that follows the documented interface *)
Section Records.
Context {P : Type} {PO : PersistenceOps P} {PL : PersistenceLaws P} {PR : PersistenceReliable P}.

Lemma put_reliable k bufs s :
  exists s', pput k bufs s = (0, s') /\ contents s' = <[k := concat bufs]> (contents s).
Proof.
  destruct (pput k bufs s) as [rc s'] eqn:E. pose proof (pput_rc k bufs s) as Hr.
  rewrite E in Hr. simpl in Hr. subst rc. exists s'. split; [done|]. by apply pput_ok.
Qed.

Lemma remove_reliable k s :
  exists s', premove k s = (0, s') /\ contents s' = delete k (contents s).
Proof.
  destruct (premove k s) as [rc s'] eqn:E. pose proof (premove_rc k s) as Hr.
  rewrite E in Hr. simpl in Hr. subst rc. exists s'. split; [done|]. by apply premove_ok.
Qed.

(** The removals go on while the keys fit. *)
Lemma remove_chain_fits stems keys n rc s :
  Forall2 (fun stem key => snprintf_key keysize stem n = Some key) stems keys ->
  exists s', remove_chain stems n rc s = (rc, s') /\
    contents s' = foldl (fun m k => delete k m) (contents s) keys.
Proof.
  intros Hf. revert s. induction Hf as [|stem key stems keys Hk _ IH]; intros s; [by exists s|].
  cbn [remove_chain foldl]. rewrite Hk. destruct (remove_reliable key s) as (s1 & -> & Hs1).
  destruct (IH s1) as (s2 & H2 & Hc). exists s2. rewrite Z.add_0_r, <- Hs1. done.
Qed.

(** What is left of a sent message after [MQTTPersistence_remove]. *)
Lemma remove_sent_spec c type qos n s :
  persistence c = true -> type = PERSISTENCE_PUBLISH_SENT \/ type = PERSISTENCE_V5_PUBLISH_SENT ->
  0 <= n < 65536 ->
  exists rc s', MQTTPersistence_remove c type qos n s = (rc, s') /\
    rc = (if n <? 10000 then 0 else MQTTCLIENT_PERSISTENCE_ERROR) /\
    contents s' =
      if n <? 10000 then
        delete (key_of PERSISTENCE_PUBREL n) (delete (key_of PERSISTENCE_PUBLISH_SENT n)
          (delete (key_of PERSISTENCE_V5_PUBREL n) (delete (key_of PERSISTENCE_V5_PUBLISH_SENT n) (contents s))))
      else delete (key_of PERSISTENCE_V5_PUBLISH_SENT n) (contents s).
Proof.
  intros Hp Ht Hn. unfold MQTTPersistence_remove. rewrite Hp.
  assert (bool_decide (type = PERSISTENCE_PUBLISH_SENT) || bool_decide (type = PERSISTENCE_V5_PUBLISH_SENT)
          = true) as -> by (destruct Ht as [-> | ->]; reflexivity).
  destruct (Z.ltb_spec n 10000) as [Hlt|Hge].
  - destruct (remove_chain_fits
      [PERSISTENCE_V5_PUBLISH_SENT; PERSISTENCE_V5_PUBREL; PERSISTENCE_PUBLISH_SENT; PERSISTENCE_PUBREL]
      [key_of PERSISTENCE_V5_PUBLISH_SENT n; key_of PERSISTENCE_V5_PUBREL n;
       key_of PERSISTENCE_PUBLISH_SENT n; key_of PERSISTENCE_PUBREL n] n 0 s) as (s' & H1 & H2).
    + apply Forall2_cons. split; [by apply key_fits|].
      apply Forall2_cons. split; [rewrite pubrel_key by done; by destruct (Z.ltb_spec n 10000); [|lia]|].
      apply Forall2_cons. split; [by apply key_fits|].
      apply Forall2_cons. split; [by apply key_fits | done].
    + eauto.
  - cbn [remove_chain]. rewrite key_fits by done.
    destruct (remove_reliable (key_of PERSISTENCE_V5_PUBLISH_SENT n) s) as (s1 & -> & Hs1).
    rewrite pubrel_key by done. destruct (Z.ltb_spec n 10000); [lia|]. eauto.
Qed.

(** The key under which a sent PUBLISH is stored. *)
Definition publish_key (v n : Z) : list Z :=
  key_of (if MQTTVERSION_5 <=? v then PERSISTENCE_V5_PUBLISH_SENT else PERSISTENCE_PUBLISH_SENT) n.

(** The record of a sent PUBLISH.  It is stored, fixed header and buffers in order,
    under the key of its identifier; [MQTTPersistence_remove], which the
    acknowledgements call, returns 0 exactly for identifiers below 10000, and
    otherwise gives up at the MQTT 5 PUBREL key, which no longer fits: an MQTT 5
    record has been removed by then, a record of an earlier version never is. *)
Theorem sent_record_lifecycle (c : Clients) (buf0 : list Z) (bufs : list (list Z)) (n v qos : Z) (s : P) :
  persistence c = true -> 1 <= n <= 65535 ->
  exists s1 rc2 s2, let key := publish_key v n in
    MQTTPersistence_putPacket c buf0 bufs PUBLISH n 0 v s = (0, s1) /\
    contents s1 = <[key := buf0 ++ concat bufs]> (contents s) /\
    MQTTPersistence_remove c PERSISTENCE_PUBLISH_SENT qos n s1 = (rc2, s2) /\
    (rc2 = 0 <-> n < 10000) /\
    contents s2 !! key = (if (MQTTVERSION_5 <=? v) || (n <? 10000) then None
                          else Some (buf0 ++ concat bufs)).
Proof.
  intros Hp Hn. set (key := publish_key v n).
  destruct (put_reliable key (buf0 :: bufs) s) as (s1 & Hput & Hc1).
  destruct (remove_sent_spec c PERSISTENCE_PUBLISH_SENT qos n s1) as (rc & s2 & Hrm & -> & Hc2);
    [done | by left | lia|].
  exists s1. do 2 eexists. split; [|split; [exact Hc1|split; [exact Hrm|split]]].
  - unfold MQTTPersistence_putPacket, call_beforeWrite. rewrite Hp, no_beforeWrite.
    assert (snprintf_key keysize (put_key_id PUBLISH 0 v) n = Some key) as ->; [|exact Hput].
    unfold key, publish_key, put_key_id. simpl. destruct (MQTTVERSION_5 <=? v); apply key_fits; (done || lia).
  - unfold MQTTCLIENT_PERSISTENCE_ERROR. destruct (Z.ltb_spec n 10000); lia.
  - rewrite Hc2, Hc1. unfold key, publish_key. clear.
    destruct (MQTTVERSION_5 <=? v), (n <? 10000); cbn [orb]; rewrite ?lookup_delete_None; try tauto.
    rewrite lookup_delete_ne, lookup_insert_eq; done.
Qed.

End Records.

Definition sample_client : Clients := set_flags Packet.sample_client 1 1 0.
Definition persisting (c : Clients) : Clients :=
  mkClients (clientID c) (username c) (password c) (cleansession c) (cleanstart c)
    (connected c) (good c) (ping_outstanding c) (net c) (msgID c) (keepAliveInterval c)
    (retryInterval c) (will c) (inboundMsgs c) (outboundMsgs c) (messageQueue c)
    (qentry_seqno c) true (Clients.MQTTVersion c) (connect_state c) (maxInflightMessages c)
    (sessionExpiry c) (socks5State c).

Lemma sent_record_lifecycle_witness :
  let c := persisting sample_client in
  persistence c = true /\ 1 <= 12345 <= 65535 /\
  exists s1 rc2 s2, let key := publish_key 4 12345 in
    MQTTPersistence_putPacket c [50; 6] [[0; 1; 97]; [1; 2]] PUBLISH 12345 0 4 (∅ : MemStore) = (0, s1) /\
    contents s1 = <[key := [50; 6] ++ concat [[0; 1; 97]; [1; 2]]]> (contents (∅ : MemStore)) /\
    MQTTPersistence_remove c PERSISTENCE_PUBLISH_SENT 1 12345 s1 = (rc2, s2) /\
    (rc2 = 0 <-> 12345 < 10000) /\
    contents s2 !! key = (if (MQTTVERSION_5 <=? 4) || (12345 <? 10000) then None
                          else Some ([50; 6] ++ concat [[0; 1; 97]; [1; 2]])).
Proof.
  intros c. split; [reflexivity|]. split; [lia|].
  apply (sent_record_lifecycle c [50; 6] [[0; 1; 97]; [1; 2]] 12345 4 1 (∅ : MemStore));
    [reflexivity | lia].
Defined.

(** ** The order of restored messages *)

(** The insertion on the sequence of messages. *)
Fixpoint ins (m : Messages) (l : list Messages) : list Messages :=
  match l with
  | [] => [m]
  | x :: l' => if m_msgid m <? m_msgid x then m :: x :: l' else x :: ins m l'
  end.

Lemma find_from_S {A} (f : A -> bool) i l : AList.find_from f (S i) l = S <$> AList.find_from f i l.
Proof. revert i. induction l as [|x l IH]; intros i; simpl; [done|]. by destruct (f x). Qed.

Lemma insertInOrder_items l m :
  AList.items (MQTTPersistence_insertInOrder l m) = ins m (AList.items l).
Proof.
  unfold MQTTPersistence_insertInOrder. destruct l as [xs c]. simpl.
  assert (match AList.find_from (fun x => m_msgid m <? m_msgid x) 0 xs with
          | Some i => take i xs ++ m :: drop i xs | None => xs ++ [m] end = ins m xs) as <-.
  { induction xs as [|x xs IH]; simpl; [done|]. destruct (m_msgid m <? m_msgid x); [done|].
    rewrite find_from_S. rewrite <- IH. by destruct (AList.find_from _ 0 xs). }
  by destruct (AList.find_from _ 0 xs).
Qed.

Definition id_lt (x y : Messages) : Prop := m_msgid x < m_msgid y.

Lemma ins_perm m l : ins m l ≡ₚ m :: l.
Proof.
  induction l as [|x l IH]; simpl; [done|]. destruct (_ <? _); [done|]. rewrite IH. apply perm_swap.
Qed.

Lemma ins_sorted m l :
  StronglySorted id_lt l -> m_msgid m ∉ map m_msgid l -> StronglySorted id_lt (ins m l).
Proof.
  intros Hs Hn. induction Hs as [|x l Hs IH Hx]; simpl; [by repeat constructor|].
  simpl in Hn. apply not_elem_of_cons in Hn as [Hne Hn].
  destruct (Z.ltb_spec (m_msgid m) (m_msgid x)).
  - constructor; [by constructor|]. constructor; [done|].
    eapply Forall_impl; [exact Hx|]. unfold id_lt. intros y Hy. lia.
  - constructor; [by apply IH|]. rewrite ins_perm. constructor; [unfold id_lt; lia | done].
Qed.

(** Restoring messages in any order gives the list sorted by identifier. *)
Lemma insert_all_sorted ms l :
  NoDup (map m_msgid (ms ++ AList.items l)) -> StronglySorted id_lt (AList.items l) ->
  let l' := foldl MQTTPersistence_insertInOrder l ms in
  StronglySorted id_lt (AList.items l') /\ AList.items l' ≡ₚ ms ++ AList.items l /\
  (AList.current l = None -> AList.current l' = None).
Proof.
  revert l. induction ms as [|m ms IH]; intros l Hn Hs; simpl; [done|].
  simpl in Hn. apply NoDup_cons in Hn as [Hm Hn].
  rewrite map_app, elem_of_app in Hm.
  destruct (IH (MQTTPersistence_insertInOrder l m)) as (H1 & H2 & H3).
  - rewrite insertInOrder_items, ins_perm. rewrite map_app. simpl.
    rewrite <- Permutation_middle, <- map_app. apply NoDup_cons.
    split; [rewrite map_app, elem_of_app; exact Hm | exact Hn].
  - rewrite insertInOrder_items. apply ins_sorted; [done|]. tauto.
  - split; [done|]. split; [rewrite H2, insertInOrder_items, ins_perm; symmetry; apply Permutation_middle|].
    intros Hc. apply H3. unfold MQTTPersistence_insertInOrder.
    destruct (AList.find_from _ _ _); simpl; by rewrite Hc.
Qed.

(** The differences between neighbours. *)
Definition steps (l : list Z) : list Z := zip_with (fun x y => y - x) l (tail l).

Lemma wrap_loop_small prev l i gap w :
  Forall (fun d => d <= gap) (steps (prev :: l)) -> wrap_loop prev l i gap w = w.
Proof.
  revert prev i. induction l as [|x l IH]; intros prev i Hf; [done|].
  cbn [wrap_loop]. simpl in Hf. apply Forall_cons in Hf as [Hx Hf].
  destruct (Z.ltb_spec gap (x - prev)); [lia|]. apply IH. exact Hf.
Qed.

Lemma wrap_loop_widest prev xs y ys i gap w :
  let g := y - List.last (prev :: xs) 0 in
  gap < g -> Forall (fun d => d < g) (steps (prev :: xs)) -> Forall (fun d => d < g) (steps (y :: ys)) ->
  wrap_loop prev (xs ++ y :: ys) i gap w = Some (i + List.length xs)%nat.
Proof.
  revert prev i gap w. induction xs as [|x xs IH]; intros prev i gap w g Hg Hxs Hys.
  - simpl in g. cbn [app wrap_loop]. fold g. destruct (Z.ltb_spec gap g); [|lia].
    rewrite wrap_loop_small, Nat.add_0_r; [done|].
    eapply Forall_impl; [exact Hys|]. simpl. lia.
  - cbn [app wrap_loop]. simpl in Hxs. apply Forall_cons in Hxs as [Hx Hxs].
    assert (List.last (prev :: x :: xs) 0 = List.last (x :: xs) 0) as E by done.
    unfold g in *. rewrite E in *.
    destruct (Z.ltb_spec gap (x - prev)); rewrite IH by (done || lia); f_equal; simpl; lia.
Qed.

Lemma last_app_r {A} (l k : list A) d : k <> [] -> List.last (l ++ k) d = List.last k d.
Proof.
  intros Hk. induction l as [|x l IH]; [done|]. simpl.
  destruct (l ++ k) eqn:E; [apply app_nil in E; tauto | exact IH].
Qed.

(** Restored messages are retried in the order they were sent.  The persistence
    implementation returns the keys in any order; [MQTTPersistence_insertInOrder]
    sorts the messages by identifier, and [MQTTPersistence_wrapMsgID] finds where the
    identifiers had wrapped.  When the messages were sent in the order [a] and then,
    after the wrap, [b], and the unused range of identifiers before the first of them
    is wider than every other gap, the list the client ends with is exactly
    [a] followed by [b], whatever the order of the keys. *)
Theorem restore_order (c : Clients) (a b keys_order : list Messages) (m0 : Messages) (a' : list Messages) :
  let gap := match b with
             | [] => MAX_MSG_ID - List.last (map m_msgid a) 0 + m_msgid m0
             | _ => m_msgid m0 - List.last (map m_msgid b) 0
             end in
  a = m0 :: a' -> keys_order ≡ₚ a ++ b -> StronglySorted id_lt (b ++ a) ->
  Forall (fun d => d < gap) (steps (map m_msgid a)) ->
  Forall (fun d => d < gap) (steps (map m_msgid b)) ->
  match b with
  | [] => True
  | b0 :: _ => MAX_MSG_ID - List.last (map m_msgid a) 0 + m_msgid b0 < gap
  end ->
  let l := foldl MQTTPersistence_insertInOrder AList.empty keys_order in
  AList.items (outboundMsgs (MQTTPersistence_wrapMsgID (set_outbound c l))) = a ++ b.
Proof.
  intros gap Ha Hp Hs Hga Hgb Hgw l.
  assert (NoDup (map m_msgid (b ++ a))) as Hnd.
  { clear -Hs. induction Hs as [|x l Hs IH Hx]; simpl; constructor; [|done].
    intros Hin. apply list_elem_of_fmap in Hin as (y & E & Hy).
    rewrite Forall_forall in Hx. specialize (Hx y Hy). unfold id_lt in Hx. lia. }
  destruct (insert_all_sorted keys_order AList.empty) as (Hls & Hlp & _); simpl.
  { rewrite app_nil_r, Hp, (Permutation_app_comm a b). done. }
  { constructor. }
  fold l in Hls, Hlp. clearbody l. simpl in Hlp.
  rewrite app_nil_r in Hlp. rewrite Hp in Hlp. rewrite (Permutation_app_comm a b) in Hlp.
  assert (AList.items l = b ++ a) as Hl.
  { apply (StronglySorted_unique_strong id_lt); [|done..]. unfold id_lt. lia. }
  unfold MQTTPersistence_wrapMsgID. simpl. rewrite Hl.
  destruct b as [|b0 b]; subst a; simpl app.
  - assert (wrap_index (map m_msgid (m0 :: a')) = None) as ->; [|by simpl; rewrite Hl, app_nil_r].
    simpl. apply wrap_loop_small. eapply Forall_impl; [exact Hga|]. unfold gap. simpl. lia.
  - assert (wrap_index (map m_msgid (b0 :: b ++ m0 :: a')) = Some (S (List.length b))) as ->.
    + cbn [wrap_index map]. rewrite map_app. cbn [map].
      assert (List.last (m_msgid b0 :: map m_msgid b ++ m_msgid m0 :: map m_msgid a') 0
              = List.last (map m_msgid (m0 :: a')) 0) as ->.
      { change (m_msgid b0 :: map m_msgid b ++ m_msgid m0 :: map m_msgid a')
          with ((m_msgid b0 :: map m_msgid b) ++ map m_msgid (m0 :: a')).
        rewrite last_app_r; done. }
      rewrite wrap_loop_widest; [by rewrite length_map | exact Hgw | exact Hgb | exact Hga].
    + unfold rotate. simpl. rewrite Hl. simpl.
      change (b ++ m0 :: a') with (b ++ (m0 :: a')).
      by rewrite drop_app_exact, take_app_exact.
Qed.

Definition sample_message (id : Z) : Messages :=
  mkMessages 1 0 id 4 MQTTProperties_initializer None 0 None.

Lemma restore_order_witness :
  let a := map sample_message [65534; 65535] in
  let b := map sample_message [1; 3] in
  let keys_order := map sample_message [1; 65535; 3; 65534] in
  keys_order ≡ₚ a ++ b /\ StronglySorted id_lt (b ++ a) /\
  let l := foldl MQTTPersistence_insertInOrder AList.empty keys_order in
  AList.items (outboundMsgs (MQTTPersistence_wrapMsgID (set_outbound sample_client l))) = a ++ b.
Proof.
  intros a b keys_order.
  assert (keys_order ≡ₚ a ++ b) as Hp.
  { apply (bool_decide_eq_true_1 _). vm_compute. reflexivity. }
  assert (StronglySorted id_lt (b ++ a)) as Hs.
  { repeat (apply SSorted_cons || apply SSorted_nil || constructor); vm_compute; reflexivity. }
  split; [exact Hp|]. split; [exact Hs|].
  apply (restore_order sample_client a b keys_order (sample_message 65534) [sample_message 65535]
           eq_refl Hp Hs);
    repeat (apply List.Forall_cons || apply List.Forall_nil); vm_compute; reflexivity.
Defined.

(** ** Queue entries *)

Lemma read_int_bytes n rest :
  -2147483648 <= n < 2147483648 -> read_int (int_bytes n ++ rest) = Ok (n, rest).
Proof.
  intros Hn. unfold int_bytes. cbn [app read_int]. f_equal. f_equal.
  unfold to_u32. set (u := n mod 4294967296).
  assert (0 <= u < 4294967296) by (unfold u; dlia).
  replace (u mod 256 + 256 * (u / 256 mod 256) + 65536 * (u / 65536 mod 256)
           + 16777216 * (u / 16777216 mod 256)) with u by dlia.
  unfold to_i32, u. rewrite Zmod_mod. fold u.
  destruct (Z.ltb_spec u 2147483648); unfold u in *; dlia.
Qed.

Lemma read_cstr_spec s rest :
  Forall (fun b => b <> 0) s -> read_cstr ((s ++ [0]) ++ rest) = Ok (s, rest).
Proof.
  induction 1 as [|b s Hb _ IH]; [done|]. simpl.
  destruct (Z.eqb_spec b 0); [done|]. by rewrite IH.
Qed.

Definition int_ok (n : Z) : Prop := -2147483648 <= n < 2147483648.

(** A message as it is queued. *)
Record qEntry_ok (qe : qEntry) (v : Z) : Prop := {
  qok_payload : Zlen (q_payload qe) < 2147483648;
  qok_ints : int_ok (q_qos qe) /\ int_ok (q_retained qe) /\ int_ok (q_dup qe) /\ int_ok (q_msgid qe)
             /\ int_ok (q_topicLen qe);
  qok_topic : Forall (fun b => b <> 0) (q_topicName qe);
  qok_props : MQTTVERSION_5 <= v -> props_arg_ok (Some (q_properties qe))
}.

(** The record of a queue entry: what [MQTTPersistence_persistQueueEntry] assembles. *)
Definition queue_record (qe : qEntry) (v : Z) : res (list Z) :=
  '(out, _) ← (if MQTTVERSION_5 <=? v then MQTTProperties_write (Some (q_properties qe)) else Ok ([], 0));
  Ok (concat (queue_buffers qe) ++ out).

(** Reading a record back, with the entry it gives. *)
Lemma queue_record_read (qe : qEntry) (v : Z) :
  qEntry_ok qe v ->
  exists out props, queue_record qe v = Ok (concat (queue_buffers qe) ++ out) /\
    (v < MQTTVERSION_5 -> out = [] /\ props = MQTTProperties_initializer) /\
    entries props = (if MQTTVERSION_5 <=? v then entries (q_properties qe) else []) /\
    forall v', (MQTTVERSION_5 <=? v') = (MQTTVERSION_5 <=? v) ->
    MQTTPersistence_restoreQueueEntry (concat (queue_buffers qe) ++ out) v' =
      Ok (mkqEntry (q_payload qe) (q_qos qe) (q_retained qe) (q_dup qe) (q_msgid qe) props
            (q_topicName qe) (q_topicLen qe) 0).
Proof.
  intros [Hpl (Hq & Hr & Hd & Hm & Ht) Htn Hp]. unfold int_ok in *.
  destruct (properties_part v (Some (q_properties qe)) Hp) as (out & rc & Hw & _ & _ & Hrd).
  destruct (Hrd []) as (p & Hrp & He & _). rewrite app_nil_r in Hrp.
  unfold queue_record. rewrite Hw. cbn [mbind res_bind]. exists out, p. split; [reflexivity|].
  split; [intros Hv; destruct (Z.leb_spec MQTTVERSION_5 v); [lia|]; by injection Hrp as <- ->|].
  split; [exact He|]. intros v' Hv'.
  unfold queue_buffers. cbn [concat]. rewrite app_nil_r. rewrite <- !app_assoc.
  rewrite (app_assoc (cstr _) [0]). rewrite cstr_id by done.
  pose proof (Zlen_nonneg (q_payload qe)).
  unfold MQTTPersistence_restoreQueueEntry. rewrite read_int_bytes by lia. cbn [mbind res_bind].
  destruct (Z.ltb_spec (Zlen (q_payload qe)) 0); [lia|].
  match goal with |- context [Zlen (q_payload qe ++ ?k)] => set (rest := k) end.
  destruct (Z.ltb_spec (Zlen (q_payload qe ++ rest)) (Zlen (q_payload qe))); [zlen|].
  rewrite Zlen_to_nat, take_app_exact, drop_app_exact. unfold rest.
  rewrite read_int_bytes by lia. cbn [mbind res_bind].
  rewrite read_int_bytes by lia. cbn [mbind res_bind].
  rewrite read_int_bytes by lia. cbn [mbind res_bind].
  rewrite read_int_bytes by lia. cbn [mbind res_bind].
  rewrite read_cstr_spec by done. cbn [mbind res_bind].
  rewrite read_int_bytes by lia. cbn [mbind res_bind].
  rewrite Hv'. destruct (MQTTVERSION_5 <=? v).
  - by rewrite Hrp.
  - by injection Hrp as <- _.
Qed.

(** Before MQTT 5 the record is the buffers. *)
Lemma queue_record_v3 qe v :
  qEntry_ok qe v -> v < MQTTVERSION_5 ->
  exists qe', MQTTPersistence_restoreQueueEntry (concat (queue_buffers qe)) MQTTVERSION_3_1_1 = Ok qe' /\
    qe' = mkqEntry (q_payload qe) (q_qos qe) (q_retained qe) (q_dup qe) (q_msgid qe)
            MQTTProperties_initializer (q_topicName qe) (q_topicLen qe) 0.
Proof.
  intros Hq Hv. destruct (queue_record_read qe v Hq) as (out & props & _ & Ho & _ & Hr).
  destruct (Ho Hv) as [-> ->]. rewrite app_nil_r in Hr. eexists. split; [|reflexivity].
  apply Hr. by destruct (Z.leb_spec MQTTVERSION_5 v); [lia|].
Qed.

(** The record of a queued message is read back as the message: payload, QoS,
    RETAIN, DUP, identifier, topic with its length, and in MQTT 5 the properties. *)
Theorem queue_entry_roundtrip (qe : qEntry) (v : Z) :
  qEntry_ok qe v ->
  exists record qe', queue_record qe v = Ok record /\
    MQTTPersistence_restoreQueueEntry record v = Ok qe' /\
    q_payload qe' = q_payload qe /\ q_qos qe' = q_qos qe /\ q_retained qe' = q_retained qe /\
    q_dup qe' = q_dup qe /\ q_msgid qe' = q_msgid qe /\ q_topicName qe' = q_topicName qe /\
    q_topicLen qe' = q_topicLen qe /\
    entries (q_properties qe') = (if MQTTVERSION_5 <=? v then entries (q_properties qe) else []).
Proof.
  intros H. destruct (queue_record_read qe v H) as (out & props & Hr & _ & He & Hq).
  do 2 eexists. split; [exact Hr|]. split; [by apply Hq | done].
Qed.

Definition sample_entry (props : MQTTProperties) : qEntry :=
  mkqEntry [1; 2; 3] 1 0 0 77 props [97; 47; 98] 3 0.

Lemma sample_entry_ok v : qEntry_ok (sample_entry sample_props) v.
Proof.
  split; [reflexivity | unfold int_ok; simpl; lia | repeat constructor; done |].
  intros _. split; [exact sample_props_inv | repeat constructor; vm_compute; reflexivity].
Qed.

Lemma queue_entry_roundtrip_witness :
  let qe := sample_entry sample_props in
  qEntry_ok qe 5 /\
  exists record qe', queue_record qe 5 = Ok record /\
    MQTTPersistence_restoreQueueEntry record 5 = Ok qe' /\
    q_payload qe' = q_payload qe /\ q_qos qe' = q_qos qe /\ q_retained qe' = q_retained qe /\
    q_dup qe' = q_dup qe /\ q_msgid qe' = q_msgid qe /\ q_topicName qe' = q_topicName qe /\
    q_topicLen qe' = q_topicLen qe /\
    entries (q_properties qe') = entries (q_properties qe).
Proof. exact (conj (sample_entry_ok 5) (queue_entry_roundtrip _ 5 (sample_entry_ok 5))). Defined.

(** Printing and reading a sequence number. *)
Lemma atoi_digits_cons d l a : 0 <= d < 10 -> atoi_digits ((48 + d) :: l) a = atoi_digits l (10 * a + d).
Proof.
  intros Hd. simpl. destruct (Z.leb_spec 48 (48 + d)); [|lia]. destruct (Z.leb_spec (48 + d) 57); [|lia].
  simpl. f_equal. lia.
Qed.

Lemma atoi_digits_spec f n acc :
  0 <= n < 10 ^ Z.of_nat f -> atoi_digits (digits f n acc) 0 = atoi_digits acc n.
Proof.
  revert n acc. induction f as [|f IH]; intros n acc Hn.
  - simpl in *. by replace n with 0 by lia.
  - destruct (Z.ltb_spec n 10).
    + rewrite digits_stop, atoi_digits_cons by lia. done.
    + rewrite digits_step by lia. rewrite Nat2Z.inj_succ, Z.pow_succ_r in Hn by lia.
      rewrite IH, atoi_digits_cons by dlia. f_equal. dlia.
Qed.

Lemma atoi_decimal n : 0 <= n < 1000000 -> atoi_digits (decimal n) 0 = n.
Proof.
  intros Hn. unfold decimal. destruct (Z.ltb_spec n 0); [lia|]. by rewrite atoi_digits_spec by lia.
Qed.

Section Queue.
Context {P : Type} {PO : PersistenceOps P} {PL : PersistenceLaws P} {PR : PersistenceReliable P}.

(** The number given to the next entry. *)
Definition next_seqno (c : Clients) : Z :=
  if qentry_seqno c + 1 =? PERSISTENCE_SEQNO_LIMIT then 0 else qentry_seqno c + 1.

Lemma next_seqno_range c :
  0 <= qentry_seqno c < PERSISTENCE_SEQNO_LIMIT -> 0 <= next_seqno c < PERSISTENCE_SEQNO_LIMIT.
Proof. unfold next_seqno, PERSISTENCE_SEQNO_LIMIT. intros H. zcases; lia. Qed.

Lemma queue_key stem n :
  Zlen stem <= 3 -> 0 <= n < PERSISTENCE_SEQNO_LIMIT ->
  snprintf_key (PERSISTENCE_MAX_KEY_LENGTH + 1) stem n = Some (key_of stem n).
Proof.
  unfold PERSISTENCE_SEQNO_LIMIT. intros Hs Hn. unfold snprintf_key, key_of.
  change (PERSISTENCE_MAX_KEY_LENGTH + 1) with 10. rewrite Zlen_app.
  assert (Zlen (decimal n) <= 6) by (rewrite decimal_length by lia; zcases; lia).
  destruct (Z.leb_spec 10 (Zlen stem + Zlen (decimal n))); [lia|done].
Qed.

Lemma to_u32_seqno c :
  0 <= qentry_seqno c < PERSISTENCE_SEQNO_LIMIT -> to_u32 (qentry_seqno c + 1) = qentry_seqno c + 1.
Proof. unfold PERSISTENCE_SEQNO_LIMIT. intros H. apply to_u32_id. unfold u32_ok. lia. Qed.

Lemma pget_reliable k s d : contents s !! k = Some d -> pget k s = (0, d).
Proof.
  intros Hd. assert (pcontainskey k s = 0) as Hc by (apply pcontainskey_ok; by exists d).
  pose proof (pget_rc k s Hc) as Hr. destruct (pget k s) as [rc d'] eqn:E. simpl in Hr. subst rc.
  apply pget_ok in E. congruence.
Qed.

(** A message queued for an MQTT 3 application survives a restart:
    [MQTTPersistence_persistQueueEntry] numbers it with the next sequence number (below
    10^6, so that the key fits) and stores it under that key, restoring that key puts
    it back in the queue at the place of its number, and
    [MQTTPersistence_unpersistQueueEntry] removes exactly that key. *)
Theorem queued_message_survives (c restarted : Clients) (qe : qEntry) (s : P) :
  qEntry_ok qe (Clients.MQTTVersion c) -> Clients.MQTTVersion c < MQTTVERSION_5 ->
  0 <= qentry_seqno c < PERSISTENCE_SEQNO_LIMIT ->
  exists c' qe' s', let n := next_seqno c in let key := key_of PERSISTENCE_QUEUE_KEY n in
    MQTTPersistence_persistQueueEntry c qe s = Ok (0, c', qe', s') /\
    qentry_seqno c' = n /\ q_seqno qe' = n /\
    contents s' = <[key := concat (queue_buffers qe)]> (contents s) /\
    restore_queue_key key restarted s' =
      Ok (0, set_queue restarted
               (MQTTPersistence_insertInSeqOrder (messageQueue restarted)
                  (mkqEntry (q_payload qe) (q_qos qe) (q_retained qe) (q_dup qe) (q_msgid qe)
                     MQTTProperties_initializer (q_topicName qe) (q_topicLen qe) n))
               (Z.max (qentry_seqno restarted) n)) /\
    contents (snd (MQTTPersistence_unpersistQueueEntry c' qe' s')) = delete key (contents s).
Proof.
  intros Hqe Hv Hn. set (n := next_seqno c). set (key := key_of PERSISTENCE_QUEUE_KEY n).
  pose proof (next_seqno_range c Hn) as Hnr. fold n in Hnr.
  pose proof (queue_key PERSISTENCE_QUEUE_KEY n ltac:(done) Hnr) as Hkey. fold key in Hkey.
  destruct (put_reliable key (queue_buffers qe) s) as (s' & Hput & Hc).
  do 3 eexists. cbn zeta. split; [|split; [|split; [|split; [exact Hc|split]]]].
  - unfold MQTTPersistence_persistQueueEntry. rewrite to_u32_seqno by done. fold (next_seqno c). fold n.
    destruct (Z.leb_spec MQTTVERSION_5 (Clients.MQTTVersion (set_queue c (messageQueue c) n)));
      [simpl in *; lia|]. cbn [mbind res_bind]. rewrite Hkey, no_beforeWrite. cbn [Z.eqb].
    rewrite Hput. reflexivity.
  - reflexivity.
  - reflexivity.
  - fold n. fold key. unfold restore_queue_key.
    rewrite (pget_reliable key s' (concat (queue_buffers qe)))
      by (rewrite Hc; apply lookup_insert_eq).
    destruct (queue_record_v3 qe _ Hqe Hv) as (qe2 & Hr & Hqe2).
    unfold call_afterRead. rewrite no_afterRead. cbn [negb Z.eqb].
    assert (has_stem PERSISTENCE_QUEUE_KEY key = true) as -> by reflexivity.
    assert (has_stem PERSISTENCE_V5_QUEUE_KEY key = false) as -> by reflexivity.
    cbn [negb andb]. rewrite Hr. subst qe2.
    assert (after_dash key = decimal n) as -> by reflexivity.
    unfold PERSISTENCE_SEQNO_LIMIT in Hnr.
    rewrite atoi_decimal, to_u32_id by (unfold u32_ok; lia). reflexivity.
  - unfold MQTTPersistence_unpersistQueueEntry. cbn [q_seqno set_seqno Clients.MQTTVersion set_queue].
    destruct (Z.leb_spec MQTTVERSION_5 (Clients.MQTTVersion c)); [lia|]. rewrite Hkey.
    destruct (remove_reliable key s') as (s2 & -> & Hs2). simpl. rewrite Hs2, Hc.
    apply delete_insert_eq.
Qed.

End Queue.

Definition v3_client (restart : bool) : Clients :=
  set_queue (persisting (mkClients [99] None None 0 0 1 1 0 (mkNet 5 0 0 0) 0 60 20 None AList.empty
    AList.empty AList.empty 0 false 4 0 10 0 0)) AList.empty (if restart then 0 else 999999).

Lemma queued_message_survives_witness :
  let qe := sample_entry sample_props in
  let c := v3_client false in
  let restarted := v3_client true in
  qEntry_ok qe 4 /\
  exists c' qe' s', let n := next_seqno c in let key := key_of PERSISTENCE_QUEUE_KEY n in
    MQTTPersistence_persistQueueEntry c qe (∅ : MemStore) = Ok (0, c', qe', s') /\
    qentry_seqno c' = n /\ q_seqno qe' = n /\
    contents s' = <[key := concat (queue_buffers qe)]> (contents (∅ : MemStore)) /\
    restore_queue_key key restarted s' =
      Ok (0, set_queue restarted
               (MQTTPersistence_insertInSeqOrder (messageQueue restarted)
                  (mkqEntry (q_payload qe) (q_qos qe) (q_retained qe) (q_dup qe) (q_msgid qe)
                     MQTTProperties_initializer (q_topicName qe) (q_topicLen qe) n))
               (Z.max (qentry_seqno restarted) n)) /\
    contents (snd (MQTTPersistence_unpersistQueueEntry c' qe' s')) = delete key (contents (∅ : MemStore)).
Proof.
  intros qe c restarted. split; [exact (sample_entry_ok 4)|].
  apply (queued_message_survives c restarted qe (∅ : MemStore) (sample_entry_ok 4)).
  - reflexivity.
  - vm_compute. split; [discriminate | reflexivity].
Defined.

(** A message queued for an MQTT 5 application is not persisted: unless a
    [beforeWrite] callback is set, the number of bytes [MQTTProperties_write] returns
    is taken for an error code, and the store is left as it was. *)
Theorem persistQueueEntry_v5_lost {P} `{PersistenceOps P} (c : Clients) (qe : qEntry) (s : P) :
  qEntry_ok qe (Clients.MQTTVersion c) -> MQTTVERSION_5 <= Clients.MQTTVersion c ->
  0 <= qentry_seqno c < PERSISTENCE_SEQNO_LIMIT -> beforeWrite = None ->
  exists rc c' qe', MQTTPersistence_persistQueueEntry c qe s = Ok (rc, c', qe', s) /\ 0 < rc.
Proof.
  intros [_ _ _ Hp] Hv Hn Hb. destruct (Hp Hv) as [Hi _].
  destruct (MQTTProperties_write_ok _ Hi) as (body & _ & Hw & Hl & _).
  pose proof (props_inv_length _ Hi) as Hlen. pose proof (VBIlen_range (Properties.length (q_properties qe))).
  pose proof (props_size_nonneg _ (inv_ok _ Hi)).
  unfold MQTTPersistence_persistQueueEntry. rewrite to_u32_seqno by done. fold (next_seqno c).
  destruct (Z.leb_spec MQTTVERSION_5 (Clients.MQTTVersion (set_queue c (messageQueue c) (next_seqno c))));
    [|simpl in *; lia].
  rewrite Hw. cbn [mbind res_bind]. rewrite alloc_write_ok.
  - cbn [mbind res_bind]. rewrite queue_key by (done || by apply next_seqno_range). rewrite Hb.
    destruct (Z.eqb_spec (1 + props_size (entries (q_properties qe))) 0); [lia|].
    do 3 eexists. split; [reflexivity|lia].
  - rewrite Zlen_app, VBIlen_encode by done. simpl. lia.
  - simpl. lia.
Qed.

Lemma persistQueueEntry_v5_lost_witness :
  let qe := sample_entry sample_props in
  let c := persisting sample_client in
  qEntry_ok qe 5 /\
  exists rc c' qe', MQTTPersistence_persistQueueEntry c qe (∅ : MemStore) = Ok (rc, c', qe', ∅) /\ 0 < rc.
Proof.
  intros qe c. split; [exact (sample_entry_ok 5)|].
  apply (persistQueueEntry_v5_lost c qe (∅ : MemStore) (sample_entry_ok 5)).
  - vm_compute. discriminate.
  - vm_compute. split; [discriminate | reflexivity].
  - reflexivity.
Defined.

(** ** Restoring what was sent *)

Lemma length_loop_encode f m v h n rest :
  (1 <= f <= 4)%nat -> m = 128 ^ (4 - Z.of_nat f) -> 0 <= v -> 0 <= n < 128 ^ Z.of_nat f ->
  v + n * m <= 2147483647 ->
  forall g, (f <= g)%nat ->
  length_loop (encode_loop g n ++ rest) v m h = Ok (v + n * m, h + Zlen (encode_loop g n), rest).
Proof.
  revert m v h n. induction f as [|f IH]; intros m v h n Hf Hm Hv Hn Hb g Hg; [lia|].
  destruct g as [|g]; [lia|].
  assert (0 <= n mod 128 < 128 /\ n = 128 * (n / 128) + n mod 128) as [Hd Hdiv] by dlia.
  assert (1 <= m /\ m * 128 = 128 ^ (4 - Z.of_nat f) /\ m * 128 <= 268435456) as (Hm1 & Hm2 & Hm3).
  { subst m. replace (4 - Z.of_nat f) with (Z.succ (4 - Z.of_nat (S f))) by lia.
    rewrite Z.pow_succ_r by lia.
    assert (128 ^ (4 - Z.of_nat (S f)) <= 128 ^ 3) by (apply Z.pow_le_mono_r; lia).
    assert (128 ^ 0 <= 128 ^ (4 - Z.of_nat (S f))) by (apply Z.pow_le_mono_r; lia). lia. }
  assert (0 <= n mod 128 * m) by (apply Z.mul_nonneg_nonneg; lia).
  assert (0 <= n / 128 * (m * 128)) by (apply Z.mul_nonneg_nonneg; dlia).
  assert (v + n mod 128 * m + n / 128 * (m * 128) = v + n * m) as Hsum by nia.
  rewrite encode_loop_S.
  destruct (Z.ltb_spec 0 (n / 128)) as [Hq|Hq]; cbn [app length_loop].
  - destruct (cont_digit (n mod 128) Hd) as (-> & E2 & _).
    destruct (Z.ltb_spec 2147483647 (m * 128)); [lia|].
    destruct (Z.ltb_spec 2147483647 (v + n mod 128 * m)); [lia|]. cbn [orb].
    destruct (Z.eqb_spec (Z.land (Z.lor (n mod 128) 128) 128) 0); [done|]. cbn [negb].
    rewrite Nat2Z.inj_succ, Z.pow_succ_r in Hn by lia.
    assert (f <> 0)%nat by (intros ->; change (128 ^ Z.of_nat 0) with 1 in Hn; dlia).
    assert (n / 128 < 128 ^ Z.of_nat f) by (apply Z.div_lt_upper_bound; lia).
    rewrite IH; [|lia|lia|lia|lia|lia|lia].
    rewrite Hsum, Zlen_cons. f_equal. f_equal. f_equal. lia.
  - destruct (last_digit (n mod 128) Hd) as (-> & ->).
    destruct (Z.ltb_spec 2147483647 (m * 128)); [lia|].
    destruct (Z.ltb_spec 2147483647 (v + n mod 128 * m)); [lia|]. cbn [orb negb Z.eqb].
    replace (n / 128) with 0 in * by dlia. rewrite Zlen_cons, Zlen_nil.
    f_equal. f_equal. f_equal; lia.
Qed.

(** The record of a packet: header byte, length and buffers. *)
Definition frame (header : Z) (bufs : list (list Z)) : list Z :=
  header :: MQTTPacket_encode (Zlen (concat bufs)) ++ concat bufs.

Lemma restorePacket_frame v header bufs f p :
  new_packets (hdr_type header) = Some f -> CONNECT <= hdr_type header <= DISCONNECT ->
  Zlen (concat bufs) < 268435456 -> f v header (concat bufs) = Ok p ->
  MQTTPersistence_restorePacket v (frame header bufs) = Ok (Some p).
Proof.
  intros Hf Ht Hl Hp. unfold MQTTPersistence_restorePacket, frame. cbn beta iota.
  pose proof (Zlen_nonneg (concat bufs)).
  assert (MQTTPacket_encode (Zlen (concat bufs)) = encode_loop 10 (Zlen (concat bufs))) as ->
    by (unfold MQTTPacket_encode, to_u64; by rewrite Z.mod_small by lia).
  rewrite (length_loop_encode 4) by (reflexivity || lia). cbn [mbind res_bind].
  rewrite Z.mul_1_r, Z.add_0_l.
  destruct (Z.eqb_spec (1 + Zlen (encode_loop 10 (Zlen (concat bufs))) + Zlen (concat bufs))
              (Zlen (header :: encode_loop 10 (Zlen (concat bufs)) ++ concat bufs))) as [_|Hne].
  - destruct (Z.leb_spec CONNECT (hdr_type header)); [|lia].
    destruct (Z.leb_spec (hdr_type header) DISCONNECT); [|lia]. cbn [andb]. by rewrite Hf, Hp.
  - exfalso. apply Hne. rewrite Zlen_cons, Zlen_app. lia.
Qed.

(** The key of the PUBREL that goes with a sent PUBLISH. *)
Definition pubrel_key_of (v n : Z) : list Z :=
  key_of (if MQTTVERSION_5 <=? v then PERSISTENCE_V5_PUBREL else PERSISTENCE_PUBREL) n.

Section Restore.
Context {P N : Type} {PO : PersistenceOps P} {PL : PersistenceLaws P} {PR : PersistenceReliable P}.
Context {NT : Transport N}.

(** Reading the record of a sent PUBLISH reaches [restore_sent]. *)
Lemma restore_key_sent v n d pack (s : St P N) :
  v = MQTTVERSION_3_1_1 \/ v = MQTTVERSION_5 -> Clients.MQTTVersion (st_client s) = v ->
  contents (st_phandle s) !! publish_key v n = Some d ->
  MQTTPersistence_restorePacket v d = Ok (Some (Ppublish pack)) ->
  restore_key (publish_key v n) s = (restore_sent pack ≫= fun rc => mret (rc, false)) s.
Proof.
  intros Hv Hc Hd Hr. unfold restore_key.
  assert (has_stem PERSISTENCE_COMMAND_KEY (publish_key v n)
          || has_stem PERSISTENCE_V5_COMMAND_KEY (publish_key v n)
          || has_stem PERSISTENCE_QUEUE_KEY (publish_key v n)
          || has_stem PERSISTENCE_V5_QUEUE_KEY (publish_key v n) = false) as ->
    by (destruct Hv as [-> | ->]; reflexivity).
  rewrite (sm_bind_run sm_get _ s s s) by done.
  rewrite (pget_reliable _ _ _ Hd). cbn [negb Z.eqb].
  unfold call_afterRead. rewrite no_afterRead. cbn [negb Z.eqb].
  assert (exists cur, record_kind (publish_key v n) = (v, cur) /\
            forall s' : St P N, restore_packet (publish_key v n) cur (Ppublish pack) s' = restore_sent pack s')
    as (cur & -> & Hcur).
  { destruct Hv as [-> | ->]; eexists; split; reflexivity. }
  assert ((v =? MQTTVERSION_5) && (Clients.MQTTVersion (st_client s) <? MQTTVERSION_5) = false) as ->
    by (rewrite Hc; destruct Hv as [-> | ->]; reflexivity).
  unfold mbind, sm_bind, sm_lift. rewrite Hr. cbn. by rewrite Hcur.
Qed.

(** C18. What was sent is what is retried after a restart.  The record of a QoS 1 or 2
    PUBLISH of MQTT 3.1.1 or 5 is restored, by a client of that version, as a message with
    the topic, payload, QoS, RETAIN, identifier and properties of the publication, in the
    place of its identifier in the outbound list; a QoS 2 one waits for PUBCOMP if its
    PUBREL had been stored, and for PUBREC otherwise.  Its publication is a new one, held
    by the message alone.  This is for a packet of less than 2^28 bytes, a topic of
    less than 2^16 without NUL, properties that are well formed with four byte integers
    below 2^31 ([publish_ok]), and in MQTT 5 an identifier below 10000, for the key of a
    greater one is not read back. *)
Theorem sent_message_restored (pack : Publish) (topic payload : list Z) (qos retained header : Z)
    (bufs : list (list Z)) (s : St P N) (refs : list positive) (t : Z) (n' : N) :
  let v := pub_MQTTVersion pack in
  let id := pub_msgId pack in
  publish_ok pack topic payload -> v = MQTTVERSION_3_1_1 \/ v = MQTTVERSION_5 ->
  1 <= qos <= 2 -> 0 <= retained < 2 -> (v = MQTTVERSION_5 -> id < 10000) ->
  publish_buffers pack 0 qos retained = Ok (header, bufs) -> Zlen (concat bufs) < 268435456 ->
  Clients.MQTTVersion (st_client s) = v ->
  contents (st_phandle s) !! publish_key v id = Some (frame header bufs) ->
  store_inv (st_pubs s) refs -> time_now (st_net s) = (t, n') ->
  exists p props ps',
    restore_key (publish_key v id) s =
      Ok ((0, false),
          set_client (set_network (set_pubs s ps') n')
            (set_outbound (st_client s)
               (MQTTPersistence_insertInOrder (outboundMsgs (st_client s))
                  (mkMessages qos retained id v props (Some p) 0
                     (if pcontainskey (pubrel_key_of v id) (st_phandle s) =? 0 then Some PUBCOMP
                      else if qos =? 2 then Some PUBREC else None))))) /\
    entries props = (if MQTTVERSION_5 <=? v then entries (pub_properties pack) else []) /\
    ps_heap ps' !! p = Some (mkPublications (Some topic) (Zlen topic) (Some payload) (Zlen payload) 1 [0; 0; 0; 0]) /\
    store_inv ps' (p :: refs).
Proof.
  intros v id Hok Hv Hq Hr Hid Hb Hlen Hc Hcont Hi Ht.
  destruct (publish_sent_parses pack topic payload 0 qos retained Hok) as (bufs' & props & Hb' & Hp & He & Hpi);
    [lia | lia | lia |].
  rewrite Hb in Hb'. injection Hb' as Hh Hbb. subst header bufs'.
  set (header := mk_header PUBLISH 0 qos retained) in *.
  destruct (mk_header_fields PUBLISH 0 qos retained) as (_ & Hft & _ & Hfq & Hfr); [done|lia|lia|lia|].
  fold header in Hft, Hfq, Hfr. fold v in Hp, He. fold id in Hp.
  destruct (Z.ltb_spec 0 qos); [|lia].
  assert (MQTTPersistence_restorePacket v (frame header bufs)
          = Ok (Some (Ppublish (mkPublish header (Some topic) (Zlen topic) id (Some payload)
                                  (Zlen payload) v props [0; 0; 0; 0])))) as Hres.
  { eapply restorePacket_frame; [rewrite Hft; reflexivity | rewrite Hft; done | done |].
    cbv beta. by rewrite Hp. }
  set (packr := mkPublish _ _ _ _ _ _ _ _ _) in Hres.
  rewrite (restore_key_sent v id _ packr s Hv Hc Hcont Hres).
  destruct (MQTTProperties_copy_ok props (props_inv_typed _ Hpi)) as (props' & Hcopy & He' & _).
  assert (exists props2, (if MQTTVERSION_5 <=? pub_MQTTVersion packr then MQTTProperties_copy (pub_properties packr)
           else Ok MQTTProperties_initializer) = Ok props2 /\
          entries props2 = (if MQTTVERSION_5 <=? v then entries (pub_properties pack) else []))
    as (props2 & Hcp & He2).
  { simpl. destruct (MQTTVERSION_5 <=? v); [exists props'; by rewrite He'|].
    by exists MQTTProperties_initializer. }
  destruct (createMessage_spec packr topic qos retained 1 s refs props2 t n' eq_refl Hi Hcp Ht)
    as (p & publish' & ps' & Hcm & Hnin & Hi' & Hheap & _).
  exists p, props2, ps'. split; [|split; [exact He2|split; [|exact Hi']]].
  2:{ rewrite Hheap. apply lookup_insert_eq. }
  assert (u16_ok id) as Hu by apply Hok.
  assert (snprintf_key keysize (if MQTTVERSION_5 <=? v then PERSISTENCE_V5_PUBREL else PERSISTENCE_PUBREL) id
          = Some (pubrel_key_of v id)) as Hkey.
  { unfold pubrel_key_of, u16_ok in *. destruct Hv as [E|E]; rewrite E.
    - apply key_fits; [done|lia].
    - rewrite pubrel_key by lia. specialize (Hid E). simpl. destruct (Z.ltb_spec id 10000); [done|lia]. }
  erewrite sm_bind_run; [reflexivity|].
  unfold restore_sent. rewrite (sm_bind_run sm_get _ s s s) by done. rewrite Hc.
  change (set_version packr v) with packr. change (pub_msgId packr) with id. rewrite Hkey.
  change (pub_header packr) with header. rewrite Hfq, Hfr.
  rewrite (sm_bind_run _ _ _ _ _ Hcm). cbv beta iota.
  unfold modify_client, sm_modify, mbind, sm_bind. cbv beta iota.
  destruct (pcontainskey (pubrel_key_of v id) (st_phandle s) =? 0); reflexivity.
Qed.

End Restore.

Definition restore_header : Z := mk_header PUBLISH 0 2 1.
Definition restore_bufs : list (list Z) :=
  [[0; 3]; [97; 47; 98]; [2; 1; 13; 38; 0; 2; 107; 49; 0; 1; 118; 17; 0; 0; 14; 16]; [1; 0; 255]].
Definition restore_state : St MemStore ScriptNet :=
  mkSt (persisting sample_client)
    ({[ publish_key 5 513 := frame restore_header restore_bufs ]} : MemStore)
    (mkPubs ∅ AList.empty) [] (mkScript [] [] [] 0 1000) 0 0.

Lemma sent_message_restored_witness :
  publish_buffers sample_publish 0 2 1 = Ok (restore_header, restore_bufs) /\
  exists p props ps',
    restore_key (publish_key 5 513) restore_state =
      Ok ((0, false),
          set_client (set_network (set_pubs restore_state ps') (mkScript [] [] [] 0 1000))
            (set_outbound (persisting sample_client)
               (MQTTPersistence_insertInOrder AList.empty
                  (mkMessages 2 1 513 5 props (Some p) 0
                     (if pcontainskey (pubrel_key_of 5 513) (st_phandle restore_state) =? 0
                      then Some PUBCOMP else Some PUBREC))))) /\
    entries props = entries sample_props /\
    ps_heap ps' !! p = Some (mkPublications (Some [97; 47; 98]) 3 (Some [1; 0; 255]) 3 1 [0; 0; 0; 0]) /\
    store_inv ps' [p].
Proof.
  assert (publish_buffers sample_publish 0 2 1 = Ok (restore_header, restore_bufs)) as Hb by reflexivity.
  split; [exact Hb|].
  apply (sent_message_restored sample_publish [97; 47; 98] [1; 0; 255] 2 1 restore_header restore_bufs
           restore_state [] 1000 (mkScript [] [] [] 0 1000)).
  - split; try done; [by_compute|]. intros _.
    split; [exact sample_props_inv | repeat constructor; vm_compute; reflexivity].
  - right. reflexivity.
  - lia.
  - lia.
  - simpl. lia.
  - exact Hb.
  - reflexivity.
  - reflexivity.
  - apply lookup_singleton_eq.
  - exact store_inv_empty.
  - reflexivity.
Defined.

End Persistence.
