(* ===== verification/FileStore.v ===== *)
(** * Persistence on files ([src/src/MQTTPersistenceDefault.c])

    The default implementation of the persistence interface: a directory for each client
    and server, and a file for each record.  The file system is an interface with laws; the
    theorem relates the functions to the map from keys to records they stand for.  The
    variant for Windows, which lists directories with other calls, is not modelled. *)

From S2P Require Import Prelude.
From S2P Require Import LinkedList.
From S2P Require Import Clients.
From S2P Require Import State.
From S2P Require Import Persistence.
From Stdlib Require Import ZArith Lia List.
From stdpp Require Import base numbers list gmap.

Open Scope Z_scope.

Module FileStore.
Import Clients State Persistence.

(** ** The file system

    A [FILE] is known by its path, as one file is open at a time.  [mkdir], [unlink],
    [remove], [rmdir] and [fclose] return 0 or the value of [errno]; [fopen_write] and [fopen_read]
    whether the file could be opened; [ftell_end] is the length found by [fseek] and
    [ftell]; [readdir] is all the names of a directory, if it can be opened; [lstat] is
    whether a path is a regular file, if it is anything. *)
Class FileSystem (F : Type) := {
  mkdir : list Z -> F -> Z * F;
  rmdir : list Z -> F -> Z * F;
  unlink : list Z -> F -> Z * F;
  remove : list Z -> F -> Z * F;
  fopen_write : list Z -> F -> bool * F;
  fwrite : list Z -> list Z -> F -> Z * F;
  fclose : list Z -> F -> Z * F;
  fopen_read : list Z -> F -> bool;
  ftell_end : list Z -> F -> Z;
  fread : list Z -> Z -> F -> list Z;
  readdir : list Z -> F -> option (list (list Z));
  lstat : list Z -> F -> option bool
}.

Definition ENOENT : Z := 2.
Definition EEXIST : Z := 17.
Definition ENOTEMPTY : Z := 39.
Definition PAHO_MEMORY_ERROR : Z := -99.

(** [".msg"] *)
Definition MESSAGE_FILENAME_EXTENSION : list Z := [46; 109; 115; 103].

(** A name in a directory. *)
Definition entry (dir name : list Z) : list Z := dir ++ [47] ++ name.

(** [snprintf(file, alloclen, "%s/%s%s", ...)], [None] when it does not fit. *)
Definition message_file (dir key : list Z) : option (list Z) :=
  let file := entry dir (key ++ MESSAGE_FILENAME_EXTENSION) in
  if Zlen dir + Zlen key + Zlen MESSAGE_FILENAME_EXTENSION + 2 <=? Zlen file then None else Some file.

(** A string up to the first occurrence of the extension. *)
Fixpoint strip_extension (name : list Z) : list Z :=
  if bool_decide (take (List.length MESSAGE_FILENAME_EXTENSION) name = MESSAGE_FILENAME_EXTENSION) then []
  else match name with [] => [] | c :: name => c :: strip_extension name end.

Section Store.
Context {F : Type} {FS : FileSystem F}.

(** ** The directory of a client *)

(** [pstmkdir] *)
Definition pstmkdir (pPathname : list Z) (f : F) : Z * F :=
  let '(e, f) := mkdir pPathname f in
  (if (e =? 0) || (e =? EEXIST) then 0 else MQTTCLIENT_PERSISTENCE_ERROR, f).

(** The tokens of [strtok_r] with slashes and backslashes between them. *)
Definition is_separator (c : Z) : bool := (c =? 92) || (c =? 47).
Definition token (cur : list Z) : list (list Z) := match cur with [] => [] | _ => [cur] end.
Fixpoint tokens (cur l : list Z) : list (list Z) :=
  match l with
  | [] => token cur
  | c :: l => if is_separator c then token cur ++ tokens [] l else tokens (cur ++ [c]) l
  end.

(** The loop of [pstopen] over the directories below the first. *)
Fixpoint create_below (pCrtDirName : list Z) (toks : list (list Z)) (f : F) : Z * F :=
  match toks with
  | [] => (0, f)
  | pToken :: toks =>
      let path := pCrtDirName ++ [47] ++ pToken in
      let '(rc, f) := pstmkdir path f in
      if rc =? 0 then create_below path toks f else (rc, f)
  end.

Definition client_dir (dataDir clientID serverURI : list Z) : list Z :=
  dataDir ++ [47] ++ clientID ++ [45] ++ map (fun c => if c =? 58 then 45 else c) serverURI.

(** [pstopen]: the return code and the handle; a path of separators only, whose first
    token is null, counts as an access out of bounds. *)
Definition pstopen (clientID serverURI dataDir : list Z) (f : F) : res (Z * list Z * F) :=
  let clientDir := client_dir dataDir clientID serverURI in
  let '(root, rest) := match clientDir with
                       | c :: rest => if is_separator c then ([c], rest) else ([], clientDir)
                       | [] => ([], [])
                       end in
  match tokens [] rest with
  | [] => Oob
  | first :: toks =>
      let '(rc, f) := pstmkdir (root ++ first) f in
      let '(rc, f) := if rc =? 0 then create_below (root ++ first) toks f else (rc, f) in
      Ok (rc, clientDir, f)
  end.

(** [pstclose] *)
Definition pstclose (handle : option (list Z)) (f : F) : Z * F :=
  match handle with
  | None => (MQTTCLIENT_PERSISTENCE_ERROR, f)
  | Some clientDir =>
      let '(e, f) := rmdir clientDir f in
      (if (e =? 0) || (e =? ENOENT) || (e =? ENOTEMPTY) then 0 else MQTTCLIENT_PERSISTENCE_ERROR, f)
  end.

(** ** Records *)

(** [pstremove] *)
Definition pstremove (handle : option (list Z)) (key : list Z) (f : F) : Z * F :=
  match handle with
  | None => (MQTTCLIENT_PERSISTENCE_ERROR, f)
  | Some clientDir =>
      match message_file clientDir key with
      | None => (MQTTCLIENT_PERSISTENCE_ERROR, f)
      | Some file =>
          let '(e, f) := unlink file f in
          (if (e =? 0) || (e =? ENOENT) then 0 else MQTTCLIENT_PERSISTENCE_ERROR, f)
      end
  end.

(** The loop of [pstput] over the buffers: [bytesWritten] and [bytesTotal]. *)
Fixpoint write_buffers (file : list Z) (buffers : list (list Z)) (bytesWritten bytesTotal : Z) (f : F) : Z * Z * F :=
  match buffers with
  | [] => (bytesWritten, bytesTotal, f)
  | b :: buffers =>
      let '(n, f) := fwrite file b f in
      write_buffers file buffers (bytesWritten + n) (bytesTotal + Zlen b) f
  end.

(** [pstput]; the result of [fclose] is not examined. *)
Definition pstput (handle : option (list Z)) (key : list Z) (buffers : list (list Z)) (f : F) : Z * F :=
  match handle with
  | None => (MQTTCLIENT_PERSISTENCE_ERROR, f)
  | Some clientDir =>
      match message_file clientDir key with
      | None => (MQTTCLIENT_PERSISTENCE_ERROR, f)
      | Some file =>
          let '(opened, f) := fopen_write file f in
          let '(rc, written, total, f) :=
            if opened : bool then
              let '(written, total, f) := write_buffers file buffers 0 0 f in
              let '(_, f) := fclose file f in
              (0, written, total, f)
            else (MQTTCLIENT_PERSISTENCE_ERROR, 0, 0, f) in
          if negb (written =? total) then
            let '(_, f) := pstremove handle key f in (MQTTCLIENT_PERSISTENCE_ERROR, f)
          else (rc, f)
      end
  end.

(** [pstget]: the return code and the buffer, which is set when the file was not read in
    full too. *)
Definition pstget (handle : option (list Z)) (key : list Z) (f : F) : Z * option (list Z) :=
  match handle with
  | None => (MQTTCLIENT_PERSISTENCE_ERROR, None)
  | Some clientDir =>
      match message_file clientDir key with
      | None => (MQTTCLIENT_PERSISTENCE_ERROR, None)
      | Some file =>
          if fopen_read file f then
            let fileLen := ftell_end file f in
            if fileLen <? 0 then (PAHO_MEMORY_ERROR, None)
            else
              let buf := fread file fileLen f in
              (if Zlen buf =? fileLen then 0 else MQTTCLIENT_PERSISTENCE_ERROR, Some buf)
          else (MQTTCLIENT_PERSISTENCE_ERROR, None)
      end
  end.

(** ** The directory as a whole *)

(** [containskeyUnix]: the result of [lstat] is not examined, and what it filled last, or
    what was on the stack ([stat_info]), is used when it failed. *)
Fixpoint contains_loop (dirname key : list Z) (names : list (list Z)) (stat_info : bool) (f : F) : Z :=
  match names with
  | [] => MQTTCLIENT_PERSISTENCE_ERROR
  | d_name :: names =>
      let stat_info := default stat_info (lstat (entry dirname d_name) f) in
      if stat_info && bool_decide (strip_extension d_name = key) then 0
      else contains_loop dirname key names stat_info f
  end.
Definition pstcontainskey (handle : option (list Z)) (key : list Z) (stat_info : bool) (f : F) : Z :=
  match handle with
  | None => MQTTCLIENT_PERSISTENCE_ERROR
  | Some dirname =>
      match readdir dirname f with
      | None => MQTTCLIENT_PERSISTENCE_ERROR
      | Some names => contains_loop dirname key names stat_info f
      end
  end.

(** [clearUnix]: the names are used as paths. *)
Fixpoint clear_loop (names : list (list Z)) (f : F) : Z * F :=
  match names with
  | [] => (0, f)
  | d_name :: names =>
      if bool_decide (lstat d_name f = Some true) then
        let '(e, f) := remove d_name f in
        if negb (e =? 0) && negb (e =? ENOENT) then (MQTTCLIENT_PERSISTENCE_ERROR, f) else clear_loop names f
      else clear_loop names f
  end.
Definition pstclear (handle : option (list Z)) (f : F) : Z * F :=
  match handle with
  | None => (MQTTCLIENT_PERSISTENCE_ERROR, f)
  | Some dirname =>
      match readdir dirname f with
      | None => (MQTTCLIENT_PERSISTENCE_ERROR, f)
      | Some names => clear_loop names f
      end
  end.

(** [keysUnix]: a pass that counts the files, and one that copies the names. *)
Definition is_message (dirname : list Z) (f : F) (d_name : list Z) : bool :=
  bool_decide (lstat (entry dirname d_name) f = Some true).
Definition pstkeys (handle : option (list Z)) (f : F) : Z * list (list Z) :=
  match handle with
  | None => (MQTTCLIENT_PERSISTENCE_ERROR, [])
  | Some dirname =>
      match readdir dirname f with
      | None => (MQTTCLIENT_PERSISTENCE_ERROR, [])
      | Some names =>
          if Zlen (List.filter (is_message dirname f) names) =? 0 then (0, [])
          else
            match readdir dirname f with
            | None => (MQTTCLIENT_PERSISTENCE_ERROR, [])
            | Some names => (0, map strip_extension (List.filter (is_message dirname f) names))
            end
      end
  end.
End Store.

(** ** What is asked of the file system *)

(** The name of a file in a directory. *)
Definition name_ok (n : list Z) : Prop := n <> [] /\ n <> [46] /\ n <> [46; 46] /\ Forall (fun c => c <> 0 /\ c <> 47) n.

(** [file f p] is the contents of the regular file [p], if there is one, with what has been
    written to it and not flushed yet.  When [fclose] fails nothing is said of them. *)
Class FileLaws (F : Type) `{FileSystem F} := {
  file : F -> list Z -> option (list Z);
  open_ok p f f' : fopen_write p f = (true, f') -> file f' p = Some [];
  open_fails p q f f' : fopen_write p f = (false, f') -> file f' q = file f q;
  open_others d n n' b f f' : name_ok n -> name_ok n' -> n' <> n -> fopen_write (entry d n) f = (b, f') -> file f' (entry d n') = file f (entry d n');
  write_ok p c b k f f' : file f p = Some c -> fwrite p b f = (k, f') -> 0 <= k <= Zlen b /\ file f' p = Some (c ++ take (Z.to_nat k) b);
  write_others d n n' b k f f' : name_ok n -> name_ok n' -> n' <> n -> fwrite (entry d n) b f = (k, f') -> file f' (entry d n') = file f (entry d n');
  close_ok p f f' : fclose p f = (0, f') -> file f' p = file f p;
  close_others d n n' e f f' : name_ok n -> name_ok n' -> n' <> n -> fclose (entry d n) f = (e, f') -> file f' (entry d n') = file f (entry d n');
  unlink_ok p f f' : unlink p f = (0, f') -> file f' p = None;
  unlink_fails p q e f f' : unlink p f = (e, f') -> e <> 0 -> file f' q = file f q;
  unlink_absent p f f' : unlink p f = (ENOENT, f') -> file f p = None;
  unlink_others d n n' e f f' : name_ok n -> name_ok n' -> n' <> n -> unlink (entry d n) f = (e, f') -> file f' (entry d n') = file f (entry d n');
  ftell_ok p c f : file f p = Some c -> ftell_end p f = Zlen c;
  fread_ok p c n f : file f p = Some c -> exists k, fread p n f = take k c;
  open_read_ok p f : fopen_read p f = true -> is_Some (file f p);
  readdir_names d f names : readdir d f = Some names -> NoDup names;
  readdir_files d f names n : readdir d f = Some names -> is_Some (file f (entry d n)) -> n ∈ names <-> name_ok n;
  lstat_regular p f : lstat p f = Some true <-> is_Some (file f p);
  lstat_listed d f names n : readdir d f = Some names -> n ∈ names -> is_Some (lstat (entry d n) f)
}.

(** ** Files and keys *)

(** The keys of the library have neither dots nor slashes. *)
Definition valid_key (k : list Z) : Prop := Forall (fun c => c <> 0 /\ c <> 46 /\ c <> 47) k.
Definition file_name (k : list Z) : list Z := k ++ MESSAGE_FILENAME_EXTENSION.

Lemma file_name_ok k : valid_key k -> name_ok (file_name k).
Proof.
  intros Hk. unfold name_ok, file_name, MESSAGE_FILENAME_EXTENSION.
  assert (forall l, Zlen l <= 2 -> k ++ [46; 109; 115; 103] <> l) as Hlen by (intros l Hl <-; zlen).
  split; [by apply Hlen|]. split; [by apply Hlen|]. split; [by apply Hlen|]. apply Forall_app. split; [|by repeat constructor].
  eapply Forall_impl; [exact Hk|]. cbn. tauto.
Qed.
Lemma file_name_inj k k' : file_name k = file_name k' -> k = k'.
Proof. apply app_inv_tail. Qed.
Lemma message_file_eq d k : message_file d k = Some (entry d (file_name k)).
Proof. unfold message_file, entry, file_name, MESSAGE_FILENAME_EXTENSION. destruct (Z.leb_spec (Zlen d + Zlen k + Zlen [46; 109; 115; 103] + 2) (Zlen (d ++ [47] ++ k ++ [46; 109; 115; 103]))); [zlen|done]. Qed.

Lemma strip_file_name k : valid_key k -> strip_extension (file_name k) = k.
Proof.
  unfold file_name. induction 1 as [|c k [Hc [Hd _]] _ IH]; [done|]. cbn [strip_extension app]. rewrite bool_decide_eq_false_2; [by rewrite IH|].
  cbn. intros [= ->]. done.
Qed.
Lemma strip_self name k : valid_key k -> (exists k', valid_key k' /\ name = file_name k') -> strip_extension name = k <-> name = file_name k.
Proof. intros Hk (k' & Hk' & ->). rewrite strip_file_name by done. split; [by intros ->|apply file_name_inj]. Qed.

(** The keys the library makes are valid. *)
Lemma digits_valid fuel n acc : 0 <= n -> valid_key acc -> valid_key (digits fuel n acc).
Proof.
  unfold valid_key. revert n acc. induction fuel as [|fuel IH]; intros n acc Hn Hacc; cbn [digits]; [done|].
  destruct (Z.ltb_spec n 10); [constructor; [lia|done]|]. apply IH; [by apply Z.div_pos|]. constructor; [|done].
  pose proof (Z.mod_pos_bound n 10 ltac:(lia)). lia.
Qed.
Lemma library_key_valid size stem n key :
  stem ∈ [PERSISTENCE_PUBLISH_SENT; PERSISTENCE_PUBREL; PERSISTENCE_PUBLISH_RECEIVED; PERSISTENCE_V5_PUBLISH_SENT; PERSISTENCE_V5_PUBREL;
          PERSISTENCE_V5_PUBLISH_RECEIVED; PERSISTENCE_COMMAND_KEY; PERSISTENCE_V5_COMMAND_KEY; PERSISTENCE_QUEUE_KEY; PERSISTENCE_V5_QUEUE_KEY] ->
  snprintf_key size stem n = Some key -> valid_key key.
Proof.
  intros Hs. unfold snprintf_key. destruct (_ <=? _); [done|]. intros [= <-]. apply Forall_app. split.
  - revert stem Hs. apply Forall_forall. apply (bool_decide_unpack _). vm_compute. exact I.
  - unfold decimal. destruct (Z.ltb_spec n 0); [constructor; [lia|]|]; apply digits_valid; first [lia | constructor].
Qed.

Section Refinement.
Context {F : Type} {FS : FileSystem F} {FL : FileLaws F}.
Implicit Types f : F.
Implicit Types d k : list Z.

(** The record a directory holds for a key. *)
Definition stored f d k : option (list Z) := file f (entry d (file_name k)).
(** The other records of the directory are as they were. *)
Definition others d k f f' : Prop := forall k', valid_key k' -> k' <> k -> stored f' d k' = stored f d k'.

Lemma others_names d k f f' : valid_key k ->
  (forall n', name_ok n' -> n' <> file_name k -> file f' (entry d n') = file f (entry d n')) -> others d k f f'.
Proof. intros Hk H k' Hk' Hne. apply H; [by apply file_name_ok|]. intros E%file_name_inj. done. Qed.
Lemma others_chain d k f1 f2 f3 : others d k f1 f2 -> others d k f2 f3 -> others d k f1 f3.
Proof. intros H1 H2 k' Hk Hne. by rewrite H2, H1. Qed.

Lemma write_buffers_spec d k bufs : valid_key k -> forall written total c f w t f',
  stored f d k = Some c -> Zlen c = written -> written <= total -> write_buffers (entry d (file_name k)) bufs written total f = (w, t, f') ->
  others d k f f' /\ exists c', stored f' d k = Some c' /\ Zlen c' = w /\ w <= t /\ t = total + Zlen (concat bufs) /\
    (w = t -> written = total /\ c' = c ++ concat bufs).
Proof.
  intros Hk. induction bufs as [|b bufs IH]; intros written total c f w t f' Hc Hlen Hle E; cbn [write_buffers concat] in *.
  - injection E as <- <- <-. split; [done|]. exists c. rewrite app_nil_r. split; [done|]. split; [done|]. split; [done|]. split; [zlen|]. intros H. by split.
  - destruct (fwrite _ b f) as [n f1] eqn:Ew. pose proof (write_ok _ _ _ _ _ _ Hc Ew) as [Hn Hc1].
    apply IH with (c := c ++ take (Z.to_nat n) b) in E as (Ho & c' & H1 & H2 & H3 & H4 & H5); [|done|unfold Zlen in *; rewrite length_app, length_take; lia|lia].
    split. { eapply others_chain; [|exact Ho]. apply others_names; [done|]. intros n' Hn' Hne. by eapply write_others, Ew; [apply file_name_ok| |]. }
    exists c'. split; [done|]. split; [done|]. split; [done|]. split; [rewrite Zlen_app; lia|]. intros Hwt. destruct (H5 Hwt) as [H6 ->].
    split; [lia|]. assert (n = Zlen b) as -> by lia. rewrite Zlen_to_nat, take_ge by lia. by rewrite <- app_assoc.
Qed.

(** A record removed. *)
Lemma pstremove_spec d k f rc f' : valid_key k -> pstremove (Some d) k f = (rc, f') ->
  others d k f f' /\ (rc = 0 -> stored f' d k = None).
Proof.
  intros Hk. unfold pstremove. rewrite message_file_eq. destruct (unlink _ f) as [e f1] eqn:Eu. intros [= <- <-]. split.
  - apply others_names; [done|]. intros n' Hn' Hne. by eapply unlink_others, Eu; [apply file_name_ok| |].
  - destruct (Z.eqb_spec e 0) as [->|Hne]; cbn [orb]; intros Hr; [by eapply unlink_ok|]. destruct (Z.eqb_spec e ENOENT) as [->|]; [|done].
    unfold stored. rewrite (unlink_fails _ _ _ _ _ Eu Hne). by eapply unlink_absent.
Qed.

(** All was written, and [fclose] failed. *)
Definition close_failed d k bufs f f' : Prop :=
  exists f1 f2 w e, fopen_write (entry d (file_name k)) f = (true, f1) /\
    write_buffers (entry d (file_name k)) bufs 0 0 f1 = (w, w, f2) /\ fclose (entry d (file_name k)) f2 = (e, f') /\ e <> 0.

(** A record stored. *)
Lemma pstput_spec d k bufs f rc f' : valid_key k -> pstput (Some d) k bufs f = (rc, f') ->
  others d k f f' /\ (rc = 0 -> stored f' d k = Some (concat bufs) \/ close_failed d k bufs f f').
Proof.
  intros Hk. unfold pstput. rewrite message_file_eq. destruct (fopen_write _ f) as [[|] f1] eqn:Eo.
  - assert (others d k f f1) as H1 by (apply others_names; [done|]; intros n' Hn' Hne; by eapply open_others, Eo; [apply file_name_ok| |]).
    destruct (write_buffers _ bufs 0 0 f1) as [[w t] f2] eqn:Ew.
    pose proof (write_buffers_spec d k bufs Hk 0 0 [] f1 w t f2 ltac:(by eapply open_ok) eq_refl ltac:(lia) Ew) as (H2 & c & Hc & Hw & Hle & Ht & Hwt).
    destruct (fclose _ f2) as [e f3] eqn:Ec.
    assert (others d k f f3) as Ho.
    { eapply others_chain; [exact H1|]. eapply others_chain; [exact H2|]. apply others_names; [done|]. intros n' Hn' Hne.
      by eapply close_others, Ec; [apply file_name_ok| |]. }
    destruct (Z.eqb_spec w t) as [Hwt'|]; cbn [negb].
    + intros [= <- <-]. split; [done|]. intros _. destruct Hwt'. destruct (decide (e = 0)) as [->|He]; [left|right; by exists f1, f2, w, e].
      unfold stored. rewrite (close_ok _ _ _ Ec). destruct (Hwt eq_refl) as [_ ->]. done.
    + destruct (pstremove (Some d) k f3) as [rc' f4] eqn:Er. intros [= <- <-]. split; [|done]. apply pstremove_spec in Er as [Hr _]; [|done].
      by eapply others_chain.
  - cbn. intros [= <- <-]. split; [|done]. intros k' _ _. by eapply open_fails.
Qed.

(** A record read. *)
Lemma pstget_spec d k f buf : pstget (Some d) k f = (0, Some buf) -> stored f d k = Some buf.
Proof.
  unfold pstget. rewrite message_file_eq. destruct (fopen_read _ f) eqn:Eo; [|done]. apply open_read_ok in Eo as [c Hc].
  rewrite (ftell_ok _ _ _ Hc). destruct (Z.ltb_spec (Zlen c) 0); [done|]. destruct (fread_ok _ _ (Zlen c) _ Hc) as [j ->].
  destruct (Z.eqb_spec (Zlen (take j c)) (Zlen c)) as [He|]; [|done]. intros [= <-]. unfold stored. rewrite Hc. f_equal.
  unfold Zlen in He. rewrite length_take in He. by rewrite take_ge by lia.
Qed.
Lemma pstget_fails d k f rc buf : pstget (Some d) k f = (rc, buf) -> rc = 0 -> is_Some buf.
Proof.
  unfold pstget. rewrite message_file_eq. destruct (fopen_read _ f); [|by intros [= <- <-]]. destruct (_ <? _); [by intros [= <- <-]|]. intros [= <- <-]. by eexists.
Qed.

(** All the files of a directory are records. *)
Definition only_records f d : Prop := forall n, name_ok n -> is_Some (file f (entry d n)) -> exists k, valid_key k /\ n = file_name k.

Lemma regular_file d f n : bool_decide (lstat (entry d n) f = Some true) = true <-> is_Some (file f (entry d n)).
Proof. rewrite bool_decide_eq_true. apply lstat_regular. Qed.

Lemma contains_spec d k f names st : valid_key k -> only_records f d -> (forall n, n ∈ names -> is_Some (lstat (entry d n) f)) ->
  (forall n, n ∈ names -> is_Some (file f (entry d n)) -> name_ok n) ->
  contains_loop d k names st f = 0 <-> file_name k ∈ names /\ is_Some (stored f d k).
Proof.
  intros Hk Honly Hstat Hnames. revert st. induction names as [|n names IH]; intros st; cbn [contains_loop].
  { split; [done|]. intros [H _]. by apply elem_of_nil in H. }
  destruct (Hstat n ltac:(by left)) as [b Hb]. rewrite Hb. cbn [default from_option id].
  specialize (IH ltac:(intros; apply Hstat; by right) ltac:(intros; apply Hnames; [by right|done])).
  assert (b = true -> exists k', valid_key k' /\ n = file_name k') as Hreg.
  { intros ->. apply lstat_regular in Hb. apply Honly; [|done]. apply Hnames; [by left|done]. }
  destruct b; cbn [andb].
  - destruct (Hreg eq_refl) as (k' & Hk' & ->). rewrite strip_file_name by done. destruct (decide (k' = k)) as [->|Hne].
    + rewrite bool_decide_eq_true_2 by done. split; [|done]. intros _. split; [by left|]. by apply lstat_regular.
    + rewrite bool_decide_eq_false_2 by done. rewrite IH, elem_of_cons. split; [tauto|]. intros [[E%file_name_inj|?] ?]; [done|tauto].
  - rewrite IH, elem_of_cons. split; [tauto|]. intros [[<-|?] Hs]; [|tauto]. apply lstat_regular in Hs. congruence.
Qed.

Lemma pstcontainskey_spec d k f st : valid_key k -> only_records f d -> is_Some (readdir d f) ->
  pstcontainskey (Some d) k st f = 0 <-> is_Some (stored f d k).
Proof.
  intros Hk Honly [names Hn]. unfold pstcontainskey. rewrite Hn. rewrite contains_spec; try done.
  - split; [by intros [_ H]|]. intros H. split; [|done]. apply (readdir_files _ _ _ _ Hn H). by apply file_name_ok.
  - intros n Hin. by eapply lstat_listed.
  - intros n Hin Hf. by apply (readdir_files _ _ _ _ Hn Hf).
Qed.

Lemma is_message_spec d f n : is_message d f n = true <-> is_Some (file f (entry d n)).
Proof. unfold is_message. rewrite bool_decide_eq_true. apply lstat_regular. Qed.

Lemma pstkeys_spec d f ks : only_records f d -> pstkeys (Some d) f = (0, ks) ->
  NoDup ks /\ Forall valid_key ks /\ forall k, valid_key k -> k ∈ ks <-> is_Some (stored f d k).
Proof.
  intros Honly. unfold pstkeys. destruct (readdir d f) as [names|] eqn:Hn; [|done]. set (l := List.filter (is_message d f) names).
  intros E. assert (ks = map strip_extension l) as ->.
  { destruct (Z.eqb_spec (Zlen l) 0) as [Hl|]; injection E as <-; [|done]. by destruct l; [|unfold Zlen in Hl; cbn in Hl; lia]. }
  clear E. assert (forall n, n ∈ l -> exists k, valid_key k /\ n = file_name k) as Hl.
  { intros n Hin%list_elem_of_In. apply List.filter_In in Hin as [Hin Hm]. apply list_elem_of_In in Hin. apply is_message_spec in Hm. apply Honly; [|done].
    by apply (readdir_files _ _ _ _ Hn Hm). }
  assert (forall k, valid_key k -> k ∈ map strip_extension l <-> file_name k ∈ l) as Hin.
  { intros k Hk. rewrite list_elem_of_fmap. split.
    - intros (n & E & H). destruct (Hl n H) as (k' & Hk' & ->). by rewrite E, strip_file_name.
    - intros H. exists (file_name k). by rewrite strip_file_name. }
  split; [|split].
  - assert (NoDup l) as Hnd by (apply NoDup_ListNoDup, List.NoDup_filter, NoDup_ListNoDup; by eapply readdir_names).
    clear Hin. induction l as [|n l' IH]; [constructor|]. apply NoDup_cons in Hnd as [H1 H2]. cbn [map]. constructor; [|apply IH; [|done]; intros ? ?; apply Hl; by right].
    destruct (Hl n ltac:(by left)) as (k & Hk & ->). rewrite strip_file_name by done. intros (n' & E & Hn')%list_elem_of_fmap.
    destruct (Hl n' ltac:(by right)) as (k' & Hk' & ->). rewrite strip_file_name in E by done. by subst k'.
  - apply Forall_forall. intros k (n & -> & H)%list_elem_of_fmap. destruct (Hl n H) as (k' & Hk' & ->). by rewrite strip_file_name.
  - intros k Hk. rewrite (Hin k Hk). unfold stored. split.
    + intros H%list_elem_of_In. apply List.filter_In in H as [_ H]. by apply is_message_spec.
    + intros H. apply list_elem_of_In, List.filter_In. split; [|by apply is_message_spec]. apply list_elem_of_In.
      apply (readdir_files _ _ _ _ Hn H). by apply file_name_ok.
Qed.

(** Clearing looks for the names of the directory in the working directory. *)
Lemma clear_loop_nothing names f : Forall (fun n => lstat n f <> Some true) names -> clear_loop names f = (0, f).
Proof. induction 1 as [|n names Hn _ IH]; cbn [clear_loop]; [done|]. by rewrite bool_decide_eq_false_2. Qed.

(** C22. A directory of files is the map from keys to records the library asks for.  For keys
    without dots and slashes, as the library makes them, a record stored with success is
    the concatenation of its buffers, unless [fclose] failed, whose result is not examined;
    one read with success is the one stored, one removed is gone, and none of the three
    touches another.  In a directory that can be read and holds records only, a key is
    found exactly when it has a record, and the keys listed are those, once each.
    Clearing, though, does nothing to the directory: unless the working directory of the
    process holds files with the names of the records, it returns success and every record
    is as it was. *)
Theorem file_store_refines f d k bufs :
  valid_key k ->
  (forall rc f', pstput (Some d) k bufs f = (rc, f') -> others d k f f' /\ (rc = 0 -> stored f' d k = Some (concat bufs) \/ close_failed d k bufs f f')) /\
  (forall buf, pstget (Some d) k f = (0, buf) -> buf = stored f d k /\ is_Some buf) /\
  (forall rc f', pstremove (Some d) k f = (rc, f') -> others d k f f' /\ (rc = 0 -> stored f' d k = None)) /\
  (only_records f d -> is_Some (readdir d f) ->
     (forall stat_info, pstcontainskey (Some d) k stat_info f = 0 <-> is_Some (stored f d k)) /\
     (forall ks, pstkeys (Some d) f = (0, ks) -> NoDup ks /\ Forall valid_key ks /\ (k ∈ ks <-> is_Some (stored f d k)))) /\
  (forall names, readdir d f = Some names -> Forall (fun n => lstat n f <> Some true) names -> pstclear (Some d) f = (0, f)).
Proof.
  intros Hk. split; [intros rc f'; by apply pstput_spec|]. split.
  { intros buf E. destruct (pstget_fails _ _ _ _ _ E eq_refl) as [b ->]. apply pstget_spec in E. by rewrite E. }
  split; [intros rc f'; by apply pstremove_spec|]. split.
  - intros Honly Hdir. split; [intros st; by apply pstcontainskey_spec|]. intros ks E. apply pstkeys_spec in E as (H1 & H2 & H3); [|done]. split; [done|]. split; [done|]. by apply H3.
  - intros names Hn Hnone. unfold pstclear. rewrite Hn. by apply clear_loop_nothing.
Qed.
End Refinement.

(** ** A file system for examples

    Files with their contents, and directories. *)
Record MemFs := mkMemFs { fs_files : gmap (list Z) (list Z); fs_dirs : gset (list Z) }.

#[export] Instance name_ok_dec n : Decision (name_ok n).
Proof. unfold name_ok. apply _. Defined.
Definition name_in (d p : list Z) : option (list Z) :=
  let n := drop (S (List.length d)) p in if decide (p = entry d n /\ name_ok n) then Some n else None.

#[export] Instance MemFs_ops : FileSystem MemFs := {
  mkdir p f := if decide (p ∈ fs_dirs f) then (EEXIST, f) else (0, mkMemFs (fs_files f) ({[p]} ∪ fs_dirs f));
  rmdir p f := (0, mkMemFs (fs_files f) (fs_dirs f ∖ {[p]}));
  unlink p f := match fs_files f !! p with Some _ => (0, mkMemFs (delete p (fs_files f)) (fs_dirs f)) | None => (ENOENT, f) end;
  remove p f := match fs_files f !! p with Some _ => (0, mkMemFs (delete p (fs_files f)) (fs_dirs f)) | None => (ENOENT, f) end;
  fopen_write p f := (true, mkMemFs (<[p := []]> (fs_files f)) (fs_dirs f));
  fwrite p b f := match fs_files f !! p with
                  | Some c => (Zlen b, mkMemFs (<[p := c ++ b]> (fs_files f)) (fs_dirs f))
                  | None => (0, f)
                  end;
  fclose _ f := (0, f);
  fopen_read p f := bool_decide (is_Some (fs_files f !! p));
  ftell_end p f := match fs_files f !! p with Some c => Zlen c | None => -1 end;
  fread p n f := match fs_files f !! p with Some c => take (Z.to_nat n) c | None => [] end;
  readdir d f := if decide (d ∈ fs_dirs f)
                 then Some (elements (list_to_set (omap (name_in d) (map_to_list (fs_files f)).*1) : gset (list Z)))
                 else None;
  lstat p f := if decide (is_Some (fs_files f !! p)) then Some true else if decide (p ∈ fs_dirs f) then Some false else None
}.

Lemma entry_inj d n n' : entry d n = entry d n' -> n = n'.
Proof. unfold entry. intros E%app_inv_head. by injection E. Qed.
Lemma name_in_spec d p n : name_in d p = Some n <-> p = entry d n /\ name_ok n.
Proof.
  unfold name_in. assert (forall m, drop (S (List.length d)) (entry d m) = m) as Hd.
  { intros m. unfold entry. rewrite (app_assoc d [47] m). apply drop_app_length'. rewrite length_app. cbn. lia. }
  destruct (decide _) as [[H1 H2]|H]; split.
  - by intros [= <-].
  - intros [-> _]. by rewrite Hd.
  - done.
  - intros [-> Hn]. destruct H. by rewrite Hd.
Qed.
Lemma listed_spec d f n : n ∈ elements (list_to_set (omap (name_in d) (map_to_list (fs_files f)).*1) : gset (list Z)) <->
  is_Some (fs_files f !! entry d n) /\ name_ok n.
Proof.
  rewrite elem_of_elements, elem_of_list_to_set, list_elem_of_omap. split.
  - intros (p & ([q c] & -> & Hin)%list_elem_of_fmap & [E Hn]%name_in_spec). cbn in E. subst q. apply elem_of_map_to_list in Hin. by split; [exists c|].
  - intros [[c Hc] Hn]. exists (entry d n). split; [|by apply name_in_spec]. apply list_elem_of_fmap. exists (entry d n, c). split; [done|]. by apply elem_of_map_to_list.
Qed.

#[export] Instance MemFs_laws : FileLaws MemFs.
Proof.
  refine {| file := fun f p => fs_files f !! p |}.
  - intros p f f' [= <-]. apply lookup_insert_eq.
  - intros p q f f' [= E].
  - intros d n n' b f f' _ _ Hne [= _ <-]. cbn. apply lookup_insert_ne. by intros E%entry_inj.
  - intros p c b k f f' Hc. cbn. rewrite Hc. intros [= <- <-]. split; [split; [apply Zlen_nonneg|lia]|]. cbn. rewrite lookup_insert_eq, Zlen_to_nat.
    by rewrite take_ge by lia.
  - intros d n n' b k f f' _ _ Hne. cbn. destruct (fs_files f !! _); intros [= _ <-]; [|done]. cbn. apply lookup_insert_ne. by intros E%entry_inj.
  - by intros p f f' [= <-].
  - by intros d n n' e f f' _ _ _ [= _ <-].
  - intros p f f'. cbn. destruct (fs_files f !! p); [|done]. intros [= <-]. apply lookup_delete_eq.
  - intros p q e f f'. cbn. destruct (fs_files f !! p); by intros [= <- <-].
  - intros p f f'. cbn. destruct (fs_files f !! p); by intros [=].
  - intros d n n' e f f' _ _ Hne. cbn. destruct (fs_files f !! entry d n); intros [= _ <-]; [|done]. cbn. apply lookup_delete_ne. by intros E%entry_inj.
  - intros p c f Hc. cbn. by rewrite Hc.
  - intros p c n f Hc. exists (Z.to_nat n). cbn. by rewrite Hc.
  - intros p f. cbn. by intros H%bool_decide_eq_true.
  - intros d f names. cbn. destruct (decide _); [|done]. intros [= <-]. apply NoDup_elements.
  - intros d f names n. cbn. destruct (decide _); [|done]. intros [= <-] Hs. rewrite listed_spec. tauto.
  - intros p f. cbn. destruct (decide _); [done|]. by destruct (decide _).
  - intros d f names n. cbn. destruct (decide (d ∈ _)); [|done]. intros [= <-]. rewrite listed_spec. intros [Hs _]. by rewrite decide_True.
Defined.

(** A client that stores two records in its directory and clears it: they are still there. *)
Definition sample_dir : list Z := client_dir [46] [97] [104; 58; 49].
Definition sample_fs : MemFs :=
  match pstopen [97] [104; 58; 49] [46] (mkMemFs ∅ ∅) with Ok (_, _, f) => f | _ => mkMemFs ∅ ∅ end.
Definition sample_stored : MemFs := snd (pstput (Some sample_dir) [115; 45; 49] [[50]; [6; 7]] sample_fs).

Lemma file_store_refines_witness :
  valid_key [115; 45; 49] /\ sample_dir = [46; 47; 97; 45; 104; 45; 49] /\
  pstput (Some sample_dir) [115; 45; 49] [[50]; [6; 7]] sample_fs = (0, sample_stored) /\
  stored sample_stored sample_dir [115; 45; 49] = Some [50; 6; 7] /\
  (stored sample_stored sample_dir [115; 45; 49] = Some (concat [[50]; [6; 7]]) \/
     close_failed sample_dir [115; 45; 49] [[50]; [6; 7]] sample_fs sample_stored) /\
  pstget (Some sample_dir) [115; 45; 49] sample_stored = (0, Some [50; 6; 7]) /\
  pstkeys (Some sample_dir) sample_stored = (0, [[115; 45; 49]]) /\
  pstclear (Some sample_dir) sample_stored = (0, sample_stored).
Proof.
  assert (valid_key [115; 45; 49]) as Hk by (apply (bool_decide_unpack _); vm_compute; exact I).
  pose proof (file_store_refines sample_fs sample_dir [115; 45; 49] [[50]; [6; 7]] Hk) as (Hput & _).
  pose proof (file_store_refines sample_stored sample_dir [115; 45; 49] [] Hk) as (_ & _ & _ & _ & Hclear).
  assert (pstput (Some sample_dir) [115; 45; 49] [[50]; [6; 7]] sample_fs = (0, sample_stored)) as E by (vm_compute; reflexivity).
  split; [exact Hk|]. split; [vm_compute; reflexivity|]. split; [exact E|]. split; [vm_compute; reflexivity|]. split; [exact (proj2 (Hput _ _ E) eq_refl)|].
  split; [vm_compute; reflexivity|]. split; [vm_compute; reflexivity|].
  apply (Hclear [[115; 45; 49; 46; 109; 115; 103]]); [vm_compute; reflexivity|]. constructor; [vm_compute; discriminate|constructor].
Defined.

End FileStore.
