(* ===== verification/PacketIO.v ===== *)
(** * Reading and sending packets ([src/src/MQTTPacket.c])

    [MQTTPacket_Factory], which reads one packet from the connection, and
    [MQTTPacket_send] and [MQTTPacket_sends], which frame a packet, store what must
    survive a restart and hand it to the network.  They run on the state of [State],
    whose client is the one the socket belongs to: [MQTTPersistence_putPacket] looks
    it up again by its socket. *)

From S2P Require Import Prelude.
From S2P Require Import Wire.
From S2P Require Import Properties.
From S2P Require Import LinkedList.
From S2P Require Import Clients.
From S2P Require Import Packet.
From S2P Require Import State.
From S2P Require Import Store.
From S2P Require Import Persistence.
From Stdlib Require Import ZArith Lia List.
From stdpp Require Import base numbers list gmap.

Open Scope Z_scope.

Module PacketIO.
Import Wire Properties Clients Packet State Store Persistence.

Section PacketIO.
Context {P N : Type} {PO : PersistenceOps P} {NT : Transport N}.
Abbreviation M := (SM (St P N)).

(** ** Network handles *)

Definition the_socket (s : St P N) : Z := net_socket (net (st_client s)).

Definition modify_nethandles (f : networkHandles -> networkHandles) : M () :=
  modify_client (fun c => set_net c (f (net c))).
Definition touch_lastSent : M () :=
  now ← MQTTTime_now;
  modify_nethandles (fun n => mkNet (net_socket n) now (net_lastReceived n) (net_lastPing n)).
Definition touch_lastReceived : M () :=
  now ← MQTTTime_now;
  modify_nethandles (fun n => mkNet (net_socket n) (net_lastSent n) now (net_lastPing n)).

(** ** Sending *)

Definition no_mask : list Z := [0; 0; 0; 0].

(** The call of [WebSocket_putdatas] that ends both functions. *)
Definition put_frame (buf0 : list Z) (bufs : list (list Z)) (mask : list Z)
    : M (Z * list (list Z) * list Z) :=
  s ← sm_get;
  r ← call_net (putdatas (the_socket s) buf0 bufs mask);
  _ ← (if fst (fst r) =? TCPSOCKET_COMPLETE then touch_lastSent else mret ());
  mret r.

(** [MQTTPersistence_putPacket] from here: the code it returns is overwritten. *)
Definition put_record (buf0 : list Z) (bufs : list (list Z)) (htype msgId MQTTVersion : Z) : M Z :=
  s ← sm_get;
  call_persistence (MQTTPersistence_putPacket (st_client s) buf0 bufs htype msgId 0 MQTTVersion).

Definition fixed_header (header len : Z) : list Z := header :: MQTTPacket_encode len.

(** [MQTTPacket_send] *)
Definition MQTTPacket_send (header : Z) (buffer : list Z) (MQTTVersion : Z) : M Z :=
  let buf := fixed_header header (Zlen buffer) in
  _ ← (if hdr_type header =? PUBREL then
         '(msgId, _) ← sm_lift (readInt buffer);
         _ ← put_record buf [buffer] PUBREL msgId MQTTVersion;
         mret ()
       else mret ());
  '(rc, _, _) ← put_frame buf [buffer] no_mask;
  mret rc.

(** [MQTTPacket_sends]: also the buffers and the mask as the network leaves them. *)
Definition MQTTPacket_sends (header : Z) (bufs : list (list Z)) (mask : list Z) (MQTTVersion : Z)
    : M (Z * list (list Z) * list Z) :=
  let buf := fixed_header header (Zlen (concat bufs)) in
  _ ← (if (hdr_type header =? PUBLISH) && negb (hdr_qos header =? 0) then
         '(msgId, _) ← sm_lift (match bufs !! 2%nat with Some b => readInt b | None => Oob end);
         _ ← put_record buf bufs PUBLISH msgId MQTTVersion;
         mret ()
       else mret ());
  put_frame buf bufs mask.

(** The publication after its buffers have been through the network: the topic and
    the payload are masked where they are. *)
Definition masked_publish (pack : Publish) (bufs : list (list Z)) (mask : list Z) : Publish :=
  let topic := default [] (pub_topic pack) in
  mkPublish (pub_header pack)
    (Some (default [] (bufs !! 1%nat) ++ drop (List.length (cstr topic)) topic)) (pub_topiclen pack)
    (pub_msgId pack) (match pub_payload pack with None => None | Some _ => last bufs end)
    (pub_payloadlen pack) (pub_MQTTVersion pack) (pub_properties pack) mask.

(** [MQTTPacket_send_publish] *)
Definition MQTTPacket_send_publish (pack : Publish) (dup qos retained : Z) : M (Z * Publish) :=
  '(header, bufs) ← sm_lift (publish_buffers pack dup qos retained);
  '(rc, bufs', mask') ← MQTTPacket_sends header bufs (pub_mask pack) (pub_MQTTVersion pack);
  mret (rc, masked_publish pack bufs' mask').

(** The acknowledgements, PINGREQ and the packets of [MQTTPacketOut.c]. *)
Definition send_packet (p : Z * list Z) (MQTTVersion : Z) : M Z :=
  MQTTPacket_send (fst p) (snd p) MQTTVersion.
Definition MQTTPacket_send_puback (MQTTVersion msgid : Z) := send_packet (puback_packet msgid) MQTTVersion.
Definition MQTTPacket_send_pubrec (MQTTVersion msgid : Z) := send_packet (pubrec_packet msgid) MQTTVersion.
Definition MQTTPacket_send_pubrel (MQTTVersion msgid dup : Z) :=
  send_packet (pubrel_packet msgid dup) MQTTVersion.
Definition MQTTPacket_send_pubcomp (MQTTVersion msgid : Z) := send_packet (pubcomp_packet msgid) MQTTVersion.
Definition MQTTPacket_send_pingreq := send_packet pingreq_packet MQTTVERSION_3_1_1.

Definition MQTTPacket_send_disconnect (reason : Z) (props : option MQTTProperties) : M Z :=
  s ← sm_get;
  p ← sm_lift (disconnect_packet (Clients.MQTTVersion (st_client s)) reason props);
  send_packet p (Clients.MQTTVersion (st_client s)).

(** A null return or an unknown version is [SOCKET_ERROR]. *)
Definition MQTTPacket_send_connect (MQTTVersion : Z) (cprops wprops : option MQTTProperties) : M Z :=
  s ← sm_get;
  match connect_packet (st_client s) MQTTVersion cprops wprops with
  | Ok p => send_packet p MQTTVersion
  | Fail => mret SOCKET_ERROR
  | Oob => sm_oob
  end.

Definition MQTTPacket_send_subscribe (topics : list (list Z)) (qoss : list Z)
    (opts : option (list MQTTSubscribe_options)) (props : option MQTTProperties) (msgid dup : Z) : M Z :=
  s ← sm_get;
  p ← sm_lift (subscribe_packet topics qoss opts props msgid dup (Clients.MQTTVersion (st_client s)));
  send_packet p (Clients.MQTTVersion (st_client s)).

Definition MQTTPacket_send_unsubscribe (topics : list (list Z)) (props : option MQTTProperties)
    (msgid dup : Z) : M Z :=
  s ← sm_get;
  p ← sm_lift (unsubscribe_packet topics props msgid dup (Clients.MQTTVersion (st_client s)));
  send_packet p (Clients.MQTTVersion (st_client s)).

(** ** Receiving *)

(** [MQTTPacket_decode]: the return code and the value so far.  The fifth byte is
    refused. *)
Fixpoint decode_loop (fuel : nat) (len value multiplier : Z) : M (Z * Z) :=
  match fuel with
  | O => mret (SOCKET_ERROR, value)
  | S fuel' =>
      if 4 <? len + 1 then mret (SOCKET_ERROR, value)
      else
        s ← sm_get;
        '(rc, c) ← call_net (getch (the_socket s));
        if negb (rc =? TCPSOCKET_COMPLETE) then mret (rc, value)
        else
          let value := value + Z.land c 127 * multiplier in
          if negb (Z.land c 128 =? 0) then decode_loop fuel' (len + 1) value (multiplier * 128)
          else mret (rc, value)
  end.
Definition MQTTPacket_decode : M (Z * Z) := decode_loop 5 0 0 1.

(** The part of [MQTTPacket_Factory] that has the whole packet: [error] and the
    packet.  A received QoS 2 PUBLISH is stored. *)
Definition factory_packet (MQTTVersion header : Z) (data : list Z) : M (Z * option packet) :=
  match factory_entry MQTTVersion (hdr_type header) with
  | None => mret (TCPSOCKET_COMPLETE, None)
  | Some f =>
      match f MQTTVersion header data with
      | Oob => sm_oob
      | Fail => mret (SOCKET_ERROR, None)
      | Ok p =>
          if (hdr_type header =? PUBLISH) && (hdr_qos header =? 2) then
            match p with
            | Ppublish q =>
                s ← sm_get;
                error ← call_persistence (MQTTPersistence_putPacket (st_client s)
                          (fixed_header header (Zlen data)) [data] PUBLISH (pub_msgId q) 1 MQTTVersion);
                mret (error, Some p)
            | _ => sm_oob
            end
          else mret (TCPSOCKET_COMPLETE, Some p)
      end
  end.

(** The end of [MQTTPacket_Factory], when all the bytes of the packet are there. *)
Definition frame_done (MQTTVersion header : Z) (body : list Z) : M (Z * option packet) :=
  '(error, pack) ← factory_packet MQTTVersion header body;
  _ ← (if bool_decide (is_Some (pack : option packet)) then touch_lastReceived else mret ());
  mret (error, pack).

Definition factory_body (MQTTVersion : Z) : M (Z * option packet) :=
  s ← sm_get;
  '(error, header) ← call_net (getch (the_socket s));
  if negb (error =? TCPSOCKET_COMPLETE) then mret (error, None)
  else
    '(error, remaining_length) ← MQTTPacket_decode;
    if negb (error =? TCPSOCKET_COMPLETE) then mret (error, None)
    else
      '(data, actual_len) ← call_net (getdata (the_socket s) remaining_length);
      if negb (remaining_length =? 0) && negb (bool_decide (is_Some data)) then mret (SOCKET_ERROR, None)
      else if actual_len <? remaining_length then mret (TCPSOCKET_INTERRUPTED, None)
      else
        frame_done MQTTVersion header (default [] data).

(** [MQTTPacket_Factory]: when the packet is not complete the connection goes back
    to where the packet starts. *)
Definition MQTTPacket_Factory (MQTTVersion : Z) : M (Z * option packet) :=
  s ← sm_get;
  let headerWsFramePos := framePos (st_net s) in
  '(error, pack) ← factory_body MQTTVersion;
  _ ← (if error =? TCPSOCKET_INTERRUPTED
       then sm_modify (fun s => set_network s (framePosSeekTo headerWsFramePos (st_net s)))
       else mret ());
  mret (error, pack).

End PacketIO.

(** ** Reading from a stream of bytes that arrives in pieces *)
Section Stream.
Context {P : Type} {PO : PersistenceOps P}.

(** The bytes received and not read yet, and the position [k] bytes on. *)
Definition avail (s : St P ScriptNet) : list Z :=
  drop (Z.to_nat (sn_pos (st_net s))) (sn_input (st_net s)).
Definition advance (k : Z) (s : St P ScriptNet) : St P ScriptNet :=
  let n := st_net s in
  set_network s (mkScript (sn_results n) (sn_written n) (sn_input n) (sn_pos n + k) (sn_clock n)).

Lemma advance_0 s : advance 0 s = s.
Proof. destruct s as [c p pb pw [r w i pos cl] a b]. unfold advance, set_network. simpl. by rewrite Z.add_0_r. Qed.

Lemma advance_advance j k s : advance k (advance j s) = advance (j + k) s.
Proof. unfold advance, set_network. simpl. by rewrite Z.add_assoc. Qed.

Lemma advance_pos k s : sn_pos (st_net (advance k s)) = sn_pos (st_net s) + k.
Proof. done. Qed.

Lemma avail_advance l k s :
  0 <= sn_pos (st_net s) -> avail s = l ++ k -> avail (advance (Zlen l) s) = k.
Proof.
  intros Hp Ha. unfold avail, advance. simpl. rewrite Z2Nat.inj_add by (done || apply Zlen_nonneg).
  rewrite Zlen_to_nat, <- drop_drop. fold (avail s). by rewrite Ha, drop_app_exact.
Qed.

Lemma getch_run sk s :
  call_net (getch sk) s =
  match avail s with
  | b :: _ => Ok ((TCPSOCKET_COMPLETE, b), advance 1 s)
  | [] => Ok ((TCPSOCKET_INTERRUPTED, 0), s)
  end.
Proof.
  unfold call_net, avail. cbn [getch ScriptNet_transport].
  destruct (drop _ _); [|done]. by destruct s as [c p pb pw n a b].
Qed.

Lemma getch_cons sk s b l :
  0 <= sn_pos (st_net s) -> avail s = b :: l ->
  call_net (getch sk) s = Ok ((TCPSOCKET_COMPLETE, b), advance 1 s) /\ avail (advance 1 s) = l.
Proof.
  intros Hp Ha. rewrite getch_run, Ha. split; [done|]. by apply (avail_advance [b] l s).
Qed.

(** One turn of the loop on what is available. *)
Lemma decode_turn f len v m (s : St P ScriptNet) :
  len < 4 ->
  decode_loop (S f) len v m s =
  match avail s with
  | [] => Ok ((TCPSOCKET_INTERRUPTED, v), s)
  | b :: _ =>
      if negb (Z.land b 128 =? 0)
      then decode_loop f (len + 1) (v + Z.land b 127 * m) (m * 128) (advance 1 s)
      else Ok ((TCPSOCKET_COMPLETE, v + Z.land b 127 * m), advance 1 s)
  end.
Proof.
  intros Hl. cbn [decode_loop]. destruct (Z.ltb_spec 4 (len + 1)); [lia|].
  rewrite (sm_bind_run sm_get _ s s s) by done.
  pose proof (getch_run (the_socket s) s) as Hc. destruct (avail s) as [|b l].
  - by rewrite (sm_bind_run _ _ _ _ _ Hc).
  - rewrite (sm_bind_run _ _ _ _ _ Hc). cbv beta iota. cbn [negb Z.eqb TCPSOCKET_COMPLETE].
    by destruct (negb (Z.land b 128 =? 0)).
Qed.

(** The loop reads a length, or stops at the end of what has arrived. *)
Lemma decode_loop_stream f len v m n (k : list Z) g (s : St P ScriptNet) :
  (1 <= f <= 4)%nat -> len = 4 - Z.of_nat f -> 0 <= n < 128 ^ Z.of_nat f -> (f <= g)%nat ->
  0 <= sn_pos (st_net s) ->
  (avail s = encode_loop g n ++ k ->
     decode_loop (S f) len v m s =
       Ok ((TCPSOCKET_COMPLETE, v + n * m), advance (Zlen (encode_loop g n)) s)) /\
  (forall more, more <> [] -> encode_loop g n = avail s ++ more ->
     exists v', decode_loop (S f) len v m s =
       Ok ((TCPSOCKET_INTERRUPTED, v'), advance (Zlen (avail s)) s)).
Proof.
  revert len v m n k s g. induction f as [|f IH]; intros len v m n k s g Hf Hlen Hn Hg Hp; [lia|].
  destruct g as [|g]; [lia|].
  assert (0 <= n mod 128 < 128 /\ n = 128 * (n / 128) + n mod 128) as [Hd Hdiv] by dlia.
  rewrite encode_loop_S.
  split.
  - intros Ha. destruct (Z.ltb_spec 0 (n / 128)) as [Hq|Hq].
    + simpl in Ha. rewrite decode_turn, Ha by lia.
      destruct (cont_digit (n mod 128) Hd) as (-> & E2 & _).
      destruct (Z.eqb_spec (Z.land (Z.lor (n mod 128) 128) 128) 0); [done|]. cbn [negb].
      destruct (getch_cons 0 s _ _ Hp Ha) as [_ Ha'].
      rewrite Nat2Z.inj_succ, Z.pow_succ_r in Hn by lia.
      assert (f <> 0)%nat by (intros ->; change (128 ^ Z.of_nat 0) with 1 in Hn; dlia).
      assert (n / 128 < 128 ^ Z.of_nat f) by (apply Z.div_lt_upper_bound; lia).
      destruct (IH (len + 1) (v + n mod 128 * m) (m * 128) (n / 128) k (advance 1 s) g) as [H1 _];
        [lia | lia | lia | lia | rewrite advance_pos; lia|].
      rewrite (H1 Ha'), advance_advance, Zlen_cons. f_equal. f_equal. f_equal. nia.
    + simpl in Ha. rewrite decode_turn, Ha by lia.
      destruct (last_digit (n mod 128) Hd) as (-> & ->). cbn [negb Z.eqb].
      replace (n / 128) with 0 in Hdiv by dlia. f_equal. f_equal. f_equal. nia.
  - intros more Hm Ha. destruct (avail s) as [|b l] eqn:Eav.
    + exists v. by rewrite decode_turn, Eav, advance_0 by lia.
    + rewrite decode_turn, Eav by lia.
      destruct (getch_cons 0 s b l Hp Eav) as [_ Ha'].
      destruct (Z.ltb_spec 0 (n / 128)) as [Hq|Hq]; simpl in Ha; injection Ha as Hb Hl.
      * subst b. destruct (cont_digit (n mod 128) Hd) as (-> & E2 & _).
        destruct (Z.eqb_spec (Z.land (Z.lor (n mod 128) 128) 128) 0); [done|]. cbn [negb].
        rewrite Nat2Z.inj_succ, Z.pow_succ_r in Hn by lia.
        assert (f <> 0)%nat by (intros ->; change (128 ^ Z.of_nat 0) with 1 in Hn; dlia).
        assert (n / 128 < 128 ^ Z.of_nat f) by (apply Z.div_lt_upper_bound; lia).
        destruct (IH (len + 1) (v + n mod 128 * m) (m * 128) (n / 128) k (advance 1 s) g) as [_ H2];
          [lia | lia | lia | lia | rewrite advance_pos; lia|].
        rewrite Ha' in H2. destruct (H2 more Hm Hl) as (v' & ->).
        exists v'. by rewrite advance_advance, Zlen_cons.
      * symmetry in Hl. apply app_nil in Hl as [_ ->]. done.
Qed.

Lemma MQTTPacket_decode_stream n k (s : St P ScriptNet) :
  0 <= n < 268435456 -> 0 <= sn_pos (st_net s) ->
  (avail s = MQTTPacket_encode n ++ k ->
     MQTTPacket_decode s = Ok ((TCPSOCKET_COMPLETE, n), advance (Zlen (MQTTPacket_encode n)) s)) /\
  (forall more, more <> [] -> MQTTPacket_encode n = avail s ++ more ->
     exists v', MQTTPacket_decode s = Ok ((TCPSOCKET_INTERRUPTED, v'), advance (Zlen (avail s)) s)).
Proof.
  intros Hn Hp. unfold MQTTPacket_decode, MQTTPacket_encode, to_u64. rewrite Z.mod_small by lia.
  destruct (decode_loop_stream 4 0 0 1 n k 10 s) as [H1 H2]; [lia|done|done|lia|done|].
  split; [|exact H2]. intros Ha. rewrite (H1 Ha). f_equal. f_equal. f_equal. lia.
Qed.

Lemma getdata_run sk n s :
  call_net (getdata sk n) s =
  let d := take (Z.to_nat n) (avail s) in Ok ((Some d, Zlen d), advance (Zlen d) s).
Proof. done. Qed.

(** [factory_body] up to the packet itself. *)
Lemma factory_body_frame v header body rest (s : St P ScriptNet) :
  Zlen body < 268435456 -> 0 <= sn_pos (st_net s) ->
  avail s = header :: MQTTPacket_encode (Zlen body) ++ body ++ rest ->
  factory_body v s =
    ('(error, pack) ← factory_packet v header body;
     _ ← (if bool_decide (is_Some (pack : option packet)) then touch_lastReceived else mret ());
     mret (error, pack)) (advance (Zlen (header :: MQTTPacket_encode (Zlen body) ++ body)) s).
Proof.
  intros Hb Hp Ha. pose proof (Zlen_nonneg body). unfold factory_body.
  rewrite (sm_bind_run sm_get _ s s s) by done.
  destruct (getch_cons (the_socket s) s _ _ Hp Ha) as [Hc Ha1].
  rewrite (sm_bind_run _ _ _ _ _ Hc). cbv beta iota. cbn [negb Z.eqb TCPSOCKET_COMPLETE].
  destruct (MQTTPacket_decode_stream (Zlen body) (body ++ rest) (advance 1 s)) as [Hd _];
    [lia | rewrite advance_pos; lia |].
  specialize (Hd Ha1). rewrite (sm_bind_run _ _ _ _ _ Hd). cbv beta iota.
  cbn [negb Z.eqb TCPSOCKET_COMPLETE]. rewrite advance_advance.
  set (s2 := advance _ s).
  assert (avail s2 = body ++ rest) as Ha2.
  { unfold s2. rewrite <- advance_advance. eapply avail_advance; [rewrite advance_pos; lia | exact Ha1]. }
  pose proof (getdata_run (the_socket s) (Zlen body) s2) as Hg. cbv zeta in Hg.
  rewrite Ha2, Zlen_to_nat, take_app_exact in Hg. rewrite (sm_bind_run _ _ _ _ _ Hg). cbv beta iota.
  rewrite (bool_decide_eq_true_2 (is_Some (Some body))) by done.
  rewrite andb_false_r. destruct (Z.ltb_spec (Zlen body) (Zlen body)); [lia|].
  unfold s2. rewrite advance_advance. cbn [default]. f_equal. f_equal. zlen.
Qed.

Lemma rewind k (s : St P ScriptNet) :
  set_network (advance k s) (framePosSeekTo (framePos (st_net s)) (st_net (advance k s))) = s.
Proof. by destruct s as [c p pb pw [r w i pos cl] a b]. Qed.

(** Once the packet is there, only the persistence handle changes. *)
Lemma factory_packet_frame v header body (s : St P ScriptNet) r s' :
  factory_packet v header body s = Ok (r, s') -> s' = set_phandle s (st_phandle s').
Proof.
  assert (forall x : Z * option packet, (mret x : SM (St P ScriptNet) _) s = Ok (r, s') -> s' = set_phandle s (st_phandle s')) as Hret
    by (intros x E; injection E as <- <-; by destruct s).
  unfold factory_packet.
  destruct (factory_entry v (hdr_type header)) as [f|]; [|apply Hret].
  destruct (f v header body) as [p| |]; [|apply Hret | discriminate].
  destruct (_ && _); [|apply Hret].
  destruct p; try discriminate. unfold call_persistence, mbind, sm_bind, sm_get.
  destruct (MQTTPersistence_putPacket _ _ _ _ _ _ _ _) as [rc p'].
  intros E. injection E as <- <-. done.
Qed.

(** The body of the function on the beginning of a packet. *)
Lemma factory_body_partial v header body arrived missing (s : St P ScriptNet) :
  Zlen body < 268435456 -> 0 <= sn_pos (st_net s) -> missing <> [] ->
  header :: MQTTPacket_encode (Zlen body) ++ body = arrived ++ missing -> avail s = arrived ->
  exists k, factory_body v s = Ok ((TCPSOCKET_INTERRUPTED, None), advance k s).
Proof.
  intros Hb Hp Hm Heq Ha. pose proof (Zlen_nonneg body). unfold factory_body.
  rewrite (sm_bind_run sm_get _ s s s) by done.
  destruct arrived as [|x l].
  { exists 0. pose proof (getch_run (the_socket s) s) as Hc. rewrite Ha in Hc.
    rewrite (sm_bind_run _ _ _ _ _ Hc). by rewrite advance_0. }
  injection Heq as <- Heq.
  destruct (getch_cons (the_socket s) s _ _ Hp Ha) as [Hc Ha1].
  rewrite (sm_bind_run _ _ _ _ _ Hc). cbv beta iota. cbn [negb Z.eqb TCPSOCKET_COMPLETE].
  assert ((exists k, k <> [] /\ MQTTPacket_encode (Zlen body) = l ++ k) \/
          (exists k, l = MQTTPacket_encode (Zlen body) ++ k /\ body = k ++ missing)) as [(k & Hk & He)|(k & Hl & Hbk)].
  { apply app_eq_inv in Heq as [(k & H1 & H2)|(k & H1 & H2)]; [|by right; exists k].
    destruct k as [|y k]; [|left; by exists (y :: k)].
    right. exists []. rewrite app_nil_r in *. split; [done|]. by rewrite H2. }
  - destruct (MQTTPacket_decode_stream (Zlen body) [] (advance 1 s)) as [_ Hd];
      [lia | rewrite advance_pos; lia |].
    rewrite Ha1 in Hd. destruct (Hd k Hk He) as (v' & Hd').
    rewrite (sm_bind_run _ _ _ _ _ Hd'). exists (1 + Zlen l). by rewrite advance_advance.
  - destruct (MQTTPacket_decode_stream (Zlen body) k (advance 1 s)) as [Hd _];
      [lia | rewrite advance_pos; lia |].
    rewrite Ha1 in Hd. specialize (Hd Hl). rewrite (sm_bind_run _ _ _ _ _ Hd). cbv beta iota.
    cbn [negb Z.eqb TCPSOCKET_COMPLETE]. set (s2 := advance _ (advance 1 s)).
    assert (avail s2 = k) as Ha2.
    { unfold s2. eapply avail_advance; [rewrite advance_pos; lia | by rewrite Ha1]. }
    pose proof (getdata_run (the_socket s) (Zlen body) s2) as Hg. cbv zeta in Hg.
    assert (take (Z.to_nat (Zlen body)) (avail s2) = k) as Htk.
    { rewrite Ha2. apply take_ge. subst body. rewrite Zlen_to_nat, length_app. lia. }
    rewrite Htk in Hg. rewrite (sm_bind_run _ _ _ _ _ Hg). cbv beta iota.
    rewrite (bool_decide_eq_true_2 (is_Some (Some k))) by done. rewrite andb_false_r.
    assert (0 < Zlen missing) by (destruct missing; [done|zlen]).
    destruct (Z.ltb_spec (Zlen k) (Zlen body)); [|subst body; zlen].
    exists (1 + Zlen (MQTTPacket_encode (Zlen body)) + Zlen k). unfold s2. by rewrite !advance_advance, Z.add_assoc.
Qed.

(** The time stamp of a packet received. *)
Definition received (s : St P ScriptNet) : St P ScriptNet :=
  let n := net (st_client s) in
  set_client s (set_net (st_client s)
    (mkNet (net_socket n) (net_lastSent n) (sn_clock (st_net s)) (net_lastPing n))).

(** Packets survive fragmentation over the scripted network.  When the bytes that have arrived are only a
    proper beginning of a packet, wherever it is cut, [MQTTPacket_Factory] returns
    [TCPSOCKET_INTERRUPTED] without a packet and leaves the state as it was, with the
    stream where the packet starts; once the rest has arrived the next call parses
    the packet from exactly its own bytes, and leaves the stream right behind it. *)
Theorem Factory_fragmentation (v header : Z) (body : list Z) (s : St P ScriptNet) :
  Zlen body < 268435456 -> 0 <= sn_pos (st_net s) ->
  let bytes := header :: MQTTPacket_encode (Zlen body) ++ body in
  (forall arrived missing,
     bytes = arrived ++ missing -> missing <> [] -> avail s = arrived ->
     MQTTPacket_Factory v s = Ok ((TCPSOCKET_INTERRUPTED, None), s)) /\
  (forall rest error pack s',
     avail s = bytes ++ rest ->
     factory_packet v header body (advance (Zlen bytes) s) = Ok ((error, pack), s') ->
     error <> TCPSOCKET_INTERRUPTED ->
     MQTTPacket_Factory v s
       = Ok ((error, pack), if bool_decide (is_Some pack) then received s' else s') /\
     avail s' = rest).
Proof.
  intros Hb Hp bytes. split.
  - intros arrived missing Heq Hm Ha.
    destruct (factory_body_partial v header body arrived missing s Hb Hp Hm Heq Ha) as (k & Hk).
    unfold MQTTPacket_Factory. rewrite (sm_bind_run sm_get _ s s s) by done.
    rewrite (sm_bind_run _ _ _ _ _ Hk). cbv beta iota. cbn [Z.eqb TCPSOCKET_INTERRUPTED].
    unfold sm_modify, mbind, sm_bind, mret, sm_ret. f_equal. f_equal. apply rewind.
  - intros rest error pack s' Ha Hf He.
    assert (avail s = header :: MQTTPacket_encode (Zlen body) ++ body ++ rest) as Ha'
      by (rewrite Ha; unfold bytes; simpl; by rewrite <- app_assoc).
    pose proof (factory_body_frame v header body rest s Hb Hp Ha') as Hfb. fold bytes in Hfb.
    rewrite (sm_bind_run _ _ _ _ _ Hf) in Hfb. cbv beta iota in Hfb.
    pose proof (factory_packet_frame _ _ _ _ _ _ Hf) as Hs'.
    assert (avail s' = rest) as Hav.
    { rewrite Hs'. apply (avail_advance bytes rest s Hp Ha). }
    split; [|done]. unfold MQTTPacket_Factory. rewrite (sm_bind_run sm_get _ s s s) by done.
    assert (factory_body v s = Ok ((error, pack), if bool_decide (is_Some pack) then received s' else s')) as Hfb'.
    { rewrite Hfb. destruct pack as [q|].
      - rewrite bool_decide_eq_true_2 by done. by destruct s' as [c ? ? ? [r w i pos cl] ? ?].
      - rewrite bool_decide_eq_false_2 by (intros [? [=]]). done. }
    rewrite (sm_bind_run _ _ _ _ _ Hfb'). cbv beta iota.
    destruct (Z.eqb_spec error TCPSOCKET_INTERRUPTED); [done|]. done.
Qed.

End Stream.

Definition stream_state (input : list Z) : St MemStore ScriptNet :=
  mkSt sample_client ∅ (mkPubs ∅ AList.empty) [] (mkScript [] [] input 2 7) 0 0.

Lemma Factory_fragmentation_witness :
  let body := [0; 1; 97; 120; 121] in
  let cut := stream_state [9; 9; 48; 5; 0; 1] in
  let whole := stream_state [9; 9; 48; 5; 0; 1; 97; 120; 121; 208] in
  MQTTPacket_Factory 4 cut = Ok ((TCPSOCKET_INTERRUPTED, None), cut) /\
  exists pack s', MQTTPacket_Factory 4 whole = Ok ((TCPSOCKET_COMPLETE, Some pack), received s') /\
    avail s' = [208].
Proof.
  intros body cut whole. split.
  - apply (proj1 (Factory_fragmentation 4 48 body cut ltac:(reflexivity) ltac:(simpl; lia))
             [48; 5; 0; 1] [97; 120; 121]); [reflexivity | discriminate | reflexivity].
  - do 2 eexists.
    eapply (proj2 (Factory_fragmentation 4 48 body whole ltac:(reflexivity) ltac:(simpl; lia))
              [208] TCPSOCKET_COMPLETE (Some _)); [reflexivity | reflexivity | discriminate].
Defined.

End PacketIO.
