(* ===== verification/Protocol.v ===== *)
(** * The client side of the protocol ([src/src/MQTTProtocolClient.c])

    Message identifiers, the publish exchanges, the handlers of the packets received,
    keep alive and retries, with the functions of [MQTTClient.c] they call.  A
    handler runs on the state of the client its socket belongs to; the frame that
    looks the client up is in [Session]. *)

From S2P Require Import Prelude.
From S2P Require Import Wire.
From S2P Require Import Properties.
From S2P Require Import LinkedList.
From S2P Require Import Clients.
From S2P Require Import Packet.
From S2P Require Import State.
From S2P Require Import Store.
From S2P Require Import Persistence.
From S2P Require Import PacketIO.
From Stdlib Require Import ZArith Lia List.
From stdpp Require Import base numbers list gmap.

Open Scope Z_scope.

Module Protocol.
Import Wire Properties Clients Packet State Store Persistence PacketIO.

(** ** Message identifiers *)

(** [messageIDCompare] *)
Definition messageIDCompare (id : Z) (m : Messages) : bool := m_msgid m =? id.

Definition next_msgid (msgid : Z) : Z := if msgid =? MAX_MSG_ID then 1 else msgid + 1.

(** The [while] loop: the identifier, 0 when it came back to where it started, and the
    list, whose cursor the searches move.  [None] is a loop that does not end. *)
Fixpoint assign_loop (fuel : nat) (start_msgid msgid : Z) (l : AList.t Messages)
    : option (Z * AList.t Messages) :=
  match fuel with
  | O => None
  | S fuel' =>
      match AList.find (messageIDCompare msgid) l with
      | (None, l') => Some (msgid, l')
      | (Some _, l') =>
          let msgid := next_msgid msgid in
          if msgid =? start_msgid then Some (0, l')
          else assign_loop fuel' start_msgid msgid l'
      end
  end.

(** [MQTTProtocol_assignMsgId]: as many turns as there are identifiers. *)
Definition MQTTProtocol_assignMsgId (client : Clients) : option (Z * Clients) :=
  let start_msgid := msgID client in
  '(msgid, l) ← assign_loop (Z.to_nat MAX_MSG_ID) start_msgid (next_msgid start_msgid) (outboundMsgs client);
  let client := set_outbound client l in
  Some (msgid, if msgid =? 0 then client else set_msgID client msgid).

(** *** The identifier found *)

(** The identifier tried at turn [k]. *)
Definition candidate (start : Z) (k : Z) : Z := (start + k) mod MAX_MSG_ID + 1.

Lemma candidate_range start k : 1 <= candidate start k <= MAX_MSG_ID.
Proof. unfold candidate, MAX_MSG_ID. pose proof (Z.mod_pos_bound (start + k) 65535). lia. Qed.

Lemma candidate_next start k : next_msgid (candidate start k) = candidate start (k + 1).
Proof.
  unfold next_msgid, candidate, MAX_MSG_ID.
  destruct (Z.eqb_spec ((start + k) mod 65535 + 1) 65535); dlia.
Qed.

Lemma candidate_first start : 0 <= start <= MAX_MSG_ID -> next_msgid start = candidate start 0.
Proof.
  unfold next_msgid, candidate, MAX_MSG_ID. intros H. destruct (Z.eqb_spec start 65535); dlia.
Qed.

(** The search is back where it started at the last turn, and not before. *)
Lemma candidate_start start k :
  1 <= start <= MAX_MSG_ID -> 0 <= k < MAX_MSG_ID -> candidate start k = start <-> k = MAX_MSG_ID - 1.
Proof. unfold candidate, MAX_MSG_ID. intros Hs Hk. split; intros; dlia. Qed.

Lemma candidate_surj start id :
  0 <= start <= MAX_MSG_ID -> 1 <= id <= MAX_MSG_ID ->
  exists k, 0 <= k < MAX_MSG_ID /\ candidate start k = id.
Proof.
  unfold candidate, MAX_MSG_ID. intros Hs Hi.
  destruct (Z.leb_spec (start + 1) id).
  - exists (id - 1 - start). split; [lia|]. dlia.
  - exists (id - 1 - start + 65535). split; [lia|]. dlia.
Qed.

Definition in_use (l : AList.t Messages) (id : Z) : Prop := In id (map m_msgid (AList.items l)).

Lemma find_id_spec id l :
  match AList.find (messageIDCompare id) l with
  | (Some i, l') => in_use l id /\ (exists m, AList.items l !! i = Some m /\ m_msgid m = id)
                    /\ l' = AList.mk (AList.items l) (Some i)
  | (None, l') => ~ in_use l id /\ l' = l
  end.
Proof.
  pose proof (AList.find_spec (messageIDCompare id) l) as Hs. unfold in_use.
  destruct (AList.find (messageIDCompare id) l) as [[i|] l'].
  - destruct Hs as [Hh ->]. apply AList.holds_lookup in Hh as (m & Hm & Hid).
    apply Z.eqb_eq in Hid. split; [|split; [by exists m|done]].
    rewrite <- Hid. apply in_map, list_elem_of_In, list_elem_of_lookup. by exists i.
  - destruct Hs as [Hno ->]. split; [|done]. intros Hin. apply in_map_iff in Hin as (m & Hid & Hin).
    apply list_elem_of_In, list_elem_of_lookup in Hin as [i Hi].
    specialize (Hno i). unfold AList.holds in Hno. rewrite Hi in Hno.
    unfold messageIDCompare in Hno. apply Z.eqb_neq in Hno. done.
Qed.

(** What the loop does from turn [k], all earlier identifiers being in use. *)
Lemma assign_loop_spec fuel start k l :
  0 <= start <= MAX_MSG_ID -> Z.of_nat fuel = MAX_MSG_ID - k -> 0 <= k ->
  (1 <= start -> k < MAX_MSG_ID - 1) ->
  (forall j, 0 <= j < k -> in_use l (candidate start j)) ->
  match assign_loop fuel start (candidate start k) l with
  | Some (id, l') =>
      AList.items l' = AList.items l /\
      ((exists j, 0 <= j < MAX_MSG_ID /\ id = candidate start j /\ id <> start /\ ~ in_use l id /\
                  forall i, 0 <= i < j -> in_use l (candidate start i)) \/
       (id = 0 /\ 1 <= start /\ forall i, 1 <= i <= MAX_MSG_ID -> i <> start -> in_use l i))
  | None => start = 0 /\ forall i, 1 <= i <= MAX_MSG_ID -> in_use l i
  end.
Proof.
  revert k l. induction fuel as [|fuel IH]; intros k l Hs Hf Hk Hlast Hused; cbn [assign_loop].
  { assert (k = MAX_MSG_ID) by lia. split; [unfold MAX_MSG_ID in *; lia|]. intros i Hi.
    destruct (candidate_surj start i Hs Hi) as (j & Hj & <-). apply Hused. lia. }
  pose proof (find_id_spec (candidate start k) l) as Hfind.
  destruct (AList.find (messageIDCompare (candidate start k)) l) as [[i|] l'].
  - destruct Hfind as (Hu & _ & ->). rewrite candidate_next.
    assert (forall j, 0 <= j < k + 1 -> in_use l (candidate start j)) as Hused'.
    { intros j Hj. destruct (Z.eq_dec j k) as [->|]; [done|]. apply Hused. lia. }
    destruct (Z.eqb_spec (candidate start (k + 1)) start) as [E|E].
    + split; [done|]. right. pose proof (candidate_range start (k + 1)) as Hr. rewrite E in Hr.
      split; [done|]. split; [lia|]. intros id Hid Hne.
      destruct (candidate_surj start id Hs Hid) as (j & Hj & <-). apply Hused'.
      assert (j <> MAX_MSG_ID - 1) by (intros ->; apply Hne; apply candidate_start; lia).
      specialize (Hlast ltac:(lia)).
      apply candidate_start in E; lia.
    + apply (IH (k + 1) (AList.mk (AList.items l) (Some i))); try done; try lia.
      intros H1. assert (k + 1 <> MAX_MSG_ID - 1) by (intros Hk1; apply E, candidate_start; lia).
      specialize (Hlast H1). lia.
  - destruct Hfind as (Hu & ->). split; [done|]. left. exists k.
    unfold MAX_MSG_ID in *. split; [lia|]. split; [done|]. split; [|done].
    intros E. pose proof (candidate_range start k). specialize (Hlast ltac:(lia)).
    apply candidate_start in E; unfold MAX_MSG_ID in *; lia.
Qed.

(** The client after a call, and the identifier it gives. *)
Lemma assignMsgId_ok (c : Clients) :
  0 <= msgID c <= MAX_MSG_ID ->
  match MQTTProtocol_assignMsgId c with
  | Some (id, c') =>
      exists l, AList.items l = AList.items (outboundMsgs c) /\
        c' = (if id =? 0 then set_outbound c l else set_msgID (set_outbound c l) id) /\
        ((exists j, 0 <= j < MAX_MSG_ID /\ id = candidate (msgID c) j /\ id <> msgID c /\
            ~ in_use (outboundMsgs c) id /\
            forall i, 0 <= i < j -> in_use (outboundMsgs c) (candidate (msgID c) i)) \/
         (id = 0 /\ 1 <= msgID c /\
          forall i, 1 <= i <= MAX_MSG_ID -> i <> msgID c -> in_use (outboundMsgs c) i))
  | None => msgID c = 0 /\ forall i, 1 <= i <= MAX_MSG_ID -> in_use (outboundMsgs c) i
  end.
Proof.
  intros Hs. unfold MQTTProtocol_assignMsgId. rewrite candidate_first by done.
  pose proof (assign_loop_spec (Z.to_nat MAX_MSG_ID) (msgID c) 0 (outboundMsgs c) Hs) as H.
  specialize (H ltac:(done) ltac:(done)). specialize (H ltac:(done) ltac:(lia)).
  destruct (assign_loop _ _ _ _) as [[id l']|]; [|exact H]. cbn [mbind option_bind].
  destruct H as [Hl H]. exists l'. split; [done|]. split; [by destruct (id =? 0) | exact H].
Qed.

(** C24. Message identifiers.  [MQTTProtocol_assignMsgId] returns an identifier between
    1 and 65535 that no outbound message has, the first such one after the last one
    assigned (wrapping round), and records it; or 0, exactly when all the others are
    in use, without trying the last one assigned again.  It fails to return only for
    a client that has assigned none and has every identifier in use. *)
Theorem assignMsgId_spec (c : Clients) :
  0 <= msgID c <= MAX_MSG_ID ->
  match MQTTProtocol_assignMsgId c with
  | Some (id, c') =>
      AList.items (outboundMsgs c') = AList.items (outboundMsgs c) /\
      (1 <= id <= MAX_MSG_ID /\ msgID c' = id /\ id <> msgID c /\ ~ in_use (outboundMsgs c) id /\
         (exists j, id = candidate (msgID c) j /\
                    forall i, 0 <= i < j -> in_use (outboundMsgs c) (candidate (msgID c) i))
       \/ id = 0 /\ msgID c' = msgID c /\ 1 <= msgID c /\
          (forall i, 1 <= i <= MAX_MSG_ID -> i <> msgID c -> in_use (outboundMsgs c) i))
  | None => msgID c = 0 /\ forall i, 1 <= i <= MAX_MSG_ID -> in_use (outboundMsgs c) i
  end.
Proof.
  intros Hs. pose proof (assignMsgId_ok c Hs) as H.
  destruct (MQTTProtocol_assignMsgId c) as [[id c']|]; [|exact H].
  destruct H as (l & Hl & -> & [(j & Hj & Hid & Hne & Hu & Hall)|(-> & H1 & Hall)]).
  - pose proof (candidate_range (msgID c) j) as Hr. rewrite <- Hid in Hr.
    destruct (Z.eqb_spec id 0); [lia|]. split; [done|]. left. eauto 8.
  - split; [done|]. by right.
Qed.

(** A client that assigned 65534 last, with 65535 and 1 in use, goes on to 2. *)
Definition wrapping_client : Clients :=
  set_outbound (set_msgID sample_client 65534)
    (AList.mk [sample_message 65535; sample_message 1] None).

Lemma assignMsgId_spec_witness :
  option_map fst (MQTTProtocol_assignMsgId wrapping_client) = Some 2 /\
  match MQTTProtocol_assignMsgId wrapping_client with
  | Some (id, c') =>
      AList.items (outboundMsgs c') = AList.items (outboundMsgs wrapping_client) /\
      (1 <= id <= MAX_MSG_ID /\ msgID c' = id /\ id <> msgID wrapping_client /\
         ~ in_use (outboundMsgs wrapping_client) id /\
         (exists j, id = candidate (msgID wrapping_client) j /\
            forall i, 0 <= i < j -> in_use (outboundMsgs wrapping_client) (candidate (msgID wrapping_client) i))
       \/ id = 0 /\ msgID c' = msgID wrapping_client /\ 1 <= msgID wrapping_client /\
          (forall i, 1 <= i <= MAX_MSG_ID -> i <> msgID wrapping_client ->
             in_use (outboundMsgs wrapping_client) i))
  | None => msgID wrapping_client = 0 /\
            forall i, 1 <= i <= MAX_MSG_ID -> in_use (outboundMsgs wrapping_client) i
  end.
Proof.
  split; [vm_compute; reflexivity|]. apply (assignMsgId_spec wrapping_client).
  unfold MAX_MSG_ID. simpl. lia.
Defined.

Section Protocol.
Context {P N : Type} {PO : PersistenceOps P} {NT : Transport N}.
Abbreviation M := (SM (St P N)).

(** ** Lists of messages *)

Definition set_item {A} (i : nat) (x : A) (l : AList.t A) : AList.t A :=
  AList.mk (<[i := x]> (AList.items l)) (AList.current l).

(** A search by identifier, which leaves the cursor on what it finds. *)
Definition find_outbound (id : Z) : M (option (nat * Messages)) :=
  s ← sm_get;
  let '(r, l) := AList.find (messageIDCompare id) (outboundMsgs (st_client s)) in
  _ ← modify_client (fun c => set_outbound c l);
  mret (i ← r; m ← AList.items l !! i; Some (i, m)).
Definition find_inbound (id : Z) : M (option (nat * Messages)) :=
  s ← sm_get;
  let '(r, l) := AList.find (messageIDCompare id) (inboundMsgs (st_client s)) in
  _ ← modify_client (fun c => set_inbound c l);
  mret (i ← r; m ← AList.items l !! i; Some (i, m)).

(** [ListRemove] of the message of index [i], the content being found there. *)
Definition remove_outbound (i : nat) : M () :=
  modify_client (fun c => set_outbound c (AList.remove_at i (outboundMsgs c))).
Definition remove_inbound (i : nat) : M () :=
  modify_client (fun c => set_inbound c (AList.remove_at i (inboundMsgs c))).
Definition write_outbound (i : nat) (m : Messages) : M () :=
  modify_client (fun c => set_outbound c (set_item i m (outboundMsgs c))).

Definition incr_sent : M () :=
  sm_modify (fun s => set_counters s (to_u32 (st_msgs_sent s + 1)) (st_msgs_received s)).
Definition incr_received : M () :=
  sm_modify (fun s => set_counters s (st_msgs_sent s) (to_u32 (st_msgs_received s + 1))).

Definition persistence_remove (type : list Z) (qos msgId : Z) : M Z :=
  s ← sm_get; call_persistence (MQTTPersistence_remove (st_client s) type qos msgId).

Definition sent_type (v : Z) : list Z :=
  if MQTTVERSION_5 <=? v then PERSISTENCE_V5_PUBLISH_SENT else PERSISTENCE_PUBLISH_SENT.
Definition received_type (v : Z) : list Z :=
  if MQTTVERSION_5 <=? v then PERSISTENCE_V5_PUBLISH_RECEIVED else PERSISTENCE_PUBLISH_RECEIVED.

(** ** Delivery to the application ([MQTTClient.c]) *)

(** [Protocol_processPublication]: a copy of the message is queued; a null topic is
    passed to [strlen]. *)
Definition Protocol_processPublication (publish : Publish) (allocatePayload : Z) : M () :=
  match pub_topic publish with
  | None => sm_oob
  | Some topic =>
      props ← (if 5 <=? pub_MQTTVersion publish
               then sm_lift (MQTTProperties_copy (pub_properties publish))
               else mret MQTTProperties_initializer);
      let qos := hdr_qos (pub_header publish) in
      let qe := mkqEntry (default [] (pub_payload publish)) qos (hdr_retain (pub_header publish))
                  (if qos =? 2 then 0 else hdr_dup (pub_header publish)) (pub_msgId publish) props
                  topic (pub_topiclen publish) 0 in
      s ← sm_get;
      if persistence (st_client s) then
        '(_, c, qe, p) ← sm_lift (MQTTPersistence_persistQueueEntry (st_client s) qe (st_phandle s));
        _ ← sm_modify (fun s => set_phandle (set_client s c) p);
        modify_client (fun c => set_queue c (AList.append qe (messageQueue c)) (qentry_seqno c))
      else
        modify_client (fun c => set_queue c (AList.append qe (messageQueue c)) (qentry_seqno c))
  end.

(** ** Publishing *)

(** [MQTTProtocol_storeQoS0] *)
Definition MQTTProtocol_storeQoS0 (publish : Publish) : M Publish :=
  s ← sm_get;
  '(p, publish') ← MQTTProtocol_storePublication publish;
  _ ← sm_modify (fun s => set_pending s (st_pending s ++ [mkPending (the_socket s) p]));
  pb ← deref_pub p;
  _ ← call_net (updateWrite (the_socket s) (default [] (pbs_topic pb)) (default [] (pbs_payload pb)));
  mret publish'.

(** [MQTTProtocol_startPublishCommon] *)
Definition MQTTProtocol_startPublishCommon (publish : Publish) (qos retained : Z) : M (Z * Publish) :=
  '(rc, publish) ← MQTTPacket_send_publish publish 0 qos retained;
  if (qos =? 0) && (rc =? TCPSOCKET_INTERRUPTED) then
    publish ← MQTTProtocol_storeQoS0 publish; mret (rc, publish)
  else mret (rc, publish).

(** What sending does to the buffers a stored publication shares with the packet. *)
Definition share_buffers (p : positive) (sent : Publish) : M () :=
  pb ← deref_pub p;
  write_pub p (mkPublications (pub_topic sent) (pbs_topiclen pb) (pub_payload sent) (pbs_payloadlen pb)
                 (pbs_refcount pb) (pub_mask sent)).

(** [MQTTProtocol_startPublish]; [None] for the message of QoS 0. *)
Definition MQTTProtocol_startPublish (publish : Publish) (qos retained : Z) (mm : option Messages)
    : M (Z * option Messages * Publish) :=
  if 0 <? qos then
    '(m, publish) ← MQTTProtocol_createMessage publish mm qos retained 0;
    _ ← modify_client (fun c => set_outbound c (AList.append m (outboundMsgs c)));
    match m_publish m with
    | None => sm_oob
    | Some p =>
        pb ← deref_pub p;
        let qos12pub := mkPublish (pub_header publish) (pbs_topic pb) (pub_topiclen publish)
                          (pub_msgId publish) (pbs_payload pb) (pub_payloadlen publish)
                          (m_MQTTVersion m) (m_properties m) (pub_mask publish) in
        '(rc, sent) ← MQTTProtocol_startPublishCommon qos12pub qos retained;
        _ ← share_buffers p sent;
        mret (rc, Some m, publish)
    end
  else
    '(rc, publish) ← MQTTProtocol_startPublishCommon publish qos retained;
    mret (rc, None, publish).

(** ** Packets received *)

(** The DUP bit of a QoS 2 message handed to the application is not looked at. *)
Definition publication_of (m : Messages) (pb : Publications) : Publish :=
  mkPublish (mk_header 0 0 (m_qos m) (m_retain m)) (pbs_topic pb) (pbs_topiclen pb) (m_msgid m)
    (pbs_payload pb) (pbs_payloadlen pb) (m_MQTTVersion m) (m_properties m) no_mask.

Definition set_publish (m : Messages) (p : option positive) : Messages :=
  mkMessages (m_qos m) (m_retain m) (m_msgid m) (m_MQTTVersion m) (m_properties m) p
    (m_lastTouch m) (m_nextMessageType m).

(** [ListRemove] of the publication a message points to. *)
Definition unlink_publication (o : option positive) : M () :=
  match o with Some p => ListRemove_publication p | None => mret () end.

(** The message [m] takes the place of the one with its identifier, if there is one:
    the index it has in the list. *)
Definition hold_message (found : option (nat * Messages)) (m : Messages) : M nat :=
  s ← sm_get;
  match found with
  | Some (i, msg) =>
      _ ← MQTTProtocol_removePublication (m_publish msg);
      _ ← modify_client (fun c => set_inbound c
            (AList.remove_at (S i) (AList.insert_before i m (inboundMsgs c))));
      mret i
  | None =>
      _ ← modify_client (fun c => set_inbound c (AList.append m (inboundMsgs c)));
      mret (List.length (AList.items (inboundMsgs (st_client s))))
  end.

(** The QoS 2 branch of [MQTTProtocol_handlePublishes].  The [lastTouch] of a received
    message is neither set nor read. *)
Definition handle_qos2 (publish : Publish) : M Z :=
  '(p, publish') ← MQTTProtocol_storePublication publish;
  props ← (if MQTTVERSION_5 <=? pub_MQTTVersion publish
           then sm_lift (MQTTProperties_copy (pub_properties publish))
           else mret MQTTProperties_initializer);
  let m := mkMessages (hdr_qos (pub_header publish)) (hdr_retain (pub_header publish)) (pub_msgId publish)
             (pub_MQTTVersion publish) props (Some p) 0 (Some PUBREL) in
  found ← find_inbound (m_msgid m);
  i ← hold_message found m;
  rc ← MQTTPacket_send_pubrec (pub_MQTTVersion publish) (pub_msgId publish);
  if (MQTTVERSION_5 <=? m_MQTTVersion m) && negb (bool_decide (is_Some found)) then
    pb ← deref_pub p;
    _ ← Protocol_processPublication (publication_of m pb) 1;
    _ ← unlink_publication (Some p);
    _ ← modify_client (fun c => set_inbound c (set_item i (set_publish m None) (inboundMsgs c)));
    mret rc
  else mret rc.

(** [MQTTProtocol_handlePublishes] *)
Definition MQTTProtocol_handlePublishes (publish : Publish) : M Z :=
  s ← sm_get;
  let qos := hdr_qos (pub_header publish) in
  if qos =? 0 then
    _ ← Protocol_processPublication publish 1; mret TCPSOCKET_COMPLETE
  else
    ready ← call_net (noPendingWrites (the_socket s));
    if negb ready then mret SOCKET_ERROR
    else if qos =? 1 then
      rc ← MQTTPacket_send_puback (pub_MQTTVersion publish) (pub_msgId publish);
      _ ← Protocol_processPublication publish 1;
      mret rc
    else if qos =? 2 then handle_qos2 publish
    else mret TCPSOCKET_COMPLETE.

(** A message leaves the outbound list. *)
Definition complete_outbound (i : nat) (m : Messages) : M () :=
  _ ← MQTTProtocol_removePublication (m_publish m);
  remove_outbound i.

(** The identifier of an acknowledgement; it is only unset in a DISCONNECT. *)
Definition with_msgid {A} (a : Ack) (f : Z -> M A) : M A :=
  match ack_msgId a with Some id => f id | None => sm_oob end.

(** [MQTTProtocol_handlePubacks] *)
Definition MQTTProtocol_handlePubacks (puback : Ack) : M Z :=
  with_msgid puback (fun msgId =>
    found ← find_outbound msgId;
    match found with
    | None => mret TCPSOCKET_COMPLETE
    | Some (i, m) =>
        if negb (m_qos m =? 1) then mret TCPSOCKET_COMPLETE
        else
          rc ← persistence_remove (sent_type (m_MQTTVersion m)) (m_qos m) msgId;
          _ ← complete_outbound i m;
          mret rc
    end).

Definition MQTTREASONCODE_UNSPECIFIED_ERROR : Z := 128.

Definition pubrec_error (pubrec : Ack) : bool :=
  (MQTTVERSION_5 <=? ack_MQTTVersion pubrec) &&
  match ack_rc pubrec with Some rc => MQTTREASONCODE_UNSPECIFIED_ERROR <=? rc | None => false end.

(** A message for which PUBREL has just been sent. *)
Definition touched (m : Messages) (now : Z) (next : option Z) : Messages :=
  mkMessages (m_qos m) (m_retain m) (m_msgid m) (m_MQTTVersion m) (m_properties m) (m_publish m) now next.

(** [MQTTProtocol_handlePubrecs] *)
Definition MQTTProtocol_handlePubrecs (pubrec : Ack) : M Z :=
  with_msgid pubrec (fun msgId =>
    _ ← modify_client (fun c => set_outbound c (AList.mk (AList.items (outboundMsgs c)) None));
    found ← find_outbound msgId;
    match found with
    | None => mret TCPSOCKET_COMPLETE
    | Some (i, m) =>
        if negb (m_qos m =? 2) then mret TCPSOCKET_COMPLETE
        else if negb (bool_decide (m_nextMessageType m = Some PUBREC)) then mret TCPSOCKET_COMPLETE
        else if pubrec_error pubrec then
          rc ← persistence_remove (sent_type (ack_MQTTVersion pubrec)) (m_qos m) msgId;
          _ ← complete_outbound i m;
          _ ← incr_sent;
          mret rc
        else
          rc ← MQTTPacket_send_pubrel (ack_MQTTVersion pubrec) msgId 0;
          now ← MQTTTime_now;
          _ ← write_outbound i (touched m now (Some PUBCOMP));
          mret rc
    end).

(** The reception of a PUBREL for a message held. *)
Definition release_inbound (i : nat) (m : Messages) (pubrel : Ack) (msgId : Z) : M Z :=
  rc ← MQTTPacket_send_pubcomp (ack_MQTTVersion pubrel) msgId;
  publish ← match m_publish m with
            | Some p => pb ← deref_pub p; mret (publication_of m pb)
            | None => mret (publication_of m (mkPublications None 0 None 0 0 []))
            end;
  _ ← (if MQTTVERSION_5 <=? m_MQTTVersion m then mret () else Protocol_processPublication publish 0);
  rc2 ← persistence_remove (received_type (m_MQTTVersion m)) (m_qos m) msgId;
  _ ← unlink_publication (m_publish m);
  _ ← remove_inbound i;
  _ ← incr_received;
  mret (rc + rc2).

(** [MQTTProtocol_handlePubrels] *)
Definition MQTTProtocol_handlePubrels (pubrel : Ack) : M Z :=
  with_msgid pubrel (fun msgId =>
    found ← find_inbound msgId;
    s ← sm_get;
    match found with
    | None =>
        if hdr_dup (ack_header pubrel) =? 0 then mret TCPSOCKET_COMPLETE
        else
          ready ← call_net (noPendingWrites (the_socket s));
          if negb ready then mret SOCKET_ERROR
          else MQTTPacket_send_pubcomp (ack_MQTTVersion pubrel) msgId
    | Some (i, m) =>
        if negb (m_qos m =? 2) then mret TCPSOCKET_COMPLETE
        else if negb (bool_decide (m_nextMessageType m = Some PUBREL)) then mret TCPSOCKET_COMPLETE
        else
          ready ← call_net (noPendingWrites (the_socket s));
          if negb ready then mret SOCKET_ERROR
          else release_inbound i m pubrel msgId
    end).

(** [MQTTProtocol_handlePubcomps] *)
Definition MQTTProtocol_handlePubcomps (pubcomp : Ack) : M Z :=
  with_msgid pubcomp (fun msgId =>
    found ← find_outbound msgId;
    match found with
    | None => mret TCPSOCKET_COMPLETE
    | Some (i, m) =>
        if negb (m_qos m =? 2) then mret TCPSOCKET_COMPLETE
        else if negb (bool_decide (m_nextMessageType m = Some PUBCOMP)) then mret TCPSOCKET_COMPLETE
        else
          rc ← persistence_remove (sent_type (m_MQTTVersion m)) (m_qos m) msgId;
          _ ← complete_outbound i m;
          _ ← incr_sent;
          mret rc
    end).

End Protocol.
End Protocol.
