(* ===== verification/Invariant.v ===== *)
(** * The protocol invariant

    What holds of the messages and publications of a session between any two calls,
    and what each handler of [Protocol] does to them.  Every proof here is of total
    correctness: the handlers return, and never use a freed publication, a null
    topic or bytes they were not given. *)

From S2P Require Import Prelude.
From S2P Require Import Wire.
From S2P Require Import Properties.
From S2P Require Import LinkedList.
From S2P Require Import Clients.
From S2P Require Import Packet.
From S2P Require Import State.
From S2P Require Import Store.
From S2P Require Import Persistence.
From S2P Require Import PacketIO.
From S2P Require Import Protocol.
From Stdlib Require Import ZArith Lia List.
From stdpp Require Import base numbers list gmap.

Open Scope Z_scope.

Module Invariant.
Import Wire Properties Clients Packet State Store Persistence PacketIO Protocol.

(** ** The invariant *)

(** A publication with a topic and as many payload bytes as it says. *)
Definition live (h : gmap positive Publications) (p : positive) : Prop :=
  exists pb topic, h !! p = Some pb /\ pbs_topic pb = Some topic /\
    Zlen (default [] (pbs_payload pb)) = pbs_payloadlen pb.

(** A message sent waits for what its QoS makes it wait for. *)
Definition out_ok (h : gmap positive Publications) (m : Messages) : Prop :=
  1 <= m_msgid m <= MAX_MSG_ID /\
  (m_qos m = 1 \/ (m_qos m = 2 /\ (m_nextMessageType m = Some PUBREC \/ m_nextMessageType m = Some PUBCOMP))) /\
  (exists p, m_publish m = Some p /\ live h p) /\
  (MQTTVERSION_5 <= m_MQTTVersion m -> props_inv (m_properties m)).

(** A message received waits for PUBREL; before MQTT 5 it is still to be delivered. *)
Definition in_ok (h : gmap positive Publications) (m : Messages) : Prop :=
  m_qos m = 2 /\ m_nextMessageType m = Some PUBREL /\
  (m_MQTTVersion m < MQTTVERSION_5 -> exists p, m_publish m = Some p /\ live h p).

Section Inv.
Context {P N : Type}.

Definition outs (s : St P N) : list Messages := AList.items (outboundMsgs (st_client s)).
Definition ins (s : St P N) : list Messages := AList.items (inboundMsgs (st_client s)).
Definition queue (s : St P N) : list qEntry := AList.items (messageQueue (st_client s)).
Definition heap (s : St P N) : gmap positive Publications := ps_heap (st_pubs s).

(** The message identifier assigned last. *)
Definition last_id (s : St P N) : Z := msgID (st_client s).

(** The pointers to publications the session holds. *)
Definition refs (s : St P N) : list positive :=
  omap m_publish (outs s) ++ omap m_publish (ins s) ++ map pw_p (st_pending s).

Record inv (s : St P N) : Prop := {
  inv_store : store_inv (st_pubs s) (refs s);
  inv_out : Forall (out_ok (heap s)) (outs s);
  inv_in : Forall (in_ok (heap s)) (ins s);
  inv_out_ids : NoDup (map m_msgid (outs s));
  inv_in_ids : NoDup (map m_msgid (ins s));
  inv_msgid : 0 <= last_id s <= MAX_MSG_ID
}.

(** The parts of the state the network and persistence calls leave alone. *)
Record frame (s s' : St P N) : Prop := {
  fr_client : exists n, st_client s' = set_net (st_client s) n /\ net_socket n = the_socket s;
  fr_pubs : st_pubs s' = st_pubs s;
  fr_pending : st_pending s' = st_pending s;
  fr_sent : st_msgs_sent s' = st_msgs_sent s;
  fr_received : st_msgs_received s' = st_msgs_received s
}.

Lemma frame_refl s : frame s s.
Proof.
  split; try done. exists (net (st_client s)). split; [|done]. by destruct s as [[] ? ? ? ? ? ?].
Qed.

Lemma frame_trans s1 s2 s3 : frame s1 s2 -> frame s2 s3 -> frame s1 s3.
Proof.
  intros [(n & Hc & Hn) ? ? ? ?] [(n' & Hc' & Hn') ? ? ? ?]. split; try congruence.
  exists n'. rewrite Hc', Hc. split; [done|]. rewrite Hn'. unfold the_socket. by rewrite Hc.
Qed.

Lemma frame_lists s s' :
  frame s s' -> outs s' = outs s /\ ins s' = ins s /\ queue s' = queue s /\ heap s' = heap s
                /\ refs s' = refs s.
Proof.
  intros [(n & Hc & _) Hp Hw _ _]. unfold outs, ins, queue, heap, refs, outs, ins.
  rewrite Hc, Hp, Hw. done.
Qed.

Lemma inv_core s s' :
  outs s' = outs s -> ins s' = ins s -> st_pubs s' = st_pubs s -> st_pending s' = st_pending s ->
  last_id s' = last_id s -> inv s -> inv s'.
Proof.
  intros Ho Hi Hp Hw Hl [H1 H2 H3 H4 H5 H6].
  assert (refs s' = refs s) as Hr by (unfold refs; by rewrite Ho, Hi, Hw).
  assert (heap s' = heap s) as Hh by (unfold heap; by rewrite Hp).
  split; rewrite ?Hr, ?Hh, ?Ho, ?Hi, ?Hp, ?Hl; done.
Qed.

Lemma frame_inv s s' : frame s s' -> inv s -> inv s'.
Proof.
  intros Hf. destruct (frame_lists _ _ Hf) as (Ho & Hi & _ & _ & _).
  apply inv_core; [done | done | apply Hf | apply Hf |].
  destruct (fr_client _ _ Hf) as (n & Hc & _). unfold last_id. by rewrite Hc.
Qed.
End Inv.

(** ** Messages and the store *)

Lemma live_delete h p q : q <> p -> live h q -> live (delete p h) q.
Proof. intros Hne (pb & t & Hq & H1 & H2). exists pb, t. by rewrite lookup_delete_ne. Qed.

Lemma live_insert h p pb q :
  (exists t, pbs_topic pb = Some t /\ Zlen (default [] (pbs_payload pb)) = pbs_payloadlen pb) ->
  live h q -> live (<[p := pb]> h) q.
Proof.
  intros (t & H1 & H2) (qb & t' & Hq & H3 & H4). destruct (decide (p = q)) as [<-|Hne].
  - exists pb, t. by rewrite lookup_insert_eq.
  - exists qb, t'. by rewrite lookup_insert_ne.
Qed.

Lemma live_insert_fresh h p pb q : h !! p = None -> live h q -> live (<[p := pb]> h) q.
Proof.
  intros Hn (qb & t & Hq & H). exists qb, t. rewrite lookup_insert_ne; [done|]. congruence.
Qed.

(** The obligations of messages move along a change of the store. *)
Lemma out_ok_mono h h' l :
  (forall p, p ∈ omap m_publish l -> live h p -> live h' p) -> Forall (out_ok h) l -> Forall (out_ok h') l.
Proof.
  intros Hl. induction l as [|m l IH]; [done|]. rewrite !Forall_cons.
  intros [(H1 & H2 & (p & Hp & Hv) & H4) Hf]. simpl in Hl. rewrite Hp in Hl. split.
  - split; [done|]. split; [done|]. split; [|done]. exists p. split; [done|]. apply Hl; [by left | done].
  - apply IH; [|done]. intros q Hq. apply Hl. by right.
Qed.

Lemma in_ok_mono h h' l :
  (forall p, p ∈ omap m_publish l -> live h p -> live h' p) -> Forall (in_ok h) l -> Forall (in_ok h') l.
Proof.
  intros Hl. induction l as [|m l IH]; [done|]. rewrite !Forall_cons.
  intros [(H1 & H2 & H3) Hf]. split.
  - split; [done|]. split; [done|]. intros Hv. destruct (H3 Hv) as (p & Hp & Hpl).
    exists p. split; [done|]. simpl in Hl. rewrite Hp in Hl. apply Hl; [by left | done].
  - apply IH; [|done]. intros q Hq. apply Hl. simpl. destruct (m_publish m); [by right | done].
Qed.

(** Taking a message out of a list. *)
Lemma omap_delete (l : list Messages) i m :
  l !! i = Some m -> omap m_publish l ≡ₚ option_list (m_publish m) ++ omap m_publish (delete i l).
Proof.
  intros Hi. rewrite (delete_Permutation l i m Hi) at 1. simpl. by destruct (m_publish m).
Qed.

(** Keys being distinct, removing an element is removing its key. *)
Lemma delete_filter {A} (key : A -> Z) (l : list A) i x :
  NoDup (map key l) -> l !! i = Some x ->
  delete i l = List.filter (fun y => negb (key y =? key x)) l.
Proof.
  revert i. induction l as [|y l IH]; intros i Hn Hi; [done|].
  simpl in Hn. apply NoDup_cons in Hn as [Hy Hn]. destruct i as [|i].
  - injection Hi as ->. simpl. rewrite Z.eqb_refl. simpl. clear -Hy.
    induction l as [|z l IH]; [done|]. simpl in *. apply not_elem_of_cons in Hy as [Hne Hy].
    destruct (Z.eqb_spec (key z) (key x)); [congruence|]. simpl. by rewrite <- IH.
  - simpl in Hi |- *. destruct (Z.eqb_spec (key y) (key x)) as [E|_].
    + exfalso. apply Hy. rewrite E. apply list_elem_of_fmap. exists x. split; [done|].
      by apply list_elem_of_lookup_2 in Hi.
    + simpl. f_equal. by apply IH.
Qed.

(** Keys being distinct, replacing an element is replacing the elements of its key. *)
Lemma insert_map {A} (key : A -> Z) (l : list A) i x y :
  NoDup (map key l) -> l !! i = Some x ->
  <[i := y]> l = map (fun z => if key z =? key x then y else z) l.
Proof.
  revert i. induction l as [|z l IH]; intros i Hn Hi; [done|].
  simpl in Hn. apply NoDup_cons in Hn as [Hz Hn]. destruct i as [|i].
  - injection Hi as ->. simpl. rewrite Z.eqb_refl. f_equal. clear -Hz.
    induction l as [|z l IH]; [done|]. simpl in *. apply not_elem_of_cons in Hz as [Hne Hz].
    destruct (Z.eqb_spec (key z) (key x)); [congruence|]. by rewrite <- IH.
  - simpl in Hi |- *. destruct (Z.eqb_spec (key z) (key x)) as [E|_].
    + exfalso. apply Hz. rewrite E. apply list_elem_of_fmap. exists x. split; [done|].
      by apply list_elem_of_lookup_2 in Hi.
    + f_equal. by apply IH.
Qed.

(** ** The calls of the interfaces *)
Section Calls.
Context {P N : Type} {PO : PersistenceOps P} {NT : Transport N} {NL : TransportLaws N}.
Implicit Types s : St P N.

Lemma frame_network s n : frame s (set_network s n).
Proof.
  split; try done. exists (net (st_client s)). split; [|done]. by destruct s as [[] ? ? ? ? ? ?].
Qed.

Lemma frame_phandle s p : frame s (set_phandle s p).
Proof.
  split; try done. exists (net (st_client s)). split; [|done]. by destruct s as [[] ? ? ? ? ? ?].
Qed.

Lemma wp_call_net {A} (f : N -> A * N) s (Q : A -> St P N -> Prop) :
  (forall a n, f (st_net s) = (a, n) -> Q a (set_network s n)) -> wp (call_net f) s Q.
Proof.
  intros H. unfold wp, call_net. destruct (f (st_net s)) as [a n] eqn:E. eauto.
Qed.

Lemma wp_call_persistence (f : P -> Z * P) s (Q : Z -> St P N -> Prop) :
  (forall rc p, f (st_phandle s) = (rc, p) -> Q rc (set_phandle s p)) -> wp (call_persistence f) s Q.
Proof.
  intros H. unfold wp, call_persistence. destruct (f (st_phandle s)) as [a n] eqn:E. eauto.
Qed.

Lemma wp_put_frame buf0 bufs mask s :
  wp (put_frame buf0 bufs mask) s (fun r s' =>
    frame s s' /\ Forall2 (fun b b' => Zlen b' = Zlen b) bufs (snd (fst r))).
Proof.
  unfold put_frame. apply wp_bind, wp_get, wp_bind, wp_call_net.
  intros [[rc bufs'] mask'] n E. apply putdatas_lengths in E.
  apply wp_bind. simpl fst. destruct (rc =? TCPSOCKET_COMPLETE).
  - unfold touch_lastSent, MQTTTime_now. apply wp_bind, wp_call_net. intros t n' _.
    apply wp_modify, wp_ret. split; [|done].
    split; try done. eexists. split; [reflexivity|]. done.
  - apply wp_ret, wp_ret. split; [apply frame_network | done].
Qed.

Lemma wp_send header buffer v s :
  hdr_type header <> PUBREL \/ (exists r, readInt buffer = Ok r) ->
  wp (MQTTPacket_send header buffer v) s (fun rc s' => frame s s').
Proof.
  intros Hb. unfold MQTTPacket_send. apply wp_bind.
  assert (forall s1, frame s s1 ->
    wp ('(rc, _, _) ← put_frame (fixed_header header (Zlen buffer)) [buffer] no_mask; mret rc : SM (St P N) Z)
      s1 (fun _ s' => frame s s')) as Hput.
  { intros s1 H1. apply wp_bind. eapply wp_mono; [apply wp_put_frame|].
    intros [[rc b] m] s2 [H2 _]. apply wp_ret. by eapply frame_trans. }
  destruct (Z.eqb_spec (hdr_type header) PUBREL) as [E|_].
  - destruct Hb as [Hb|[[id rest] Hb]]; [done|].
    apply wp_bind. eapply wp_lift; [exact Hb|]. cbv beta iota.
    apply wp_bind. unfold put_record. apply wp_bind, wp_get, wp_call_persistence. intros rc p _.
    apply wp_ret. apply Hput, frame_phandle.
  - apply wp_ret. apply Hput, frame_refl.
Qed.

Lemma wp_send_ack type id dup v s :
  wp (send_packet (ack_packet type id dup) v) s (fun rc s' => frame s s').
Proof. apply wp_send. right. by eexists. Qed.

(** A publication that can be sent. *)
Record sendable (pack : Publish) : Prop := {
  sd_topic : is_Some (pub_topic pack);
  sd_len : Zlen (default [] (pub_payload pack)) = pub_payloadlen pack;
  sd_props : MQTTVERSION_5 <= pub_MQTTVersion pack -> props_inv (pub_properties pack)
}.

Lemma publish_buffers_total pack dup qos retained :
  sendable pack ->
  exists bufs, publish_buffers pack dup qos retained = Ok (mk_header PUBLISH dup qos retained, bufs) /\
    (0 < qos -> exists b x, bufs !! 2%nat = Some b /\ readInt b = Ok x) /\
    (exists t, bufs !! 1%nat = Some t) /\ last bufs = Some (default [] (pub_payload pack)).
Proof.
  intros [[topic Ht] Hl Hp]. unfold publish_buffers. rewrite Ht, Hl, Z.eqb_refl. cbn [negb].
  change (5 <=? pub_MQTTVersion pack) with (MQTTVERSION_5 <=? pub_MQTTVersion pack).
  destruct ((0 <? qos) || _) eqn:E.
  - assert (exists out rc, (if MQTTVERSION_5 <=? pub_MQTTVersion pack
               then MQTTProperties_write (Some (pub_properties pack)) else Ok ([], 0)) = Ok (out, rc)
            /\ Zlen out = (if MQTTVERSION_5 <=? pub_MQTTVersion pack
                           then MQTTProperties_len (Some (pub_properties pack)) else 0)
            /\ Zlen out <= 268435460) as (out & rc & Hw & Hlen & Hmax).
    { destruct (Z.leb_spec MQTTVERSION_5 (pub_MQTTVersion pack)) as [Hv|]; [|by exists [], 0].
      destruct (MQTTProperties_write_ok _ (Hp Hv)) as (body & _ & Hw & Hlb & _).
      pose proof (props_inv_length _ (Hp Hv)) as Hpl. pose proof (VBIlen_range (Properties.length (pub_properties pack))).
      do 2 eexists. split; [exact Hw|]. rewrite Zlen_app, VBIlen_encode, Hlb by done. simpl. lia. }
    rewrite Hw. cbn [mbind res_bind].
    assert (Zlen (if 0 <? qos then writeInt (pub_msgId pack) else []) = if 0 <? qos then 2 else 0) as Hi
      by (destruct (0 <? qos); [apply writeInt_length | done]).
    rewrite alloc_write_ok.
    + cbn [mbind res_bind]. eexists. split; [done|]. split; [|split; [by eexists | done]].
      intros Hq. destruct (Z.ltb_spec 0 qos); [|lia]. do 2 eexists. split; [done|]. reflexivity.
    + rewrite Zlen_app, Hi, Hlen. done.
    + rewrite <- Hlen. destruct (0 <? qos); lia.
  - eexists. split; [done|]. split; [|split; [by eexists | done]].
    intros Hq. destruct (Z.ltb_spec 0 qos); [done|lia].
Qed.

Lemma last_Forall2 {A} (R : A -> A -> Prop) l k x : Forall2 R l k -> last l = Some x -> exists y, last k = Some y /\ R x y.
Proof.
  intros Hf. induction Hf as [|a b l k Hab Hf IH]; [done|]. destruct Hf as [|c d l k Hcd Hf].
  - simpl. intros [= <-]. eauto.
  - intros Hx. apply IH. exact Hx.
Qed.

(** Sending a publication leaves it with a topic and with as many payload bytes. *)
Lemma wp_send_publish pack dup qos retained s :
  sendable pack -> 0 <= qos < 4 ->
  wp (MQTTPacket_send_publish pack dup qos retained) s (fun r s' =>
    frame s s' /\ sendable (snd r) /\ (exists mask bufs, snd r = masked_publish pack bufs mask)).
Proof.
  intros Hs Hq. destruct (publish_buffers_total pack dup qos retained Hs)
    as (bufs & Hb & H2 & [t1 Ht1] & Hlast).
  unfold MQTTPacket_send_publish. apply wp_bind. eapply wp_lift; [exact Hb|]. cbv beta iota.
  apply wp_bind. unfold MQTTPacket_sends. apply wp_bind.
  destruct (mk_header_truncated PUBLISH dup qos retained) as [Hft Hfq]; [done|done|].
  rewrite Hfq.
  assert (forall s1, frame s s1 ->
    wp (put_frame (fixed_header (mk_header PUBLISH dup qos retained) (Zlen (concat bufs))) bufs (pub_mask pack)) s1
      (fun r s2 => wp (let '(rc, bufs', mask') := r in mret (rc, masked_publish pack bufs' mask')) s2
        (fun r s' => frame s s' /\ sendable (snd r) /\
           exists mask bufs, snd r = masked_publish pack bufs mask))) as Hput.
  { intros s1 H1. eapply wp_mono; [apply wp_put_frame|].
    intros [[rc bufs'] mask'] s2 [Hf Hl]. apply wp_ret. split; [by eapply frame_trans|]. simpl in *.
    split; [|by eauto]. destruct (last_Forall2 _ _ _ _ Hl Hlast) as (y & Hy & Hlen).
    destruct Hs as [Hs1 Hs2 Hs3]. split; [by eexists | | done]. simpl.
    destruct (pub_payload pack); [by rewrite Hy; simpl; rewrite Hlen | done]. }
  destruct (_ && _) eqn:E.
  - apply andb_true_iff in E as [_ E]. destruct (Z.eqb_spec qos 0); [done|].
    destruct (H2 ltac:(lia)) as (b & [id rest] & Hb2 & Hri).
    apply wp_bind. rewrite Hb2. eapply wp_lift; [exact Hri|]. cbv beta iota.
    apply wp_bind. unfold put_record. apply wp_bind, wp_get, wp_call_persistence. intros rc p _.
    apply wp_ret. apply Hput, frame_phandle.
  - apply wp_ret. apply Hput, frame_refl.
Qed.

(** ** Quiet steps

    What changes nothing but connections, time stamps and the cursors of lists. *)
Record quiet s s' : Prop := {
  qt_outs : outs s' = outs s;
  qt_ins : ins s' = ins s;
  qt_queue : queue s' = queue s;
  qt_pubs : st_pubs s' = st_pubs s;
  qt_pending : st_pending s' = st_pending s;
  qt_sent : st_msgs_sent s' = st_msgs_sent s;
  qt_received : st_msgs_received s' = st_msgs_received s;
  qt_msgid : last_id s' = last_id s
}.

#[export] Instance quiet_preorder : PreOrder quiet.
Proof. split; [done|]. intros s1 s2 s3 [] []. split; congruence. Qed.

Lemma frame_quiet s s' : frame s s' -> quiet s s'.
Proof.
  intros Hf. destruct (frame_lists _ _ Hf) as (? & ? & ? & _).
  destruct (fr_client _ _ Hf) as (n & Hc & _). destruct Hf. split; try done. unfold last_id. by rewrite Hc.
Qed.

Lemma quiet_inv s s' : quiet s s' -> inv s -> inv s'.
Proof. intros []. by apply inv_core. Qed.

Lemma quiet_heap s s' : quiet s s' -> heap s' = heap s.
Proof. intros []. unfold heap. congruence. Qed.

Lemma wp_ready sk s :
  wp (call_net (noPendingWrites sk)) s (fun b s' => b = fst (noPendingWrites sk (st_net s)) /\ frame s s').
Proof. apply wp_call_net. intros b n E. rewrite E. split; [done | apply frame_network]. Qed.

Lemma wp_now s : wp MQTTTime_now s (fun _ s' => frame s s').
Proof. apply wp_call_net. intros t n _. apply frame_network. Qed.

Lemma wp_persistence_remove type qos id s : wp (persistence_remove type qos id) s (fun _ s' => frame s s').
Proof.
  unfold persistence_remove. apply wp_bind, wp_get, wp_call_persistence. intros rc p _. apply frame_phandle.
Qed.

(** A search finds the message with the identifier, and moves nothing but the cursor. *)
Definition found_in (l : list Messages) (id : Z) (r : option (nat * Messages)) : Prop :=
  match r with
  | Some (i, m) => l !! i = Some m /\ m_msgid m = id
  | None => forall m, m ∈ l -> m_msgid m <> id
  end.

Lemma find_found id (l : AList.t Messages) :
  let '(r, l') := AList.find (messageIDCompare id) l in
  AList.items l' = AList.items l /\
  found_in (AList.items l) id (i ← r; m ← AList.items l' !! i; Some (i, m)).
Proof.
  pose proof (find_id_spec id l) as Hf. destruct (AList.find _ _) as [[i|] l'].
  - destruct Hf as (_ & (m & Hm & Hid) & ->). simpl. rewrite Hm. done.
  - destruct Hf as (Hno & ->). split; [done|]. simpl. intros m Hin Hid. apply Hno. unfold in_use.
    rewrite <- Hid. by apply in_map, list_elem_of_In.
Qed.

Lemma wp_find_outbound id s :
  wp (find_outbound id) s (fun r s' => quiet s s' /\ st_net s' = st_net s /\ the_socket s' = the_socket s /\
    found_in (outs s) id r).
Proof.
  unfold find_outbound. apply wp_bind, wp_get. pose proof (find_found id (outboundMsgs (st_client s))) as Hf.
  destruct (AList.find _ _) as [r l']. destruct Hf as [Hl Hr].
  apply wp_bind, wp_modify, wp_ret. split; [split; try done; apply Hl | done].
Qed.

Lemma wp_find_inbound id s :
  wp (find_inbound id) s (fun r s' => quiet s s' /\ st_net s' = st_net s /\ the_socket s' = the_socket s /\
    found_in (ins s) id r).
Proof.
  unfold find_inbound. apply wp_bind, wp_get. pose proof (find_found id (inboundMsgs (st_client s))) as Hf.
  destruct (AList.find _ _) as [r l']. destruct Hf as [Hl Hr].
  apply wp_bind, wp_modify, wp_ret. split; [split; try done; apply Hl | done].
Qed.

End Calls.

End Invariant.
