(* ===== verification/Exchange.v ===== *)
(** * The exchanges refine their specification

    An abstract session is what the two protocols of MQTT are about: the messages sent
    and what each waits for, the messages held until their PUBREL, and what has been
    delivered to the application.  [view_of] is the abstract session of a state, the
    steps of the specification say what each packet does to it, and the theorems that
    the handlers of [Protocol] do exactly that, preserve the invariant and return. *)

From S2P Require Import Prelude.
From S2P Require Import Wire.
From S2P Require Import Properties.
From S2P Require Import LinkedList.
From S2P Require Import Clients.
From S2P Require Import Packet.
From S2P Require Import State.
From S2P Require Import Store.
From S2P Require Import Persistence.
From S2P Require Import PacketIO.
From S2P Require Import Protocol.
From S2P Require Import Invariant.
From Stdlib Require Import ZArith Lia List.
From stdpp Require Import base numbers list gmap.

Open Scope Z_scope.

Module Exchange.
Import Wire Properties Clients Packet State Store Persistence PacketIO Protocol Invariant.

(** ** Abstract sessions *)

(** What a message sent waits for. *)
Inductive stage := AwaitPuback | AwaitPubrec | AwaitPubcomp.

#[export] Instance stage_eq_dec : EqDecision stage.
Proof. solve_decision. Defined.

Record outgoing := mkOutgoing {
  og_id : Z;
  og_stage : stage;
  og_content : option Publications
}.

(** What the application receives. *)
Record delivery := mkDelivery {
  d_topic : list Z;
  d_topiclen : Z;
  d_payload : list Z;
  d_qos : Z;
  d_retained : Z;
  d_dup : Z;
  d_msgid : Z;
  d_props : list MQTTProperty
}.

(** A QoS 2 message received and not released, with what is still to be delivered. *)
Record hold := mkHold {
  h_id : Z;
  h_pending : option delivery
}.

Record view := mkView {
  v_out : list outgoing;
  v_in : list hold;
  v_delivered : list delivery;
  v_sent : Z;
  v_received : Z
}.

Definition set_out (v : view) (l : list outgoing) (sent : Z) : view :=
  mkView l (v_in v) (v_delivered v) sent (v_received v).

Definition stage_of (m : Messages) : stage :=
  if m_qos m =? 1 then AwaitPuback
  else if bool_decide (m_nextMessageType m = Some PUBREC) then AwaitPubrec else AwaitPubcomp.
Definition outgoing_of (m : Messages) (pb : option Publications) : outgoing :=
  mkOutgoing (m_msgid m) (stage_of m) pb.

Definition delivery_of (publish : Publish) : option delivery :=
  topic ← pub_topic publish;
  let qos := hdr_qos (pub_header publish) in
  Some (mkDelivery topic (pub_topiclen publish) (default [] (pub_payload publish)) qos
          (hdr_retain (pub_header publish)) (if qos =? 2 then 0 else hdr_dup (pub_header publish))
          (pub_msgId publish)
          (if 5 <=? pub_MQTTVersion publish then entries (pub_properties publish) else [])).
Definition hold_of (m : Messages) (pb : option Publications) : hold :=
  mkHold (m_msgid m)
    (if MQTTVERSION_5 <=? m_MQTTVersion m then None else pb ← pb; delivery_of (publication_of m pb)).
Definition entry_delivery (q : qEntry) : delivery :=
  mkDelivery (q_topicName q) (q_topicLen q) (q_payload q) (q_qos q) (q_retained q) (q_dup q)
    (q_msgid q) (entries (q_properties q)).

(** Messages with the publications they point to. *)
Definition resolve {B} (f : Messages -> option Publications -> B) (h : gmap positive Publications)
    (l : list Messages) : list B :=
  map (fun m => f m (m_publish m ≫= fun p => h !! p)) l.

Lemma resolve_heap {B} (f : Messages -> option Publications -> B) h h' l :
  (forall p, p ∈ omap m_publish l -> h' !! p = h !! p) -> resolve f h' l = resolve f h l.
Proof.
  intros Hl. induction l as [|m l IH]; [done|]. simpl in *. f_equal.
  - f_equal. destruct (m_publish m) as [p|]; [|done]. simpl. apply Hl. by left.
  - apply IH. intros p Hp. apply Hl. destruct (m_publish m); [by right | done].
Qed.

(** A list keyed by identifiers after a deletion. *)
Lemma map_lookup {A B} (f : A -> B) (l : list A) i x : l !! i = Some x -> map f l !! i = Some (f x).
Proof. intros Hi. etransitivity; [apply (list_lookup_fmap f l i)|]. by rewrite Hi. Qed.

Lemma NoDup_delete {A} (l : list A) i : NoDup l -> NoDup (delete i l).
Proof. intros Hn. eapply sublist_NoDup; [exact Hn | apply sublist_delete]. Qed.

(** ** The specification of the sender *)

(** Whether [o] is the message [id] waiting for [st]. *)
Definition waits (id : Z) (st : stage) (o : outgoing) : bool := (og_id o =? id) && bool_decide (og_stage o = st).

Definition drop_waiting (id : Z) (st : stage) (l : list outgoing) : list outgoing :=
  List.filter (fun o => negb (waits id st o)) l.

Inductive sender_event :=
| GotPuback (id : Z)
| GotPubrec (id : Z) (refused : bool)
| GotPubcomp (id : Z).

(** A QoS 2 message leaves, and is counted. *)
Definition settle (id : Z) (st : stage) (v : view) : view :=
  if existsb (waits id st) (v_out v) then set_out v (drop_waiting id st (v_out v)) (to_u32 (v_sent v + 1)) else v.

Definition sender_step (e : sender_event) (v : view) : view :=
  match e with
  | GotPuback id => set_out v (drop_waiting id AwaitPuback (v_out v)) (v_sent v)
  | GotPubrec id true => settle id AwaitPubrec v
  | GotPubrec id false =>
      set_out v (map (fun o => if waits id AwaitPubrec o then mkOutgoing (og_id o) AwaitPubcomp (og_content o) else o)
                   (v_out v)) (v_sent v)
  | GotPubcomp id => settle id AwaitPubcomp v
  end.

(** Identifiers being distinct, only one message can be waiting under one of them. *)
Lemma waits_of l i x st :
  NoDup (map og_id l) -> l !! i = Some x ->
  forall o, o ∈ l -> waits (og_id x) st o = (og_id o =? og_id x) && bool_decide (og_stage x = st).
Proof.
  intros Hn Hi o Ho. unfold waits. destruct (Z.eqb_spec (og_id o) (og_id x)) as [E|]; [|done].
  apply list_elem_of_lookup in Ho as [j Hj]. assert (i = j) as ->.
  { eapply NoDup_lookup; [exact Hn | apply map_lookup, Hi|]. rewrite <- E. by apply map_lookup. }
  by replace o with x by congruence.
Qed.

Lemma nothing_waits v id st :
  (forall o, o ∈ v_out v -> waits id st o = false) ->
  drop_waiting id st (v_out v) = v_out v /\ settle id st v = v /\
  (forall f : outgoing -> outgoing, map (fun o => if waits id st o then f o else o) (v_out v) = v_out v).
Proof.
  intros Hno. assert (forall o, In o (v_out v) -> waits id st o = false) as Hno'
    by (intros o Hin; apply Hno; by apply list_elem_of_In). split; [|split].
  - unfold drop_waiting. transitivity (List.filter (fun _ => true) (v_out v)).
    + apply filter_ext_in. intros o Hin. by rewrite Hno'.
    + clear. induction (v_out v) as [|o l IH]; [done|]. simpl. by rewrite IH.
  - unfold settle. destruct (existsb _ _) eqn:E; [|done]. apply existsb_exists in E as (o & Hin & Ho).
    rewrite Hno' in Ho by done. done.
  - intros f. etransitivity; [|apply map_id]. apply map_ext_in. intros o Hin. by rewrite Hno'.
Qed.

Lemma set_out_same v : set_out v (v_out v) (v_sent v) = v.
Proof. by destruct v. Qed.

Lemma nothing_happens v id st :
  (forall o, o ∈ v_out v -> waits id st o = false) ->
  match st with
  | AwaitPuback => sender_step (GotPuback id) v = v
  | AwaitPubrec => forall b, sender_step (GotPubrec id b) v = v
  | AwaitPubcomp => sender_step (GotPubcomp id) v = v
  end.
Proof.
  intros Hno. destruct (nothing_waits v id st Hno) as (H1 & H2 & H3). destruct st; simpl.
  - rewrite H1. apply set_out_same.
  - intros []; [done|]. rewrite H3. apply set_out_same.
  - done.
Qed.

(** The message that waits is the one found. *)
Lemma one_waits v i x st :
  NoDup (map og_id (v_out v)) -> v_out v !! i = Some x -> og_stage x = st ->
  drop_waiting (og_id x) st (v_out v) = List.filter (fun o => negb (og_id o =? og_id x)) (v_out v) /\
  settle (og_id x) st v =
    set_out v (List.filter (fun o => negb (og_id o =? og_id x)) (v_out v)) (to_u32 (v_sent v + 1)) /\
  (forall f : outgoing -> outgoing,
     map (fun o => if waits (og_id x) st o then f o else o) (v_out v) = <[i := f x]> (v_out v)).
Proof.
  intros Hn Hi Hst. pose proof (waits_of _ _ _ st Hn Hi) as Hw.
  assert (forall o, In o (v_out v) -> waits (og_id x) st o = (og_id o =? og_id x)) as Hw'.
  { intros o Hin. rewrite Hw by (by apply list_elem_of_In). rewrite bool_decide_eq_true_2 by done. apply andb_true_r. }
  assert (drop_waiting (og_id x) st (v_out v) = List.filter (fun o => negb (og_id o =? og_id x)) (v_out v)) as Hd
    by (apply filter_ext_in; intros o Hin; by rewrite Hw').
  split; [done|]. split.
  - unfold settle. rewrite Hd. replace (existsb _ _) with true; [done|]. symmetry. apply existsb_exists.
    apply list_elem_of_lookup_2 in Hi. apply list_elem_of_In in Hi. exists x. split; [done|].
    rewrite Hw' by done. apply Z.eqb_refl.
  - intros f. rewrite (insert_map og_id _ _ _ (f x) Hn Hi). apply map_ext_in. intros o Hin. rewrite Hw' by done.
    destruct (Z.eqb_spec (og_id o) (og_id x)) as [E|]; [|done]. f_equal.
    apply list_elem_of_In, list_elem_of_lookup in Hin as [j Hj].
    assert (i = j) as -> by (eapply NoDup_lookup; [exact Hn | by apply map_lookup | rewrite <- E; by apply map_lookup]).
    congruence.
Qed.

(** *** What one message waits for *)

Definition status (id : Z) (v : view) : option stage :=
  og_stage <$> List.find (fun o => og_id o =? id) (v_out v).

Definition stage_step (id : Z) (st : option stage) (e : sender_event) : option stage :=
  match st, e with
  | Some AwaitPuback, GotPuback id' => if id' =? id then None else st
  | Some AwaitPubrec, GotPubrec id' refused =>
      if id' =? id then (if refused then None else Some AwaitPubcomp) else st
  | Some AwaitPubcomp, GotPubcomp id' => if id' =? id then None else st
  | _, _ => st
  end.

Lemma find_none_id id l : id ∉ map og_id l -> List.find (fun o => og_id o =? id) l = None.
Proof.
  induction l as [|o l IH]; [done|]. simpl. intros Hn. apply not_elem_of_cons in Hn as [Hne Hn].
  destruct (Z.eqb_spec (og_id o) id); [congruence|]. by apply IH.
Qed.

Lemma drop_ids id st l x : x ∈ map og_id (drop_waiting id st l) -> x ∈ map og_id l.
Proof.
  rewrite !list_elem_of_In. intros Hin. apply in_map_iff in Hin as (o & <- & Hin).
  apply List.filter_In in Hin as [Hin _]. by apply in_map.
Qed.

Lemma drop_nodup id st l : NoDup (map og_id l) -> NoDup (map og_id (drop_waiting id st l)).
Proof.
  induction l as [|o l IH]; [done|]. simpl. intros Hn. apply NoDup_cons in Hn as [Hno Hn].
  destruct (waits id st o); simpl; [by apply IH|]. apply NoDup_cons. split; [|by apply IH].
  intros Hin. by apply Hno, (drop_ids id st).
Qed.

Lemma status_drop id id' st l :
  NoDup (map og_id l) ->
  og_stage <$> List.find (fun o => og_id o =? id) (drop_waiting id' st l)
  = (x ← og_stage <$> List.find (fun o => og_id o =? id) l;
     if (id' =? id) && bool_decide (x = st) then None else Some x).
Proof.
  induction l as [|o l IH]; [done|]. simpl. intros Hn. apply NoDup_cons in Hn as [Hno Hn].
  specialize (IH Hn). unfold waits at 1. destruct (Z.eqb_spec (og_id o) id) as [E|E].
  - destruct (Z.eqb_spec (og_id o) id') as [E'|E']; simpl.
    + subst id'. rewrite E, Z.eqb_refl. destruct (bool_decide_reflect (og_stage o = st)) as [Hs|Hs]; simpl.
      * rewrite find_none_id; [done|]. intros Hin. apply Hno. rewrite E. by eapply drop_ids.
      * by rewrite E, Z.eqb_refl.
    + rewrite E, Z.eqb_refl. simpl. destruct (Z.eqb_spec id' id); [congruence|done].
  - destruct (_ && _); simpl; [exact IH|]. destruct (Z.eqb_spec (og_id o) id); [done|exact IH].
Qed.

Lemma status_move id id' st st' l :
  NoDup (map og_id l) ->
  og_stage <$> List.find (fun o => og_id o =? id)
    (map (fun o => if waits id' st o then mkOutgoing (og_id o) st' (og_content o) else o) l)
  = (fun x => if (id' =? id) && bool_decide (x = st) then st' else x)
      <$> (og_stage <$> List.find (fun o => og_id o =? id) l).
Proof.
  induction l as [|o l IH]; [done|]. simpl. intros Hn. apply NoDup_cons in Hn as [_ Hn]. specialize (IH Hn).
  assert (og_id (if waits id' st o then mkOutgoing (og_id o) st' (og_content o) else o) = og_id o) as ->
    by (by destruct (waits id' st o)).
  destruct (Z.eqb_spec (og_id o) id) as [E|E]; [|exact IH]. simpl. f_equal. unfold waits. rewrite E.
  destruct (Z.eqb_spec id id') as [<-|Hne]; [rewrite Z.eqb_refl|].
  - simpl. by destruct (bool_decide (og_stage o = st)).
  - destruct (Z.eqb_spec id' id); [congruence|]. done.
Qed.

Lemma settle_out id st v : v_out (settle id st v) = drop_waiting id st (v_out v).
Proof.
  unfold settle. destruct (existsb _ _) eqn:E; [done|]. symmetry. apply (nothing_waits v id st).
  intros o Ho. apply list_elem_of_In in Ho. destruct (waits id st o) eqn:Hw; [|done].
  rewrite <- E. symmetry. apply existsb_exists. by exists o.
Qed.

(** A step of the sender is a step of the state machine of each message. *)
Lemma status_step id e v :
  NoDup (map og_id (v_out v)) ->
  NoDup (map og_id (v_out (sender_step e v))) /\ status id (sender_step e v) = stage_step id (status id v) e.
Proof.
  intros Hn. unfold status. destruct e as [id'|id' []|id']; simpl.
  - split; [by apply drop_nodup|]. rewrite status_drop by done.
    destruct (og_stage <$> _) as [[]|]; simpl; try done; by destruct (id' =? id).
  - rewrite settle_out. split; [by apply drop_nodup|]. rewrite status_drop by done.
    destruct (og_stage <$> _) as [[]|]; simpl; try done; by destruct (id' =? id).
  - split.
    + rewrite map_map. erewrite map_ext; [exact Hn|]. intros o. by destruct (waits id' _ o).
    + rewrite status_move by done. destruct (og_stage <$> _) as [[]|]; simpl; try done; by destruct (id' =? id).
  - rewrite settle_out. split; [by apply drop_nodup|]. rewrite status_drop by done.
    destruct (og_stage <$> _) as [[]|]; simpl; try done; by destruct (id' =? id).
Qed.

Section Views.
Context {P N : Type} {PO : PersistenceOps P} {NT : Transport N} {NL : TransportLaws N}.
Implicit Types s : St P N.

Definition view_of s : view :=
  mkView (resolve outgoing_of (heap s) (outs s)) (resolve hold_of (heap s) (ins s))
    (map entry_delivery (queue s)) (st_msgs_sent s) (st_msgs_received s).

Lemma quiet_view s s' : quiet s s' -> view_of s' = view_of s.
Proof. intros Hq. unfold view_of. rewrite (quiet_heap _ _ Hq). destruct Hq. congruence. Qed.

Lemma frame_view s s' : frame s s' -> view_of s' = view_of s.
Proof. intros Hf. by apply quiet_view, frame_quiet. Qed.

Lemma out_ids s : map og_id (v_out (view_of s)) = map m_msgid (outs s).
Proof. unfold view_of, resolve. simpl. by rewrite map_map. Qed.

Lemma in_ids s : map h_id (v_in (view_of s)) = map m_msgid (ins s).
Proof. unfold view_of, resolve. simpl. by rewrite map_map. Qed.

(** ** A message leaves the outbound list *)

(** Deleting a publication changes no other message. *)
Lemma resolve_delete {B} (f : Messages -> option Publications -> B) h p l :
  p ∉ omap m_publish l -> resolve f (delete p h) l = resolve f h l.
Proof. intros Hp. apply resolve_heap. intros q Hq. apply lookup_delete_ne. set_solver. Qed.

Lemma wp_complete_outbound i m s :
  inv s -> outs s !! i = Some m ->
  wp (complete_outbound i m) s (fun _ s' =>
    inv s' /\ view_of s' = set_out (view_of s)
                (List.filter (fun o => negb (og_id o =? m_msgid m)) (v_out (view_of s))) (st_msgs_sent s)).
Proof.
  intros Hi Hm. pose proof Hi as [Hst Ho Hin Hoi Hii Hid].
  pose proof (Forall_lookup_1 _ _ _ _ Ho Hm) as (_ & _ & (p & Hp & _) & _).
  assert (refs s ≡ₚ p :: omap m_publish (delete i (outs s)) ++ omap m_publish (ins s) ++ map pw_p (st_pending s))
    as Hperm by (unfold refs; rewrite (omap_delete _ _ _ Hm), Hp; done).
  apply (store_inv_perm _ _ _ Hperm) in Hst.
  destruct (removePublication_spec p s _ Hst) as (ps' & Hr & Hst' & Hh).
  pose proof (si_nodup _ _ Hst) as Hnd. apply NoDup_cons in Hnd as [Hnin _].
  rewrite !elem_of_app in Hnin.
  unfold complete_outbound. rewrite Hp. apply wp_bind. eapply wp_run; [exact Hr|].
  apply wp_modify.
  set (s' := set_client _ _).
  assert (outs s' = delete i (outs s)) as Hos by done.
  assert (heap s' = delete p (heap s)) as Hhs by exact Hh.
  split.
  - split; [exact Hst' | | | | |]; rewrite ?Hhs, ?Hos.
    + apply out_ok_mono with (h := heap s); [|by apply Forall_delete].
      intros q Hq. apply live_delete. naive_solver.
    + apply in_ok_mono with (h := heap s); [|done].
      intros q Hq. apply live_delete. naive_solver.
    + rewrite list_map_delete. by apply NoDup_delete.
    + done.
    + done.
  - unfold view_of. rewrite Hhs, Hos. unfold set_out. simpl. f_equal.
    + rewrite resolve_delete by naive_solver. unfold resolve at 1. rewrite list_map_delete.
      apply (delete_filter og_id _ i (outgoing_of m (m_publish m ≫= fun p => heap s !! p))).
      * fold (resolve outgoing_of (heap s) (outs s)). by rewrite <- out_ids in Hoi.
      * by apply (map_lookup (fun m => outgoing_of m (m_publish m ≫= fun p => heap s !! p))).
    + apply resolve_delete. naive_solver.
Qed.

(** ** The sender *)

Lemma out_lookup s i m :
  outs s !! i = Some m ->
  v_out (view_of s) !! i = Some (outgoing_of m (m_publish m ≫= fun p => heap s !! p)).
Proof. apply (map_lookup (fun m => outgoing_of m (m_publish m ≫= fun p => heap s !! p))). Qed.

Lemma out_nodup s : inv s -> NoDup (map og_id (v_out (view_of s))).
Proof. intros Hi. rewrite out_ids. apply Hi. Qed.

Lemma unknown_id s id st :
  (forall m, m ∈ outs s -> m_msgid m <> id) -> forall o, o ∈ v_out (view_of s) -> waits id st o = false.
Proof.
  intros Hno o Ho. unfold waits. destruct (Z.eqb_spec (og_id o) id) as [E|]; [|done].
  apply list_elem_of_In, in_map_iff in Ho as (m & <- & Hm). simpl in E.
  exfalso. apply (Hno m); [by apply list_elem_of_In | done].
Qed.

Lemma other_stage s i m st :
  inv s -> outs s !! i = Some m -> stage_of m <> st ->
  forall o, o ∈ v_out (view_of s) -> waits (m_msgid m) st o = false.
Proof.
  intros Hi Hm Hst o Ho. pose proof (waits_of _ _ _ st (out_nodup s Hi) (out_lookup _ _ _ Hm) o Ho) as Hw.
  simpl in Hw. rewrite Hw, bool_decide_eq_false_2 by done. apply andb_false_r.
Qed.

Lemma stage_cases h m :
  out_ok h m ->
  match stage_of m with
  | AwaitPuback => m_qos m = 1
  | AwaitPubrec => m_qos m = 2 /\ m_nextMessageType m = Some PUBREC
  | AwaitPubcomp => m_qos m = 2 /\ m_nextMessageType m = Some PUBCOMP
  end.
Proof.
  intros (_ & [H1|[H2 Hn]] & _). { unfold stage_of. by rewrite H1. }
  unfold stage_of. rewrite H2. change (2 =? 1) with false. cbv iota.
  destruct Hn as [-> | ->]; [rewrite bool_decide_eq_true_2 by done | rewrite bool_decide_eq_false_2 by done]; done.
Qed.

(** What every step of the sender has to show. *)
Definition sender_post (e : sender_event) s (_ : Z) s' : Prop :=
  inv s' /\ view_of s' = sender_step e (view_of s).

Lemma sender_quiet e s s' rc :
  inv s -> quiet s s' -> sender_step e (view_of s) = view_of s -> sender_post e s rc s'.
Proof.
  intros Hi Hq He. split; [by eapply quiet_inv|]. by rewrite He, (quiet_view s s').
Qed.

(** The end of an exchange: the record is removed and the message leaves. *)
Lemma wp_finish st i m id v s s1 (k : Z -> SM (St P N) Z) (Q : Z -> St P N -> Prop) :
  inv s -> quiet s s1 -> outs s !! i = Some m -> m_msgid m = id -> stage_of m = st ->
  (forall rc s', inv s' -> st_msgs_sent s' = st_msgs_sent s ->
     view_of s' = set_out (view_of s) (drop_waiting id st (v_out (view_of s))) (v_sent (view_of s)) ->
     wp (k rc) s' Q) ->
  wp (rc ← persistence_remove (sent_type v) (m_qos m) id; _ ← complete_outbound i m; k rc) s1 Q.
Proof.
  intros Hi Hq Hm <- Hst Hk. apply wp_bind. eapply wp_mono; [apply wp_persistence_remove|]. intros rc s2 Hf.
  assert (quiet s s2) as Hq2 by (transitivity s1; [done | by apply frame_quiet]).
  assert (inv s2) as Hi2 by (by eapply quiet_inv).
  destruct (one_waits (view_of s) i _ st (out_nodup s Hi) (out_lookup _ _ _ Hm) Hst) as (Hd & _ & _).
  apply wp_bind. eapply wp_mono.
  { apply wp_complete_outbound; [exact Hi2|]. rewrite (qt_outs _ _ Hq2). exact Hm. }
  intros [] s3 [Hi3 Hv3]. rewrite (quiet_view _ _ Hq2), (qt_sent _ _ Hq2) in Hv3.
  assert (view_of s3 = set_out (view_of s) (drop_waiting (m_msgid m) st (v_out (view_of s))) (v_sent (view_of s)))
    as Hv by (rewrite Hv3; simpl og_id in Hd; by rewrite Hd).
  apply Hk; [done | | done]. exact (f_equal v_sent Hv).
Qed.

Lemma counters_inv s a b : inv s -> inv (set_counters s a b).
Proof. by apply inv_core. Qed.

(** The message counted when it leaves. *)
Lemma settle_counted st i m s s' :
  inv s -> outs s !! i = Some m -> stage_of m = st ->
  view_of s' = set_out (view_of s) (drop_waiting (m_msgid m) st (v_out (view_of s))) (v_sent (view_of s)) ->
  view_of (set_counters s' (to_u32 (st_msgs_sent s' + 1)) (st_msgs_received s')) =
    settle (m_msgid m) st (view_of s).
Proof.
  intros Hi Hm Hst Hv.
  destruct (one_waits (view_of s) i _ st (out_nodup s Hi) (out_lookup _ _ _ Hm) Hst) as (Hd & Hse & _).
  simpl og_id in *. rewrite Hse, <- Hd. pose proof (f_equal v_sent Hv) as Hsent. simpl in Hsent.
  rewrite Hsent. unfold view_of in Hv |- *. cbn in Hv |- *. injection Hv as H1 H2 H3 H4 H5.
  unfold set_out. simpl. by rewrite <- H1, <- H2, <- H3, <- H5.
Qed.

(** PUBREC accepted: the message now waits for PUBCOMP. *)
Lemma wp_touch i m now s s1 :
  inv s -> quiet s s1 -> outs s !! i = Some m -> stage_of m = AwaitPubrec ->
  wp (write_outbound i (touched m now (Some PUBCOMP))) s1 (fun _ s' =>
    inv s' /\ view_of s' = sender_step (GotPubrec (m_msgid m) false) (view_of s)).
Proof.
  intros Hi Hq Hm Hst. apply wp_modify. set (m' := touched m now (Some PUBCOMP)). set (s' := set_client _ _).
  assert (outs s' = <[i := m']> (outs s)) as Hos by (by unfold s', outs; simpl; fold (outs s1); rewrite (qt_outs _ _ Hq)).
  assert (ins s' = ins s) as His by apply Hq.
  assert (heap s' = heap s) as Hhs by exact (quiet_heap _ _ Hq).
  pose proof (Forall_lookup_1 _ _ _ _ (inv_out _ Hi) Hm) as Hok. pose proof (stage_cases _ _ Hok) as Hc.
  rewrite Hst in Hc. destruct Hc as [Hq2 _].
  assert (omap m_publish (outs s') = omap m_publish (outs s)) as Hom.
  { rewrite Hos. clear -Hm. revert i Hm. induction (outs s) as [|x l IH]; intros [|i] Hm; try done.
    - by injection Hm as ->.
    - simpl in Hm |- *. specialize (IH i Hm). unfold omap in IH |- *. by rewrite IH. }
  split.
  - assert (refs s' = refs s) as Hr by (unfold refs; rewrite Hom, His; simpl; by rewrite (qt_pending _ _ Hq)).
    split; rewrite ?Hr, ?Hhs, ?His, ?Hos; try apply Hi.
    + replace (st_pubs s') with (st_pubs s) by exact (eq_sym (qt_pubs _ _ Hq)). apply Hi.
    + apply Forall_insert; [apply Hi|]. destruct Hok as (H1 & _ & H3 & H4).
      split; [done|]. split; [|done]. right. split; [done|]. by right.
    + rewrite list_map_insert. rewrite list_insert_id; [apply Hi|]. exact (map_lookup m_msgid _ _ _ Hm).
    + change (0 <= last_id s1 <= MAX_MSG_ID). rewrite (qt_msgid _ _ Hq). apply Hi.
  - unfold view_of at 1. rewrite Hos, His, Hhs.
    replace (queue s') with (queue s) by exact (eq_sym (qt_queue _ _ Hq)).
    replace (st_msgs_sent s') with (st_msgs_sent s) by exact (eq_sym (qt_sent _ _ Hq)).
    replace (st_msgs_received s') with (st_msgs_received s) by exact (eq_sym (qt_received _ _ Hq)).
    simpl. unfold set_out. f_equal.
    destruct (one_waits (view_of s) i _ _ (out_nodup s Hi) (out_lookup _ _ _ Hm) Hst) as (_ & _ & Hmap).
    simpl og_id in Hmap. simpl v_out in Hmap. rewrite Hmap. unfold resolve. rewrite list_map_insert. simpl.
    unfold outgoing_of, stage_of. simpl. by rewrite Hq2.
Qed.

(** A packet that no message waits for. *)
Lemma ignored_unknown e id st s s1 rc :
  inv s -> quiet s s1 -> (forall m, m ∈ outs s -> m_msgid m <> id) ->
  match st with
  | AwaitPuback => e = GotPuback id
  | AwaitPubrec => exists b, e = GotPubrec id b
  | AwaitPubcomp => e = GotPubcomp id
  end -> sender_post e s rc s1.
Proof.
  intros Hi Hq Hno He. apply sender_quiet; [done..|].
  pose proof (nothing_happens (view_of s) id st (unknown_id s id st Hno)) as Hn.
  destruct st; [by subst | destruct He as [b ->]; apply Hn | by subst].
Qed.

Lemma ignored_stage e i m st s s1 rc :
  inv s -> quiet s s1 -> outs s !! i = Some m -> stage_of m <> st ->
  match st with
  | AwaitPuback => e = GotPuback (m_msgid m)
  | AwaitPubrec => exists b, e = GotPubrec (m_msgid m) b
  | AwaitPubcomp => e = GotPubcomp (m_msgid m)
  end -> sender_post e s rc s1.
Proof.
  intros Hi Hq Hm Hst He. apply sender_quiet; [done..|].
  pose proof (nothing_happens (view_of s) (m_msgid m) st (other_stage s i m st Hi Hm Hst)) as Hn.
  destruct st; [by subst | destruct He as [b ->]; apply Hn | by subst].
Qed.

Lemma found_stage s i m :
  inv s -> outs s !! i = Some m ->
  (m_qos m =? 1) = bool_decide (stage_of m = AwaitPuback) /\
  (m_qos m =? 2) = negb (bool_decide (stage_of m = AwaitPuback)) /\
  (stage_of m <> AwaitPuback ->
   bool_decide (m_nextMessageType m = Some PUBREC) = bool_decide (stage_of m = AwaitPubrec) /\
   bool_decide (m_nextMessageType m = Some PUBCOMP) = bool_decide (stage_of m = AwaitPubcomp)).
Proof.
  intros Hi Hm. pose proof (stage_cases _ _ (Forall_lookup_1 _ _ _ _ (inv_out _ Hi) Hm)) as Hc.
  destruct (stage_of m).
  - by rewrite Hc.
  - destruct Hc as [-> ->]. done.
  - destruct Hc as [-> ->]. done.
Qed.

Lemma wp_puback_found a i m s s1 :
  inv s -> quiet s s1 -> outs s !! i = Some m -> ack_msgId a = Some (m_msgid m) ->
  wp (if negb (m_qos m =? 1) then mret TCPSOCKET_COMPLETE
      else rc ← persistence_remove (sent_type (m_MQTTVersion m)) (m_qos m) (m_msgid m);
           _ ← complete_outbound i m; mret rc) s1 (sender_post (GotPuback (m_msgid m)) s).
Proof.
  intros Hi Hq Hm Ha. destruct (found_stage _ _ _ Hi Hm) as (-> & _ & _).
  destruct (bool_decide_reflect (stage_of m = AwaitPuback)) as [Hst|Hst]; simpl negb; cbv iota.
  - eapply wp_finish; try done. intros rc s' Hi' _ Hv. apply wp_ret. by split.
  - apply wp_ret. by eapply (ignored_stage _ i m AwaitPuback).
Qed.

Lemma wp_pubrec_found a i m s s1 :
  inv s -> quiet s s1 -> outs s !! i = Some m -> ack_msgId a = Some (m_msgid m) ->
  wp (if negb (m_qos m =? 2) then mret TCPSOCKET_COMPLETE
      else if negb (bool_decide (m_nextMessageType m = Some PUBREC)) then mret TCPSOCKET_COMPLETE
      else if pubrec_error a then
        rc ← persistence_remove (sent_type (ack_MQTTVersion a)) (m_qos m) (m_msgid m);
        _ ← complete_outbound i m; _ ← incr_sent; mret rc
      else
        rc ← MQTTPacket_send_pubrel (ack_MQTTVersion a) (m_msgid m) 0;
        now ← MQTTTime_now;
        _ ← write_outbound i (touched m now (Some PUBCOMP)); mret rc) s1
     (sender_post (GotPubrec (m_msgid m) (pubrec_error a)) s).
Proof.
  intros Hi Hq Hm Ha. destruct (found_stage _ _ _ Hi Hm) as (_ & -> & Hn).
  destruct (bool_decide_reflect (stage_of m = AwaitPuback)) as [Hst|Hst]; simpl negb; cbv iota.
  { apply wp_ret. eapply (ignored_stage _ i m AwaitPubrec); eauto. congruence. }
  destruct (Hn Hst) as [-> _]. clear Hn Hst.
  destruct (bool_decide_reflect (stage_of m = AwaitPubrec)) as [Hst|Hst]; simpl negb; cbv iota;
    [|apply wp_ret; eapply (ignored_stage _ i m AwaitPubrec); eauto].
  destruct (pubrec_error a).
  - eapply wp_finish; try done. intros rc s' Hi' _ Hv. apply wp_bind, wp_modify, wp_ret.
    split; [by apply counters_inv | by eapply settle_counted].
  - apply wp_bind. eapply wp_mono; [apply wp_send_ack|]. intros rc s2 Hf.
    apply wp_bind. eapply wp_mono; [apply wp_now|]. intros now s3 Hf3.
    apply wp_bind. eapply wp_mono.
    + apply (wp_touch i m now s s3); [done| |done..]. transitivity s1; [done|].
      transitivity s2; by apply frame_quiet.
    + intros [] s4 [Hi4 Hv4]. apply wp_ret. by split.
Qed.

Lemma wp_pubcomp_found a i m s s1 :
  inv s -> quiet s s1 -> outs s !! i = Some m -> ack_msgId a = Some (m_msgid m) ->
  wp (if negb (m_qos m =? 2) then mret TCPSOCKET_COMPLETE
      else if negb (bool_decide (m_nextMessageType m = Some PUBCOMP)) then mret TCPSOCKET_COMPLETE
      else
        rc ← persistence_remove (sent_type (m_MQTTVersion m)) (m_qos m) (m_msgid m);
        _ ← complete_outbound i m; _ ← incr_sent; mret rc) s1 (sender_post (GotPubcomp (m_msgid m)) s).
Proof.
  intros Hi Hq Hm Ha. destruct (found_stage _ _ _ Hi Hm) as (_ & -> & Hn).
  destruct (bool_decide_reflect (stage_of m = AwaitPuback)) as [Hst|Hst]; simpl negb; cbv iota.
  { apply wp_ret. eapply (ignored_stage _ i m AwaitPubcomp); eauto. congruence. }
  destruct (Hn Hst) as [_ ->]. clear Hn Hst.
  destruct (bool_decide_reflect (stage_of m = AwaitPubcomp)) as [Hst|Hst]; simpl negb; cbv iota;
    [|apply wp_ret; by eapply (ignored_stage _ i m AwaitPubcomp)].
  eapply wp_finish; try done. intros rc s' Hi' _ Hv. apply wp_bind, wp_modify, wp_ret.
  split; [by apply counters_inv | by eapply settle_counted].
Qed.

Lemma wp_handlePubacks a id s :
  inv s -> ack_msgId a = Some id -> wp (MQTTProtocol_handlePubacks a) s (sender_post (GotPuback id) s).
Proof.
  intros Hi Ha. unfold MQTTProtocol_handlePubacks, with_msgid. rewrite Ha.
  apply wp_bind. eapply wp_mono; [apply wp_find_outbound|].
  intros [[i m]|] s1 (Hq & _ & _ & Hfound); simpl in Hfound.
  - destruct Hfound as [Hm <-]. by eapply wp_puback_found.
  - apply wp_ret. by apply (ignored_unknown _ id AwaitPuback).
Qed.

Lemma wp_handlePubrecs a id s :
  inv s -> ack_msgId a = Some id ->
  wp (MQTTProtocol_handlePubrecs a) s (sender_post (GotPubrec id (pubrec_error a)) s).
Proof.
  intros Hi Ha. unfold MQTTProtocol_handlePubrecs, with_msgid. rewrite Ha.
  apply wp_bind, wp_modify, wp_bind. eapply wp_mono; [apply wp_find_outbound|].
  intros [[i m]|] s1 (Hq & _ & _ & Hfound); simpl in Hfound.
  - destruct Hfound as [Hm <-]. eapply wp_pubrec_found; try done. destruct Hq. by split.
  - apply wp_ret. apply (ignored_unknown _ id AwaitPubrec); eauto. destruct Hq. by split.
Qed.

Lemma wp_handlePubcomps a id s :
  inv s -> ack_msgId a = Some id -> wp (MQTTProtocol_handlePubcomps a) s (sender_post (GotPubcomp id) s).
Proof.
  intros Hi Ha. unfold MQTTProtocol_handlePubcomps, with_msgid. rewrite Ha.
  apply wp_bind. eapply wp_mono; [apply wp_find_outbound|].
  intros [[i m]|] s1 (Hq & _ & _ & Hfound); simpl in Hfound.
  - destruct Hfound as [Hm <-]. by eapply wp_pubcomp_found.
  - apply wp_ret. by apply (ignored_unknown _ id AwaitPubcomp).
Qed.

(** C15. The sender.  PUBACK, PUBREC and PUBCOMP do to a session what the specification
    of the sender says: PUBACK ends the exchange of the QoS 1 message with its
    identifier, PUBREC moves the QoS 2 message on or, with an error code, ends it,
    PUBCOMP ends the exchange of the QoS 2 message for which PUBREL was sent, and a
    packet that nothing waits for changes nothing.  The handlers always return,
    use no freed publication, and preserve the invariant. *)
Theorem sender_refines (a : Ack) (id : Z) (s : St P N) :
  inv s -> ack_msgId a = Some id ->
  wp (MQTTProtocol_handlePubacks a) s (sender_post (GotPuback id) s) /\
  wp (MQTTProtocol_handlePubrecs a) s (sender_post (GotPubrec id (pubrec_error a)) s) /\
  wp (MQTTProtocol_handlePubcomps a) s (sender_post (GotPubcomp id) s).
Proof.
  intros Hi Ha. split; [by apply wp_handlePubacks|]. split; [by apply wp_handlePubrecs | by apply wp_handlePubcomps].
Qed.

(** ** The state machine of one message *)

Inductive sender_packet :=
| InPuback (a : Ack)
| InPubrec (a : Ack)
| InPubcomp (a : Ack).

Definition packet_ack (e : sender_packet) : Ack :=
  match e with InPuback a | InPubrec a | InPubcomp a => a end.

Definition handle_ack (e : sender_packet) : SM (St P N) Z :=
  match e with
  | InPuback a => MQTTProtocol_handlePubacks a
  | InPubrec a => MQTTProtocol_handlePubrecs a
  | InPubcomp a => MQTTProtocol_handlePubcomps a
  end.

Fixpoint handle_acks (l : list sender_packet) : SM (St P N) () :=
  match l with
  | [] => mret ()
  | e :: l => _ ← handle_ack e; handle_acks l
  end.

Definition sender_event_of (e : sender_packet) : sender_event :=
  let id := default 0 (ack_msgId (packet_ack e)) in
  match e with
  | InPuback _ => GotPuback id
  | InPubrec a => GotPubrec id (pubrec_error a)
  | InPubcomp _ => GotPubcomp id
  end.

Lemma wp_handle_ack e s :
  inv s -> is_Some (ack_msgId (packet_ack e)) -> wp (handle_ack e) s (sender_post (sender_event_of e) s).
Proof.
  intros Hi [id Ha]. destruct e as [a|a|a]; unfold sender_event_of; simpl in *; rewrite Ha; simpl;
    [by apply wp_handlePubacks | by apply wp_handlePubrecs | by apply wp_handlePubcomps].
Qed.

(** C14. The state machine of a message.  Whatever PUBACK, PUBREC and PUBCOMP packets a
    session receives, in any order and number, what each message waits for is given by
    the state machine of MQTT: a QoS 1 message leaves at its PUBACK, a QoS 2 message
    waits for PUBREC, then, if it was accepted, for PUBCOMP, and leaves at that one;
    no other packet moves it, and the packets of one message do not affect another. *)
Theorem sender_state_machine (l : list sender_packet) (id : Z) (s : St P N) :
  inv s -> Forall (fun e => is_Some (ack_msgId (packet_ack e))) l ->
  wp (handle_acks l) s (fun _ s' =>
    inv s' /\ status id (view_of s') = foldl (stage_step id) (status id (view_of s)) (map sender_event_of l)).
Proof.
  intros Hi Hl. revert s Hi. induction Hl as [|e l He Hl IH]; intros s Hi; [by apply wp_ret|].
  apply wp_bind. eapply wp_mono; [by apply wp_handle_ack|]. intros rc s1 [Hi1 Hv1].
  eapply wp_mono; [by apply IH|]. intros [] s2 [Hi2 Hs2]. split; [done|]. rewrite Hs2, Hv1. simpl.
  by rewrite (proj2 (status_step id (sender_event_of e) (view_of s) (out_nodup s Hi))).
Qed.

End Views.

(** *** A session with a QoS 2 message sent *)

Definition sent_publication : Publications := mkPublications (Some [116]) 1 (Some [104; 105]) 2 1 [0; 0; 0; 0].
Definition sent_message : Messages := mkMessages 2 0 7 4 MQTTProperties_initializer (Some 1%positive) 0 (Some PUBREC).
Definition sent_state : St MemStore ScriptNet :=
  mkSt (set_outbound (set_msgID sample_client 7) (AList.mk [sent_message] None)) (∅ : MemStore)
    (mkPubs {[ 1%positive := sent_publication ]} (AList.mk [1%positive] None)) [] (mkScript [] [] [] 0 1000) 0 0.

Lemma sent_state_inv : inv sent_state.
Proof.
  split; simpl; try done.
  - split; simpl; [by_compute | done | |].
    + intros p. change (refs sent_state) with [1%positive]. rewrite lookup_singleton_is_Some, list_elem_of_singleton.
      by split.
    + intros p pb. rewrite lookup_singleton_Some. by intros [<- <-].
  - apply Forall_singleton. split; [done|]. split; [right; split; [done | by left]|]. split; [|done].
    exists 1%positive. split; [done|]. exists sent_publication, [116]. split; [apply lookup_singleton_eq | done].
  - by_compute.
  - by_compute.
Qed.

Definition ack_of (type id : Z) : Ack := mkAck (mk_header type 0 0 0) (Some id) None 4 None.

Lemma sender_refines_witness :
  inv sent_state /\ ack_msgId (ack_of PUBREC 7) = Some 7 /\
  wp (MQTTProtocol_handlePubacks (ack_of PUBREC 7)) sent_state (sender_post (GotPuback 7) sent_state) /\
  wp (MQTTProtocol_handlePubrecs (ack_of PUBREC 7)) sent_state
    (sender_post (GotPubrec 7 (pubrec_error (ack_of PUBREC 7))) sent_state) /\
  wp (MQTTProtocol_handlePubcomps (ack_of PUBREC 7)) sent_state (sender_post (GotPubcomp 7) sent_state).
Proof.
  split; [exact sent_state_inv|]. split; [reflexivity|].
  exact (sender_refines (ack_of PUBREC 7) 7 sent_state sent_state_inv eq_refl).
Defined.

Definition ack_trace : list sender_packet :=
  [InPubcomp (ack_of PUBCOMP 7); InPubrec (ack_of PUBREC 7); InPuback (ack_of PUBACK 7); InPubcomp (ack_of PUBCOMP 7)].

Lemma sender_state_machine_witness :
  status 7 (view_of sent_state) = Some AwaitPubrec /\
  foldl (stage_step 7) (status 7 (view_of sent_state)) (map sender_event_of ack_trace) = None /\
  wp (handle_acks ack_trace) sent_state (fun _ s' =>
    inv s' /\ status 7 (view_of s') =
      foldl (stage_step 7) (status 7 (view_of sent_state)) (map sender_event_of ack_trace)).
Proof.
  split; [reflexivity|]. split; [reflexivity|].
  apply (sender_state_machine ack_trace 7 sent_state sent_state_inv). repeat constructor; by eexists.
Defined.

End Exchange.
