(* ===== verification/Receiver.v ===== *)
(** * The receiver: what is delivered to the application

    The specification of the receiving side of the protocol, the theorem that
    [MQTTProtocol_handlePublishes] and [MQTTProtocol_handlePubrels] implement it, and
    the exactly-once delivery of QoS 2 messages over any sequence of packets. *)

From S2P Require Import Prelude.
From S2P Require Import Wire.
From S2P Require Import Properties.
From S2P Require Import LinkedList.
From S2P Require Import Clients.
From S2P Require Import Packet.
From S2P Require Import State.
From S2P Require Import Store.
From S2P Require Import Persistence.
From S2P Require Import PacketIO.
From S2P Require Import Protocol.
From S2P Require Import Invariant.
From S2P Require Import Exchange.
From Stdlib Require Import ZArith Lia List.
From stdpp Require Import base numbers list gmap.

Open Scope Z_scope.

Module Receiver.
Import Wire Properties Clients Packet State Store Persistence PacketIO Protocol Invariant Exchange.

(** ** The specification *)

Inductive receiver_event :=
| GotPublish (publish : Publish)
| GotPubrel (id : Z).

Definition deliver (d : delivery) (v : view) : view :=
  mkView (v_out v) (v_in v) (v_delivered v ++ [d]) (v_sent v) (v_received v).
Definition set_in (v : view) (l : list hold) : view :=
  mkView (v_out v) l (v_delivered v) (v_sent v) (v_received v).

Definition is_held (id : Z) (v : view) : bool := existsb (fun h => h_id h =? id) (v_in v).

(** A QoS 2 message: held until its PUBREL, in the place of a message with the same
    identifier if there is one; with MQTT 5 it is delivered when it is first held. *)
Definition receive_qos2 (publish : Publish) (d : delivery) (v : view) : view :=
  let id := pub_msgId publish in
  let v5 := MQTTVERSION_5 <=? pub_MQTTVersion publish in
  let h := mkHold id (if v5 then None else Some d) in
  if is_held id v then set_in v (map (fun x => if h_id x =? id then h else x) (v_in v))
  else
    let v := set_in v (v_in v ++ [h]) in
    if v5 then deliver d v else v.

(** The release of a message held: before MQTT 5 it is delivered now. *)
Definition release (id : Z) (v : view) : view :=
  match List.find (fun h => h_id h =? id) (v_in v) with
  | None => v
  | Some h =>
      let v := match h_pending h with Some d => deliver d v | None => v end in
      mkView (v_out v) (List.filter (fun h => negb (h_id h =? id)) (v_in v)) (v_delivered v) (v_sent v)
        (to_u32 (v_received v + 1))
  end.

Definition receiver_step (e : receiver_event) (v : view) : view :=
  match e with
  | GotPublish publish =>
      match delivery_of publish with
      | None => v
      | Some d =>
          let qos := hdr_qos (pub_header publish) in
          if qos =? 2 then receive_qos2 publish d v
          else if qos =? 3 then v
          else deliver d v
      end
  | GotPubrel id => release id v
  end.

(** ** Lists *)

Lemma replace_insert {A} (l : list A) i x y :
  l !! i = Some x -> delete (S i) (take i l ++ y :: drop i l) = <[i := y]> l.
Proof. revert i. induction l as [|z l IH]; intros [|i] Hi; try done. simpl in *. f_equal. by apply IH. Qed.

Lemma delete_insert_list {A} (l : list A) i y : delete i (<[i := y]> l) = delete i l.
Proof. revert i. induction l as [|z l IH]; intros [|i]; try done. simpl. f_equal. apply IH. Qed.

Lemma insert_last {A} (l : list A) x y : <[List.length l := y]> (l ++ [x]) = l ++ [y].
Proof. induction l as [|z l IH]; [done|]. simpl. by rewrite IH. Qed.

Lemma insert_perm {A} (l : list A) i x y : l !! i = Some x -> <[i := y]> l ≡ₚ y :: delete i l.
Proof.
  intros Hi. rewrite (delete_Permutation _ i y).
  - by rewrite delete_insert_list.
  - apply list_lookup_insert_eq. by eapply lookup_lt_Some.
Qed.

Lemma live_eq h h' p : h' !! p = h !! p -> live h p -> live h' p.
Proof. unfold live. by intros ->. Qed.

(** Replacing one message, the publications of the others being what they were. *)
Lemma resolve_insert {B} (f : Messages -> option Publications -> B) h h' (l : list Messages) i x m :
  l !! i = Some x -> (forall q, q ∈ omap m_publish (delete i l) -> h' !! q = h !! q) ->
  resolve f h' (<[i := m]> l) = <[i := f m (m_publish m ≫= fun p => h' !! p)]> (resolve f h l).
Proof.
  revert i. induction l as [|y l IH]; intros [|i] Hi Hq; try done; simpl in *.
  - f_equal. by apply resolve_heap.
  - f_equal.
    + f_equal. destruct (m_publish y) as [p|]; [|done]. simpl. apply Hq. by left.
    + apply IH; [done|]. intros q Hin. apply Hq. destruct (m_publish y); [by right | done].
Qed.

Section Receiver.
Context {P N : Type} {PO : PersistenceOps P} {NT : Transport N} {NL : TransportLaws N}.
Implicit Types s : St P N.

(** ** Delivering *)

Record delivers (d : delivery) s s' : Prop := {
  dl_outs : outs s' = outs s;
  dl_ins : ins s' = ins s;
  dl_queue : map entry_delivery (queue s') = map entry_delivery (queue s) ++ [d];
  dl_pubs : st_pubs s' = st_pubs s;
  dl_pending : st_pending s' = st_pending s;
  dl_sent : st_msgs_sent s' = st_msgs_sent s;
  dl_received : st_msgs_received s' = st_msgs_received s;
  dl_msgid : last_id s' = last_id s
}.

Lemma delivers_inv d s s' : delivers d s s' -> inv s -> inv s'.
Proof. intros []. by apply inv_core. Qed.

Lemma delivers_view d s s' : delivers d s s' -> view_of s' = deliver d (view_of s).
Proof. intros []. unfold view_of, deliver, heap. simpl. congruence. Qed.

Lemma persistQueueEntry_total c qe (p : P) :
  props_inv (q_properties qe) ->
  exists rc n qe' p', MQTTPersistence_persistQueueEntry c qe p = Ok (rc, set_queue c (messageQueue c) n, qe', p') /\
    entry_delivery qe' = entry_delivery qe.
Proof.
  intros Hp. destruct (MQTTProperties_write_ok _ Hp) as (body & _ & Hw & Hl & _).
  pose proof (props_inv_length _ Hp) as Hpl. pose proof (VBIlen_range (Properties.length (q_properties qe))) as Hvl.
  assert (exists buf, alloc_write (MQTTProperties_len (Some (q_properties qe)))
    (MQTTPacket_encode (Properties.length (q_properties qe)) ++ body) = Ok buf) as [buf Hb].
  { eexists. apply alloc_write_ok.
    - rewrite Zlen_app, VBIlen_encode, Hl by lia. simpl. lia.
    - simpl. lia. }
  unfold MQTTPersistence_persistQueueEntry. cbv zeta.
  destruct (MQTTVERSION_5 <=? _); [rewrite Hw; cbn [mbind res_bind]; rewrite Hb|]; cbn [mbind res_bind].
  all: destruct (snprintf_key _ _ _) as [key|]; [|by do 4 eexists].
  all: destruct (match beforeWrite with Some _ => _ | None => _ end) as [rc' bufs'].
  all: destruct (rc' =? 0); [destruct (pput key bufs' p) as [rc2 p']|]; by do 4 eexists.
Qed.

Lemma wp_processPublication publish alloc d s :
  delivery_of publish = Some d -> (5 <= pub_MQTTVersion publish -> props_typed (pub_properties publish)) ->
  wp (Protocol_processPublication publish alloc) s (fun _ s' => delivers d s s').
Proof.
  intros Hd Hp. unfold delivery_of in Hd. unfold Protocol_processPublication.
  destruct (pub_topic publish) as [topic|]; [|done]. injection Hd as Hd.
  apply wp_bind.
  assert (wp (if 5 <=? pub_MQTTVersion publish then sm_lift (MQTTProperties_copy (pub_properties publish))
              else mret MQTTProperties_initializer) s
            (fun props s' => s' = s /\ props_inv props /\
               entries props = if 5 <=? pub_MQTTVersion publish then entries (pub_properties publish) else [])) as Hc.
  { destruct (Z.leb_spec 5 (pub_MQTTVersion publish)) as [Hv|Hv].
    - destruct (MQTTProperties_copy_ok _ (Hp Hv)) as (props & Hc & He & Hi). by eapply wp_lift.
    - apply wp_ret. split; [done|]. split; [apply props_inv_initializer | done]. }
  eapply wp_mono; [exact Hc|]. intros props s1 (-> & Hpi & Hpe). clear Hc.
  apply wp_bind, wp_get. set (qe := mkqEntry _ _ _ _ _ _ _ _ _).
  assert (entry_delivery qe = d) as He by (rewrite <- Hd; unfold entry_delivery; simpl; by rewrite Hpe).
  assert (forall s2 qe' n, quiet s s2 -> messageQueue (st_client s2) = messageQueue (st_client s) -> entry_delivery qe' = d ->
    delivers d s (set_client s2 (set_queue (st_client s2) (AList.append qe' (messageQueue (st_client s2))) n))) as Happ.
  { intros s2 qe' n [] Hmq Hq. split; try done. unfold queue. simpl. rewrite map_app, Hmq. simpl. by rewrite Hq. }
  destruct (persistence (st_client s)).
  - destruct (persistQueueEntry_total (st_client s) qe (st_phandle s) Hpi) as (rc & n & qe' & p' & Hrun & Heq).
    apply wp_bind. eapply wp_lift; [exact Hrun|]. cbv beta iota.
    apply wp_bind, wp_modify, wp_modify. simpl.
    set (c' := set_queue (st_client s) (messageQueue (st_client s)) n).
    apply (Happ (set_phandle (set_client s c') p')); [done | done | congruence].
  - apply wp_modify. by apply Happ.
Qed.

(** ** References to publications *)

(** Dropping a reference, if there is one, leaves the other publications alone. *)
Lemma wp_drop (o : option positive) s refs (Q : () -> St P N -> Prop) :
  store_inv (st_pubs s) (option_list o ++ refs) ->
  (forall ps', store_inv ps' refs -> (forall q, q ∈ refs -> ps_heap ps' !! q = ps_heap (st_pubs s) !! q) ->
     Q () (set_pubs s ps')) ->
  wp (MQTTProtocol_removePublication o) s Q.
Proof.
  intros Hs HQ. destruct o as [p|]; simpl in Hs.
  - destruct (removePublication_spec p s refs Hs) as (ps' & Hr & Hs' & Hh). eapply wp_run; [exact Hr|].
    apply HQ; [done|]. intros q Hq. rewrite Hh. apply lookup_delete_ne.
    pose proof (si_nodup _ _ Hs) as Hn. apply NoDup_cons in Hn as [Hn _]. set_solver.
  - apply wp_ret. replace s with (set_pubs s (st_pubs s)) by (by destruct s). by apply HQ.
Qed.

Lemma wp_unlink (o : option positive) s refs (Q : () -> St P N -> Prop) :
  store_inv (st_pubs s) (option_list o ++ refs) ->
  (forall ps', store_inv ps' refs -> (forall q, q ∈ refs -> ps_heap ps' !! q = ps_heap (st_pubs s) !! q) ->
     Q () (set_pubs s ps')) ->
  wp (unlink_publication o) s Q.
Proof.
  intros Hs HQ. destruct o as [p|]; simpl in Hs.
  - destruct (ListRemove_spec p s refs Hs) as (ps' & Hr & Hs' & Hh). eapply wp_run; [exact Hr|].
    apply HQ; [done|]. intros q Hq. rewrite Hh. apply lookup_delete_ne.
    pose proof (si_nodup _ _ Hs) as Hn. apply NoDup_cons in Hn as [Hn _]. set_solver.
  - apply wp_ret. replace s with (set_pubs s (st_pubs s)) by (by destruct s). by apply HQ.
Qed.

(** The references of the messages other than the inbound one of index [i]. *)
Definition other_refs s (i : nat) : list positive :=
  omap m_publish (outs s) ++ omap m_publish (delete i (ins s)) ++ map pw_p (st_pending s).

Lemma refs_inbound s i m :
  ins s !! i = Some m -> refs s ≡ₚ option_list (m_publish m) ++ other_refs s i.
Proof.
  intros Hm. unfold refs, other_refs. rewrite (omap_delete _ _ _ Hm).
  solve_Permutation.
Qed.

(** A state in which the inbound messages and the store have changed, and nothing else. *)
Record inbound_change s s' (l : list Messages) : Prop := {
  ic_outs : outs s' = outs s;
  ic_ins : ins s' = l;
  ic_queue : queue s' = queue s;
  ic_pending : st_pending s' = st_pending s;
  ic_sent : st_msgs_sent s' = st_msgs_sent s;
  ic_received : st_msgs_received s' = st_msgs_received s;
  ic_msgid : last_id s' = last_id s
}.

(** The invariant and the view after the message of index [i] has been replaced. *)
Lemma replaced_inbound s s' i x m :
  inv s -> ins s !! i = Some x -> inbound_change s s' (<[i := m]> (ins s)) -> m_msgid m = m_msgid x ->
  store_inv (st_pubs s') (option_list (m_publish m) ++ other_refs s i) ->
  (forall q, q ∈ other_refs s i -> heap s' !! q = heap s !! q) -> in_ok (heap s') m ->
  inv s' /\ view_of s' = set_in (view_of s)
    (<[i := hold_of m (m_publish m ≫= fun p => heap s' !! p)]> (v_in (view_of s))).
Proof.
  intros [Hst Ho Hi Hoi Hii Hmi] Hx [Hos His Hqs Hps Hss Hrs Hms] Hid Hst' Hh Hok.
  assert (forall q, q ∈ omap m_publish (outs s) -> heap s' !! q = heap s !! q) as Hho
    by (intros q Hq; apply Hh; unfold other_refs; rewrite !elem_of_app; tauto).
  assert (forall q, q ∈ omap m_publish (delete i (ins s)) -> heap s' !! q = heap s !! q) as Hhi
    by (intros q Hq; apply Hh; unfold other_refs; rewrite !elem_of_app; tauto).
  split.
  - split; rewrite ?Hos, ?His, ?Hms.
    + eapply store_inv_perm; [|exact Hst']. unfold refs. rewrite Hos, His, Hps.
      assert (<[i := m]> (ins s) !! i = Some m) as Hl
        by (apply list_lookup_insert_eq; by eapply lookup_lt_Some).
      rewrite (omap_delete _ _ _ Hl), delete_insert_list. unfold other_refs. solve_Permutation.
    + eapply out_ok_mono; [|exact Ho]. intros q Hq. by apply live_eq, Hho.
    + rewrite (insert_perm _ _ _ _ Hx). apply Forall_cons. split; [done|].
      eapply in_ok_mono; [|apply Forall_delete, Hi]. intros q Hq. by apply live_eq, Hhi.
    + done.
    + rewrite list_map_insert, Hid, list_insert_id; [done|]. by apply (map_lookup m_msgid).
    + done.
  - unfold view_of. rewrite Hos, His, Hqs, Hss, Hrs. unfold set_in. simpl. f_equal.
    + by apply resolve_heap.
    + by eapply resolve_insert.
Qed.

Lemma appended_inbound s s' m :
  inv s -> inbound_change s s' (ins s ++ [m]) -> (forall x, x ∈ ins s -> m_msgid x <> m_msgid m) ->
  store_inv (st_pubs s') (option_list (m_publish m) ++ refs s) ->
  (forall q, q ∈ refs s -> heap s' !! q = heap s !! q) -> in_ok (heap s') m ->
  inv s' /\ view_of s' = set_in (view_of s)
    (v_in (view_of s) ++ [hold_of m (m_publish m ≫= fun p => heap s' !! p)]).
Proof.
  intros [Hst Ho Hi Hoi Hii Hmi] [Hos His Hqs Hps Hss Hrs Hms] Hnew Hst' Hh Hok.
  assert (forall q, q ∈ omap m_publish (outs s) -> heap s' !! q = heap s !! q) as Hho
    by (intros q Hq; apply Hh; unfold refs; rewrite !elem_of_app; tauto).
  assert (forall q, q ∈ omap m_publish (ins s) -> heap s' !! q = heap s !! q) as Hhi
    by (intros q Hq; apply Hh; unfold refs; rewrite !elem_of_app; tauto).
  split.
  - split; rewrite ?Hos, ?His, ?Hms.
    + eapply store_inv_perm; [|exact Hst']. unfold refs. rewrite Hos, His, Hps, omap_app. simpl.
      replace (match m_publish m with Some b => [b] | None => [] end) with (option_list (m_publish m))
        by (by destruct (m_publish m)).
      solve_Permutation.
    + eapply out_ok_mono; [|exact Ho]. intros q Hq. by apply live_eq, Hho.
    + apply Forall_app. split; [|by apply Forall_singleton].
      eapply in_ok_mono; [|exact Hi]. intros q Hq. by apply live_eq, Hhi.
    + done.
    + rewrite map_app. apply NoDup_app. split; [done|]. split; [|apply NoDup_singleton].
      intros id Hid Hin. apply list_elem_of_singleton in Hin as ->.
      apply list_elem_of_In, in_map_iff in Hid as (x & Hx & Hin). apply (Hnew x); [by apply list_elem_of_In | done].
    + done.
  - unfold view_of. rewrite Hos, His, Hqs, Hss, Hrs. unfold set_in. simpl. f_equal.
    + by apply resolve_heap.
    + unfold resolve. rewrite map_app. simpl. f_equal. by apply (resolve_heap hold_of).
Qed.

Lemma removed_inbound s s' i x :
  inv s -> ins s !! i = Some x -> inbound_change s s' (delete i (ins s)) ->
  store_inv (st_pubs s') (other_refs s i) ->
  (forall q, q ∈ other_refs s i -> heap s' !! q = heap s !! q) ->
  inv s' /\ view_of s' = set_in (view_of s) (delete i (v_in (view_of s))).
Proof.
  intros [Hst Ho Hi Hoi Hii Hmi] Hx [Hos His Hqs Hps Hss Hrs Hms] Hst' Hh.
  assert (forall q, q ∈ omap m_publish (outs s) -> heap s' !! q = heap s !! q) as Hho
    by (intros q Hq; apply Hh; unfold other_refs; rewrite !elem_of_app; tauto).
  assert (forall q, q ∈ omap m_publish (delete i (ins s)) -> heap s' !! q = heap s !! q) as Hhi
    by (intros q Hq; apply Hh; unfold other_refs; rewrite !elem_of_app; tauto).
  split.
  - split; rewrite ?Hos, ?His, ?Hms.
    + eapply store_inv_perm; [|exact Hst']. unfold refs, other_refs. by rewrite Hos, His, Hps.
    + eapply out_ok_mono; [|exact Ho]. intros q Hq. by apply live_eq, Hho.
    + eapply in_ok_mono; [|apply Forall_delete, Hi]. intros q Hq. by apply live_eq, Hhi.
    + done.
    + rewrite list_map_delete. by apply NoDup_delete.
    + done.
  - unfold view_of. rewrite Hos, His, Hqs, Hss, Hrs. unfold set_in. simpl. f_equal.
    + by apply resolve_heap.
    + unfold resolve. rewrite <- list_map_delete. by apply (resolve_heap hold_of).
Qed.

(** ** A QoS 2 message is held *)

(** The state after a new publication has been stored. *)
Record stored (p : positive) (pb : Publications) s s2 : Prop := {
  sr_outs : outs s2 = outs s;
  sr_ins : ins s2 = ins s;
  sr_queue : queue s2 = queue s;
  sr_pending : st_pending s2 = st_pending s;
  sr_sent : st_msgs_sent s2 = st_msgs_sent s;
  sr_received : st_msgs_received s2 = st_msgs_received s;
  sr_msgid : last_id s2 = last_id s;
  sr_fresh : p ∉ refs s;
  sr_store : store_inv (st_pubs s2) (p :: refs s);
  sr_heap : heap s2 = <[p := pb]> (heap s)
}.

Lemma stored_quiet p pb s s2 s3 : stored p pb s s2 -> quiet s2 s3 -> stored p pb s s3.
Proof.
  intros [] Hq. pose proof (quiet_heap _ _ Hq). destruct Hq.
  split; try congruence.
Qed.

Lemma held_found s i x :
  inv s -> ins s !! i = Some x ->
  is_held (m_msgid x) (view_of s) = true /\
  forall h, map (fun y => if h_id y =? m_msgid x then h else y) (v_in (view_of s)) = <[i := h]> (v_in (view_of s)).
Proof.
  intros Hi Hx.
  assert (v_in (view_of s) !! i = Some (hold_of x (m_publish x ≫= fun p => heap s !! p))) as Hl
    by apply (map_lookup (fun m => hold_of m (m_publish m ≫= fun p => heap s !! p)) _ _ _ Hx).
  split.
  - apply existsb_exists. exists (hold_of x (m_publish x ≫= fun p => heap s !! p)).
    split; [apply list_elem_of_In; by eapply list_elem_of_lookup_2 | apply Z.eqb_refl].
  - intros h. symmetry. apply (insert_map h_id _ _ _ h) in Hl; [exact Hl|]. rewrite in_ids. apply Hi.
Qed.

Lemma held_unknown s id :
  (forall x, x ∈ ins s -> m_msgid x <> id) ->
  is_held id (view_of s) = false /\ List.find (fun h => h_id h =? id) (v_in (view_of s)) = None.
Proof.
  intros Hno. assert (forall h, In h (v_in (view_of s)) -> (h_id h =? id) = false) as Hh.
  { intros h Hin. apply in_map_iff in Hin as (x & <- & Hx). apply Z.eqb_neq, Hno. by apply list_elem_of_In. }
  split.
  - unfold is_held. destruct (existsb _ _) eqn:E; [|done]. apply existsb_exists in E as (h & Hin & E).
    by rewrite Hh in E.
  - destruct (List.find _ _) eqn:E; [|done]. apply find_some in E as [Hin E]. by rewrite Hh in E.
Qed.

Lemma wp_hold_message found m p pb s s2 :
  inv s -> stored p pb s s2 -> m_publish m = Some p -> in_ok (<[p := pb]> ∅) m ->
  found_in (ins s) (m_msgid m) found ->
  wp (hold_message found m) s2 (fun i s' =>
    inv s' /\ ins s' !! i = Some m /\ heap s' !! p = Some pb /\
    view_of s' = set_in (view_of s)
      (if is_held (m_msgid m) (view_of s)
       then map (fun y => if h_id y =? m_msgid m then hold_of m (Some pb) else y) (v_in (view_of s))
       else v_in (view_of s) ++ [hold_of m (Some pb)]) /\
    bool_decide (is_Some found) = is_held (m_msgid m) (view_of s)).
Proof.
  intros Hi [Hos His Hqs Hps Hss Hrs Hms Hfr Hst Hh] Hp Hok Hf. unfold hold_message. apply wp_bind, wp_get.
  assert (forall h : gmap positive Publications, h !! p = Some pb -> in_ok h m) as Hok'.
  { intros h Hhp. destruct Hok as (H1 & H2 & H3). split; [done|]. split; [done|]. intros Hv.
    destruct (H3 Hv) as (q & Hq & (b & t & Hb & Ht)). exists q. split; [done|]. rewrite Hp in Hq.
    injection Hq as <-. rewrite lookup_insert_eq in Hb. injection Hb as <-. by exists pb, t. }
  destruct found as [[i x]|]; simpl in Hf.
  - destruct Hf as [Hx Hid]. pose proof (refs_inbound _ _ _ Hx) as Hperm.
    apply wp_bind. apply (wp_drop _ _ (p :: other_refs s i)).
    { eapply store_inv_perm; [|exact Hst]. rewrite Hperm. solve_Permutation. }
    intros ps' Hst' Hq. apply wp_bind, wp_modify, wp_ret. set (s' := set_client _ _).
    assert (forall q, q ∈ other_refs s i -> heap s' !! q = heap s !! q) as Hqs'.
    { intros q Hin. transitivity (heap s2 !! q); [apply Hq; by right|]. rewrite Hh. apply lookup_insert_ne.
      intros <-. apply Hfr. rewrite Hperm, elem_of_app. by right. }
    assert (heap s' !! p = Some pb) as Hpb 
      by (transitivity (heap s2 !! p); [apply Hq; left | by rewrite Hh, lookup_insert_eq]).
    assert (inbound_change s s' (<[i := m]> (ins s))) as Hc.
    { split; try done. rewrite <- (replace_insert _ _ _ m Hx), <- His. done. }
    destruct (replaced_inbound s s' i x m Hi Hx Hc) as [Hinv Hv]; try done.
    { by rewrite Hp. } { by apply Hok'. }
    destruct (held_found s i x Hi Hx) as [Hheld Hmap]. rewrite Hid in Hheld, Hmap.
    split; [done|]. split; [rewrite (ic_ins _ _ _ Hc); apply list_lookup_insert_eq; by eapply lookup_lt_Some|].
    split; [done|]. rewrite Hheld, Hmap. split; [|done]. rewrite Hv, Hp. simpl. by rewrite Hpb.
  - apply wp_bind, wp_modify, wp_ret. set (s' := set_client _ _).
    assert (inbound_change s s' (ins s ++ [m])) as Hc by (split; try done; by rewrite <- His).
    assert (heap s' !! p = Some pb) as Hpb by (change (heap s' !! p) with (heap s2 !! p); by rewrite Hh, lookup_insert_eq).
    destruct (appended_inbound s s' m Hi Hc) as [Hinv Hv]; try done.
    { by rewrite Hp. }
    { intros q Hin. change (heap s2 !! q = heap s !! q). rewrite Hh. apply lookup_insert_ne. by intros <-. }
    { by apply Hok'. }
    destruct (held_unknown s _ Hf) as [Hheld _]. rewrite Hheld.
    split; [done|]. split.
    { rewrite (ic_ins _ _ _ Hc). change (AList.items (inboundMsgs (st_client s2))) with (ins s2). rewrite His.
      apply list_lookup_middle. done. }
    split; [done|]. split; [|done]. rewrite Hv, Hp. simpl. by rewrite Hpb.
Qed.

(** With MQTT 5 the message has been delivered when it is held: its publication goes. *)
Lemma wp_forget i m p s (k : SM (St P N) Z) (Q : Z -> St P N -> Prop) :
  inv s -> ins s !! i = Some m -> m_publish m = Some p -> MQTTVERSION_5 <= m_MQTTVersion m ->
  (forall s', inv s' -> view_of s' = view_of s -> wp k s' Q) ->
  wp (_ ← unlink_publication (Some p);
      _ ← modify_client (fun c => set_inbound c (set_item i (set_publish m None) (inboundMsgs c))); k) s Q.
Proof.
  intros Hi Hm Hp Hv Hk. apply wp_bind. apply (wp_unlink (Some p) s (other_refs s i)).
  { rewrite <- Hp. eapply store_inv_perm; [by apply refs_inbound | apply Hi]. }
  intros ps' Hst' Hq. apply wp_bind, wp_modify. set (s' := set_client _ _).
  assert (inbound_change s s' (<[i := set_publish m None]> (ins s))) as Hc by (by split).
  destruct (replaced_inbound s s' i m (set_publish m None) Hi Hm Hc) as [Hinv Hvw]; try done.
  { destruct (Forall_lookup_1 _ _ _ _ (inv_in _ Hi) Hm) as (H1 & H2 & _).
    split; [done|]. split; [done|]. simpl. lia. }
  apply Hk; [done|]. rewrite Hvw. unfold set_in.
  assert (v_in (view_of s) !! i = Some (hold_of (set_publish m None) None)) as Hl.
  { etransitivity; [exact (map_lookup (fun m => hold_of m (m_publish m ≫= fun p => heap s !! p)) _ _ _ Hm)|].
    unfold hold_of. simpl. by destruct (Z.leb_spec MQTTVERSION_5 (m_MQTTVersion m)); [|lia]. }
  simpl in Hl |- *. by rewrite list_insert_id.
Qed.

(** The publications the packet functions hand over: a topic, as many payload bytes as
    the length says, well-typed properties. *)
Record publish_ok (publish : Publish) : Prop := {
  pk_topic : is_Some (pub_topic publish);
  pk_len : Zlen (default [] (pub_payload publish)) = pub_payloadlen publish;
  pk_props : MQTTVERSION_5 <= pub_MQTTVersion publish -> props_typed (pub_properties publish)
}.

Lemma delivery_stored publish topic d props p :
  pub_topic publish = Some topic -> delivery_of publish = Some d -> hdr_qos (pub_header publish) = 2 ->
  entries props = (if MQTTVERSION_5 <=? pub_MQTTVersion publish then entries (pub_properties publish) else []) ->
  delivery_of (publication_of
    (mkMessages (hdr_qos (pub_header publish)) (hdr_retain (pub_header publish)) (pub_msgId publish)
       (pub_MQTTVersion publish) props (Some p) 0 (Some PUBREL))
    (mkPublications (Some topic) (pub_topiclen publish) (pub_payload publish) (pub_payloadlen publish) 1
       (pub_mask publish))) = Some d.
Proof.
  intros Ht Hd Hq He. unfold delivery_of in *. rewrite Ht in Hd. cbn in Hd. injection Hd as <-.
  unfold publication_of. rewrite Hq in *. cbn.
  pose proof (hdr_retain_range (pub_header publish)).
  destruct (mk_header_fields 0 0 2 (hdr_retain (pub_header publish))) as (_ & _ & _ & Hfq & Hfr); try lia.
  rewrite Hfq, Hfr. do 2 f_equal. rewrite He. unfold MQTTVERSION_5. by destruct (5 <=? pub_MQTTVersion publish).
Qed.

Lemma wp_copy_props publish s :
  publish_ok publish ->
  wp (if MQTTVERSION_5 <=? pub_MQTTVersion publish then sm_lift (MQTTProperties_copy (pub_properties publish))
      else mret MQTTProperties_initializer) s
    (fun props s' => s' = s /\ props_inv props /\
       entries props = if MQTTVERSION_5 <=? pub_MQTTVersion publish then entries (pub_properties publish) else []).
Proof.
  intros Hk. destruct (Z.leb_spec MQTTVERSION_5 (pub_MQTTVersion publish)) as [Hv|Hv].
  - destruct (MQTTProperties_copy_ok _ (pk_props _ Hk Hv)) as (props & Hc & He & Hi). by eapply wp_lift.
  - apply wp_ret. split; [done|]. split; [apply props_inv_initializer | done].
Qed.

(** What the QoS 2 branch does. *)
Lemma wp_handle_qos2 publish d s :
  inv s -> publish_ok publish -> delivery_of publish = Some d -> hdr_qos (pub_header publish) = 2 ->
  wp (handle_qos2 publish) s (fun _ s' => inv s' /\ view_of s' = receive_qos2 publish d (view_of s)).
Proof.
  intros Hi Hk Hd Hq. destruct (pk_topic _ Hk) as [topic Ht].
  destruct (storePublication_spec publish topic s (refs s) Ht (inv_store _ Hi))
    as (p & publish' & ps' & Hr & Hfr & Hst & Hh & _).
  unfold handle_qos2. apply wp_bind. eapply wp_run; [exact Hr|]. cbv beta iota.
  apply wp_bind. eapply wp_mono; [by apply wp_copy_props|]. intros props s2 (-> & Hpi & Hpe).
  set (pb := mkPublications _ _ _ _ _ _) in Hh. set (m := mkMessages _ _ _ _ _ _ _ _). cbv zeta.
  assert (stored p pb s (set_pubs s ps')) as Hs2 by (split; try done; exact Hh).
  apply wp_bind. eapply wp_mono; [apply wp_find_inbound|]. intros found s3 (Hq3 & _ & _ & Hf).
  apply wp_bind. eapply wp_mono.
  { apply (wp_hold_message found m p pb s s3); try done.
    - by eapply stored_quiet.
    - split; [exact Hq|]. split; [done|]. intros _. exists p. split; [done|]. exists pb, topic.
      rewrite lookup_insert_eq. split; [done|]. split; [done|]. apply Hk. }
  intros i s4 (Hi4 & Hm4 & Hp4 & Hv4 & Hfound). apply wp_bind.
  eapply wp_mono; [apply wp_send_ack|]. intros rc s5 Hf5. apply frame_quiet in Hf5.
  assert (delivery_of (publication_of m pb) = Some d) as Hd' by (by apply (delivery_stored publish topic d props p)).
  assert (hold_of m (Some pb) = mkHold (pub_msgId publish)
    (if MQTTVERSION_5 <=? pub_MQTTVersion publish then None else Some d)) as Hhold.
  { unfold hold_of. simpl. destruct (MQTTVERSION_5 <=? _) eqn:E; [done|]. f_equal.
    exact Hd'. }
  rewrite Hhold in Hv4. simpl m_msgid in Hv4, Hfound. simpl m_MQTTVersion. rewrite Hfound.
  assert (inv s5) as Hi5 by (by eapply quiet_inv). rewrite <- (quiet_view _ _ Hf5) in Hv4.
  unfold receive_qos2. destruct (is_held _ _); cbn [negb].
  { rewrite andb_false_r. by apply wp_ret. }
  rewrite andb_true_r. destruct (Z.leb_spec MQTTVERSION_5 (pub_MQTTVersion publish)) as [Hv|Hv]; [|by apply wp_ret].
  rewrite <- (quiet_heap _ _ Hf5) in Hp4. rewrite <- (qt_ins _ _ Hf5) in Hm4.
  apply wp_bind. eapply wp_run; [by apply deref_pub_run|].
  apply wp_bind. eapply wp_mono.
  { apply wp_processPublication; [exact Hd'|]. intros _. by apply props_inv_typed. }
  intros [] s6 H6. assert (inv s6) as Hi6 by (by eapply delivers_inv).
  rewrite <- (dl_ins _ _ _ H6) in Hm4.
  eapply wp_forget; try done. intros s7 Hi7 Hv7. apply wp_ret. split; [done|].
  by rewrite Hv7, (delivers_view _ _ _ H6), Hv4.
Qed.

(** ** PUBREL *)

Lemma find_key {A} (key : A -> Z) (l : list A) i x :
  NoDup (map key l) -> l !! i = Some x -> List.find (fun y => key y =? key x) l = Some x.
Proof.
  revert i. induction l as [|y l IH]; intros [|i] Hn Hi; try done; simpl in *.
  - injection Hi as ->. by rewrite Z.eqb_refl.
  - apply NoDup_cons in Hn as [Hy Hn]. destruct (Z.eqb_spec (key y) (key x)) as [E|_]; [|by apply (IH i)].
    exfalso. apply Hy. rewrite E. apply list_elem_of_In, in_map, list_elem_of_In. by eapply list_elem_of_lookup_2.
Qed.

Lemma counters_view s a b :
  view_of (set_counters s a b) =
  mkView (v_out (view_of s)) (v_in (view_of s)) (v_delivered (view_of s)) a b.
Proof. done. Qed.

(** Releasing a message that is held. *)
Lemma release_found v i h :
  NoDup (map h_id (v_in v)) -> v_in v !! i = Some h ->
  release (h_id h) v =
    mkView (v_out v) (delete i (v_in v)) (v_delivered v ++ option_list (h_pending h)) (v_sent v)
      (to_u32 (v_received v + 1)).
Proof.
  intros Hn Hl. unfold release. rewrite (find_key h_id _ _ _ Hn Hl), (delete_filter h_id _ _ _ Hn Hl).
  destruct (h_pending h); simpl; [done|]. by rewrite app_nil_r.
Qed.

(** The message is removed from the list, and counted. *)
Lemma wp_drop_inbound i m rc s (Q : Z -> St P N -> Prop) :
  inv s -> ins s !! i = Some m ->
  (forall s', inv s' ->
     view_of s' = mkView (v_out (view_of s)) (delete i (v_in (view_of s))) (v_delivered (view_of s))
                    (v_sent (view_of s)) (to_u32 (v_received (view_of s) + 1)) -> Q rc s') ->
  wp (_ ← unlink_publication (m_publish m); _ ← remove_inbound i; _ ← incr_received; mret rc) s Q.
Proof.
  intros Hi Hm HQ. apply wp_bind. apply (wp_unlink _ s (other_refs s i)).
  { eapply store_inv_perm; [by apply refs_inbound | apply Hi]. }
  intros ps' Hst' Hq. apply wp_bind, wp_modify. set (s' := set_client _ _).
  assert (inbound_change s s' (delete i (ins s))) as Hc by (by split).
  destruct (removed_inbound s s' i m Hi Hm Hc) as [Hinv Hv]; try done.
  apply wp_bind, wp_modify, wp_ret, HQ; [by apply counters_inv|].
  rewrite counters_view, Hv. done.
Qed.

(** The publication of a message held, and its delivery if it is still to come. *)
Lemma wp_read_publication i m s :
  inv s -> ins s !! i = Some m ->
  wp (match m_publish m with
      | Some p => pb ← deref_pub p; mret (publication_of m pb)
      | None => mret (publication_of m (mkPublications None 0 None 0 0 []))
      end) s (fun publish s' => s' = s /\ pub_MQTTVersion publish = m_MQTTVersion m /\
    (m_MQTTVersion m < MQTTVERSION_5 -> exists d, delivery_of publish = Some d /\
       h_pending (hold_of m (m_publish m ≫= fun p => heap s !! p)) = Some d)).
Proof.
  intros Hi Hm. destruct (Forall_lookup_1 _ _ _ _ (inv_in _ Hi) Hm) as (_ & _ & H3).
  destruct (m_publish m) as [p|] eqn:Hp.
  - destruct (proj2 (si_dom _ _ (inv_store _ Hi) p)) as [pb Hpb].
    { rewrite (refs_inbound _ _ _ Hm), Hp. left. }
    apply wp_bind. eapply wp_run; [by apply deref_pub_run|]. apply wp_ret. split; [done|]. split; [done|].
    intros Hv. destruct (H3 Hv) as (q & [= <-] & (pb' & t & Hpb' & Ht & _)).
    assert (pb' = pb) as -> by (unfold heap in Hpb'; congruence).
    unfold hold_of. simpl. unfold heap. rewrite Hpb. simpl.
    destruct (Z.leb_spec MQTTVERSION_5 (m_MQTTVersion m)); [lia|].
    unfold delivery_of. simpl. rewrite Ht. simpl. by eexists.
  - apply wp_ret. split; [done|]. split; [done|]. intros Hv. by destruct (H3 Hv) as (p & ? & _).
Qed.

Lemma wp_release i m a id s s1 :
  inv s -> quiet s s1 -> ins s !! i = Some m -> m_msgid m = id ->
  wp (release_inbound i m a id) s1 (fun _ s' => inv s' /\ view_of s' = release id (view_of s)).
Proof.
  intros Hi Hq Hm <-. unfold release_inbound. apply wp_bind.
  eapply wp_mono; [apply wp_send_ack|].
  intros rc s2 Hf2. assert (quiet s s2) as Hq2 by (transitivity s1; [done | by apply frame_quiet]).
  assert (inv s2) as Hi2 by (by eapply quiet_inv).
  rewrite <- (quiet_view _ _ Hq2). rewrite <- (qt_ins _ _ Hq2) in Hm. clear s Hi Hq Hq2 Hf2 s1.
  apply wp_bind. eapply wp_mono; [by eapply wp_read_publication|]. intros publish s3 (-> & Hv & Hd).
  assert (v_in (view_of s2) !! i = Some (hold_of m (m_publish m ≫= fun p => heap s2 !! p))) as Hl
    by apply (map_lookup (fun m => hold_of m (m_publish m ≫= fun p => heap s2 !! p)) _ _ _ Hm).
  assert (NoDup (map h_id (v_in (view_of s2)))) as Hnd by (rewrite in_ids; apply Hi2).
  pose proof (release_found _ _ _ Hnd Hl) as Hrel. simpl h_id in Hrel. rewrite Hrel. clear Hrel.
  apply wp_bind. destruct (Z.leb_spec MQTTVERSION_5 (m_MQTTVersion m)) as [H5|H5].
  - apply wp_ret. apply wp_bind. eapply wp_mono; [apply wp_persistence_remove|]. intros rc2 s4 Hf4.
    apply frame_quiet in Hf4. rewrite <- (qt_ins _ _ Hf4) in Hm.
    eapply wp_drop_inbound; [by eapply quiet_inv | done|]. intros s5 Hi5 Hv5. split; [done|].
    rewrite Hv5, (quiet_view _ _ Hf4). unfold hold_of. simpl.
    destruct (Z.leb_spec MQTTVERSION_5 (m_MQTTVersion m)); [|lia]. simpl. by rewrite app_nil_r.
  - destruct (Hd H5) as (d & Hdel & Hpend). rewrite Hpend.
    eapply wp_mono; [apply (wp_processPublication _ _ d); [done|]; unfold MQTTVERSION_5 in H5; lia|].
    intros [] s4 H4. rewrite <- (dl_ins _ _ _ H4) in Hm.
    apply wp_bind. eapply wp_mono; [apply wp_persistence_remove|]. intros rc2 s5 Hf5.
    apply frame_quiet in Hf5. rewrite <- (qt_ins _ _ Hf5) in Hm.
    eapply wp_drop_inbound; [eapply quiet_inv; [done|]; by eapply delivers_inv | done|]. intros s6 Hi6 Hv6. split; [done|].
    rewrite Hv6, (quiet_view _ _ Hf5), (delivers_view _ _ _ H4). done.
Qed.

(** Whether the connection accepts another acknowledgement. *)
Definition ready s : bool := fst (noPendingWrites (the_socket s) (st_net s)).

Lemma wp_handlePublishes publish s :
  inv s -> publish_ok publish ->
  wp (MQTTProtocol_handlePublishes publish) s (fun rc s' =>
    inv s' /\
    if (hdr_qos (pub_header publish) =? 0) || ready s
    then view_of s' = receiver_step (GotPublish publish) (view_of s)
    else rc = SOCKET_ERROR /\ view_of s' = view_of s).
Proof.
  intros Hi Hk.
  destruct (delivery_of publish) as [d|] eqn:Hd;
    [|destruct (pk_topic _ Hk) as [t Ht]; unfold delivery_of in Hd; by rewrite Ht in Hd].
  simpl. rewrite Hd. unfold MQTTProtocol_handlePublishes. apply wp_bind, wp_get.
  assert (forall s1, quiet s s1 -> wp (Protocol_processPublication publish 1) s1
    (fun _ s' => inv s' /\ view_of s' = deliver d (view_of s))) as Hproc.
  { intros s1 Hq. eapply wp_mono; [apply (wp_processPublication _ _ d); [done | apply Hk]|].
    intros [] s2 H2. split; [eapply delivers_inv; [done|]; by eapply quiet_inv|].
    by rewrite (delivers_view _ _ _ H2), (quiet_view _ _ Hq). }
  destruct (Z.eqb_spec (hdr_qos (pub_header publish)) 0) as [E0|H0]; simpl orb.
  + rewrite E0. apply wp_bind. eapply wp_mono; [by apply Hproc|]. intros [] s' H. by apply wp_ret.
  + apply wp_bind. eapply wp_mono; [apply wp_ready|]. intros b s1 [-> Hf]. fold (ready s).
    apply frame_quiet in Hf. assert (inv s1) as Hi1 by (by eapply quiet_inv).
    destruct (ready s); simpl negb; cbv iota; [|apply wp_ret; split; [done|]; by rewrite (quiet_view _ _ Hf)].
    destruct (Z.eqb_spec (hdr_qos (pub_header publish)) 1) as [E1|H1]; [rewrite E1|].
    * apply wp_bind. eapply wp_mono; [apply wp_send_ack|]. intros rc s2 Hf2.
      apply wp_bind. eapply wp_mono; [apply Hproc; transitivity s1; [done | by apply frame_quiet]|].
      intros [] s3 H3. by apply wp_ret.
    * destruct (Z.eqb_spec (hdr_qos (pub_header publish)) 2) as [E2|H2].
      -- rewrite <- (quiet_view _ _ Hf). by apply wp_handle_qos2.
      -- apply wp_ret. split; [done|]. rewrite (quiet_view _ _ Hf).
         pose proof (hdr_qos_range (pub_header publish)) as Hr.
         destruct (Z.eqb_spec (hdr_qos (pub_header publish)) 3); [done|lia].
Qed.

Lemma wp_handlePubrels a id s :
  inv s -> ack_msgId a = Some id ->
  wp (MQTTProtocol_handlePubrels a) s (fun rc s' =>
    inv s' /\ view_of s' = if ready s then receiver_step (GotPubrel id) (view_of s) else view_of s).
Proof.
  intros Hi Ha.
  simpl. unfold MQTTProtocol_handlePubrels, with_msgid. rewrite Ha.
  apply wp_bind. eapply wp_mono; [apply wp_find_inbound|]. intros found s1 (Hq & Hn & Hsk & Hf).
  assert (inv s1) as Hi1 by (by eapply quiet_inv).
  assert (wp (call_net (noPendingWrites (the_socket s1))) s1 (fun b s' => b = ready s /\ quiet s s')) as Hready.
  { eapply wp_mono; [apply wp_ready|]. intros b s2 [-> Hf2]. split; [unfold ready; by rewrite Hn, Hsk|].
    transitivity s1; [done | by apply frame_quiet]. }
  apply wp_bind, wp_get. destruct found as [[i m]|]; simpl in Hf.
  + destruct Hf as [Hm Hid]. destruct (Forall_lookup_1 _ _ _ _ (inv_in _ Hi) Hm) as (H2 & H3 & _).
    rewrite H2, H3. simpl negb. cbv iota.
    apply wp_bind. eapply wp_mono; [exact Hready|]. intros b s2 [-> Hq2].
    destruct (ready s); simpl negb; cbv iota; [by eapply wp_release|].
    apply wp_ret. split; [by eapply quiet_inv | by apply quiet_view].
  + assert (release id (view_of s) = view_of s) as Hrel.
    { unfold release. destruct (held_unknown s id Hf) as [_ Hfind]. by rewrite Hfind. }
    assert (forall s', quiet s s' -> inv s' /\ view_of s' = (if ready s then release id (view_of s) else view_of s)) as Hdone.
    { intros s' Hq'. rewrite Hrel. split; [by eapply quiet_inv|]. rewrite (quiet_view _ _ Hq'). by destruct (ready s). }
    destruct (hdr_dup _ =? 0); [apply wp_ret; by apply Hdone|].
    apply wp_bind. eapply wp_mono; [exact Hready|]. intros b s2 [-> Hq2].
    destruct (negb (ready s)); [apply wp_ret; by apply Hdone|].
    eapply wp_mono; [apply wp_send_ack|]. intros rc s3 Hf3. apply Hdone.
    transitivity s2; [done | by apply frame_quiet].
Qed.

(** C16. The receiver.  A PUBLISH and a PUBREL do to a session what the specification of
    the receiver says: QoS 0 and QoS 1 messages are delivered; a QoS 2 message is held
    until its PUBREL, a repeated one taking the place of the one held, and delivered
    once, when it is first held (MQTT 5) or released (before).  When a write is
    pending on the connection a packet that needs an acknowledgement is refused with
    [SOCKET_ERROR] and changes nothing.  The handlers always return, use no freed
    publication, and preserve the invariant. *)
Theorem receiver_refines (publish : Publish) (a : Ack) (id : Z) (s : St P N) :
  inv s -> publish_ok publish -> ack_msgId a = Some id ->
  wp (MQTTProtocol_handlePublishes publish) s (fun rc s' =>
    inv s' /\
    if (hdr_qos (pub_header publish) =? 0) || ready s
    then view_of s' = receiver_step (GotPublish publish) (view_of s)
    else rc = SOCKET_ERROR /\ view_of s' = view_of s) /\
  wp (MQTTProtocol_handlePubrels a) s (fun rc s' =>
    inv s' /\ view_of s' = if ready s then receiver_step (GotPubrel id) (view_of s) else view_of s).
Proof.
  intros Hi Hk Ha. split; [by apply wp_handlePublishes | by apply wp_handlePubrels].
Qed.

End Receiver.

(** ** Exactly once *)

(** Packets of the receiving side, and their handling one after the other. *)
Inductive packet_in :=
| InPublish (publish : Publish)
| InPubrel (pubrel : Ack).

Definition event_of (e : packet_in) : receiver_event :=
  match e with
  | InPublish publish => GotPublish publish
  | InPubrel a => GotPubrel (default 0 (ack_msgId a))
  end.

(** The packets of QoS 2 exchanges, of MQTT 5 or of an earlier version. *)
Definition qos2_packet (v5 : bool) (e : packet_in) : Prop :=
  match e with
  | InPublish publish =>
      publish_ok publish /\ hdr_qos (pub_header publish) = 2 /\
      (MQTTVERSION_5 <=? pub_MQTTVersion publish) = v5
  | InPubrel a => is_Some (ack_msgId a)
  end.

(** How often the exchange of [id] is opened by a PUBLISH, and how often it is closed by
    a PUBREL, it being open or not at the start. *)
Fixpoint openings (id : Z) (open : bool) (l : list packet_in) : nat :=
  match l with
  | [] => 0
  | InPublish publish :: l =>
      if (pub_msgId publish =? id)%Z then (if open then 0 else 1) + openings id true l else openings id open l
  | InPubrel a :: l =>
      if (default 0%Z (ack_msgId a) =? id)%Z then openings id false l else openings id open l
  end%nat.

Fixpoint closings (id : Z) (open : bool) (l : list packet_in) : nat :=
  match l with
  | [] => 0
  | InPublish publish :: l => if (pub_msgId publish =? id)%Z then closings id true l else closings id open l
  | InPubrel a :: l =>
      if (default 0%Z (ack_msgId a) =? id)%Z then (if open then 1 else 0) + closings id false l
      else closings id open l
  end%nat.

Definition exchanges (v5 : bool) := if v5 then openings else closings.

(** How often a message with identifier [id] has been delivered. *)
Definition deliveries (id : Z) (v : view) : nat :=
  List.length (List.filter (fun d => d_msgid d =? id) (v_delivered v)).

(** The messages held are delivered already (MQTT 5) or to be delivered under their
    own identifier. *)
Definition uniform (v5 : bool) (v : view) : Prop :=
  Forall (fun h => if v5 then h_pending h = None
                   else exists d, h_pending h = Some d /\ d_msgid d = h_id h) (v_in v).

Lemma deliveries_deliver id d v :
  deliveries id (deliver d v) = ((if (d_msgid d =? id)%Z then 1 else 0) + deliveries id v)%nat.
Proof.
  unfold deliveries, deliver. simpl. rewrite List.filter_app, length_app. simpl.
  destruct (d_msgid d =? id)%Z; simpl; lia.
Qed.

Lemma is_held_app id v h : existsb (fun x => h_id x =? id) (v_in v ++ [h]) = is_held id v || (h_id h =? id).
Proof. rewrite existsb_app. simpl. by rewrite orb_false_r. Qed.

Lemma is_held_replace id h l :
  existsb (fun x => h_id x =? id) (map (fun x => if h_id x =? h_id h then h else x) l)
  = existsb (fun x => h_id x =? id) l.
Proof.
  induction l as [|x l IH]; [done|]. simpl. rewrite IH. f_equal.
  by destruct (Z.eqb_spec (h_id x) (h_id h)) as [->|].
Qed.

Lemma is_held_drop id id' l :
  existsb (fun x => h_id x =? id) (List.filter (fun x => negb (h_id x =? id')) l)
  = negb (id' =? id) && existsb (fun x => h_id x =? id) l.
Proof.
  induction l as [|x l IH]; simpl; [by rewrite andb_false_r|].
  destruct (Z.eqb_spec (h_id x) id') as [E|E]; simpl; rewrite IH.
  - destruct (Z.eqb_spec id' id); [done|]. simpl. destruct (Z.eqb_spec (h_id x) id); [congruence|done].
  - destruct (Z.eqb_spec id' id); simpl; [|done]. destruct (Z.eqb_spec (h_id x) id); [congruence|done].
Qed.

(** One step of the specification: what is held, and what it delivers. *)
Lemma step_publish v5 publish v id :
  qos2_packet v5 (InPublish publish) -> uniform v5 v ->
  let v' := receiver_step (GotPublish publish) v in
  uniform v5 v' /\ is_held id v' = (pub_msgId publish =? id) || is_held id v /\
  deliveries id v' = ((if v5 && (pub_msgId publish =? id)%Z && negb (is_held id v) then 1 else 0) + deliveries id v)%nat.
Proof.
  intros (Hk & Hq & Hv) Hu. destruct (pk_topic _ Hk) as [t Ht]. simpl.
  destruct (delivery_of publish) as [d|] eqn:Hd; [|unfold delivery_of in Hd; by rewrite Ht in Hd].
  assert (d_msgid d = pub_msgId publish) as Hid
    by (unfold delivery_of in Hd; rewrite Ht in Hd; simpl in Hd; by injection Hd as <-).
  rewrite Hq. simpl. unfold receive_qos2. rewrite Hv.
  set (h := mkHold _ _).
  assert (if v5 then h_pending h = None else exists d, h_pending h = Some d /\ d_msgid d = h_id h) as Hh
    by (unfold h; destruct v5; simpl; eauto).
  destruct (is_held (pub_msgId publish) v) eqn:Hheld.
  - split; [|split].
    + unfold uniform, set_in. simpl. apply Forall_map. eapply Forall_impl; [exact Hu|].
      intros x Hx. by destruct (_ =? _).
    + unfold is_held, set_in. simpl. change (pub_msgId publish) with (h_id h) at 1.
      rewrite is_held_replace. fold (is_held id v). simpl.
      destruct (Z.eqb_spec (pub_msgId publish) id) as [<-|]; [by rewrite Hheld | done].
    + destruct (Z.eqb_spec (pub_msgId publish) id) as [<-|]; [rewrite Hheld|]; by destruct v5.
  - assert (uniform v5 (set_in v (v_in v ++ [h]))) as Hu'
      by (apply Forall_app; split; [done | by apply Forall_singleton]).
    assert (is_held id (set_in v (v_in v ++ [h])) = (pub_msgId publish =? id) || is_held id v) as Hi'
      by (unfold is_held at 1; simpl; rewrite is_held_app; apply orb_comm).
    destruct v5; simpl; (split; [done|]; split; [done|]).
    + rewrite deliveries_deliver, Hid.
      destruct (Z.eqb_spec (pub_msgId publish) id) as [<-|]; [by rewrite Hheld | done].
    + done.
Qed.

Lemma step_pubrel v5 x v id :
  uniform v5 v ->
  let v' := receiver_step (GotPubrel x) v in
  uniform v5 v' /\ is_held id v' = negb (x =? id) && is_held id v /\
  deliveries id v' = ((if negb v5 && (x =? id)%Z && is_held id v then 1 else 0) + deliveries id v)%nat.
Proof.
  intros Hu. simpl. unfold release. destruct (List.find _ _) as [h|] eqn:Hf.
  - apply find_some in Hf as [Hin Hx]. apply Z.eqb_eq in Hx as <-.
    pose proof (proj1 (Forall_forall _ _) Hu) as Hu1. pose proof (Hu1 h (proj2 (list_elem_of_In _ _) Hin)) as Hp.
    assert (is_held (h_id h) v = true) as Hheld
      by (apply existsb_exists; exists h; split; [done | apply Z.eqb_refl]).
    assert (forall w, v_in w = v_in v -> uniform v5 (mkView (v_out w) (List.filter (fun y => negb (h_id y =? h_id h)) (v_in w))
      (v_delivered w) (v_sent w) (to_u32 (v_received w + 1)))) as Hu'.
    { intros w Hw. unfold uniform. simpl. rewrite Hw. apply Forall_forall. intros y Hy. apply Hu1.
      apply list_elem_of_In, List.filter_In in Hy as [Hy _]. by apply list_elem_of_In. }
    destruct v5.
    + rewrite Hp. split; [by apply Hu'|]. split; [|done]. unfold is_held at 1. simpl. apply is_held_drop.
    + destruct Hp as (d & -> & Hid). split; [by apply Hu'|]. split; [unfold is_held at 1; simpl; apply is_held_drop|].
      change (deliveries id (mkView _ _ (v_delivered (deliver d v)) _ _)) with (deliveries id (deliver d v)).
      rewrite deliveries_deliver, Hid. simpl.
      destruct (Z.eqb_spec (h_id h) id) as [<-|]; [by rewrite Hheld | done].
  - assert (is_held x v = false) as Hno.
    { unfold is_held. destruct (existsb _ _) eqn:E; [|done]. apply existsb_exists in E as (h & Hin & E).
      pose proof (find_none _ _ Hf h Hin). congruence. }
    split; [done|]. split.
    + destruct (Z.eqb_spec x id) as [<-|]; [by rewrite Hno | done].
    + destruct (Z.eqb_spec x id) as [<-|]; [rewrite Hno|]; by rewrite ?andb_false_r.
Qed.

Lemma exchanges_steps v5 l v id :
  Forall (qos2_packet v5) l -> uniform v5 v ->
  deliveries id (foldl (fun v e => receiver_step (event_of e) v) v l)
  = (exchanges v5 id (is_held id v) l + deliveries id v)%nat.
Proof.
  revert v. induction l as [|e l IH]; intros v Hl Hu; [by destruct v5|].
  apply Forall_cons in Hl as [He Hl]. simpl foldl. destruct e as [publish|a].
  - destruct (step_publish v5 publish v id He Hu) as (Hu' & Hh & Hd).
    rewrite IH by done. simpl event_of. rewrite Hh, Hd.
    destruct v5; simpl; destruct (pub_msgId publish =? id)%Z; simpl; destruct (is_held id v); simpl; lia.
  - destruct (step_pubrel v5 (default 0 (ack_msgId a)) v id Hu) as (Hu' & Hh & Hd).
    rewrite IH by done. simpl event_of. rewrite Hh, Hd.
    destruct v5; simpl; destruct (default 0 (ack_msgId a) =? id)%Z; simpl; destruct (is_held id v); simpl; lia.
Qed.

Section Trace.
Context {P N : Type} {PO : PersistenceOps P} {NT : Transport N} {NL : TransportLaws N}.
Implicit Types s : St P N.

Definition handle_in (e : packet_in) : SM (St P N) Z :=
  match e with
  | InPublish publish => MQTTProtocol_handlePublishes publish
  | InPubrel a => MQTTProtocol_handlePubrels a
  end.

(** The packets handled one after the other, and those of them that came while no write
    was pending; the others are refused. *)
Fixpoint handle_all (l : list packet_in) : SM (St P N) (list packet_in) :=
  match l with
  | [] => mret []
  | e :: l =>
      s ← sm_get;
      _ ← handle_in e;
      taken ← handle_all l;
      mret (if ready s then e :: taken else taken)
  end.

(** A packet taken is a step, and one that is refused is none. *)
Lemma wp_handle_in v5 e s :
  inv s -> qos2_packet v5 e ->
  wp (handle_in e) s (fun _ s' => inv s' /\ view_of s' = if ready s then receiver_step (event_of e) (view_of s) else view_of s).
Proof.
  intros Hi He. destruct e as [publish|a]; cbn [handle_in].
  - destruct He as (Hk & Hq & _). eapply wp_mono; [by apply wp_handlePublishes|]. intros rc s' [Hi' Hv]. rewrite Hq in Hv.
    cbn [Z.eqb orb] in Hv. split; [done|]. destruct (ready s); [done|apply Hv].
  - destruct He as [id Ha]. eapply wp_mono; [by eapply wp_handlePubrels|]. intros rc s' [Hi' Hv].
    rewrite Hv. cbn [event_of]. by rewrite Ha.
Qed.

(** A sequence of packets refines the sequence of steps. *)
Lemma wp_handle_all v5 l s :
  inv s -> Forall (qos2_packet v5) l ->
  wp (handle_all l) s (fun taken s' =>
    inv s' /\ Forall (qos2_packet v5) taken /\ view_of s' = foldl (fun v e => receiver_step (event_of e) v) (view_of s) taken).
Proof.
  intros Hi Hl. revert s Hi. induction Hl as [|e l He Hl IH]; intros s Hi; cbn [handle_all]; [by apply wp_ret|].
  apply wp_bind, wp_get, wp_bind. eapply wp_mono; [by apply (wp_handle_in v5)|]. intros _ s1 [Hi1 Hv1].
  apply wp_bind. eapply wp_mono; [by apply IH|]. intros taken s2 (Hi2 & Ht & Hv2). apply wp_ret. split; [done|].
  rewrite Hv2, Hv1. destruct (ready s); [split; [by constructor|done]|done].
Qed.

(** C13. Exactly once.  Whatever sequence of QoS 2 PUBLISH and PUBREL packets of one MQTT
    version a session receives, over any connection, and whatever messages of that
    version it holds at the start: the number of times a message with identifier [id]
    is delivered to the application is the number of exchanges of [id] in the packets
    taken: those opened by a first PUBLISH with MQTT 5, those closed by a PUBREL before.
    Repeated PUBLISH and PUBREL packets deliver nothing.  The packets taken are those
    that come while no write is pending on the connection; the others are refused. *)
Theorem qos2_exactly_once (v5 : bool) (l : list packet_in) (id : Z) (s : St P N) :
  inv s -> uniform v5 (view_of s) -> Forall (qos2_packet v5) l ->
  wp (handle_all l) s (fun taken s' =>
    inv s' /\ deliveries id (view_of s') = (exchanges v5 id (is_held id (view_of s)) taken + deliveries id (view_of s))%nat).
Proof.
  intros Hi Hu Hl. eapply wp_mono; [by apply (wp_handle_all v5)|]. intros taken s' (Hi' & Ht & ->). split; [done|].
  by apply exchanges_steps.
Qed.

End Trace.
(** *** A session that receives *)

Definition idle_state (v : Z) : St MemStore ScriptNet :=
  mkSt (mkClients [99; 49] None None 1 0 1 1 0 (mkNet 5 0 0 0) 0 60 20 None AList.empty AList.empty
          AList.empty 0 false v 0 10 0 0) (∅ : MemStore) (mkPubs ∅ AList.empty) []
    (mkScript [] [] [] 0 1000) 0 0.

Lemma idle_state_inv v : inv (idle_state v).
Proof. split; try done; [exact store_inv_empty | constructor | constructor]. Qed.

Definition publish_of (v qos id : Z) : Publish :=
  mkPublish (mk_header PUBLISH 0 qos 0) (Some [116]) 1 id (Some [104; 105]) 2 v MQTTProperties_initializer [0; 0; 0; 0].

Lemma publish_of_ok v qos id : publish_ok (publish_of v qos id).
Proof. split; simpl; [by eexists | done | intros _; apply props_inv_typed, props_inv_initializer]. Qed.

Lemma receiver_refines_witness :
  inv (idle_state 4) /\ publish_ok (publish_of 4 2 9) /\
  wp (MQTTProtocol_handlePublishes (publish_of 4 2 9)) (idle_state 4) (fun rc s' =>
    inv s' /\
    if (hdr_qos (pub_header (publish_of 4 2 9)) =? 0) || ready (idle_state 4)
    then view_of s' = receiver_step (GotPublish (publish_of 4 2 9)) (view_of (idle_state 4))
    else rc = SOCKET_ERROR /\ view_of s' = view_of (idle_state 4)) /\
  wp (MQTTProtocol_handlePubrels (ack_of PUBREL 9)) (idle_state 4) (fun rc s' =>
    inv s' /\ view_of s' = if ready (idle_state 4) then receiver_step (GotPubrel 9) (view_of (idle_state 4))
                           else view_of (idle_state 4)).
Proof.
  split; [apply idle_state_inv|]. split; [apply publish_of_ok|].
  exact (receiver_refines (publish_of 4 2 9) (ack_of PUBREL 9) 9 (idle_state 4) (idle_state_inv 4)
           (publish_of_ok 4 2 9) eq_refl).
Defined.

(** A repeated PUBLISH, a repeated PUBREL, and the identifier used again. *)
Definition receive_trace : list packet_in :=
  [InPublish (publish_of 5 2 9); InPublish (publish_of 5 2 9); InPublish (publish_of 5 2 4);
   InPubrel (ack_of PUBREL 9); InPubrel (ack_of PUBREL 9); InPublish (publish_of 5 2 9)].

Lemma receive_trace_ok : Forall (qos2_packet true) receive_trace.
Proof.
  repeat (apply Forall_cons; split); try apply Forall_nil_2; simpl; try (by eexists);
    (split; [apply publish_of_ok | done]).
Qed.

Lemma qos2_exactly_once_witness :
  (inv (idle_state 5) /\ uniform true (view_of (idle_state 5)) /\ Forall (qos2_packet true) receive_trace) /\
  wp (handle_all receive_trace) (idle_state 5) (fun taken s' =>
    inv s' /\ deliveries 9 (view_of s') =
      (exchanges true 9 (is_held 9 (view_of (idle_state 5))) taken + deliveries 9 (view_of (idle_state 5)))%nat).
Proof.
  assert (uniform true (view_of (idle_state 5))) as Hu by apply Forall_nil_2.
  split; [exact (conj (idle_state_inv 5) (conj Hu receive_trace_ok))|].
  exact (qos2_exactly_once true receive_trace 9 (idle_state 5) (idle_state_inv 5) Hu receive_trace_ok).
Defined.

(** All of it is taken, and the message is delivered twice. *)
Example receive_trace_taken :
  match handle_all receive_trace (idle_state 5) with
  | Ok (taken, s') => (List.length taken, exchanges true 9 false taken, deliveries 9 (view_of s'))
  | _ => (0, 0, 0)%nat
  end = (6, 2, 2)%nat.
Proof. vm_compute. reflexivity. Qed.

End Receiver.
