(* ===== verification/Session.v ===== *)
(** * Sessions ([src/src/MQTTClient.c], [MQTTProtocolClient.c])

    What a client does over time: publishing, the dispatch of received packets, keep
    alive and retries, the completion of pending writes, the delivery of queued
    messages and the end of a session; and the safety of any sequence of these.

    The loops over all clients of [MQTTProtocol_keepalive] and [MQTTProtocol_retry] are
    their bodies on the client of the state.  Where the code waits by calling
    [MQTTClient_yield], the operation here stops ([None]): what the wait lets happen is
    other operations. *)

From S2P Require Import Prelude.
From S2P Require Import Utf8.
From S2P Require Import Wire.
From S2P Require Import Properties.
From S2P Require Import LinkedList.
From S2P Require Import Clients.
From S2P Require Import Packet.
From S2P Require Import State.
From S2P Require Import Store.
From S2P Require Import Persistence.
From S2P Require Import PacketIO.
From S2P Require Import Protocol.
From S2P Require Import Invariant.
From S2P Require Import Exchange.
From S2P Require Import Receiver.
From Stdlib Require Import ZArith Lia List.
From stdpp Require Import base numbers list gmap.

Open Scope Z_scope.

Module Session.
Import Utf8 Wire Properties Clients Packet State Store Persistence PacketIO Protocol Invariant Exchange Receiver.

Definition MQTTCLIENT_SUCCESS : Z := 0.
Definition MQTTCLIENT_FAILURE : Z := -1.
Definition MQTTCLIENT_DISCONNECTED : Z := -3.
Definition MQTTCLIENT_MAX_MESSAGES_INFLIGHT : Z := -4.
Definition MQTTCLIENT_BAD_UTF8_STRING : Z := -5.
Definition MQTTCLIENT_TOPICNAME_TRUNCATED : Z := -7.
Definition NOT_IN_PROGRESS : Z := 0.
Definition DISCONNECTING : Z := -2.

Section Session.
Context {P N : Type} {PO : PersistenceOps P} {NT : Transport N}.
Abbreviation M := (SM (St P N)).

(** ** The end of a session *)

(** [MQTTClient_emptyMessageQueue] *)
Definition MQTTClient_emptyMessageQueue : M () :=
  modify_client (fun c => set_queue c AList.empty (qentry_seqno c)).

(** [MQTTClient_cleanSession] *)
Definition MQTTClient_cleanSession : M Z :=
  s ← sm_get;
  rc ← call_persistence (MQTTPersistence_clear (st_client s));
  l ← MQTTProtocol_emptyMessageList (inboundMsgs (st_client s));
  _ ← modify_client (fun c => set_inbound c l);
  l ← MQTTProtocol_emptyMessageList (outboundMsgs (st_client s));
  _ ← modify_client (fun c => set_outbound c l);
  _ ← MQTTClient_emptyMessageQueue;
  _ ← modify_client (fun c => set_msgID c 0);
  mret rc.

Definition close_socket : M () :=
  _ ← sm_modify (fun s => set_network s (net_close (the_socket s) (st_net s)));
  modify_nethandles (fun n => mkNet 0 (net_lastSent n) (net_lastReceived n) (net_lastPing n)).

(** [MQTTClient_closeSession] *)
Definition MQTTClient_closeSession (reason : Z) (props : option MQTTProperties) : M () :=
  _ ← modify_client (fun c => set_flags c (connected c) 0 0);
  s ← sm_get;
  _ ← (if 0 <? the_socket s then
         _ ← (if negb (connected (st_client s) =? 0) then MQTTPacket_send_disconnect reason props else mret 0);
         close_socket
       else mret ());
  _ ← modify_client (fun c => set_connect_state (set_flags c 0 (good c) (ping_outstanding c)) NOT_IN_PROGRESS);
  s ← sm_get;
  if (Clients.MQTTVersion (st_client s) <? MQTTVERSION_5) && negb (cleansession (st_client s) =? 0) then
    _ ← MQTTClient_cleanSession; mret ()
  else mret ().

(** [MQTTClient_disconnect_internal] with timeout 0, which waits for nothing, and
    [MQTTProtocol_closeSession].  The threads are not modelled. *)
Definition MQTTClient_disconnect_internal : M () :=
  _ ← modify_client (fun c => if negb (connected c =? 0) then set_connect_state c DISCONNECTING else c);
  MQTTClient_closeSession MQTTREASONCODE_SUCCESS None.
Definition MQTTProtocol_closeSession (sendwill : Z) : M () := MQTTClient_disconnect_internal.

(** ** Keep alive *)

Definition set_lastPing (now : Z) : M () :=
  _ ← modify_nethandles (fun n => mkNet (net_socket n) (net_lastSent n) (net_lastReceived n) now);
  modify_client (fun c => set_flags c (connected c) (good c) 1).

(** [MQTTProtocol_keepalive] *)
Definition MQTTProtocol_keepalive (now : Z) : M () :=
  s ← sm_get;
  let c := st_client s in
  let interval := keepAliveInterval c * 1000 in
  if (connected c =? 0) || (keepAliveInterval c =? 0) then mret ()
  else if ping_outstanding c =? 1 then
    if interval <=? MQTTTime_difftime now (net_lastPing (net c)) then MQTTProtocol_closeSession 1 else mret ()
  else if (interval <=? MQTTTime_difftime now (net_lastSent (net c)))
          || (interval <=? MQTTTime_difftime now (net_lastReceived (net c))) then
    ready ← call_net (noPendingWrites (the_socket s));
    if negb ready then mret ()
    else
      rc ← MQTTPacket_send_pingreq;
      if negb (rc =? TCPSOCKET_COMPLETE) then MQTTProtocol_closeSession 1 else set_lastPing now
  else mret ().

(** [MQTTProtocol_handlePingresps] *)
Definition MQTTProtocol_handlePingresps : M Z :=
  _ ← modify_client (fun c => set_flags c (connected c) (good c) 0);
  mret TCPSOCKET_COMPLETE.

(** ** Retries *)

Definition lose_client : M bool :=
  _ ← modify_client (fun c => set_flags c (connected c) 0 (ping_outstanding c));
  _ ← MQTTProtocol_closeSession 1;
  mret false.

(** The publication sent again, from the buffers of the stored one. *)
Definition retry_publish (m : Messages) (pb : Publications) : Publish :=
  mkPublish 0 (pbs_topic pb) (pbs_topiclen pb) (m_msgid m) (pbs_payload pb) (pbs_payloadlen pb)
    (m_MQTTVersion m) (m_properties m) (pbs_mask pb).

Definition due (now : Z) (retryInterval : Z) (regardless : bool) (m : Messages) : bool :=
  regardless || (Z.max retryInterval 10 * 1000 <? MQTTTime_difftime now (m_lastTouch m)).

Definition touch_message (i : nat) (m : Messages) : M bool :=
  now ← MQTTTime_now;
  _ ← write_outbound i (touched m now (m_nextMessageType m));
  mret true.

(** The retry of the message of index [i]; whether there is still a client. *)
Definition retry_message (now : Z) (regardless : bool) (i : nat) (m : Messages) : M bool :=
  s ← sm_get;
  if negb (due now (retryInterval (st_client s)) regardless m) then mret true
  else if (m_qos m =? 1) || ((m_qos m =? 2) && bool_decide (m_nextMessageType m = Some PUBREC)) then
    match m_publish m with
    | None => sm_oob
    | Some p =>
        pb ← deref_pub p;
        '(rc, sent) ← MQTTPacket_send_publish (retry_publish m pb) 1 (m_qos m) (m_retain m);
        _ ← share_buffers p sent;
        if rc =? SOCKET_ERROR then lose_client else touch_message i m
    end
  else if negb (m_qos m =? 0) && bool_decide (m_nextMessageType m = Some PUBCOMP) then
    rc ← MQTTPacket_send_pubrel (m_MQTTVersion m) (m_msgid m) 0;
    if negb (rc =? TCPSOCKET_COMPLETE) then lose_client else touch_message i m
  else mret true.

Fixpoint retries_loop (n : nat) (i : nat) (now : Z) (regardless : bool) : M () :=
  match n with
  | O => mret ()
  | S n =>
      s ← sm_get;
      match AList.items (outboundMsgs (st_client s)) !! i with
      | None => mret ()
      | Some m =>
          if (connected (st_client s) =? 0) || (good (st_client s) =? 0) then mret ()
          else
            ready ← call_net (noPendingWrites (the_socket s));
            if negb ready then mret ()
            else
              more ← retry_message now regardless i m;
              if more : bool then retries_loop n (S i) now regardless else mret ()
      end
  end.

(** [MQTTProtocol_retries] *)
Definition MQTTProtocol_retries (now : Z) (regardless : bool) : M () :=
  s ← sm_get;
  if negb regardless && (retryInterval (st_client s) <=? 0) then mret ()
  else retries_loop (List.length (AList.items (outboundMsgs (st_client s)))) 0 now regardless.

(** [MQTTProtocol_retry] *)
Definition MQTTProtocol_retry (now : Z) (doRetry regardless : bool) : M () :=
  s ← sm_get;
  if connected (st_client s) =? 0 then mret ()
  else if good (st_client s) =? 0 then MQTTProtocol_closeSession 1
  else
    ready ← call_net (noPendingWrites (the_socket s));
    if negb ready then mret ()
    else if doRetry then MQTTProtocol_retries now regardless else mret ().

(** [MQTTClient_retry]: [last] is its static variable, returned as it leaves it. *)
Definition MQTTClient_retry (retryLoopIntervalms last : Z) : M Z :=
  now ← MQTTTime_now;
  if retryLoopIntervalms <=? MQTTTime_difftime now last then
    last ← MQTTTime_now;
    _ ← MQTTProtocol_keepalive now;
    _ ← MQTTProtocol_retry now true false;
    mret last
  else
    _ ← MQTTProtocol_retry now false false;
    mret last.

(** ** Pending writes *)

Fixpoint pending_loop (l : list pending_write) : M (list pending_write) :=
  match l with
  | [] => mret []
  | w :: l =>
      ready ← call_net (noPendingWrites (pw_socket w));
      if ready : bool then
        _ ← MQTTProtocol_removePublication (Some (pw_p w));
        pending_loop l
      else
        rest ← pending_loop l;
        mret (w :: rest)
  end.

(** [MQTTProtocol_checkPendingWrites] *)
Definition MQTTProtocol_checkPendingWrites : M () :=
  s ← sm_get;
  l ← pending_loop (st_pending s);
  sm_modify (fun s => set_pending s l).

(** [MQTTClient_writeComplete] *)
Definition MQTTClient_writeComplete (socket rc : Z) : M () :=
  _ ← MQTTProtocol_checkPendingWrites;
  s ← sm_get;
  if the_socket s =? socket then touch_lastSent else mret ().

(** ** Messages for the application *)

(** [MQTTClient_deliverMessage]: the first entry of the queue, which must be there. *)
Definition MQTTClient_deliverMessage (rc : Z) : M (Z * qEntry) :=
  s ← sm_get;
  match AList.items (messageQueue (st_client s)) with
  | [] => sm_oob
  | qe :: _ =>
      let rc := if negb (Zlen (cstr (q_topicName qe)) =? q_topicLen qe) then MQTTCLIENT_TOPICNAME_TRUNCATED else rc in
      _ ← (if persistence (st_client s) then call_persistence (MQTTPersistence_unpersistQueueEntry (st_client s) qe)
           else mret 0);
      _ ← modify_client (fun c => set_queue c (AList.remove_at 0 (messageQueue c)) (qentry_seqno c));
      mret (rc, qe)
  end.

(** [MQTTClient_getPendingDeliveryTokens]: the identifiers, and the end mark. *)
Definition MQTTClient_getPendingDeliveryTokens (c : Clients) : option (list Z) :=
  match AList.items (outboundMsgs c) with
  | [] => None
  | l => Some (map m_msgid l ++ [-1])
  end.

(** The test of [MQTTClient_waitForCompletion]: what it returns, or [None] to wait. *)
Definition completion_test (c : Clients) (mdt : Z) : option Z :=
  if connected c =? 0 then Some MQTTCLIENT_DISCONNECTED
  else match AList.find (messageIDCompare mdt) (outboundMsgs c) with
       | (None, _) => Some MQTTCLIENT_SUCCESS
       | (Some _, _) => None
       end.

(** ** Packets received *)

(** The dispatch of [MQTTClient_cycle]: the code, and the packet it returns when none
    of the handlers has taken it. *)
Definition handle_packet (pack : packet) : M (Z * option packet) :=
  match pack with
  | Ppublish p => rc ← MQTTProtocol_handlePublishes p; mret (rc, None)
  | Pack a =>
      let ptype := hdr_type (ack_header a) in
      if ptype =? PUBACK then rc ← MQTTProtocol_handlePubacks a; mret (rc, None)
      else if ptype =? PUBCOMP then rc ← MQTTProtocol_handlePubcomps a; mret (rc, None)
      else if ptype =? PUBREC then rc ← MQTTProtocol_handlePubrecs a; mret (rc, None)
      else if ptype =? PUBREL then rc ← MQTTProtocol_handlePubrels a; mret (rc, None)
      else mret (TCPSOCKET_COMPLETE, Some pack)
  | Pheader h =>
      if hdr_type h =? PINGRESP then rc ← MQTTProtocol_handlePingresps; mret (rc, None)
      else mret (TCPSOCKET_COMPLETE, Some pack)
  | _ => mret (TCPSOCKET_COMPLETE, Some pack)
  end.

(** [MQTTClient_cycle] on a connected client whose socket is ready. *)
Definition MQTTClient_cycle (retryLoopIntervalms last : Z) : M (Z * option packet * Z) :=
  s ← sm_get;
  '(rc, pack) ← MQTTPacket_Factory (Clients.MQTTVersion (st_client s));
  let rc := if rc =? TCPSOCKET_INTERRUPTED then 0 else rc in
  '(rc, pack) ← match pack with Some p => handle_packet p | None => mret (rc, None) end;
  last ← MQTTClient_retry retryLoopIntervalms last;
  mret (rc, pack, last).

(** ** Publishing *)

Definition new_publish (c : Clients) (topicName payload : list Z) (msgid : Z)
    (properties : option MQTTProperties) : Publish :=
  mkPublish 0 (Some topicName) 0 msgid (if 0 <? Zlen payload then Some payload else None) (Zlen payload)
    (Clients.MQTTVersion c) (default MQTTProperties_initializer properties) no_mask.

(** [MQTTClient_publish5]: the code and the delivery token.  It waits while the
    messages in flight are at their maximum or a write is pending, and after a write
    that did not complete. *)
Definition MQTTClient_publish5 (topicName payload : list Z) (qos retained : Z)
    (properties : option MQTTProperties) : M (option (Z * option Z)) :=
  s ← sm_get;
  let c := st_client s in
  if connected c =? 0 then mret (Some (MQTTCLIENT_DISCONNECTED, None))
  else if negb (UTF8_validateString (Some topicName)) then mret (Some (MQTTCLIENT_BAD_UTF8_STRING, None))
  else if maxInflightMessages c <=? Zlen (AList.items (outboundMsgs c)) then mret None
  else
    ready ← call_net (noPendingWrites (the_socket s));
    s ← sm_get;
    if negb ready then mret None
    else
      match (if 0 <? qos then MQTTProtocol_assignMsgId (st_client s) else Some (0, st_client s)) with
      | None => mret None
      | Some (msgid, c) =>
          _ ← modify_client (fun _ => c);
          if (0 <? qos) && (msgid =? 0) then mret (Some (MQTTCLIENT_MAX_MESSAGES_INFLIGHT, None))
          else
            '(rc, msg, _) ← MQTTProtocol_startPublish (new_publish c topicName payload msgid properties) qos retained None;
            let token := m_msgid <$> msg in
            if rc =? TCPSOCKET_INTERRUPTED then mret None
            else if rc =? SOCKET_ERROR then
              _ ← MQTTClient_disconnect_internal;
              mret (Some (if 0 <? qos then MQTTCLIENT_SUCCESS else MQTTCLIENT_FAILURE, token))
            else mret (Some (rc, token))
      end.

(** The part of [MQTTClient_connectURIVersion] that deals with an accepted CONNACK. *)
Definition connack_accepted : M Z :=
  _ ← modify_client (fun c => set_connect_state (set_flags c 1 1 (ping_outstanding c)) NOT_IN_PROGRESS);
  s ← sm_get;
  rc ← (if negb (cleansession (st_client s) =? 0) || negb (cleanstart (st_client s) =? 0)
        then MQTTClient_cleanSession else mret MQTTCLIENT_SUCCESS);
  s ← sm_get;
  if 0 <? Zlen (AList.items (outboundMsgs (st_client s))) then
    _ ← modify_client (fun c => set_outbound c
          (AList.mk (map (fun m => touched m 0 (m_nextMessageType m)) (AList.items (outboundMsgs c)))
             (AList.current (outboundMsgs c))));
    _ ← MQTTProtocol_retry 0 true true;
    s ← sm_get;
    mret (if connected (st_client s) =? 1 then rc else MQTTCLIENT_DISCONNECTED)
  else mret rc.

End Session.
End Session.
