(* ===== verification/Safety.v ===== *)
(** * The safety of a session

    Every operation of [Session] returns and preserves the invariant, whatever the
    network, the persistence store and the server do: no sequence of operations uses
    a freed publication, a null topic or a byte outside an object. *)

From S2P Require Import Prelude.
From S2P Require Import Utf8.
From S2P Require Import Wire.
From S2P Require Import Properties.
From S2P Require Import LinkedList.
From S2P Require Import Clients.
From S2P Require Import Packet.
From S2P Require Import State.
From S2P Require Import Store.
From S2P Require Import Persistence.
From S2P Require Import PacketIO.
From S2P Require Import Protocol.
From S2P Require Import Invariant.
From S2P Require Import Exchange.
From S2P Require Import Receiver.
From S2P Require Import Session.
From Stdlib Require Import ZArith Lia List.
From stdpp Require Import base numbers list gmap.

Open Scope Z_scope.

Module Safety.
Import Utf8 Wire Properties Clients Packet State Store Persistence PacketIO Protocol Invariant Exchange Receiver Session.

Section Safety.
Context {P N : Type} {PO : PersistenceOps P} {NT : Transport N} {NL : TransportLaws N}.
Implicit Types s : St P N.

(** An operation that always returns and preserves the invariant. *)
Definition safe {A} (op : SM (St P N) A) : Prop :=
  forall s, inv s -> wp op s (fun _ s' => inv s').

Lemma safe_ret {A} (a : A) : safe (mret a).
Proof. intros s Hi. by apply wp_ret. Qed.

Lemma safe_bind {A B} (m : SM (St P N) A) (f : A -> SM (St P N) B) :
  safe m -> (forall a, safe (f a)) -> safe (m ≫= f).
Proof. intros Hm Hf s Hi. apply wp_bind. eapply wp_mono; [exact (Hm s Hi)|]. intros a s' Hi'. exact (Hf a s' Hi'). Qed.

Lemma safe_get {B} (f : St P N -> SM (St P N) B) :
  (forall s, inv s -> wp (f s) s (fun _ s' => inv s')) -> safe (s ← sm_get; f s).
Proof. intros Hf s Hi. apply wp_bind, wp_get. by apply Hf. Qed.

Lemma safe_quiet {A} (m : SM (St P N) A) : (forall s, wp m s (fun _ s' => quiet s s')) -> safe m.
Proof. intros Hm s Hi. eapply wp_mono; [apply Hm|]. intros a s1 Hq. exact (quiet_inv _ _ Hq Hi). Qed.

Lemma safe_frame {A} (m : SM (St P N) A) : (forall s, wp m s (fun _ s' => frame s s')) -> safe m.
Proof. intros Hm. apply safe_quiet. intros s. eapply wp_mono; [apply Hm|]. intros a s'. apply frame_quiet. Qed.

(** A change of fields of the client other than its message lists. *)
Lemma safe_client (f : Clients -> Clients) :
  (forall c, AList.items (inboundMsgs (f c)) = AList.items (inboundMsgs c) /\
             AList.items (outboundMsgs (f c)) = AList.items (outboundMsgs c) /\ msgID (f c) = msgID c) ->
  safe (modify_client f).
Proof. intros Hf s Hi. apply wp_modify. destruct (Hf (st_client s)) as (? & ? & ?). by eapply inv_core; [..|exact Hi]. Qed.

Lemma safe_ready sk : safe (call_net (noPendingWrites sk)).
Proof. apply safe_frame. intros s. eapply wp_mono; [apply wp_ready|]. by intros b s' [_ Hf]. Qed.

Lemma safe_now : safe MQTTTime_now.
Proof. apply safe_frame, wp_now. Qed.

Create HintDb safety.
#[local] Hint Resolve safe_ret safe_bind safe_ready safe_now : safety.

(** ** The end of a session *)

(** Without messages, only the pending writes hold publications. *)
Lemma inv_empty s' :
  outs s' = [] -> ins s' = [] -> store_inv (st_pubs s') (map pw_p (st_pending s')) ->
  0 <= last_id s' <= MAX_MSG_ID -> inv s'.
Proof.
  intros Ho Hi Hs Hl. split; unfold refs; rewrite ?Ho, ?Hi; try done; constructor.
Qed.

Lemma wp_cleanSession s :
  inv s -> wp MQTTClient_cleanSession s (fun _ s' =>
    inv s' /\ (outs s' = [] /\ ins s' = [] /\ queue s' = []) /\
    msgID (st_client s') = 0 /\ connected (st_client s') = connected (st_client s) /\
    good (st_client s') = good (st_client s) /\ connect_state (st_client s') = connect_state (st_client s) /\
    the_socket s' = the_socket s).
Proof.
  intros Hi. unfold MQTTClient_cleanSession. apply wp_bind, wp_get, wp_bind, wp_call_persistence.
  intros rc p _. unfold MQTTProtocol_emptyMessageList.
  pose proof (inv_store _ Hi) as Hst. unfold refs in Hst.
  destruct (removePublications_spec (ins s) (set_phandle s p) (omap m_publish (outs s) ++ map pw_p (st_pending s)))
    as (ps1 & Hr1 & Hs1).
  { eapply store_inv_perm; [|exact Hst]. solve_Permutation. }
  apply wp_bind, wp_bind. eapply wp_run; [exact Hr1|]. apply wp_ret, wp_bind, wp_modify.
  set (s2 := set_client _ _).
  destruct (removePublications_spec (outs s) s2 (map pw_p (st_pending s))) as (ps2 & Hr2 & Hs2); [exact Hs1|].
  apply wp_bind, wp_bind. eapply wp_run; [exact Hr2|]. apply wp_ret, wp_bind, wp_modify, wp_bind, wp_modify.
  apply wp_bind, wp_modify, wp_ret. split; [|done]. by apply inv_empty.
Qed.

Lemma disconnect_packet_total v reason props :
  props_arg_ok props -> exists b, disconnect_packet v reason props = Ok (header_of DISCONNECT, b).
Proof.
  intros Hp. unfold disconnect_packet. destruct (_ && _); [|by eexists].
  destruct props as [props|].
  - destruct (props_arg_write _ Hp) as (out & rc & Hw & Hl & _). pose proof (props_arg_len _ Hp).
    rewrite Hw. cbn [mbind res_bind]. rewrite alloc_write_ok; [by eexists| |lia].
    rewrite Zlen_app, Hl. done.
  - cbn [mbind res_bind]. rewrite alloc_write_ok; [by eexists|done|lia].
Qed.

Lemma wp_send_disconnect reason props s :
  props_arg_ok props -> wp (MQTTPacket_send_disconnect reason props) s (fun _ s' => frame s s').
Proof.
  intros Hp. unfold MQTTPacket_send_disconnect. apply wp_bind, wp_get.
  destruct (disconnect_packet_total (Clients.MQTTVersion (st_client s)) reason props Hp) as [b Hb].
  apply wp_bind. eapply wp_lift; [exact Hb|]. apply wp_send. by left.
Qed.

(** A session that ends: disconnected, and without messages when it was clean before
    MQTT 5. *)
Definition ended s s' : Prop :=
  inv s' /\ connected (st_client s') = 0 /\ good (st_client s') = 0 /\
  connect_state (st_client s') = NOT_IN_PROGRESS /\ the_socket s' <= 0 /\
  (if (Clients.MQTTVersion (st_client s) <? MQTTVERSION_5) && negb (cleansession (st_client s) =? 0)
   then outs s' = [] /\ ins s' = [] /\ queue s' = []
   else outs s' = outs s /\ ins s' = ins s /\ queue s' = queue s).

Lemma wp_close_socket s :
  wp close_socket s (fun _ s' => quiet s s' /\ the_socket s' = 0 /\
    Clients.MQTTVersion (st_client s') = Clients.MQTTVersion (st_client s) /\
    cleansession (st_client s') = cleansession (st_client s) /\ good (st_client s') = good (st_client s)).
Proof. apply wp_bind, wp_modify, wp_modify. done. Qed.

Lemma wp_closeSession reason props s :
  inv s -> props_arg_ok props -> wp (MQTTClient_closeSession reason props) s (fun _ s' => ended s s').
Proof.
  intros Hi Hp. unfold MQTTClient_closeSession. apply wp_bind, wp_modify, wp_bind, wp_get.
  set (s1 := set_client _ _).
  apply wp_bind. apply wp_mono with (Q := fun _ s2 => quiet s s2 /\ the_socket s2 <= 0 /\
    Clients.MQTTVersion (st_client s2) = Clients.MQTTVersion (st_client s) /\
    cleansession (st_client s2) = cleansession (st_client s) /\ good (st_client s2) = 0).
  - destruct (Z.ltb_spec 0 (the_socket s1)) as [Hs|Hs]; [|apply wp_ret; split; [by split | done]].
    apply wp_bind. apply wp_mono with (Q := fun _ s2 => frame s1 s2).
    + destruct (negb _); [by apply wp_send_disconnect | apply wp_ret, frame_refl].
    + intros _ s2 Hf. eapply wp_mono; [apply wp_close_socket|]. intros _ s3 (Hq & Hsk & Hv & Hc & Hg).
      assert (quiet s s3) as Hq3 by (transitivity s2; [|done]; transitivity s1; [by split | by apply frame_quiet]).
      destruct (fr_client _ _ Hf) as (n & Hcl & _). rewrite Hcl in Hv, Hc, Hg.
      split; [done|]. split; [lia|]. done.
  - intros _ s2 (Hq & Hsk & Hv & Hc & Hg). apply wp_bind, wp_modify, wp_bind, wp_get. set (s3 := set_client _ _).
    assert (quiet s s3) as Hq3 by (destruct Hq; by split).
    assert (inv s3) as Hi3 by (by eapply quiet_inv). unfold ended.
    change (Clients.MQTTVersion (st_client s3)) with (Clients.MQTTVersion (st_client s2)).
    change (cleansession (st_client s3)) with (cleansession (st_client s2)). rewrite Hv, Hc.
    destruct (_ && _).
    + apply wp_bind. eapply wp_mono; [by apply wp_cleanSession|].
      intros rc s4 (Hi4 & He & _ & H1 & H2 & H3 & H4). apply wp_ret.
      rewrite H1, H2, H3, H4. done.
    + apply wp_ret. split; [done|]. destruct Hq3. done.
Qed.

Lemma wp_disconnect_internal s :
  inv s -> wp MQTTClient_disconnect_internal s (fun _ s' => ended s s').
Proof.
  intros Hi. unfold MQTTClient_disconnect_internal. apply wp_bind, wp_modify.
  destruct (connected (st_client s) =? 0); simpl negb; cbv iota.
  - replace (set_client s (st_client s)) with s by (by destruct s). by apply wp_closeSession.
  - eapply wp_mono; [apply wp_closeSession; [by eapply inv_core; [..|exact Hi] | done]|].
    intros [] s' He. exact He.
Qed.

Lemma safe_closeSession sendwill : safe (MQTTProtocol_closeSession sendwill : SM (St P N) ()).
Proof. intros s Hi. eapply wp_mono; [by apply wp_disconnect_internal|]. by intros _ s' [Hi' _]. Qed.

(** ** Keep alive *)

Lemma safe_keepalive now : safe (MQTTProtocol_keepalive now : SM (St P N) ()).
Proof.
  intros s Hi. unfold MQTTProtocol_keepalive. apply wp_bind, wp_get. cbv zeta.
  destruct (_ || _); [by apply wp_ret|]. destruct (ping_outstanding _ =? 1).
  { destruct (_ <=? _); [by apply safe_closeSession | by apply wp_ret]. }
  destruct (_ || _); [|by apply wp_ret]. revert s Hi. fold (the_socket (P := P) (N := N)).
  intros s Hi. apply wp_bind. eapply wp_mono; [by apply safe_ready|]. intros b s1 Hi1.
  destruct (negb b); [by apply wp_ret|]. apply wp_bind.
  eapply wp_mono; [apply (wp_send _ _ MQTTVERSION_3_1_1); by left|]. intros rc s2 Hf.
  assert (inv s2) as Hi2 by exact (frame_inv _ _ Hf Hi1).
  destruct (negb _); [by apply safe_closeSession|]. revert s2 Hf Hi2. intros s2 _. revert s2.
  apply (safe_bind (modify_nethandles _) (fun _ => modify_client _)); [|intros _]; by apply safe_client.
Qed.

Lemma safe_pingresps : safe (MQTTProtocol_handlePingresps : SM (St P N) Z).
Proof. apply safe_bind; [by apply safe_client | intros; apply safe_ret]. Qed.

(** ** The buffers a publication shares with the packet *)

Lemma refs_live s p : inv s -> p ∈ omap m_publish (outs s) -> live (heap s) p.
Proof.
  intros Hi Hp. apply list_elem_of_omap in Hp as (m & Hm & Hp).
  destruct (proj1 (Forall_forall _ _) (inv_out _ Hi) m Hm) as (_ & _ & (q & Hq & Hl) & _).
  by replace p with q by congruence.
Qed.

Lemma inv_write_pub s p pb pb' s' :
  inv s -> heap s !! p = Some pb -> pbs_refcount pb' = pbs_refcount pb -> is_Some (pbs_topic pb') ->
  Zlen (default [] (pbs_payload pb')) = pbs_payloadlen pb' ->
  outs s' = outs s -> ins s' = ins s -> st_pending s' = st_pending s -> last_id s' = last_id s ->
  st_pubs s' = mkPubs (<[p := pb']> (heap s)) (ps_list (st_pubs s)) -> inv s'.
Proof.
  intros [Hst Ho Hi Hoi Hii Hmi] Hp Hrc [t Ht] Hlen Hos His Hps Hms Hpubs.
  assert (heap s' = <[p := pb']> (heap s)) as Hh by (unfold heap; by rewrite Hpubs).
  split; rewrite ?Hos, ?His, ?Hh, ?Hms; try done.
  - replace (refs s') with (refs s) by (unfold refs; by rewrite Hos, His, Hps). rewrite Hpubs.
    destruct Hst as [Hn Hl Hd H1]. split; simpl; try done.
    + intros q. rewrite <- Hd. unfold heap in *. destruct (decide (p = q)) as [<-|Hne].
      * rewrite lookup_insert_eq. split; [by eexists | by intros _; eexists].
      * by rewrite lookup_insert_ne.
    + intros q qb. rewrite lookup_insert_Some. intros [[<- <-]|[_ Hq]]; [rewrite Hrc; by apply (H1 p) | by apply (H1 q)].
  - eapply out_ok_mono; [|exact Ho]. intros q _. apply live_insert. eauto.
  - eapply in_ok_mono; [|exact Hi]. intros q _. apply live_insert. eauto.
Qed.

Lemma wp_share_buffers p sent pb s :
  inv s -> heap s !! p = Some pb -> is_Some (pub_topic sent) ->
  Zlen (default [] (pub_payload sent)) = pbs_payloadlen pb ->
  wp (share_buffers p sent) s (fun _ s' => inv s' /\ outs s' = outs s /\ ins s' = ins s /\
    queue s' = queue s /\ st_msgs_sent s' = st_msgs_sent s /\ st_msgs_received s' = st_msgs_received s /\
    exists pb', heap s' = <[p := pb']> (heap s)).
Proof.
  intros Hi Hp Ht Hl. unfold share_buffers. apply wp_bind. eapply wp_run; [by apply deref_pub_run|].
  apply wp_modify. split; [|repeat (split; [done|]); by eexists].
  by apply (inv_write_pub s p pb (mkPublications (pub_topic sent) (pbs_topiclen pb) (pub_payload sent)
    (pbs_payloadlen pb) (pbs_refcount pb) (pub_mask sent))).
Qed.

(** A message changed where it is, in what the invariant does not mention. *)
Lemma wp_write_same i m m' s :
  inv s -> outs s !! i = Some m -> m_publish m' = m_publish m -> m_msgid m' = m_msgid m ->
  (forall h, out_ok h m -> out_ok h m') ->
  wp (write_outbound i m') s (fun _ s' => inv s').
Proof.
  intros [Hst Ho Hi Hoi Hii Hmi] Hm Hp Hid Hok. apply wp_modify. set (s' := set_client _ _).
  assert (outs s' = <[i := m']> (outs s)) as Hos by done.
  assert (omap m_publish (outs s') ≡ₚ omap m_publish (outs s)) as Hom.
  { rewrite Hos. assert (<[i := m']> (outs s) !! i = Some m') as Hm'
      by (apply list_lookup_insert_eq; by eapply lookup_lt_Some).
    rewrite (omap_delete _ _ _ Hm'), (omap_delete _ _ _ Hm), delete_insert_list. by rewrite Hp. }
  split; try done.
  - eapply store_inv_perm; [|exact Hst]. unfold refs. by rewrite Hom.
  - rewrite Hos. apply Forall_insert; [done|]. apply Hok. by eapply Forall_lookup_1 in Hm.
  - rewrite Hos, list_map_insert, Hid, list_insert_id; [done|]. exact (map_lookup m_msgid _ _ _ Hm).
Qed.

Lemma out_ok_touched h m now : out_ok h m -> out_ok h (touched m now (m_nextMessageType m)).
Proof. done. Qed.

Lemma wp_touch_message i m s :
  inv s -> outs s !! i = Some m -> wp (touch_message i m) s (fun _ s' => inv s').
Proof.
  intros Hi Hm. unfold touch_message. apply wp_bind. eapply wp_mono; [apply wp_now|]. intros now s1 Hf.
  destruct (frame_lists _ _ Hf) as (Ho & _). apply wp_bind.
  eapply wp_mono; [eapply wp_write_same; [exact (frame_inv _ _ Hf Hi) | by rewrite Ho | done | done | intros h; apply out_ok_touched]|].
  intros [] s2 Hi2. by apply wp_ret.
Qed.

Lemma safe_lose_client : safe (lose_client : SM (St P N) bool).
Proof.
  apply safe_bind; [by apply safe_client|]. intros _. apply safe_bind; [apply safe_closeSession|].
  intros _. apply safe_ret.
Qed.

(** ** Retries *)

(** A stored publication of a message can be sent. *)
Lemma stored_sendable s i m p :
  inv s -> outs s !! i = Some m -> m_publish m = Some p ->
  exists pb, heap s !! p = Some pb /\ sendable (retry_publish m pb) /\
    forall sent bufs mask, sent = masked_publish (retry_publish m pb) bufs mask -> sendable sent ->
      Zlen (default [] (pub_payload sent)) = pbs_payloadlen pb.
Proof.
  intros Hi Hm Hp. destruct (Forall_lookup_1 _ _ _ _ (inv_out _ Hi) Hm) as (_ & _ & (q & Hq & (pb & t & Hl & Ht & Hlen)) & Hprops).
  replace q with p in Hl by congruence. exists pb. split; [done|]. split; [split; simpl; [by eexists | done | done]|].
  intros sent bufs mask -> [_ Hlen' _]. by rewrite Hlen'.
Qed.

Lemma wp_resend i m p s (k : Z -> SM (St P N) bool) :
  inv s -> outs s !! i = Some m -> m_publish m = Some p ->
  (forall rc s', inv s' -> outs s' !! i = Some m -> wp (k rc) s' (fun _ s'' => inv s'')) ->
  wp (pb ← deref_pub p;
      '(rc, sent) ← MQTTPacket_send_publish (retry_publish m pb) 1 (m_qos m) (m_retain m);
      _ ← share_buffers p sent; k rc) s (fun _ s' => inv s').
Proof.
  intros Hi Hm Hp Hk. destruct (stored_sendable s i m p Hi Hm Hp) as (pb & Hpb & Hs & Hlen).
  apply wp_bind. eapply wp_run; [by apply deref_pub_run|]. apply wp_bind.
  assert (0 <= m_qos m < 4) as Hq
    by (destruct (Forall_lookup_1 _ _ _ _ (inv_out _ Hi) Hm) as (_ & [H|[H _]] & _); lia).
  eapply wp_mono; [by apply wp_send_publish|]. intros [rc sent] s1 (Hf & Hs1 & mask & bufs & He). simpl in *.
  destruct (frame_lists _ _ Hf) as (Ho & _ & _ & Hh & _).
  apply wp_bind. eapply wp_mono.
  - apply (wp_share_buffers p sent pb); [exact (frame_inv _ _ Hf Hi) | by rewrite Hh | apply Hs1 | by eapply Hlen].
  - intros [] s2 (Hi2 & Ho2 & _). apply Hk; [done|]. by rewrite Ho2, Ho.
Qed.

Lemma wp_retry_message now regardless i m s :
  inv s -> outs s !! i = Some m -> wp (retry_message now regardless i m) s (fun _ s' => inv s').
Proof.
  intros Hi Hm. unfold retry_message. apply wp_bind, wp_get.
  destruct (negb (due _ _ _ _)); [by apply wp_ret|].
  destruct (Forall_lookup_1 _ _ _ _ (inv_out _ Hi) Hm) as (_ & _ & (p & Hp & _) & _).
  destruct (_ || _); [rewrite Hp; apply (wp_resend i m p s (fun rc =>
    if rc =? SOCKET_ERROR then lose_client else touch_message i m)); try done|].
  - intros rc s1 Hi1 Hm1. destruct (rc =? SOCKET_ERROR); [by apply safe_lose_client | by apply wp_touch_message].
  - destruct (_ && _); [|by apply wp_ret]. apply wp_bind. eapply wp_mono; [apply wp_send_ack|].
    intros rc s1 Hf. pose proof (frame_inv _ _ Hf Hi) as Hi1. destruct (negb _); [by apply safe_lose_client|].
    apply wp_touch_message; [done|]. destruct (frame_lists _ _ Hf) as (Ho & _). by rewrite Ho.
Qed.

Lemma safe_retries_loop n i now regardless : safe (retries_loop n i now regardless : SM (St P N) ()).
Proof.
  revert i. induction n as [|n IH]; intros i s Hi; simpl; [by apply wp_ret|].
  apply wp_bind, wp_get. destruct (AList.items _ !! i) as [m|] eqn:Hm; [|by apply wp_ret].
  destruct (_ || _); [by apply wp_ret|]. apply wp_bind. eapply wp_mono; [apply wp_ready|].
  intros b s1 [_ Hf]. pose proof (frame_inv _ _ Hf Hi) as Hi1. destruct (negb b); [by apply wp_ret|].
  apply wp_bind. eapply wp_mono; [apply wp_retry_message; [done|]|].
  { destruct (frame_lists _ _ Hf) as (Ho & _). by rewrite Ho. }
  intros [] s2 Hi2; [by apply IH | by apply wp_ret].
Qed.

Lemma safe_retry now doRetry regardless : safe (MQTTProtocol_retry now doRetry regardless : SM (St P N) ()).
Proof.
  intros s Hi. unfold MQTTProtocol_retry. apply wp_bind, wp_get.
  destruct (_ =? 0); [by apply wp_ret|]. destruct (_ =? 0); [by apply safe_closeSession|].
  apply wp_bind. eapply wp_mono; [by apply safe_ready|]. intros b s1 Hi1.
  destruct (negb b); [by apply wp_ret|]. destruct doRetry; [|by apply wp_ret].
  unfold MQTTProtocol_retries. apply wp_bind, wp_get. destruct (_ && _); [by apply wp_ret|]. by apply safe_retries_loop.
Qed.

Lemma safe_client_retry interval last : safe (MQTTClient_retry interval last : SM (St P N) Z).
Proof.
  apply safe_bind; [apply safe_now|]. intros now. destruct (_ <=? _).
  - apply safe_bind; [apply safe_now|]. intros l. apply safe_bind; [apply safe_keepalive|]. intros _.
    apply safe_bind; [apply safe_retry | intros _; apply safe_ret].
  - apply safe_bind; [apply safe_retry | intros _; apply safe_ret].
Qed.

(** ** Pending writes *)

Lemma wp_pending_loop l refs s :
  store_inv (st_pubs s) (map pw_p l ++ refs) ->
  wp (pending_loop l) s (fun l' s' => store_inv (st_pubs s') (map pw_p l' ++ refs) /\
    (forall q, q ∈ refs -> heap s' !! q = heap s !! q) /\ outs s' = outs s /\ ins s' = ins s /\
    last_id s' = last_id s).
Proof.
  revert refs s. induction l as [|w l IH]; intros refs s Hst; simpl; [by apply wp_ret|].
  apply wp_bind. eapply wp_mono; [apply wp_ready|]. intros b s1 [_ Hf].
  destruct (frame_lists _ _ Hf) as (Ho & Hin & _ & Hh & _). rewrite <- (fr_pubs _ _ Hf) in Hst.
  rewrite <- Ho, <- Hin, <- Hh, <- (qt_msgid _ _ (frame_quiet _ _ Hf)). destruct b.
  - apply wp_bind. apply (wp_drop (Some (pw_p w)) s1 _ _ Hst). intros ps' Hst' Hq.
    eapply wp_mono; [apply (IH refs); exact Hst'|]. intros l' s2 (Hst2 & Hq2 & Ho2 & Hi2).
    split; [done|]. split; [|done]. intros q Hin'. rewrite Hq2 by done. apply Hq. rewrite elem_of_app. by right.
  - apply wp_bind. eapply wp_mono.
    { apply (IH (pw_p w :: refs)). eapply store_inv_perm; [|exact Hst]. simpl. solve_Permutation. }
    intros l' s2 (Hst2 & Hq2 & Ho2 & Hi2). apply wp_ret. split; [|split; [|done]].
    + eapply store_inv_perm; [|exact Hst2]. simpl. solve_Permutation.
    + intros q Hin'. apply Hq2. by right.
Qed.

Lemma safe_checkPendingWrites : safe (MQTTProtocol_checkPendingWrites : SM (St P N) ()).
Proof.
  intros s Hi. unfold MQTTProtocol_checkPendingWrites. apply wp_bind, wp_get, wp_bind.
  eapply wp_mono.
  { apply (wp_pending_loop (st_pending s) (omap m_publish (outs s) ++ omap m_publish (ins s))).
    eapply store_inv_perm; [|apply Hi]. unfold refs. solve_Permutation. }
  intros l s1 (Hst & Hq & Ho & Hin & Hmi). apply wp_modify. destruct Hi as [_ H2 H3 H4 H5 H6].
  split; unfold outs, ins, last_id in *; simpl; rewrite ?Ho, ?Hin, ?Hmi; try done.
  - eapply store_inv_perm; [|exact Hst]. unfold refs, outs, ins. simpl. rewrite Ho, Hin. solve_Permutation.
  - eapply out_ok_mono; [|exact H2]. intros q Hel. apply live_eq. apply Hq. rewrite elem_of_app. by left.
  - eapply in_ok_mono; [|exact H3]. intros q Hel. apply live_eq. apply Hq. rewrite elem_of_app. by right.
Qed.

Lemma safe_touch_lastSent : safe (touch_lastSent : SM (St P N) ()).
Proof. apply safe_bind; [apply safe_now|]. intros now. by apply safe_client. Qed.

Lemma safe_writeComplete socket rc : safe (MQTTClient_writeComplete socket rc : SM (St P N) ()).
Proof.
  apply safe_bind; [apply safe_checkPendingWrites|]. intros _ s Hi. apply wp_bind, wp_get.
  destruct (_ =? _); [by apply safe_touch_lastSent | by apply wp_ret].
Qed.

(** ** Publishing *)

(** A message appended to those sent. *)
Lemma appended_outbound s s' p m :
  inv s -> p ∉ refs s -> m_publish m = Some p ->
  outs s' = outs s ++ [m] -> ins s' = ins s -> st_pending s' = st_pending s -> last_id s' = last_id s ->
  store_inv (st_pubs s') (p :: refs s) -> (forall q, q <> p -> heap s' !! q = heap s !! q) ->
  out_ok (heap s') m -> m_msgid m ∉ map m_msgid (outs s) -> inv s'.
Proof.
  intros [Hst Ho Hi Hoi Hii Hmi] Hp Hm Hos His Hps Hms Hst' Hh Hok Hid.
  assert (forall q, q ∈ refs s -> heap s' !! q = heap s !! q) as Hh' by (intros q Hq; apply Hh; by intros ->).
  split; rewrite ?Hos, ?His, ?Hms; try done.
  - eapply store_inv_perm; [|exact Hst']. unfold refs. rewrite Hos, His, Hps, omap_app. simpl. rewrite Hm.
    solve_Permutation.
  - apply Forall_app. split; [|by apply Forall_singleton].
    eapply out_ok_mono; [|exact Ho]. intros q Hq. apply live_eq, Hh'. unfold refs. rewrite !elem_of_app. tauto.
  - eapply in_ok_mono; [|exact Hi]. intros q Hq. apply live_eq, Hh'. unfold refs. rewrite !elem_of_app. tauto.
  - rewrite map_app. apply NoDup_app. split; [done|]. split; [|apply NoDup_singleton].
    intros id Hin Hin'. apply list_elem_of_singleton in Hin' as ->. done.
Qed.

Definition first_stage (qos : Z) : stage := if qos =? 1 then AwaitPuback else AwaitPubrec.

(** What [createMessage] and the append give: a message waiting for its first
    acknowledgement, under a new identifier. *)
Record new_message (publish : Publish) (qos : Z) s (m : Messages) (p : positive) (publish' : Publish)
    (pb : Publications) s' : Prop := {
  nm_inv : inv s';
  nm_outs : outs s' = outs s ++ [m];
  nm_ins : ins s' = ins s;
  nm_queue : queue s' = queue s;
  nm_sent : st_msgs_sent s' = st_msgs_sent s;
  nm_received : st_msgs_received s' = st_msgs_received s;
  nm_msgid : m_msgid m = pub_msgId publish;
  nm_stage : stage_of m = first_stage qos;
  nm_publish : m_publish m = Some p;
  nm_fresh : p ∉ refs s;
  nm_heap : forall q, q <> p -> heap s' !! q = heap s !! q;
  nm_stored : heap s' !! p = Some pb;
  nm_sendable : sendable (mkPublish (pub_header publish') (pbs_topic pb) (pub_topiclen publish')
                  (pub_msgId publish') (pbs_payload pb) (pub_payloadlen publish') (m_MQTTVersion m)
                  (m_properties m) (pub_mask publish'));
  nm_len : pub_payloadlen publish' = pbs_payloadlen pb
}.

Lemma wp_new_message {A} publish qos retained s (k : Messages -> Publish -> SM (St P N) A) (Q : A -> St P N -> Prop) :
  inv s -> sendable publish -> qos = 1 \/ qos = 2 -> 1 <= pub_msgId publish <= MAX_MSG_ID ->
  pub_msgId publish ∉ map m_msgid (outs s) ->
  (forall m p publish' pb s', new_message publish qos s m p publish' pb s' -> wp (k m publish') s' Q) ->
  wp ('(m, publish) ← MQTTProtocol_createMessage publish None qos retained 0;
      _ ← modify_client (fun c => set_outbound c (AList.append m (outboundMsgs c)));
      k m publish) s Q.
Proof.
  intros Hi [[topic Ht] Hl Hp] Hq Hid Hfresh Hk.
  assert (exists props, (if MQTTVERSION_5 <=? pub_MQTTVersion publish
    then MQTTProperties_copy (pub_properties publish) else Ok MQTTProperties_initializer) = Ok props /\ props_inv props)
    as (props & Hc & Hpi).
  { destruct (Z.leb_spec MQTTVERSION_5 (pub_MQTTVersion publish)) as [Hv|Hv].
    - destruct (MQTTProperties_copy_ok _ (props_inv_typed _ (Hp Hv))) as (props & Hc & _ & Hi'). by exists props.
    - exists MQTTProperties_initializer. split; [done | apply props_inv_initializer]. }
  destruct (time_now (st_net s)) as [t n'] eqn:Htn.
  destruct (createMessage_spec publish topic qos retained 0 s (refs s) props t n' Ht (inv_store _ Hi) Hc Htn)
    as (p & publish' & ps' & Hr & Hfr & Hst & Hh & Hlen).
  set (pb := mkPublications _ _ _ _ _ _) in Hh.
  apply wp_bind. eapply wp_run; [exact Hr|]. cbv beta iota. apply wp_bind, wp_modify.
  set (m := mkMessages _ _ _ _ _ _ _ _). set (s' := set_client _ _).
  assert (heap s' = <[p := pb]> (heap s)) as Hhs by exact Hh.
  assert (forall q, q <> p -> heap s' !! q = heap s !! q) as Hhq
    by (intros q Hne; rewrite Hhs; by apply lookup_insert_ne).
  apply (Hk m p publish' pb). split; try done.
  - apply (appended_outbound s s' p m); try done. split; [done|]. split.
    + destruct Hq as [-> | ->]; [by left|]. right. split; [done|]. by left.
    + split; [|done]. exists p. split; [done|]. exists pb, topic. rewrite Hhs, lookup_insert_eq. done.
  - by destruct Hq as [-> | ->].
  - by rewrite Hhs, lookup_insert_eq.
  - split; simpl; [by eexists | by rewrite Hlen | done].
Qed.

(** A QoS 1 or 2 message published: it waits for its first acknowledgement whatever
    becomes of the write. *)
Lemma wp_startPublish publish qos retained s :
  inv s -> sendable publish -> qos = 1 \/ qos = 2 -> 1 <= pub_msgId publish <= MAX_MSG_ID ->
  pub_msgId publish ∉ map m_msgid (outs s) ->
  wp (MQTTProtocol_startPublish publish qos retained None) s (fun r s' =>
    inv s' /\ option_map m_msgid (snd (fst r)) = Some (pub_msgId publish) /\
    exists pb, view_of s' = set_out (view_of s)
      (v_out (view_of s) ++ [mkOutgoing (pub_msgId publish) (first_stage qos) (Some pb)]) (v_sent (view_of s))).
Proof.
  intros Hi Hs Hq Hid Hfresh. unfold MQTTProtocol_startPublish.
  destruct (Z.ltb_spec 0 qos); [|lia]. apply wp_new_message; try done.
  intros m p publish' pb s1 [Hi1 Ho1 Hin1 Hq1 Hs1 Hr1 Hmid Hst Hp Hfr Hh1 Hpb Hsd Hlen]. rewrite Hp.
  apply wp_bind. eapply wp_run; [by apply deref_pub_run|]. cbv zeta.
  set (qp := mkPublish _ _ _ _ _ _ _ _ _) in *.
  assert (wp (MQTTProtocol_startPublishCommon qp qos retained) s1 (fun r s2 =>
    frame s1 s2 /\ sendable (snd r) /\ pub_payloadlen (snd r) = pbs_payloadlen pb)) as Hsend.
  { unfold MQTTProtocol_startPublishCommon. apply wp_bind. eapply wp_mono; [apply wp_send_publish; [done|lia]|].
    intros [rc sent] s2 (Hf & Hsd2 & mask & bufs & He). simpl in *.
    destruct (Z.eqb_spec qos 0); [lia|]. simpl. apply wp_ret. split; [done|]. split; [done|]. simpl. by rewrite He. }
  apply wp_bind. eapply wp_mono; [exact Hsend|]. intros [rc sent] s2 (Hf & Hsd2 & Hpl). simpl in Hsd2, Hpl.
  destruct (frame_lists _ _ Hf) as (Ho2 & Hin2 & Hq2 & Hh2 & _). apply wp_bind. eapply wp_mono.
  { apply (wp_share_buffers p sent pb); [exact (frame_inv _ _ Hf Hi1) | by rewrite Hh2 | apply Hsd2 |].
    rewrite <- Hpl. apply Hsd2. }
  intros [] s3 (Hi3 & Ho3 & Hin3 & Hq3 & Hs3 & Hr3 & pb' & Hh3). apply wp_ret. split; [done|].
  split; [simpl; by rewrite Hmid|]. exists pb'.
  assert (forall q, q ∈ refs s -> heap s3 !! q = heap s !! q) as Hhq.
  { intros q Hin. assert (q <> p) by (by intros ->). rewrite Hh3, lookup_insert_ne by done. by rewrite Hh2, Hh1. }
  unfold refs in Hhq. unfold view_of. rewrite Ho3, Ho2, Ho1, Hin3, Hin2, Hin1, Hq3, Hq2, Hq1, Hs3, Hr3.
  rewrite (fr_sent _ _ Hf), (fr_received _ _ Hf), Hs1, Hr1. unfold set_out. simpl. f_equal.
  - unfold resolve. rewrite map_app. f_equal.
    + apply (resolve_heap outgoing_of). intros q Hin. apply Hhq. rewrite elem_of_app. by left.
    + simpl. rewrite Hp. simpl. rewrite Hh3, lookup_insert_eq. unfold outgoing_of. by rewrite Hst, Hmid.
  - apply resolve_heap. intros q Hin. apply Hhq. rewrite !elem_of_app. by right; left.
Qed.

Lemma safe_storeQoS0 publish s :
  inv s -> sendable publish -> wp (MQTTProtocol_storeQoS0 publish) s (fun _ s' => inv s' /\ view_of s' = view_of s).
Proof.
  intros Hi Hs. destruct (sd_topic _ Hs) as [topic Ht]. unfold MQTTProtocol_storeQoS0.
  apply wp_bind, wp_get.
  destruct (storePublication_spec publish topic s (refs s) Ht (inv_store _ Hi))
    as (p & publish' & ps' & Hr & Hfr & Hst & Hh & _).
  apply wp_bind. eapply wp_run; [exact Hr|]. cbv beta iota. apply wp_bind, wp_modify. set (s1 := set_pending _ _).
  assert (forall q, q ∈ refs s -> heap s1 !! q = heap s !! q) as Hq.
  { intros q Hin. unfold heap, s1. simpl. rewrite Hh. apply lookup_insert_ne. by intros <-. }
  assert (inv s1) as Hi1.
  { destruct Hi as [_ H2 H3 H4 H5 H6]. split; try done.
    - eapply store_inv_perm; [|exact Hst]. unfold refs. simpl. rewrite map_app. simpl.
      change (outs s1) with (outs s). change (ins s1) with (ins s). solve_Permutation.
    - eapply out_ok_mono; [|exact H2]. intros q Hin. apply live_eq, Hq. unfold refs. rewrite elem_of_app. by left.
    - eapply in_ok_mono; [|exact H3]. intros q Hin. apply live_eq, Hq. unfold refs. rewrite !elem_of_app. tauto. }
  assert (view_of s1 = view_of s) as Hv.
  { unfold view_of. change (outs s1) with (outs s). change (ins s1) with (ins s). change (queue s1) with (queue s).
    f_equal; apply resolve_heap; intros q Hin; apply Hq; unfold refs; rewrite !elem_of_app; tauto. }
  assert (heap s1 !! p = Some (mkPublications (Some topic) (pub_topiclen publish) (pub_payload publish)
     (pub_payloadlen publish) 1 (pub_mask publish))) as Hp by (unfold heap, s1; simpl; by rewrite Hh, lookup_insert_eq).
  apply wp_bind. eapply wp_run; [by apply deref_pub_run|]. apply wp_bind, wp_call_net. intros b n _.
  apply wp_ret. pose proof (frame_network s1 n) as Hf. split; [exact (frame_inv _ _ Hf Hi1)|].
  by rewrite (frame_view _ _ Hf).
Qed.

(** A QoS 0 message published leaves nothing behind but, perhaps, a pending write. *)
Lemma wp_startPublish_qos0 publish retained s :
  inv s -> sendable publish ->
  wp (MQTTProtocol_startPublish publish 0 retained None) s (fun r s' =>
    inv s' /\ snd (fst r) = None /\ view_of s' = view_of s).
Proof.
  intros Hi Hs. unfold MQTTProtocol_startPublish. change (0 <? 0) with false. cbv iota.
  unfold MQTTProtocol_startPublishCommon. apply wp_bind, wp_bind.
  eapply wp_mono; [apply wp_send_publish; [done|lia]|]. intros [rc sent] s1 (Hf & Hs1 & _). simpl in Hs1.
  pose proof (frame_inv _ _ Hf Hi) as Hi1. rewrite <- (frame_view _ _ Hf).
  destruct (_ && _); [|by apply wp_ret, wp_ret].
  apply wp_bind. eapply wp_mono; [by apply safe_storeQoS0|]. intros publish' s2 [Hi2 Hv2]. by apply wp_ret, wp_ret.
Qed.

(** The message an application may publish. *)
Record message_ok (qos : Z) (properties : option MQTTProperties) : Prop := {
  mo_qos : 0 <= qos <= 2;
  mo_props : match properties with Some p => props_inv p | None => True end
}.

Lemma new_publish_sendable c topicName payload msgid properties qos :
  message_ok qos properties -> sendable (new_publish c topicName payload msgid properties).
Proof.
  intros [_ Hp]. split; simpl; [by eexists | |].
  - destruct (Z.ltb_spec 0 (Zlen payload)); [done|]. pose proof (Zlen_nonneg payload). simpl. rewrite Zlen_nil. lia.
  - intros _. destruct properties; [done | apply props_inv_initializer].
Qed.

(** The end of [MQTTClient_publish5]. *)
Lemma wp_publish_end rc code (token : option Z) s :
  inv s ->
  wp (if rc =? TCPSOCKET_INTERRUPTED then mret None
      else if rc =? SOCKET_ERROR then
        _ ← MQTTClient_disconnect_internal;
        mret (Some (code, token))
      else mret (Some (rc, token)) : SM (St P N) (option (Z * option Z))) s (fun _ s' => inv s').
Proof.
  intros Hi. destruct (_ =? _); [by apply wp_ret|]. destruct (_ =? _); [|by apply wp_ret].
  apply wp_bind. eapply wp_mono; [by apply wp_disconnect_internal|]. intros [] s' [Hi' _]. by apply wp_ret.
Qed.

(** The client with the identifier of a message, and the start of its exchange. *)
Lemma assigned_inv s msgid c : inv s -> MQTTProtocol_assignMsgId (st_client s) = Some (msgid, c) -> inv (set_client s c).
Proof.
  intros Hi Ha. pose proof (assignMsgId_ok (st_client s) (inv_msgid _ Hi)) as H. rewrite Ha in H. destruct H as (l & Hl & -> & Hid).
  destruct Hi as [H1 H2 H3 H4 H5 H6]. set (s1 := set_client _ _).
  assert (outs s1 = outs s) as Ho by (unfold s1; destruct (msgid =? 0); exact Hl).
  assert (ins s1 = ins s) as Hin by (unfold s1; by destruct (msgid =? 0)).
  split; rewrite ?Ho, ?Hin; try done; [by unfold refs; rewrite Ho, Hin|].
  unfold s1, last_id. destruct (Z.eqb_spec msgid 0); [exact H6|]. destruct Hid as [(j & _ & -> & _)|(-> & _)]; [|done].
  pose proof (candidate_range (msgID (st_client s)) j). cbn. lia.
Qed.

Lemma wp_publish_step topicName payload qos retained properties s msgid c :
  message_ok qos properties -> inv s ->
  (if 0 <? qos then MQTTProtocol_assignMsgId (st_client s) else Some (0, st_client s)) = Some (msgid, c) ->
  inv (set_client s c) /\
  ((0 <? qos) && (msgid =? 0) = false ->
   wp (MQTTProtocol_startPublish (new_publish c topicName payload msgid properties) qos retained None) (set_client s c) (fun _ s' => inv s')).
Proof.
  intros Hok Hi Ha. destruct (mo_qos _ _ Hok) as [Hq0 Hq2]. destruct (Z.ltb_spec 0 qos) as [Hq|Hq].
  - pose proof (assigned_inv _ _ _ Hi Ha) as Hi1. split; [exact Hi1|]. cbn [andb]. intros Hne. apply Z.eqb_neq in Hne.
    pose proof (assignMsgId_ok (st_client s) (inv_msgid _ Hi)) as H. rewrite Ha in H.
    destruct H as (l & Hl & Hc & [(j & _ & Hj & _ & Hu & _)|(-> & _)]); [|done].
    pose proof (candidate_range (msgID (st_client s)) j) as Hr. rewrite <- Hj in Hr.
    eapply wp_mono; [apply wp_startPublish; [done | by eapply new_publish_sendable | lia | exact Hr |]|by intros r s' [H _]].
    simpl. intros Hin. apply Hu. apply list_elem_of_In in Hin. revert Hin. unfold in_use. rewrite Hc. rewrite <- Hl.
    by destruct (msgid =? 0).
  - injection Ha as <- <-. replace (set_client s (st_client s)) with s by (by destruct s). split; [done|]. intros _.
    replace qos with 0 by lia. eapply wp_mono; [apply wp_startPublish_qos0; [done | by eapply new_publish_sendable]|by intros r s' [H _]].
Qed.

Lemma safe_publish5 topicName payload qos retained properties :
  message_ok qos properties ->
  safe (MQTTClient_publish5 topicName payload qos retained properties : SM (St P N) (option (Z * option Z))).
Proof.
  intros Hok s Hi. unfold MQTTClient_publish5. apply wp_bind, wp_get. cbv zeta.
  destruct (_ =? 0); [by apply wp_ret|]. destruct (negb _); [by apply wp_ret|].
  destruct (_ <=? _); [by apply wp_ret|]. apply wp_bind.
  eapply wp_mono; [by apply safe_ready|]. clear s Hi. intros b s Hi. apply wp_bind, wp_get.
  destruct (negb b); [by apply wp_ret|]. destruct (if 0 <? qos then _ else _) as [[msgid c]|] eqn:Ha; [|by apply wp_ret].
  destruct (wp_publish_step topicName payload qos retained properties s msgid c Hok Hi Ha) as [Hi1 Hp].
  apply wp_bind, wp_modify. destruct (_ && _); [by apply wp_ret|]. apply wp_bind.
  eapply wp_mono; [by apply Hp|]. intros [[rc msg] pub'] s2 Hi2. by apply wp_publish_end.
Qed.

(** ** Delivery and received packets *)

Lemma wp_deliverMessage rc s :
  inv s -> queue s <> [] -> wp (MQTTClient_deliverMessage rc) s (fun r s' => inv s' /\ queue s = snd r :: queue s').
Proof.
  intros Hi Hq. unfold MQTTClient_deliverMessage. apply wp_bind, wp_get.
  destruct (AList.items (messageQueue (st_client s))) as [|qe l] eqn:E; [done|]. cbv zeta.
  apply wp_bind. apply wp_mono with (Q := fun _ s' => frame s s').
  - destruct (persistence _); [|apply wp_ret, frame_refl].
    apply wp_call_persistence. intros z p _. apply frame_phandle.
  - intros z s1 Hf. destruct (frame_lists _ _ Hf) as (_ & _ & Hq1 & _).
    apply wp_bind, wp_modify, wp_ret. pose proof (frame_inv _ _ Hf Hi) as Hi1.
    split; [by eapply inv_core; [..|exact Hi1]|]. simpl snd. unfold queue at 2. simpl.
    change (AList.items (messageQueue (st_client s1))) with (queue s1). rewrite Hq1. unfold queue. by rewrite E.
Qed.

(** The packets the handlers are given. *)
Definition packet_ok (pack : packet) : Prop :=
  match pack with
  | Ppublish p => publish_ok p
  | Pack a => hdr_type (ack_header a) <> DISCONNECT -> is_Some (ack_msgId a)
  | _ => True
  end.

Lemma safe_handle_packet pack : packet_ok pack -> safe (handle_packet pack : SM (St P N) (Z * option packet)).
Proof.
  intros Hk. destruct pack as [?|p|a|?|?|h]; simpl handle_packet; try apply safe_ret.
  - intros s Hi. apply wp_bind. eapply wp_mono; [by apply wp_handlePublishes|]. intros rc s' [Hi' _]. by apply wp_ret.
  - simpl in Hk. assert (forall (h : SM (St P N) Z) b, (forall s, inv s -> wp h s (fun _ s' => inv s')) ->
      safe (if b : bool then rc ← h; mret (rc, None) else mret (TCPSOCKET_COMPLETE, Some (Pack a)))) as Hh.
    { intros h b Hh. destruct b; [|apply safe_ret]. apply safe_bind; [exact Hh | intros; apply safe_ret]. }
    assert (forall t, t <> DISCONNECT -> hdr_type (ack_header a) = t -> exists id, ack_msgId a = Some id) as Hid.
    { intros t Ht E. apply Hk. congruence. }
    destruct (Z.eqb_spec (hdr_type (ack_header a)) PUBACK) as [E|_].
    { destruct (Hid PUBACK) as [id Ha]; [done..|]. apply (Hh _ true). intros s Hi.
      eapply wp_mono; [by eapply wp_handlePubacks|]. by intros rc s' [Hi' _]. }
    destruct (Z.eqb_spec (hdr_type (ack_header a)) PUBCOMP) as [E|_].
    { destruct (Hid PUBCOMP) as [id Ha]; [done..|]. apply (Hh _ true). intros s Hi.
      eapply wp_mono; [by eapply wp_handlePubcomps|]. by intros rc s' [Hi' _]. }
    destruct (Z.eqb_spec (hdr_type (ack_header a)) PUBREC) as [E|_].
    { destruct (Hid PUBREC) as [id Ha]; [done..|]. apply (Hh _ true). intros s Hi.
      eapply wp_mono; [by eapply wp_handlePubrecs|]. by intros rc s' [Hi' _]. }
    destruct (Z.eqb_spec (hdr_type (ack_header a)) PUBREL) as [E|_]; [|apply safe_ret].
    destruct (Hid PUBREL) as [id Ha]; [done..|]. apply (Hh _ true). intros s Hi.
    eapply wp_mono; [by eapply wp_handlePubrels|]. by intros rc s' [Hi' _].
  - destruct (_ =? _); [|apply safe_ret]. apply safe_bind; [apply safe_pingresps | intros; apply safe_ret].
Qed.

End Safety.

(** ** From bytes to packets *)

Lemma readUTFlen_suffix l s len rest : readUTFlen l = Ok (s, len, rest) -> exists pre, l = pre ++ rest.
Proof.
  unfold readUTFlen. destruct (_ >? _); [|done]. destruct l as [|a [|b l]]; [done..|].
  cbn [mbind res_bind readInt]. destruct (_ <=? _); [|done]. intros [= <- <- <-].
  exists (a :: b :: take (Z.to_nat (256 * a + b)) l). simpl. by rewrite take_drop.
Qed.

Lemma readInt_suffix l n rest : readInt l = Ok (n, rest) -> exists pre, l = pre ++ rest.
Proof. destruct l as [|a [|b l]]; [done..|]. intros [= <- <-]. by exists [a; b]. Qed.

(** A PUBLISH packet that could be read is well formed. *)
Lemma parsed_publish_ok v header data p :
  bytes_ok data -> Zlen data < 268435456 -> MQTTPacket_publish v header data = Ok p -> publish_ok p.
Proof.
  intros Hb Hlen H. unfold MQTTPacket_publish in H.
  apply res_bind_Ok in H as ([[topic tl] l1] & H1 & H). apply readUTFlen_suffix in H1 as (pre1 & ->).
  apply res_bind_Ok in H as ([id l2] & H2 & H).
  assert (exists pre2, l1 = pre2 ++ l2) as (pre2 & ->).
  { destruct (0 <? _); [by eapply readInt_suffix|]. injection H2 as <- <-. by exists []. }
  apply res_bind_Ok in H as ([props l3] & H3 & H). injection H as <-.
  apply bytes_ok_app in Hb as [_ Hb]. apply bytes_ok_app in Hb as [_ Hb]. rewrite !Zlen_app in Hlen.
  pose proof (Zlen_nonneg pre1). pose proof (Zlen_nonneg pre2).
  assert (exists pre3, l2 = pre3 ++ l3 /\ (MQTTVERSION_5 <= v -> props_typed props)) as (pre3 & -> & Hp).
  { destruct (Z.leb_spec MQTTVERSION_5 v) as [Hv|Hv].
    - destruct (MQTTProperties_read_ok _ _ _ Hb ltac:(lia) H3) as (vbi & body & -> & _ & _ & _ & _ & Hok & Hs).
      exists (vbi ++ body). rewrite app_assoc. split; [done|]. intros _. split; [done|lia].
    - injection H3 as <- <-. exists []. split; [done|lia]. }
  rewrite Zlen_app in Hlen. pose proof (Zlen_nonneg pre3). pose proof (Zlen_nonneg l3).
  split; simpl; [by eexists | by rewrite to_i32_id by lia | done].
Qed.

Lemma parsed_ack_ok v header data a :
  MQTTPacket_ack v header data = Ok a -> hdr_type (ack_header a) <> DISCONNECT -> is_Some (ack_msgId a).
Proof.
  unfold MQTTPacket_ack. destruct (hdr_type header =? DISCONNECT) eqn:E.
  - intros H Ht. exfalso. apply Ht. assert (ack_header a = header) as ->; [|by apply Z.eqb_eq].
    destruct (_ <=? _); cbn [mbind res_bind] in H; [|by injection H as <-].
    apply res_bind_Ok in H as ([rc l] & _ & H). apply res_bind_Ok in H as ([props l2] & _ & H). by injection H as <-.
  - intros H _. apply res_bind_Ok in H as ([msgId l] & H1 & H).
    apply res_bind_Ok in H1 as ([n l1] & _ & H1). injection H1 as <- <-.
    destruct (_ <=? _); [|by injection H as <-].
    apply res_bind_Ok in H as ([rc l2] & _ & H). apply res_bind_Ok in H as ([props l3] & _ & H). by injection H as <-.
Qed.

(** What the packet functions make of received bytes can be handled. *)
Lemma parsed_packet_ok v header data f pack :
  bytes_ok data -> Zlen data < 268435456 -> factory_entry v (hdr_type header) = Some f ->
  f v header data = Ok pack -> packet_ok pack.
Proof.
  intros Hb Hlen Hf Hp. unfold factory_entry in Hf. destruct (_ || _); [done|]. unfold new_packets in Hf.
  repeat match type of Hf with (if ?b then _ else _) = _ => destruct b end; try done; injection Hf as <-;
    cbv beta in Hp; (apply res_fmap_Ok in Hp as (x & Hx & ->) || injection Hp as <-); simpl; try done.
  - by eapply parsed_publish_ok.
  - by eapply parsed_ack_ok.
Qed.

(** ** Sequences of operations *)

(** An operation of the library on a session, or an event of its environment, with its
    arguments. *)
Inductive operation :=
| OpPublish (topicName payload : list Z) (qos retained : Z) (properties : option MQTTProperties)
| OpReceive (MQTTVersion header : Z) (data : list Z)
| OpRetry (retryLoopIntervalms last : Z)
| OpWriteComplete (socket rc : Z)
| OpDeliver
| OpDisconnect (reason : Z) (props : option MQTTProperties)
| OpConnected.

Section Run.
Context {P N : Type} {PO : PersistenceOps P} {NT : Transport N} {NL : TransportLaws N}.
Implicit Types s : St P N.

Definition discard {A} (m : SM (St P N) A) : SM (St P N) () := _ ← m; mret ().

(** A packet that cannot be built is dropped. *)
Definition receive (v header : Z) (data : list Z) : SM (St P N) () :=
  match factory_entry v (hdr_type header) with
  | None => mret ()
  | Some f =>
      match f v header data with
      | Ok pack => discard (handle_packet pack)
      | Fail => mret ()
      | Oob => sm_oob
      end
  end.

Definition perform (op : operation) : SM (St P N) () :=
  match op with
  | OpPublish topicName payload qos retained properties =>
      discard (MQTTClient_publish5 topicName payload qos retained properties)
  | OpReceive v header data => receive v header data
  | OpRetry interval last => discard (MQTTClient_retry interval last)
  | OpWriteComplete socket rc => MQTTClient_writeComplete socket rc
  | OpDeliver =>
      s ← sm_get;
      match AList.items (messageQueue (st_client s)) with
      | [] => mret ()
      | _ => discard (MQTTClient_deliverMessage MQTTCLIENT_SUCCESS)
      end
  | OpDisconnect reason props => MQTTClient_closeSession reason props
  | OpConnected => discard connack_accepted
  end.

(** A packet received whose parser reads beyond its end. *)
Definition overreads (op : operation) : bool :=
  match op with
  | OpReceive v header data =>
      match factory_entry v (hdr_type header) with
      | Some f => match f v header data with Oob => true | _ => false end
      | None => false
      end
  | _ => false
  end.

(** The arguments of the application: QoS 0, 1 or 2 and properties with their lengths; and
    the packets [MQTTPacket_Factory] can read, of bytes and below 2^28 of them. *)
Definition operation_ok (op : operation) : Prop :=
  match op with
  | OpPublish _ _ qos _ properties => message_ok qos properties
  | OpReceive _ _ data => bytes_ok data /\ Zlen data < 268435456
  | OpDisconnect _ props => props_arg_ok props
  | _ => True
  end.

Fixpoint perform_all (ops : list operation) : SM (St P N) () :=
  match ops with
  | [] => mret ()
  | op :: ops => _ ← perform op; perform_all ops
  end.

Lemma safe_discard {A} (m : SM (St P N) A) : safe m -> safe (discard m).
Proof. intros Hm. apply safe_bind; [done | intros; apply safe_ret]. Qed.

Lemma safe_connack_accepted : safe (connack_accepted : SM (St P N) Z).
Proof.
  apply safe_bind; [by apply safe_client|]. intros _ s Hi. apply wp_bind, wp_get, wp_bind.
  apply wp_mono with (Q := fun _ s' => inv s').
  { destruct (_ || _); [|by apply wp_ret]. eapply wp_mono; [by apply wp_cleanSession|]. by intros rc s' [Hi' _]. }
  clear s Hi. intros rc s Hi. apply wp_bind, wp_get. destruct (_ <? _); [|by apply wp_ret].
  apply wp_bind, wp_modify. set (f := fun m : Messages => touched m 0 (m_nextMessageType m)). set (s1 := set_client _ _).
  assert (inv s1) as Hi1.
  { destruct Hi as [H1 H2 H3 H4 H5 H6]. assert (outs s1 = map f (outs s)) as Ho by done.
    assert (omap m_publish (map f (outs s)) = omap m_publish (outs s)) as Hom.
    { clear. induction (outs s) as [|m l IH]; [done|]. simpl. unfold omap in IH. by rewrite IH. }
    split; rewrite ?Ho; try done.
    - eapply store_inv_perm; [|exact H1]. unfold refs. by rewrite Ho, Hom.
    - apply Forall_map. eapply Forall_impl; [exact H2|]. intros m Hm. exact Hm.
    - rewrite map_map. exact H4. }
  apply wp_bind. eapply wp_mono; [by apply safe_retry|]. intros [] s2 Hi2. apply wp_bind, wp_get. by apply wp_ret.
Qed.

Lemma safe_perform op : operation_ok op -> overreads op = false -> safe (perform op).
Proof.
  destruct op as [t pl q r pr|v h d|i l|sk rc| |reason props|]; simpl; intros Hok Hno.
  - by apply safe_discard, safe_publish5.
  - destruct Hok as (Hb & Hl). unfold receive. destruct (factory_entry v (hdr_type h)) as [f|] eqn:Hf; [|apply safe_ret].
    destruct (f v h d) as [pack| |] eqn:Hp; [|apply safe_ret|done].
    apply safe_discard, safe_handle_packet. by eapply parsed_packet_ok.
  - apply safe_discard, safe_client_retry.
  - apply safe_writeComplete.
  - intros s Hi. apply wp_bind, wp_get. destruct (AList.items _) as [|qe q] eqn:E; [by apply wp_ret|].
    apply wp_bind. eapply wp_mono; [apply wp_deliverMessage; [done|]|].
    { unfold queue. by rewrite E. }
    intros r s' [Hi' _]. by apply wp_ret.
  - intros s Hi. eapply wp_mono; [by apply wp_closeSession|]. intros [] s' He. apply He.
  - apply safe_discard, safe_connack_accepted.
Qed.

Lemma perform_overread op s : overreads op = true -> perform op s = Oob.
Proof.
  destruct op as [| v h d| | | | |]; cbn [overreads perform]; [done| |done..]. unfold receive.
  destruct (factory_entry v (hdr_type h)) as [f|]; [|done]. by destruct (f v h d).
Qed.

(** C12. Safety.  From a session that satisfies the invariant, any sequence of publishes,
    received packets, retries and keep alives, completed writes, deliveries,
    disconnections and connections, over any network and any persistence store, makes a
    memory error exactly when a packet received is one that its parser reads too far
    ([overreads]; [Packet.parse_v3_oob_iff] says which these are below MQTT 5); otherwise
    it runs to its end and leaves a session that satisfies the invariant: no operation
    uses a freed publication, a null topic or bytes outside an object, every publication
    stored is held exactly once and freed when its holder lets it go, and no two
    messages in flight in one direction have the same identifier.  The application
    publishes with QoS 0, 1 or 2 and gives properties that are well formed (in a DISCONNECT
    with four byte integers below 2^31); the packets are of bytes, fewer than 2^28. *)
Theorem session_safety (ops : list operation) (s : St P N) :
  inv s -> Forall operation_ok ops ->
  if existsb overreads ops then perform_all ops s = Oob else wp (perform_all ops) s (fun _ s' => inv s').
Proof.
  intros Hi Hops. revert s Hi. induction Hops as [|op ops Hop Hops IH]; intros s Hi; cbn [existsb perform_all]; [by apply wp_ret|].
  destruct (overreads op) eqn:Ho; cbn [orb].
  - unfold mbind, sm_bind. by rewrite perform_overread.
  - destruct (safe_perform op Hop Ho s Hi) as ([] & s1 & E & Hi1). specialize (IH s1 Hi1). destruct (existsb overreads ops).
    + by rewrite (sm_bind_run _ _ _ _ _ E).
    + apply wp_bind. by exists (), s1.
Qed.

(** Publishing.  A QoS 1 or QoS 2 message that is published starts its exchange: it
    waits for PUBACK or PUBREC, after the messages already in flight, whatever becomes
    of the write to the connection; a QoS 0 message changes no exchange. *)
Theorem publish_starts_exchange (publish : Publish) (qos retained : Z) (s : St P N) :
  inv s -> sendable publish -> 0 <= qos <= 2 ->
  (0 < qos -> 1 <= pub_msgId publish <= MAX_MSG_ID /\ pub_msgId publish ∉ map m_msgid (outs s)) ->
  wp (MQTTProtocol_startPublish publish qos retained None) s (fun r s' =>
    inv s' /\
    if 0 <? qos then
      option_map m_msgid (snd (fst r)) = Some (pub_msgId publish) /\
      exists pb, view_of s' = set_out (view_of s)
        (v_out (view_of s) ++ [mkOutgoing (pub_msgId publish) (first_stage qos) (Some pb)]) (v_sent (view_of s))
    else view_of s' = view_of s).
Proof.
  intros Hi Hs Hq Hid. destruct (Z.ltb_spec 0 qos) as [H0|H0].
  - destruct (Hid H0) as [Hr Hf]. apply wp_startPublish; [done | done | lia | done | done].
  - replace qos with 0 by lia. eapply wp_mono; [by apply wp_startPublish_qos0|]. intros r s' (Hi' & _ & Hv). done.
Qed.

(** The end of a session.  [MQTTClient_closeSession] leaves the client disconnected, in
    no state of connection and without a socket; when the session was clean and not of
    MQTT 5 its messages and its queue are gone and their publications freed, otherwise
    they are all kept for the next connection. *)
Theorem session_end (reason : Z) (props : option MQTTProperties) (s : St P N) :
  inv s -> props_arg_ok props -> wp (MQTTClient_closeSession reason props) s (fun _ s' => ended s s').
Proof. apply wp_closeSession. Qed.

(** Delivery in order.  [MQTTClient_deliverMessage] hands the application the message
    that has been in the queue longest, and only that one leaves the queue. *)
Theorem deliver_first (rc : Z) (s : St P N) :
  inv s -> queue s <> [] ->
  wp (MQTTClient_deliverMessage rc) s (fun r s' => inv s' /\ queue s = snd r :: queue s').
Proof. apply wp_deliverMessage. Qed.

End Run.

(** *** Witnesses *)

Lemma publish_starts_exchange_witness :
  inv sent_state /\ sendable (publish_of 4 2 8) /\
  wp (MQTTProtocol_startPublish (publish_of 4 2 8) 2 0 None) sent_state (fun r s' =>
    inv s' /\
    if 0 <? 2 then
      option_map m_msgid (snd (fst r)) = Some (pub_msgId (publish_of 4 2 8)) /\
      exists pb, view_of s' = set_out (view_of sent_state)
        (v_out (view_of sent_state) ++ [mkOutgoing (pub_msgId (publish_of 4 2 8)) (first_stage 2) (Some pb)])
        (v_sent (view_of sent_state))
    else view_of s' = view_of sent_state).
Proof.
  assert (sendable (publish_of 4 2 8)) as Hs
    by (split; simpl; [by eexists | done | intros _; apply props_inv_initializer]).
  split; [exact sent_state_inv|]. split; [exact Hs|].
  apply (publish_starts_exchange (publish_of 4 2 8) 2 0 sent_state sent_state_inv Hs).
  - lia.
  - intros _. split; [done|]. by_compute.
Defined.

Lemma session_end_witness :
  inv sent_state /\ wp (MQTTClient_closeSession 0 None) sent_state (fun _ s' => ended sent_state s').
Proof. split; [exact sent_state_inv|]. apply (session_end 0 None sent_state sent_state_inv). exact I. Defined.

Definition queued_state : St MemStore ScriptNet :=
  set_client (idle_state 4) (set_queue (st_client (idle_state 4))
    (AList.mk [sample_entry MQTTProperties_initializer; set_seqno (sample_entry MQTTProperties_initializer) 2] None) 2).

Lemma deliver_first_witness :
  inv queued_state /\ wp (MQTTClient_deliverMessage 0) queued_state (fun r s' => inv s' /\ queue queued_state = snd r :: queue s').
Proof.
  assert (inv queued_state) as Hi by (eapply inv_core; [..|exact (idle_state_inv 4)]; done).
  split; [exact Hi|]. apply (deliver_first 0 queued_state Hi). done.
Defined.

(** The QoS of a publish is not tested: with QoS 3 a message is stored that no
    acknowledgement ends, and the invariant is lost. *)
Theorem publish5_any_qos :
  exists token s', MQTTClient_publish5 [116] [104; 105] 3 0 None (idle_state 4) = Ok (Some (MQTTCLIENT_SUCCESS, token), s') /\ ~ inv s'.
Proof.
  eexists _, _. split; [vm_compute; reflexivity|]. intros Hi. pose proof (inv_out _ Hi) as Ho.
  apply Forall_cons in Ho as [(_ & H & _) _]. vm_compute in H. intuition discriminate.
Qed.

(** A connection, a publication, its PUBREC, a QoS 2 message, keep alive, delivery,
    disconnection. *)
Definition sample_run : list operation :=
  [OpConnected; OpPublish [116] [104; 105] 2 0 None; OpReceive 4 (mk_header PUBREC 0 0 0) [0; 1];
   OpReceive 4 (mk_header PUBLISH 0 2 0) [0; 1; 116; 0; 9; 104; 105]; OpReceive 4 (mk_header PUBREL 0 1 0) [0; 9];
   OpWriteComplete 5 0; OpRetry 5000 0; OpDeliver; OpDisconnect 0 None].

Lemma sample_run_ok : Forall operation_ok sample_run.
Proof.
  repeat (apply Forall_cons; split); try apply Forall_nil_2; try done.
  all: split; by_compute.
Qed.

Lemma session_safety_witness :
  inv (idle_state 4) /\ Forall operation_ok sample_run /\
  (if existsb overreads sample_run then perform_all sample_run (idle_state 4) = Oob
   else wp (perform_all sample_run) (idle_state 4) (fun _ s' => inv s')).
Proof.
  split; [apply idle_state_inv|]. split; [exact sample_run_ok|].
  exact (session_safety sample_run (idle_state 4) (idle_state_inv 4) sample_run_ok).
Defined.

(** No packet of this run is read too far; one that has no identifier would be. *)
Example sample_run_overreads :
  existsb overreads sample_run = false /\ existsb overreads (sample_run ++ [OpReceive 4 (mk_header PUBREC 0 0 0) []]) = true.
Proof. split; vm_compute; reflexivity. Qed.

End Safety.
