(* ===== verification/Retry.v ===== *)
(** * What is sent again, and when ([src/src/MQTTProtocolClient.c])

    The packets [MQTTProtocol_retries] and [MQTTProtocol_keepalive] hand to a connection,
    whatever the connection does with them: on a reconnection the messages in flight are
    offered again, in order, as the PUBLISH or the PUBREL their stage asks for, until a
    write stays pending or fails; and the keep alive offers a PINGREQ when the connection
    has been idle, and gives the session up when it is not answered. *)

From S2P Require Import Prelude.
From S2P Require Import Wire.
From S2P Require Import Properties.
From S2P Require Import LinkedList.
From S2P Require Import Clients.
From S2P Require Import Packet.
From S2P Require Import State.
From S2P Require Import Store.
From S2P Require Import Persistence.
From S2P Require Import PacketIO.
From S2P Require Import Protocol.
From S2P Require Import Invariant.
From S2P Require Import Exchange.
From S2P Require Import Receiver.
From S2P Require Import Session.
From S2P Require Import Safety.
From Stdlib Require Import ZArith Lia List.
From stdpp Require Import base numbers list gmap.

Open Scope Z_scope.

Module Retry.
Import Wire Properties Clients Packet State Store Persistence PacketIO Protocol Invariant Exchange Receiver Session Safety.

(** ** The calls of a connection *)

(** Whether a write is pending has been asked, or a frame has been given to be written. *)
Inductive net_call :=
| Asked (ready : bool)
| Offered (packet : list Z) (rc : Z).

(** Any network, with the calls that have been made of it. *)
Record Logged (N : Type) := mkLogged { lg_net : N; lg_calls : list net_call }.
Arguments mkLogged {_}.
Arguments lg_net {_}.
Arguments lg_calls {_}.

#[export] Instance Logged_transport {N} `{Transport N} : Transport (Logged N) := {
  putdatas sk buf0 bufs mask n :=
    let '(rc, bufs', mask', n') := putdatas sk buf0 bufs mask (lg_net n) in
    (rc, bufs', mask', mkLogged n' (lg_calls n ++ [Offered (buf0 ++ concat bufs) rc]));
  noPendingWrites sk n := let '(b, n') := noPendingWrites sk (lg_net n) in (b, mkLogged n' (lg_calls n ++ [Asked b]));
  updateWrite sk t p n := let '(b, n') := updateWrite sk t p (lg_net n) in (b, mkLogged n' (lg_calls n));
  getch sk n := let '(rc, b, n') := getch sk (lg_net n) in (rc, b, mkLogged n' (lg_calls n));
  getdata sk b n := let '(d, l, n') := getdata sk b (lg_net n) in (d, l, mkLogged n' (lg_calls n));
  framePos n := framePos (lg_net n);
  framePosSeekTo p n := mkLogged (framePosSeekTo p (lg_net n)) (lg_calls n);
  net_close sk n := mkLogged (net_close sk (lg_net n)) (lg_calls n);
  time_now n := let '(t, n') := time_now (lg_net n) in (t, mkLogged n' (lg_calls n))
}.
#[export] Instance Logged_laws {N} `{TransportLaws N} : TransportLaws (Logged N).
Proof.
  split. intros sk buf0 bufs mask n rc bufs' mask' n' E. cbn in E.
  destruct (putdatas sk buf0 bufs mask (lg_net n)) as [[[rc0 b0] m0] n0] eqn:E0. injection E as <- <- <- <-. by eapply putdatas_lengths.
Qed.

Lemma sm_lift_Ok {S A} (r : res A) (s : S) a s' : sm_lift r s = Ok (a, s') -> r = Ok a /\ s = s'.
Proof. unfold sm_lift. destruct r; [by intros [= -> ->]|done|done]. Qed.

Section Retry.
Context {P N : Type} {PO : PersistenceOps P} {NT : Transport N} {NL : TransportLaws N}.
Implicit Types s : St P (Logged N).

Definition calls s : list net_call := lg_calls (st_net s).

(** Calls are added. *)
Definition extends s s' : Prop := exists l, calls s' = calls s ++ l.
#[local] Instance extends_preorder : PreOrder extends.
Proof.
  split; [intros s; exists []; by rewrite app_nil_r|]. intros s1 s2 s3 [l1 H1] [l2 H2]. exists (l1 ++ l2). by rewrite H2, H1, app_assoc.
Qed.
Lemma extends_same s s' : st_net s' = st_net s -> extends s s'.
Proof. intros H. exists []. unfold calls. by rewrite H, app_nil_r. Qed.

Abbreviation M := (SM (St P (Logged N))).
Lemma extends_modify (f : St P (Logged N) -> St P (Logged N)) : (forall s, st_net (f s) = st_net s) -> respects extends (sm_modify f).
Proof. intros H. apply respects_modify. intros s. by apply extends_same. Qed.
Lemma extends_modify_client f : respects extends (modify_client f : M ()).
Proof. by apply extends_modify. Qed.
Lemma extends_call_persistence f : respects extends (call_persistence f : M Z).
Proof. intros s x s' E. unfold call_persistence in E. destruct (f _) as [rc p]. injection E as _ <-. by apply extends_same. Qed.
Lemma extends_call_net {X} (f : Logged N -> X * Logged N) :
  (forall n, exists l, lg_calls (snd (f n)) = lg_calls n ++ l) -> respects extends (call_net f : M X).
Proof. intros H s x s' E. unfold call_net in E. destruct (H (st_net s)) as [l Hl]. destruct (f _) as [y n]. injection E as _ <-. by exists l. Qed.
Lemma extends_putdatas sk b bs m : respects extends (call_net (putdatas sk b bs m) : M _).
Proof. apply extends_call_net. intros n. cbn. destruct (putdatas _ _ _ _ _) as [[[? ?] ?] ?]. by eexists. Qed.
Lemma extends_now : respects extends (MQTTTime_now : M Z).
Proof. apply extends_call_net. intros n. cbn. destruct (time_now _) as [? ?]. exists []. by rewrite app_nil_r. Qed.
Lemma extends_close : respects extends (sm_modify (fun s => set_network s (net_close (the_socket s) (st_net s))) : M ()).
Proof. apply respects_modify. intros s. exists []. unfold calls. cbn. by rewrite app_nil_r. Qed.
#[local] Hint Resolve extends_modify_client extends_call_persistence extends_putdatas extends_now : respects.

Lemma extends_removePublication p : respects extends (MQTTProtocol_removePublication p : M ()).
Proof. respects; apply extends_modify; done. Qed.
Lemma extends_emptyMessageList l : respects extends (MQTTProtocol_emptyMessageList l : M _).
Proof.
  unfold MQTTProtocol_emptyMessageList. apply (respects_bind extends); [|intros ?; apply (respects_ret extends)].
  induction (AList.items l) as [|m r IH]; [apply (respects_ret extends)|]. apply (respects_bind extends); [apply extends_removePublication|intros ?; apply IH].
Qed.
#[local] Hint Resolve extends_emptyMessageList : respects.

Lemma extends_put_frame b bs m : respects extends (put_frame b bs m : M _).
Proof. unfold put_frame, touch_lastSent. respects. Qed.
#[local] Hint Resolve extends_put_frame : respects.
Lemma extends_disconnect reason props : respects extends (MQTTPacket_send_disconnect reason props : M Z).
Proof. unfold MQTTPacket_send_disconnect, send_packet, MQTTPacket_send. respects. Qed.
#[local] Hint Resolve extends_disconnect : respects.
Lemma extends_closeSession sendwill : respects extends (MQTTProtocol_closeSession sendwill : M ()).
Proof.
  unfold MQTTProtocol_closeSession, MQTTClient_disconnect_internal, MQTTClient_closeSession, close_socket, MQTTClient_cleanSession, MQTTClient_emptyMessageQueue.
  respects. all: match goal with |- respects _ (sm_modify _) => apply extends_close end.
Qed.

(** The session given up: more may have been written before the connection was closed. *)
Lemma wp_give_up s : inv s -> wp (MQTTProtocol_closeSession 1) s (fun _ s' => ended s s' /\ extends s s').
Proof. intros Hi. apply wp_conj; [by apply wp_disconnect_internal|]. destruct (wp_disconnect_internal s Hi) as (x & s' & E & _). exists x, s'. split; [exact E|by apply (extends_closeSession 1) in E]. Qed.

(** ** Packets *)

(** The calls [l] have been made, and nothing else has changed that the frame of
    [Invariant] does not allow. *)
Record made (l : list net_call) s s' : Prop := {
  md_frame : frame s s';
  md_calls : calls s' = calls s ++ l
}.
Lemma made_state l s s' : made l s s' -> connected (st_client s') = connected (st_client s) /\ good (st_client s') = good (st_client s).
Proof. intros [Hf _]. destruct (fr_client _ _ Hf) as (n & -> & _). done. Qed.

Lemma wp_ask s : wp (call_net (noPendingWrites (the_socket s))) s (fun b s' => made [Asked b] s s').
Proof.
  apply wp_call_net. intros b n E. cbn in E. destruct (noPendingWrites _ _) as [b0 n0]. injection E as <- <-.
  split; [apply frame_network|done].
Qed.

Lemma put_frame_calls buf0 bufs mask s r s' : (put_frame buf0 bufs mask : M _) s = Ok (r, s') ->
  calls s' = calls s ++ [Offered (buf0 ++ concat bufs) (fst (fst r))].
Proof.
  intros E. unfold put_frame in E. apply sm_bind_Ok in E as (s0 & s1 & [= <- <-] & E). apply sm_bind_Ok in E as (r1 & s1 & E1 & E).
  unfold call_net in E1. cbn in E1. destruct (putdatas _ _ _ _ _) as [[[rc b] m] n]. injection E1 as <- <-.
  apply sm_bind_Ok in E as ([] & s2 & E2 & [= <- <-]). cbn [fst].
  transitivity (calls (set_network s (mkLogged n (lg_calls (st_net s) ++ [Offered (buf0 ++ concat bufs) rc])))); [|done].
  destruct (_ =? _) in E2; [|by injection E2 as <-]. unfold touch_lastSent in E2. apply sm_bind_Ok in E2 as (t & s3 & E3 & [= <-]).
  unfold MQTTTime_now, call_net in E3. cbn in E3. destruct (time_now _) as [t0 n0]. by injection E3 as _ <-.
Qed.

Lemma send_calls header buffer v s rc s' : (MQTTPacket_send header buffer v : M Z) s = Ok (rc, s') ->
  calls s' = calls s ++ [Offered (fixed_header header (Zlen buffer) ++ buffer) rc].
Proof.
  intros E. unfold MQTTPacket_send in E. apply sm_bind_Ok in E as ([] & s1 & E1 & E). apply sm_bind_Ok in E as ([[rc1 b] m] & s2 & E2 & [= <- <-]).
  apply put_frame_calls in E2. cbn [concat fst] in E2. rewrite app_nil_r in E2. rewrite E2. f_equal.
  destruct (_ =? _) in E1; [|by injection E1 as <-]. apply sm_bind_Ok in E1 as ([id r] & s3 & E3 & E1). apply sm_lift_Ok in E3 as [_ <-].
  apply sm_bind_Ok in E1 as (x & s4 & E4 & [= <-]). unfold put_record in E4. apply sm_bind_Ok in E4 as (s5 & s6 & [= <- <-] & E4).
  unfold call_persistence in E4. destruct (MQTTPersistence_putPacket _ _ _ _ _ _ _ _) as [? ?]. by injection E4 as _ <-.
Qed.

Lemma wp_send_made header buffer v s :
  hdr_type header <> PUBREL \/ (exists r, readInt buffer = Ok r) ->
  wp (MQTTPacket_send header buffer v) s (fun rc s' => made [Offered (fixed_header header (Zlen buffer) ++ buffer) rc] s s').
Proof.
  intros Hb. destruct (wp_send header buffer v s Hb) as (rc & s' & E & Hf). exists rc, s'. split; [exact E|]. split; [exact Hf|by eapply send_calls].
Qed.

(** The frame of a PUBLISH sent from a stored publication. *)
Definition publish_frame (pack : Publish) (dup qos retained : Z) : list Z :=
  match publish_buffers pack dup qos retained with
  | Ok (header, bufs) => fixed_header header (Zlen (concat bufs)) ++ concat bufs
  | _ => []
  end.

Lemma send_publish_calls pack dup qos retained s r s' : (MQTTPacket_send_publish pack dup qos retained : M _) s = Ok (r, s') ->
  calls s' = calls s ++ [Offered (publish_frame pack dup qos retained) (fst r)].
Proof.
  intros E. unfold MQTTPacket_send_publish in E. apply sm_bind_Ok in E as ([header bufs] & s1 & E1 & E). apply sm_lift_Ok in E1 as [E1 <-].
  unfold publish_frame. rewrite E1. apply sm_bind_Ok in E as ([[rc b] m] & s2 & E2 & [= <- <-]). unfold MQTTPacket_sends in E2.
  apply sm_bind_Ok in E2 as ([] & s3 & E3 & E2). apply put_frame_calls in E2. cbn [fst] in *. rewrite E2. f_equal.
  destruct (_ && _) in E3; [|by injection E3 as <-]. apply sm_bind_Ok in E3 as ([id rest] & s4 & E4 & E3). apply sm_lift_Ok in E4 as [_ <-].
  apply sm_bind_Ok in E3 as (x & s5 & E5 & [= <-]). unfold put_record in E5. apply sm_bind_Ok in E5 as (s6 & s7 & [= <- <-] & E5).
  unfold call_persistence in E5. destruct (MQTTPersistence_putPacket _ _ _ _ _ _ _ _) as [? ?]. by injection E5 as _ <-.
Qed.

Lemma wp_send_publish_made pack dup qos retained s :
  sendable pack -> 0 <= qos < 4 ->
  wp (MQTTPacket_send_publish pack dup qos retained) s (fun r s' =>
    sendable (snd r) /\ pub_payloadlen (snd r) = pub_payloadlen pack /\
    made [Offered (publish_frame pack dup qos retained) (fst r)] s s').
Proof.
  intros Hs Hq. destruct (wp_send_publish pack dup qos retained s Hs Hq) as (r & s' & E & Hf & Hs' & mask & bufs & Hm). exists r, s'.
  split; [exact E|]. split; [exact Hs'|]. split; [by rewrite Hm|]. split; [exact Hf|by eapply send_publish_calls].
Qed.

(** ** Retries *)

(** The packet a message in flight is sent again as. *)
Definition resend_frame (m : Messages) (pb : option Publications) : list Z :=
  match stage_of m with
  | AwaitPubcomp => let '(header, buf) := pubrel_packet (m_msgid m) 0 in fixed_header header (Zlen buf) ++ buf
  | _ => match pb with Some pb => publish_frame (retry_publish m pb) 1 (m_qos m) (m_retain m) | None => [] end
  end.

(** The codes that end the session: after a PUBREL every one but that of a whole write. *)
Definition fatal (m : Messages) (rc : Z) : bool :=
  match stage_of m with AwaitPubcomp => negb (rc =? TCPSOCKET_COMPLETE) | _ => rc =? SOCKET_ERROR end.

(** The message of index [i] has been offered again, with the code [rc]. *)
Record resent (i : nat) (m : Messages) (rc : Z) s s' : Prop := {
  rs_inv : inv s';
  rs_calls : calls s' = calls s ++ [Offered (resend_frame m (m_publish m ≫= fun p => heap s !! p)) rc];
  rs_outs : exists m', outs s' = <[i := m']> (outs s) /\ m_publish m' = m_publish m;
  rs_heap : forall q, Some q <> m_publish m -> heap s' !! q = heap s !! q;
  rs_client : connected (st_client s') = connected (st_client s) /\ good (st_client s') = good (st_client s)
}.
(** What a session given up looks like, after the calls [l]. *)
Definition given_up (l : list net_call) s s' : Prop :=
  inv s' /\ connected (st_client s') = 0 /\ the_socket s' <= 0 /\ exists more, calls s' = calls s ++ l ++ more.
Definition resend_post (i : nat) (m : Messages) s (b : bool) s' : Prop :=
  exists rc, if fatal m rc then b = false /\ given_up [Offered (resend_frame m (m_publish m ≫= fun p => heap s !! p)) rc] s s'
             else b = true /\ resent i m rc s s'.

Lemma wp_lose_client l s s1 : inv s1 -> calls s1 = calls s ++ l -> wp lose_client s1 (fun b s' => b = false /\ given_up l s s').
Proof.
  intros Hi Hc. unfold lose_client. apply wp_bind, wp_modify, wp_bind. set (s2 := set_client _ _).
  assert (inv s2) as Hi2 by (by eapply inv_core; [..|exact Hi]).
  eapply wp_mono; [by apply wp_give_up|]. intros [] s3 [He [more Hm]]. apply wp_ret. split; [done|].
  destruct He as (Hi3 & Hcn & _ & _ & Hsk & _). split; [done|]. split; [done|]. split; [done|].
  exists more. rewrite Hm. change (calls s2) with (calls s1). by rewrite Hc, app_assoc.
Qed.

Lemma wp_touch_resent i m rc s s1 :
  inv s1 -> outs s1 = outs s -> outs s !! i = Some m ->
  calls s1 = calls s ++ [Offered (resend_frame m (m_publish m ≫= fun p => heap s !! p)) rc] ->
  (forall q, Some q <> m_publish m -> heap s1 !! q = heap s !! q) ->
  connected (st_client s1) = connected (st_client s) /\ good (st_client s1) = good (st_client s) ->
  wp (touch_message i m) s1 (fun b s' => b = true /\ resent i m rc s s').
Proof.
  intros Hi1 Hos Hm Hw Hh Hc. pose proof Hm as Hm1. rewrite <- Hos in Hm1.
  destruct (wp_touch_message i m s1 Hi1 Hm1) as (b & s' & Hrun & Hi').
  exists b, s'. split; [exact Hrun|]. unfold touch_message, MQTTTime_now, call_net, mbind, sm_bind in Hrun.
  cbn in Hrun. destruct (time_now _) as [t n]. injection Hrun as <- <-. split; [done|]. split; try done.
  exists (touched m t (m_nextMessageType m)). rewrite <- Hos. done.
Qed.

(** What is decided once the packet has been offered. *)
Lemma wp_after_offer i m (lost : bool) rc s s1 :
  inv s1 -> outs s1 = outs s -> outs s !! i = Some m -> lost = fatal m rc ->
  calls s1 = calls s ++ [Offered (resend_frame m (m_publish m ≫= fun p => heap s !! p)) rc] ->
  (forall q, Some q <> m_publish m -> heap s1 !! q = heap s !! q) ->
  connected (st_client s1) = connected (st_client s) /\ good (st_client s1) = good (st_client s) ->
  wp (if lost then lose_client else touch_message i m) s1 (resend_post i m s).
Proof.
  intros Hi1 Hos Hm -> Hw Hh Hc. unfold resend_post. destruct (fatal m rc) eqn:Hf.
  - eapply wp_mono; [exact (wp_lose_client _ s s1 Hi1 Hw)|]. intros b s' H. exists rc. by rewrite Hf.
  - eapply wp_mono; [by apply (wp_touch_resent i m rc s)|]. intros b s' H. exists rc. by rewrite Hf.
Qed.

Lemma wp_offer_again now i m s :
  inv s -> outs s !! i = Some m -> wp (retry_message now true i m) s (resend_post i m s).
Proof.
  intros Hi Hm. pose proof (Forall_lookup_1 _ _ _ _ (inv_out _ Hi) Hm) as Hok.
  pose proof (stage_cases _ _ Hok) as Hc. unfold retry_message. apply wp_bind, wp_get.
  change (negb (due _ _ true _)) with false. cbv iota.
  destruct Hok as (_ & _ & (p & Hp & _) & _).
  assert (stage_of m <> AwaitPubcomp -> m_qos m = 1 \/ m_qos m = 2 ->
    wp (pb ← deref_pub p;
        '(rc, sent) ← MQTTPacket_send_publish (retry_publish m pb) 1 (m_qos m) (m_retain m);
        _ ← share_buffers p sent;
        if rc =? SOCKET_ERROR then lose_client else touch_message i m) s (resend_post i m s)) as Hpub.
  { intros Hst Hq. destruct (stored_sendable s i m p Hi Hm Hp) as (pb & Hpb & Hs & _).
    apply wp_bind. eapply wp_run; [by apply deref_pub_run|]. apply wp_bind.
    eapply wp_mono; [apply wp_send_publish_made; [done | lia]|]. intros [rc sent] s1 (Hs1 & Hpl & Hw).
    cbn [fst snd] in *. destruct (frame_lists _ _ (md_frame _ _ _ Hw)) as (Ho1 & _ & _ & Hh1 & _).
    pose proof (frame_inv _ _ (md_frame _ _ _ Hw) Hi) as Hi1.
    apply wp_bind. destruct (wp_share_buffers p sent pb s1) as ([] & s2 & Hrun & Hi2 & Ho2 & _ & _ & _ & _ & pb' & Hh2);
      [done | by rewrite Hh1 | apply Hs1 | rewrite (sd_len _ Hs1); exact Hpl|].
    exists (), s2. split; [exact Hrun|].
    unfold share_buffers in Hrun. rewrite (sm_bind_run _ _ _ pb s1) in Hrun by (apply deref_pub_run; exact (eq_trans (f_equal (lookup p) Hh1) Hpb)).
    injection Hrun as Hrun.
    apply (wp_after_offer i m _ rc s s2); try done.
    - by rewrite Ho2.
    - unfold fatal. by destruct (stage_of m).
    - rewrite <- Hrun. transitivity (calls s1); [done|]. rewrite (md_calls _ _ _ Hw), Hp. cbn. rewrite Hpb. unfold resend_frame.
      by destruct (stage_of m).
    - intros q Hq'. rewrite Hh2, lookup_insert_ne by congruence. by rewrite Hh1.
    - rewrite <- Hrun. apply (made_state _ _ _ Hw). }
  destruct (stage_of m) eqn:Hst.
  - rewrite Hc, Hp. simpl. rewrite Hc in Hpub. by apply Hpub; [|left].
  - destruct Hc as [Hc Hn]. rewrite Hc, Hn, Hp. rewrite Hc in Hpub. simpl. by apply Hpub; [|right].
  - destruct Hc as [Hc Hn]. rewrite Hc, Hn. cbn [Z.eqb orb andb negb bool_decide]. apply wp_bind.
    eapply wp_mono; [apply wp_send_made; right; by eexists|]. intros rc s1 Hw.
    destruct (frame_lists _ _ (md_frame _ _ _ Hw)) as (Ho1 & _ & _ & Hh1 & _).
    apply (wp_after_offer i m _ rc s s1); try done.
    + exact (frame_inv _ _ (md_frame _ _ _ Hw) Hi).
    + unfold fatal. by rewrite Hst.
    + rewrite (md_calls _ _ _ Hw). unfold resend_frame. rewrite Hst. done.
    + intros q _. by rewrite Hh1.
    + apply (made_state _ _ _ Hw).
Qed.

(** The frames of messages, with the publications they point to. *)
Definition resend_frames (h : gmap positive Publications) (l : list Messages) : list (list Z) :=
  resolve resend_frame h l.

Lemma distinct_refs s i m :
  inv s -> outs s !! i = Some m ->
  forall p, p ∈ omap m_publish (drop (S i) (outs s)) -> Some p <> m_publish m.
Proof.
  intros Hi Hm p Hp Heq. pose proof (si_nodup _ _ (inv_store _ Hi)) as Hn. unfold refs in Hn.
  rewrite <- (take_drop_middle _ _ _ Hm), omap_app in Hn. simpl in Hn. rewrite <- Heq in Hn.
  apply NoDup_app in Hn as (Hn & _ & _). apply NoDup_app in Hn as (_ & _ & Hn).
  by apply NoDup_cons in Hn as [Hn _].
Qed.

(** Packets offered one after the other, each after the answer that no write is pending:
    until all of them are written or pending, one is pending when the next is due, or one
    has failed. *)
Inductive resend_end := AllOffered | WritePending | SessionLost.
Inductive resends (h : gmap positive Publications) : list Messages -> list net_call -> resend_end -> Prop :=
| resends_all : resends h [] [] AllOffered
| resends_wait m l : resends h (m :: l) [Asked false] WritePending
| resends_lost m l rc : fatal m rc = true ->
    resends h (m :: l) [Asked true; Offered (resend_frame m (m_publish m ≫= fun p => h !! p)) rc] SessionLost
| resends_next m l rc tr o : fatal m rc = false -> resends h l tr o ->
    resends h (m :: l) (Asked true :: Offered (resend_frame m (m_publish m ≫= fun p => h !! p)) rc :: tr) o.

Lemma resends_heap h h' l tr o : (forall p, p ∈ omap m_publish l -> h' !! p = h !! p) -> resends h' l tr o -> resends h l tr o.
Proof.
  intros Hh H.
  induction H as [|m l|m l rc Hf|m l rc tr o Hf H IH]; [constructor|constructor| |].
  - replace (m_publish m ≫= fun p => h' !! p) with (m_publish m ≫= fun p => h !! p); [by constructor|].
    destruct (m_publish m) as [p|] eqn:E; [|done]. cbn. symmetry. apply Hh. cbn. rewrite E. by left.
  - replace (m_publish m ≫= fun p => h' !! p) with (m_publish m ≫= fun p => h !! p).
    + constructor; [done|]. apply IH. intros p Hp. apply Hh. cbn. destruct (m_publish m); [by right|done].
    + destruct (m_publish m) as [p|] eqn:E; [|done]. cbn. symmetry. apply Hh. cbn. rewrite E. by left.
Qed.

(** What the messages [l] became. *)
Definition retried (l : list Messages) s s' : Prop :=
  exists tr o, resends (heap s) l tr o /\
    match o with
    | SessionLost => given_up tr s s'
    | _ => inv s' /\ calls s' = calls s ++ tr /\ connected (st_client s') <> 0 /\ good (st_client s') <> 0
    end.

Lemma wp_retries_loop now n i s :
  inv s -> connected (st_client s) <> 0 -> good (st_client s) <> 0 -> (i + n = List.length (outs s))%nat ->
  wp (retries_loop n i now true) s (fun _ s' => retried (drop i (outs s)) s s').
Proof.
  revert i s. induction n as [|n IH]; intros i s Hi Hc Hg Hlen; cbn [retries_loop].
  { apply wp_ret. rewrite drop_ge by lia. exists [], AllOffered. split; [constructor|]. by rewrite app_nil_r. }
  apply wp_bind, wp_get. destruct (lookup_lt_is_Some_2 (outs s) i) as [m Hm]; [lia|].
  change (AList.items (outboundMsgs (st_client s))) with (outs s). rewrite Hm, (drop_S _ _ _ Hm).
  destruct (Z.eqb_spec (connected (st_client s)) 0); [done|]. destruct (Z.eqb_spec (good (st_client s)) 0); [done|].
  cbn [orb]. apply wp_bind. eapply wp_mono; [apply wp_ask|]. intros b s1 Hw1. destruct (made_state _ _ _ Hw1) as [Hc1 Hg1].
  pose proof (frame_inv _ _ (md_frame _ _ _ Hw1) Hi) as Hi1. destruct (frame_lists _ _ (md_frame _ _ _ Hw1)) as (Ho1 & _ & _ & Hh1 & _).
  destruct b; cbn [negb].
  2: { apply wp_ret. exists [Asked false], WritePending. split; [constructor|]. split; [done|]. split; [apply Hw1|]. by rewrite Hc1, Hg1. }
  apply wp_bind. eapply wp_mono; [by apply (wp_offer_again now i m s1 Hi1); rewrite Ho1|]. intros b s2 [rc H]. rewrite Hh1 in H.
  destruct (fatal m rc) eqn:Hf; destruct H as [-> H].
  - apply wp_ret. destruct H as (H1 & H2 & H3 & more & H4). eexists _, SessionLost. split; [by constructor|]. split; [done|]. split; [done|]. split; [done|].
    exists more. rewrite H4, (md_calls _ _ _ Hw1). by rewrite <- app_assoc.
  - destruct H as [Hi2 Hw2 (m' & Hos2 & Hp') Hh2 [Hc2 Hg2]]. rewrite Ho1, Hh1 in *.
    eapply wp_mono; [apply IH; [done|congruence|congruence|rewrite Hos2, length_insert; lia]|].
    intros [] s3 (tr & o & Hr & H). rewrite Hos2, drop_insert_lt in Hr by lia.
    exists (Asked true :: Offered (resend_frame m (m_publish m ≫= fun p => heap s !! p)) rc :: tr), o.
    assert (forall l, calls s2 ++ l = calls s ++ Asked true :: Offered (resend_frame m (m_publish m ≫= fun p => heap s !! p)) rc :: l) as Hcalls
      by (intros l; rewrite Hw2, (md_calls _ _ _ Hw1); by rewrite <- !app_assoc).
    split.
    + apply resends_next; [done|]. eapply resends_heap; [|exact Hr]. intros q Hq. apply Hh2. exact (distinct_refs s i m Hi Hm q Hq).
    + destruct o.
      * destruct H as (H1 & H2 & H3). split; [done|]. split; [by rewrite H2, Hcalls|done].
      * destruct H as (H1 & H2 & H3). split; [done|]. split; [by rewrite H2, Hcalls|done].
      * destruct H as (H1 & H2 & H3 & more & H4). split; [done|]. split; [done|]. split; [done|]. exists more. rewrite H4, Hcalls. done.
Qed.

(** C17. Redelivery.  When a client reconnects, over any connection and whatever becomes of
    the writes: unless a write is pending, the messages in flight are offered to the
    connection again, each once, in the order of the exchanges and each after the
    answer that no write is pending, as a PUBLISH with the DUP flag while it waits for
    PUBACK or PUBREC, as a PUBREL while it waits for PUBCOMP.  This goes on to the last
    of them, unless a write stays pending, where it stops, or fails - a PUBREL also when
    it is not written at once - where the session is ended. *)
Theorem reconnect_resends (now : Z) (s : St P (Logged N)) :
  inv s -> connected (st_client s) <> 0 -> good (st_client s) <> 0 ->
  wp (MQTTProtocol_retry now true true) s (fun _ s' =>
    exists s1 (ready : bool), calls s1 = calls s ++ [Asked ready] /\ heap s1 = heap s /\ outs s1 = outs s /\
      if ready then retried (outs s) s1 s' else s' = s1).
Proof.
  intros Hi Hc Hg. unfold MQTTProtocol_retry. apply wp_bind, wp_get.
  destruct (Z.eqb_spec (connected (st_client s)) 0); [done|]. destruct (Z.eqb_spec (good (st_client s)) 0); [done|].
  apply wp_bind. eapply wp_mono; [apply wp_ask|]. intros b s1 Hw. destruct (made_state _ _ _ Hw) as [Hc1 Hg1].
  destruct (frame_lists _ _ (md_frame _ _ _ Hw)) as (Ho1 & _ & _ & Hh1 & _).
  destruct b; cbn [negb]; [|apply wp_ret; exists s1, false; split; [apply Hw|done]].
  unfold MQTTProtocol_retries. apply wp_bind, wp_get. cbn [negb andb].
  eapply wp_mono; [apply wp_retries_loop; [exact (frame_inv _ _ (md_frame _ _ _ Hw) Hi)|congruence|congruence|done]|].
  intros [] s2 H. exists s1, true. split; [apply Hw|]. split; [done|]. split; [done|]. by rewrite drop_0, Ho1 in H.
Qed.

(** ** Keep alive *)

Definition PINGREQ_frame : list Z := [192; 0].

(** Whether nothing has been sent, or nothing received, for the keep alive interval. *)
Definition idle (now : Z) (c : Clients) : bool :=
  (keepAliveInterval c * 1000 <=? MQTTTime_difftime now (net_lastSent (net c)))
  || (keepAliveInterval c * 1000 <=? MQTTTime_difftime now (net_lastReceived (net c))).


End Retry.

(** *** Witnesses *)

(** A session over a connection that takes what it is given, or of which the writes have
    the results [results]. *)
Definition logged_state (results : list Z) : St MemStore (Logged ScriptNet) :=
  mkSt (st_client sent_state) (st_phandle sent_state) (st_pubs sent_state) [] (mkLogged (mkScript results [] [] 0 1000) []) 0 0.
Lemma logged_state_inv results : inv (logged_state results).
Proof. destruct sent_state_inv as [H1 H2 H3 H4 H5 H6]. by split. Qed.

Lemma reconnect_resends_witness :
  (inv (logged_state []) /\ connected (st_client (logged_state [])) <> 0 /\ good (st_client (logged_state [])) <> 0) /\
  wp (MQTTProtocol_retry 0 true true) (logged_state []) (fun _ s' =>
    exists s1 (ready : bool), calls s1 = calls (logged_state []) ++ [Asked ready] /\ heap s1 = heap (logged_state []) /\
      outs s1 = outs (logged_state []) /\ if ready then retried (outs (logged_state [])) s1 s' else s' = s1).
Proof.
  assert (connected (st_client (logged_state [])) <> 0 /\ good (st_client (logged_state [])) <> 0) as [H1 H2] by (split; discriminate).
  split; [exact (conj (logged_state_inv []) (conj H1 H2))|].
  exact (reconnect_resends 0 (logged_state []) (logged_state_inv []) H1 H2).
Defined.

(** The calls of this reconnection, and those when the write fails: a DISCONNECT is tried. *)
Example reconnect_calls :
  (fun r => match r with Ok (_, s') => calls s' | _ => [] end) (MQTTProtocol_retry 0 true true (logged_state [])) =
    [Asked true; Asked true; Offered [60; 7; 0; 1; 116; 0; 7; 104; 105] TCPSOCKET_COMPLETE] /\
  (fun r => match r with Ok (_, s') => calls s' | _ => [] end) (MQTTProtocol_retry 0 true true (logged_state [SOCKET_ERROR])) =
    [Asked true; Asked true; Offered [60; 7; 0; 1; 116; 0; 7; 104; 105] SOCKET_ERROR; Offered [224; 0] TCPSOCKET_COMPLETE].
Proof. split; vm_compute; reflexivity. Qed.


End Retry.
