(* ===== verification/Base64.v ===== *)
(** * Base64 ([src/src/Base64.c], the implementation without OpenSSL)

    The encoder and the decoder against RFC 4648: what is written to the buffer the
    caller gives, the lengths announced for it, and the round trip. *)

From S2P Require Import Prelude.
From Stdlib Require Import ZArith Lia List Ascii String.
From stdpp Require Import base numbers list.

Open Scope Z_scope.

Module Base64.

(** The bytes of a string constant. *)
Definition chars (s : string) : list Z := map (fun a => Z.of_nat (nat_of_ascii a)) (list_ascii_of_string s).

(** ** Definitions *)

Definition NV : Z := 64.

(** [BASE64_DECODE_TABLE], by its runs: the digits are at 43, 47, 48-57, 65-90 and
    97-122. *)
Definition BASE64_DECODE_TABLE : list Z :=
  replicate 43 NV ++ [62; NV; NV; NV; 63] ++ seqZ 52 10 ++ replicate 7 NV ++
  seqZ 0 26 ++ replicate 6 NV ++ seqZ 26 26 ++ replicate 133 NV.

(** [BASE64_DECODE_TABLE[(int)( *in)]], where [in] points to signed characters. *)
Definition decode_digit (c : Z) : res Z :=
  if schar c <? 0 then Oob else Ok (nth (Z.to_nat c) BASE64_DECODE_TABLE NV).

Fixpoint decode_loop (inp out : list Z) (out_len : Z) : res (list Z) :=
  match inp with
  | i0 :: i1 :: i2 :: i3 :: rest =>
      if Zlen out <? out_len then
        c0 ← decode_digit i0; c1 ← decode_digit i1; c2 ← decode_digit i2; c3 ← decode_digit i3;
        let out := out ++ [Z.lor (to_byte (Z.shiftl c0 2)) (Z.shiftr (Z.land c1 (Z.lnot 15)) 4)] in
        if Zlen out <? out_len then
          if c2 <? NV then
            let out := out ++ [Z.lor (to_byte (Z.shiftl (Z.land c1 15) 4)) (Z.shiftr (Z.land c2 (Z.lnot 3)) 2)] in
            if Zlen out <? out_len then
              if c3 <? NV then decode_loop rest (out ++ [Z.lor (to_byte (Z.shiftl (Z.land c2 3) 6)) c3]) out_len
              else Ok out
            else decode_loop rest out out_len
          else Ok out
        else decode_loop rest out out_len
      else Ok out
  | _ => Ok out
  end.

(** [Base64_decode]: the count returned, and what has been written to [out], with the
    terminator if there is room for one. *)
Definition Base64_decode (out_len : Z) (inp : list Z) : res (Z * list Z) :=
  out ← decode_loop inp [] out_len;
  Ok (Zlen out, out ++ (if Zlen out <? out_len then [0] else [])).

Definition BASE64_ENCODE_TABLE : list Z :=
  chars "ABCDEFGHIJKLMNOPQRSTUVWXYZabcdefghijklmnopqrstuvwxyz0123456789+/=".

Definition encode_digit (c : Z) : Z := nth (Z.to_nat c) BASE64_ENCODE_TABLE 0.

(** The four indices for the bytes left: 64 is the one of the padding. *)
Definition quad (a : Z) (b c : option Z) : list Z :=
  let c0 := Z.shiftr (Z.land a (Z.lnot 3)) 2 in
  let c1 := Z.shiftl (Z.land a 3) 4 in
  match b with
  | None => [c0; c1; 64; 64]
  | Some b =>
      let c1 := Z.lor c1 (Z.shiftr (Z.land b (Z.lnot 15)) 4) in
      let c2 := Z.shiftl (Z.land b 15) 2 in
      match c with
      | None => [c0; c1; c2; 64]
      | Some c => [c0; c1; Z.lor c2 (Z.shiftr (Z.land c (Z.lnot 63)) 6); Z.land c 63]
      end
  end.

(** "encode the characters": the count, and the characters when they fit. *)
Definition emit (cs : list Z) (out_count : Z) (out : list Z) (out_len : Z) : Z * list Z :=
  let out_count := to_u32 (out_count + 4) in
  (out_count, if out_count <=? out_len then out ++ map encode_digit cs else out).

Fixpoint encode_loop (inp : list Z) (out_count : Z) (out : list Z) (out_len : Z) : Z * list Z :=
  if out_count <? out_len then
    match inp with
    | [] => (out_count, out)
    | [a] => emit (quad a None None) out_count out out_len
    | [a; b] => emit (quad a (Some b) None) out_count out out_len
    | a :: b :: c :: rest =>
        let '(out_count, out) := emit (quad a (Some b) (Some c)) out_count out out_len in
        encode_loop rest out_count out out_len
    end
  else (out_count, out).

(** [Base64_encode] *)
Definition Base64_encode (out_len : Z) (inp : list Z) : Z * list Z :=
  let '(out_count, out) := encode_loop inp 0 [] out_len in
  if out_count <=? out_len then (out_count, out ++ (if out_count <? out_len then [0] else []))
  else (0, out).

Definition is_pad (c : option Z) : Z := if bool_decide (c = Some 61) then 1 else 0.

(** [Base64_decodeLength] and [Base64_encodeLength], in [unsigned int]. *)
Definition Base64_decodeLength (inp : list Z) : Z :=
  let in_len := Zlen inp in
  let pad := (if 1 <? in_len then is_pad (inp !! Z.to_nat (in_len - 2)) else 0) in
  let pad := pad + (if 0 <? in_len then is_pad (inp !! Z.to_nat (in_len - 1)) else 0) in
  to_u32 (in_len / 4 * 3 - pad).
Definition Base64_encodeLength (in_len : Z) : Z :=
  Z.land (to_u32 (to_u32 (4 * in_len) / 3 + 3)) (to_u32 (Z.lnot 3)).

Example Base64_paho :
  Base64_encode 29 (chars "paho with websocket") = (28, chars "cGFobyB3aXRoIHdlYnNvY2tldA==" ++ [0]).
Proof. reflexivity. Qed.

(** ** The specification: RFC 4648, section 4 *)

Definition quantum (n : Z) : list Z :=
  map encode_digit [n / 262144; n / 4096 mod 64; n / 64 mod 64; n mod 64].

Fixpoint rfc4648 (l : list Z) : list Z :=
  match l with
  | [] => []
  | [a] => take 2 (quantum (a * 65536)) ++ chars "=="
  | [a; b] => take 3 (quantum (a * 65536 + b * 256)) ++ chars "="
  | a :: b :: c :: r => quantum (a * 65536 + b * 256 + c) ++ rfc4648 r
  end.

(** Induction by groups of three bytes. *)
Lemma by_three (Q : list Z -> Prop) :
  Q [] -> (forall a, Q [a]) -> (forall a b, Q [a; b]) -> (forall a b c r, Q r -> Q (a :: b :: c :: r)) ->
  forall l, Q l.
Proof.
  intros H0 H1 H2 H3.
  fix IH 1. intros [|a [|b [|c r]]]; [exact H0|apply H1|apply H2|apply H3, IH].
Qed.

Lemma digits_spec a b : byte_ok a -> byte_ok b ->
  Z.shiftr (Z.land a (Z.lnot 3)) 2 = a / 4 /\
  Z.shiftl (Z.land a 3) 4 = a mod 4 * 16 /\ Z.shiftl (Z.land a 15) 2 = a mod 16 * 4 /\ Z.land a 63 = a mod 64 /\
  Z.lor (Z.shiftl (Z.land a 3) 4) (Z.shiftr (Z.land b (Z.lnot 15)) 4) = a mod 4 * 16 + b / 16 /\
  Z.lor (Z.shiftl (Z.land a 15) 2) (Z.shiftr (Z.land b (Z.lnot 63)) 6) = a mod 16 * 4 + b / 64.
Proof.
  intros Ha Hb.
  assert (forallb (fun a => forallb (fun b => bool_decide (
    Z.shiftr (Z.land a (Z.lnot 3)) 2 = a / 4 /\
    Z.shiftl (Z.land a 3) 4 = a mod 4 * 16 /\ Z.shiftl (Z.land a 15) 2 = a mod 16 * 4 /\ Z.land a 63 = a mod 64 /\
    Z.lor (Z.shiftl (Z.land a 3) 4) (Z.shiftr (Z.land b (Z.lnot 15)) 4) = a mod 4 * 16 + b / 16 /\
    Z.lor (Z.shiftl (Z.land a 15) 2) (Z.shiftr (Z.land b (Z.lnot 63)) 6) = a mod 16 * 4 + b / 64))
    (seqZ 0 256)) (seqZ 0 256) = true) as H by (vm_compute; reflexivity).
  pose proof (byte_forall _ (byte_forall _ H a Ha) b Hb) as E. cbv beta in E.
  by apply bool_decide_eq_true_1 in E.
Qed.

(** The digits of a number of 24 bits given by its bytes. *)
Lemma sextets a b c : byte_ok a -> byte_ok b -> byte_ok c ->
  let n := a * 65536 + b * 256 + c in
  n / 262144 = a / 4 /\ n / 4096 mod 64 = a mod 4 * 16 + b / 16 /\
  n / 64 mod 64 = b mod 16 * 4 + c / 64 /\ n mod 64 = c mod 64.
Proof.
  unfold byte_ok. intros Ha Hb Hc.
  assert (a = 4 * (a / 4) + a mod 4 /\ 0 <= a mod 4 < 4) as [Ea ?] by dlia.
  assert (b = 16 * (b / 16) + b mod 16 /\ 0 <= b mod 16 < 16) as [Eb ?] by dlia.
  assert (c = 64 * (c / 64) + c mod 64 /\ 0 <= c mod 64 < 64) as [Ec ?] by dlia.
  set (a1 := a / 4) in *. set (a0 := a mod 4) in *. set (b1 := b / 16) in *. set (b0 := b mod 16) in *.
  set (c1 := c / 64) in *. set (c0 := c mod 64) in *. clearbody a1 a0 b1 b0 c1 c0. subst a b c.
  set (x := a0 * 16 + b1). set (y := b0 * 4 + c1).
  replace ((4 * a1 + a0) * 65536 + (16 * b1 + b0) * 256 + (64 * c1 + c0))
    with (a1 * 262144 + x * 4096 + y * 64 + c0) by (unfold x, y; lia).
  assert (0 <= x < 64 /\ 0 <= y < 64) as [Hx Hy] by (unfold x, y; lia). clearbody x y. clear Hb Hc.
  repeat split.
  - dlia.
  - replace ((a1 * 262144 + x * 4096 + y * 64 + c0) / 4096) with (a1 * 64 + x) by dlia. dlia.
  - replace ((a1 * 262144 + x * 4096 + y * 64 + c0) / 64) with ((a1 * 64 + x) * 64 + y) by dlia. dlia.
  - dlia.
Qed.

Lemma quad_spec a b c : byte_ok a -> byte_ok b -> byte_ok c ->
  map encode_digit (quad a (Some b) (Some c)) = quantum (a * 65536 + b * 256 + c) /\
  map encode_digit (quad a (Some b) None) = take 3 (quantum (a * 65536 + b * 256)) ++ chars "=" /\
  map encode_digit (quad a None None) = take 2 (quantum (a * 65536)) ++ chars "==".
Proof.
  intros Ha Hb Hc. assert (byte_ok 0) as H0 by done. unfold quad, quantum.
  destruct (digits_spec a b Ha Hb) as (-> & E1 & _ & _ & -> & _).
  destruct (digits_spec b c Hb Hc) as (_ & _ & E2 & _ & _ & ->).
  destruct (digits_spec c c Hc Hc) as (_ & _ & _ & -> & _ & _).
  rewrite E1, E2.
  change (chars "=") with [encode_digit 64]. change (chars "==") with [encode_digit 64; encode_digit 64].
  split; [|split]; cbn [map take app].
  - by destruct (sextets a b c Ha Hb Hc) as (-> & -> & -> & ->).
  - replace (a * 65536 + b * 256) with (a * 65536 + b * 256 + 0) by lia.
    destruct (sextets a b 0 Ha Hb H0) as (-> & -> & -> & _). by rewrite Z.add_0_r.
  - replace (a * 65536) with (a * 65536 + 0 * 256 + 0) by lia.
    destruct (sextets a 0 0 Ha H0 H0) as (-> & -> & _). by rewrite Z.add_0_r.
Qed.

Lemma Zlen_quantum n : Zlen (quantum n) = 4.
Proof. reflexivity. Qed.

Lemma rfc4648_Zlen l : Zlen (rfc4648 l) = (Zlen l + 2) / 3 * 4.
Proof.
  induction l as [|a|a b|a b c r IH] using by_three; try reflexivity.
  cbn [rfc4648]. rewrite Zlen_app, IH, Zlen_quantum, !Zlen_cons. dlia.
Qed.

(** ** Encoding *)

(** The last group, of one or two bytes. *)
Lemma emit_last cs q out out_len :
  map encode_digit cs = q -> Zlen q = 4 -> Zlen out + 4 < 4294967296 -> Zlen out <= out_len ->
  (if Zlen out <? out_len then emit cs (Zlen out) out out_len else (Zlen out, out)) =
  if Zlen out + Zlen q <=? out_len then (Zlen out + Zlen q, out ++ q)
  else (Zlen out + (out_len - Zlen out + 3) / 4 * 4, out ++ take (Z.to_nat ((out_len - Zlen out) / 4 * 4)) q).
Proof.
  intros Hq Hlen Hs Hle. unfold emit. rewrite Hq, Hlen. pose proof (Zlen_nonneg out).
  unfold to_u32. rewrite Z.mod_small by lia.
  destruct (Z.leb_spec (Zlen out + 4) out_len).
  - by destruct (Z.ltb_spec (Zlen out) out_len); [|lia].
  - replace ((out_len - Zlen out) / 4 * 4) with 0 by dlia. cbn [Z.to_nat take]. rewrite app_nil_r.
    destruct (Z.ltb_spec (Zlen out) out_len); f_equal; dlia.
Qed.

(** What [encode_loop] does from a state in which everything fitted so far. *)
Lemma encode_loop_spec l out out_len :
  bytes_ok l -> out_len < 4294967296 -> Zlen out + Zlen (rfc4648 l) + 4 < 4294967296 -> Zlen out <= out_len ->
  encode_loop l (Zlen out) out out_len =
  if Zlen out + Zlen (rfc4648 l) <=? out_len then (Zlen out + Zlen (rfc4648 l), out ++ rfc4648 l)
  else (Zlen out + (out_len - Zlen out + 3) / 4 * 4,
        out ++ take (Z.to_nat ((out_len - Zlen out) / 4 * 4)) (rfc4648 l)).
Proof.
  intros Hl Ho. revert out Hl. induction l as [|a|a b|a b c r IH] using by_three; intros out Hl Hs Hle;
    pose proof (Zlen_nonneg out).
  - cbn [encode_loop rfc4648]. rewrite app_nil_r, Zlen_nil, Z.add_0_r.
    destruct (Z.leb_spec (Zlen out) out_len); [|lia]. by destruct (_ <? _).
  - apply Forall_cons in Hl as [Ha _]. destruct (quad_spec a a a Ha Ha Ha) as (_ & _ & E).
    change (Zlen (rfc4648 [a])) with 4 in Hs. apply (emit_last _ (rfc4648 [a]) _ _ E); (done || lia).
  - apply Forall_cons in Hl as [Ha Hl]. apply Forall_cons in Hl as [Hb _].
    destruct (quad_spec a b a Ha Hb Ha) as (_ & E & _).
    change (Zlen (rfc4648 [a; b])) with 4 in Hs. apply (emit_last _ (rfc4648 [a; b]) _ _ E); (done || lia).
  - apply Forall_cons in Hl as [Ha Hl]. apply Forall_cons in Hl as [Hb Hl]. apply Forall_cons in Hl as [Hc Hl].
    destruct (quad_spec a b c Ha Hb Hc) as (E & _ & _).
    change (rfc4648 (a :: b :: c :: r)) with (quantum (a * 65536 + b * 256 + c) ++ rfc4648 r) in *.
    rewrite Zlen_app, Zlen_quantum in *. pose proof (Zlen_nonneg (rfc4648 r)).
    cbn [encode_loop]. unfold emit. rewrite E. unfold to_u32. rewrite Z.mod_small by lia.
    set (q := quantum _) in *.
    assert (Zlen (out ++ q) = Zlen out + 4) as Eq by (by rewrite Zlen_app).
    destruct (Z.ltb_spec (Zlen out) out_len).
    + destruct (Z.leb_spec (Zlen out + 4) out_len).
      * rewrite <- Eq. rewrite IH by (rewrite ?Eq; (done || lia)). rewrite Eq.
        replace (Zlen out + 4 + Zlen (rfc4648 r)) with (Zlen out + (4 + Zlen (rfc4648 r))) by lia.
        destruct (_ <=? _); rewrite <- app_assoc; f_equal; [dlia|]. f_equal.
        replace (Z.to_nat ((out_len - Zlen out) / 4 * 4))
          with (4 + Z.to_nat ((out_len - (Zlen out + 4)) / 4 * 4))%nat by dlia.
        done.
      * destruct (Z.leb_spec (Zlen out + (4 + Zlen (rfc4648 r))) out_len); [lia|].
        replace ((out_len - Zlen out) / 4 * 4) with 0 by dlia. cbn [Z.to_nat take]. rewrite app_nil_r.
        replace (Zlen out + (out_len - Zlen out + 3) / 4 * 4) with (Zlen out + 4) by dlia.
        destruct r as [|? [|? [|]]]; cbn [encode_loop]; by destruct (Z.ltb_spec (Zlen out + 4) out_len); [lia|].
    + destruct (Z.leb_spec (Zlen out + (4 + Zlen (rfc4648 r))) out_len); [lia|].
      replace ((out_len - Zlen out) / 4 * 4) with 0 by dlia. cbn [Z.to_nat take]. rewrite app_nil_r. f_equal. dlia.
Qed.

(** ** Decoding *)

Lemma decode_encode_digit d : 0 <= d < 64 -> decode_digit (encode_digit d) = Ok d.
Proof.
  intros Hd.
  assert (forallb (fun d => if d <? 64 then bool_decide (decode_digit (encode_digit d) = Ok d) else true)
            (seqZ 0 256) = true) as H by (vm_compute; reflexivity).
  pose proof (byte_forall _ H d) as E. cbv beta in E.
  destruct (Z.ltb_spec d 64); [|lia]. unfold byte_ok in E. apply (bool_decide_eq_true_1 _ (E ltac:(lia))).
Qed.

(** The bytes the decoder makes of four digits. *)
Lemma decode_bytes a b c : byte_ok a -> byte_ok b -> byte_ok c ->
  Z.lor (to_byte (Z.shiftl (a / 4) 2)) (Z.shiftr (Z.land (a mod 4 * 16 + b / 16) (Z.lnot 15)) 4) = a /\
  Z.lor (to_byte (Z.shiftl (Z.land (a mod 4 * 16 + b / 16) 15) 4))
        (Z.shiftr (Z.land (b mod 16 * 4 + c / 64) (Z.lnot 3)) 2) = b /\
  Z.lor (to_byte (Z.shiftl (Z.land (b mod 16 * 4 + c / 64) 3) 6)) (c mod 64) = c.
Proof.
  intros Ha Hb Hc.
  assert (forallb (fun a => forallb (fun b => bool_decide (
    Z.lor (to_byte (Z.shiftl (a / 4) 2)) (Z.shiftr (Z.land (a mod 4 * 16 + b / 16) (Z.lnot 15)) 4) = a))
    (seqZ 0 256)) (seqZ 0 256) = true) as H1 by (vm_compute; reflexivity).
  assert (forallb (fun b => forallb (fun h => bool_decide (
    Z.lor (to_byte (Z.shiftl (Z.land (h / 64 * 16 + b / 16) 15) 4))
        (Z.shiftr (Z.land (b mod 16 * 4 + h mod 64 / 16) (Z.lnot 3)) 2) = b))
    (seqZ 0 256)) (seqZ 0 256) = true) as H2 by (vm_compute; reflexivity).
  assert (forallb (fun b => forallb (fun c => bool_decide (
    Z.lor (to_byte (Z.shiftl (Z.land (b mod 16 * 4 + c / 64) 3) 6)) (c mod 64) = c))
    (seqZ 0 256)) (seqZ 0 256) = true) as H3 by (vm_compute; reflexivity).
  split; [|split].
  - pose proof (byte_forall _ (byte_forall _ H1 a Ha) b Hb) as E. cbv beta in E. by apply bool_decide_eq_true_1 in E.
  - assert (byte_ok (a mod 4 * 64 + c / 64 * 16)) as Hh by (clear - Ha Hc; unfold byte_ok in *; dlia).
    pose proof (byte_forall _ (byte_forall _ H2 b Hb) _ Hh) as E. cbv beta in E. apply bool_decide_eq_true_1 in E.
    unfold byte_ok in *.
    replace ((a mod 4 * 64 + c / 64 * 16) / 64) with (a mod 4) in E by (clear - Hc; dlia).
    replace ((a mod 4 * 64 + c / 64 * 16) mod 64 / 16) with (c / 64) in E; [done|].
    clear - Hc. pose proof (Z.mod_pos_bound a 4). assert (0 <= c / 64 < 4) as Hk by dlia. clear Hc.
    set (x := a mod 4) in *. set (k := c / 64) in *. clearbody x k.
    replace ((x * 64 + k * 16) mod 64) with (k * 16) by dlia. by rewrite Z.div_mul.
  - pose proof (byte_forall _ (byte_forall _ H3 b Hb) c Hc) as E. cbv beta in E. by apply bool_decide_eq_true_1 in E.
Qed.

(** The digits of three bytes, for the decoder. *)
Lemma quantum_digits a b c : byte_ok a -> byte_ok b -> byte_ok c ->
  quantum (a * 65536 + b * 256 + c) =
  map encode_digit [a / 4; a mod 4 * 16 + b / 16; b mod 16 * 4 + c / 64; c mod 64] /\
  (0 <= a / 4 < 64 /\ 0 <= a mod 4 * 16 + b / 16 < 64 /\ 0 <= b mod 16 * 4 + c / 64 < 64 /\ 0 <= c mod 64 < 64).
Proof.
  intros Ha Hb Hc. unfold quantum.
  destruct (sextets a b c Ha Hb Hc) as (-> & -> & -> & ->). unfold byte_ok in *. split; [done|]. repeat split; dlia.
Qed.

Lemma decode_loop_spec l out out_len :
  bytes_ok l -> Zlen out + Zlen l <= out_len ->
  decode_loop (rfc4648 l) out out_len = Ok (out ++ l).
Proof.
  intros Hl. revert out. induction l as [|a|a b|a b c r IH] using by_three; intros out Hle;
    rewrite ?Zlen_cons, ?Zlen_nil in Hle.
  - cbn. by rewrite app_nil_r.
  - apply Forall_cons in Hl as [Ha _]. assert (byte_ok 0) as H0 by done.
    destruct (quantum_digits a 0 0 Ha H0 H0) as (E & R0 & R1 & _).
    destruct (decode_bytes a 0 0 Ha H0 H0) as (D & _).
    change (rfc4648 [a]) with (take 2 (quantum (a * 65536)) ++ [encode_digit 64; encode_digit 64]).
    replace (a * 65536) with (a * 65536 + 0 * 256 + 0) by lia. rewrite E. cbn [map take app decode_loop].
    rewrite (decode_encode_digit _ R0), (decode_encode_digit _ R1).
    change (decode_digit (encode_digit 64)) with (Ok NV). cbn [mbind res_bind]. rewrite D.
    destruct (Z.ltb_spec (Zlen out) out_len); [|lia]. by destruct (_ <? _).
  - apply Forall_cons in Hl as [Ha Hl]. apply Forall_cons in Hl as [Hb _]. assert (byte_ok 0) as H0 by done.
    destruct (quantum_digits a b 0 Ha Hb H0) as (E & R0 & R1 & R2 & _).
    destruct (decode_bytes a b 0 Ha Hb H0) as (D & D' & _).
    change (rfc4648 [a; b]) with (take 3 (quantum (a * 65536 + b * 256)) ++ [encode_digit 64]).
    replace (a * 65536 + b * 256) with (a * 65536 + b * 256 + 0) by lia. rewrite E. cbn [map take app decode_loop].
    rewrite (decode_encode_digit _ R0), (decode_encode_digit _ R1), (decode_encode_digit _ R2).
    change (decode_digit (encode_digit 64)) with (Ok NV). cbn [mbind res_bind]. rewrite D, D'.
    rewrite !Zlen_app, !Zlen_cons, !Zlen_nil.
    destruct (Z.ltb_spec (Zlen out) out_len); [|lia]. destruct (Z.ltb_spec (Zlen out + (1 + 0)) out_len); [|lia].
    change NV with 64. destruct (Z.ltb_spec (b mod 16 * 4 + 0 / 64) 64); [|lia].
    rewrite <- !app_assoc. change (64 <? 64) with false. by destruct (_ <? _).
  - apply Forall_cons in Hl as [Ha Hl]. apply Forall_cons in Hl as [Hb Hl]. apply Forall_cons in Hl as [Hc Hl].
    destruct (quantum_digits a b c Ha Hb Hc) as (E & R0 & R1 & R2 & R3).
    destruct (decode_bytes a b c Ha Hb Hc) as (D & D' & D'').
    change (rfc4648 (a :: b :: c :: r)) with (quantum (a * 65536 + b * 256 + c) ++ rfc4648 r).
    rewrite E. cbn [map app decode_loop]. rewrite (decode_encode_digit _ R0), (decode_encode_digit _ R1), (decode_encode_digit _ R2), (decode_encode_digit _ R3). cbn [mbind res_bind].
    rewrite D, D', D''. rewrite !Zlen_app, !Zlen_cons, !Zlen_nil. pose proof (Zlen_nonneg r).
    destruct (Z.ltb_spec (Zlen out) out_len); [|lia].
    destruct (Z.ltb_spec (Zlen out + (1 + 0)) out_len); [|lia].
    destruct (Z.ltb_spec (Zlen out + (1 + 0) + (1 + 0)) out_len); [|lia].
    change NV with 64.
    destruct (Z.ltb_spec (b mod 16 * 4 + c / 64) 64); [|lia]. destruct (Z.ltb_spec (c mod 64) 64); [|lia].
    rewrite IH; [by rewrite <- !app_assoc|done|]. rewrite !Zlen_app, !Zlen_cons, !Zlen_nil. lia.
Qed.

(** The lengths announced. *)
Lemma encodeLength_spec n : 0 <= n < 1073741824 -> Base64_encodeLength n = (n + 2) / 3 * 4.
Proof.
  intros Hn. unfold Base64_encodeLength, to_u32. change (Z.lnot 3 mod 4294967296) with (Z.ones 30 * 2 ^ 2).
  rewrite (Z.mod_small (4 * n)) by lia. rewrite (Z.mod_small (4 * n / 3 + 3)) by dlia.
  rewrite <- Z.shiftl_mul_pow2 by lia.
  set (m := 4 * n / 3 + 3). assert (0 <= m < 4294967296) as Hm by (unfold m; dlia).
  transitivity (Z.shiftl (Z.shiftr m 2) 2).
  2: { rewrite Z.shiftr_div_pow2, Z.shiftl_mul_pow2 by lia. change (2 ^ 2) with 4. unfold m. clear. dlia. }
  clearbody m. apply Z.bits_inj'. intros i Hi. rewrite Z.land_spec, !Z.shiftl_spec by lia.
    destruct (Z.ltb_spec i 2).
    - rewrite !(Z.testbit_neg_r _ (i - 2)) by lia. by rewrite andb_false_r.
    - rewrite Z.shiftr_spec by lia. replace (i - 2 + 2) with i by lia.
      destruct (Z.ltb_spec (i - 2) 30).
      + rewrite Z.ones_spec_low by lia. by rewrite andb_true_r.
      + rewrite Z.ones_spec_high by lia. rewrite andb_false_r. symmetry.
        destruct (Z.eq_dec m 0) as [->|]; [by rewrite Z.bits_0|].
        apply Z.bits_above_log2; [lia|]. apply Z.log2_lt_pow2; [lia|].
        apply Z.lt_le_trans with (2 ^ 32); [lia|]. apply Z.pow_le_mono_r; lia.
Qed.

Lemma encode_digit_not_pad d : 0 <= d < 64 -> encode_digit d <> 61.
Proof.
  intros Hd E. pose proof (decode_encode_digit d Hd) as D. rewrite E in D.
  change (decode_digit 61) with (Ok NV) in D. injection D. change NV with 64. lia.
Qed.

(** The last two characters of an encoding say how many bytes the last group has. *)
Lemma rfc4648_last l : bytes_ok l -> l <> [] ->
  exists p x y, rfc4648 l = p ++ [x; y] /\ is_pad (Some x) + is_pad (Some y) = (- Zlen l) mod 3.
Proof.
  intros Hl. induction l as [|a|a b|a b c r IH] using by_three; intros Hn; [done| | |].
  - exists (take 2 (quantum (a * 65536))), 61, 61. done.
  - apply Forall_cons in Hl as [Ha Hl]. apply Forall_cons in Hl as [Hb _]. assert (byte_ok 0) as H0 by done.
    destruct (quantum_digits a b 0 Ha Hb H0) as (E & R0 & R1 & R2 & _).
    exists (take 2 (quantum (a * 65536 + b * 256))), (encode_digit (b mod 16 * 4 + 0 / 64)), 61.
    change (rfc4648 [a; b]) with (take 3 (quantum (a * 65536 + b * 256)) ++ [61]).
    replace (a * 65536 + b * 256) with (a * 65536 + b * 256 + 0) by lia. rewrite E. split; [done|].
    unfold is_pad. rewrite bool_decide_eq_false_2; [done|]. intros [= D]. by apply (encode_digit_not_pad _ R2).
  - apply Forall_cons in Hl as [Ha Hl]. apply Forall_cons in Hl as [Hb Hl]. apply Forall_cons in Hl as [Hc Hl].
    destruct (quantum_digits a b c Ha Hb Hc) as (E & R0 & R1 & R2 & R3).
    change (rfc4648 (a :: b :: c :: r)) with (quantum (a * 65536 + b * 256 + c) ++ rfc4648 r).
    destruct r as [|z r'].
    + rewrite E. exists (map encode_digit [a / 4; a mod 4 * 16 + b / 16]),
        (encode_digit (b mod 16 * 4 + c / 64)), (encode_digit (c mod 64)). split; [done|].
      unfold is_pad. rewrite !bool_decide_eq_false_2; [done| |];
        intros [= D]; [by apply (encode_digit_not_pad _ R3)|by apply (encode_digit_not_pad _ R2)].
    + destruct IH as (p & x & y & -> & Hp); [done|done|].
      exists (quantum (a * 65536 + b * 256 + c) ++ p), x, y. rewrite <- app_assoc. split; [done|].
      rewrite Hp. rewrite !(Zlen_cons _ (_ :: _)). clear. dlia.
Qed.

Lemma decodeLength_spec l : bytes_ok l -> Zlen l < 1073741824 -> Base64_decodeLength (rfc4648 l) = Zlen l.
Proof.
  intros Hl Hb. destruct l as [|a r]; [done|].
  destruct (rfc4648_last (a :: r)) as (p & x & y & E & Hp); [done|done|].
  pose proof (rfc4648_Zlen (a :: r)) as Hlen. pose proof (Zlen_nonneg p) as Hp0.
  set (n := Zlen (a :: r)) in *. clearbody n.
  rewrite E in *. rewrite Zlen_app in Hlen. change (Zlen [x; y]) with 2 in Hlen.
  unfold Base64_decodeLength. rewrite Zlen_app. change (Zlen [x; y]) with 2.
  destruct (Z.ltb_spec 1 (Zlen p + 2)); [|lia]. destruct (Z.ltb_spec 0 (Zlen p + 2)); [|lia].
  replace (Z.to_nat (Zlen p + 2 - 2)) with (List.length p + 0)%nat by (unfold Zlen; lia).
  replace (Z.to_nat (Zlen p + 2 - 1)) with (List.length p + 1)%nat by (unfold Zlen; lia).
  rewrite !lookup_app_r by lia. replace (List.length p + 0 - List.length p)%nat with 0%nat by lia.
  replace (List.length p + 1 - List.length p)%nat with 1%nat by lia.
  change ([x; y] !! 0%nat) with (Some x). change ([x; y] !! 1%nat) with (Some y). rewrite Hp, Hlen.
  rewrite Z.div_mul by lia. unfold to_u32. rewrite Z.mod_small; dlia.
Qed.

(** C37. Base64.  What [Base64_encode] writes is the encoding RFC 4648 gives, with its
    terminator when there is room; in a buffer that is too small it stays inside the
    buffer, writes the groups that fit and returns 0, or the length of a buffer of
    whole groups; the buffer of [Base64_encodeLength] is never too small.
    [Base64_decode] turns the encoding back into the bytes, within the buffer of
    [Base64_decodeLength]. *)
Theorem Base64_roundtrip (l : list Z) (out_len : Z) :
  bytes_ok l -> Zlen l < 536870912 -> 0 <= out_len < 4294967296 ->
  Base64_encodeLength (Zlen l) = Zlen (rfc4648 l) /\
  Base64_encode out_len l =
    (if Zlen (rfc4648 l) <=? out_len
     then (Zlen (rfc4648 l), rfc4648 l ++ (if Zlen (rfc4648 l) <? out_len then [0] else []))
     else (if out_len mod 4 =? 0 then out_len else 0, take (Z.to_nat (out_len / 4 * 4)) (rfc4648 l))) /\
  Base64_decodeLength (rfc4648 l) = Zlen l /\
  (Zlen l <= out_len ->
   Base64_decode out_len (rfc4648 l) = Ok (Zlen l, l ++ (if Zlen l <? out_len then [0] else []))).
Proof.
  intros Hl Hb Ho. pose proof (Zlen_nonneg l) as H0. pose proof (rfc4648_Zlen l) as Hlen.
  split; [|split; [|split]].
  - rewrite Hlen. apply encodeLength_spec. lia.
  - unfold Base64_encode. change 0 with (Zlen (@nil Z)) at 1.
    rewrite encode_loop_spec by (rewrite ?Zlen_nil; (done || lia || dlia)). rewrite Zlen_nil, Z.add_0_l, Z.sub_0_r.
    destruct (Z.leb_spec (Zlen (rfc4648 l)) out_len).
    + by destruct (Z.leb_spec (Zlen (rfc4648 l)) out_len); [|lia].
    + rewrite Z.add_0_l. destruct (Z.eqb_spec (out_len mod 4) 0).
      * replace ((out_len + 3) / 4 * 4) with out_len by dlia.
        rewrite Z.leb_refl, Z.ltb_irrefl. by rewrite app_nil_r.
      * by destruct (Z.leb_spec ((out_len + 3) / 4 * 4) out_len); [dlia|].
  - apply decodeLength_spec; [done|lia].
  - intros Hle. unfold Base64_decode. rewrite decode_loop_spec by (rewrite ?Zlen_nil; (done || lia)). done.
Qed.

Lemma Base64_roundtrip_witness :
  Base64_encode 29 (chars "paho with websocket") = (28, chars "cGFobyB3aXRoIHdlYnNvY2tldA==" ++ [0]) /\
  Base64_decode 29 (rfc4648 (chars "paho with websocket")) = Ok (19, chars "paho with websocket" ++ [0]) /\
  Base64_encode 26 (chars "paho with websocket") = (0, chars "cGFobyB3aXRoIHdlYnNvY2tl").
Proof.
  destruct (Base64_roundtrip (chars "paho with websocket") 29) as (_ & E & _ & D);
    [by_compute|by_compute|by_compute|].
  destruct (Base64_roundtrip (chars "paho with websocket") 26) as (_ & T & _); [by_compute|by_compute|by_compute|].
  split; [exact E|]. split; [exact (D ltac:(by_compute))|exact T].
Defined.

End Base64.
