(* ===== verification/SHA1.v ===== *)
(** * SHA-1 ([src/src/SHA1.c], the implementation without OpenSSL)

    The context, its update in pieces and the final digest, against FIPS 180-4: the
    schedule of the code lives in sixteen words that it overwrites in a circle, in the
    memory that holds the block, and the standard has eighty.  The words of the union
    are those of a host that stores the low byte first. *)

From S2P Require Import Prelude.
From S2P Require Import Base64.
From Stdlib Require Import ZArith Lia List String ZifyNat.
From stdpp Require Import base numbers list.

Open Scope Z_scope.

Module SHA1.
Import Base64.

(** ** Definitions *)

(** [SHA_CTX]: [buffer] is the union of the 64 bytes and the 16 words. *)
Record SHA_CTX := mkCtx {
  ctx_h : list Z;
  ctx_buffer : list Z;
  ctx_size : Z;
  ctx_total : Z
}.

(** Words in the memory of the host, low byte first. *)
Definition word_bytes (w : Z) : list Z := [w mod 256; w / 256 mod 256; w / 65536 mod 256; w / 16777216 mod 256].
Definition bytes_of (ws : list Z) : list Z := concat (map word_bytes ws).
Fixpoint words_of (l : list Z) : list Z :=
  match l with
  | a :: b :: c :: d :: r => (a + 256 * b + 65536 * c + 16777216 * d) :: words_of r
  | _ => []
  end.

(** [be32toh] and [htobe32]: the bytes of a word in the other order. *)
Definition swap32 (w : Z) : Z :=
  w / 16777216 mod 256 + 256 * (w / 65536 mod 256) + 65536 * (w / 256 mod 256) + 16777216 * (w mod 256).

Definition pad : list Z := 128 :: replicate 63 0.

(** [SHA1_Init] *)
Definition SHA1_Init (ctx : SHA_CTX) : SHA_CTX :=
  mkCtx [0x67452301; 0xEFCDAB89; 0x98BADCFE; 0x10325476; 0xC3D2E1F0] (ctx_buffer ctx) 0 0.

Definition ROTATE_LEFT32 (a n : Z) : Z := Z.lor (to_u32 (Z.shiftl a n)) (Z.shiftr a (32 - n)).

Definition word (w : list Z) (i : Z) : Z := nth (Z.to_nat i) w 0.

(** The five working variables. *)
Definition blks : Type := (Z * Z * Z * Z * Z)%type.

(** One round: the word of the schedule, [tmp] (an [int]) and the registers. *)
Definition round_word (i : Z) (w : list Z) : list Z :=
  if 16 <=? i then
    <[Z.to_nat (Z.land i 15) :=
        ROTATE_LEFT32 (Z.lxor (Z.lxor (Z.lxor (word w (Z.land (i + 13) 15)) (word w (Z.land (i + 8) 15)))
                                 (word w (Z.land (i + 2) 15))) (word w (Z.land i 15))) 1]> w
  else w.
Definition round_regs (i : Z) (w : list Z) (b : blks) : blks :=
  let '(b0, b1, b2, b3, b4) := b in
  let wi := word w (Z.land i 15) in
  let sum :=
    if i <? 20 then
      ROTATE_LEFT32 b0 5 + Z.lor (Z.land b1 b2) (Z.land (Z.lnot b1) b3) + b4 + wi + 0x5A827999
    else if i <? 40 then
      ROTATE_LEFT32 b0 5 + Z.lxor (Z.lxor b1 b2) b3 + b4 + wi + 0x6ED9EBA1
    else if i <? 60 then
      ROTATE_LEFT32 b0 5 + Z.lor (Z.lor (Z.land b1 b2) (Z.land b1 b3)) (Z.land b2 b3) + b4 + wi + 0x8F1BBCDC
    else
      ROTATE_LEFT32 b0 5 + Z.lxor (Z.lxor b1 b2) b3 + b4 + wi + 0xCA62C1D6 in
  let tmp := to_i32 (to_u32 sum) in
  (to_u32 tmp, b0, ROTATE_LEFT32 b1 30, b2, b3).

Fixpoint rounds (n : nat) (i : Z) (w : list Z) (b : blks) : list Z * blks :=
  match n with
  | O => (w, b)
  | S n => let w := round_word i w in rounds n (i + 1) w (round_regs i w b)
  end.

(** The words of the hash, as the registers and back. *)
Definition regs (h : list Z) : blks := (word h 0, word h 1, word h 2, word h 3, word h 4).
Definition add_regs (h : list Z) (b : blks) : list Z :=
  let '(b0, b1, b2, b3, b4) := b in
  [to_u32 (word h 0 + b0); to_u32 (word h 1 + b1); to_u32 (word h 2 + b2); to_u32 (word h 3 + b3);
   to_u32 (word h 4 + b4)].

(** [SHA1_ProcessBlock] *)
Definition SHA1_ProcessBlock (ctx : SHA_CTX) : SHA_CTX :=
  let '(w, b) := rounds 80 0 (map swap32 (words_of (ctx_buffer ctx))) (regs (ctx_h ctx)) in
  mkCtx (add_regs (ctx_h ctx) b) (bytes_of w) (ctx_size ctx) (ctx_total ctx).

(** One turn of the loop of [SHA1_Update]: the [n] bytes that still fit in the block. *)
Definition absorb (ctx : SHA_CTX) (data : list Z) (n : Z) : SHA_CTX :=
  let buffer := take (Z.to_nat (ctx_size ctx)) (ctx_buffer ctx) ++ take (Z.to_nat n) data ++
                drop (Z.to_nat (ctx_size ctx + n)) (ctx_buffer ctx) in
  let ctx := mkCtx (ctx_h ctx) buffer (to_u32 (ctx_size ctx + n)) (to_u32 (ctx_total ctx + n)) in
  if ctx_size ctx =? 64
  then let c := SHA1_ProcessBlock ctx in mkCtx (ctx_h c) (ctx_buffer c) 0 (ctx_total c)
  else ctx.

(** [SHA1_Update]: [None] is a loop that does not end. *)
Fixpoint update_loop (fuel : nat) (ctx : SHA_CTX) (data : list Z) : option SHA_CTX :=
  match data with
  | [] => Some ctx
  | _ =>
      match fuel with
      | O => None
      | S fuel =>
          let n := to_u32 (64 - ctx_size ctx) in
          let n := if Zlen data <? n then Zlen data else n in
          update_loop fuel (absorb ctx data n) (drop (Z.to_nat n) data)
      end
  end.
Definition SHA1_Update (ctx : SHA_CTX) (data : list Z) : option SHA_CTX :=
  update_loop (List.length data) ctx data.

(** [SHA1_Final]: the digest, and the context as it leaves it. *)
Definition SHA1_Final (ctx : SHA_CTX) : option (list Z * SHA_CTX) :=
  let total := to_u32 (ctx_total ctx * 8) in
  let pad_amount := if ctx_size ctx <? 56 then 56 - ctx_size ctx else 64 + 56 - ctx_size ctx in
  ctx ← SHA1_Update ctx (take (Z.to_nat pad_amount) pad);
  let w := words_of (ctx_buffer ctx) in
  let w := <[15%nat := swap32 (to_u32 total)]> (<[14%nat := swap32 (to_u32 (Z.shiftr total 32))]> w) in
  let ctx := SHA1_ProcessBlock (mkCtx (ctx_h ctx) (bytes_of w) (ctx_size ctx) (ctx_total ctx)) in
  let ctx := mkCtx (map swap32 (ctx_h ctx)) (ctx_buffer ctx) (ctx_size ctx) (ctx_total ctx) in
  Some (bytes_of (ctx_h ctx), ctx).

(** The three calls, on one piece of data after the other. *)
Fixpoint update_all (ctx : SHA_CTX) (pieces : list (list Z)) : option SHA_CTX :=
  match pieces with
  | [] => Some ctx
  | p :: ps => ctx ← SHA1_Update ctx p; update_all ctx ps
  end.
Definition SHA1 (ctx : SHA_CTX) (pieces : list (list Z)) : option (list Z) :=
  ctx ← update_all (SHA1_Init ctx) pieces; r ← SHA1_Final ctx; Some (fst r).

Definition hex (l : list Z) : list Z :=
  concat (map (fun b => [nth (Z.to_nat (b / 16)) (chars "0123456789abcdef") 0;
                         nth (Z.to_nat (b mod 16)) (chars "0123456789abcdef") 0]) l).
Definition fresh_ctx : SHA_CTX := mkCtx [] (replicate 64 255) 7 9.

(** The tests of the file. *)
Example SHA1_tests :
  option_map hex (SHA1 fresh_ctx [chars ""]) = Some (chars "da39a3ee5e6b4b0d3255bfef95601890afd80709") /\
  option_map hex (SHA1 fresh_ctx [chars "this string"]) = Some (chars "fda4e74bc7489a18b146abdf23346d166663dab8").
Proof. split; vm_compute; reflexivity. Qed.

(** ** The specification: FIPS 180-4 *)

Definition be_bytes (w : Z) : list Z := [w / 16777216 mod 256; w / 65536 mod 256; w / 256 mod 256; w mod 256].
Fixpoint be_words (l : list Z) : list Z :=
  match l with
  | a :: b :: c :: d :: r => (16777216 * a + 65536 * b + 256 * c + d) :: be_words r
  | _ => []
  end.

(** Section 3.2: the circular shift. *)
Definition ROTL (n x : Z) : Z := Z.lor (Z.shiftl x n mod 2 ^ 32) (Z.shiftr x (32 - n)).

(** Section 4.1.1: the functions, and section 4.2.1: the constants. *)
Definition Ch (x y z : Z) : Z := Z.lxor (Z.land x y) (Z.land (Z.lnot x) z).
Definition Parity (x y z : Z) : Z := Z.lxor (Z.lxor x y) z.
Definition Maj (x y z : Z) : Z := Z.lxor (Z.lxor (Z.land x y) (Z.land x z)) (Z.land y z).
Definition f (t : nat) : Z -> Z -> Z -> Z :=
  if (t <? 20)%nat then Ch else if (t <? 40)%nat then Parity else if (t <? 60)%nat then Maj else Parity.
Definition K (t : nat) : Z :=
  if (t <? 20)%nat then 0x5A827999 else if (t <? 40)%nat then 0x6ED9EBA1
  else if (t <? 60)%nat then 0x8F1BBCDC else 0xCA62C1D6.

(** Section 6.1.2: the schedule of eighty words, the rounds, the hash of a block. *)
Definition next_word (W : list Z) (t : nat) : Z :=
  ROTL 1 (Z.lxor (Z.lxor (Z.lxor (nth (t - 3) W 0) (nth (t - 8) W 0)) (nth (t - 14) W 0)) (nth (t - 16) W 0)).
Fixpoint expand (n : nat) (W : list Z) : list Z :=
  match n with O => W | S n => expand n (W ++ [next_word W (List.length W)]) end.
Definition schedule (M : list Z) : list Z := expand 64 (be_words M).
Definition step (W : list Z) (H : blks) (t : nat) : blks :=
  let '(a, b, c, d, e) := H in
  ((ROTL 5 a + f t b c d + e + nth t W 0 + K t) mod 2 ^ 32, a, ROTL 30 b, c, d).
Definition compress (H : list Z) (M : list Z) : list Z :=
  add_regs H (fold_left (step (schedule M)) (seq 0 80) (regs H)).

(** Section 5.1.1: padding; 5.2.1: blocks of 512 bits; 5.3.1: the initial hash. *)
Definition padded (m : list Z) : list Z :=
  m ++ [128] ++ replicate (Z.to_nat ((55 - Zlen m) mod 64)) 0 ++ be_bytes (8 * Zlen m / 2 ^ 32) ++ be_bytes (8 * Zlen m).
Definition H0 : list Z := [0x67452301; 0xEFCDAB89; 0x98BADCFE; 0x10325476; 0xC3D2E1F0].
Definition blocks (n : nat) (m : list Z) : list (list Z) := map (fun i => take 64 (drop (64 * i) m)) (seq 0 n).
Definition hash_blocks (n : nat) (m : list Z) : list Z := fold_left compress (blocks n m) H0.
Definition fips_sha1 (m : list Z) : list Z :=
  concat (map be_bytes (hash_blocks (List.length (padded m) / 64) (padded m))).

(** ** Words and bytes *)

(** Induction by groups of four. *)
Lemma by_four (Q : list Z -> Prop) :
  Q [] -> (forall a, Q [a]) -> (forall a b, Q [a; b]) -> (forall a b c, Q [a; b; c]) ->
  (forall a b c d r, Q r -> Q (a :: b :: c :: d :: r)) -> forall l, Q l.
Proof.
  intros Q0 Q1 Q2 Q3 Q4. fix IH 1.
  intros [|a [|b [|c [|d r]]]]; [exact Q0|apply Q1|apply Q2|apply Q3|apply Q4, IH].
Qed.

Lemma word_bytes_of a b c d : byte_ok a -> byte_ok b -> byte_ok c -> byte_ok d ->
  word_bytes (a + 256 * b + 65536 * c + 16777216 * d) = [a; b; c; d].
Proof. unfold byte_ok, word_bytes. intros. repeat f_equal; dlia. Qed.

Lemma swap32_word a b c d : byte_ok a -> byte_ok b -> byte_ok c -> byte_ok d ->
  swap32 (a + 256 * b + 65536 * c + 16777216 * d) = 16777216 * a + 65536 * b + 256 * c + d.
Proof.
  intros Ha Hb Hc Hd. pose proof (word_bytes_of a b c d Ha Hb Hc Hd) as E. unfold word_bytes in E.
  injection E as E1 E2 E3 E4. unfold swap32. rewrite E1, E2, E3, E4. lia.
Qed.

Lemma word_bytes_swap w : word_bytes (swap32 w) = be_bytes w.
Proof.
  unfold swap32, be_bytes.
  replace (w / 16777216 mod 256 + 256 * (w / 65536 mod 256) + 65536 * (w / 256 mod 256) + 16777216 * (w mod 256))
    with (w / 16777216 mod 256 + 256 * (w / 65536 mod 256) + 65536 * (w / 256 mod 256) + 16777216 * (w mod 256)) by lia.
  apply word_bytes_of; apply Z.mod_pos_bound; lia.
Qed.

Lemma words_of_app l k : Nat.divide 4 (List.length l) -> words_of (l ++ k) = words_of l ++ words_of k.
Proof.
  induction l as [|a|a b|a b c|a b c d r IH] using by_four; intros [n Hn]; try (simpl in Hn; lia); [done|].
  cbn [app words_of]. rewrite IH; [done|]. exists (n - 1)%nat. simpl in Hn. lia.
Qed.

Lemma swap_words l : bytes_ok l -> map swap32 (words_of l) = be_words l.
Proof.
  induction l as [|a|a b|a b c|a b c d r IH] using by_four; intros Hl; try done.
  rewrite !bytes_ok_cons in Hl. destruct Hl as (Ha & Hb & Hc & Hd & Hr).
  cbn [words_of map be_words]. by rewrite swap32_word, IH.
Qed.

Lemma bytes_of_words l : bytes_ok l -> Nat.divide 4 (List.length l) -> bytes_of (words_of l) = l.
Proof.
  unfold bytes_of. induction l as [|a|a b|a b c|a b c d r IH] using by_four; intros Hl [n Hn];
    try (simpl in Hn; lia); [done|].
  rewrite !bytes_ok_cons in Hl. destruct Hl as (Ha & Hb & Hc & Hd & Hr).
  cbn [words_of map concat]. rewrite word_bytes_of by done. cbn [app]. rewrite IH; [done|done|].
  exists (n - 1)%nat. simpl in Hn. lia.
Qed.

Lemma be_words_length l : List.length (be_words l) = (List.length l / 4)%nat.
Proof.
  induction l as [|a|a b|a b c|a b c d r IH] using by_four; try done.
  cbn [be_words List.length]. rewrite IH. change (S (S (S (S (List.length r))))) with (1 * 4 + List.length r)%nat.
  rewrite Nat.div_add_l by lia. lia.
Qed.

Lemma be_bytes_ok w : bytes_ok (be_bytes w).
Proof. unfold be_bytes, bytes_ok. repeat constructor; apply Z.mod_pos_bound; lia. Qed.

(** ** The schedule *)

Lemma expand_nth n W j : (j < List.length W)%nat -> nth j (expand n W) 0 = nth j W 0.
Proof.
  revert W. induction n as [|n IH]; intros W Hj; cbn [expand]; [done|].
  rewrite IH by (rewrite length_app; simpl; lia). by apply app_nth1.
Qed.

Lemma expand_next n W t :
  (16 <= List.length W)%nat -> (List.length W <= t < List.length W + n)%nat ->
  nth t (expand n W) 0 = next_word (expand n W) t.
Proof.
  revert W. induction n as [|n IH]; intros W H16 Ht; [lia|]. cbn [expand].
  set (W' := W ++ _). assert (List.length W' = S (List.length W)) as HW' by (unfold W'; rewrite length_app; simpl; lia).
  destruct (decide (t = List.length W)) as [->|Hne].
  - rewrite expand_nth by lia. unfold W' at 1. rewrite app_nth2, Nat.sub_diag by lia. cbn [nth].
    unfold next_word. rewrite !expand_nth by lia. unfold W'. by rewrite !app_nth1 by lia.
  - apply IH; lia.
Qed.

Lemma schedule_next M t : List.length M = 64%nat -> (16 <= t < 80)%nat ->
  nth t (schedule M) 0 = next_word (schedule M) t.
Proof.
  intros HM Ht. assert (List.length (be_words M) = 16%nat) as Hb by (rewrite be_words_length, HM; done).
  unfold schedule. apply expand_next; lia.
Qed.

Lemma schedule_first M t : List.length M = 64%nat -> (t < 16)%nat -> nth t (schedule M) 0 = nth t (be_words M) 0.
Proof.
  intros HM Ht. assert (List.length (be_words M) = 16%nat) as Hb by (rewrite be_words_length, HM; done).
  unfold schedule. apply expand_nth. lia.
Qed.
#[local] Opaque schedule expand.

(** The sixteen words of the code at round [i]: the last sixteen of the schedule. *)
Definition circular (i : nat) (w W : list Z) : Prop :=
  List.length w = 16%nat /\
  forall j, (i - 16 <= j)%nat -> (j < Nat.max 16 i)%nat -> nth (j mod 16) w 0 = nth j W 0.

Lemma land15 i : Z.to_nat (Z.land (Z.of_nat i) 15) = (i mod 16)%nat.
Proof.
  change 15 with (Z.ones 4). rewrite Z.land_ones by lia. change (2 ^ 4) with (Z.of_nat 16).
  by rewrite <- Nat2Z.inj_mod, Nat2Z.id.
Qed.

Lemma circular_word i k w W : circular i w W -> (16 <= i)%nat -> (k <= 13)%nat ->
  word w (Z.land (Z.of_nat i + Z.of_nat k) 15) = nth (i + k - 16) W 0.
Proof.
  intros [_ H] Hi Hk. unfold word. rewrite <- Nat2Z.inj_add, land15.
  replace ((i + k) mod 16)%nat with ((i + k - 16) mod 16)%nat; [apply H; lia|].
  replace (i + k)%nat with (i + k - 16 + 1 * 16)%nat at 2 by lia. by rewrite Nat.Div0.mod_add.
Qed.

Lemma round_word_spec W i w :
  (forall t, (16 <= t < 80)%nat -> nth t W 0 = next_word W t) -> circular i w W -> (i < 80)%nat ->
  circular (S i) (round_word (Z.of_nat i) w) W /\
  word (round_word (Z.of_nat i) w) (Z.land (Z.of_nat i) 15) = nth i W 0.
Proof.
  intros HW Hc Hi. pose proof Hc as [Hlen Hw]. unfold round_word.
  destruct (Z.leb_spec 16 (Z.of_nat i)).
  - pose proof (circular_word i 0 w W Hc ltac:(lia) ltac:(lia)) as E0.
    pose proof (circular_word i 2 w W Hc ltac:(lia) ltac:(lia)) as E2.
    pose proof (circular_word i 8 w W Hc ltac:(lia) ltac:(lia)) as E8.
    pose proof (circular_word i 13 w W Hc ltac:(lia) ltac:(lia)) as E13.
    rewrite Z.add_0_r in E0. change (Z.of_nat 2) with 2 in E2. change (Z.of_nat 8) with 8 in E8.
    change (Z.of_nat 13) with 13 in E13. rewrite E0, E2, E8, E13.
    pose proof (HW i ltac:(lia)) as Hn. unfold next_word in Hn.
    replace (i + 13 - 16)%nat with (i - 3)%nat by lia. replace (i + 8 - 16)%nat with (i - 8)%nat by lia.
    replace (i + 2 - 16)%nat with (i - 14)%nat by lia. replace (i + 0 - 16)%nat with (i - 16)%nat by lia.
    change ROTATE_LEFT32 with (fun a n => ROTL n a). cbv beta. rewrite <- Hn. rewrite land15.
    pose proof (Nat.mod_upper_bound i 16 ltac:(lia)) as Hm.
    unfold word. rewrite !land15. rewrite !nth_lookup. rewrite list_lookup_insert_eq by lia. split; [|done].
    split; [by rewrite length_insert|]. intros j Hj1 Hj2. rewrite !nth_lookup.
    destruct (decide (j = i)) as [->|Hne].
    + by rewrite list_lookup_insert_eq by lia.
    + rewrite list_lookup_insert_ne; [rewrite <- !nth_lookup; apply Hw; lia|].
      intros E. apply Hne. clear -E Hj1 Hj2 H Hne Hi.
      pose proof (Nat.div_mod_eq i 16). pose proof (Nat.div_mod_eq j 16). lia.
  - split.
    + split; [done|]. intros j Hj1 Hj2. apply Hw; lia.
    + unfold word. rewrite land15. apply Hw; lia.
Qed.

(** *** The rounds *)

Lemma Ch_lor x y z : Z.lor (Z.land x y) (Z.land (Z.lnot x) z) = Ch x y z.
Proof.
  unfold Ch. apply Z.bits_inj'. intros n Hn. rewrite Z.lor_spec, Z.lxor_spec, !Z.land_spec, Z.lnot_spec by done.
  by destruct (Z.testbit x n), (Z.testbit y n), (Z.testbit z n).
Qed.

Lemma Maj_lor x y z : Z.lor (Z.lor (Z.land x y) (Z.land x z)) (Z.land y z) = Maj x y z.
Proof.
  unfold Maj. apply Z.bits_inj'. intros n Hn. rewrite !Z.lor_spec, !Z.lxor_spec, !Z.land_spec.
  by destruct (Z.testbit x n), (Z.testbit y n), (Z.testbit z n).
Qed.

Lemma round_regs_spec i w W b :
  word w (Z.land (Z.of_nat i) 15) = nth i W 0 -> round_regs (Z.of_nat i) w b = step W b i.
Proof.
  intros Hw. destruct b as [[[[b0 b1] b2] b3] b4]. unfold round_regs, step. rewrite Hw, Ch_lor, Maj_lor.
  change (ROTATE_LEFT32 b0 5) with (ROTL 5 b0). change (ROTATE_LEFT32 b1 30) with (ROTL 30 b1).
  repeat f_equal. rewrite to_i32_u32 by (apply Z.mod_pos_bound; lia). unfold to_u32, f, K.
  change (2 ^ 32) with 4294967296.
  repeat match goal with
         | |- context [Z.of_nat i <? ?n] =>
             replace (Z.of_nat i <? n) with (i <? Z.to_nat n)%nat
               by (destruct (Nat.ltb_spec i (Z.to_nat n)), (Z.ltb_spec (Z.of_nat i) n); (done || lia))
         end.
  change (Z.to_nat 20) with 20%nat. change (Z.to_nat 40) with 40%nat. change (Z.to_nat 60) with 60%nat.
  destruct (i <? 20)%nat; [done|]. destruct (i <? 40)%nat; [done|]. by destruct (i <? 60)%nat.
Qed.

Lemma rounds_spec M n i w b :
  List.length M = 64%nat -> circular i w (schedule M) -> (i + n <= 80)%nat ->
  snd (rounds n (Z.of_nat i) w b) = fold_left (step (schedule M)) (seq i n) b.
Proof.
  intros HM. revert i w b. induction n as [|n IH]; intros i w b Hc Hn; [done|].
  destruct (round_word_spec (schedule M) i w (fun t => schedule_next M t HM) Hc) as [Hc' Hw]; [lia|]. cbn [rounds seq fold_left].
  rewrite (round_regs_spec _ _ _ _ Hw). replace (Z.of_nat i + 1) with (Z.of_nat (S i)) by lia. apply IH; [done|lia].
Qed.

Lemma rounds_length n i w b : List.length w = 16%nat -> List.length (fst (rounds n i w b)) = 16%nat.
Proof.
  revert i w b. induction n as [|n IH]; intros i w b Hw; [done|]. cbn [rounds]. apply IH.
  unfold round_word. destruct (_ <=? _); [by rewrite length_insert|done].
Qed.
#[local] Opaque rounds.

(** [SHA1_ProcessBlock] hashes the block in the buffer. *)
Lemma ProcessBlock_spec ctx :
  bytes_ok (ctx_buffer ctx) -> List.length (ctx_buffer ctx) = 64%nat ->
  ctx_h (SHA1_ProcessBlock ctx) = compress (ctx_h ctx) (ctx_buffer ctx) /\
  List.length (ctx_buffer (SHA1_ProcessBlock ctx)) = 64%nat /\
  ctx_size (SHA1_ProcessBlock ctx) = ctx_size ctx /\ ctx_total (SHA1_ProcessBlock ctx) = ctx_total ctx.
Proof.
  intros Hb Hl. unfold SHA1_ProcessBlock. rewrite swap_words by done.
  assert (circular 0 (be_words (ctx_buffer ctx)) (schedule (ctx_buffer ctx))) as Hc.
  { assert (List.length (be_words (ctx_buffer ctx)) = 16%nat) as E by (rewrite be_words_length, Hl; done).
    split; [done|]. intros j _ Hj. rewrite Nat.mod_small by lia. symmetry. apply schedule_first; [done|lia]. }
  pose proof (rounds_spec (ctx_buffer ctx) 80 0 _ (regs (ctx_h ctx)) Hl Hc ltac:(lia)) as E.
  pose proof (rounds_length 80 0 _ (regs (ctx_h ctx)) (proj1 Hc)) as Hlen.
  change (Z.of_nat 0) with 0 in E. destruct (rounds _ _ _ _) as [w b]. cbn [fst snd] in *.
  cbn [ctx_h ctx_buffer ctx_size ctx_total]. split; [unfold compress; rewrite <- E; reflexivity|]. clear E. split; [|done].
  unfold bytes_of. clear -Hlen. do 17 (destruct w as [|? w]; try discriminate Hlen). done.
Qed.

#[local] Opaque compress SHA1_ProcessBlock.

(** ** Blocks *)

Ltac nlia := zify; Z.to_euclidean_division_equations; lia.

Lemma hash_blocks_app n m d : (64 * n <= List.length m)%nat -> hash_blocks n (m ++ d) = hash_blocks n m.
Proof.
  intros Hn. unfold hash_blocks. f_equal. unfold blocks. apply map_ext_in. intros i Hi. apply in_seq in Hi.
  rewrite drop_app_le by lia. rewrite take_app_le; [done|]. rewrite length_drop. lia.
Qed.

Lemma hash_blocks_S n m : hash_blocks (S n) m = compress (hash_blocks n m) (take 64 (drop (64 * n) m)).
Proof. unfold hash_blocks, blocks. by rewrite seq_S, map_app, fold_left_app. Qed.

(** ** The context stands for the bytes hashed so far *)

Record ctx_inv (ctx : SHA_CTX) (m : list Z) : Prop := {
  inv_h : ctx_h ctx = hash_blocks (List.length m / 64) m;
  inv_size : ctx_size ctx = Z.of_nat (List.length m mod 64);
  inv_data : take (List.length m mod 64) (ctx_buffer ctx) = drop (64 * (List.length m / 64)) m;
  inv_len : List.length (ctx_buffer ctx) = 64%nat;
  inv_total : ctx_total ctx = to_u32 (Zlen m)
}.

Lemma Init_inv ctx : List.length (ctx_buffer ctx) = 64%nat -> ctx_inv (SHA1_Init ctx) [].
Proof. intros H. by split. Qed.

Lemma to_u32_add a b : to_u32 (to_u32 a + b) = to_u32 (a + b).
Proof. unfold to_u32. apply Zplus_mod_idemp_l. Qed.

(** The buffer with [p] in its place. *)
Lemma splice_length (l p : list Z) (k : nat) : (k + List.length p <= List.length l)%nat ->
  List.length (take k l ++ p ++ drop (k + List.length p) l) = List.length l /\
  take (k + List.length p) (take k l ++ p ++ drop (k + List.length p) l) = take k l ++ p.
Proof.
  intros H. assert (List.length (take k l) = k) as Hk by (rewrite length_take; lia). split.
  - rewrite !length_app, length_drop, Hk. lia.
  - rewrite app_assoc. apply take_app_length'. rewrite length_app, Hk. done.
Qed.

Lemma absorb_inv ctx m data n :
  ctx_inv ctx m -> bytes_ok m -> bytes_ok data -> (n <= List.length data)%nat -> (List.length m mod 64 + n <= 64)%nat ->
  ctx_inv (absorb ctx data (Z.of_nat n)) (m ++ take n data).
Proof.
  intros [Hh Hsz Hd Hl Ht] Hm Hdata Hn Hr. unfold absorb. rewrite Hsz.
  rewrite <- Nat2Z.inj_add, !Nat2Z.id. cbv zeta. cbn [ctx_size ctx_h ctx_buffer ctx_total].
  set (p := take n data). assert (List.length p = n) as Hp by (unfold p; rewrite length_take; lia).
  set (q := (List.length m / 64)%nat) in *. set (r := (List.length m mod 64)%nat) in *.
  assert (List.length m = 64 * q + r)%nat as Hqr by (apply Nat.div_mod_eq).
  assert (r < 64)%nat as Hr64 by (apply Nat.mod_upper_bound; lia). clearbody q r.
  destruct (splice_length (ctx_buffer ctx) p r) as [HL HT]; [lia|]. rewrite Hp in HL, HT.
  set (buf := take r _ ++ _) in *.
  assert (to_u32 (Z.of_nat (r + n)) = Z.of_nat (r + n)) as Hu by (apply to_u32_id; unfold u32_ok; lia).
  assert (take (r + n) buf = drop (64 * q) (m ++ p)) as Hdat.
  { rewrite HT, Hd. by rewrite drop_app_le by lia. }
  assert (to_u32 (ctx_total ctx + Z.of_nat n) = to_u32 (Zlen (m ++ p))) as Htot.
  { rewrite Ht, to_u32_add. f_equal. rewrite Zlen_app. unfold Zlen. lia. }
  assert (List.length (m ++ p) = 64 * q + (r + n))%nat as HL' by (rewrite length_app; lia).
  rewrite Hu. destruct (Z.eqb_spec (Z.of_nat (r + n)) 64) as [E|E].
  - assert (r + n = 64)%nat as E' by lia. rewrite E' in *.
    assert (List.length (m ++ p) / 64 = S q)%nat as Eq by (rewrite HL'; nlia).
    assert (List.length (m ++ p) mod 64 = 0)%nat as Er by (rewrite HL'; nlia).
    assert (buf = drop (64 * q) (m ++ p)) as Hbuf by (rewrite <- Hdat; symmetry; apply take_ge; lia).
    assert (bytes_ok buf) as Hok.
    { rewrite Hbuf. apply Forall_drop, bytes_ok_app. split; [done|]. by apply Forall_take. }
    destruct (ProcessBlock_spec (mkCtx (ctx_h ctx) buf (Z.of_nat 64) (to_u32 (ctx_total ctx + Z.of_nat n)))) as (P1 & P2 & P3 & P4);
      [done|cbn [ctx_buffer]; lia|].
    cbn [ctx_h ctx_buffer ctx_total ctx_size] in *.
    split; cbn [ctx_h ctx_buffer ctx_total ctx_size]; rewrite ?Eq, ?Er, ?P1, ?P4.
    + rewrite hash_blocks_S, hash_blocks_app, Hh by lia. rewrite <- Hbuf, take_ge by lia. reflexivity.
    + reflexivity.
    + cbn [take]. symmetry. apply drop_ge. lia.
    + rewrite P2. reflexivity.
    + exact Htot.
  - assert (List.length (m ++ p) / 64 = q)%nat as Eq by (rewrite HL'; nlia).
    assert (List.length (m ++ p) mod 64 = r + n)%nat as Er by (rewrite HL'; nlia).
    split; cbn [ctx_h ctx_buffer ctx_total ctx_size]; rewrite ?Eq, ?Er; try done.
    + by rewrite hash_blocks_app by lia.
    + lia.
Qed.

(** [SHA1_Update] ends, and takes all its data in. *)
Lemma update_loop_spec fuel ctx m data :
  ctx_inv ctx m -> bytes_ok m -> bytes_ok data -> (List.length data <= fuel)%nat ->
  exists ctx', update_loop fuel ctx data = Some ctx' /\ ctx_inv ctx' (m ++ data).
Proof.
  revert ctx m data. induction fuel as [|fuel IH]; intros ctx m data Hi Hm Hd Hf.
  - destruct data; [|simpl in Hf; lia]. exists ctx. by rewrite app_nil_r.
  - destruct data as [|x data']; [exists ctx; by rewrite app_nil_r|].
    change (update_loop (S fuel) ctx (x :: data')) with
      (let n := to_u32 (64 - ctx_size ctx) in
       let n := if Zlen (x :: data') <? n then Zlen (x :: data') else n in
       update_loop fuel (absorb ctx (x :: data') n) (drop (Z.to_nat n) (x :: data'))).
    set (data := x :: data') in *. cbv zeta. rewrite (inv_size _ _ Hi).
    set (r := (List.length m mod 64)%nat).
    assert (r < 64)%nat as Hr by (apply Nat.mod_upper_bound; lia).
    rewrite to_u32_id by (unfold u32_ok; lia).
    set (n := Nat.min (List.length data) (64 - r)).
    replace (if Zlen data <? 64 - Z.of_nat r then Zlen data else 64 - Z.of_nat r) with (Z.of_nat n)
      by (unfold n, Zlen; destruct (Z.ltb_spec (Z.of_nat (List.length data)) (64 - Z.of_nat r)); lia).
    assert (1 <= List.length data)%nat by (unfold data; simpl; lia).
    rewrite Nat2Z.id.
    destruct (IH (absorb ctx data (Z.of_nat n)) (m ++ take n data) (drop n data)) as (c & Hc & Hinv).
    + apply absorb_inv; try done; [unfold n; lia|]. unfold n. fold r. lia.
    + apply bytes_ok_app. split; [done|]. by apply Forall_take.
    + by apply Forall_drop.
    + rewrite length_drop. unfold n. lia.
    + exists c. split; [done|]. by rewrite <- app_assoc, take_drop in Hinv.
Qed.

Lemma update_all_spec pieces ctx m :
  ctx_inv ctx m -> bytes_ok m -> Forall bytes_ok pieces ->
  exists ctx', update_all ctx pieces = Some ctx' /\ ctx_inv ctx' (m ++ concat pieces).
Proof.
  revert ctx m. induction pieces as [|p ps IH]; intros ctx m Hi Hm Hp.
  - exists ctx. cbn. by rewrite app_nil_r.
  - apply Forall_cons in Hp as [Hp Hps].
    destruct (update_loop_spec (List.length p) ctx m p) as (c & Hc & Hci); [done|done|done|lia|].
    destruct (IH c (m ++ p)) as (c' & Hc' & Hci'); [done|by apply bytes_ok_app|done|].
    exists c'. cbn [update_all concat]. unfold SHA1_Update. rewrite Hc. cbn [mbind option_bind]. split; [done|].
    by rewrite app_assoc.
Qed.

(** ** The end *)

Lemma take_pad k : (k < 64)%nat -> take (S k) pad = 128 :: replicate k 0.
Proof. intros Hk. unfold pad. cbn [take]. by rewrite take_replicate, Nat.min_l by lia. Qed.

(** The last two words of the block. *)
Lemma set_length p g hi lo :
  bytes_ok p -> List.length p = 56%nat -> List.length g = 8%nat ->
  bytes_of (<[15%nat := swap32 lo]> (<[14%nat := swap32 hi]> (words_of (p ++ g)))) = p ++ be_bytes hi ++ be_bytes lo.
Proof.
  intros Hp Hl Hg. do 9 (destruct g as [|? g]; try discriminate Hg).
  assert (Nat.divide 4 (List.length p)) as Hdiv by (rewrite Hl; by exists 14%nat).
  assert (List.length (words_of p) = 14%nat) as Hw.
  { clear -Hl. do 57 (destruct p as [|? p]; try discriminate Hl). done. }
  rewrite words_of_app by done. cbn [words_of].
  rewrite insert_app_r_alt by lia. rewrite Hw. change (14 - 14)%nat with 0%nat. cbn [insert list_insert].
  rewrite insert_app_r_alt by lia. rewrite Hw. change (15 - 14)%nat with 1%nat. cbn [insert list_insert].
  unfold bytes_of. rewrite map_app, concat_app. cbn [map concat].
  rewrite !word_bytes_swap. fold (bytes_of (words_of p)). rewrite bytes_of_words by done. by rewrite app_nil_r.
Qed.

Lemma Final_spec ctx m :
  ctx_inv ctx m -> bytes_ok m -> Zlen m < 536870912 -> option_map fst (SHA1_Final ctx) = Some (fips_sha1 m).
Proof.
  intros Hi Hm Hlen. unfold SHA1_Final. cbv zeta. rewrite (inv_size _ _ Hi), (inv_total _ _ Hi).
  set (r := (List.length m mod 64)%nat).
  assert (r < 64)%nat as Hr by (apply Nat.mod_upper_bound; lia).
  set (k := Z.to_nat ((55 - Zlen m) mod 64)).
  assert (k < 64)%nat as Hk by (unfold k; clear; pose proof (Z.mod_pos_bound (55 - Zlen m) 64); lia).
  assert ((if Z.of_nat r <? 56 then 56 - Z.of_nat r else 64 + 56 - Z.of_nat r) = Z.of_nat (S k)) as ->.
  { unfold k, r, Zlen. clear. destruct (Z.ltb_spec (Z.of_nat (List.length m mod 64)) 56); nlia. }
  rewrite Nat2Z.id, take_pad by done.
  set (p1 := 128 :: replicate k 0).
  assert (bytes_ok p1) as Hp1 by (unfold p1; constructor; [done|]; by apply Forall_replicate).
  assert (List.length p1 = S k) as Hp1l by (unfold p1; simpl; by rewrite length_replicate).
  destruct (update_loop_spec (List.length p1) ctx m p1) as (c & Hc & [Ch Cs Cd Cl _]); [done|done|done|lia|].
  unfold SHA1_Update. rewrite Hc. cbn [mbind option_bind].
  assert (List.length (m ++ p1) mod 64 = 56)%nat as Emod.
  { rewrite length_app, Hp1l. unfold k, Zlen. clear. nlia. }
  set (q := (List.length (m ++ p1) / 64)%nat) in *. rewrite Emod in *.
  assert (List.length (m ++ p1) = 64 * q + 56)%nat as Hq.
  { pose proof (Nat.div_mod_eq (List.length (m ++ p1)) 64). unfold q. lia. }
  assert (to_u32 (to_u32 (Zlen m) * 8) = 8 * Zlen m) as Etot.
  { pose proof (Zlen_nonneg m). rewrite (to_u32_id (Zlen m)) by (unfold u32_ok; lia).
    rewrite Z.mul_comm. apply to_u32_id. unfold u32_ok. lia. }
  rewrite Etot. rewrite (to_u32_id (8 * Zlen m)) by (pose proof (Zlen_nonneg m); unfold u32_ok; lia).
  set (L := 8 * Zlen m) in *.
  assert (to_u32 (Z.shiftr L 32) = 0) as ->.
  { pose proof (Zlen_nonneg m). rewrite Z.shiftr_div_pow2 by lia. rewrite Z.div_small; [done|]. unfold L. lia. }
  set (b := take 56 (ctx_buffer c)) in *.
  assert (List.length b = 56%nat) as Hb by (unfold b; rewrite length_take; lia).
  assert (bytes_ok b) as Hbok by (rewrite Cd; apply Forall_drop, bytes_ok_app; done).
  rewrite <- (take_drop 56 (ctx_buffer c)). fold b. rewrite set_length; [|done|done|rewrite length_drop; lia].
  set (B := b ++ be_bytes 0 ++ be_bytes L).
  destruct (ProcessBlock_spec (mkCtx (ctx_h c) B (ctx_size c) (ctx_total c))) as (P1 & _).
  { cbn [ctx_buffer]. unfold B. rewrite !bytes_ok_app. split; [done|]. split; apply be_bytes_ok. }
  { cbn [ctx_buffer]. unfold B. rewrite !length_app, Hb. done. }
  cbn [option_map fst ctx_h ctx_buffer] in *. rewrite P1. f_equal.
  unfold fips_sha1.
  assert (padded m = (m ++ p1) ++ be_bytes 0 ++ be_bytes L) as ->.
  { unfold padded. fold k. unfold p1. rewrite <- !app_assoc. cbn [app]. do 3 f_equal.
    fold L. replace (L / 2 ^ 32) with 0; [done|]. pose proof (Zlen_nonneg m). symmetry. apply Z.div_small. unfold L. lia. }
  set (e := be_bytes 0 ++ be_bytes L). assert (List.length e = 8%nat) as He by done.
  replace (List.length ((m ++ p1) ++ e) / 64)%nat with (S q) by (rewrite length_app, He, Hq; nlia).
  rewrite hash_blocks_S, hash_blocks_app by lia. rewrite drop_app_le by lia. rewrite <- Cd, <- Ch.
  rewrite (take_ge _ 64) by (rewrite length_app, Hb, He; lia).
  unfold bytes_of. rewrite map_map. f_equal. apply map_ext. intros w. apply word_bytes_swap.
Qed.

(** C36. SHA-1.  Whatever context [SHA1_Init] is given and however the message is cut into
    pieces for [SHA1_Update], the loops end and [SHA1_Final] returns the SHA-1 digest of
    FIPS 180-4, for messages of less than 2^29 bytes, whose length in bits the 32 bits of
    the counter can hold. *)
Theorem SHA1_correct (ctx : SHA_CTX) (pieces : list (list Z)) :
  List.length (ctx_buffer ctx) = 64%nat -> Forall bytes_ok pieces -> Zlen (concat pieces) < 536870912 ->
  SHA1 ctx pieces = Some (fips_sha1 (concat pieces)).
Proof.
  intros Hc Hp Hlen. unfold SHA1.
  destruct (update_all_spec pieces (SHA1_Init ctx) []) as (c & Hu & Hi); [by apply Init_inv|constructor|done|].
  rewrite Hu. cbn [mbind option_bind]. change ([] ++ concat pieces) with (concat pieces) in Hi.
  assert (bytes_ok (concat pieces)) as Hb by (by apply Forall_concat).
  pose proof (Final_spec c (concat pieces) Hi Hb Hlen) as E.
  destruct (SHA1_Final c) as [[d c']|]; [|discriminate E]. injection E as <-. done.
Qed.

Lemma SHA1_correct_witness :
  SHA1 fresh_ctx [chars "this "; chars "string"] = Some (fips_sha1 (chars "this string")) /\
  hex (fips_sha1 (chars "this string")) = chars "fda4e74bc7489a18b146abdf23346d166663dab8".
Proof.
  split; [|vm_compute; reflexivity].
  apply (SHA1_correct fresh_ctx [chars "this "; chars "string"]); [done|by_compute|by_compute].
Defined.

End SHA1.
