(* ===== verification/Socket.v ===== *)
(** * Sockets ([src/src/Socket.c]) and their buffers ([src/src/SocketBuffer.c])

    Non-blocking reads and writes, with the operating system as an interface: what has
    been read of a packet is kept until the rest of it arrives, what could not be
    written is kept until the connection takes it.  Lists are those of [LinkedList]. *)

From S2P Require Import Prelude.
From S2P Require Import LinkedList.
From S2P Require Import Clients.
From Stdlib Require Import ZArith Lia List.
From stdpp Require Import base numbers list gmap.

Open Scope Z_scope.

Module Socket.
Import LinkedList Clients.

(** ** The operating system

    The calls return the value of the C function and [errno].  [sys_select] is given
    the read and the write sets, and returns those that are ready. *)
Class Sys (O : Type) := {
  sys_recv : Z -> Z -> O -> Z * Z * list Z * O;
  sys_writev : Z -> list (list Z) -> O -> Z * Z * O;
  sys_select : gset Z -> gset Z -> O -> Z * gset Z * gset Z * O;
  sys_nonblock : Z -> O -> Z * O;
  sys_close : Z -> O -> O;
  sys_clock : O -> Z * O
}.

(** What POSIX says of them: [recv] returns at most as many bytes as asked for, the next
    ones of what the socket receives ([received] so far); [writev] takes a part of the
    bytes, and the stream of a socket ([sent]) is what it has taken. *)
Class SysLaws (O : Type) `{Sys O} := {
  sent : Z -> O -> list Z;
  received : Z -> O -> list Z;
  recv_law sk n o rc e d o' :
    sys_recv sk n o = (rc, e, d, o') -> 0 < n ->
    (rc = SOCKET_ERROR /\ d = []) \/ (0 <= rc <= n /\ rc = Zlen d /\ bytes_ok d);
  recv_received sk n o rc e d o' sk' :
    sys_recv sk n o = (rc, e, d, o') -> received sk' o' = received sk' o ++ (if sk' =? sk then d else []);
  recv_sent sk n o rc e d o' sk' : sys_recv sk n o = (rc, e, d, o') -> sent sk' o' = sent sk' o;
  writev_law sk bufs o rc e o' :
    sys_writev sk bufs o = (rc, e, o') ->
    (rc = SOCKET_ERROR /\ sent sk o' = sent sk o) \/
    (0 <= rc <= Zlen (concat bufs) /\ sent sk o' = sent sk o ++ take (Z.to_nat rc) (concat bufs));
  writev_other sk bufs o rc e o' sk' :
    sys_writev sk bufs o = (rc, e, o') -> sk' <> sk -> sent sk' o' = sent sk' o;
  writev_received sk bufs o rc e o' sk' : sys_writev sk bufs o = (rc, e, o') -> received sk' o' = received sk' o;
  select_sent r w o rc r' w' o' sk : sys_select r w o = (rc, r', w', o') -> sent sk o' = sent sk o
}.

Definition EAGAIN : Z := 11.
Definition EWOULDBLOCK : Z := 11.

(** ** Data *)

(** [socket_queue]; the bytes of [buf] that have not been written are [None]. *)
Record socket_queue := mkQueue {
  sq_socket : Z;
  sq_index : Z;
  sq_headerlen : Z;
  sq_fixed_header : list Z;
  sq_buflen : Z;
  sq_datalen : Z;
  sq_buf : list (option Z)
}.

(** [pending_writes]: the buffers are those of the caller until the write is complete. *)
Record pending_writes := mkWrite {
  w_socket : Z;
  w_total : Z;
  w_bytes : Z;
  w_iovecs : list (list Z);
  w_frees : list Z
}.

(** [Sockets], with the static [wset]. *)
Record Sockets := mkSockets {
  rset : gset Z;
  rset_saved : gset Z;
  wset : gset Z;
  pending_wset : gset Z;
  maxfdp1 : Z;
  clientsds : AList.t Z;
  cur_clientsds : option nat;
  connect_pending : AList.t Z;
  write_pending : AList.t Z
}.

(** The variables of the two modules, and the operating system. *)
Record SockSt (O : Type) := mkSock {
  queues : AList.t socket_queue;
  def_queue : socket_queue;
  writes : AList.t pending_writes;
  mod_s : Sockets;
  os : O
}.
Arguments mkSock {O}.
Arguments queues {O}.
Arguments def_queue {O}.
Arguments writes {O}.
Arguments mod_s {O}.
Arguments os {O}.

(** The variables after [Socket_outInitialize] and [SocketBuffer_initialize]; [wset] is
    not initialised by the code, and is a static variable. *)
Definition newDefQ : socket_queue := mkQueue 0 0 0 (replicate 5 0) 0 0 (replicate 1000 None).
Definition Socket_outInitialize {OS} (o : OS) : SockSt OS :=
  mkSock AList.empty newDefQ AList.empty (mkSockets ∅ ∅ ∅ ∅ 0 AList.empty None AList.empty AList.empty) o.

Section Socket.
Context {OS : Type} `{Sys OS}.
Abbreviation St := (SockSt OS).
Abbreviation M := (SM (SockSt OS)).

Definition set_queues (l : AList.t socket_queue) (s : St) : St := mkSock l (def_queue s) (writes s) (mod_s s) (os s).
Definition set_def (q : socket_queue) (s : St) : St := mkSock (queues s) q (writes s) (mod_s s) (os s).
Definition set_writes (l : AList.t pending_writes) (s : St) : St := mkSock (queues s) (def_queue s) l (mod_s s) (os s).
Definition set_mod (m : Sockets) (s : St) : St := mkSock (queues s) (def_queue s) (writes s) m (os s).
Definition set_os (o : OS) (s : St) : St := mkSock (queues s) (def_queue s) (writes s) (mod_s s) o.

(** ** [SocketBuffer.c] *)

Definition socketcompare (sk : Z) (q : socket_queue) : bool := sq_socket q =? sk.
Definition pending_socketcompare (sk : Z) (w : pending_writes) : bool := w_socket w =? sk.

(** [SocketBuffer_newDefQ]: 1000 bytes are allocated, and [buflen] is 0. *)
Definition SocketBuffer_newDefQ : M () := sm_modify (set_def newDefQ).

(** [ListFindItem(queues, &socket, socketcompare)]: the index and the queue. *)
Definition find_queue (sk : Z) : M (option (nat * socket_queue)) :=
  s ← sm_get;
  let '(r, l) := AList.find (socketcompare sk) (queues s) in
  _ ← sm_modify (set_queues l);
  mret (i ← r; q ← AList.items l !! i; Some (i, q)).

Definition write_queue (found : option (nat * socket_queue)) (q : socket_queue) : M () :=
  match found with
  | Some (i, _) => sm_modify (fun s => set_queues (AList.mk (<[i := q]> (AList.items (queues s))) (AList.current (queues s))) s)
  | None => sm_modify (set_def q)
  end.

Definition clear_queue (q : socket_queue) : socket_queue :=
  mkQueue 0 0 0 (sq_fixed_header q) (sq_buflen q) 0 (sq_buf q).

(** [SocketBuffer_writeComplete] *)
Definition SocketBuffer_writeComplete (sk : Z) : M bool :=
  s ← sm_get;
  let '(r, l) := AList.unlink (pending_socketcompare sk) (writes s) in
  _ ← sm_modify (set_writes l);
  mret (bool_decide (is_Some r)).

(** [SocketBuffer_cleanup] *)
Definition SocketBuffer_cleanup (sk : Z) : M () :=
  _ ← SocketBuffer_writeComplete sk;
  found ← find_queue sk;
  _ ← match found with
      | Some (i, _) => sm_modify (fun s => set_queues (AList.remove_at i (queues s)) s)
      | None => mret ()
      end;
  sm_modify (fun s => if sq_socket (def_queue s) =? sk then set_def (clear_queue (def_queue s)) s else s).

(** [malloc] and [realloc] of a buffer.  When the buffer of a queue with data is too
    small the new one is copied onto itself, and the data is lost. *)
Definition grow (q : socket_queue) (bytes : Z) : socket_queue :=
  if sq_buflen q <? bytes then
    mkQueue (sq_socket q) (sq_index q) (sq_headerlen q) (sq_fixed_header q) bytes (sq_datalen q)
      (if 0 <? sq_datalen q then replicate (Z.to_nat bytes) None
       else take (Z.to_nat bytes) (sq_buf q ++ replicate (Z.to_nat bytes - List.length (sq_buf q)) None))
  else q.

(** [SocketBuffer_getQueuedData]: the length of the data in the buffer. *)
Definition SocketBuffer_getQueuedData (sk bytes : Z) : M Z :=
  found ← find_queue sk;
  s ← sm_get;
  let q := match found with Some (_, q) => q | None => def_queue s end in
  _ ← write_queue found (grow q bytes);
  mret (match found with Some (_, q) => sq_datalen q | None => 0 end).

Definition SOCKETBUFFER_COMPLETE : Z := 0.
Definition SOCKETBUFFER_INTERRUPTED : Z := -22.

(** [SocketBuffer_getQueuedChar] *)
Definition SocketBuffer_getQueuedChar (sk : Z) : M (Z * Z) :=
  found ← find_queue sk;
  match found with
  | None => mret (SOCKETBUFFER_INTERRUPTED, 0)
  | Some (i, q) =>
      if sq_index q <? sq_headerlen q then
        match sq_fixed_header q !! Z.to_nat (sq_index q) with
        | None => sm_oob
        | Some c =>
            _ ← write_queue found (mkQueue (sq_socket q) (sq_index q + 1) (sq_headerlen q) (sq_fixed_header q)
                  (sq_buflen q) (sq_datalen q) (sq_buf q));
            mret (SOCKETBUFFER_COMPLETE, c)
        end
      else if 4 <? sq_index q then mret (SOCKET_ERROR, 0)
      else mret (SOCKETBUFFER_INTERRUPTED, 0)
  end.

(** [SocketBuffer_interrupted] *)
Definition SocketBuffer_interrupted (sk actual_len : Z) : M () :=
  found ← find_queue sk;
  s ← sm_get;
  match found with
  | Some (i, q) =>
      write_queue found (mkQueue (sq_socket q) 0 (sq_headerlen q) (sq_fixed_header q) (sq_buflen q) actual_len (sq_buf q))
  | None =>
      let q := def_queue s in
      _ ← sm_modify (fun s => set_queues (AList.append
            (mkQueue sk 0 (sq_headerlen q) (sq_fixed_header q) (sq_buflen q) actual_len (sq_buf q)) (queues s)) s);
      SocketBuffer_newDefQ
  end.

(** [SocketBuffer_complete]: the buffer of the queue that becomes the default one. *)
Definition SocketBuffer_complete (sk : Z) : M (list (option Z)) :=
  found ← find_queue sk;
  _ ← match found with
      | Some (i, q) =>
          _ ← sm_modify (set_def q);
          sm_modify (fun s => set_queues (AList.remove_at i (queues s)) s)
      | None => mret ()
      end;
  _ ← sm_modify (fun s => set_def (clear_queue (def_queue s)) s);
  s ← sm_get;
  mret (sq_buf (def_queue s)).

(** [SocketBuffer_queueChar] *)
Definition SocketBuffer_queueChar (sk c : Z) : M () :=
  found ← find_queue sk;
  s ← sm_get;
  let d := def_queue s in
  let '(q, error) :=
    match found with
    | Some (_, q) => (q, false)
    | None =>
        if sq_socket d =? 0 then
          (mkQueue sk 0 (sq_headerlen d) (sq_fixed_header d) (sq_buflen d) 0 (sq_buf d), false)
        else (d, negb (sq_socket d =? sk))
    end in
  let q :=
    if error || (4 <? sq_index q) then q
    else mkQueue (sq_socket q) (sq_index q + 1) (sq_index q + 1)
           (<[Z.to_nat (sq_index q) := c]> (sq_fixed_header q)) (sq_buflen q) (sq_datalen q) (sq_buf q) in
  write_queue found q.

(** [SocketBuffer_pendingWrite] *)
Definition SocketBuffer_pendingWrite (sk : Z) (iovecs : list (list Z)) (frees : list Z) (total bytes : Z) : M () :=
  sm_modify (fun s => set_writes (AList.append (mkWrite sk total bytes iovecs frees) (writes s)) s).

(** [SocketBuffer_getWrite] *)
Definition SocketBuffer_getWrite (sk : Z) : M (option (nat * pending_writes)) :=
  s ← sm_get;
  let '(r, l) := AList.find (pending_socketcompare sk) (writes s) in
  _ ← sm_modify (set_writes l);
  mret (i ← r; w ← AList.items l !! i; Some (i, w)).

Definition write_write (i : nat) (w : pending_writes) : M () :=
  sm_modify (fun s => set_writes (AList.mk (<[i := w]> (AList.items (writes s))) (AList.current (writes s))) s).

(** [SocketBuffer_updateWrite]: whether there is a pending write. *)
Definition SocketBuffer_updateWrite (sk : Z) (topic payload : list Z) : M bool :=
  found ← SocketBuffer_getWrite sk;
  match found with
  | None => mret false
  | Some (i, w) =>
      _ ← (if Zlen (w_iovecs w) =? 4
           then write_write i (mkWrite (w_socket w) (w_total w) (w_bytes w)
                  (<[3%nat := payload]> (<[2%nat := topic]> (w_iovecs w))) (w_frees w))
           else mret ());
      mret true
  end.

(** ** [Socket.c]: writing *)

Definition intcompare (a b : Z) : bool := a =? b.

Definition modify_mod (f : Sockets -> Sockets) : M () := sm_modify (fun s => set_mod (f (mod_s s)) s).
Definition set_write_pending (l : AList.t Z) (m : Sockets) : Sockets :=
  mkSockets (rset m) (rset_saved m) (wset m) (pending_wset m) (maxfdp1 m) (clientsds m) (cur_clientsds m)
    (connect_pending m) l.
Definition set_pending_wset (x : gset Z) (m : Sockets) : Sockets :=
  mkSockets (rset m) (rset_saved m) (wset m) x (maxfdp1 m) (clientsds m) (cur_clientsds m)
    (connect_pending m) (write_pending m).
Definition set_connect_pending (l : AList.t Z) (m : Sockets) : Sockets :=
  mkSockets (rset m) (rset_saved m) (wset m) (pending_wset m) (maxfdp1 m) (clientsds m) (cur_clientsds m)
    l (write_pending m).
Definition set_clientsds (l : AList.t Z) (cur : option nat) (m : Sockets) : Sockets :=
  mkSockets (rset m) (rset_saved m) (wset m) (pending_wset m) (maxfdp1 m) l cur
    (connect_pending m) (write_pending m).
Definition set_sets (r rs w : gset Z) (maxfd : Z) (m : Sockets) : Sockets :=
  mkSockets r rs w (pending_wset m) maxfd (clientsds m) (cur_clientsds m) (connect_pending m) (write_pending m).

(** [Socket_noPendingWrites] *)
Definition Socket_noPendingWrites (sk : Z) : M bool :=
  s ← sm_get;
  let '(r, l) := AList.find (intcompare sk) (write_pending (mod_s s)) in
  _ ← modify_mod (set_write_pending l);
  mret (bool_decide (r = None)).

Definition call_os {A} (f : OS -> A * OS) : M A :=
  fun s => let '(a, o) := f (os s) in Ok (a, set_os o s).

(** [Socket_writev]: the code and the number of bytes written. *)
Definition Socket_writev (sk : Z) (iovecs : list (list Z)) : M (Z * Z) :=
  '(rc, err) ← call_os (sys_writev sk iovecs);
  if rc =? SOCKET_ERROR then
    mret (if (err =? EWOULDBLOCK) || (err =? EAGAIN) then TCPSOCKET_INTERRUPTED else rc, 0)
  else mret (rc, rc).

(** [Socket_putdatas] *)
Definition Socket_putdatas (sk : Z) (buf0 : list Z) (buffers : list (list Z)) (frees : list Z) : M Z :=
  ready ← Socket_noPendingWrites sk;
  if negb ready then mret SOCKET_ERROR
  else
    let iovecs := buf0 :: buffers in
    let total := foldl (fun t b => t + Zlen b) (Zlen buf0) buffers in
    '(rc, bytes) ← Socket_writev sk iovecs;
    if rc =? SOCKET_ERROR then mret SOCKET_ERROR
    else if bytes =? total then mret TCPSOCKET_COMPLETE
    else
      _ ← SocketBuffer_pendingWrite sk iovecs (1 :: frees) total bytes;
      _ ← modify_mod (fun m => set_write_pending (AList.append sk (write_pending m)) m);
      _ ← modify_mod (fun m => set_pending_wset ({[sk]} ∪ pending_wset m) m);
      mret TCPSOCKET_INTERRUPTED.

(** The buffers of [Socket_continueWrite]: those not written yet, the first one from
    where the write stopped. *)
Fixpoint rest_iovecs (bytes curbuflen : Z) (iovecs : list (list Z)) : list (list Z) :=
  match iovecs with
  | [] => []
  | v :: r =>
      let rest := rest_iovecs bytes (curbuflen + Zlen v) r in
      if bytes <=? curbuflen then v :: rest
      else if bytes <? curbuflen + Zlen v then drop (Z.to_nat (bytes - curbuflen)) v :: rest
      else rest
  end.

(** [Socket_continueWrite]: 1 when the write is complete, 0 when it is not. *)
Definition Socket_continueWrite (sk : Z) : M Z :=
  found ← SocketBuffer_getWrite sk;
  match found with
  | None => sm_oob
  | Some (i, w) =>
      '(rc, bytes) ← Socket_writev sk (rest_iovecs (w_bytes w) 0 (w_iovecs w));
      if rc =? SOCKET_ERROR then mret SOCKET_ERROR
      else
        _ ← write_write i (mkWrite (w_socket w) (w_total w) (w_bytes w + bytes) (w_iovecs w) (w_frees w));
        mret (if w_bytes w + bytes =? w_total w then 1 else 0)
  end.

(** [Socket_continueWrites]: the code, the socket with an error, and the calls of
    [writecomplete].  [i] is the element [curpending]; after a removal the loop goes on
    from the cursor of the list, which need not be the next element.  The fuel allows a
    whole turn after each removal; [Fail] is a loop that has not ended with it. *)
Fixpoint continue_loop (fuel : nat) (i : option nat) (pwset : gset Z) (rc1 sock : Z) (calls : list (Z * Z))
    : M (Z * Z * list (Z * Z)) :=
  s ← sm_get;
  match i ≫= fun i => (fun sk => (i, sk)) <$> AList.items (write_pending (mod_s s)) !! i with
  | None => mret (rc1, sock, calls)
  | Some (i, sk) =>
      match fuel with
      | O => sm_fail
      | S fuel =>
          rc ← (if bool_decide (sk ∈ pwset) then Socket_continueWrite sk else mret 0);
          let rc1 := if rc =? SOCKET_ERROR then SOCKET_ERROR else rc1 in
          let sock := if rc =? SOCKET_ERROR then sk else sock in
          if rc =? 0 then continue_loop fuel (Some (S i)) pwset rc1 sock calls
          else
            _ ← SocketBuffer_writeComplete sk;
            _ ← modify_mod (fun m => set_pending_wset (pending_wset m ∖ {[sk]}) m);
            _ ← modify_mod (fun m => set_write_pending (AList.remove_at i (write_pending m)) m);
            s ← sm_get;
            continue_loop fuel (AList.current (write_pending (mod_s s))) pwset rc1 sock (calls ++ [(sk, rc)])
      end
  end.
Definition Socket_continueWrites (pwset : gset Z) (sock : Z) : M (Z * Z * list (Z * Z)) :=
  s ← sm_get;
  let l := AList.items (write_pending (mod_s s)) in
  continue_loop (S (List.length l) * S (List.length l)) (match l with [] => None | _ => Some 0%nat end) pwset 0 sock [].

(** ** [Socket.c]: reading *)

(** [Socket_getch]: the code and the character. *)
Definition Socket_getch (sk : Z) : M (Z * Z) :=
  '(rc, c) ← SocketBuffer_getQueuedChar sk;
  if negb (rc =? SOCKETBUFFER_INTERRUPTED) then mret (rc, c)
  else
    '(rc, err, d) ← call_os (sys_recv sk 1);
    if rc =? SOCKET_ERROR then
      if (err =? EWOULDBLOCK) || (err =? EAGAIN) then
        _ ← SocketBuffer_interrupted sk 0; mret (TCPSOCKET_INTERRUPTED, c)
      else mret (SOCKET_ERROR, c)
    else if rc =? 0 then mret (SOCKET_ERROR, c)
    else
      let c := default 0 (head d) in
      _ ← SocketBuffer_queueChar sk c;
      mret (TCPSOCKET_COMPLETE, c).

(** [recv] into the buffer of the queue of the socket, from [actual_len] on. *)
Definition recv_into (found : option (nat * socket_queue)) (actual_len : Z) (d : list Z) : M () :=
  s ← sm_get;
  let q := match found with Some (i, q) => default q (AList.items (queues s) !! i) | None => def_queue s end in
  if Zlen (sq_buf q) <? actual_len + Zlen d then sm_oob
  else
    write_queue found (mkQueue (sq_socket q) (sq_index q) (sq_headerlen q) (sq_fixed_header q) (sq_buflen q)
      (sq_datalen q)
      (take (Z.to_nat actual_len) (sq_buf q) ++ map Some d ++ drop (Z.to_nat (actual_len + Zlen d)) (sq_buf q))).

(** [Socket_getdata]: the buffer ([None] for [NULL]), [actual_len] and [rc]; the caller's
    variables are given, for the paths that leave them alone. *)
Definition Socket_getdata (sk bytes actual_len0 rc0 : Z) : M (option (list (option Z)) * Z * Z) :=
  if bytes =? 0 then
    buf ← SocketBuffer_complete sk; mret (Some buf, actual_len0, rc0)
  else
    actual_len ← SocketBuffer_getQueuedData sk bytes;
    '(rc, err, d) ← call_os (sys_recv sk (bytes - actual_len));
    if (rc =? SOCKET_ERROR) && negb (err =? EAGAIN) && negb (err =? EWOULDBLOCK) then mret (None, actual_len, err)
    else if rc =? 0 then mret (None, actual_len, 0)
    else
      found ← find_queue sk;
      _ ← recv_into found actual_len d;
      let rc' := if rc =? SOCKET_ERROR then err else rc in
      let actual_len := if rc =? SOCKET_ERROR then actual_len else actual_len + rc in
      s ← sm_get;
      let buf := sq_buf (match found with Some (i, q) => default q (AList.items (queues s) !! i) | None => def_queue s end) in
      _ ← (if actual_len =? bytes then _ ← SocketBuffer_complete sk; mret ()
           else SocketBuffer_interrupted sk actual_len);
      mret (Some buf, actual_len, rc').

(** ** [Socket.c]: the sockets in use *)

Definition FD_SETSIZE : Z := 1024.

(** [Socket_addSocket] *)
Definition Socket_addSocket (newSd : Z) : M Z :=
  s ← sm_get;
  let '(r, l) := AList.find (intcompare newSd) (clientsds (mod_s s)) in
  _ ← modify_mod (fun m => set_clientsds l (cur_clientsds m) m);
  match r with
  | Some _ => mret 0
  | None =>
      if FD_SETSIZE <=? Zlen (AList.items l) then mret SOCKET_ERROR
      else
        _ ← modify_mod (fun m => set_clientsds (AList.append newSd (clientsds m)) (cur_clientsds m) m);
        _ ← modify_mod (fun m => set_sets (rset m) ({[newSd]} ∪ rset_saved m) (wset m)
              (Z.max (maxfdp1 m) (newSd + 1)) m);
        call_os (sys_nonblock newSd)
  end.

(** [isReady], on the sets of the module. *)
Definition isReady (sk : Z) : M bool :=
  s ← sm_get;
  let '(r, l) := AList.find (intcompare sk) (connect_pending (mod_s s)) in
  _ ← modify_mod (set_connect_pending l);
  if bool_decide (is_Some r) && bool_decide (sk ∈ wset (mod_s s)) then
    _ ← modify_mod (fun m => set_connect_pending (snd (AList.unlink (intcompare sk) (connect_pending m))) m);
    mret true
  else if bool_decide (sk ∈ rset (mod_s s)) && bool_decide (sk ∈ wset (mod_s s)) then
    Socket_noPendingWrites sk
  else mret false.

(** The search from the cursor [cur_clientsds] on. *)
Fixpoint ready_loop (fuel : nat) : M () :=
  s ← sm_get;
  let m := mod_s s in
  match cur_clientsds m with
  | None => mret ()
  | Some i =>
      match AList.items (clientsds m) !! i, fuel with
      | None, _ => sm_oob
      | Some _, O => sm_fail
      | Some sk, S fuel =>
          ready ← isReady sk;
          if ready : bool then mret ()
          else
            _ ← modify_mod (fun m => set_clientsds (clientsds m)
                  (if (S i <? List.length (AList.items (clientsds m)))%nat then Some (S i) else None) m);
            ready_loop fuel
      end
  end.
Definition find_ready : M () :=
  s ← sm_get; ready_loop (S (List.length (AList.items (clientsds (mod_s s))))).

(** The end of [Socket_getReadySocket]: the socket at the cursor, which steps on. *)
Definition take_ready : M Z :=
  s ← sm_get;
  let m := mod_s s in
  match cur_clientsds m with
  | None => mret 0
  | Some i =>
      match AList.items (clientsds m) !! i with
      | None => sm_oob
      | Some sk =>
          _ ← modify_mod (fun m => set_clientsds (clientsds m)
                (if (S i <? List.length (AList.items (clientsds m)))%nat then Some (S i) else None) m);
          mret sk
      end
  end.

(** [Socket_getReadySocket]: the socket, [rc], and the calls of [writecomplete]. *)
Definition Socket_getReadySocket : M (Z * Z * list (Z * Z)) :=
  s ← sm_get;
  match AList.items (clientsds (mod_s s)) with
  | [] => mret (0, 0, [])
  | _ =>
      _ ← find_ready;
      s ← sm_get;
      match cur_clientsds (mod_s s) with
      | Some _ => sk ← take_ready; mret (sk, 0, [])
      | None =>
          '(rc, r, pwset) ← call_os (sys_select (rset_saved (mod_s s)) (pending_wset (mod_s s)));
          _ ← modify_mod (fun m => set_sets r (rset_saved m) (wset m) (maxfdp1 m) m);
          if rc =? SOCKET_ERROR then mret (0, SOCKET_ERROR, [])
          else
            '(rc1, sock, done) ← Socket_continueWrites pwset 0;
            if rc1 =? SOCKET_ERROR then mret (sock, SOCKET_ERROR, done)
            else
              s ← sm_get;
              '(rc1, _, w) ← call_os (sys_select ∅ (rset_saved (mod_s s)));
              _ ← modify_mod (fun m => set_sets (rset m) (rset_saved m) w (maxfdp1 m) m);
              if rc1 =? SOCKET_ERROR then mret (sock, rc1, done)
              else if (rc =? 0) && (rc1 =? 0) then mret (0, 0, done)
              else
                _ ← modify_mod (fun m => set_clientsds (clientsds m)
                      (match AList.items (clientsds m) with [] => None | _ => Some 0%nat end) m);
                _ ← find_ready;
                sk ← take_ready;
                mret (sk, 0, done)
      end
  end.

(** [Socket_addPendingWrite] and [Socket_clearPendingWrite] *)
Definition Socket_addPendingWrite (sk : Z) : M () := modify_mod (fun m => set_pending_wset ({[sk]} ∪ pending_wset m) m).
Definition Socket_clearPendingWrite (sk : Z) : M () := modify_mod (fun m => set_pending_wset (pending_wset m ∖ {[sk]}) m).

(** [Socket_abortWrite], which frees the buffers of the write in progress: the memory
    of the buffers is not part of the state. *)
Definition Socket_abortWrite (sk : Z) : M Z := _ ← SocketBuffer_getWrite sk; mret 0.

(** [Socket_close_only] *)
Definition Socket_close_only (sk : Z) : M () := sm_modify (fun s => set_os (sys_close sk (os s)) s).

(** [Socket_close] *)
Definition Socket_close (sk : Z) : M () :=
  _ ← Socket_close_only sk;
  _ ← modify_mod (fun m => set_sets (rset m) (rset_saved m ∖ {[sk]}) (wset m) (maxfdp1 m) m);
  _ ← Socket_clearPendingWrite sk;
  s ← sm_get;
  let m := mod_s s in
  let cur := match cur_clientsds m ≫= fun i => AList.items (clientsds m) !! i with
             | Some x => if x =? sk then
                           match cur_clientsds m with
                           | Some i => if (S i <? List.length (AList.items (clientsds m)))%nat then Some (S i) else None
                           | None => None
                           end
                         else cur_clientsds m
             | None => cur_clientsds m
             end in
  _ ← Socket_abortWrite sk;
  _ ← SocketBuffer_cleanup sk;
  _ ← modify_mod (fun m => set_connect_pending (snd (AList.unlink (intcompare sk) (connect_pending m))) m);
  _ ← modify_mod (fun m => set_write_pending (snd (AList.unlink (intcompare sk) (write_pending m))) m);
  s ← sm_get;
  let '(r, l) := AList.find (intcompare sk) (clientsds (mod_s s)) in
  (* the element of the cursor is the same one, at its new index *)
  let cur := match r, cur with
             | Some i, Some j => if (i <? j)%nat then Some (pred j) else Some j
             | _, _ => cur
             end in
  let l := match r with Some i => AList.remove_at i l | None => l end in
  _ ← modify_mod (set_clientsds l cur);
  modify_mod (fun m =>
    if maxfdp1 m <=? sk + 1
    then set_sets (rset m) (rset_saved m) (wset m) (foldl Z.max 0 (AList.items (clientsds m)) + 1) m
    else m).

End Socket.

(** ** A scripted operating system

    It gives the input in chunks (an empty chunk is a read that would block), takes a
    write up to the next limit (a negative one is an error), and has every socket
    ready.  It shows that the laws can hold, and runs the examples. *)
Record Script := mkScript {
  sc_input : list (list Z);
  sc_limits : list Z;
  sc_log : list (Z * list Z);
  sc_read : list (Z * list Z)
}.

(** The bytes of a socket in a log. *)
Definition bytes_of (sk : Z) (l : list (Z * list Z)) : list Z := concat (map snd (filter (fun p => fst p = sk) l)).

Lemma bytes_of_snoc sk l sk' d : bytes_of sk (l ++ [(sk', d)]) = bytes_of sk l ++ (if sk =? sk' then d else []).
Proof.
  unfold bytes_of. rewrite filter_app, map_app, concat_app. f_equal. destruct (Z.eqb_spec sk sk') as [->|Hne].
  - rewrite filter_cons_True by done. cbn. by rewrite app_nil_r.
  - by rewrite filter_cons_False by (cbn; congruence).
Qed.

Definition script_recv (sk n : Z) (o : Script) : Z * Z * list Z * Script :=
  match sc_input o with
  | [] | [] :: _ => (SOCKET_ERROR, EAGAIN, [], mkScript (tail (sc_input o)) (sc_limits o) (sc_log o) (sc_read o))
  | d :: r =>
      let k := Z.to_nat n in
      let d' := map to_byte (take k d) in
      (Zlen d', 0, d',
       mkScript (if (k <? List.length d)%nat then drop k d :: r else r) (sc_limits o) (sc_log o) (sc_read o ++ [(sk, d')]))
  end.

Definition script_writev (sk : Z) (bufs : list (list Z)) (o : Script) : Z * Z * Script :=
  let all := concat bufs in
  let k := default (Zlen all) (head (sc_limits o)) in
  if k <? 0 then (SOCKET_ERROR, 32, mkScript (sc_input o) (tail (sc_limits o)) (sc_log o) (sc_read o))
  else
    let k := Z.min k (Zlen all) in
    (k, 0, mkScript (sc_input o) (tail (sc_limits o)) (sc_log o ++ [(sk, take (Z.to_nat k) all)]) (sc_read o)).

#[export] Instance script_sys : Sys Script := {
  sys_recv := script_recv;
  sys_writev := script_writev;
  sys_select r w o := (1, r, w, o);
  sys_nonblock sk o := (0, o);
  sys_close sk o := o;
  sys_clock o := (0, o)
}.

#[export] Instance script_laws : SysLaws Script.
Proof.
  refine {| sent sk o := bytes_of sk (sc_log o); received sk o := bytes_of sk (sc_read o) |}.
  - intros sk n [inp lim log rd] rc e d o' Hr Hn. cbn in Hr. unfold script_recv in Hr. cbn [sc_input] in Hr.
    destruct inp as [|[|x l] r]; injection Hr as <- <- <- <-; [by left|by left|]. right.
    split_and!; [apply Zlen_nonneg| |done|].
    + unfold Zlen. rewrite length_map, length_take. lia.
    + apply Forall_forall. intros b Hb. apply list_elem_of_fmap in Hb as (y & -> & _). apply to_byte_ok.
  - intros sk n [inp lim log rd] rc e d o' sk' Hr. cbn in Hr. unfold script_recv in Hr. cbn [sc_input] in Hr.
    destruct inp as [|[|x l] r]; injection Hr as <- <- <- <-; cbn [sc_read];
      try (rewrite bytes_of_snoc; done); destruct (sk' =? sk); by rewrite app_nil_r.
  - intros sk n [inp lim log rd] rc e d o' sk' Hr. cbn in Hr. unfold script_recv in Hr. cbn [sc_input] in Hr.
    by destruct inp as [|[|x l] r]; injection Hr as <- <- <- <-.
  - intros sk bufs o rc e o' Hw. cbn in Hw. unfold script_writev in Hw.
    destruct (Z.ltb_spec (default (Zlen (concat bufs)) (head (sc_limits o))) 0); injection Hw as <- <- <-; [by left|].
    right. pose proof (Zlen_nonneg (concat bufs)). split; [lia|].
    cbn [sc_log]. by rewrite bytes_of_snoc, Z.eqb_refl.
  - intros sk bufs o rc e o' sk' Hw Hne. cbn in Hw. unfold script_writev in Hw.
    destruct (Z.ltb_spec (default (Zlen (concat bufs)) (head (sc_limits o))) 0); injection Hw as <- <- <-; [done|].
    cbn [sc_log]. rewrite bytes_of_snoc. destruct (Z.eqb_spec sk' sk); [done|]. by rewrite app_nil_r.
  - intros sk bufs o rc e o' sk' Hw. cbn in Hw. unfold script_writev in Hw.
    by destruct (Z.ltb_spec (default (Zlen (concat bufs)) (head (sc_limits o))) 0); injection Hw as <- <- <-.
  - intros r w o rc r' w' o' sk Hs. cbn in Hs. by injection Hs as <- <- <- <-.
Defined.

End Socket.
