(* ===== verification/Writes.v ===== *)
(** * What is written to a socket ([src/src/Socket.c])

    Whatever parts of a write the connection takes at a time, the bytes of a socket are
    those of the frames it accepted, one after the other: a write in progress is never
    mixed with another one. *)

From S2P Require Import Prelude.
From S2P Require Import LinkedList.
From S2P Require Import Clients.
From S2P Require Import Socket.
From Stdlib Require Import ZArith Lia List.
From stdpp Require Import base numbers list gmap.

Open Scope Z_scope.

Module Writes.
Import LinkedList Clients Socket.

(** ** Lists with a key *)

Lemma find_by_key {A} (key : A -> Z) (f : A -> bool) sk (l : AList.t A) :
  (forall x, (f x = true <-> key x = sk)) ->
  match AList.find f l with
  | (Some i, l') => (exists x, AList.items l !! i = Some x /\ key x = sk) /\ l' = AList.mk (AList.items l) (Some i)
  | (None, l') => (sk ∉ map key (AList.items l)) /\ l' = l
  end.
Proof.
  intros Hf. pose proof (AList.find_spec f l) as Hs. destruct (AList.find f l) as [[i|] l'].
  - destruct Hs as [Hh ->]. apply AList.holds_lookup in Hh as (x & Hx & Hk). split; [|done].
    exists x. split; [done|]. by apply Hf.
  - destruct Hs as [Hno ->]. split; [|done]. intros Hin. apply list_elem_of_fmap in Hin as (x & -> & Hin).
    apply list_elem_of_lookup in Hin as [i Hi]. specialize (Hno i). unfold AList.holds in Hno. rewrite Hi in Hno.
    assert (f x = true) by (by apply Hf). congruence.
Qed.

(** With distinct keys there is one index for a key. *)
Lemma NoDup_key {A} (key : A -> Z) l i j x y :
  NoDup (map key l) -> l !! i = Some x -> l !! j = Some y -> key x = key y -> i = j.
Proof.
  intros Hnd Hi Hj He. eapply NoDup_lookup; [exact Hnd| |].
  - by rewrite list_lookup_fmap, Hi.
  - by rewrite list_lookup_fmap, Hj, He.
Qed.

Section Writes.
Context {OS : Type} {SY : Sys OS} {SL : SysLaws OS}.
Implicit Types s : SockSt OS.

(** ** The writes in progress *)

Definition write_ok (w : pending_writes) : Prop :=
  w_total w = Zlen (concat (w_iovecs w)) /\ 0 <= w_bytes w < w_total w.

Definition wlist s : list pending_writes := AList.items (writes s).
Definition plist s : list Z := AList.items (write_pending (mod_s s)).

(** The list of the socket module and the one of the buffer module have the same
    sockets, each at most once. *)
Record writes_inv s : Prop := {
  wi_ok : Forall write_ok (wlist s);
  wi_pending : plist s = map w_socket (wlist s);
  wi_nodup : NoDup (plist s)
}.

(** The bytes of a socket that are still to be written. *)
Definition rest_of (w : pending_writes) : list Z := drop (Z.to_nat (w_bytes w)) (concat (w_iovecs w)).
Definition rest_in (sk : Z) (l : list pending_writes) : list Z :=
  match List.find (pending_socketcompare sk) l with Some w => rest_of w | None => [] end.
Definition rest (sk : Z) s : list Z := rest_in sk (wlist s).

(** States that differ in cursors and in what does not concern writing. *)
Definition wsame s s' : Prop := wlist s' = wlist s /\ plist s' = plist s /\ os s' = os s.

(** The sockets in use, and the sets, are the same. *)
Definition msame s s' : Prop :=
  clientsds (mod_s s') = clientsds (mod_s s) /\ cur_clientsds (mod_s s') = cur_clientsds (mod_s s) /\
  connect_pending (mod_s s') = connect_pending (mod_s s) /\ rset (mod_s s') = rset (mod_s s) /\
  wset (mod_s s') = wset (mod_s s).

Lemma msame_trans s1 s2 s3 : msame s1 s2 -> msame s2 s3 -> msame s1 s3.
Proof. unfold msame. intuition congruence. Qed.

Lemma wsame_inv s s' : wsame s s' -> writes_inv s -> writes_inv s'.
Proof. intros (E1 & E2 & E3) [H1 H2 H3]. split; by rewrite ?E1, ?E2. Qed.

Lemma wsame_rest sk s s' : wsame s s' -> rest sk s' = rest sk s.
Proof. intros (E1 & _). unfold rest. by rewrite E1. Qed.

Lemma rest_in_lookup sk l i w :
  NoDup (map w_socket l) -> l !! i = Some w -> w_socket w = sk -> rest_in sk l = rest_of w.
Proof.
  intros Hnd Hi Hs. unfold rest_in. destruct (List.find (pending_socketcompare sk) l) as [w'|] eqn:E.
  - apply List.find_some in E as [Hin Hp]. apply list_elem_of_In, list_elem_of_lookup in Hin as [j Hj].
    apply Z.eqb_eq in Hp. assert (j = i) as -> by (by eapply NoDup_key; [exact Hnd|..]; [exact Hj|exact Hi|congruence]).
    congruence.
  - pose proof (List.find_none _ _ E w) as Hn. unfold pending_socketcompare in Hn.
    rewrite (proj2 (Z.eqb_eq _ _) Hs) in Hn. discriminate Hn. apply list_elem_of_In, list_elem_of_lookup. by exists i.
Qed.

Lemma rest_in_none sk l : sk ∉ map w_socket l -> rest_in sk l = [].
Proof.
  intros Hn. unfold rest_in. destruct (List.find _ l) as [w|] eqn:E; [|done].
  apply List.find_some in E as [Hin Hp]. apply Z.eqb_eq in Hp. destruct Hn.
  apply list_elem_of_In, in_map_iff. eauto.
Qed.

(** The rest of the other sockets does not depend on the write of one of them. *)
Lemma rest_in_insert sk l i w w' :
  l !! i = Some w -> w_socket w' = w_socket w -> w_socket w <> sk -> rest_in sk (<[i := w']> l) = rest_in sk l.
Proof.
  intros Hi Hs Hne. unfold rest_in. revert i Hi. induction l as [|x l IH]; intros [|i] Hi; [done..| |].
  - injection Hi as ->. cbn. unfold pending_socketcompare at 1 3. rewrite Hs.
    by destruct (Z.eqb_spec (w_socket w) sk).
  - cbn in Hi |- *. destruct (pending_socketcompare sk x); [done|]. by apply IH.
Qed.

Lemma rest_in_snoc sk l w : sk <> w_socket w -> rest_in sk (l ++ [w]) = rest_in sk l.
Proof.
  intros Hne. unfold rest_in. induction l as [|x l IH]; cbn.
  - unfold pending_socketcompare. by destruct (Z.eqb_spec (w_socket w) sk).
  - by destruct (pending_socketcompare sk x).
Qed.

Lemma rest_in_delete sk l i w :
  l !! i = Some w -> w_socket w <> sk -> rest_in sk (delete i l) = rest_in sk l.
Proof.
  intros Hi Hne. unfold rest_in. revert i Hi. induction l as [|x l IH]; intros [|i] Hi; [done..| |].
  - injection Hi as ->. cbn. unfold pending_socketcompare at 2. by destruct (Z.eqb_spec (w_socket w) sk).
  - cbn in Hi |- *. destruct (pending_socketcompare sk x); [done|]. by apply IH.
Qed.

(** ** The calls *)

Lemma wp_noPendingWrites sk s :
  wp (Socket_noPendingWrites sk) s (fun b s' => wsame s s' /\ msame s s' /\ b = bool_decide (sk ∉ plist s)).
Proof.
  unfold Socket_noPendingWrites. apply wp_bind, wp_get.
  pose proof (find_by_key (fun x => x) (intcompare sk) sk (write_pending (mod_s s))) as Hf.
  destruct (AList.find (intcompare sk) (write_pending (mod_s s))) as [r l].
  apply wp_bind, wp_modify, wp_ret. rewrite map_id in Hf.
  assert (forall x, intcompare sk x = true <-> x = sk) as Hc by (intros x; unfold intcompare; rewrite Z.eqb_eq; naive_solver).
  specialize (Hf Hc). destruct r as [i|].
  - destruct Hf as [(x & Hx & ->) ->]. split; [done|]. split; [done|]. rewrite (bool_decide_eq_false_2 (Some i = None)) by done.
    symmetry. apply bool_decide_eq_false_2. intros Hn. apply Hn, list_elem_of_lookup. by exists i.
  - destruct Hf as [Hn ->]. split; [done|]. split; [done|]. by rewrite !bool_decide_eq_true_2.
Qed.

Lemma wp_getWrite sk s :
  wp (SocketBuffer_getWrite sk) s (fun r s' => wsame s s' /\ msame s s' /\
    match r with
    | Some (i, w) => wlist s !! i = Some w /\ w_socket w = sk
    | None => sk ∉ map w_socket (wlist s)
    end).
Proof.
  unfold SocketBuffer_getWrite. apply wp_bind, wp_get.
  pose proof (find_by_key w_socket (pending_socketcompare sk) sk (writes s) (fun x => Z.eqb_eq _ _)) as Hf.
  destruct (AList.find (pending_socketcompare sk) (writes s)) as [[i|] l].
  - destruct Hf as [(w & Hw & Hs) ->]. apply wp_bind, wp_modify, wp_ret. cbn. rewrite Hw. done.
  - destruct Hf as [Hn ->]. apply wp_bind, wp_modify, wp_ret. cbn. done.
Qed.

(** [writev] on a state: the stream of the socket grows by what is taken. *)
Lemma wp_writev sk iov s :
  wp (Socket_writev sk iov) s (fun r s' =>
    wlist s' = wlist s /\ plist s' = plist s /\ msame s s' /\
    (forall sk', sk' <> sk -> sent sk' (os s') = sent sk' (os s)) /\
    ((fst r = SOCKET_ERROR /\ sent sk (os s') = sent sk (os s)) \/
     (fst r <> SOCKET_ERROR /\ 0 <= snd r <= Zlen (concat iov) /\
      sent sk (os s') = sent sk (os s) ++ take (Z.to_nat (snd r)) (concat iov)))).
Proof.
  unfold Socket_writev, call_os. apply wp_bind. destruct (sys_writev sk iov (os s)) as [[rc e] o'] eqn:E.
  exists (rc, e), (set_os o' s). split; [by rewrite E|].
  pose proof (writev_law _ _ _ _ _ _ E) as Hl. pose proof (fun sk' => writev_other _ _ _ _ _ _ sk' E) as Ho.
  destruct (Z.eqb_spec rc SOCKET_ERROR) as [->|Hne].
  - assert (sent sk o' = sent sk (os s)) as Hs.
    { destruct Hl as [[_ Hl]|[[Hr _] _]]; [done|]. unfold SOCKET_ERROR in Hr. lia. }
    apply wp_ret. split; [done|]. split; [done|]. split; [done|]. split; [done|]. cbn [fst snd].
    destruct (_ || _); [right|left; done]. split; [done|]. split; [split; [done|apply Zlen_nonneg]|].
    cbn. by rewrite app_nil_r.
  - apply wp_ret. split; [done|]. split; [done|]. split; [done|]. split; [done|]. right.
    destruct Hl as [[Hr _]|[Hr Hs]]; [done|]. done.
Qed.

Lemma Zlen_concat_foldl (b0 : list Z) (bufs : list (list Z)) : foldl (fun t b => t + Zlen b) (Zlen b0) bufs = Zlen (concat (b0 :: bufs)).
Proof.
  cbn [concat]. rewrite Zlen_app. generalize (Zlen b0). induction bufs as [|b bufs IH]; intros z; cbn [foldl concat].
  - rewrite Zlen_nil. lia.
  - rewrite IH, Zlen_app. lia.
Qed.

(** *** A new write *)

Lemma wp_putdatas sk buf0 bufs frees s :
  writes_inv s ->
  wp (Socket_putdatas sk buf0 bufs frees) s (fun rc s' =>
    writes_inv s' /\ msame s s' /\
    (forall sk', sk' <> sk -> sent sk' (os s') = sent sk' (os s) /\ rest sk' s' = rest sk' s) /\
    (sk ∈ plist s -> rc = SOCKET_ERROR) /\
    sent sk (os s') ++ rest sk s' =
      sent sk (os s) ++ rest sk s ++ (if rc =? SOCKET_ERROR then [] else concat (buf0 :: bufs)) /\
    (rc = TCPSOCKET_COMPLETE -> rest sk s' = []) /\ (rc = TCPSOCKET_INTERRUPTED -> rest sk s' <> [])).
Proof.
  intros Hi. unfold Socket_putdatas. apply wp_bind. eapply wp_mono; [apply wp_noPendingWrites|].
  intros b s1 (Hs1 & Hm1 & ->). pose proof (wsame_inv _ _ Hs1 Hi) as Hi1. destruct Hs1 as (E1 & E2 & E3).
  destruct (bool_decide_reflect (sk ∉ plist s)) as [Hn|Hp]; cbn [negb].
  2: { apply wp_ret. split; [done|]. split; [done|]. unfold rest. rewrite E1, E3.
       split; [done|]. split; [done|]. split; [by rewrite app_nil_r|done]. }
  apply wp_bind. eapply wp_mono; [apply wp_writev|].
  intros [rc n] s2 (F1 & F2 & Hm2 & F3 & F4). cbn [fst snd] in F4. pose proof (msame_trans _ _ _ Hm1 Hm2) as Hm.
  assert (writes_inv s2) as Hi2 by (destruct Hi1; split; by rewrite ?F1, ?F2).
  assert (rest sk s = []) as Hr0.
  { unfold rest. apply rest_in_none. by rewrite <- (wi_pending _ Hi). }
  assert (forall sk', rest sk' s2 = rest sk' s) as Hr2 by (intros sk'; unfold rest; by rewrite F1, E1).
  destruct (Z.eqb_spec rc SOCKET_ERROR) as [->|Hne].
  { apply wp_ret. destruct F4 as [[_ F4]|[? _]]; [|done]. split; [done|]. split; [done|]. rewrite E3 in F3, F4.
    split; [intros sk' Hk; split; [by apply F3|done]|]. split; [done|]. rewrite F4, Hr2, Hr0. cbn.
    rewrite app_nil_r. done. }
  destruct F4 as [[? _]|(_ & Hn' & F4)]; [done|]. rewrite Zlen_concat_foldl. rewrite E3 in F3, F4.
  set (frame := concat (buf0 :: bufs)) in *.
  destruct (Z.eqb_spec n (Zlen frame)) as [->|Hpart].
  - apply wp_ret. split; [done|]. split; [done|]. split; [intros sk' Hk; split; [by apply F3|done]|].
    split; [done|]. rewrite F4, Hr2, Hr0. rewrite take_ge by (unfold Zlen; lia). cbn. by rewrite app_nil_r.
  - apply wp_bind, wp_modify, wp_bind, wp_modify, wp_bind, wp_modify, wp_ret.
    set (w := mkWrite sk (Zlen frame) n (buf0 :: bufs) (1 :: frees)).
    set (s3 := set_mod _ _).
    assert (wlist s3 = wlist s2 ++ [w]) as G1 by done.
    assert (plist s3 = plist s2 ++ [sk]) as G2 by done.
    assert (os s3 = os s2) as G3 by done. assert (msame s2 s3) as Hm3 by done. clearbody s3.
    assert (rest_of w = drop (Z.to_nat n) frame) as Hrw by done.
    assert (writes_inv s3) as Hi3.
    { destruct Hi2 as [A1 A2 A3]. split; rewrite ?G1, ?G2.
      - apply Forall_app. split; [done|]. constructor; [|done]. split; [done|]. unfold w; cbn [w_bytes w_total]. lia.
      - by rewrite map_app, A2.
      - apply NoDup_app. split; [done|]. split; [|apply NoDup_singleton].
        intros x Hx Hin. apply list_elem_of_singleton in Hin as ->. by rewrite F2, E2 in Hx. }
    split; [done|]. split; [by eapply msame_trans|].
    assert (rest sk s3 = rest_of w) as Hr3.
    { unfold rest. eapply (rest_in_lookup sk _ (List.length (wlist s2))); [|by rewrite G1, list_lookup_middle|done].
      rewrite <- (wi_pending _ Hi3). apply (wi_nodup _ Hi3). }
    split; [intros sk' Hk; split; [rewrite G3; by apply F3|]|].
    { rewrite <- Hr2. unfold rest. rewrite G1. by apply rest_in_snoc. }
    split; [done|]. rewrite Hr3, Hrw, G3, F4, Hr0. unfold TCPSOCKET_INTERRUPTED, SOCKET_ERROR. cbn [Z.eqb app].
    rewrite <- app_assoc, take_drop. split; [done|]. split; [done|]. intros _ Hd.
    apply (f_equal List.length) in Hd. rewrite length_drop in Hd. change (List.length (@nil Z)) with 0%nat in Hd.
    unfold Zlen in *. lia.
Qed.

(** *** The continuation of a write *)

Lemma rest_iovecs_concat bytes cur iov :
  concat (rest_iovecs bytes cur iov) = drop (Z.to_nat (bytes - cur)) (concat iov).
Proof.
  revert cur. induction iov as [|v iov IH]; intros cur; cbn [rest_iovecs concat]; [by rewrite drop_nil|].
  pose proof (Zlen_nonneg v). unfold Zlen in *.
  destruct (Z.leb_spec bytes cur).
  - cbn [concat]. rewrite IH. replace (Z.to_nat (bytes - (cur + Z.of_nat (length v)))) with 0%nat by lia.
    replace (Z.to_nat (bytes - cur)) with 0%nat by lia. done.
  - destruct (Z.ltb_spec bytes (cur + Z.of_nat (length v))).
    + cbn [concat]. rewrite IH. replace (Z.to_nat (bytes - (cur + Z.of_nat (length v)))) with 0%nat by lia.
      rewrite drop_0. symmetry. apply drop_app_le. lia.
    + rewrite IH. rewrite drop_app_ge by lia. f_equal. lia.
Qed.

(** The write with [b] bytes written. *)
Definition with_bytes (w : pending_writes) (b : Z) : pending_writes :=
  mkWrite (w_socket w) (w_total w) b (w_iovecs w) (w_frees w).

Lemma wp_continueWrite sk s :
  writes_inv s -> sk ∈ plist s ->
  wp (Socket_continueWrite sk) s (fun rc s' => exists i w,
    wlist s !! i = Some w /\ w_socket w = sk /\ plist s' = plist s /\ msame s s' /\
    (forall sk', sk' <> sk -> sent sk' (os s') = sent sk' (os s)) /\
    ((rc = SOCKET_ERROR /\ wlist s' = wlist s) \/
     exists b, w_bytes w <= b <= w_total w /\ wlist s' = <[i := with_bytes w b]> (wlist s) /\
       sent sk (os s') = sent sk (os s) ++ take (Z.to_nat (b - w_bytes w)) (rest_of w) /\
       rc = (if b =? w_total w then 1 else 0))).
Proof.
  intros Hi Hin. unfold Socket_continueWrite. apply wp_bind. eapply wp_mono; [apply wp_getWrite|].
  intros [[i w]|] s1 ((E1 & E2 & E3) & Hm1 & Hf).
  2: { destruct Hf. by rewrite <- (wi_pending _ Hi). }
  destruct Hf as [Hw Hs]. pose proof (proj1 (Forall_lookup _ _) (wi_ok _ Hi) i w Hw) as [Ht Hb].
  apply wp_bind. eapply wp_mono; [apply wp_writev|].
  intros [rc n] s2 (F1 & F2 & Hm2 & F3 & F4). cbn [fst snd] in F4. rewrite rest_iovecs_concat, Z.sub_0_r in F4.
  fold (rest_of w) in F4. rewrite E3 in F3, F4.
  destruct (Z.eqb_spec rc SOCKET_ERROR) as [->|Hne].
  - apply wp_ret. exists i, w. rewrite F1, F2, E1, E2. pose proof (msame_trans _ _ _ Hm1 Hm2).
    repeat (split; [done|]). left. done.
  - destruct F4 as [[? _]|(_ & Hn & F4)]; [done|]. apply wp_bind, wp_modify, wp_ret. exists i, w.
    split; [done|]. split; [done|]. split; [by rewrite <- E2, <- F2|].
    split; [by eapply msame_trans|]. split; [done|]. right.
    exists (w_bytes w + n). unfold rest_of in Hn. unfold Zlen in Hn, Ht. rewrite length_drop in Hn.
    split; [lia|]. split; [|split; [|done]].
    + unfold wlist. cbn [writes set_writes AList.items]. fold (wlist s2). by rewrite F1, E1.
    + cbn [os set_writes]. rewrite F4. do 3 f_equal. lia.
Qed.

Lemma wp_writeComplete sk s i w :
  NoDup (map w_socket (wlist s)) -> wlist s !! i = Some w -> w_socket w = sk ->
  wp (SocketBuffer_writeComplete sk) s (fun _ s' =>
    wlist s' = delete i (wlist s) /\ plist s' = plist s /\ os s' = os s /\ mod_s s' = mod_s s).
Proof.
  intros Hnd Hi Hs. unfold SocketBuffer_writeComplete, AList.unlink. apply wp_bind, wp_get.
  pose proof (find_by_key w_socket (pending_socketcompare sk) sk (writes s) (fun x => Z.eqb_eq _ _)) as Hf.
  destruct (AList.find (pending_socketcompare sk) (writes s)) as [[j|] l]; cbn [fst].
  - destruct Hf as [(x & Hx & Hk) _].
    assert (j = i) as -> by (eapply NoDup_key; [exact Hnd|exact Hx|exact Hi|congruence]).
    apply wp_bind, wp_modify, wp_ret. done.
  - destruct Hf as [Hn _]. destruct Hn. apply list_elem_of_fmap. exists w. split; [done|].
    apply list_elem_of_lookup. by exists i.
Qed.

(** A write that has ended is removed from both lists. *)
Lemma delete_inv s i :
  NoDup (map w_socket (wlist s)) -> plist s = map w_socket (wlist s) ->
  (forall j w, j <> i -> wlist s !! j = Some w -> write_ok w) ->
  forall s', wlist s' = delete i (wlist s) -> plist s' = delete i (plist s) -> writes_inv s'.
Proof.
  intros Hnd Hp Hok s' E1 E2. split; rewrite ?E1, ?E2.
  - apply Forall_lookup. intros j w Hj. destruct (decide (j < i)%nat).
    + rewrite list_lookup_delete_lt in Hj by done. apply (Hok j); [lia|done].
    + rewrite list_lookup_delete_ge in Hj by lia. apply (Hok (S j)); [lia|done].
  - by rewrite list_map_delete, Hp.
  - rewrite Hp. eapply sublist_NoDup; [exact Hnd|apply sublist_delete].
Qed.

(** The calls of [writecomplete] that report an error. *)
Definition failed (calls : list (Z * Z)) : list Z := map fst (filter (fun c => snd c = SOCKET_ERROR) calls).

Lemma failed_app a b : failed (a ++ b) = failed a ++ failed b.
Proof. unfold failed. by rewrite filter_app, map_app. Qed.

(** One write, when its socket can be written. *)
Definition turn (i : nat) (sk : Z) (pwset : gset Z) : SM (SockSt OS) Z :=
  rc ← (if bool_decide (sk ∈ pwset) then Socket_continueWrite sk else mret 0);
  if rc =? 0 then mret rc
  else
    _ ← SocketBuffer_writeComplete sk;
    _ ← modify_mod (fun m => set_pending_wset (pending_wset m ∖ {[sk]}) m);
    _ ← modify_mod (fun m => set_write_pending (AList.remove_at i (write_pending m)) m);
    mret rc.

Lemma continue_loop_turn fuel i sk pwset rc1 sock calls s :
  plist s !! i = Some sk ->
  continue_loop (S fuel) (Some i) pwset rc1 sock calls s =
  (rc ← turn i sk pwset;
   let rc1 := if rc =? SOCKET_ERROR then SOCKET_ERROR else rc1 in
   let sock := if rc =? SOCKET_ERROR then sk else sock in
   if rc =? 0 then continue_loop fuel (Some (S i)) pwset rc1 sock calls
   else s ← sm_get; continue_loop fuel (AList.current (write_pending (mod_s s))) pwset rc1 sock (calls ++ [(sk, rc)])) s.
Proof.
  intros Hi. cbn [continue_loop]. unfold mbind at 1, sm_bind at 1, sm_get at 1. cbn [mbind option_bind].
  fold (plist s). rewrite Hi. cbn [fmap option_fmap option_map]. unfold turn.
  unfold mbind, sm_bind. destruct (if bool_decide (sk ∈ pwset) then _ else _) as [[rc s1]| |]; [|done..].
  destruct (rc =? 0) eqn:E; [cbn; by rewrite E|].
  destruct (SocketBuffer_writeComplete sk s1) as [[b s2]| |]; [|done..]. cbn. by rewrite E.
Qed.

Lemma wp_turn i sk pwset s :
  writes_inv s -> plist s !! i = Some sk ->
  wp (turn i sk pwset) s (fun rc s' => writes_inv s' /\ msame s s' /\
    (forall sk', sk' <> sk \/ rc <> SOCKET_ERROR -> sent sk' (os s') ++ rest sk' s' = sent sk' (os s) ++ rest sk' s) /\
    (rc = 0 /\ plist s' = plist s \/
     (rc = 1 \/ rc = SOCKET_ERROR) /\ rest sk s' = [] /\ List.length (plist s) = S (List.length (plist s')))).
Proof.
  intros Hi Hk. unfold turn. apply wp_bind. destruct (bool_decide (sk ∈ pwset)).
  2: { apply wp_ret. cbn. apply wp_ret. split; [done|]. split; [done|]. split; [done|]. by left. }
  eapply wp_mono; [apply wp_continueWrite; [done|]; apply list_elem_of_lookup; by exists i|].
  intros rc s1 (j & w & Hw & Hs & E2 & Hm & Ho & Hrc).
  pose proof (proj1 (Forall_lookup _ _) (wi_ok _ Hi) j w Hw) as [Ht Hb].
  pose proof (wi_nodup _ Hi) as Hnd. rewrite (wi_pending _ Hi) in Hnd.
  assert (i = j) as <-.
  { eapply NoDup_lookup; [exact Hnd|rewrite <- (wi_pending _ Hi); exact Hk|]. by rewrite list_lookup_fmap, Hw, <- Hs. }
  assert (i < List.length (wlist s))%nat as Hlt by (by eapply lookup_lt_Some).
  (* the write after the call *)
  set (w' := match bool_decide (rc = SOCKET_ERROR) with true => w | false => w end).
  assert (exists b, w_bytes w <= b <= w_total w /\ wlist s1 = <[i := with_bytes w b]> (wlist s) /\
    (rc <> SOCKET_ERROR -> sent sk (os s1) = sent sk (os s) ++ take (Z.to_nat (b - w_bytes w)) (rest_of w)) /\
    (rc = SOCKET_ERROR \/ rc = (if b =? w_total w then 1 else 0))) as (b & Hbb & E1 & Hsent & Hrc').
  { destruct Hrc as [[-> E]|(b & Hbb & E & Hst & ->)].
    - exists (w_bytes w). split; [lia|]. split; [|split; [done|by left]]. rewrite E. symmetry.
      apply list_insert_id. by destruct w.
    - exists b. split; [done|]. split; [done|]. split; [done|]. by right. }
  clear Hrc w'.
  assert (map w_socket (wlist s1) = map w_socket (wlist s)) as Emap.
  { rewrite E1. rewrite list_fmap_insert. apply list_insert_id. by rewrite list_lookup_fmap, Hw. }
  assert (rest sk s = rest_of w) as Hrest by (by apply (rest_in_lookup sk _ i)).
  assert (forall sk', sk' <> sk -> rest sk' s1 = rest sk' s) as Hro.
  { intros sk' Hne. unfold rest. rewrite E1. apply (rest_in_insert _ _ _ w); [done|done|congruence]. }
  assert (wlist s1 !! i = Some (with_bytes w b)) as Hw1 by (by rewrite E1, list_lookup_insert_eq).
  destruct (Z.eqb_spec rc 0) as [->|Hne0].
  - (* not complete *)
    apply wp_ret. destruct Hrc' as [?|Hrc']; [done|]. destruct (Z.eqb_spec b (w_total w)) as [|Hbt]; [done|].
    assert (writes_inv s1) as Hi1.
    { split; rewrite ?E2, ?Emap; [|apply (wi_pending _ Hi)|apply (wi_nodup _ Hi)].
      rewrite E1. apply Forall_insert; [apply (wi_ok _ Hi)|]. split; [done|]. cbn. lia. }
    split; [done|]. split; [done|]. split; [|by left]. intros sk' _.
    destruct (decide (sk' = sk)) as [->|Hne]; [|by rewrite Ho, Hro].
    rewrite Hsent by done. rewrite Hrest.
    assert (rest sk s1 = rest_of (with_bytes w b)) as ->.
    { apply (rest_in_lookup sk _ i); [by rewrite Emap|done|done]. }
    unfold rest_of. cbn [w_bytes w_iovecs with_bytes]. rewrite <- app_assoc. f_equal.
    rewrite <- (take_drop (Z.to_nat (b - w_bytes w)) (drop (Z.to_nat (w_bytes w)) _)) at 2. f_equal.
    rewrite drop_drop. f_equal. lia.
  - (* complete, or given up *)
    apply wp_bind. eapply wp_mono; [apply (wp_writeComplete sk s1 i (with_bytes w b)); [by rewrite Emap|done|done]|].
    intros _ s2 (F1 & F2 & F3 & F4). apply wp_bind, wp_modify, wp_bind, wp_modify, wp_ret.
    set (s3 := set_mod _ _).
    assert (wlist s3 = delete i (wlist s1)) as G1 by done.
    assert (plist s3 = delete i (plist s1)) as G2.
    { unfold plist. cbn [mod_s s3 set_mod write_pending set_write_pending set_pending_wset AList.items AList.remove_at].
      by rewrite F4. }
    assert (os s3 = os s1) as G3 by done.
    assert (msame s1 s3) as Hm3 by (unfold msame; cbn; by rewrite F4).
    clearbody s3.
    assert (writes_inv s3) as Hi3.
    { apply (delete_inv s1 i); [by rewrite Emap|by rewrite Emap, E2, (wi_pending _ Hi)| |done|done].
      intros k x Hki Hx. rewrite E1, list_lookup_insert_ne in Hx by done.
      exact (proj1 (Forall_lookup _ _) (wi_ok _ Hi) k x Hx). }
    split; [done|]. split; [by eapply msame_trans|].
    assert (rest sk s3 = []) as Hr3.
    { unfold rest. apply rest_in_none. rewrite <- (wi_pending _ Hi3), G2, E2. intros Hin.
      apply list_elem_of_lookup in Hin as [k Hkk]. pose proof (wi_nodup _ Hi) as Hp.
      destruct (decide (k < i)%nat).
      - rewrite list_lookup_delete_lt in Hkk by done. pose proof (NoDup_lookup _ _ _ _ Hp Hkk Hk). lia.
      - rewrite list_lookup_delete_ge in Hkk by lia. pose proof (NoDup_lookup _ _ _ _ Hp Hkk Hk). lia. }
    split.
    + intros sk' Hor. destruct (decide (sk' = sk)) as [->|Hne].
      * destruct Hor as [?|Hnerr]; [done|]. destruct Hrc' as [?|Hrc']; [done|].
        destruct (Z.eqb_spec b (w_total w)) as [->|]; [|done].
        rewrite G3, Hr3, Hsent, Hrest, app_nil_r by done. f_equal. apply take_ge.
        unfold rest_of. rewrite length_drop. unfold Zlen in Ht. lia.
      * rewrite G3, Ho by done. f_equal. rewrite <- Hro by done. unfold rest. rewrite G1.
        apply (rest_in_delete _ _ _ (with_bytes w b)); [done|]. cbn. congruence.
    + right. split; [destruct Hrc' as [-> | ->]; [by right|]; destruct (_ =? _); [by left|done]|].
      split; [done|]. rewrite G2, E2. assert (i < List.length (plist s))%nat by (by eapply lookup_lt_Some).
      rewrite length_delete by (by eexists). lia.
Qed.

(** *** All pending writes *)

(** The stream of every socket that did not fail. *)
Definition stream_kept (bad : list Z) s s' : Prop :=
  forall sk, sk ∉ bad -> sent sk (os s') ++ rest sk s' = sent sk (os s) ++ rest sk s.

Definition turns (i : option nat) (n : nat) : nat :=
  n * S n + match i with Some j => n - j | None => 0 end.

Definition loop_post rc1 (calls : list (Z * Z)) s (r : Z * Z * list (Z * Z)) s' : Prop := exists new,
  writes_inv s' /\ msame s s' /\ snd r = calls ++ new /\ stream_kept (failed new) s s' /\
  (fst (fst r) = SOCKET_ERROR <-> rc1 = SOCKET_ERROR \/ failed new <> []).

Lemma loop_stop rc1 sock calls s : writes_inv s -> loop_post rc1 calls s (rc1, sock, calls) s.
Proof.
  intros Hi. exists []. rewrite app_nil_r. split; [done|]. split; [done|]. split; [done|]. split; [by intros sk _|].
  cbn. split; [by left|]. by intros [?|?].
Qed.

Lemma wp_continue_loop fuel i pwset rc1 sock calls s :
  writes_inv s -> (turns i (List.length (plist s)) <= fuel)%nat ->
  wp (continue_loop fuel i pwset rc1 sock calls) s (loop_post rc1 calls s).
Proof.
  revert i rc1 sock calls s. induction fuel as [|fuel IH]; intros i rc1 sock calls s Hi Hf.
  - cbn [continue_loop]. apply wp_bind, wp_get.
    destruct i as [i|]; cbn [mbind option_bind]; [fold (plist s)|];
      [destruct (plist s !! i) as [sk|] eqn:Hk; cbn [fmap option_fmap option_map]|].
    + exfalso. apply lookup_lt_Some in Hk. unfold turns in Hf. lia.
    + by apply wp_ret, loop_stop.
    + by apply wp_ret, loop_stop.
  - destruct (i ≫= fun i => plist s !! i) as [sk|] eqn:Hk.
    2: { cbn [continue_loop]. apply wp_bind, wp_get. fold (plist s).
         replace (i ≫= _) with (@None (nat * Z)) by (destruct i as [i|]; cbn in Hk |- *; [by rewrite Hk|done]).
         by apply wp_ret, loop_stop. }
    destruct i as [i|]; [|done]. cbn in Hk.
    assert (i < List.length (plist s))%nat as Hlt by (by eapply lookup_lt_Some).
    unfold wp. rewrite (continue_loop_turn _ _ _ _ _ _ _ _ Hk). apply wp_bind.
    eapply wp_mono; [by apply wp_turn|].
    intros rc s1 (Hi1 & Hm & Hst & [[-> Hl]|(Hrc & Hr & Hl)]); cbn zeta.
    + cbn [Z.eqb SOCKET_ERROR].
      eapply wp_mono; [apply IH; [done|]; rewrite Hl; unfold turns in *; lia|].
      intros r s' (new & Hi' & Hm' & Hc & Hst' & Hrr). exists new. split; [done|].
      split; [by eapply msame_trans|]. split; [done|]. split; [|done].
      intros sk' Hn. rewrite Hst' by done. apply Hst. by right.
    + assert ((rc =? 0) = false) as -> by (apply Z.eqb_neq; destruct Hrc as [-> | ->]; done).
      apply wp_bind, wp_get.
      eapply wp_mono; [apply IH; [done|]|].
      { unfold turns in *. rewrite Hl in Hf. set (n := List.length (plist s1)) in *.
        destruct (AList.current _); nia. }
      intros r s' (new & Hi' & Hm' & Hc & Hst' & Hr1). exists ((sk, rc) :: new). split; [done|].
      split; [by eapply msame_trans|]. split; [by rewrite Hc, <- app_assoc|].
      change ((sk, rc) :: new) with ([(sk, rc)] ++ new). rewrite failed_app.
      destruct Hrc as [-> | ->].
      * change (failed [(sk, 1)]) with (@nil Z). change (1 =? SOCKET_ERROR) with false in *. cbn [app].
        split; [|done]. intros sk' Hn. rewrite Hst' by done. apply Hst. by right.
      * change (failed [(sk, SOCKET_ERROR)]) with [sk]. change (SOCKET_ERROR =? SOCKET_ERROR) with true in *. cbn [app].
        split.
        -- intros sk' Hn. apply not_elem_of_cons in Hn as [Hne Hn]. rewrite Hst' by done. apply Hst. by left.
        -- split; [intros _; by right|]. intros _. apply Hr1. by left.
Qed.

Lemma wp_continueWrites pwset sock s :
  writes_inv s ->
  wp (Socket_continueWrites pwset sock) s (fun r s' =>
    writes_inv s' /\ msame s s' /\ stream_kept (failed (snd r)) s s' /\
    (fst (fst r) = SOCKET_ERROR <-> failed (snd r) <> [])).
Proof.
  intros Hi. unfold Socket_continueWrites. apply wp_bind, wp_get. fold (plist s).
  eapply wp_mono; [apply wp_continue_loop; [done|]|].
  - unfold turns. destruct (plist s); cbn [List.length]; lia.
  - intros r s' (new & Hi' & Hm & Hc & Hst & Hr). cbn in Hc. subst new.
    split; [done|]. split; [done|]. split; [done|]. rewrite Hr. intuition discriminate.
Qed.

(** ** The next socket that is ready *)

Definition cursor_ok s : Prop :=
  match cur_clientsds (mod_s s) with
  | Some i => (i < List.length (AList.items (clientsds (mod_s s))))%nat
  | None => True
  end.

(** Why a socket is ready: its connection has just been made, or it can be read from and
    written to, and no write is pending on it. *)
Definition ready_for (sk : Z) s : Prop :=
  (sk ∈ AList.items (connect_pending (mod_s s)) /\ sk ∈ wset (mod_s s)) \/
  (sk ∈ rset (mod_s s) /\ sk ∈ wset (mod_s s) /\ sk ∉ plist s).

(** States that differ in cursors only, or in a connection that is no longer pending. *)
Definition scan s s' : Prop :=
  wsame s s' /\ clientsds (mod_s s') = clientsds (mod_s s) /\ rset (mod_s s') = rset (mod_s s) /\
  wset (mod_s s') = wset (mod_s s) /\
  (forall sk, sk ∈ AList.items (connect_pending (mod_s s')) -> sk ∈ AList.items (connect_pending (mod_s s))).

Lemma scan_refl s : scan s s.
Proof. unfold scan, wsame. auto. Qed.

Lemma scan_trans s1 s2 s3 : scan s1 s2 -> scan s2 s3 -> scan s1 s3.
Proof.
  intros ((A1 & A2 & A3) & A4 & A5 & A6 & A7) ((B1 & B2 & B3) & B4 & B5 & B6 & B7).
  split; [split; [|split]; congruence|]. do 3 (split; [congruence|]). auto.
Qed.

Lemma scan_ready s s' sk : scan s s' -> ready_for sk s' -> ready_for sk s.
Proof.
  intros ((_ & E & _) & _ & Er & Ew & Hc) [[Hp Hw]|(Hr & Hw & Hn)]; [left|right].
  - rewrite <- Ew. auto.
  - by rewrite <- Er, <- Ew, <- E.
Qed.

Lemma wp_isReady sk s :
  wp (isReady sk) s (fun b s' =>
    scan s s' /\ cur_clientsds (mod_s s') = cur_clientsds (mod_s s) /\ (b = true -> ready_for sk s)).
Proof.
  unfold isReady. apply wp_bind, wp_get.
  pose proof (find_by_key (fun x => x) (intcompare sk) sk (connect_pending (mod_s s))) as Hf.
  assert (forall x, (intcompare sk x = true <-> x = sk)) as Hc by (intros x; unfold intcompare; rewrite Z.eqb_eq; naive_solver).
  specialize (Hf Hc). rewrite map_id in Hf.
  destruct (AList.find (intcompare sk) (connect_pending (mod_s s))) as [r l].
  apply wp_bind, wp_modify. set (s1 := set_mod _ _).
  assert (AList.items l = AList.items (connect_pending (mod_s s))) as El by (destruct r; by destruct Hf as [_ ->]).
  assert (scan s s1) as Hs1.
  { unfold scan, wsame. repeat (split; [done|]). cbn. by rewrite El. }
  destruct (bool_decide_reflect (is_Some r)) as [[i ->]|Hn]; cbn [andb].
  2: { destruct (bool_decide_reflect (sk ∈ rset (mod_s s))) as [Hr|]; cbn [andb];
         [|by apply wp_ret; split; [|split]].
       destruct (bool_decide_reflect (sk ∈ wset (mod_s s))) as [Hw|]; cbn [andb];
         [|by apply wp_ret; split; [|split]].
       eapply wp_mono; [apply wp_noPendingWrites|]. intros b s2 (Hws & (M1 & M2 & M3 & M4 & M5) & ->).
       split; [|split; [by rewrite M2|]].
       - eapply scan_trans; [exact Hs1|]. unfold scan. rewrite M1, M3, M4, M5. auto.
       - intros Hb. apply bool_decide_eq_true_1 in Hb. right. done. }
  destruct Hf as [(x & Hx & ->) _].
  destruct (bool_decide_reflect (sk ∈ wset (mod_s s))) as [Hw|Hw]; cbn [andb].
  - apply wp_bind, wp_modify, wp_ret. split; [|split; [done|]].
    + eapply scan_trans; [exact Hs1|]. unfold scan, wsame. repeat (split; [done|]). cbn.
      intros y. unfold AList.unlink. destruct (fst (AList.find (intcompare sk) l)); cbn; [|done].
      intros Hy. eapply elem_of_submseteq; [exact Hy|]. apply sublist_submseteq, sublist_delete.
    + intros _. left. split; [|done]. apply list_elem_of_lookup. by exists i.
  - rewrite andb_false_r. by apply wp_ret; split; [|split].
Qed.

Definition clients s : list Z := AList.items (clientsds (mod_s s)).

(** The cursor is on a socket that is ready, or at the end. *)
Definition at_ready s s' : Prop :=
  scan s s' /\ cursor_ok s' /\
  match cur_clientsds (mod_s s') with
  | Some i => exists sk, clients s !! i = Some sk /\ ready_for sk s
  | None => True
  end.

Lemma scan_clients s s' : scan s s' -> clients s' = clients s.
Proof. intros (_ & E & _). unfold clients. by rewrite E. Qed.

Lemma wp_ready_loop fuel s :
  cursor_ok s ->
  match cur_clientsds (mod_s s) with Some i => (List.length (clients s) - i <= fuel)%nat | None => True end ->
  wp (ready_loop fuel) s (fun _ s' => at_ready s s').
Proof.
  revert s. induction fuel as [|fuel IH]; intros s Hc Hf; unfold cursor_ok in Hc; fold (clients s) in Hc;
    cbn [ready_loop]; apply wp_bind, wp_get; fold (clients s);
    destruct (cur_clientsds (mod_s s)) as [i|] eqn:Ei.
  - lia.
  - apply wp_ret. split; [apply scan_refl|]. unfold cursor_ok. by rewrite Ei.
  - destruct (lookup_lt_is_Some_2 _ _ Hc) as [sk Hk]. rewrite Hk.
    apply wp_bind. eapply wp_mono; [apply wp_isReady|]. intros b s1 (Hs & Hcur & Hr).
    destruct b.
    + apply wp_ret. split; [done|]. unfold cursor_ok. rewrite Hcur, Ei. fold (clients s1).
      rewrite (scan_clients _ _ Hs). split; [done|]. exists sk. auto.
    + apply wp_bind, wp_modify. set (s2 := set_mod _ _).
      assert (scan s1 s2) as Hs2 by (unfold scan, wsame; repeat (split; [done|]); auto).
      assert (scan s s2) as Hs12 by (by eapply scan_trans).
      pose proof (scan_clients _ _ Hs12) as Ec. pose proof (scan_clients _ _ Hs) as Ec1.
      assert (cur_clientsds (mod_s s2) = if (S i <? List.length (clients s))%nat then Some (S i) else None) as Ei2
        by (unfold s2; cbn; fold (clients s1); by rewrite Ec1).
      eapply wp_mono; [apply (IH s2)|].
      * unfold cursor_ok. fold (clients s2). rewrite Ei2, Ec. destruct (Nat.ltb_spec (S i) (List.length (clients s))); [lia|done].
      * rewrite Ei2, Ec. destruct (Nat.ltb_spec (S i) (List.length (clients s))); [lia|done].
      * intros _ s3 (H3 & C3 & R3). split; [by eapply scan_trans|]. split; [done|].
        rewrite <- Ec. destruct (cur_clientsds (mod_s s3)); [|done]. destruct R3 as (k & Hkk & Hrk).
        exists k. split; [done|]. by eapply scan_ready.
  - apply wp_ret. split; [apply scan_refl|]. unfold cursor_ok. by rewrite Ei.
Qed.

Lemma wp_find_ready s : cursor_ok s -> wp find_ready s (fun _ s' => at_ready s s').
Proof.
  intros Hc. unfold find_ready. apply wp_bind, wp_get. fold (clients s). apply wp_ready_loop; [done|].
  destruct (cur_clientsds (mod_s s)); [lia|done].
Qed.

(** What [Socket_getReadySocket] returns: 0, or a client that is ready. *)
Definition returned sk s s' : Prop :=
  sk = 0 \/ (sk ∈ clients s /\
    ((sk ∈ AList.items (connect_pending (mod_s s)) /\ sk ∈ wset (mod_s s')) \/
     (sk ∈ rset (mod_s s') /\ sk ∈ wset (mod_s s') /\ sk ∉ plist s'))).

Lemma wp_take_ready s0 s :
  at_ready s0 s ->
  wp take_ready s (fun sk s' => scan s0 s' /\ cursor_ok s' /\ returned sk s0 s').
Proof.
  intros (Hs & Hc & Hr). unfold take_ready. apply wp_bind, wp_get. fold (clients s).
  rewrite (scan_clients _ _ Hs). destruct (cur_clientsds (mod_s s)) as [i|] eqn:Ei.
  - destruct Hr as (sk & Hk & Hr). rewrite Hk. apply wp_bind, wp_modify, wp_ret. set (s1 := set_mod _ _).
    assert (scan s s1) as Hs1 by (unfold scan, wsame; repeat (split; [done|]); auto).
    assert (scan s0 s1) as Hs01 by (by eapply scan_trans).
    split; [done|]. split.
    + unfold cursor_ok, s1. cbn -[Nat.ltb].
      destruct (Nat.ltb_spec (S i) (List.length (AList.items (clientsds (mod_s s))))); [lia|done].
    + right. split; [apply list_elem_of_lookup; by exists i|].
      destruct Hs01 as ((_ & Ep & _) & _ & -> & -> & _). rewrite Ep. exact Hr.
  - apply wp_ret. split; [done|]. split; [done|]. by left.
Qed.

Lemma scan_inv s s' : scan s s' -> writes_inv s -> writes_inv s'.
Proof. intros [Hw _]. by apply wsame_inv. Qed.

Lemma scan_stream bad s s' : scan s s' -> stream_kept bad s s'.
Proof. intros [Hw _] sk _. rewrite (wsame_rest _ _ _ Hw). by destruct Hw as (_ & _ & ->). Qed.

Lemma stream_trans bad s1 s2 s3 : stream_kept bad s1 s2 -> stream_kept bad s2 s3 -> stream_kept bad s1 s3.
Proof. intros H1 H2 sk Hn. by rewrite H2, H1. Qed.

(** [select] changes nothing but the operating system. *)
Lemma wp_select r w s :
  wp (call_os (sys_select r w)) s (fun _ s' =>
    wlist s' = wlist s /\ mod_s s' = mod_s s /\ forall sk, sent sk (os s') = sent sk (os s)).
Proof.
  unfold call_os, wp. destruct (sys_select r w (os s)) as [[[rc r'] w'] o'] eqn:E.
  exists (rc, r', w'), (set_os o' s). split; [done|]. split; [done|]. split; [done|]. intros sk.
  by eapply select_sent.
Qed.

Lemma wp_getReadySocket s :
  writes_inv s -> cursor_ok s ->
  wp Socket_getReadySocket s (fun r s' =>
    writes_inv s' /\ cursor_ok s' /\ clients s' = clients s /\ stream_kept (failed (snd r)) s s' /\
    (snd (fst r) = 0 -> returned (fst (fst r)) s s')).
Proof.
  intros Hi Hc. unfold Socket_getReadySocket. apply wp_bind, wp_get. fold (clients s).
  destruct (clients s) as [|x0 xs] eqn:Ecl.
  { apply wp_ret. split; [done|]. split; [done|]. split; [by rewrite Ecl|]. split; [by intros sk _|]. by left. }
  rewrite <- Ecl. clear x0 xs Ecl.
  apply wp_bind. eapply wp_mono; [by apply wp_find_ready|]. intros [] s1 Hr1. pose proof Hr1 as (Hs1 & Hc1 & _).
  apply wp_bind, wp_get.
  destruct (cur_clientsds (mod_s s1)) as [i|] eqn:Ei.
  { apply wp_bind. eapply wp_mono; [by apply wp_take_ready|]. intros sk s2 (Hs2 & Hc2 & Hret). apply wp_ret.
    split; [by apply (scan_inv s)|]. split; [done|]. split; [by apply scan_clients|].
    split; [by apply scan_stream|]. by intros _. }
  apply wp_bind. eapply wp_mono; [apply wp_select|]. intros [[rc r] pwset] s2 (W2 & M2 & O2).
  apply wp_bind, wp_modify. set (s3 := set_mod _ _).
  assert (writes_inv s1) as Hi1 by (by apply (scan_inv s)).
  assert (writes_inv s3) as Hi3.
  { assert (wlist s3 = wlist s1) as A1 by done. assert (plist s3 = plist s1) as A2 by (unfold plist; cbn; by rewrite M2).
    destruct Hi1. split; by rewrite ?A1, ?A2. }
  assert (stream_kept [] s s3) as Hst3.
  { eapply stream_trans; [by apply scan_stream|]. intros sk _. unfold rest. cbn. rewrite O2.
    change (wlist s3) with (wlist s2). by rewrite W2. }
  assert (clients s3 = clients s) as Hcl3.
  { rewrite <- (scan_clients _ _ Hs1). unfold clients. cbn. by rewrite M2. }
  assert (cur_clientsds (mod_s s3) = None) as Hcur3 by (cbn; by rewrite M2).
  assert (forall sk, sk ∈ AList.items (connect_pending (mod_s s3)) -> sk ∈ AList.items (connect_pending (mod_s s))) as Hcp3.
  { intros sk. cbn. rewrite M2. destruct Hs1 as (_ & _ & _ & _ & Hcp). apply Hcp. }
  clearbody s3. clear W2 M2 O2.
  destruct (rc =? SOCKET_ERROR).
  { apply wp_ret. split; [done|]. split; [unfold cursor_ok; by rewrite Hcur3|]. split; [done|]. split; [done|]. done. }
  apply wp_bind. eapply wp_mono; [by apply wp_continueWrites|].
  intros [[rc1 sock] calls] s4 (Hi4 & (Q1 & Q2 & Q3 & Q4 & Q5) & Hst4 & Hrc1). cbn [fst snd] in *.
  assert (clients s4 = clients s) as Hcl4 by (unfold clients in *; by rewrite Q1).
  assert (cur_clientsds (mod_s s4) = None) as Hcur4 by congruence.
  assert (stream_kept (failed calls) s s4) as Hst.
  { eapply stream_trans; [|exact Hst4]. intros sk _. apply Hst3. apply not_elem_of_nil. }
  destruct (rc1 =? SOCKET_ERROR).
  { apply wp_ret. split; [done|]. split; [unfold cursor_ok; by rewrite Hcur4|]. split; [done|]. split; [done|]. done. }
  apply wp_bind, wp_get, wp_bind. eapply wp_mono; [apply wp_select|]. intros [[rc2 ?] w] s5 (W5 & M5 & O5).
  apply wp_bind, wp_modify. set (s6 := set_mod _ _).
  assert (wlist s6 = wlist s4) as A1 by done. assert (plist s6 = plist s4) as A2 by (unfold plist; cbn; by rewrite M5).
  assert (writes_inv s6) as Hi6 by (destruct Hi4; split; by rewrite ?A1, ?A2).
  assert (stream_kept (failed calls) s s6) as Hst6.
  { eapply stream_trans; [exact Hst|]. intros sk _. unfold rest. rewrite A1. cbn. by rewrite O5. }
  assert (clients s6 = clients s) as Hcl6 by (rewrite <- Hcl4; unfold clients; cbn; by rewrite M5).
  assert (cur_clientsds (mod_s s6) = None) as Hcur6 by (cbn; by rewrite M5).
  assert (forall sk, sk ∈ AList.items (connect_pending (mod_s s6)) -> sk ∈ AList.items (connect_pending (mod_s s))) as Hcp6.
  { intros sk. cbn. rewrite M5, Q3. apply Hcp3. }
  clearbody s6. clear W5 M5 O5.
  destruct (rc2 =? SOCKET_ERROR) eqn:Erc2.
  { apply wp_ret. split; [done|]. split; [unfold cursor_ok; by rewrite Hcur6|]. split; [done|]. split; [done|].
    cbn. intros ->. done. }
  destruct ((rc =? 0) && (rc2 =? 0)).
  { apply wp_ret. split; [done|]. split; [unfold cursor_ok; by rewrite Hcur6|]. split; [done|]. split; [done|]. by left. }
  apply wp_bind, wp_modify. set (s7 := set_mod _ _).
  assert (scan s6 s7) as Hs7 by (unfold scan, wsame; repeat (split; [done|]); auto).
  assert (cursor_ok s7) as Hc7.
  { unfold cursor_ok, s7. cbn. destruct (AList.items (clientsds (mod_s s6))) as [|x xs]; cbn; [done|lia]. }
  apply wp_bind. eapply wp_mono; [by apply wp_find_ready|]. intros [] s8 Hr8.
  apply wp_bind. eapply wp_mono; [by apply wp_take_ready|]. intros sk s9 (Hs9 & Hc9 & Hret). apply wp_ret.
  assert (scan s6 s9) as Hs69 by (by eapply scan_trans). cbn [fst snd].
  split; [by apply (scan_inv s6)|]. split; [done|]. split; [by rewrite (scan_clients _ _ Hs69)|].
  split; [by eapply stream_trans; [|by apply scan_stream]|]. intros _.
  destruct Hret as [->|(Hin & Hret)]; [by left|]. right.
  rewrite (scan_clients _ _ Hs7), Hcl6 in Hin. split; [done|].
  destruct Hret as [[Hp Hw]|Hret]; [left|by right]. split; [|done]. apply Hcp6.
  by destruct Hs7 as (_ & _ & _ & _ & Hcp); apply Hcp.
Qed.

(** ** Sequences of operations *)

Inductive socket_op :=
| OpPut (sk : Z) (buf0 : list Z) (bufs : list (list Z)) (frees : list Z)
| OpSelect.

(** The frames accepted, with their socket, and the sockets of which a write failed. *)
Definition socket_perform (op : socket_op) : SM (SockSt OS) (list (Z * list Z) * list Z) :=
  match op with
  | OpPut sk buf0 bufs frees =>
      rc ← Socket_putdatas sk buf0 bufs frees;
      mret (if rc =? SOCKET_ERROR then [] else [(sk, concat (buf0 :: bufs))], [])
  | OpSelect => r ← Socket_getReadySocket; mret ([], failed (snd r))
  end.
Fixpoint socket_run (ops : list socket_op) : SM (SockSt OS) (list (Z * list Z) * list Z) :=
  match ops with
  | [] => mret ([], [])
  | op :: ops => r ← socket_perform op; q ← socket_run ops; mret (fst r ++ fst q, snd r ++ snd q)
  end.

(** The bytes of the frames accepted for a socket, one frame after the other. *)
Definition frames_of (sk : Z) (l : list (Z * list Z)) : list Z := concat (map snd (filter (fun f => fst f = sk) l)).

Lemma frames_of_app sk l k : frames_of sk (l ++ k) = frames_of sk l ++ frames_of sk k.
Proof. unfold frames_of. by rewrite filter_app, map_app, concat_app. Qed.

(** C27. Writing.  In any sequence of writes and of waits for a ready socket, over any
    connections that take what they are given in pieces, whenever a socket had no write
    that failed, the bytes written to it and the bytes that are still pending are those
    of the frames it accepted, whole and in order; and the loops end. *)
Theorem frames_written_in_order (ops : list socket_op) (s : SockSt OS) :
  writes_inv s -> cursor_ok s ->
  wp (socket_run ops) s (fun r s' => writes_inv s' /\ cursor_ok s' /\
    forall sk, sk ∉ snd r ->
      sent sk (os s') ++ rest sk s' = sent sk (os s) ++ rest sk s ++ frames_of sk (fst r)).
Proof.
  revert s. induction ops as [|op ops IH]; intros s Hi Hc; cbn [socket_run].
  { apply wp_ret. split; [done|]. split; [done|]. intros sk _. cbn. by rewrite app_nil_r. }
  apply wp_bind.
  assert (wp (socket_perform op) s (fun r s' => writes_inv s' /\ cursor_ok s' /\
    forall sk, sk ∉ snd r ->
      sent sk (os s') ++ rest sk s' = sent sk (os s) ++ rest sk s ++ frames_of sk (fst r))) as Hop.
  { destruct op as [sk0 buf0 bufs frees|]; cbn [socket_perform]; apply wp_bind.
    - eapply wp_mono; [by apply wp_putdatas|].
      intros rc s1 (Hi1 & (M1 & M2 & _) & Ho & _ & Hst & _). apply wp_ret. split; [done|].
      split; [unfold cursor_ok in *; by rewrite M1, M2|]. intros sk _.
      destruct (decide (sk = sk0)) as [->|Hne].
      + rewrite Hst. cbn [fst]. destruct (rc =? SOCKET_ERROR); [done|]. unfold frames_of.
        rewrite filter_cons_True by done. cbn. by rewrite app_nil_r.
      + destruct (Ho sk Hne) as [-> ->]. cbn [fst]. destruct (rc =? SOCKET_ERROR); [by rewrite app_nil_r|].
        unfold frames_of. rewrite filter_cons_False by (cbn; congruence). cbn. by rewrite app_nil_r.
    - eapply wp_mono; [by apply wp_getReadySocket|]. intros r s1 (Hi1 & Hc1 & _ & Hst & _). apply wp_ret.
      split; [done|]. split; [done|]. intros sk Hn. cbn in Hn |- *. rewrite app_nil_r. by apply Hst. }
  eapply wp_mono; [exact Hop|]. intros r s1 (Hi1 & Hc1 & H1).
  apply wp_bind. eapply wp_mono; [by apply IH|]. intros q s2 (Hi2 & Hc2 & H2). apply wp_ret.
  split; [done|]. split; [done|]. intros sk Hn. cbn [fst snd] in *. apply not_elem_of_app in Hn as [Hn1 Hn2].
  rewrite H2, app_assoc, H1, frames_of_app by done. by rewrite <- !app_assoc.
Qed.

(** After the initialisation nothing is written. *)
Lemma writes_inv_init (o : OS) : writes_inv (Socket_outInitialize o).
Proof. split; [by apply Forall_nil|done|apply NoDup_nil_2]. Qed.

End Writes.

(** Two frames to socket 5 while 6 takes one whole: 5 takes three bytes, then one, and
    refuses the second frame until the first is out. *)
Definition example_ops : list socket_op :=
  [OpPut 5 [48; 4] [[1; 2]; [3; 4]] []; OpPut 6 [192; 0] [] []; OpPut 5 [224; 0] [] []; OpSelect].
Definition example_os : Script := mkScript [] [3; 2; 1] [] [].
Definition example_sockets : SockSt Script :=
  let s := Socket_outInitialize example_os in
  set_mod (set_clientsds (AList.append 5 (AList.append 6 AList.empty)) None (mod_s s)) s.

Example example_run :
  exists s', socket_run example_ops example_sockets = Ok (([(5, [48; 4; 1; 2; 3; 4]); (6, [192; 0])], []), s') /\
    sent 5 (os s') = [48; 4; 1; 2] /\ rest 5 s' = [3; 4] /\ sent 6 (os s') = [192; 0].
Proof. eexists. split; [by vm_compute|]. by vm_compute. Qed.

Lemma frames_written_in_order_witness :
  writes_inv example_sockets /\ cursor_ok example_sockets /\
  wp (socket_run example_ops) example_sockets (fun r s' =>
    forall sk, sk ∉ snd r -> sent sk (os s') ++ rest sk s' = frames_of sk (fst r)).
Proof.
  assert (writes_inv example_sockets) as Hi by (split; [by apply Forall_nil|done|apply NoDup_nil_2]).
  split; [exact Hi|]. split; [exact I|]. eapply wp_mono; [apply (frames_written_in_order _ _ Hi I)|].
  intros r s' (_ & _ & H) sk Hn. rewrite (H sk Hn). reflexivity.
Defined.

End Writes.
