(* ===== verification/Reads.v ===== *)
(** * Reading packets from sockets ([src/src/Socket.c], [SocketBuffer.c])

    [MQTTPacket_Factory] over the socket modules: the bytes of a packet that have
    arrived are held in the queue of the socket until the rest of it arrives. *)

From S2P Require Import Prelude.
From S2P Require Import LinkedList.
From S2P Require Import Clients.
From S2P Require Import Properties.
From S2P Require Import Packet.
From S2P Require Import State.
From S2P Require Import PacketIO.
From S2P Require Import Socket.
From S2P Require Import Writes.
From Stdlib Require Import ZArith Lia List.
From stdpp Require Import base numbers list gmap.

Open Scope Z_scope.

Module Reads.
Import LinkedList Properties Clients Packet State PacketIO Socket Writes.

(** ** The transport without WebSocket and without TLS

    The functions of [WebSocket.c] call those of [Socket.c].  [Stuck] is the state
    after an access outside of a buffer. *)
Inductive TcpNet (OS : Type) : Type :=
| Tcp (s : SockSt OS)
| Stuck.
Arguments Tcp {OS} s.
Arguments Stuck {OS}.

Section Tcp.
Context {OS : Type} {SY : Sys OS}.

Definition tcp_run {A} (a0 : A) (m : SM (SockSt OS) A) (n : TcpNet OS) : A * TcpNet OS :=
  match n with
  | Stuck => (a0, Stuck)
  | Tcp s => match m s with Ok (a, s') => (a, Tcp s') | _ => (a0, Stuck) end
  end.

(** The data that [Socket_getdata] returns: [bytes] of them are used when they are all
    there. *)
Definition tcp_getdata (sk bytes : Z) : SM (SockSt OS) (option (list Z) * Z) :=
  '(buf, actual_len, _) ← Socket_getdata sk bytes 0 SOCKET_ERROR;
  match buf with
  | None => mret (None, actual_len)
  | Some b =>
      if actual_len <? bytes then mret (Some [], actual_len)
      else match mapM id (take (Z.to_nat bytes) b) with
           | Some d => mret (Some d, actual_len)
           | None => sm_oob
           end
  end.

Instance tcp_transport : Transport (TcpNet OS) := {
  putdatas sk buf0 bufs mask n :=
    let '(rc, n') := tcp_run SOCKET_ERROR (Socket_putdatas sk buf0 bufs []) n in (rc, bufs, mask, n');
  noPendingWrites sk := tcp_run false (Socket_noPendingWrites sk);
  updateWrite sk topic payload := tcp_run false (SocketBuffer_updateWrite sk topic payload);
  getch sk := tcp_run (SOCKET_ERROR, 0) (Socket_getch sk);
  getdata sk bytes := tcp_run (None, 0) (tcp_getdata sk bytes);
  framePos n := 0;
  framePosSeekTo pos n := n;
  net_close sk n := snd (tcp_run () (Socket_close sk) n);
  time_now := tcp_run 0 (call_os sys_clock)
}.

Instance tcp_laws : TransportLaws (TcpNet OS).
Proof.
  split. intros sk buf0 bufs mask n rc bufs' mask' n'. cbn [putdatas tcp_transport].
  destruct (tcp_run _ _ n). intros E. injection E as _ <- _ _. clear. induction bufs; by constructor.
Qed.

End Tcp.
#[export] Existing Instance tcp_transport.
#[export] Existing Instance tcp_laws.

Section Reads.
Context {OS : Type} {SY : Sys OS} {SL : SysLaws OS}.
Implicit Types s : SockSt OS.

(** ** Queues *)

Definition qlist s : list socket_queue := AList.items (queues s).
Definition held (sk : Z) s : option socket_queue := List.find (socketcompare sk) (qlist s).
Definition distinct s : Prop := NoDup (map sq_socket (qlist s)).
Definition others_kept (sk : Z) s s' : Prop := forall k, k <> sk -> held k s' = held k s.

(** States that differ in what does not concern reading. *)
Definition qsame s s' : Prop := qlist s' = qlist s /\ def_queue s' = def_queue s /\ os s' = os s.

Lemma find_socket_lookup sk l q :
  List.find (socketcompare sk) l = Some q -> exists i, l !! i = Some q /\ sq_socket q = sk.
Proof.
  intros Hf. apply List.find_some in Hf as [Hin Hs]. apply list_elem_of_In, list_elem_of_lookup in Hin as [i Hi].
  exists i. split; [done|]. by apply Z.eqb_eq.
Qed.

Lemma find_socket_none sk l : sk ∉ map sq_socket l -> List.find (socketcompare sk) l = None.
Proof.
  intros Hn. destruct (List.find _ l) as [q|] eqn:E; [|done]. apply find_socket_lookup in E as (i & Hi & <-).
  destruct Hn. apply list_elem_of_fmap. exists q. split; [done|]. by apply list_elem_of_lookup; exists i.
Qed.

Lemma find_socket_some sk l i q :
  NoDup (map sq_socket l) -> l !! i = Some q -> sq_socket q = sk -> List.find (socketcompare sk) l = Some q.
Proof.
  intros Hnd Hi Hs. destruct (List.find (socketcompare sk) l) as [q'|] eqn:E.
  - apply find_socket_lookup in E as (j & Hj & Hs').
    assert (j = i) as -> by (eapply (NoDup_key sq_socket); [exact Hnd|exact Hj|exact Hi|congruence]). congruence.
  - pose proof (List.find_none _ _ E q) as Hn. unfold socketcompare in Hn. rewrite (proj2 (Z.eqb_eq _ _) Hs) in Hn.
    discriminate Hn. apply list_elem_of_In, list_elem_of_lookup. by exists i.
Qed.

Lemma find_socket_insert k l i q q' :
  l !! i = Some q -> sq_socket q' = sq_socket q -> sq_socket q <> k ->
  List.find (socketcompare k) (<[i := q']> l) = List.find (socketcompare k) l.
Proof.
  intros Hi Hs Hne. revert i Hi. induction l as [|x l IH]; intros [|i] Hi; [done..| |].
  - injection Hi as ->. cbn. unfold socketcompare at 1 3. rewrite Hs. by destruct (Z.eqb_spec (sq_socket q) k).
  - cbn in Hi |- *. destruct (socketcompare k x); [done|]. by apply IH.
Qed.

Lemma find_socket_delete k l i q :
  l !! i = Some q -> sq_socket q <> k -> List.find (socketcompare k) (delete i l) = List.find (socketcompare k) l.
Proof.
  intros Hi Hne. revert i Hi. induction l as [|x l IH]; intros [|i] Hi; [done..| |].
  - injection Hi as ->. cbn. unfold socketcompare at 2. by destruct (Z.eqb_spec (sq_socket q) k).
  - cbn in Hi |- *. destruct (socketcompare k x); [done|]. by apply IH.
Qed.

Lemma find_socket_snoc k l q :
  sq_socket q <> k -> List.find (socketcompare k) (l ++ [q]) = List.find (socketcompare k) l.
Proof.
  intros Hne. induction l as [|x l IH]; cbn.
  - unfold socketcompare. by destruct (Z.eqb_spec (sq_socket q) k).
  - destruct (socketcompare k x); [done|]. exact IH.
Qed.

(** *** The queue of a socket, found and changed *)

Definition found_ok (sk : Z) s (r : option (nat * socket_queue)) : Prop :=
  match r with
  | Some (i, q) => qlist s !! i = Some q /\ sq_socket q = sk /\ held sk s = Some q
  | None => (sk ∉ map sq_socket (qlist s)) /\ held sk s = None
  end.

Lemma found_same sk s s' r : qlist s' = qlist s -> found_ok sk s r -> found_ok sk s' r.
Proof. intros E. unfold found_ok, held. rewrite E. by destruct r as [[i q]|]. Qed.

Lemma wp_find_queue sk s :
  distinct s -> wp (find_queue sk) s (fun r s' => found_ok sk s r /\ qsame s s').
Proof.
  intros Hd. unfold find_queue. apply wp_bind, wp_get.
  pose proof (find_by_key sq_socket (socketcompare sk) sk (queues s)
    (fun x => Z.eqb_eq (sq_socket x) sk)) as Hf.
  destruct (AList.find _ _) as [[i|] l]; destruct Hf as [Hf ->]; apply wp_bind, wp_modify, wp_ret.
  - destruct Hf as (q & Hq & Hk). split; [|done]. cbn. rewrite Hq. split; [done|]. split; [done|].
    by eapply find_socket_some.
  - split; [|by destruct s]. cbn. split; [done|]. by apply find_socket_none.
Qed.

(** The queue of the socket, or the default queue. *)
Definition cur (sk : Z) s : socket_queue := default (def_queue s) (held sk s).

(** The state with another queue in its place. *)
Definition updated (sk : Z) (q : socket_queue) s s' : Prop :=
  distinct s' /\ others_kept sk s s' /\ os s' = os s /\
  match held sk s with
  | Some _ => held sk s' = Some q /\ def_queue s' = def_queue s
  | None => held sk s' = None /\ def_queue s' = q
  end.

Lemma wp_write_queue sk r q s :
  distinct s -> found_ok sk s r -> match r with Some _ => sq_socket q = sk | None => True end ->
  wp (write_queue r q) s (fun _ s' => updated sk q s s').
Proof.
  intros Hd Hr Hq. destruct r as [[i q0]|]; cbn [write_queue]; apply wp_modify; unfold updated.
  - destruct Hr as (Hi & Hs & ->). set (s' := set_queues _ s).
    assert (qlist s' = <[i := q]> (qlist s)) as El by done.
    assert (map sq_socket (qlist s') = map sq_socket (qlist s)) as Em.
    { rewrite El. change (map sq_socket) with (fmap (M := list) sq_socket). rewrite list_fmap_insert.
      apply list_insert_id. by rewrite list_lookup_fmap, Hi, Hq, <- Hs. }
    assert (distinct s') as Hd' by (unfold distinct; by rewrite Em).
    split; [done|]. split; [|split; [done|split; [|done]]].
    + intros k Hne. unfold held. rewrite El. apply find_socket_insert with q0; congruence.
    + apply find_socket_some with i; [done| |done]. rewrite El. apply list_lookup_insert_eq.
      by eapply lookup_lt_Some.
  - destruct Hr as (Hn & ->). split; [done|]. split; [by intros k _|]. split; [done|].
    split; [|done]. by apply find_socket_none.
Qed.

Lemma qsame_distinct s s' : qsame s s' -> distinct s -> distinct s'.
Proof. intros (E & _). unfold distinct. by rewrite E. Qed.

Lemma qsame_held s s' k : qsame s s' -> held k s' = held k s.
Proof. intros (E & _). unfold held. by rewrite E. Qed.

Lemma qsame_updated sk q s s' s1 : qsame s s1 -> updated sk q s1 s' -> updated sk q s s'.
Proof.
  intros Hq (H1 & H2 & H3 & H4). pose proof Hq as (E1 & E2 & E3). rewrite (qsame_held _ _ _ Hq), E2 in H4.
  split; [done|]. split; [intros k Hk; by rewrite H2, (qsame_held _ _ _ Hq)|]. split; [congruence|]. done.
Qed.

(** ** What is held of a packet *)

(** The length digits of a packet: seven bits each, the lowest first, the last one
    without the continuation bit. *)
Fixpoint digits_value (ds : list Z) : option Z :=
  match ds with
  | [] => None
  | c :: r =>
      if Z.land c 128 =? 0 then match r with [] => Some (Z.land c 127) | _ => None end
      else (fun v => Z.land c 127 + 128 * v) <$> digits_value r
  end.

(** A queue from which [hd] has been read in the attempt under way, and that holds
    [pend] of the header and [data] besides. *)
Record mid (hd pend data : list Z) (q : socket_queue) : Prop := {
  m_index : sq_index q = Zlen hd;
  m_headerlen : sq_headerlen q = Zlen hd + Zlen pend;
  m_five : List.length (sq_fixed_header q) = 5%nat;
  m_header : take (Z.to_nat (sq_headerlen q)) (sq_fixed_header q) = hd ++ pend;
  m_datalen : sq_datalen q = Zlen data;
  m_data : take (Z.to_nat (sq_datalen q)) (sq_buf q) = map Some data;
  m_buflen : 0 <= sq_buflen q <= Zlen (sq_buf q);
  m_room : data = [] \/ exists b ds n, hd ++ pend = b :: ds /\ digits_value ds = Some n /\ Zlen data < n <= sq_buflen q
}.

(** The default queue between two attempts. *)
Definition clean (q : socket_queue) : Prop := sq_socket q = 0 /\ mid [] [] [] q.

(** The state in an attempt: the queue is one that was left by an attempt before, or
    the default one, which holds nothing but what has been read. *)
Definition rd_mid (sk : Z) (hd pend data : list Z) s : Prop :=
  distinct s /\
  match held sk s with
  | Some q => mid hd pend data q /\ clean (def_queue s)
  | None => pend = [] /\ data = [] /\ mid hd [] [] (def_queue s) /\
            sq_socket (def_queue s) = (match hd with [] => 0 | _ => sk end)
  end.

(** Between two attempts. *)
Definition reading s : Prop := distinct s /\ clean (def_queue s).
Definition resting (sk : Z) (hd data : list Z) s : Prop :=
  reading s /\ match held sk s with Some q => mid [] hd data q | None => hd = [] /\ data = [] end.

(** After an error: what [Socket_close] cleans up. *)
Definition shape (q : socket_queue) : Prop :=
  List.length (sq_fixed_header q) = 5%nat /\ 0 <= sq_buflen q <= Zlen (sq_buf q).
Definition failing (sk : Z) s : Prop :=
  distinct s /\ shape (def_queue s) /\ (clean (def_queue s) \/ sq_socket (def_queue s) = sk).

Definition recvd (sk : Z) (got : list Z) s s' : Prop :=
  forall k, received k (os s') = received k (os s) ++ (if k =? sk then got else []).

Lemma recvd_nil sk s s' : os s' = os s -> recvd sk [] s s'.
Proof. intros E k. rewrite E. destruct (k =? sk); by rewrite app_nil_r. Qed.

Lemma recvd_trans sk g1 g2 s1 s2 s3 : recvd sk g1 s1 s2 -> recvd sk g2 s2 s3 -> recvd sk (g1 ++ g2) s1 s3.
Proof. intros H1 H2 k. rewrite H2, H1, <- app_assoc. by destruct (k =? sk). Qed.

Lemma others_trans sk s1 s2 s3 : others_kept sk s1 s2 -> others_kept sk s2 s3 -> others_kept sk s1 s3.
Proof. intros H1 H2 k Hk. by rewrite H2, H1. Qed.

Lemma qsame_others sk s s' : qsame s s' -> others_kept sk s s'.
Proof. intros Hq k _. by apply qsame_held. Qed.

Lemma mid_shape hd pend data q : mid hd pend data q -> shape q.
Proof. by intros []. Qed.

Lemma shape_clear q : shape q -> clean (clear_queue q).
Proof. intros [H1 H2]. split; [done|]. split; try done. by left. Qed.

Lemma rd_mid_failing sk hd pend data s : rd_mid sk hd pend data s -> failing sk s.
Proof.
  unfold rd_mid, failing. intros [Hd H]. split; [done|]. destruct (held sk s).
  - destruct H as [_ Hc]. split; [by destruct Hc as [_ ?%mid_shape]|]. by left.
  - destruct H as (_ & _ & Hm & Hs). split; [by eapply mid_shape|].
    destruct hd; [left|by right]. by split.
Qed.

Lemma resting_mid sk hd data s : resting sk hd data s -> rd_mid sk [] hd data s.
Proof.
  intros [[Hd Hc] H]. split; [done|]. destruct (held sk s); [done|]. destruct H as [-> ->].
  destruct Hc. by split_and!.
Qed.

(** [SocketBuffer_getQueuedChar], [SocketBuffer_queueChar] and
    [SocketBuffer_interrupted] in an attempt. *)
Lemma mid_step hd c pend data q :
  mid hd (c :: pend) data q ->
  sq_fixed_header q !! Z.to_nat (sq_index q) = Some c /\
  mid (hd ++ [c]) pend data (mkQueue (sq_socket q) (sq_index q + 1) (sq_headerlen q) (sq_fixed_header q)
    (sq_buflen q) (sq_datalen q) (sq_buf q)).
Proof.
  intros [H1 H2 H3 H4 H5 H6 H7 H8]. pose proof (Zlen_nonneg hd). pose proof (Zlen_nonneg pend).
  rewrite Zlen_cons in H2. split.
  - rewrite <- (lookup_take_lt _ (Z.to_nat (sq_headerlen q))) by lia.
    rewrite H4, H1, Zlen_to_nat. by rewrite lookup_app_r, Nat.sub_diag by lia.
  - split; cbn; try done.
    + rewrite Zlen_app, Zlen_cons, Zlen_nil. lia.
    + rewrite Zlen_app, Zlen_cons, Zlen_nil. lia.
    + by rewrite <- app_assoc.
    + by rewrite <- app_assoc.
Qed.

Lemma mid_queue hd c q sk idx :
  mid hd [] [] q -> Zlen hd < 5 -> idx = sq_index q ->
  mid (hd ++ [c]) [] [] (mkQueue sk (idx + 1) (idx + 1) (<[Z.to_nat idx := c]> (sq_fixed_header q))
    (sq_buflen q) (sq_datalen q) (sq_buf q)).
Proof.
  intros [H1 H2 H3 H4 H5 H6 H7 H8] Hlt ->. pose proof (Zlen_nonneg hd). rewrite Zlen_nil, Z.add_0_r in H2.
  rewrite app_nil_r in H4. split; cbn; rewrite ?Zlen_app, ?Zlen_cons, ?Zlen_nil; try done; try lia.
  - by rewrite length_insert.
  - rewrite app_nil_r, H1. replace (Z.to_nat (Zlen hd + 1)) with (S (Z.to_nat (Zlen hd))) by lia.
    rewrite (take_S_r _ _ c).
    + f_equal. rewrite take_insert_ge by lia. by rewrite <- H2.
    + apply list_lookup_insert_eq. rewrite H3. lia.
  - by left.
Qed.

Definition with_datalen (n : Z) (q : socket_queue) : socket_queue :=
  mkQueue (sq_socket q) (sq_index q) (sq_headerlen q) (sq_fixed_header q) (sq_buflen q) n (sq_buf q).

Lemma mid_datalen hd q : mid hd [] [] q -> mid hd [] [] (with_datalen 0 q).
Proof. intros []. by split. Qed.

Lemma mid_rest hd data q n sk :
  mid hd [] data (with_datalen n q) ->
  mid [] hd data (mkQueue sk 0 (sq_headerlen q) (sq_fixed_header q) (sq_buflen q) n (sq_buf q)).
Proof.
  intros [H1 H2 H3 H4 H5 H6 H7 H8]. cbn in *. rewrite app_nil_r in *. rewrite Zlen_nil in H2.
  split; cbn; rewrite ?Zlen_nil; try done; lia.
Qed.

(** [SocketBuffer_interrupted]: the queue of the socket is the current one. *)
Definition resumed (sk n : Z) (q : socket_queue) : socket_queue :=
  mkQueue sk 0 (sq_headerlen q) (sq_fixed_header q) (sq_buflen q) n (sq_buf q).

Lemma wp_interrupted_queue sk n s :
  distinct s -> sk <> 0 -> (is_Some (held sk s) -> clean (def_queue s)) ->
  wp (SocketBuffer_interrupted sk n) s (fun _ s' =>
    reading s' /\ held sk s' = Some (resumed sk n (cur sk s)) /\ others_kept sk s s' /\ os s' = os s).
Proof.
  intros Hd Hsk Hc. unfold SocketBuffer_interrupted. apply wp_bind.
  eapply wp_mono; [by apply wp_find_queue|]. intros r s1 (Hr & Hq). apply wp_bind, wp_get.
  pose proof (qsame_distinct _ _ Hq Hd) as Hd1. pose proof Hq as (E1 & E2 & E3). unfold cur.
  destruct r as [[i q]|].
  - destruct Hr as (Hi & Hs & Hh). rewrite Hh in Hc |- *. specialize (Hc (mk_is_Some _ _ eq_refl)). cbn [default].
    eapply wp_mono; [apply (wp_write_queue sk); [exact Hd1| |done]|].
    + apply (found_same sk s); [done|]. split; [exact Hi|done].
    + intros [] s' Hu. apply (qsame_updated _ _ _ _ _ Hq) in Hu as (U1 & U2 & U3 & U4). rewrite Hh in U4.
      destruct U4 as [U4 U5]. split; [split; [done|by rewrite U5]|]. split; [|done]. rewrite U4. unfold resumed. by rewrite Hs.
  - destruct Hr as (Hn & Hh). rewrite Hh. cbn [default]. rewrite E2.
    apply wp_bind, wp_modify. cbn beta. apply wp_modify. set (s' := set_def _ _).
    assert (qlist s' = qlist s ++ [resumed sk n (def_queue s)]) as El by (unfold qlist in *; cbn; by rewrite E1).
    assert (distinct s') as Hd'.
    { unfold distinct. rewrite El, map_app. apply NoDup_app. split; [done|]. split; [|apply NoDup_singleton].
      intros x Hx Hx'. apply list_elem_of_singleton in Hx' as ->. done. }
    split; [|split; [|split; [|done]]].
    + split; [done|]. split; [done|]. split; cbn; rewrite ?Zlen_nil; try done. by left.
    + apply (find_socket_some sk _ (List.length (qlist s))); [done| |done].
      by rewrite El, lookup_app_r, Nat.sub_diag by lia.
    + intros k Hk. unfold held. rewrite El. apply find_socket_snoc. cbn. congruence.
Qed.

(** An interrupted attempt leaves what it has read in the queue of the socket. *)
Lemma wp_interrupted sk hd data n s :
  distinct s -> sk <> 0 -> mid hd [] data (with_datalen n (cur sk s)) ->
  (is_Some (held sk s) -> clean (def_queue s)) ->
  wp (SocketBuffer_interrupted sk n) s (fun _ s' => resting sk hd data s' /\ others_kept sk s s' /\ os s' = os s).
Proof.
  intros Hd Hsk Hm Hc. eapply wp_mono; [by apply wp_interrupted_queue|]. intros [] s' (H1 & H2 & H3).
  split; [|done]. split; [done|]. rewrite H2. by apply mid_rest.
Qed.

(** *** [Socket_getch] *)

Lemma qsame_rd_mid sk hd pend data s s' : qsame s s' -> rd_mid sk hd pend data s -> rd_mid sk hd pend data s'.
Proof.
  intros Hq [Hd H]. split; [by apply (qsame_distinct s)|]. rewrite (qsame_held s s') by done.
  destruct Hq as (_ & -> & _). done.
Qed.

Lemma wp_getQueuedChar sk hd pend data s :
  rd_mid sk hd pend data s -> Zlen hd < 5 ->
  wp (SocketBuffer_getQueuedChar sk) s (fun r s' =>
    match pend with
    | c :: pend' => r = (SOCKETBUFFER_COMPLETE, c) /\ rd_mid sk (hd ++ [c]) pend' data s' /\
                    others_kept sk s s' /\ os s' = os s
    | [] => r = (SOCKETBUFFER_INTERRUPTED, 0) /\ qsame s s'
    end).
Proof.
  intros Hm Hl. pose proof Hm as [Hd Hmid]. unfold SocketBuffer_getQueuedChar. apply wp_bind.
  eapply wp_mono; [by apply wp_find_queue|]. intros r s1 (Hr & Hq).
  destruct r as [[i q]|].
  - destruct Hr as (Hi & Hs & Hh). rewrite Hh in Hmid. destruct Hmid as [Hmid Hc].
    pose proof Hmid as []. pose proof (Zlen_nonneg pend). destruct pend as [|c pend'].
    + destruct (Z.ltb_spec (sq_index q) (sq_headerlen q)) as [Hlt|_]; [rewrite Zlen_nil in *; lia|].
      destruct (Z.ltb_spec 4 (sq_index q)); [lia|]. by apply wp_ret.
    + rewrite Zlen_cons in *. pose proof (Zlen_nonneg pend').
      destruct (Z.ltb_spec (sq_index q) (sq_headerlen q)) as [_|]; [|lia].
      destruct (mid_step _ _ _ _ _ Hmid) as [-> Hmid']. apply wp_bind.
      eapply wp_mono; [apply (wp_write_queue sk); [by apply (qsame_distinct s)| |done]|].
      * destruct Hq as (E & _). apply (found_same sk s); [done|]. split; [exact Hi|done].
      * intros [] s' Hu. apply (qsame_updated _ _ _ _ _ Hq) in Hu as (U1 & U2 & U3 & U4). rewrite Hh in U4.
        destruct U4 as [U4 U5]. apply wp_ret. split; [done|]. split; [|done]. split; [done|]. rewrite U4, U5. done.
  - destruct Hr as (Hn & Hh). rewrite Hh in Hmid. destruct Hmid as (-> & _). by apply wp_ret.
Qed.

Lemma wp_queueChar sk hd c s :
  rd_mid sk hd [] [] s -> Zlen hd < 5 -> sk <> 0 ->
  wp (SocketBuffer_queueChar sk c) s (fun _ s' => rd_mid sk (hd ++ [c]) [] [] s' /\ others_kept sk s s' /\ os s' = os s).
Proof.
  intros [Hd Hmid] Hl Hsk. unfold SocketBuffer_queueChar. apply wp_bind.
  eapply wp_mono; [by apply wp_find_queue|]. intros r s1 (Hr & Hq). apply wp_bind, wp_get.
  pose proof (qsame_distinct _ _ Hq Hd) as Hd1. pose proof Hq as (E1 & E2 & E3). rewrite E2.
  assert (sq_socket (def_queue s) <> sk -> sq_socket (def_queue s) = 0 \/ is_Some (held sk s)) as Hs0.
  { intros Hne. destruct (held sk s); [by right; eexists|]. left. destruct Hmid as (_ & _ & _ & Hs).
    destruct hd; [done|]. congruence. }
  destruct r as [[i q]|].
  - destruct Hr as (Hi & Hs & Hh). rewrite Hh in Hmid. destruct Hmid as [Hmid Hc]. cbn [orb].
    pose proof Hmid as []. destruct (Z.ltb_spec 4 (sq_index q)); [lia|].
    eapply wp_mono; [apply (wp_write_queue sk); [done| |done]|].
    + apply (found_same sk s); [done|]. split; [exact Hi|done].
    + intros [] s' Hu. apply (qsame_updated _ _ _ _ _ Hq) in Hu as (U1 & U2 & U3 & U4). rewrite Hh in U4.
      destruct U4 as [U4 U5]. split; [|done]. split; [done|]. rewrite U4, U5. split; [|done].
      by apply mid_queue.
  - destruct Hr as (Hn & Hh). rewrite Hh in *. destruct Hmid as (_ & _ & Hmid & Hsock).
    assert (exists idx, 
      (if sq_socket (def_queue s) =? 0 then
         (mkQueue sk 0 (sq_headerlen (def_queue s)) (sq_fixed_header (def_queue s)) (sq_buflen (def_queue s)) 0
            (sq_buf (def_queue s)), false)
       else (def_queue s, negb (sq_socket (def_queue s) =? sk))) =
      (mkQueue sk idx (sq_headerlen (def_queue s)) (sq_fixed_header (def_queue s)) (sq_buflen (def_queue s))
         (sq_datalen (def_queue s)) (sq_buf (def_queue s)), false) /\ idx = sq_index (def_queue s)) as (idx & -> & Hidx).
    { exists (sq_index (def_queue s)). split; [|done]. pose proof Hmid as [M1 _ _ _ M5 _ _ _]. rewrite Zlen_nil in M5.
      rewrite Hsock, M1, M5. destruct hd as [|x hd]; [done|].
      destruct (Z.eqb_spec sk 0); [done|]. rewrite Z.eqb_refl. cbn [negb]. f_equal.
      destruct (def_queue s); cbn in *. congruence. }
    cbn [sq_socket sq_index sq_headerlen sq_fixed_header sq_buflen sq_datalen sq_buf].
    pose proof Hmid as [M1 _ _ _ _ _ _ _]. cbn [orb]. destruct (Z.ltb_spec 4 idx); [lia|].
    eapply wp_mono; [apply (wp_write_queue sk); [done| |done]|].
    + apply (found_same sk s); [done|]. by split.
    + intros [] s' Hu. apply (qsame_updated _ _ _ _ _ Hq) in Hu as (U1 & U2 & U3 & U4). rewrite Hh in U4.
      destruct U4 as [U4 U5]. split; [|done]. split; [done|]. rewrite U4, U5.
      split; [done|]. split; [done|]. split; [by apply mid_queue|]. by destruct hd.
Qed.

(** [recv] *)
Lemma wp_recv sk n s :
  0 < n ->
  wp (call_os (sys_recv sk n)) s (fun r s' =>
    queues s' = queues s /\ def_queue s' = def_queue s /\ recvd sk (snd r) s s' /\
    ((fst (fst r) = SOCKET_ERROR /\ snd r = []) \/ (0 <= fst (fst r) <= n /\ fst (fst r) = Zlen (snd r)))).
Proof.
  intros Hn. unfold call_os, wp. destruct (sys_recv sk n (os s)) as [[[rc e] d] o'] eqn:E.
  exists (rc, e, d), (set_os o' s). split; [done|]. split; [done|]. split; [done|]. split.
  - intros k. by apply (recv_received sk n _ _ _ _ _ k E).
  - destruct (recv_law sk n _ _ _ _ _ E Hn) as [H|(H1 & H2 & _)]; [left|right]; done.
Qed.

Lemma recv_same s s' : queues s' = queues s -> def_queue s' = def_queue s ->
  (distinct s -> distinct s') /\ (forall k, held k s' = held k s) /\
  (forall sk hd pend data, rd_mid sk hd pend data s -> rd_mid sk hd pend data s').
Proof.
  intros E1 E2. assert (forall k, held k s' = held k s) as Hh by (intros k; unfold held, qlist; by rewrite E1).
  assert (distinct s -> distinct s') as Hd by (unfold distinct, qlist; by rewrite E1).
  split; [done|]. split; [done|]. intros sk hd pend data [H1 H2]. split; [by apply Hd|]. by rewrite Hh, E2.
Qed.

(** What [Socket_getch] does in an attempt. *)
Lemma wp_getch sk hd pend data s :
  rd_mid sk hd pend data s -> Zlen hd < 5 -> sk <> 0 -> (pend = [] -> data = []) ->
  wp (Socket_getch sk) s (fun r s' => others_kept sk s s' /\
    ((fst r = TCPSOCKET_COMPLETE /\ exists pend' got, pend ++ got = snd r :: pend' /\ ((pend = [] /\ pend' = []) \/ got = []) /\
        recvd sk got s s' /\ rd_mid sk (hd ++ [snd r]) pend' data s') \/
     (fst r = TCPSOCKET_INTERRUPTED /\ pend = [] /\ recvd sk [] s s' /\ resting sk hd [] s') \/
     (fst r = SOCKET_ERROR /\ recvd sk [] s s' /\ failing sk s'))).
Proof.
  intros Hm Hl Hsk Hpd. unfold Socket_getch. apply wp_bind.
  eapply wp_mono; [by apply (wp_getQueuedChar sk hd pend data)|]. intros r s1 H1. destruct pend as [|c pend'].
  - destruct H1 as [-> Hq]. specialize (Hpd eq_refl) as ->. cbv beta iota. change (negb _) with false. cbn [negb].
    apply wp_bind. eapply wp_mono; [by apply wp_recv|]. intros [[rc e] d] s2 (Q1 & Q2 & Hrc & Hd). cbn [fst snd] in *.
    pose proof (qsame_rd_mid _ _ _ _ _ _ Hq Hm) as Hm1. destruct (recv_same s1 s2 Q1 Q2) as (Hd2 & Hh2 & Hm2).
    specialize (Hm2 _ _ _ _ Hm1). assert (others_kept sk s s2) as Ho by (intros k _; rewrite Hh2; by apply qsame_held).
    assert (recvd sk d s s2) as Hrc2.
    { intros k. rewrite Hrc. by destruct Hq as (_ & _ & ->). }
    destruct (Z.eqb_spec rc SOCKET_ERROR) as [->|Hne].
    + destruct Hd as [[_ ->]|[[H _] _]]; [|done].
      destruct ((e =? EWOULDBLOCK) || (e =? EAGAIN)).
      * apply wp_bind. eapply wp_mono; [apply (wp_interrupted sk hd [] 0 s2); [apply Hm2|done|..]|].
        { apply mid_datalen. destruct Hm2 as [_ Hm2]. unfold cur. destruct (held sk s2); apply Hm2. }
        { destruct Hm2 as [_ Hm2]. intros [q Hs]. rewrite Hs in Hm2. apply Hm2. }
        intros [] s3 (R1 & R2 & R3). apply wp_ret. cbn [fst snd]. split; [by apply (others_trans _ _ s2)|]. right. left.
        split; [done|]. split; [done|]. split; [|done]. intros k. by rewrite R3.
      * apply wp_ret. split; [done|]. right. right. split; [done|]. split; [done|]. by apply rd_mid_failing in Hm2.
    + destruct (Z.eqb_spec rc 0) as [->|Hn0].
      * apply wp_ret. split; [done|]. right. right. split; [done|].
        destruct Hd as [[H _]|[_ Hd]]; [done|]. symmetry in Hd.
        destruct d; [|rewrite Zlen_cons in Hd; pose proof (Zlen_nonneg d); lia].
        split; [done|]. by apply rd_mid_failing in Hm2.
      * destruct Hd as [[H _]|[Hr Hd]]; [done|]. assert (rc = 1) as -> by lia.
        destruct d as [|c [|x d]]; [done| |rewrite !Zlen_cons in Hd; pose proof (Zlen_nonneg d); lia].
        cbn [head default]. apply wp_bind. eapply wp_mono; [by apply (wp_queueChar sk hd)|].
        intros [] s3 (R1 & R2 & R3). apply wp_ret. cbn [fst snd]. split; [by apply (others_trans _ _ s2)|]. left.
        split; [done|]. exists [], [c]. split; [done|]. split; [by left|]. split; [|done].
        intros k. by rewrite R3.
  - destruct H1 as (-> & H1 & H2 & H3). apply wp_ret. split; [done|]. left. split; [done|].
    exists pend', []. cbn [fst snd]. rewrite app_nil_r. split; [done|]. split; [by right|]. split; [by apply recvd_nil|done].
Qed.

(** *** [Socket_getdata] *)

Lemma grow_room q n : n <= sq_buflen (grow q n).
Proof. unfold grow. destruct (Z.ltb_spec (sq_buflen q) n); cbn; lia. Qed.

Lemma grow_mid hd data q n b ds :
  mid hd [] data q -> hd = b :: ds -> digits_value ds = Some n -> 0 < n ->
  mid hd [] data (grow q n) /\ Zlen data < n.
Proof.
  intros Hm -> Hds Hn. pose proof Hm as [H1 H2 H3 H4 H5 H6 H7 H8].
  assert (data = [] \/ (Zlen data < n /\ n <= sq_buflen q)) as Hd.
  { destruct H8 as [H8|(b' & ds' & n' & E & E' & H8)]; [by left|right].
    rewrite app_nil_r in E. injection E as <- <-. assert (n' = n) as -> by congruence. lia. }
  split; [|destruct Hd as [-> | ?]; [done|lia]].
  unfold grow. destruct (Z.ltb_spec (sq_buflen q) n); [|done]. destruct Hd as [-> | ?]; [|lia].
  rewrite Zlen_nil in *. rewrite H5. split; cbn; rewrite ?Zlen_nil; try done; [|by left].
  split; [lia|]. unfold Zlen. rewrite length_take, length_app, length_replicate. lia.
Qed.

Lemma rd_mid_cur sk hd pend data s : rd_mid sk hd pend data s -> mid hd pend data (cur sk s).
Proof. unfold cur. intros [_ H]. destruct (held sk s); [apply H|]. by destruct H as (-> & -> & ? & _). Qed.

Lemma updated_mid sk q hd data s s' :
  rd_mid sk hd [] data s -> updated sk q s s' -> mid hd [] data q -> sq_socket q = sq_socket (cur sk s) ->
  rd_mid sk hd [] data s' /\ cur sk s' = q.
Proof.
  intros [Hd Hmid] (U1 & U2 & U3 & U4) Hq Hs. unfold cur in *. destruct (held sk s) as [q0|].
  - destruct U4 as [U4 U5]. split; [|by rewrite U4]. split; [done|]. rewrite U4, U5. by destruct Hmid.
  - destruct U4 as [U4 U5]. split; [|by rewrite U4, U5]. split; [done|]. rewrite U4, U5.
    destruct Hmid as (_ & -> & _ & Hk). cbn in Hs. rewrite Hs. done.
Qed.

Lemma wp_getQueuedData sk hd n data s :
  rd_mid sk hd [] data s -> (forall q, mid hd [] data q -> mid hd [] data (grow q n) /\ Zlen data < n) ->
  wp (SocketBuffer_getQueuedData sk n) s (fun r s' =>
    r = Zlen data /\ Zlen data < n <= sq_buflen (cur sk s') /\ rd_mid sk hd [] data s' /\
    others_kept sk s s' /\ os s' = os s).
Proof.
  intros Hm Hgrow. pose proof Hm as [Hd Hmid]. unfold SocketBuffer_getQueuedData. apply wp_bind.
  eapply wp_mono; [by apply wp_find_queue|]. intros r s1 (Hr & Hq). apply wp_bind, wp_get.
  pose proof (qsame_distinct _ _ Hq Hd) as Hd1. pose proof Hq as (E1 & E2 & E3).
  set (q := match r with Some (_, q) => q | None => def_queue s1 end).
  assert (q = cur sk s) as Eq.
  { unfold q, cur. destruct r as [[i q0]|]; [destruct Hr as (_ & _ & ->)|destruct Hr as (_ & ->); rewrite E2]; done. }
  pose proof (rd_mid_cur _ _ _ _ _ Hm) as Hc. rewrite <- Eq in Hc.
  destruct (Hgrow _ Hc) as [Hg Hlt].
  assert (sq_socket (grow q n) = sq_socket q) as Hgs by (unfold grow; by destruct (_ <? _)).
  apply wp_bind. eapply wp_mono; [apply (wp_write_queue sk); [done|by apply (found_same sk s)|]|].
  { destruct r as [[i q0]|]; [|done]. rewrite Hgs. by destruct Hr as (_ & ? & _). }
  intros [] s' Hu. apply (qsame_updated _ _ _ _ _ Hq) in Hu. apply wp_ret.
  destruct (updated_mid _ _ _ _ _ _ Hm Hu Hg) as [Hm' Hc']; [by rewrite Hgs, Eq|].
  destruct Hu as (_ & U2 & U3 & _). split; [|split; [|done]].
  - destruct r as [[i q0]|]; [by destruct Hc|]. destruct Hr as (_ & Hh). rewrite Hh in Hmid. by destruct Hmid as (_ & -> & _).
  - rewrite Hc'. split; [done|]. apply grow_room.
Qed.

Definition queue_at (found : option (nat * socket_queue)) s : socket_queue :=
  match found with Some (i, q) => default q (qlist s !! i) | None => def_queue s end.

Lemma wp_write_at r q s :
  match r with Some (i, _) => is_Some (qlist s !! i) | None => True end ->
  wp (write_queue r q) s (fun _ s' => queue_at r s' = q).
Proof.
  intros Hr. destruct r as [[i q0]|]; cbn [write_queue]; apply wp_modify; [|done].
  unfold queue_at. change (qlist _) with (<[i := q]> (qlist s)). rewrite list_lookup_insert_eq; [done|].
  by apply lookup_lt_is_Some.
Qed.

(** The data received goes behind the data there is. *)
Lemma wp_recv_into sk hd data d found s :
  rd_mid sk hd [] data s -> found_ok sk s found -> Zlen data + Zlen d <= sq_buflen (cur sk s) ->
  wp (recv_into found (Zlen data) d) s (fun _ s' =>
    exists q, updated sk q s s' /\ queue_at found s' = q /\ sq_buflen q = sq_buflen (cur sk s) /\
      sq_fixed_header q = sq_fixed_header (cur sk s) /\ Zlen (sq_buf q) = Zlen (sq_buf (cur sk s)) /\
      sq_index q = sq_index (cur sk s) /\ sq_headerlen q = sq_headerlen (cur sk s) /\
      take (Z.to_nat (Zlen data + Zlen d)) (sq_buf q) = map Some (data ++ d) /\
      sq_socket q = sq_socket (cur sk s)).
Proof.
  intros Hm Hf Hb. pose proof (rd_mid_cur _ _ _ _ _ Hm) as Hc. unfold recv_into. apply wp_bind, wp_get.
  set (q := match found with Some (i, q) => _ | None => _ end).
  assert (q = cur sk s) as Eq.
  { unfold q, cur. destruct found as [[i q0]|].
    - destruct Hf as (Hi & _ & ->). unfold qlist in Hi. by rewrite Hi.
    - by destruct Hf as (_ & ->). }
  clearbody q. subst q. destruct Hc as [H1 H2 H3 H4 H5 H6 H7 H8]. pose proof (Zlen_nonneg data). pose proof (Zlen_nonneg d).
  destruct (Z.ltb_spec (Zlen (sq_buf (cur sk s))) (Zlen data + Zlen d)); [lia|].
  set (q' := mkQueue _ _ _ _ _ _ _).
  eapply wp_mono; [apply wp_conj; [apply (wp_write_queue sk); [apply Hm|done|]|apply wp_write_at]|].
  { destruct found as [[i q0]|]; [|done]. destruct Hf as (_ & Hs & Hh). cbn. unfold cur. by rewrite Hh. }
  { destruct found as [[i q0]|]; [|done]. destruct Hf as (Hi & _). by exists q0. }
  - intros [] s' [Hu Ha]. exists q'. split; [done|]. split; [done|]. split; [done|]. split; [done|].
    rewrite H5 in H6. split.
    { cbn. unfold Zlen in *. rewrite !length_app, length_take, length_map, length_drop. lia. }
    split; [done|]. split; [done|]. split; [|done]. cbn. rewrite H6, map_app, app_assoc, take_app_le, take_ge.
    + done.
    + rewrite length_app, !length_map. unfold Zlen. lia.
    + rewrite length_app, !length_map. unfold Zlen. lia.
Qed.

(** Removing the queue of a socket. *)
Lemma remove_queue sk i q s s' :
  distinct s -> qlist s !! i = Some q -> sq_socket q = sk -> qlist s' = delete i (qlist s) ->
  distinct s' /\ held sk s' = None /\ others_kept sk s s'.
Proof.
  intros Hd Hi Hs El. unfold distinct in *. split; [|split].
  - rewrite El, list_map_delete. eapply sublist_NoDup; [exact Hd|]. apply sublist_delete.
  - unfold held. rewrite El. apply find_socket_none. rewrite list_map_delete. intros Hin.
    apply list_elem_of_lookup in Hin as [j Hj].
    assert (map sq_socket (qlist s) !! i = Some sk) as Hi' by (rewrite list_lookup_fmap, Hi; cbn; by rewrite Hs).
    destruct (decide (j < i)%nat).
    + rewrite list_lookup_delete_lt in Hj by done. pose proof (NoDup_lookup _ _ _ _ Hd Hi' Hj). lia.
    + rewrite list_lookup_delete_ge in Hj by lia. pose proof (NoDup_lookup _ _ _ _ Hd Hi' Hj). lia.
  - intros k Hk. unfold held. rewrite El. apply find_socket_delete with q; congruence.
Qed.

(** [SocketBuffer_complete] *)
Lemma wp_complete sk s :
  distinct s -> shape (cur sk s) ->
  wp (SocketBuffer_complete sk) s (fun _ s' => reading s' /\ held sk s' = None /\ others_kept sk s s' /\ os s' = os s).
Proof.
  intros Hd Hsh. unfold SocketBuffer_complete. apply wp_bind.
  eapply wp_mono; [by apply wp_find_queue|]. intros r s1 (Hr & Hq).
  pose proof (qsame_distinct _ _ Hq Hd) as Hd1. pose proof Hq as (E1 & E2 & E3). unfold cur in Hsh. apply wp_bind.
  destruct r as [[i q]|].
  - destruct Hr as (Hi & Hs & Hh). rewrite Hh in Hsh. cbn in Hsh. apply wp_bind, wp_modify. cbn beta. apply wp_modify.
    apply wp_bind, wp_modify, wp_bind, wp_get, wp_ret. set (s' := set_def _ _).
    assert (qlist s' = delete i (qlist s)) as El by (unfold qlist in *; cbn; by rewrite E1).
    destruct (remove_queue sk i q s s') as (R1 & R2 & R3); [done..|].
    split; [split; [done|by apply shape_clear]|]. by split_and!.
  - destruct Hr as (Hn & Hh). rewrite Hh in Hsh. cbn in Hsh. apply wp_ret, wp_bind, wp_modify, wp_bind, wp_get, wp_ret.
    split; [split|split; [|split; [|done]]].
    + done.
    + apply shape_clear. by rewrite E2.
    + by rewrite <- Hh; apply (qsame_held s s1).
    + by apply (qsame_others sk s s1).
Qed.

Lemma updated_cur sk q s s' : updated sk q s s' -> cur sk s' = q.
Proof. intros (_ & _ & _ & U). unfold cur. destruct (held sk s); [by destruct U as [-> _]|by destruct U as [-> ->]]. Qed.

(** The end of [Socket_getdata]: a complete body, or an interruption. *)
Lemma wp_getdata_end sk b ds n data d found (rc al : Z) s :
  rd_mid sk (b :: ds) [] data s -> found_ok sk s found -> digits_value ds = Some n -> sk <> 0 ->
  al = Zlen data + Zlen d -> al <= n <= sq_buflen (cur sk s) ->
  wp (_ ← recv_into found (Zlen data) d;
      s ← sm_get;
      let buf := sq_buf (queue_at found s) in
      _ ← (if al =? n then _ ← SocketBuffer_complete sk; mret () else SocketBuffer_interrupted sk al);
      mret (Some buf, al, rc)) s (fun r s' =>
    others_kept sk s s' /\ os s' = os s /\ exists buf, r = (Some buf, al, rc) /\
      take (Z.to_nat al) buf = map Some (data ++ d) /\
      (if al =? n then reading s' /\ held sk s' = None else resting sk (b :: ds) (data ++ d) s')).
Proof.
  intros Hm Hf Hds Hsk -> Hn. pose proof (rd_mid_cur _ _ _ _ _ Hm) as Hc.
  apply wp_bind. eapply wp_mono; [by apply (wp_recv_into sk (b :: ds) data d); [..|lia]|].
  intros [] s1 (q & Hu & Hat & B1 & B2 & B3 & B4 & B5 & B6 & B7).
  pose proof (updated_cur _ _ _ _ Hu) as Hcur. destruct Hu as (U1 & U2 & U3 & U4).
  apply wp_bind, wp_get. rewrite Hat. destruct Hc as [H1 H2 H3 H4 H5 H6 H7 H8]. pose proof (Zlen_nonneg data). pose proof (Zlen_nonneg d).
  apply wp_bind. destruct (Z.eqb_spec (Zlen data + Zlen d) n) as [He|Hne].
  - apply wp_bind. eapply wp_mono; [apply (wp_complete sk); [done|]|].
    { rewrite Hcur. unfold shape. rewrite B1, B2, B3. done. }
    intros ? s2 (C1 & C2 & C3 & C4). do 2 apply wp_ret. split; [by apply (others_trans _ _ s1)|]. split; [congruence|].
    eexists. split; [done|]. done.
  - eapply wp_mono; [apply (wp_interrupted sk (b :: ds) (data ++ d)); [done|done|..]|].
    + rewrite Hcur. split; cbn; rewrite ?B1, ?B2, ?B3, ?B4, ?B5, ?Zlen_app; try done.
      right. exists b, ds, n. rewrite app_nil_r. split; [done|]. split; [done|]. lia.
    + intros [q0 Hh]. destruct Hm as [_ Hm]. destruct (held sk s); [|by destruct U4; congruence].
      destruct U4 as [_ ->]. apply Hm.
    + intros [] s2 (C1 & C2 & C3). apply wp_ret. split; [by apply (others_trans _ _ s1)|]. split; [congruence|].
      eexists. split; [done|]. done.
Qed.

Lemma wp_tcp_getdata sk b ds n data s :
  rd_mid sk (b :: ds) [] data s -> digits_value ds = Some n -> 0 <= n -> sk <> 0 ->
  wp (tcp_getdata sk n) s (fun r s' => others_kept sk s s' /\ exists got, recvd sk got s s' /\
    ((r = (Some (data ++ got), n) /\ Zlen (data ++ got) = n /\ reading s' /\ held sk s' = None) \/
     (fst r = Some [] /\ snd r < n /\ resting sk (b :: ds) (data ++ got) s') \/
     (fst r = None /\ 0 < n /\ got = [] /\ failing sk s'))).
Proof.
  intros Hm Hds Hn Hsk. pose proof (rd_mid_cur _ _ _ _ _ Hm) as Hc. pose proof Hm as [Hd _].
  unfold tcp_getdata, Socket_getdata. apply wp_bind. destruct (Z.eqb_spec n 0) as [->|Hn0].
  { assert (data = []) as ->.
    { destruct Hc as [_ _ _ _ _ _ _ [H|(b' & ds' & n' & E & E' & H)]]; [done|]. rewrite app_nil_r in E.
      injection E as <- <-. rewrite Hds in E'. injection E' as <-. pose proof (Zlen_nonneg data). lia. }
    apply wp_bind. eapply wp_mono; [apply (wp_complete sk); [done|by eapply mid_shape]|].
    intros buf s1 (C1 & C2 & C3 & C4). apply wp_ret. cbn [Z.ltb Z.compare]. change (Z.to_nat 0) with 0%nat. rewrite take_0.
    cbn [mapM]. apply wp_ret. split; [done|]. exists []. split; [by apply recvd_nil|]. by left. }
  apply wp_bind. eapply wp_mono; [apply (wp_getQueuedData sk (b :: ds) n data); [done|]|].
  { intros q Hq. apply (grow_mid (b :: ds) data q n b ds); [done|done|done|lia]. }
  intros ? s1 (-> & Hroom & Hm1 & O1 & E1). apply wp_bind. eapply wp_mono; [apply wp_recv; lia|].
  intros [[rc e] d] s2 (Q1 & Q2 & Hrc & Hdl). cbn [fst snd] in *.
  destruct (recv_same s1 s2 Q1 Q2) as (Hd2 & Hh2 & Hm2). specialize (Hm2 _ _ _ _ Hm1).
  assert (others_kept sk s s2) as O2 by (intros k Hk; rewrite Hh2; by apply O1).
  assert (recvd sk d s s2) as Hg by (intros k; by rewrite Hrc, E1).
  assert (cur sk s2 = cur sk s1) as Hcur by (unfold cur; by rewrite Hh2, Q2).
  assert (d = [] -> forall (r : option (list Z) * Z), fst r = None -> others_kept sk s s2 /\ exists got, recvd sk got s s2 /\
    ((r = (Some (data ++ got), n) /\ Zlen (data ++ got) = n /\ reading s2 /\ held sk s2 = None) \/
     (fst r = Some [] /\ snd r < n /\ resting sk (b :: ds) (data ++ got) s2) \/
     (fst r = None /\ 0 < n /\ got = [] /\ failing sk s2))) as Hnone.
  { intros -> r Hr. split; [done|]. exists []. split; [done|]. right. right. split; [done|].
    split; [lia|]. split; [done|]. by apply rd_mid_failing in Hm2. }
  destruct ((rc =? SOCKET_ERROR) && negb (e =? EAGAIN) && negb (e =? EWOULDBLOCK)) eqn:Herr.
  { apply wp_ret, wp_ret, Hnone; [|done]. destruct Hdl as [[_ ->]|[[H _] _]]; [done|].
    destruct (Z.eqb_spec rc SOCKET_ERROR) as [->|]; done. }
  destruct (Z.eqb_spec rc 0) as [->|Hrc0].
  { apply wp_ret, wp_ret, Hnone; [|done]. destruct Hdl as [[H _]|[_ Hdl]]; [done|]. symmetry in Hdl.
    destruct d; [done|]. rewrite Zlen_cons in Hdl. pose proof (Zlen_nonneg d). lia. }
  apply wp_bind. eapply wp_mono; [apply (wp_find_queue sk); apply Hm2|]. intros found s3 (Hf & Hq).
  pose proof (qsame_rd_mid _ _ _ _ _ _ Hq Hm2) as Hm3.
  eapply wp_mono; [apply (wp_getdata_end sk b ds n data d found); try done|].
  - destruct Hq. by apply (found_same sk s2).
  - destruct (Z.eqb_spec rc SOCKET_ERROR) as [->|]; destruct Hdl as [[? ->]|[? ?]]; rewrite ?Zlen_nil; unfold SOCKET_ERROR in *; lia.
  - assert (cur sk s3 = cur sk s1) as -> by (rewrite <- Hcur; unfold cur; rewrite (qsame_held _ _ _ Hq); by destruct Hq as (_ & -> & _)).
    destruct (Z.eqb_spec rc SOCKET_ERROR); unfold SOCKET_ERROR in *; lia.
  - set (al := if rc =? SOCKET_ERROR then _ else _). intros r s4 (R1 & R2 & buf & -> & R3 & R4). cbv beta iota.
    assert (recvd sk d s s4) as Hg4 by (intros k; rewrite R2; destruct Hq as (_ & _ & ->); apply Hg).
    assert (others_kept sk s s4) as O4.
    { eapply others_trans; [exact O2|]. eapply others_trans; [by apply qsame_others|done]. }
    assert (al = Zlen (data ++ d)) as Hal.
    { unfold al. rewrite Zlen_app. destruct (Z.eqb_spec rc SOCKET_ERROR) as [->|]; destruct Hdl as [[? ->]|[? ?]]; rewrite ?Zlen_nil; unfold SOCKET_ERROR in *; lia. }
    destruct (Z.eqb_spec al n) as [He|Hne].
    + destruct (Z.ltb_spec al n); [lia|]. rewrite He in R3. rewrite R3, mapM_known. apply wp_ret.
      split; [done|]. exists d. split; [done|]. left. rewrite <- He at 1. split_and!; [by rewrite He|lia|apply R4..].
    + assert (al < n) as Hlt.
      { unfold al in *. destruct (Z.eqb_spec rc SOCKET_ERROR); unfold SOCKET_ERROR in *; lia. }
      destruct (Z.ltb_spec al n); [|lia]. apply wp_ret. split; [done|]. exists d. split; [done|]. right. left. done.
Qed.

(** ** [MQTTPacket_decode] over a socket *)

Context {P : Type} {PO : PersistenceOps P}.
Implicit Types st : St P (TcpNet OS).

Definition at_net st s : St P (TcpNet OS) := set_network st (Tcp s).

Lemma wp_call_tcp {A} (a0 : A) (m : SM (SockSt OS) A) st s (Q : A -> SockSt OS -> Prop) :
  wp m s Q -> wp (call_net (tcp_run a0 m)) (at_net st s) (fun a st' => exists s', st' = at_net st s' /\ Q a s').
Proof.
  intros (a & s' & Hm & HQ). exists a, (at_net st s'). split; [|by exists s'].
  unfold call_net. cbn. by rewrite Hm.
Qed.

(** All with the continuation bit. *)
Definition all_more (ds : list Z) : Prop := Forall (fun c => Z.land c 128 <> 0) ds.

Definition pend_ok (pend data : list Z) : Prop := (all_more pend /\ data = []) \/ is_Some (digits_value pend).

Lemma pend_ok_more c pend data : Z.land c 128 <> 0 -> pend_ok (c :: pend) data -> pend_ok pend data.
Proof.
  intros Hc [[Ha Hd]|Hs]; [left; by inversion Ha|right]. cbn in Hs.
  destruct (Z.eqb_spec (Z.land c 128) 0); [done|]. by apply fmap_is_Some in Hs.
Qed.

Lemma pend_ok_last c pend data : Z.land c 128 = 0 -> pend_ok (c :: pend) data -> pend = [].
Proof.
  intros Hc [[Ha _]|Hs]; [by inversion Ha|]. cbn in Hs. rewrite Hc in Hs. cbn in Hs.
  destruct pend; [done|]. by destruct Hs.
Qed.

Lemma wp_decode_loop f len v m b dsr pend data st s :
  let sk := the_socket st in
  rd_mid sk (b :: dsr) pend data s -> sk <> 0 -> Zlen dsr = len -> pend_ok pend data ->
  wp (decode_loop f len v m) (at_net st s) (fun r st' => exists s' got,
    st' = at_net st s' /\ others_kept sk s s' /\ recvd sk got s s' /\
    ((exists ds n, r = (TCPSOCKET_COMPLETE, v + n * m) /\ digits_value ds = Some n /\ pend ++ got = ds /\
        rd_mid sk (b :: dsr ++ ds) [] data s') \/
     (fst r = TCPSOCKET_INTERRUPTED /\ all_more (pend ++ got) /\ data = [] /\ (List.length (dsr ++ pend ++ got) <= 4)%nat /\
        resting sk (b :: dsr ++ pend ++ got) [] s') \/
     (fst r = SOCKET_ERROR /\ failing sk s'))).
Proof.
  intros sk. revert len v m dsr pend s. induction f as [|f IH]; intros len v m dsr pend s Hm Hsk Hlen Hok; cbn [decode_loop].
  { apply wp_ret. exists s, []. split; [done|]. split; [by intros k _|]. split; [by apply recvd_nil|]. right. right.
    by apply rd_mid_failing in Hm. }
  destruct (Z.ltb_spec 4 (len + 1)) as [H4|H4].
  { apply wp_ret. exists s, []. split; [done|]. split; [by intros k _|]. split; [by apply recvd_nil|]. right. right.
    by apply rd_mid_failing in Hm. }
  apply wp_bind, wp_get, wp_bind. change (the_socket (at_net st s)) with sk.
  assert (pend = [] -> data = []) as Hpd.
  { intros ->. destruct Hok as [[_ ?]|[? H]]; done. }
  eapply wp_mono; [apply wp_call_tcp, (wp_getch sk (b :: dsr) pend data s); [done| |done|done]|].
  { rewrite Zlen_cons. lia. }
  intros [rc c] st' (s1 & -> & O1 & H1). cbn [fst snd] in H1.
  destruct H1 as [(-> & pend' & got & Hgot & Hside & Hr1 & Hm1)|[(-> & -> & Hr1 & Hrest)|(-> & Hr1 & Hfail)]].
  - change (negb (TCPSOCKET_COMPLETE =? TCPSOCKET_COMPLETE)) with false. cbv iota.
    destruct (Z.eqb_spec (Z.land c 128) 0) as [Hz|Hz]; cbn [negb].
    + assert (pend' = []) as ->.
      { destruct Hside as [[_ ->]| ->]; [done|]. rewrite app_nil_r in Hgot. subst pend. by eapply pend_ok_last. }
      apply wp_ret. exists s1, got. split; [done|]. split; [done|]. split; [done|]. left.
      exists [c], (Z.land c 127). split; [done|]. split; [cbn; by rewrite Hz|]. split; [done|]. by rewrite app_comm_cons.
    + assert (pend_ok pend' data) as Hok'.
      { destruct Hside as [[-> ->]| ->]; [left; split; [by apply Forall_nil|by apply Hpd]|].
        rewrite app_nil_r in Hgot. subst pend. by eapply pend_ok_more. }
      eapply wp_mono; [apply (IH (len + 1) _ _ (dsr ++ [c]) pend' s1); [done|done| |done]|].
      { rewrite Zlen_app, Zlen_cons, Zlen_nil. lia. }
      intros r st' (s2 & got2 & -> & O2 & R2 & H2). exists s2, (got ++ got2).
      split; [done|]. split; [by apply (others_trans _ _ s1)|]. split; [by eapply recvd_trans|].
      rewrite (app_assoc pend got got2), Hgot. rewrite <- app_assoc in H2. cbn in H2 |- *.
      destruct H2 as [(ds & n & -> & Hds & Hg & Hm2)|[(Hr & Ha & Hd & Hl & Hrest)|H2]]; [left|right; left|right; right; done].
      * exists (c :: ds), (Z.land c 127 + 128 * n). split; [f_equal; lia|]. split.
        { cbn. rewrite Hds. by destruct (Z.eqb_spec (Z.land c 128) 0). }
        split; [by rewrite Hg|]. by rewrite <- ?app_assoc in Hm2.
      * split; [done|]. split; [by apply Forall_cons|]. split; [done|]. rewrite <- ?app_assoc in Hl, Hrest. done.
  - change (negb (TCPSOCKET_INTERRUPTED =? TCPSOCKET_COMPLETE)) with true. cbv iota. apply wp_ret.
    exists s1, []. split; [done|]. split; [done|]. split; [done|]. right. left. cbn. rewrite Hpd in * by done.
    rewrite app_nil_r. split; [done|]. split; [by apply Forall_nil|]. split; [done|]. split; [unfold Zlen in *; lia|done].
  - change (negb (SOCKET_ERROR =? TCPSOCKET_COMPLETE)) with true. cbv iota. apply wp_ret.
    exists s1, []. split; [done|]. split; [done|]. split; [done|]. right. right. done.
Qed.

Lemma digits_nonneg ds n : digits_value ds = Some n -> 0 <= n.
Proof.
  revert n. induction ds as [|c r IH]; intros n; cbn; [done|].
  assert (0 <= Z.land c 127) by (apply Z.land_nonneg; by right).
  destruct (Z.land c 128 =? 0); [destruct r; [|done]; by intros [= <-]|].
  destruct (digits_value r) as [v|]; [|done]. intros [= <-]. specialize (IH v eq_refl). lia.
Qed.

(** A length has one end. *)
Lemma digits_prefix ds g n m : digits_value ds = Some n -> digits_value (ds ++ g) = Some m -> g = [].
Proof.
  revert n m. induction ds as [|c r IH]; intros n m; cbn; [done|].
  destruct (Z.land c 128 =? 0); [destruct r; [|done]; cbn; by destruct g|].
  destruct (digits_value r) eqn:E1; [|done]. destruct (digits_value (r ++ g)) eqn:E2; [|done]. intros _ _. by eapply IH.
Qed.

(** ** [MQTTPacket_Factory] over a socket *)

(** The bytes of a packet that a socket holds between two attempts. *)
Definition holds (sk : Z) (l : list Z) s : Prop :=
  exists hd data, l = hd ++ data /\ resting sk hd data s /\
    match hd with [] => data = [] | _ :: ds => pend_ok ds data end.

Lemma holds_nil sk s : reading s -> held sk s = None -> holds sk [] s.
Proof. intros Hr Hh. exists [], []. split; [done|]. split; [|done]. split; [done|]. by rewrite Hh. Qed.

(** How an attempt to read a packet ends. *)
Inductive attempt :=
| Interrupted
| Broken
| Frame (header : Z) (digits body : list Z).

Lemma factory_tail {A} (m : SM (St P (TcpNet OS)) (Z * A)) st :
  ('(error, pack) ← m;
   _ ← (if error =? TCPSOCKET_INTERRUPTED
        then sm_modify (fun x => set_network x (framePosSeekTo 0 (st_net x))) else mret ());
   mret (error, pack)) st = m st.
Proof.
  unfold mbind, sm_bind at 1. destruct (m st) as [[[e p] st1]| |]; [|done..].
  destruct (e =? TCPSOCKET_INTERRUPTED); [|done]. by destruct st1.
Qed.

Lemma Factory_body v st : MQTTPacket_Factory v st = factory_body v st.
Proof. apply (factory_tail (factory_body v) st). Qed.

Lemma factory_body_sockets v st s l :
  let sk := the_socket st in
  holds sk l s -> sk <> 0 ->
  exists o s' got, others_kept sk s s' /\ recvd sk got s s' /\
    match o with
    | Interrupted => factory_body v (at_net st s) = Ok ((TCPSOCKET_INTERRUPTED, None), at_net st s') /\ holds sk (l ++ got) s'
    | Broken => factory_body v (at_net st s) = Ok ((SOCKET_ERROR, None), at_net st s') /\ failing sk s'
    | Frame header ds body =>
        l ++ got = header :: ds ++ body /\ digits_value ds = Some (Zlen body) /\ holds sk [] s' /\
        factory_body v (at_net st s) = frame_done v header body (at_net st s')
    end.
Proof.
  intros sk (hd & data & -> & Hrest & Hok) Hsk. unfold factory_body.
  rewrite (sm_bind_run sm_get _ _ _ _ eq_refl). change (the_socket (at_net st s)) with sk.
  pose proof (resting_mid _ _ _ _ Hrest) as Hm.
  assert (hd = [] -> data = []) as Hd0 by (by intros ->).
  destruct (wp_call_tcp (SOCKET_ERROR, 0) _ st s _ (wp_getch sk [] hd data s Hm eq_refl Hsk Hd0))
    as ([rc c] & st1 & E1 & s1 & -> & O1 & H1). rewrite (sm_bind_run _ _ _ _ _ E1). cbn [fst snd] in H1. clear E1.
  destruct H1 as [(-> & pend' & got & Hgot & Hside & Hr1 & Hm1)|[(-> & -> & Hr1 & Hrest1)|(-> & Hr1 & Hfail)]].
  2: { exists Interrupted, s1, []. split; [done|]. split; [done|]. split; [done|]. rewrite Hd0 by done.
       exists [], []. by split. }
  2: { by exists Broken, s1, []. }
  change (negb (TCPSOCKET_COMPLETE =? TCPSOCKET_COMPLETE)) with false. cbv iota.
  assert (pend_ok pend' data) as Hok1.
  { destruct Hside as [[-> ->]| ->]; [left; split; [by apply Forall_nil|by apply Hd0]|].
    rewrite app_nil_r in Hgot. by subst hd. }
  destruct (wp_decode_loop 5 0 0 1 c [] pend' data st s1 Hm1 Hsk eq_refl Hok1)
    as ([rc v2] & st2 & E2 & s2 & got2 & -> & O2 & R2 & H2). unfold MQTTPacket_decode.
  rewrite (sm_bind_run _ _ _ _ _ E2). cbn [fst snd] in H2. clear E2.
  pose proof (others_trans _ _ _ _ O1 O2) as O12. pose proof (recvd_trans _ _ _ _ _ _ Hr1 R2) as R12.
  assert (hd ++ got ++ got2 = c :: pend' ++ got2) as Hhd by (by rewrite app_assoc, Hgot).
  destruct H2 as [(ds & n & [= -> ->] & Hds & Hg2 & Hm2)|[(-> & Ha & -> & _ & Hrest2)|(-> & Hfail)]].
  2: { exists Interrupted, s2, (got ++ got2). split; [done|]. split; [done|]. split; [done|].
       rewrite app_nil_r, Hhd. exists (c :: pend' ++ got2), []. split; [by rewrite app_nil_r|]. split; [done|]. by left. }
  2: { by exists Broken, s2, (got ++ got2). }
  change (negb (TCPSOCKET_COMPLETE =? TCPSOCKET_COMPLETE)) with false. cbv iota.
  rewrite Z.mul_1_r, Z.add_0_l. pose proof (digits_nonneg _ _ Hds) as Hn. cbn [app] in Hm2.
  destruct (wp_call_tcp (None, 0) _ st s2 _ (wp_tcp_getdata sk c ds n data s2 Hm2 Hds Hn Hsk))
    as ([od al] & st3 & E3 & s3 & -> & O3 & got3 & R3 & H3). 
  rewrite (sm_bind_run _ _ _ _ _ E3). clear E3. cbv beta iota.
  pose proof (others_trans _ _ _ _ O12 O3) as O13. pose proof (recvd_trans _ _ _ _ _ _ R12 R3) as R13.
  assert (data = [] \/ got ++ got2 = []) as Hcase.
  { destruct hd as [|b ds0]; [by left; apply Hd0|]. destruct Hside as [[? _]| ->]; [done|].
    rewrite app_nil_r in Hgot. injection Hgot as -> ->. destruct Hok1 as [[_ ->]|[n0 Hs]]; [by left|right].
    cbn. rewrite <- Hg2 in Hds. eapply digits_prefix; [exact Hs|exact Hds]. }
  assert ((hd ++ data) ++ (got ++ got2) ++ got3 = (c :: ds) ++ data ++ got3) as Hall.
  { rewrite <- Hg2. destruct Hcase as [-> | Hg]; [rewrite app_nil_r, (app_assoc hd), Hhd; cbn; by rewrite <- !app_assoc|].
    rewrite Hg in Hhd |- *. cbn [app]. rewrite app_nil_r in Hhd. rewrite Hhd. cbn. by rewrite <- !app_assoc. }
  cbn [fst snd] in H3. destruct H3 as [([= -> ->] & Hlen & Hread & Hheld)|[(-> & Hlt & Hrest3)|(-> & Hn0 & _ & Hfail)]].
  - exists (Frame c ds (data ++ got3)), s3, ((got ++ got2) ++ got3). split; [done|]. split; [done|].
    split; [exact Hall|]. split; [by rewrite Hlen|]. split; [by apply holds_nil|].
    rewrite (bool_decide_eq_true_2 (is_Some (Some (data ++ got3)))), andb_false_r by done.
    destruct (Z.ltb_spec n n); [lia|]. done.
  - exists Interrupted, s3, ((got ++ got2) ++ got3). split; [done|]. split; [done|].
    rewrite (bool_decide_eq_true_2 (is_Some (Some (@nil Z)))), andb_false_r by done.
    destruct (Z.ltb_spec al n); [|lia]. split; [done|]. exists (c :: ds), (data ++ got3). split; [exact Hall|].
    split; [done|]. right. by rewrite Hds.
  - exists Broken, s3, ((got ++ got2) ++ got3). split; [done|]. split; [done|]. split; [|done].
    rewrite (bool_decide_eq_false_2 (is_Some None)) by (by intros [? ?]).
    destruct (Z.eqb_spec n 0); [lia|]. done.
Qed.

(** *** After an error *)

Lemma clear_default sk s :
  shape (def_queue s) -> clean (def_queue s) \/ sq_socket (def_queue s) = sk ->
  clean (if sq_socket (def_queue s) =? sk then clear_queue (def_queue s) else def_queue s).
Proof. intros Hs Hc. destruct (Z.eqb_spec (sq_socket (def_queue s)) sk); [by apply shape_clear|]. by destruct Hc. Qed.

Lemma wp_cleanup sk s :
  failing sk s -> wp (SocketBuffer_cleanup sk) s (fun _ s' => holds sk [] s' /\ others_kept sk s s').
Proof.
  intros (Hd & Hsh & Hc). unfold SocketBuffer_cleanup. apply wp_bind.
  apply wp_mono with (Q := fun _ s' => qsame s s').
  { unfold SocketBuffer_writeComplete. apply wp_bind, wp_get. destruct (AList.unlink _ _). by apply wp_bind, wp_modify, wp_ret. }
  intros _ s1 Hq1. apply wp_bind. eapply wp_mono; [apply (wp_find_queue sk), (qsame_distinct s); done|].
  intros r s2 (Hr & Hq2).
  assert (qsame s s2) as Hq by (destruct Hq1 as (?&?&?), Hq2 as (?&?&?); unfold qsame; split_and!; congruence).
  pose proof (qsame_distinct _ _ Hq Hd) as Hd2. pose proof Hq as (E1 & E2 & E3). rewrite <- E2 in Hsh, Hc.
  pose proof (clear_default _ _ Hsh Hc) as Hcl. apply wp_bind. destruct r as [[i q]|].
  - destruct Hr as (Hi & Hs & Hh). apply wp_modify. apply wp_modify. set (s' := if _ =? _ then _ else _).
    assert (qlist s' = delete i (qlist s2)) as El by (unfold s'; by destruct (_ =? _)).
    assert (def_queue s' = if sq_socket (def_queue s2) =? sk then clear_queue (def_queue s2) else def_queue s2) as Ed
      by (unfold s'; cbn; by destruct (_ =? _)).
    destruct (remove_queue sk i q s2 s') as (R1 & R2 & R3); [done| |done|done|].
    { destruct Hq2 as (-> & _). done. }
    split; [|by apply (others_trans _ _ s2); [apply qsame_others|]]. apply holds_nil; [|done]. split; [done|]. by rewrite Ed.
  - destruct Hr as (Hn & Hh). apply wp_ret. apply wp_modify. set (s' := if _ =? _ then _ else _).
    assert (qlist s' = qlist s2) as El by (unfold s'; by destruct (_ =? _)).
    assert (def_queue s' = if sq_socket (def_queue s2) =? sk then clear_queue (def_queue s2) else def_queue s2) as Ed
      by (unfold s'; by destruct (_ =? _)).
    assert (forall k, held k s' = held k s2) as Hk by (intros k; unfold held; by rewrite El).
    split; [|intros k _; by rewrite Hk, (qsame_held _ _ _ Hq)].
    apply holds_nil; [split; [unfold distinct; by rewrite El|by rewrite Ed]|].
    rewrite Hk, (qsame_held _ _ _ Hq). by rewrite <- (qsame_held _ _ _ Hq1).
Qed.

Lemma wp_abortWrite sk s : wp (Socket_abortWrite sk) s (fun _ s' => queues s' = queues s /\ def_queue s' = def_queue s).
Proof.
  unfold Socket_abortWrite. apply wp_bind. unfold SocketBuffer_getWrite. apply wp_bind, wp_get.
  destruct (AList.find _ _). by apply wp_bind, wp_modify, wp_ret, wp_ret.
Qed.

Lemma failing_same sk s s' : failing sk s -> queues s' = queues s /\ def_queue s' = def_queue s -> failing sk s'.
Proof. intros Hf [E1 E2]. unfold failing, distinct, qlist. by rewrite E1, E2. Qed.

Lemma wp_close sk s :
  failing sk s -> wp (Socket_close sk) s (fun _ s' => holds sk [] s' /\ others_kept sk s s').
Proof.
  intros Hf. unfold Socket_close. apply wp_bind, wp_modify. apply wp_bind, wp_modify. apply wp_bind, wp_modify. apply wp_bind, wp_get.
  apply wp_bind. eapply wp_mono; [apply wp_abortWrite|]. intros rc0 s0 Hq.
  apply wp_bind. eapply wp_mono; [apply (wp_cleanup sk); by apply (failing_same sk s)|]. intros [] s1 [H1 O1].
  apply wp_bind, wp_modify. apply wp_bind, wp_modify. apply wp_bind, wp_get.
  destruct (AList.find _ _) as [r l]. apply wp_bind, wp_modify. apply wp_modify. split; [exact H1|]. intros k Hk.
  etransitivity; [apply (O1 k Hk)|]. unfold held, qlist. by rewrite (proj1 Hq).
Qed.

Lemma reading_kept s s' k l : reading s' -> held k s' = held k s -> holds k l s -> holds k l s'.
Proof.
  intros Hr Hh (hd & data & -> & [_ Hrest] & Hok). exists hd, data. split; [done|]. split; [|done]. split; [done|]. by rewrite Hh.
Qed.

Lemma holds_reading sk l s : holds sk l s -> reading s.
Proof. intros (hd & data & _ & [Hr _] & _). done. Qed.

(** C26. Reading.  A call of [MQTTPacket_Factory] on a socket that holds a part [l] of a
    packet, whatever pieces of the stream arrive: either it is interrupted, and the
    socket holds [l] and what has arrived; or it has read a packet, and no byte more, and
    what it goes on with is that packet, made of [l] and what has arrived; or the
    connection is broken, and when it is closed nothing is held.  What the other sockets
    hold is the same. *)
Theorem Factory_over_sockets (v : Z) (st : St P (TcpNet OS)) (s : SockSt OS) (l : list Z) :
  let sk := the_socket st in
  st_net st = Tcp s -> holds sk l s -> sk <> 0 ->
  exists o s' got,
    (forall k, received k (os s') = received k (os s) ++ (if k =? sk then got else [])) /\
    match o with
    | Interrupted =>
        MQTTPacket_Factory v st = Ok ((TCPSOCKET_INTERRUPTED, None), set_network st (Tcp s')) /\
        holds sk (l ++ got) s' /\ (forall k l', k <> sk -> holds k l' s -> holds k l' s')
    | Frame header digits body =>
        l ++ got = header :: digits ++ body /\ digits_value digits = Some (Zlen body) /\
        MQTTPacket_Factory v st = frame_done v header body (set_network st (Tcp s')) /\
        holds sk [] s' /\ (forall k l', k <> sk -> holds k l' s -> holds k l' s')
    | Broken =>
        MQTTPacket_Factory v st = Ok ((SOCKET_ERROR, None), set_network st (Tcp s')) /\
        wp (Socket_close sk) s' (fun _ s'' =>
          holds sk [] s'' /\ (forall k l', k <> sk -> holds k l' s -> holds k l' s''))
    end.
Proof.
  intros sk Hn Hh Hsk. destruct (factory_body_sockets v st s l Hh Hsk) as (o & s' & got & Ho & Hr & H).
  assert (at_net st s = st) as Est by (unfold at_net; rewrite <- Hn; by destruct st). rewrite Est in H.
  exists o, s', got. split; [done|]. rewrite Factory_body. destruct o as [| |header ds body].
  - destruct H as [-> Hh']. split; [done|]. split; [done|]. intros k l' Hk Hkl.
    eapply reading_kept; [by eapply holds_reading|by apply Ho|done].
  - destruct H as [-> Hf]. split; [done|]. eapply wp_mono; [by apply wp_close|]. intros [] s2 [Hh2 Ho2]. split; [done|].
    intros k l' Hk Hkl. eapply reading_kept; [by eapply holds_reading| |done]. by rewrite Ho2, Ho.
  - destruct H as (H1 & H2 & H3 & ->). split; [done|]. split; [done|]. split; [done|]. split; [done|].
    intros k l' Hk Hkl. eapply reading_kept; [by eapply holds_reading|by apply Ho|done].
Qed.

End Reads.

(** A PUBLISH arrives in four pieces: the first three attempts are interrupted. *)
Definition example_socket : SockSt Script :=
  Socket_outInitialize (mkScript [[48]; []; [5; 0]; []; [1; 97; 120]; [121; 208]] [] [] []).
Definition example_session : St MemStore (TcpNet Script) :=
  mkSt sample_client ∅ (mkPubs ∅ AList.empty) [] (Tcp example_socket) 0 0.

Fixpoint attempts (n : nat) (st : St MemStore (TcpNet Script)) : list (res (Z * option packet)) :=
  match n with
  | O => []
  | S n => match MQTTPacket_Factory 4 st with
           | Ok (r, st') => Ok r :: attempts n st'
           | Fail => [Fail]
           | Oob => [Oob]
           end
  end.

Example attempts_run :
  map (fun r => match r with Ok (rc, p) => Some (rc, p) | _ => None end) (attempts 5 example_session) =
  replicate 4 (Some (TCPSOCKET_INTERRUPTED, None)) ++
  [Some (TCPSOCKET_COMPLETE,
     Some (Ppublish (mkPublish 48 (Some [97]) 1 0 (Some [120; 121]) 2 4 MQTTProperties_initializer [0; 0; 0; 0])))].
Proof. by vm_compute. Qed.

Lemma Factory_over_sockets_witness :
  holds 5 [] example_socket /\ exists o s' got,
    (forall k, received k (os s') = if k =? 5 then got else []) /\
    match o with
    | Interrupted => MQTTPacket_Factory 4 example_session = Ok ((TCPSOCKET_INTERRUPTED, None), set_network example_session (Tcp s'))
    | Broken => MQTTPacket_Factory 4 example_session = Ok ((SOCKET_ERROR, None), set_network example_session (Tcp s'))
    | Frame header digits body => got = header :: digits ++ body
    end.
Proof.
  assert (holds 5 [] example_socket) as Hh.
  { apply holds_nil; [|done]. split; [apply NoDup_nil_2|]. split; [done|]. split; try done. by left. }
  split; [exact Hh|].
  destruct (Factory_over_sockets 4 example_session example_socket [] eq_refl Hh ltac:(vm_compute; discriminate))
    as (o & s' & got & Hr & H).
  exists o, s', got. split; [intros k; apply (Hr k)|]. destruct o; apply H.
Defined.

End Reads.
