(* ===== verification/Socks5.v ===== *)
(** * The SOCKS5 negotiation ([src/src/MQTTSocks5Proxy.c])

    The client of a SOCKS5 proxy: the greeting, the authentication with a user name and
    a password, the request to connect, and the reading of the answers, which arrive in
    pieces, against the messages of RFC 1928 and RFC 1929.  The operating system is that
    of [Socket]; the error codes are those of Windows, for which this code is written. *)

From S2P Require Import Prelude.
From S2P Require Import Clients.
From S2P Require Import Socket.
From Stdlib Require Import ZArith Lia List.
From stdpp Require Import base numbers list gmap.

Open Scope Z_scope.

Module Socks5.
Import Clients Socket.

(** ** Constants *)

(** [pahomqtt_err_t] *)
Definition PAHOMQTT_ERR_SUCCESS : Z := 0.
Definition PAHOMQTT_ERR_NOMEM : Z := 1.
Definition PAHOMQTT_ERR_PROTOCOL : Z := 2.
Definition PAHOMQTT_ERR_INVAL : Z := 3.
Definition PAHOMQTT_ERR_NO_CONN : Z := 4.
Definition PAHOMQTT_ERR_CONN_LOST : Z := 7.
Definition PAHOMQTT_ERR_AUTH : Z := 11.
Definition PAHOMQTT_ERR_ERRNO : Z := 14.
Definition PAHOMQTT_ERR_PROXY : Z := 16.
Definition PAHOMQTT_ERR_NOT_FINISHED : Z := 32.

(** [pahomqtt_client_socks5_state] *)
Definition pahomqtt_cs_new : Z := 0.
Definition pahomqtt_cs_socks5_new : Z := 8.
Definition pahomqtt_cs_socks5_start : Z := 9.
Definition pahomqtt_cs_socks5_request : Z := 10.
Definition pahomqtt_cs_socks5_auth_ok : Z := 12.
Definition pahomqtt_cs_socks5_userpass_reply : Z := 13.
Definition pahomqtt_cs_socks5_send_userpass : Z := 14.
Definition pahomqtt_cs_error : Z := 22.

Definition SOCKS_AUTH_NONE : Z := 0.
Definition SOCKS_AUTH_USERPASS : Z := 2.
Definition SOCKS_ATYPE_IP_V4 : Z := 1.
Definition SOCKS_ATYPE_DOMAINNAME : Z := 3.
Definition SOCKS_ATYPE_IP_V6 : Z := 4.

(** [COMPAT_EWOULDBLOCK], [COMPAT_ECONNRESET], [COMPAT_EINTR] and [WSAENOTCONN] *)
Definition WSAEWOULDBLOCK : Z := 10035.
Definition WSAECONNRESET : Z := 10054.
Definition WSAEINTR : Z := 10004.
Definition WSAENOTCONN : Z := 10057.

Definition INVALID_SOCKET : Z := -1.
Definition UCHAR_MAX : Z := 255.

(** ** Data *)

(** [pahomqtt_socks5_packet]: the members that are used.  Bytes that have not been
    written yet are [None]. *)
Record socks5_packet := mkPacket {
  sp_payload : option (list (option Z));
  sp_packet_length : Z;
  sp_to_process : Z;
  sp_pos : Z
}.

(** The members of [Clients] for SOCKS5, and the operating system.  The queue of packets
    to be sent goes from [out_packet] along [next] to [out_packet_last]. *)
Record Socks5St (O : Type) := mkS5 {
  s5_socket : Z;
  s5_state : Z;
  in_packet : socks5_packet;
  out_packet : list socks5_packet;
  socks5_username : option (list Z);
  socks5_password : option (list Z);
  serverURI : list Z;
  s5_os : O
}.
Arguments mkS5 {O}.
Arguments s5_socket {O}.
Arguments s5_state {O}.
Arguments in_packet {O}.
Arguments out_packet {O}.
Arguments socks5_username {O}.
Arguments socks5_password {O}.
Arguments serverURI {O}.
Arguments s5_os {O}.

(** [inet_pton]: the address in network byte order, if the string is one. *)
Class InetPton := {
  inet_pton4 : list Z -> option (list Z);
  inet_pton6 : list Z -> option (list Z)
}.
Class InetPtonLaws `{InetPton} := {
  inet_pton4_length s a : inet_pton4 s = Some a -> List.length a = 4%nat;
  inet_pton6_length s a : inet_pton6 s = Some a -> List.length a = 16%nat
}.

Definition PAHOMQTT_MSB (a : Z) : Z := to_byte (Z.shiftr (Z.land a 65280) 8).
Definition PAHOMQTT_LSB (a : Z) : Z := to_byte (Z.land a 255).

Section Socks5.
Context {OS : Type} `{Sys OS} `{InetPton}.
Abbreviation St := (Socks5St OS).
Abbreviation M := (SM (Socks5St OS)).

Definition set_state (st : Z) (s : St) : St :=
  mkS5 (s5_socket s) st (in_packet s) (out_packet s) (socks5_username s) (socks5_password s) (serverURI s) (s5_os s).
Definition set_in (p : socks5_packet) (s : St) : St :=
  mkS5 (s5_socket s) (s5_state s) p (out_packet s) (socks5_username s) (socks5_password s) (serverURI s) (s5_os s).
Definition set_out (l : list socks5_packet) (s : St) : St :=
  mkS5 (s5_socket s) (s5_state s) (in_packet s) l (socks5_username s) (socks5_password s) (serverURI s) (s5_os s).
Definition set_s5os (o : OS) (s : St) : St :=
  mkS5 (s5_socket s) (s5_state s) (in_packet s) (out_packet s) (socks5_username s) (socks5_password s) (serverURI s) o.

Definition set_socks5_state (st : Z) : M () := sm_modify (set_state st).
Definition call {A} (f : OS -> A * OS) : M A := fun s => let '(a, o) := f (s5_os s) in Ok (a, set_s5os o s).

(** [net__read] and [net__write], with [errno] *)
Definition net__read (count : Z) : M (Z * Z * list Z) := s ← sm_get; call (sys_recv (s5_socket s) count).
Definition net__write (buf : list Z) : M (Z * Z) := s ← sm_get; call (sys_writev (s5_socket s) [buf]).

(** [packet__cleanup] *)
Definition packet__cleanup (p : socks5_packet) : socks5_packet := mkPacket None (sp_packet_length p) 0 0.
Definition cleanup_in : M () := sm_modify (fun s => set_in (packet__cleanup (in_packet s)) s).

(** ** Sending *)

(** The bytes of a packet that are still to be sent. *)
Definition to_send (p : socks5_packet) : option (list Z) :=
  l ← sp_payload p; mapM id (take (Z.to_nat (sp_to_process p)) (drop (Z.to_nat (sp_pos p)) l)).

(** The loop on one packet: [None] when all of it has been sent, or the code. *)
Fixpoint write_loop (fuel : nat) (p : socks5_packet) : M (option Z * socks5_packet) :=
  if 0 <? sp_to_process p then
    match to_send p, fuel with
    | None, _ => sm_oob
    | Some _, O => sm_fail
    | Some b, S fuel =>
        '(write_length, errno) ← net__write b;
        if 0 <? write_length then
          write_loop fuel (mkPacket (sp_payload p) (sp_packet_length p) (sp_to_process p - write_length) (sp_pos p + write_length))
        else
          mret (Some (if (errno =? EAGAIN) || (errno =? WSAEWOULDBLOCK) || (errno =? WSAENOTCONN) then PAHOMQTT_ERR_SUCCESS
                      else if errno =? WSAECONNRESET then PAHOMQTT_ERR_CONN_LOST
                      else if errno =? WSAEINTR then PAHOMQTT_ERR_SUCCESS
                      else PAHOMQTT_ERR_ERRNO), p)
    end
  else mret (None, p).

(** The loop on the queue. *)
Fixpoint write_packets (l : list socks5_packet) : M Z :=
  match l with
  | [] => _ ← sm_modify (set_out []); mret PAHOMQTT_ERR_SUCCESS
  | p :: rest =>
      '(rc, p') ← write_loop (Z.to_nat (sp_to_process p)) p;
      match rc with
      | Some rc => _ ← sm_modify (set_out (p' :: rest)); mret rc
      | None => write_packets rest
      end
  end.

(** [packet__write] *)
Definition packet__write : M Z :=
  s ← sm_get;
  if s5_socket s =? INVALID_SOCKET then mret PAHOMQTT_ERR_NO_CONN
  else if s5_state s =? pahomqtt_cs_new then mret PAHOMQTT_ERR_SUCCESS
  else write_packets (out_packet s).

(** [packet__queue] *)
Definition packet__queue (payload : list Z) : M Z :=
  _ ← sm_modify (fun s => set_out (out_packet s ++ [mkPacket (Some (map Some payload)) (Zlen payload) (Zlen payload) 0]) s);
  packet__write.

(** What is expected next: [n] bytes. *)
Definition expect (n : Z) : M () :=
  sm_modify (fun s => set_in (mkPacket (Some (replicate (Z.to_nat n) None)) n n 0) s).

(** The messages. *)
Definition greeting_payload (username : option (list Z)) : list Z :=
  match username with
  | Some _ => [5; 2; SOCKS_AUTH_NONE; SOCKS_AUTH_USERPASS]
  | None => [5; 1; SOCKS_AUTH_NONE]
  end.
Definition request_payload (uri : list Z) : option (list Z) :=
  let port := [PAHOMQTT_MSB 1883; PAHOMQTT_LSB 1883] in
  match inet_pton4 uri with
  | Some a => Some ([5; 1; 0; SOCKS_ATYPE_IP_V4] ++ a ++ port)
  | None =>
      match inet_pton6 uri with
      | Some a => Some ([5; 1; 0; SOCKS_ATYPE_IP_V6] ++ a ++ port)
      | None =>
          if UCHAR_MAX <? Zlen uri then None
          else Some ([5; 1; 0; SOCKS_ATYPE_DOMAINNAME; Zlen uri] ++ uri ++ port)
      end
  end.
Definition userpass_payload (username password : list Z) : list Z :=
  let ulen := to_byte (Zlen username) in
  let plen := to_byte (Zlen password) in
  [1; ulen] ++ take (Z.to_nat ulen) username ++ [plen] ++ take (Z.to_nat plen) password.

(** [socks5__send]; [strlen] of a null pointer is out of bounds. *)
Definition socks5__send : M Z :=
  s ← sm_get;
  if s5_state s =? pahomqtt_cs_socks5_new then
    _ ← set_socks5_state pahomqtt_cs_socks5_start;
    _ ← expect 2;
    packet__queue (greeting_payload (socks5_username s))
  else if s5_state s =? pahomqtt_cs_socks5_auth_ok then
    match request_payload (serverURI s) with
    | None => mret PAHOMQTT_ERR_NOMEM
    | Some payload =>
        _ ← set_socks5_state pahomqtt_cs_socks5_request;
        _ ← expect 5;
        packet__queue payload
    end
  else if s5_state s =? pahomqtt_cs_socks5_send_userpass then
    match socks5_username s, socks5_password s with
    | Some username, Some password =>
        _ ← set_socks5_state pahomqtt_cs_socks5_userpass_reply;
        _ ← expect 2;
        packet__queue (userpass_payload username password)
    | _, _ => sm_oob
    end
  else mret PAHOMQTT_ERR_SUCCESS.

(** ** Receiving *)

(** The loop that reads the bytes expected: [None] when they are all there, or the
    code. *)
Fixpoint read_loop (fuel : nat) : M (option Z) :=
  s ← sm_get;
  let p := in_packet s in
  if 0 <? sp_to_process p then
    match sp_payload p, fuel with
    | None, _ => sm_oob
    | Some _, O => sm_fail
    | Some buf, S fuel =>
        '(len, errno, d) ← net__read (sp_to_process p);
        if 0 <? len then
          if Zlen buf <? sp_pos p + len then sm_oob
          else
            _ ← sm_modify (fun s => set_in (mkPacket
                  (Some (take (Z.to_nat (sp_pos p)) buf ++ map Some d ++ drop (Z.to_nat (sp_pos p + len)) buf))
                  (sp_packet_length p) (sp_to_process p - len) (sp_pos p + len)) s);
            read_loop fuel
        else if (errno =? EAGAIN) || (errno =? WSAEWOULDBLOCK) then mret (Some PAHOMQTT_ERR_SUCCESS)
        else
          _ ← cleanup_in;
          mret (Some (if errno =? 0 then PAHOMQTT_ERR_PROXY
                      else if errno =? WSAECONNRESET then PAHOMQTT_ERR_CONN_LOST
                      else PAHOMQTT_ERR_ERRNO))
    end
  else mret None.
Definition read_expected : M (option Z) := s ← sm_get; read_loop (Z.to_nat (sp_to_process (in_packet s))).

(** [in_packet.payload[i]] *)
Definition payload_at (i : nat) : M Z :=
  s ← sm_get;
  match sp_payload (in_packet s) with
  | Some l => match l !! i with Some (Some b) => mret b | _ => sm_oob end
  | None => sm_oob
  end.

(** The code for a reply that is a refusal. *)
Definition refusal (rep : Z) : Z :=
  if rep =? 2 then PAHOMQTT_ERR_AUTH
  else if (rep =? 3) || (rep =? 4) || (rep =? 5) then PAHOMQTT_ERR_NO_CONN
  else if (rep =? 1) || (rep =? 6) || (rep =? 7) || (rep =? 8) then PAHOMQTT_ERR_PROXY
  else PAHOMQTT_ERR_INVAL.

(** The answer to the greeting. *)
Definition read_method : M Z :=
  v ← payload_at 0;
  if negb (v =? 5) then _ ← cleanup_in; mret PAHOMQTT_ERR_PROXY
  else
    m ← payload_at 1;
    _ ← cleanup_in;
    if m =? SOCKS_AUTH_NONE then _ ← set_socks5_state pahomqtt_cs_socks5_auth_ok; socks5__send
    else if m =? SOCKS_AUTH_USERPASS then _ ← set_socks5_state pahomqtt_cs_socks5_send_userpass; socks5__send
    else mret PAHOMQTT_ERR_AUTH.

(** The answer to the user name and password. *)
Definition read_auth : M Z :=
  v ← payload_at 0;
  if negb (v =? 1) then _ ← cleanup_in; mret PAHOMQTT_ERR_PROXY
  else
    st ← payload_at 1;
    _ ← cleanup_in;
    if st =? 0 then _ ← set_socks5_state pahomqtt_cs_socks5_auth_ok; socks5__send
    else mret (refusal st).

(** [realloc] of the buffer to the length of the whole reply, [k] bytes more. *)
Definition more (k : Z) : M () :=
  sm_modify (fun s =>
    let p := in_packet s in
    set_in (mkPacket ((fun l => l ++ replicate (Z.to_nat k) None) <$> sp_payload p) (sp_packet_length p + k)
              (sp_to_process p + k) (sp_pos p)) s).

(** The answer to the request. *)
Definition read_reply : M Z :=
  s ← sm_get;
  if sp_packet_length (in_packet s) =? 5 then
    atyp ← payload_at 3;
    if atyp =? SOCKS_ATYPE_IP_V4 then _ ← more (4 + 2 - 1); mret PAHOMQTT_ERR_NOT_FINISHED
    else if atyp =? SOCKS_ATYPE_IP_V6 then _ ← more (16 + 2 - 1); mret PAHOMQTT_ERR_NOT_FINISHED
    else if atyp =? SOCKS_ATYPE_DOMAINNAME then n ← payload_at 4; _ ← more n; mret PAHOMQTT_ERR_NOT_FINISHED
    else _ ← cleanup_in; mret PAHOMQTT_ERR_PROTOCOL
  else
    v ← payload_at 0;
    if negb (v =? 5) then _ ← cleanup_in; mret PAHOMQTT_ERR_PROXY
    else
      rep ← payload_at 1;
      _ ← cleanup_in;
      if rep =? 0 then _ ← set_socks5_state pahomqtt_cs_new; mret 0
      else _ ← set_socks5_state pahomqtt_cs_socks5_new; mret (refusal rep).

(** [socks5__read] *)
Definition socks5__read : M Z :=
  s ← sm_get;
  let after (m : M Z) : M Z := rc ← read_expected; match rc with Some rc => mret rc | None => m end in
  if s5_state s =? pahomqtt_cs_socks5_start then after read_method
  else if s5_state s =? pahomqtt_cs_socks5_userpass_reply then after read_auth
  else if s5_state s =? pahomqtt_cs_socks5_request then after read_reply
  else if s5_state s =? pahomqtt_cs_new then mret 0
  else mret (-1).

(** One turn of [Socks5_ReadThread] on a socket that is ready: [socks5__read] until it
    is finished, [Fail] when the fuel is not enough. *)
Fixpoint read_turn (fuel : nat) : M Z :=
  match fuel with
  | O => sm_fail
  | S fuel =>
      rc ← socks5__read;
      s ← sm_get;
      if s5_state s =? pahomqtt_cs_new then mret rc
      else if rc =? PAHOMQTT_ERR_NOT_FINISHED then read_turn fuel
      else mret rc
  end.

(** The start of a negotiation in [WebSocket_socks5_proxy_connect]. *)
Definition socks5_begin : M Z := _ ← set_socks5_state pahomqtt_cs_socks5_new; socks5__send.

End Socks5.

(** ** The dialogue as the client holds it

    With the messages the client builds, and the length it gives to a reply. *)

Section Dialogue.
Context `{InetPton}.
Variable username password : option (list Z).
Variable uri : list Z.

(** The length of a reply to the request, from its address type, as the client takes
    it: for a domain name the two bytes of the port are not counted. *)
Definition reply_length (r : list Z) : option Z :=
  match r with
  | _ :: _ :: _ :: atyp :: n :: _ =>
      if atyp =? 1 then Some 10 else if atyp =? 4 then Some 22 else if atyp =? 3 then Some (5 + n) else None
  | _ => None
  end.

(** In a state, an answer of the proxy leads to a state, and to a message of the
    client. *)
Inductive answer : Z -> list Z -> Z -> list Z -> Prop :=
| ans_none req :
    request_payload uri = Some req -> answer pahomqtt_cs_socks5_start [5; 0] pahomqtt_cs_socks5_request req
| ans_userpass u p :
    username = Some u -> password = Some p ->
    answer pahomqtt_cs_socks5_start [5; 2] pahomqtt_cs_socks5_userpass_reply (userpass_payload u p)
| ans_accepted req :
    request_payload uri = Some req -> answer pahomqtt_cs_socks5_userpass_reply [1; 0] pahomqtt_cs_socks5_request req
| ans_granted r :
    reply_length (5 :: 0 :: r) = Some (Zlen (5 :: 0 :: r)) ->
    answer pahomqtt_cs_socks5_request (5 :: 0 :: r) pahomqtt_cs_new []
| ans_refused rep r :
    reply_length (5 :: rep :: r) = Some (Zlen (5 :: rep :: r)) -> rep <> 0 ->
    answer pahomqtt_cs_socks5_request (5 :: rep :: r) pahomqtt_cs_socks5_new [].

(** A state that is reached, with all the client has said and heard. *)
Inductive dialogue : Z -> list Z -> list Z -> Prop :=
| d_begin : dialogue pahomqtt_cs_socks5_start (greeting_payload username) []
| d_step st out inn r st' m :
    dialogue st out inn -> answer st r st' m -> dialogue st' (out ++ m) (inn ++ r).

(** What the client has heard when the connection is made. *)
Lemma established out inn :
  dialogue pahomqtt_cs_new out inn ->
  exists pre r, inn = pre ++ 5 :: 0 :: r /\ (pre = [5; 0] \/ pre = [5; 2; 1; 0]) /\
    reply_length (5 :: 0 :: r) = Some (Zlen (5 :: 0 :: r)).
Proof.
  intros Hd. inversion Hd as [|st out0 inn0 r st' m Hd0 Ha]; subst. inversion Ha as [| | |r0 Hr|]; subst.
  exists inn0, r0. split; [done|]. split; [|done].
  inversion Hd0 as [|st2 out2 inn2 r2 st2' m2 Hd2 Ha2]; subst. inversion Ha2; subst.
  - inversion Hd2 as [|? ? ? ? ? ? ? Ha3]; subst; [by left|]. inversion Ha3.
  - right. inversion Hd2 as [|st3 out3 inn3 r3 st3' m3 Hd3 Ha3]; subst. inversion Ha3; subst.
    inversion Hd3 as [|? ? ? ? ? ? ? Ha4]; subst; [done|]. inversion Ha4.
Qed.

End Dialogue.

(** ** The dialogue of RFC 1928 and RFC 1929

    Written from the layouts of the standards, without the functions of the client. *)

(** A reply to the request: version, code, reserved byte, type of address, address, port. *)
Definition rfc_reply_length (r : list Z) : option Z :=
  match r with
  | _ :: _ :: _ :: atyp :: n :: _ =>
      if atyp =? 1 then Some (4 + 4 + 2) else if atyp =? 3 then Some (4 + (1 + n) + 2)
      else if atyp =? 4 then Some (4 + 16 + 2) else None
  | _ => None
  end.
Definition rfc_reply (r : list Z) : Prop := rfc_reply_length r = Some (Zlen r).

(** How much of a reply the client leaves unread: the port, after a domain name. *)
Definition unread (r : list Z) : Z := if nth 3 r 0 =? 3 then 2 else 0.

(** The greeting offers methods; credentials; a request to connect. *)
Definition rfc_greeting (methods : list Z) : list Z := 5 :: Zlen methods :: methods.
Definition rfc_credentials (u p : list Z) : list Z := 1 :: Zlen u :: u ++ Zlen p :: p.
Definition rfc_connect (atyp : Z) (addr : list Z) (port : Z) : list Z := 5 :: 1 :: 0 :: atyp :: addr ++ [port / 256; port mod 256].

Definition short (o : option (list Z)) : Prop := match o with Some l => Zlen l <= 255 | None => True end.

Section Rfc.
Context `{InetPton}.
Variable username password : option (list Z).
Variable uri : list Z.

(** The request for a server: its address when the text is one, and its name otherwise. *)
Inductive asks : list Z -> Prop :=
| asks_v4 a : inet_pton4 uri = Some a -> asks (rfc_connect 1 a 1883)
| asks_v6 a : inet_pton4 uri = None -> inet_pton6 uri = Some a -> asks (rfc_connect 4 a 1883)
| asks_name : inet_pton4 uri = None -> inet_pton6 uri = None -> Zlen uri <= 255 -> asks (rfc_connect 3 (Zlen uri :: uri) 1883).

(** What is heard of a reply. *)
Definition heard_reply (r : list Z) : Prop := exists port, rfc_reply (r ++ port) /\ Zlen port = unread r /\ 5 <= Zlen r.

(** Stages: the methods are offered, credentials are sent, the request is sent, and its
    outcome. *)
Inductive rfc_stage := Offered | Authenticating | Requested | Granted | Refused.

Inductive rfc_answer : rfc_stage -> list Z -> rfc_stage -> list Z -> Prop :=
| rfc_none m : asks m -> rfc_answer Offered [5; 0] Requested m
| rfc_userpass u p : username = Some u -> password = Some p -> rfc_answer Offered [5; 2] Authenticating (rfc_credentials u p)
| rfc_accepted m : asks m -> rfc_answer Authenticating [1; 0] Requested m
| rfc_granted r : heard_reply (5 :: 0 :: r) -> rfc_answer Requested (5 :: 0 :: r) Granted []
| rfc_refused rep r : rep <> 0 -> heard_reply (5 :: rep :: r) -> rfc_answer Requested (5 :: rep :: r) Refused [].

Inductive rfc_dialogue : rfc_stage -> list Z -> list Z -> Prop :=
| rfc_begin : rfc_dialogue Offered (rfc_greeting (0 :: match username with Some _ => [2] | None => [] end)) []
| rfc_step st out inn r st' m :
    rfc_dialogue st out inn -> rfc_answer st r st' m -> rfc_dialogue st' (out ++ m) (inn ++ r).

Definition stage_of (st : Z) : rfc_stage :=
  if st =? pahomqtt_cs_socks5_start then Offered else if st =? pahomqtt_cs_socks5_userpass_reply then Authenticating
  else if st =? pahomqtt_cs_socks5_request then Requested else if st =? pahomqtt_cs_new then Granted else Refused.

Lemma reply_heard r : reply_length r = Some (Zlen r) <-> heard_reply r.
Proof.
  unfold heard_reply, rfc_reply, unread. split.
  - intros Hr. assert (5 <= Zlen r) as H5.
    { unfold reply_length in Hr. destruct r as [|? [|? [|? [|? [|]]]]]; try done. unfold Zlen. cbn. lia. }
    exists (if nth 3 r 0 =? 3 then [0; 0] else []).
    destruct r as [|a [|b [|c [|atyp [|n r]]]]]; try done. cbn [reply_length nth app rfc_reply_length] in *.
    destruct (Z.eqb_spec atyp 3) as [->|H3]; cbn [Z.eqb Pos.eqb] in *.
    + injection Hr as Hr. split; [|done]. f_equal. rewrite !Zlen_cons, Zlen_app in *. change (Zlen [0; 0]) with 2. lia.
    + rewrite app_nil_r. split; [|done]. destruct (atyp =? 1); [done|]. by destruct (atyp =? 4).
  - intros (port & Hr & Hp & H5). destruct r as [|a [|b [|c [|atyp [|n r]]]]]; try (unfold Zlen in H5; cbn in H5; lia).
    cbn [reply_length nth app rfc_reply_length] in *. rewrite !Zlen_cons, Zlen_app in *. rewrite Hp in Hr.
    destruct (Z.eqb_spec atyp 3) as [->|H3]; cbn [Z.eqb Pos.eqb] in *; [injection Hr as Hr; f_equal; lia|].
    destruct (atyp =? 1); [injection Hr as Hr; f_equal; lia|]. destruct (atyp =? 4); [injection Hr as Hr; f_equal; lia|done].
Qed.

Lemma request_asks m : request_payload uri = Some m -> asks m.
Proof.
  unfold request_payload. destruct (inet_pton4 uri) as [a|] eqn:E4; [intros [= <-]; exact (asks_v4 a E4)|].
  destruct (inet_pton6 uri) as [a|] eqn:E6; [intros [= <-]; exact (asks_v6 a E4 E6)|].
  destruct (Z.ltb_spec UCHAR_MAX (Zlen uri)) as [|Hl]; [done|]. intros [= <-]. exact (asks_name E4 E6 Hl).
Qed.

Lemma userpass_credentials u p : Zlen u <= 255 -> Zlen p <= 255 -> userpass_payload u p = rfc_credentials u p.
Proof.
  intros Hu Hp. unfold userpass_payload, rfc_credentials. pose proof (Zlen_nonneg u). pose proof (Zlen_nonneg p).
  rewrite !to_byte_id by (unfold byte_ok; lia). unfold Zlen. rewrite !Nat2Z.id, !firstn_all. reflexivity.
Qed.

Lemma dialogue_rfc st out inn :
  short username -> short password -> dialogue username password uri st out inn -> rfc_dialogue (stage_of st) out inn.
Proof.
  intros Hu Hp Hd. induction Hd as [|st out inn r st' m Hd IH Ha].
  - pose proof rfc_begin as Hb. unfold greeting_payload. by destruct username.
  - apply (rfc_step (stage_of st) out inn r (stage_of st') m IH). destruct Ha as [m Hm|u p Eu Ep|m Hm|r Hr|rep r Hr Hrep].
    + apply rfc_none. by apply request_asks.
    + rewrite Eu in Hu. rewrite Ep in Hp. rewrite userpass_credentials by done. by apply rfc_userpass.
    + apply rfc_accepted. by apply request_asks.
    + apply rfc_granted. by apply reply_heard.
    + apply rfc_refused; [done|]. by apply reply_heard.
Qed.

End Rfc.

Section Negotiation.
Context {OS : Type} {SY : Sys OS} {SL : SysLaws OS} {IP : InetPton}.
Implicit Types s : Socks5St OS.

(** ** Sending *)

(** A packet that can be sent, and the bytes of it that are left. *)
Definition out_ok (p : socks5_packet) : Prop :=
  exists l, sp_payload p = Some (map Some l) /\ 0 <= sp_pos p /\ 0 <= sp_to_process p /\
    sp_pos p + sp_to_process p = Zlen l.
Definition left_of (p : socks5_packet) : list Z := default [] (to_send p).
Definition pending s : list Z := concat (map left_of (out_packet s)).

Lemma out_left p : out_ok p ->
  exists l, sp_payload p = Some (map Some l) /\ to_send p = Some (drop (Z.to_nat (sp_pos p)) l) /\
    Zlen (drop (Z.to_nat (sp_pos p)) l) = sp_to_process p.
Proof.
  intros (l & E & Hp & Ht & Hl). exists l. split; [done|]. unfold to_send. rewrite E. cbn.
  change (map Some l) with (Some <$> l). rewrite <- fmap_drop.
  assert (Zlen (drop (Z.to_nat (sp_pos p)) l) = sp_to_process p) as Hd by (unfold Zlen in *; rewrite length_drop; lia).
  split; [|done]. rewrite take_ge; [apply mapM_known|]. rewrite length_map. unfold Zlen in Hd. lia.
Qed.

(** What the client has said: what is sent, and what is to be sent. *)
Definition said s : list Z := sent (s5_socket s) (s5_os s) ++ pending s.

Lemma out_written p w :
  out_ok p -> 0 < w <= sp_to_process p ->
  let p' := mkPacket (sp_payload p) (sp_packet_length p) (sp_to_process p - w) (sp_pos p + w) in
  out_ok p' /\ left_of p = take (Z.to_nat w) (left_of p) ++ left_of p'.
Proof.
  intros Hp Hw p'. assert (out_ok p') as Hp'.
  { destruct Hp as (l & E & H1 & H2 & H3). exists l. cbn. split; [done|]. lia. }
  split; [done|]. destruct (out_left p Hp) as (l & E & El & Hl). unfold left_of. rewrite El. destruct Hp' as (l' & E' & H1 & H2 & H3).
  assert (l' = l) as ->.
  { cbn in E'. rewrite E in E'. injection E' as E'. apply (inj (fmap Some)) in E'. done. }
  destruct (out_left p') as (l2 & E2 & El2 & _); [by exists l|]; rewrite El2. cbn in E2. rewrite E in E2. injection E2 as E2.
  apply (inj (fmap Some)) in E2 as <-. destruct Hp as (? & _ & Hpos & _). subst p'. cbn -[take drop Z.to_nat].
  replace (Z.to_nat (sp_pos p + w)) with (Z.to_nat (sp_pos p) + Z.to_nat w)%nat by lia.
  by rewrite <- drop_drop, take_drop.
Qed.

Lemma wp_net__write b s :
  wp (net__write b) s (fun r s' => exists o, s' = set_s5os o s /\ (forall k, received k o = received k (s5_os s)) /\
    (0 < fst r -> fst r <= Zlen b) /\
    sent (s5_socket s) o = sent (s5_socket s) (s5_os s) ++ take (Z.to_nat (fst r)) b).
Proof.
  unfold net__write. apply wp_bind, wp_get. unfold call, wp.
  destruct (sys_writev (s5_socket s) [b] (s5_os s)) as [[w e] o] eqn:Ew. exists (w, e), (set_s5os o s). split; [done|].
  exists o. split; [done|]. split; [intros k; by eapply writev_received|]. cbn [fst].
  pose proof (writev_law _ _ _ _ _ _ Ew) as Hlaw. cbn [concat] in Hlaw. rewrite app_nil_r in Hlaw.
  destruct Hlaw as [[-> ->]|[? ?]]; [|split; [lia|done]]. split; [done|]. by rewrite app_nil_r.
Qed.

(** The loop on a packet. *)
Lemma wp_write_loop fuel p s :
  out_ok p -> (Z.to_nat (sp_to_process p) <= fuel)%nat ->
  wp (write_loop fuel p) s (fun r s' => exists o b, s' = set_s5os o s /\
    (forall k, received k o = received k (s5_os s)) /\ sent (s5_socket s) o = sent (s5_socket s) (s5_os s) ++ b /\
    out_ok (snd r) /\ left_of p = b ++ left_of (snd r) /\ (fst r = None -> left_of (snd r) = [])).
Proof.
  revert p s. induction fuel as [|fuel IH]; intros p s Hp Hf; cbn [write_loop];
    destruct (out_left p Hp) as (l & E & El & Hl); destruct (Z.ltb_spec 0 (sp_to_process p)) as [Hlt|Hge]; try lia.
  1, 3: apply wp_ret; exists (s5_os s), []; split; [by destruct s|]; split; [done|]; split; [by rewrite app_nil_r|];
    split; [done|]; split; [done|]; intros _; unfold left_of; cbn; rewrite El; cbn;
    pose proof (Zlen_nonneg (drop (Z.to_nat (sp_pos p)) l)); destruct (drop (Z.to_nat (sp_pos p)) l); [done|rewrite Zlen_cons in Hl; pose proof (Zlen_nonneg l0); lia].
  rewrite El. apply wp_bind. eapply wp_mono; [apply wp_net__write|]. intros [w e] s1 (o & -> & Hr & Hw1 & Hs). cbn [fst] in *.
  rewrite Hl in Hw1. destruct (Z.ltb_spec 0 w) as [Hw|Hw].
  - destruct (out_written p w Hp ltac:(lia)) as [Hp' Hsplit].
    eapply wp_mono; [apply IH; [exact Hp'|cbn; lia]|]. intros r s2 (o2 & b & -> & R2 & S2 & Ho & Hleft & Hn).
    cbn [s5_os s5_socket set_s5os] in R2, S2.
    exists o2, (take (Z.to_nat w) (left_of p) ++ b). split; [done|]. split; [intros k; by rewrite R2|].
    split; [rewrite S2, Hs; unfold left_of; rewrite El; cbn; by rewrite app_assoc|]. split; [done|]. split; [|done].
    by rewrite <- app_assoc, <- Hleft.
  - apply wp_ret. exists o, []. split; [done|]. split; [done|]. split; [|done].
    rewrite Hs. by replace (Z.to_nat w) with 0%nat by lia.
Qed.

(** The client says [b] more, and the rest of its state is the same but for what has
    been written. *)
Definition speaks (b : list Z) s s' : Prop :=
  exists o l, s' = set_out l (set_s5os o s) /\ Forall out_ok l /\ (forall k, received k o = received k (s5_os s)) /\
    said s' = said s ++ b.

Lemma pending_out l s : pending (set_out l s) = concat (map left_of l).
Proof. done. Qed.

(** The loop on the queue: what is written is what was queued. *)
Lemma wp_write_packets l s :
  Forall out_ok l ->
  wp (write_packets l) s (fun _ s' => exists o l', s' = set_out l' (set_s5os o s) /\ Forall out_ok l' /\
    (forall k, received k o = received k (s5_os s)) /\
    sent (s5_socket s) o ++ concat (map left_of l') = sent (s5_socket s) (s5_os s) ++ concat (map left_of l)).
Proof.
  revert s. induction l as [|p l IH]; intros s Hl; cbn [write_packets].
  - apply wp_bind, wp_modify, wp_ret. exists (s5_os s), []. by destruct s.
  - apply Forall_cons in Hl as [Hp Hl]. apply wp_bind. eapply wp_mono; [by apply wp_write_loop|].
    intros [[rc|] p'] s1 (o & b & -> & Hr & Hs & Ho & Hb & Hn); cbn [fst snd] in *.
    + apply wp_bind, wp_modify, wp_ret. exists o, (p' :: l). split; [by destruct s|]. split; [by apply Forall_cons|].
      split; [done|]. cbn. by rewrite Hs, Hb, <- !app_assoc.
    + eapply wp_mono; [by apply IH|]. intros rc s2 (o2 & l' & -> & Hl' & Hr2 & Hs2). cbn in Hr2, Hs2.
      exists o2, l'. split; [by destruct s|]. split; [done|]. split; [intros k; by rewrite Hr2|].
      rewrite Hs2, Hs. cbn. by rewrite Hb, Hn, app_nil_r, <- app_assoc.
Qed.

(** [packet__queue] *)
Lemma wp_packet__queue b s :
  Forall out_ok (out_packet s) -> wp (packet__queue b) s (fun _ s' => speaks b s s').
Proof.
  intros Ho. unfold packet__queue. apply wp_bind, wp_modify. set (p := mkPacket _ _ _ _).
  assert (out_ok p) as Hp by (exists b; cbn; pose proof (Zlen_nonneg b); split; [done|lia]).
  assert (left_of p = b) as Hb.
  { unfold left_of, to_send. cbn. unfold Zlen. rewrite Nat2Z.id, drop_0, take_ge by (by rewrite length_map). by rewrite mapM_known. }
  clearbody p.
  assert (Forall out_ok (out_packet s ++ [p])) as Hl by (apply Forall_app; split; [done|by apply Forall_singleton]).
  assert (speaks b s (set_out (out_packet s ++ [p]) s)) as Hno.
  { exists (s5_os s), (out_packet s ++ [p]). split; [by destruct s|]. split; [done|]. split; [done|].
    unfold said. rewrite pending_out. cbn. unfold pending. rewrite map_app, concat_app. cbn. by rewrite Hb, app_nil_r, <- app_assoc. }
  unfold packet__write. apply wp_bind, wp_get. cbn [s5_socket s5_state set_out out_packet].
  destruct (s5_socket s =? INVALID_SOCKET); [by apply wp_ret|].
  destruct (s5_state s =? pahomqtt_cs_new); [by apply wp_ret|].
  eapply wp_mono; [by apply wp_write_packets|]. intros rc s' (o & l' & -> & Hl' & Hr & Hs). cbn in Hr, Hs.
  exists o, l'. split; [by destruct s|]. split; [done|]. split; [done|]. unfold said. rewrite pending_out.
  cbn [s5_socket s5_os set_out set_s5os]. rewrite Hs, map_app, concat_app. cbn. by rewrite Hb, app_nil_r, <- app_assoc.
Qed.

(** ** The state of a negotiation *)

(** [part] of the [n] bytes expected have been read. *)
Definition filled (n : Z) (part : list Z) s : Prop :=
  in_packet s = mkPacket (Some (map Some part ++ replicate (Z.to_nat (n - Zlen part)) None)) n (n - Zlen part) (Zlen part) /\
  Zlen part <= n /\ bytes_ok part.

Definition waiting (part : list Z) s : Prop :=
  if (s5_state s =? pahomqtt_cs_socks5_start) || (s5_state s =? pahomqtt_cs_socks5_userpass_reply) then filled 2 part s
  else if s5_state s =? pahomqtt_cs_socks5_request then
    filled 5 part s \/ exists n, reply_length part = Some n /\ 5 < n /\ filled n part s
  else part = [].

Section With.
Variable username password : option (list Z).
Variable uri : list Z.
Variable sk : Z.
Variable S0 R0 : list Z.

(** The client is in a state of the dialogue, has said all of its messages, and has read
    the answers and [part] of the next one, and no other byte. *)
Record negotiating (out inn part : list Z) s : Prop := {
  n_socket : s5_socket s = sk;
  n_username : socks5_username s = username;
  n_password : socks5_password s = password;
  n_uri : serverURI s = uri;
  n_dialogue : dialogue username password uri (s5_state s) out inn;
  n_out : Forall out_ok (out_packet s);
  n_said : said s = S0 ++ out;
  n_heard : received sk (s5_os s) = R0 ++ inn ++ part;
  n_waiting : waiting part s
}.

(** A step of the dialogue: the answer has been read, the state is set and the message
    is sent. *)
Lemma speaks_step out inn part st' m n s0 s' :
  negotiating out inn part s0 -> answer username password uri (s5_state s0) part st' m ->
  speaks m (set_in (mkPacket (Some (replicate (Z.to_nat n) None)) n n 0) (set_state st' s0)) s' ->
  ((st' = pahomqtt_cs_socks5_userpass_reply /\ n = 2) \/ (st' = pahomqtt_cs_socks5_request /\ n = 5)) ->
  negotiating (out ++ m) (inn ++ part) [] s'.
Proof.
  intros [H1 H2 H3 H4 H5 H6 H7 H8 H9] Ha (o & l & -> & Hl & Hr & Hs) Hn. split; cbn; try done.
  - by eapply d_step.
  - etransitivity; [exact Hs|]. rewrite app_assoc, <- H7. done.
  - rewrite app_nil_r. rewrite Hr. cbn. by rewrite H8.
  - unfold waiting. destruct Hn as [[-> ->]|[-> ->]]; cbn; [|left]; (split; [done|split; [done|apply Forall_nil_2]]).
Qed.

(** The end of an answer without a message. *)
Lemma answer_step out inn part st' s0 :
  negotiating out inn part s0 -> answer username password uri (s5_state s0) part st' [] ->
  (st' = pahomqtt_cs_new \/ st' = pahomqtt_cs_socks5_new) ->
  negotiating out (inn ++ part) [] (set_state st' (set_in (packet__cleanup (in_packet s0)) s0)).
Proof.
  intros [H1 H2 H3 H4 H5 H6 H7 H8 H9] Ha Hn. split; cbn; try done.
  - rewrite <- (app_nil_r out). by eapply d_step.
  - by rewrite app_nil_r, H8.
  - unfold waiting. by destruct Hn as [-> | ->].
Qed.

Definition going_on (rc : Z) : Prop := rc = PAHOMQTT_ERR_SUCCESS \/ rc = PAHOMQTT_ERR_NOT_FINISHED.
Definition waits (st : Z) : Prop :=
  st = pahomqtt_cs_socks5_start \/ st = pahomqtt_cs_socks5_userpass_reply \/ st = pahomqtt_cs_socks5_request.
(** Nothing is expected, and there is no buffer. *)
Definition cleaned s : Prop := sp_payload (in_packet s) = None /\ sp_to_process (in_packet s) = 0.

(** How a call of [socks5__read] in the state [st] ends: the negotiation goes on, or
    there is an error and the connection is not made. *)
Definition read_post (st rc : Z) s' : Prop :=
  ((exists out inn part, negotiating out inn part s') /\ (going_on rc \/ s5_state s' <> st)) \/
  (~ going_on rc /\ s5_state s' <> pahomqtt_cs_new /\ (waits (s5_state s') -> cleaned s')).

(** The code of an error. *)
Ltac not_going := unfold going_on; let H := fresh in intros [H|H]; discriminate H.

Abbreviation no_credentials := (username = None \/ password = None).

Lemma wpo_send_request out inn part s0 q :
  negotiating out inn part s0 ->
  (forall req, request_payload uri = Some req -> answer username password uri (s5_state s0) part pahomqtt_cs_socks5_request req) ->
  s5_state s0 <> pahomqtt_cs_socks5_request ->
  wpo no_credentials socks5__send (set_state pahomqtt_cs_socks5_auth_ok (set_in q s0)) (read_post (s5_state s0)).
Proof.
  intros Hn Ha Hst. unfold socks5__send. apply wpo_bind, wpo_get. cbn [s5_state set_state Z.eqb].
  change (pahomqtt_cs_socks5_auth_ok =? pahomqtt_cs_socks5_new) with false.
  change (pahomqtt_cs_socks5_auth_ok =? pahomqtt_cs_socks5_auth_ok) with true. cbv iota.
  replace (serverURI _) with uri by (symmetry; apply Hn). destruct (request_payload uri) as [req|].
  - apply wpo_bind, wpo_modify, wpo_bind, wpo_modify, wpo_wp.
    eapply wp_mono; [apply wp_packet__queue; apply Hn|]. intros rc s' Hs. left. split.
    + exists (out ++ req), (inn ++ part), []. eapply speaks_step; [exact Hn|by apply Ha|exact Hs|by right].
    + right. destruct Hs as (o & l & -> & _). cbn. congruence.
  - apply wpo_ret. right. split; [not_going|]. split; [done|]. unfold waits. cbn. intros [|[|]]; done.
Qed.

Lemma wpo_send_userpass out inn part s0 q :
  negotiating out inn part s0 -> s5_state s0 = pahomqtt_cs_socks5_start -> part = [5; 2] ->
  wpo no_credentials socks5__send (set_state pahomqtt_cs_socks5_send_userpass (set_in q s0)) (read_post (s5_state s0)).
Proof.
  intros Hn Hst ->. unfold socks5__send. apply wpo_bind, wpo_get. cbn [s5_state set_state].
  change (pahomqtt_cs_socks5_send_userpass =? pahomqtt_cs_socks5_new) with false.
  change (pahomqtt_cs_socks5_send_userpass =? pahomqtt_cs_socks5_auth_ok) with false.
  change (pahomqtt_cs_socks5_send_userpass =? pahomqtt_cs_socks5_send_userpass) with true. cbv iota.
  replace (socks5_username _) with username by (symmetry; apply Hn).
  replace (socks5_password _) with password by (symmetry; apply Hn).
  destruct username as [u|] eqn:Eu; [|by left]. destruct password as [p|] eqn:Ep; [|by right].
  apply wpo_bind, wpo_modify, wpo_bind, wpo_modify, wpo_wp.
  eapply wp_mono; [apply wp_packet__queue; apply Hn|]. intros rc s' Hs. left. split.
  - exists (out ++ userpass_payload u p), (inn ++ [5; 2]), [].
    eapply speaks_step; [exact Hn| |exact Hs|by left]. rewrite Hst. by apply ans_userpass.
  - right. destruct Hs as (o & l & -> & _). cbn. by rewrite Hst.
Qed.

(** ** Receiving *)

Lemma wp_net__read n s :
  0 < n ->
  wp (net__read n) s (fun r s' => exists o, s' = set_s5os o s /\ (forall k, sent k o = sent k (s5_os s)) /\
    received (s5_socket s) o = received (s5_socket s) (s5_os s) ++ snd r /\
    ((fst (fst r) <= 0 /\ snd r = []) \/ (0 < fst (fst r) <= n /\ fst (fst r) = Zlen (snd r) /\ bytes_ok (snd r)))).
Proof.
  intros Hn. unfold net__read. apply wp_bind, wp_get. unfold call, wp.
  destruct (sys_recv (s5_socket s) n (s5_os s)) as [[[rc e] d] o] eqn:E. exists (rc, e, d), (set_s5os o s). split; [done|].
  exists o. split; [done|]. split; [intros k; by eapply recv_sent|]. cbn [fst snd].
  split; [rewrite (recv_received _ _ _ _ _ _ _ (s5_socket s) E); by rewrite Z.eqb_refl|].
  destruct (recv_law _ _ _ _ _ _ _ E Hn) as [[-> ->]|(H1 & H2 & H3)]; [by left|].
  destruct (Z.eq_dec rc 0) as [->|]; [left|right; split; [lia|done]]. split; [done|]. destruct d; [done|].
  rewrite Zlen_cons in H2. pose proof (Zlen_nonneg d). lia.
Qed.

(** More of the answer has been read. *)
Definition heard (n : Z) (d part : list Z) s s' : Prop :=
  exists o, s' = set_in (in_packet s') (set_s5os o s) /\ (forall k, sent k o = sent k (s5_os s)) /\
    received (s5_socket s) o = received (s5_socket s) (s5_os s) ++ d /\ filled n (part ++ d) s'.

Lemma splice_known part d n :
  Zlen part + Zlen d <= n ->
  take (Z.to_nat (Zlen part)) (map Some part ++ replicate (Z.to_nat (n - Zlen part)) None) ++ map Some d ++
    drop (Z.to_nat (Zlen part + Zlen d)) (map Some part ++ replicate (Z.to_nat (n - Zlen part)) None) =
  map Some (part ++ d) ++ replicate (Z.to_nat (n - Zlen (part ++ d))) (@None Z).
Proof.
  intros H. pose proof (Zlen_nonneg d). pose proof (Zlen_nonneg part). rewrite Zlen_app.
  rewrite Zlen_to_nat. rewrite take_app_le by (rewrite length_map; lia). rewrite take_ge by (by rewrite length_map).
  rewrite map_app, <- app_assoc. f_equal. f_equal.
  rewrite Z2Nat.inj_add, Zlen_to_nat by lia. rewrite drop_app_ge by (rewrite length_map; lia).
  rewrite length_map, drop_replicate. f_equal. unfold Zlen in *. lia.
Qed.

Lemma wp_read_loop fuel n part s :
  filled n part s -> (Z.to_nat (n - Zlen part) <= fuel)%nat ->
  wp (read_loop fuel) s (fun r s' =>
    (exists d, heard n d part s s' /\ (r = None -> Zlen (part ++ d) = n) /\ (r = None \/ r = Some PAHOMQTT_ERR_SUCCESS)) \/
    (exists rc, r = Some rc /\ ~ going_on rc /\ cleaned s' /\ s5_state s' = s5_state s)).
Proof.
  revert part s. induction fuel as [|fuel IH]; intros part s (Hin & Hle & Hok) Hf; cbn [read_loop]; apply wp_bind, wp_get;
    rewrite Hin; cbn [sp_to_process sp_payload sp_pos sp_packet_length]; destruct (Z.ltb_spec 0 (n - Zlen part)) as [Hlt|Hge]; try lia.
  1, 3: apply wp_ret; left; exists []; split; [exists (s5_os s); split; [by destruct s|]; rewrite !app_nil_r;
    split; [done|]; split; [done|]; by split_and!|]; split; [intros _; rewrite app_nil_r; lia|by left].
  apply wp_bind. eapply wp_mono; [by apply wp_net__read|]. intros [[len e] d] s1 (o & -> & Hs & Hr & Hd). cbn [fst snd] in *.
  destruct (Z.ltb_spec 0 len) as [Hl|Hl].
  - destruct Hd as [[? _]|(Hlen & -> & Hdok)]; [lia|].
    destruct (Z.ltb_spec (Zlen (map Some part ++ replicate (Z.to_nat (n - Zlen part)) None)) (Zlen part + Zlen d)) as [Hbad|_].
    { unfold Zlen in *. rewrite length_app, length_map, length_replicate in Hbad. lia. }
    apply wp_bind, wp_modify. rewrite splice_known by lia. set (s2 := set_in _ _).
    assert (filled n (part ++ d) s2) as Hf2.
    { split; [|split; [rewrite Zlen_app; lia|by apply bytes_ok_app]]. unfold s2. cbn. rewrite Zlen_app. f_equal; lia. }
    eapply wp_mono; [apply (IH (part ++ d) s2 Hf2); rewrite Zlen_app; unfold Zlen in *; lia|].
    intros r s3 [(d2 & (o3 & Es3 & Hs3 & Hr3 & Hf3) & Hn & Hrr)|(rc & -> & H1 & H2 & H3)].
    + left. exists (d ++ d2). split; [|split; [by rewrite app_assoc|done]]. exists o3.
      split; [rewrite Es3 at 1; by destruct s|]. split; [intros k; rewrite Hs3; apply Hs|].
      split; [etransitivity; [exact Hr3|]; cbn; by rewrite Hr, app_assoc|]. by rewrite app_assoc.
    + right. by exists rc.
  - destruct Hd as [[_ ->]|(? & _)]; [|lia]. destruct ((e =? EAGAIN) || (e =? WSAEWOULDBLOCK)).
    + apply wp_ret. left. exists []. split; [|split; [done|by right]]. exists o. rewrite app_nil_r in Hr. rewrite !app_nil_r.
      split; [by destruct s|]. split; [done|]. split; [done|]. by split_and!.
    + apply wp_bind, wp_modify, wp_ret. right. eexists. split; [done|]. split; [|done].
      destruct (e =? 0); [not_going|]. destruct (e =? WSAECONNRESET); not_going.
Qed.

Lemma negotiating_heard n d out inn part s s' :
  negotiating out inn part s -> heard n d part s s' -> waiting (part ++ d) s' -> negotiating out inn (part ++ d) s'.
Proof.
  intros [H1 H2 H3 H4 H5 H6 H7 H8 H9] (o & Es & Hs & Hr & Hf) Hw. rewrite Es in *.
  split; cbn [s5_socket s5_state socks5_username socks5_password serverURI out_packet s5_os set_in set_s5os]; try done.
  - unfold said in *. cbn. rewrite Hs. done.
  - rewrite <- H1, Hr, H1, H8. by rewrite <- !app_assoc.
Qed.

(** The rest of an answer is read, and goes to [m]. *)
Lemma wpo_after n out inn part s (m : SM (Socks5St OS) Z) :
  negotiating out inn part s -> filled n part s -> s5_state s <> pahomqtt_cs_new ->
  (forall d s', s5_state s' = s5_state s -> filled n (part ++ d) s' -> waiting (part ++ d) s') ->
  (forall d s', negotiating out inn (part ++ d) s' -> filled n (part ++ d) s' -> Zlen (part ++ d) = n ->
     s5_state s' = s5_state s -> wpo no_credentials m s' (read_post (s5_state s'))) ->
  wpo no_credentials (rc ← read_expected; match rc with Some rc => mret rc | None => m end) s (read_post (s5_state s)).
Proof.
  intros Hn Hf Hst Hw Hm. apply wpo_bind. unfold read_expected. apply wpo_bind, wpo_get, wpo_wp.
  eapply wp_mono; [apply (wp_read_loop _ n part); [done|destruct Hf as [-> _]; cbn; lia]|].
  intros r s' [(d & Hh & Hlen & Hr)|(rc & -> & H1 & H2 & H3)].
  - pose proof Hh as (o & Es & _ & _ & Hf'). assert (s5_state s' = s5_state s) as Est by (by rewrite Es).
    pose proof (negotiating_heard _ _ _ _ _ _ _ Hn Hh (Hw d s' Est Hf')) as Hn'.
    destruct Hr as [-> | ->]; [rewrite <- Est; apply (Hm d); auto|]. apply wpo_ret. left. split; [eauto|by left; left].
  - apply wpo_ret. right. split; [done|]. split; [by rewrite H3|done].
Qed.

Lemma wpo_payload_at P n part i b s (Q : Z -> Socks5St OS -> Prop) :
  filled n part s -> part !! i = Some b -> Q b s -> wpo P (payload_at i) s Q.
Proof.
  intros [E _] Hi HQ. unfold payload_at. apply wpo_bind, wpo_get. rewrite E. cbn [sp_payload].
  rewrite lookup_app_l by (rewrite length_map; by eapply lookup_lt_Some). rewrite list_lookup_fmap, Hi. by apply wpo_ret.
Qed.

Lemma list_2 (l : list Z) : Zlen l = 2 -> exists a b, l = [a; b].
Proof.
  destruct l as [|a [|b [|c l]]]; rewrite ?Zlen_cons, ?Zlen_nil; try lia; [eauto|]. pose proof (Zlen_nonneg l). lia.
Qed.

Lemma wpo_read_method out inn part s :
  negotiating out inn part s -> filled 2 part s -> Zlen part = 2 -> s5_state s = pahomqtt_cs_socks5_start ->
  wpo no_credentials read_method s (read_post (s5_state s)).
Proof.
  intros Hn Hf Hl Hst. destruct (list_2 _ Hl) as (v & m & ->). unfold read_method.
  apply wpo_bind, (wpo_payload_at _ 2 [v; m] 0 v); [done|done|]. destruct (Z.eqb_spec v 5) as [->|Hv]; cbn [negb].
  2: { apply wpo_bind, wpo_modify, wpo_ret. right. split; [not_going|]. split; [cbn; by rewrite Hst|done]. }
  apply wpo_bind, (wpo_payload_at _ 2 [5; m] 1 m); [done|done|]. apply wpo_bind, wpo_modify.
  destruct (Z.eqb_spec m SOCKS_AUTH_NONE) as [->|_].
  { apply wpo_bind, wpo_modify. eapply wpo_send_request; [exact Hn| |by rewrite Hst]. rewrite Hst. apply ans_none. }
  destruct (Z.eqb_spec m SOCKS_AUTH_USERPASS) as [->|_].
  { apply wpo_bind, wpo_modify. by eapply wpo_send_userpass. }
  apply wpo_ret. right. split; [not_going|]. split; [cbn; by rewrite Hst|done].
Qed.

Lemma refusal_code rep : ~ going_on (refusal rep).
Proof. unfold refusal. destruct (rep =? 2); [not_going|]. destruct (_ || _); [not_going|]. destruct (_ || _); not_going. Qed.

Lemma wpo_read_auth out inn part s :
  negotiating out inn part s -> filled 2 part s -> Zlen part = 2 -> s5_state s = pahomqtt_cs_socks5_userpass_reply ->
  wpo no_credentials read_auth s (read_post (s5_state s)).
Proof.
  intros Hn Hf Hl Hst. destruct (list_2 _ Hl) as (v & m & ->). unfold read_auth.
  apply wpo_bind, (wpo_payload_at _ 2 [v; m] 0 v); [done|done|]. destruct (Z.eqb_spec v 1) as [->|Hv]; cbn [negb].
  2: { apply wpo_bind, wpo_modify, wpo_ret. right. split; [not_going|]. split; [cbn; by rewrite Hst|done]. }
  apply wpo_bind, (wpo_payload_at _ 2 [1; m] 1 m); [done|done|]. apply wpo_bind, wpo_modify.
  destruct (Z.eqb_spec m 0) as [->|_].
  { apply wpo_bind, wpo_modify. eapply wpo_send_request; [exact Hn| |by rewrite Hst]. rewrite Hst. apply ans_accepted. }
  apply wpo_ret. right. split; [apply refusal_code|]. split; [cbn; by rewrite Hst|done].
Qed.

(** The reply is longer than the first five bytes. *)
Lemma wpo_more k out inn part s n :
  negotiating out inn part s -> filled 5 part s -> Zlen part = 5 -> s5_state s = pahomqtt_cs_socks5_request ->
  0 <= k -> reply_length part = Some (5 + k) -> n = PAHOMQTT_ERR_NOT_FINISHED ->
  wpo no_credentials (_ ← more k; mret n) s (read_post (s5_state s)).
Proof.
  intros Hn (E & _ & Hok) Hl Hst Hk Hr ->. apply wpo_bind, wpo_modify, wpo_ret. left. split; [|left; by right]. exists out, inn, part.
  rewrite E. set (s' := set_in _ s).
  assert (filled (5 + k) part s') as Hf.
  { split; [|split; [lia|done]]. unfold s'. cbn. rewrite Hl. f_equal; [|lia]. f_equal. rewrite <- app_assoc. f_equal.
    replace (5 + k - 5) with k by lia. done. }
  destruct Hn. split; try done. unfold waiting. change (s5_state s') with (s5_state s). rewrite Hst. cbn.
  destruct (Z.eq_dec k 0) as [->|]; [left; by rewrite Z.add_0_r in Hf|]. right. exists (5 + k). split; [done|]. split; [lia|done].
Qed.

Lemma wpo_read_reply n out inn part s :
  negotiating out inn part s -> filled n part s -> Zlen part = n -> s5_state s = pahomqtt_cs_socks5_request ->
  (n = 5 \/ (reply_length part = Some n /\ 5 < n)) ->
  wpo no_credentials read_reply s (read_post (s5_state s)).
Proof.
  intros Hn Hf Hl Hst Hcase. unfold read_reply. apply wpo_bind, wpo_get. pose proof Hf as (E & _ & Hok). rewrite E. cbn [sp_packet_length].
  destruct Hcase as [-> |[Hr H5]].
  - change (5 =? 5) with true. cbv iota. destruct part as [|a [|b [|c [|atyp [|x [|y l]]]]]]; 
      rewrite ?Zlen_cons, ?Zlen_nil in Hl; try lia; [|pose proof (Zlen_nonneg l); lia].
    apply wpo_bind, (wpo_payload_at _ 5 [a; b; c; atyp; x] 3 atyp); [done|done|].
    destruct (Z.eqb_spec atyp SOCKS_ATYPE_IP_V4) as [->|_]; [by apply (wpo_more (4 + 2 - 1) out inn [a; b; c; 1; x])|].
    destruct (Z.eqb_spec atyp SOCKS_ATYPE_IP_V6) as [->|_]; [by apply (wpo_more (16 + 2 - 1) out inn [a; b; c; 4; x])|].
    destruct (Z.eqb_spec atyp SOCKS_ATYPE_DOMAINNAME) as [->|_].
    + apply wpo_bind, (wpo_payload_at _ 5 [a; b; c; 3; x] 4 x); [done|done|].
      apply (wpo_more x out inn [a; b; c; 3; x]); try done. unfold bytes_ok in Hok. rewrite !Forall_cons in Hok. unfold byte_ok in Hok. lia.
    + apply wpo_bind, wpo_modify, wpo_ret. right. split; [not_going|]. split; [cbn; by rewrite Hst|done].
  - destruct (Z.eqb_spec n 5); [lia|]. destruct part as [|v [|rep r]]; [done|done|].
    apply wpo_bind, (wpo_payload_at _ n (v :: rep :: r) 0 v); [done|done|]. destruct (Z.eqb_spec v 5) as [->|Hv]; cbn [negb].
    2: { apply wpo_bind, wpo_modify, wpo_ret. right. split; [not_going|]. split; [cbn; by rewrite Hst|done]. }
    apply wpo_bind, (wpo_payload_at _ n (5 :: rep :: r) 1 rep); [done|done|]. apply wpo_bind, wpo_modify. subst n.
    destruct (Z.eqb_spec rep 0) as [->|Hne]; apply wpo_bind, wpo_modify, wpo_ret.
    + left. split; [|by left; left]. exists out, (inn ++ 5 :: 0 :: r), []. eapply answer_step; [exact Hn| |by left].
      rewrite Hst. by apply ans_granted.
    + right. split; [apply refusal_code|]. split; [done|]. unfold waits. cbn. intros [|[|]]; done.
Qed.

(** A call of [socks5__read]. *)
Lemma wpo_socks5__read out inn part s :
  negotiating out inn part s -> wpo no_credentials socks5__read s (read_post (s5_state s)).
Proof.
  intros Hn. unfold socks5__read. apply wpo_bind, wpo_get. pose proof (n_waiting _ _ _ _ Hn) as Hw. unfold waiting in Hw.
  destruct (Z.eqb_spec (s5_state s) pahomqtt_cs_socks5_start) as [Hst|Hs1].
  { cbn in Hw. apply (wpo_after 2 out inn part); [done|done|by rewrite Hst| |].
    - intros d s' Es Hf. unfold waiting. by rewrite Es, Hst.
    - intros d s' Hn' Hf Hl Es. eapply wpo_read_method; [done|done|done|congruence]. }
  destruct (Z.eqb_spec (s5_state s) pahomqtt_cs_socks5_userpass_reply) as [Hst|Hs2].
  { cbn in Hw. apply (wpo_after 2 out inn part); [done|done|by rewrite Hst| |].
    - intros d s' Es Hf. unfold waiting. by rewrite Es, Hst.
    - intros d s' Hn' Hf Hl Es. eapply wpo_read_auth; [done|done|done|congruence]. }
  destruct (Z.eqb_spec (s5_state s) pahomqtt_cs_socks5_request) as [Hst|Hs3].
  { cbn in Hw. destruct Hw as [Hw|(n & Hr & H5 & Hw)].
    - apply (wpo_after 5 out inn part); [done|done|by rewrite Hst| |].
      + intros d s' Es Hf. unfold waiting. rewrite Es, Hst. by left.
      + intros d s' Hn' Hf Hl Es. eapply wpo_read_reply; [done|done|done|congruence|by left].
    - assert (forall d, reply_length (part ++ d) = Some n) as Hd.
      { intros d. destruct part as [|a [|b [|c [|atyp [|x l]]]]]; done. }
      apply (wpo_after n out inn part); [done|done|by rewrite Hst| |].
      + intros d s' Es Hf. unfold waiting. rewrite Es, Hst. right. by exists n.
      + intros d s' Hn' Hf Hl Es. eapply wpo_read_reply; [done|done|done|congruence|by right]. }
  destruct (Z.eqb_spec (s5_state s) pahomqtt_cs_new) as [Hst|Hst]; apply wpo_ret.
  - left. split; [eauto|by left; left].
  - right. split; [not_going|]. split; [done|]. unfold waits. by intros [|[|]].
Qed.

Lemma cleaned_crashes s : waits (s5_state s) -> cleaned s -> socks5__read s = Oob.
Proof.
  intros Hw [Hp Ht]. destruct s as [k st [pl len tp pos] out u p ur o]. cbn in Hp, Ht, Hw. subst pl tp.
  destruct Hw as [-> | [-> | ->]]; [done|done|].
  assert (forall s : Socks5St OS, in_packet s = mkPacket None len 0 pos -> read_reply s = Oob) as Hr.
  { intros s E. unfold read_reply. rewrite (sm_bind_run sm_get _ s s s) by done.
    assert (forall i (f : Z -> SM (Socks5St OS) Z), (payload_at i ≫= f) s = Oob) as Hb
      by (intros i f; unfold payload_at, mbind, sm_bind, sm_get; by rewrite E).
    destruct (_ =? 5); apply Hb. }
  exact (Hr (mkS5 k pahomqtt_cs_socks5_request (mkPacket None len 0 pos) out u p ur o) eq_refl).
Qed.

End With.

(** ** Runs *)

Definition goes_on (rc : Z) : bool := (rc =? PAHOMQTT_ERR_SUCCESS) || (rc =? PAHOMQTT_ERR_NOT_FINISHED).

Lemma goes_on_spec rc : goes_on rc = true <-> going_on rc.
Proof. unfold goes_on, going_on. rewrite orb_true_iff, !Z.eqb_eq. done. Qed.

(** [n] calls of [socks5__read], up to the first error. *)
Fixpoint reads (n : nat) : SM (Socks5St OS) Z :=
  match n with
  | O => mret PAHOMQTT_ERR_SUCCESS
  | S n => rc ← socks5__read; if goes_on rc then reads n else mret rc
  end.
Definition negotiate (n : nat) : SM (Socks5St OS) Z := _ ← socks5_begin; reads n.

Definition negotiating_from s0 : list Z -> list Z -> list Z -> Socks5St OS -> Prop :=
  negotiating (socks5_username s0) (socks5_password s0) (serverURI s0) (s5_socket s0)
    (sent (s5_socket s0) (s5_os s0)) (received (s5_socket s0) (s5_os s0)).

Lemma wp_begin s0 :
  out_packet s0 = [] ->
  wp socks5_begin s0 (fun _ s => negotiating_from s0 (greeting_payload (socks5_username s0)) [] [] s).
Proof.
  intros Ho. unfold socks5_begin. apply wp_bind, wp_modify. unfold socks5__send. apply wp_bind, wp_get.
  cbn [s5_state set_state]. change (pahomqtt_cs_socks5_new =? pahomqtt_cs_socks5_new) with true. cbv iota.
  apply wp_bind, wp_modify, wp_bind, wp_modify. cbn [socks5_username set_state].
  eapply wp_mono; [apply wp_packet__queue; cbn; rewrite Ho; by apply Forall_nil|].
  intros rc s (o & l & -> & Hl & Hr & Hs). split; cbn; try done.
  - apply d_begin.
  - etransitivity; [exact Hs|]. unfold said, pending. cbn. by rewrite Ho, app_nil_r.
  - by rewrite Hr, app_nil_r.
  - unfold waiting. cbn. split; [done|]. split; [done|apply Forall_nil_2].
Qed.

(** The calls keep the negotiation, until one fails. *)
Lemma wpo_reads n s0 out inn part s :
  negotiating_from s0 out inn part s ->
  wpo (socks5_username s0 = None \/ socks5_password s0 = None) (reads n) s (fun rc s' =>
    (going_on rc -> exists out inn part, negotiating_from s0 out inn part s') /\
    (s5_state s' = pahomqtt_cs_new -> exists out inn part, negotiating_from s0 out inn part s')).
Proof.
  revert out inn part s. induction n as [|n IH]; intros out inn part s Hn; cbn [reads].
  { apply wpo_ret. split; eauto. }
  apply wpo_bind. eapply wpo_mono; [by eapply wpo_socks5__read|]. intros rc s' Hp. destruct (goes_on rc) eqn:Eg.
  - destruct Hp as [[(out' & inn' & part' & Hn') _]|[Hng _]]; [by eapply IH|]. destruct Hng. by apply goes_on_spec.
  - apply wpo_ret. destruct Hp as [[Hn' _]|(Hng & Hst & _)]; [by split|]. by split.
Qed.

Lemma negotiate_inv n s rc1 s1 :
  out_packet s = [] -> negotiate n s = Ok (rc1, s1) -> going_on rc1 -> exists out inn part, negotiating_from s out inn part s1.
Proof.
  intros Ho Hneg Hg. unfold negotiate, mbind, sm_bind in Hneg. destruct (wp_begin s Ho) as (rc0 & s0 & E & Hn). rewrite E in Hneg.
  pose proof (wpo_reads n s _ _ _ s0 Hn) as Hr. unfold wpo in Hr. rewrite Hneg in Hr. destruct Hr as [Hr _]. exact (Hr Hg).
Qed.

(** C38. SOCKS5.  Whatever bytes a proxy sends, in whatever pieces, a client whose user name and
    password have at most 255 bytes follows the dialogue of RFC 1928 and RFC 1929: as long
    as no call fails, what it has said or holds to be sent is the greeting, the credentials
    and the request of the standards, in order and whole, and what it has read is the
    answers and a part of the next one; the connection counts as made only when the method,
    the credentials and the request have all been accepted, and then the reply has been
    read exactly, but for the port after a domain name, which is left in the stream.  The
    port asked for is 1883.  Only a client without a user name or a password can go out of
    bounds. *)
Theorem socks5_refines (n : nat) (s : Socks5St OS) :
  out_packet s = [] -> short (socks5_username s) -> short (socks5_password s) ->
  wpo (socks5_username s = None \/ socks5_password s = None) (negotiate n) s (fun rc s' =>
    let sk := s5_socket s in
    let reached st out inn part :=
      rfc_dialogue (socks5_username s) (socks5_password s) (serverURI s) st out inn /\
      said s' = sent sk (s5_os s) ++ out /\ received sk (s5_os s') = received sk (s5_os s) ++ inn ++ part in
    (rc = PAHOMQTT_ERR_SUCCESS \/ rc = PAHOMQTT_ERR_NOT_FINISHED -> exists out inn part, reached (stage_of (s5_state s')) out inn part) /\
    (s5_state s' = pahomqtt_cs_new -> exists out pre reply port, reached Granted out (pre ++ 5 :: 0 :: reply) [] /\
       (pre = [5; 0] \/ pre = [5; 2; 1; 0]) /\ rfc_reply (5 :: 0 :: reply ++ port) /\ Zlen port = unread (5 :: 0 :: reply))).
Proof.
  intros Ho Hu Hp. unfold negotiate. apply wpo_bind, wpo_wp. eapply wp_mono; [by apply wp_begin|]. intros rc0 s1 Hn.
  eapply wpo_mono; [eapply wpo_reads; exact Hn|]. intros rc s' [H1 H2]. cbv zeta. split.
  - intros Hg. destruct (H1 Hg) as (out & inn & part & Hn'). exists out, inn, part. destruct Hn'. split; [by apply dialogue_rfc|done].
  - intros Hst. destruct (H2 Hst) as (out & inn & part & []). rewrite Hst in n_dialogue0.
    assert (part = []) as -> by (unfold waiting in n_waiting0; by rewrite Hst in n_waiting0).
    destruct (established _ _ _ _ _ n_dialogue0) as (pre & r & -> & Hpre & (port & Hrep & Hport & _)%reply_heard).
    exists out, pre, r, port. apply dialogue_rfc in n_dialogue0; [|done|done]. by split_and!.
Qed.

(** SOCKS5 errors.  When a call of [socks5__read] fails and the negotiation stays in
    the state it was in, as it does when the proxy refuses the methods or the
    credentials or the connection breaks, the buffer is gone, and the next call of the
    reading thread, which looks at nothing but the state, dereferences it. *)
Theorem failed_read_crashes (n : nat) (s s1 s2 : Socks5St OS) (rc1 rc2 : Z) :
  out_packet s = [] -> negotiate n s = Ok (rc1, s1) -> rc1 = PAHOMQTT_ERR_SUCCESS \/ rc1 = PAHOMQTT_ERR_NOT_FINISHED ->
  socks5__read s1 = Ok (rc2, s2) -> rc2 <> PAHOMQTT_ERR_SUCCESS -> rc2 <> PAHOMQTT_ERR_NOT_FINISHED ->
  s5_state s2 = s5_state s1 ->
  s5_state s2 = pahomqtt_cs_socks5_start \/ s5_state s2 = pahomqtt_cs_socks5_userpass_reply \/
    s5_state s2 = pahomqtt_cs_socks5_request ->
  socks5__read s2 = Oob.
Proof.
  intros Ho Hneg Hg1 Hread Hg2 Hg2' Hst Hw.
  destruct (negotiate_inv _ _ _ _ Ho Hneg Hg1) as (out & inn & part & Hn).
  pose proof (wpo_socks5__read _ _ _ _ _ _ _ _ _ _ Hn) as Hp. unfold wpo in Hp. rewrite Hread in Hp.
  assert (~ going_on rc2) as Hng by (intros [Hx|Hx]; [by apply Hg2|by apply Hg2']).
  destruct Hp as [[_ [Hx|Hx]]|(_ & _ & Hc)]; [by destruct Hng|by destruct Hx|]. apply cleaned_crashes; [exact Hw|by apply Hc].
Qed.

(** ** The end of a turn *)

(** Code that does not return [c]. *)
Definition never {A} (c : A) (m : SM (Socks5St OS) A) : Prop := forall s a s', m s = Ok (a, s') -> a <> c.

Lemma never_ret {A} (c a : A) : a <> c -> never c (mret a).
Proof. intros Ha s a' s' [= <- <-]. done. Qed.

Lemma never_bind {A B} (c : B) (m : SM (Socks5St OS) A) (f : A -> SM (Socks5St OS) B) :
  (forall a, never c (f a)) -> never c (m ≫= f).
Proof. intros Hf s b s' (a & s1 & _ & H)%sm_bind_Ok. by eapply Hf. Qed.

Lemma write_loop_code fuel p : never (Some PAHOMQTT_ERR_NOT_FINISHED) (r ← write_loop fuel p; mret (fst r)).
Proof.
  revert p. induction fuel as [|fuel IH]; intros p s r s' (r' & s1 & H & [= <- <-])%sm_bind_Ok; cbn [write_loop] in H;
    destruct (0 <? sp_to_process p); try by injection H as <- <-.
  - by destruct (to_send p).
  - destruct (to_send p) as [b|]; [|done]. apply sm_bind_Ok in H as ([w e] & s2 & _ & H). destruct (0 <? w).
    + eapply (IH _ s2). by rewrite (sm_bind_run _ _ _ _ _ H).
    + injection H as <- <-. cbn. destruct (_ || _); [done|]. destruct (_ =? _); [done|]. by destruct (_ =? _).
Qed.

Lemma write_packets_code l : never PAHOMQTT_ERR_NOT_FINISHED (write_packets l).
Proof.
  induction l as [|p l IH]; cbn [write_packets]; [by apply never_bind; intros; apply never_ret|].
  intros s rc s' ([[c|] p'] & s1 & Hw & H)%sm_bind_Ok; [|by eapply IH].
  apply sm_bind_Ok in H as (? & ? & _ & [= <- <-]). intros ->. eapply (write_loop_code _ p s); [|done].
  by rewrite (sm_bind_run _ _ _ _ _ Hw).
Qed.

Lemma packet__queue_code b : never PAHOMQTT_ERR_NOT_FINISHED (packet__queue b).
Proof.
  apply never_bind. intros _. apply never_bind. intros s. destruct (_ =? _); [by apply never_ret|].
  destruct (_ =? _); [by apply never_ret|]. apply write_packets_code.
Qed.

Lemma socks5__send_code : never PAHOMQTT_ERR_NOT_FINISHED socks5__send.
Proof.
  apply never_bind. intros s. destruct (_ =? _); [do 2 (apply never_bind; intros _); apply packet__queue_code|]. destruct (_ =? _).
  - destruct (request_payload _); [|by apply never_ret]. do 2 (apply never_bind; intros _). apply packet__queue_code.
  - destruct (_ =? _); [|by apply never_ret]. destruct (socks5_username s), (socks5_password s); try done.
    do 2 (apply never_bind; intros _). apply packet__queue_code.
Qed.

Lemma read_loop_end fuel s r s' :
  read_loop fuel s = Ok (r, s') ->
  (r = None -> sp_to_process (in_packet s') <= 0 /\ s5_state s' = s5_state s /\ sp_packet_length (in_packet s') = sp_packet_length (in_packet s)) /\
  r <> Some PAHOMQTT_ERR_NOT_FINISHED.
Proof.
  revert s. induction fuel as [|fuel IH]; intros s; cbn [read_loop]; rewrite (sm_bind_run sm_get _ s s s) by done;
    destruct (Z.ltb_spec 0 (sp_to_process (in_packet s))) as [Hlt|Hge]; try by intros [= <- <-].
  - by destruct (sp_payload (in_packet s)).
  - destruct (sp_payload (in_packet s)) as [buf|]; [|done]. intros ([[len e] d] & s1 & H1 & H)%sm_bind_Ok.
    assert (s5_state s1 = s5_state s /\ in_packet s1 = in_packet s) as [Est Ein].
    { unfold net__read in H1. rewrite (sm_bind_run sm_get _ s s s) in H1 by done. unfold call in H1.
      destruct (sys_recv _ _ _) as [[[? ?] ?] ?]. injection H1 as <- <- <- <-. done. }
    destruct (0 <? len).
    + destruct (_ <? _); [done|]. apply sm_bind_Ok in H as ([] & s2 & [= <-] & H). destruct (IH _ H) as [H2 H3]. split; [|done].
      intros Hr. destruct (H2 Hr) as (? & E1 & E2). cbn in E1, E2. split; [done|]. by rewrite E1, E2, Est.
    + destruct (_ || _); [by injection H as <- <-|]. apply sm_bind_Ok in H as (? & ? & _ & [= <- <-]). split; [done|].
      destruct (e =? 0); [done|]. by destruct (_ =? _).
Qed.

Lemma payload_at_run i s b s' : payload_at i s = Ok (b, s') -> s' = s.
Proof.
  unfold payload_at. rewrite (sm_bind_run sm_get _ s s s) by done. destruct (sp_payload _) as [l|]; [|done].
  destruct (l !! i) as [[?|]|]; [|done..]. by intros [= <- <-].
Qed.

Lemma read_method_code : never PAHOMQTT_ERR_NOT_FINISHED read_method.
Proof.
  apply never_bind. intros v. destruct (negb _); [apply never_bind; intros; by apply never_ret|]. do 2 (apply never_bind; intros).
  destruct (_ =? _); [apply never_bind; intros; apply socks5__send_code|].
  destruct (_ =? _); [apply never_bind; intros; apply socks5__send_code|by apply never_ret].
Qed.

Lemma read_auth_code : never PAHOMQTT_ERR_NOT_FINISHED read_auth.
Proof.
  apply never_bind. intros v. destruct (negb _); [apply never_bind; intros; by apply never_ret|]. do 2 (apply never_bind; intros).
  destruct (_ =? _); [apply never_bind; intros; apply socks5__send_code|]. apply never_ret.
  intros E. apply (refusal_code a). by right.
Qed.

(** There is more to read only after the first five bytes of a reply. *)
Lemma not_finished s s' :
  socks5__read s = Ok (PAHOMQTT_ERR_NOT_FINISHED, s') ->
  exists s0 k, read_expected s = Ok (None, s0) /\ s5_state s = pahomqtt_cs_socks5_request /\
    sp_packet_length (in_packet s0) = 5 /\ more k s0 = Ok ((), s') /\
    (0 < k \/ payload_at 3 s0 = Ok (3, s0) /\ payload_at 4 s0 = Ok (k, s0)).
Proof.
  unfold socks5__read. rewrite (sm_bind_run sm_get _ s s s) by done.
  destruct (_ =? _).
  { intros ([rc|] & s0 & Hr & H)%sm_bind_Ok; [|by apply read_method_code in H]. injection H as -> <-.
    unfold read_expected in Hr. rewrite (sm_bind_run sm_get _ s s s) in Hr by done. by apply read_loop_end in Hr as [_ Hr]. }
  destruct (_ =? _).
  { intros ([rc|] & s0 & Hr & H)%sm_bind_Ok; [|by apply read_auth_code in H]. injection H as -> <-.
    unfold read_expected in Hr. rewrite (sm_bind_run sm_get _ s s s) in Hr by done. by apply read_loop_end in Hr as [_ Hr]. }
  destruct (Z.eqb_spec (s5_state s) pahomqtt_cs_socks5_request) as [Hst|_]; [|by destruct (_ =? _)].
  intros ([rc|] & s0 & Hr & H)%sm_bind_Ok.
  { injection H as -> <-. unfold read_expected in Hr. rewrite (sm_bind_run sm_get _ s s s) in Hr by done.
    by apply read_loop_end in Hr as [_ Hr]. }
  exists s0. unfold read_reply in H. rewrite (sm_bind_run sm_get _ s0 s0 s0) in H by done.
  destruct (Z.eqb_spec (sp_packet_length (in_packet s0)) 5) as [H5|_].
  2: { exfalso. match type of H with ?m s0 = _ => enough (never PAHOMQTT_ERR_NOT_FINISHED m) as Hn by (by apply Hn in H) end. apply never_bind. intros v. destruct (negb _); [apply never_bind; intros; by apply never_ret|].
    do 2 (apply never_bind; intros). destruct (_ =? _); [apply never_bind; intros; by apply never_ret|].
    apply never_bind. intros. apply never_ret. intros E. apply (refusal_code a). by right. }
  apply sm_bind_Ok in H as (t & s1 & Ht & H). pose proof (payload_at_run _ _ _ _ Ht) as ->.
  destruct (t =? _); [apply sm_bind_Ok in H as ([] & s1 & H & [= <-]); exists 5; by split_and!; [..|left]|].
  destruct (t =? _); [apply sm_bind_Ok in H as ([] & s1 & H & [= <-]); exists 17; by split_and!; [..|left]|].
  destruct (Z.eqb_spec t SOCKS_ATYPE_DOMAINNAME) as [E3|]; [|by apply sm_bind_Ok in H as (? & ? & _ & [=])].
  rewrite E3 in Ht.
  apply sm_bind_Ok in H as (k & s1 & Hk & H). pose proof (payload_at_run _ _ _ _ Hk) as ->.
  apply sm_bind_Ok in H as ([] & s1 & H & [= <-]). exists k. by split_and!; [..|right].
Qed.

(** A reply with an empty domain name. *)
Definition stuck s : Prop :=
  s5_state s = pahomqtt_cs_socks5_request /\ sp_packet_length (in_packet s) = 5 /\ sp_to_process (in_packet s) <= 0 /\
  payload_at 3 s = Ok (3, s) /\ payload_at 4 s = Ok (0, s).

Lemma stuck_more s : stuck s -> more 0 s = Ok ((), s).
Proof.
  intros (_ & _ & _ & H & _). destruct s as [k st [pl len tp pos] ou u p ur o]. unfold more, sm_modify, set_in. cbn -[replicate].
  destruct pl as [pl|]; [|done]. cbn. by rewrite app_nil_r, !Z.add_0_r.
Qed.

Lemma stuck_read s : stuck s -> socks5__read s = Ok (PAHOMQTT_ERR_NOT_FINISHED, s).
Proof.
  intros Hs. pose proof (stuck_more s Hs) as Hm. destruct Hs as (Hst & H5 & Ht & H3 & H4). unfold socks5__read.
  rewrite (sm_bind_run sm_get _ s s s) by done. rewrite Hst. cbn -[read_expected read_reply].
  rewrite (sm_bind_run _ _ s None s).
  2: { unfold read_expected. rewrite (sm_bind_run sm_get _ s s s) by done. replace (Z.to_nat _) with 0%nat by lia. cbn [read_loop].
    rewrite (sm_bind_run sm_get _ s s s) by done. by rewrite (proj2 (Z.ltb_ge _ _) Ht). }
  unfold read_reply. rewrite (sm_bind_run sm_get _ s s s) by done. rewrite H5. change (5 =? 5) with true. cbv iota.
  rewrite (sm_bind_run _ _ s 3 s H3). cbn -[more]. rewrite (sm_bind_run _ _ s 0 s H4). by rewrite (sm_bind_run _ _ s () s Hm).
Qed.

Lemma stuck_turn fuel s : stuck s -> read_turn fuel s = Fail.
Proof.
  intros Hs. induction fuel as [|fuel IH]; [done|]. cbn [read_turn]. rewrite (sm_bind_run _ _ _ _ _ (stuck_read s Hs)).
  rewrite (sm_bind_run sm_get _ s s s) by done. destruct Hs as (-> & _). exact IH.
Qed.

Lemma stuck_part part s :
  stuck s -> filled 5 part s -> exists a b c, part = [a; b; c; 3; 0].
Proof.
  intros (_ & _ & Ht & H3 & H4) (E & Hle & _). rewrite E in Ht. cbn in Ht.
  destruct part as [|a [|b [|c [|d [|e [|x l]]]]]]; rewrite ?Zlen_cons, ?Zlen_nil in *; try lia; [|pose proof (Zlen_nonneg l); lia].
  unfold payload_at, mbind, sm_bind, sm_get in H3, H4. rewrite E in H3, H4. cbn in H3, H4.
  injection H3 as ->. injection H4 as ->. eauto.
Qed.

(** C40. SOCKS5 turns.  A turn of the reading thread ends after at most two calls of
    [socks5__read], whatever the proxy sends and wherever it is cut, but for a reply with
    an address that is a domain name of length zero, after which it never ends: the
    first five bytes are taken for the start of a longer reply again and again. *)
Theorem socks5_turn_ends (n : nat) (s s1 : Socks5St OS) (rc1 : Z) :
  out_packet s = [] -> negotiate n s = Ok (rc1, s1) -> rc1 = PAHOMQTT_ERR_SUCCESS \/ rc1 = PAHOMQTT_ERR_NOT_FINISHED ->
  wpo (socks5_username s = None \/ socks5_password s = None) (read_turn 2) s1 (fun _ _ => True) \/
  ((forall fuel, read_turn fuel s1 = Fail) /\
   exists out inn a b c s2, socks5__read s1 = Ok (PAHOMQTT_ERR_NOT_FINISHED, s2) /\
     dialogue (socks5_username s) (socks5_password s) (serverURI s) pahomqtt_cs_socks5_request out inn /\
     received (s5_socket s) (s5_os s2) = received (s5_socket s) (s5_os s) ++ inn ++ [a; b; c; 3; 0]).
Proof.
  intros Ho Hneg Hg. destruct (negotiate_inv _ _ _ _ Ho Hneg Hg) as (out & inn & part & Hn).
  pose proof (wpo_socks5__read _ _ _ _ _ _ _ _ _ _ Hn) as Hp. unfold wpo in *. cbn [read_turn]. unfold mbind, sm_bind, sm_get.
  destruct (socks5__read s1) as [[rc s2]| |] eqn:E; [|done|by left].
  destruct (Z.eqb_spec rc PAHOMQTT_ERR_NOT_FINISHED) as [->|_]; [|left; by destruct (_ =? _)].
  destruct (s5_state s2 =? pahomqtt_cs_new) eqn:Enew; [by left|].
  destruct (not_finished _ _ E) as (s0 & k & Hr & Hst & H5 & Hmore & Hk).
  unfold read_expected in Hr. rewrite (sm_bind_run sm_get _ s1 s1 s1) in Hr by done.
  destruct (read_loop_end _ _ _ _ Hr) as [Hend _]. destruct (Hend eq_refl) as (Ht & Est & _).
  assert (s5_state s2 = pahomqtt_cs_socks5_request /\ sp_packet_length (in_packet s2) = 5 + k) as [Hst2 Hl2].
  { injection Hmore as <-. cbn. rewrite Est, H5. done. }
  destruct Hp as [[(out2 & inn2 & part2 & Hn2) _]|[Hng _]]; [|by destruct Hng; right].
  pose proof (n_waiting _ _ _ _ _ _ _ _ _ _ Hn2) as Hw. unfold waiting in Hw. rewrite Hst2 in Hw. cbn in Hw.
  destruct Hw as [Hw|(m & _ & Hm & Hw)].
  - right. assert (k = 0) as -> by (destruct Hw as [Hw _]; rewrite Hw in Hl2; cbn in Hl2; lia).
    destruct Hk as [?|[H3 H4]]; [lia|]. assert (stuck s0) as Hs0 by (split_and!; [congruence|done..]).
    rewrite (stuck_more s0 Hs0) in Hmore. injection Hmore as <-.
    split; [intros [|fuel]; [done|]; cbn [read_turn]; unfold mbind, sm_bind, sm_get; rewrite E, Enew; by apply stuck_turn|].
    destruct (stuck_part _ _ Hs0 Hw) as (a & b & c & ->). exists out2, inn2, a, b, c, s0. split; [done|]. destruct Hn2.
    split; [by rewrite <- Hst2|done].
  - left. pose proof (wpo_socks5__read _ _ _ _ _ _ _ _ _ _ Hn2) as Hp2. unfold wpo in Hp2.
    destruct (socks5__read s2) as [[rc2 s3]| |] eqn:E2; [|done|done]. destruct (s5_state s3 =? _); [done|].
    destruct (Z.eqb_spec rc2 PAHOMQTT_ERR_NOT_FINISHED) as [->|_]; [|done]. exfalso.
    destruct (not_finished _ _ E2) as (s4 & k2 & Hr2 & _ & H5' & _). unfold read_expected in Hr2.
    rewrite (sm_bind_run sm_get _ s2 s2 s2) in Hr2 by done. destruct (read_loop_end _ _ _ _ Hr2) as [Hend2 _].
    destruct (Hend2 eq_refl) as (_ & _ & Hl). destruct Hw as [Hw _]. rewrite Hw in Hl. cbn in Hl. lia.
Qed.

End Negotiation.

(** ** The connection is made *)

(** A proxy whose answers arrive cut into pieces in any way, with calls that find nothing
    to read in between, and a client whose writes are complete: [Script] without limits. *)
Section Connects.
Context {IP : InetPton}.
Implicit Types s : Socks5St Script.

(** The member of the script, and a client that can send and has sent everything. *)
Definition input s : list (list Z) := sc_input (s5_os s).
Record sends s : Prop := {
  sends_socket : s5_socket s <> INVALID_SOCKET;
  sends_limits : sc_limits (s5_os s) = [];
  sends_all : out_packet s = []
}.

Lemma writev_all k b (o : Script) :
  sc_limits o = [] ->
  sys_writev k [b] o = (Zlen b, 0, mkScript (sc_input o) [] (sc_log o ++ [(k, b)]) (sc_read o)).
Proof.
  intros Hl. change (sys_writev k [b] o) with (script_writev k [b] o). unfold script_writev. rewrite Hl.
  cbn [concat head default]. rewrite app_nil_r. cbn [default]. pose proof (Zlen_nonneg b).
  destruct (Z.ltb_spec (Zlen b) 0); [lia|]. rewrite Z.min_id, Zlen_to_nat. by rewrite take_ge.
Qed.

(** A message is sent at once. *)
Lemma wp_queue_at_once b s :
  sends s -> s5_state s <> pahomqtt_cs_new -> 0 < Zlen b ->
  wp (packet__queue b) s (fun rc s' => rc = PAHOMQTT_ERR_SUCCESS /\ sends s' /\ input s' = input s /\
    in_packet s' = in_packet s /\ s5_state s' = s5_state s /\ socks5_username s' = socks5_username s /\
    socks5_password s' = socks5_password s /\ serverURI s' = serverURI s).
Proof.
  intros [Hk Hl Ho] Hst Hb. unfold packet__queue. apply wp_bind, wp_modify. rewrite Ho. unfold packet__write. apply wp_bind, wp_get.
  cbn [s5_socket s5_state set_out out_packet app]. rewrite (proj2 (Z.eqb_neq _ _) Hk), (proj2 (Z.eqb_neq _ _) Hst).
  set (s1 := set_out _ s). cbn [write_packets sp_to_process]. destruct (Z.to_nat (Zlen b)) as [|f] eqn:Ef; [lia|].
  apply wp_bind. cbn [write_loop sp_to_process]. rewrite (proj2 (Z.ltb_lt _ _) Hb).
  unfold to_send. cbn [sp_payload sp_to_process sp_pos mbind option_bind].
  rewrite drop_0, take_ge by (rewrite length_map; unfold Zlen; lia). rewrite mapM_known. apply wp_bind.
  unfold net__write. apply wp_bind, wp_get. unfold call, wp at 1. rewrite writev_all by done. do 2 eexists. split; [reflexivity|].
  cbv beta iota. rewrite (proj2 (Z.ltb_lt _ _) Hb).
  destruct f; cbn [write_loop sp_to_process]; rewrite Z.sub_diag; change (0 <? 0) with false; cbv iota;
    apply wp_ret, wp_bind, wp_modify, wp_ret; by split_and!.
Qed.

(** One read of what there is. *)
Lemma recv_piece k n (o : Script) :
  0 < n -> Forall bytes_ok (sc_input o) ->
  exists rc e d o', sys_recv k n o = (rc, e, d, o') /\ sc_limits o' = sc_limits o /\
    concat (sc_input o) = d ++ concat (sc_input o') /\ Forall bytes_ok (sc_input o') /\
    (List.length (sc_input o') <= List.length (sc_input o))%nat /\
    ((rc <= 0 /\ e = EAGAIN /\ d = [] /\ ((List.length (sc_input o') < List.length (sc_input o))%nat \/ sc_input o' = [])) \/
     (0 < rc <= n /\ rc = Zlen d /\ bytes_ok d)).
Proof.
  intros Hn Hbs. change (@sys_recv Script script_sys) with script_recv. unfold script_recv. destruct (sc_input o) as [|[|c cs] r].
  - do 4 eexists. split; [reflexivity|]. cbn. split_and!; try done. left. split_and!; try done. by right.
  - apply Forall_cons in Hbs as [_ Hbs]. do 4 eexists. split; [reflexivity|]. cbn. split_and!; try done; [lia|].
    left. split_and!; try done. left. lia.
  - apply Forall_cons in Hbs as [Hc Hbs]. set (K := Z.to_nat n). set (d := take K (c :: cs)).
    assert (bytes_ok d) as Hdok by (by apply Forall_take).
    assert (map to_byte d = d) as ->.
    { clear -Hdok. induction Hdok as [|x l Hx Hl IHl]; [done|]. cbn. by rewrite IHl, to_byte_id. }
    assert (0 < Zlen d <= n) as Hd by (unfold d, Zlen; rewrite length_take; cbn; subst K; lia).
    do 4 eexists. split; [reflexivity|]. cbn [sc_input sc_limits]. split; [done|]. subst d.
    destruct (Nat.ltb_spec K (List.length (c :: cs))).
    + split_and!; [cbn [concat]; by rewrite app_assoc, take_drop|apply Forall_cons; split; [by apply Forall_drop|done]|done|].
      by right.
    + rewrite take_ge in * by lia. split_and!; [done|done|cbn; lia|by right].
Qed.

(** What is left of the answers can be read. *)
Lemma wp_read_pieces fuel n part s :
  filled n part s -> (Z.to_nat (n - Zlen part) <= fuel)%nat -> Forall bytes_ok (input s) ->
  wp (read_loop fuel) s (fun r s' => exists d o, s' = set_in (in_packet s') (set_s5os o s) /\
    sc_limits o = sc_limits (s5_os s) /\ concat (input s) = d ++ concat (sc_input o) /\ Forall bytes_ok (sc_input o) /\
    filled n (part ++ d) s' /\ (List.length (sc_input o) <= List.length (input s))%nat /\
    ((r = None /\ Zlen (part ++ d) = n) \/
     (r = Some PAHOMQTT_ERR_SUCCESS /\ Zlen (part ++ d) < n /\
        ((List.length (sc_input o) < List.length (input s))%nat \/ sc_input o = [])))).
Proof.
  revert part s. induction fuel as [|fuel IH]; intros part s (Hin & Hle & Hok) Hf Hbs; cbn [read_loop]; apply wp_bind, wp_get;
    rewrite Hin; cbn [sp_to_process sp_payload sp_pos sp_packet_length]; destruct (Z.ltb_spec 0 (n - Zlen part)) as [Hlt|Hge]; try lia.
  1, 3: apply wp_ret; exists [], (s5_os s); rewrite app_nil_r; split; [by destruct s|]; split; [done|]; split; [done|]; split; [done|];
    split; [by split_and!|]; split; [done|]; left; split; [done|lia].
  apply wp_bind. unfold net__read. apply wp_bind, wp_get.
  destruct (recv_piece (s5_socket s) (n - Zlen part) (s5_os s) Hlt Hbs) as (rc & e & d & o & E & H1 & H2 & H3 & H4 & Hd).
  unfold call, wp at 1. rewrite E. do 2 eexists. split; [reflexivity|]. cbv beta iota. destruct Hd as [(Hrc & -> & -> & Hd)|(Hrc & -> & Hdok)].
  - rewrite (proj2 (Z.ltb_ge _ _) Hrc). change ((EAGAIN =? EAGAIN) || (EAGAIN =? WSAEWOULDBLOCK)) with true. cbv iota.
    apply wp_ret. exists [], o. rewrite app_nil_r. split; [by destruct s|]. split_and!; try done. right. split_and!; [done|lia|done].
  - destruct (Z.ltb_spec 0 (Zlen d)); [|lia].
    destruct (Z.ltb_spec (Zlen (map Some part ++ replicate (Z.to_nat (n - Zlen part)) None)) (Zlen part + Zlen d)) as [Hbad|_].
    { unfold Zlen in *. rewrite length_app, length_map, length_replicate in Hbad. lia. }
    apply wp_bind, wp_modify. rewrite splice_known by lia. set (s2 := set_in _ _).
    assert (filled n (part ++ d) s2) as Hf2.
    { split; [|split; [rewrite Zlen_app; lia|by apply bytes_ok_app]]. unfold s2. cbn. rewrite Zlen_app. f_equal; lia. }
    eapply wp_mono; [apply (IH (part ++ d) s2 Hf2); [rewrite Zlen_app; unfold Zlen in *; lia|exact H3]|].
    intros r' s3 (d2 & o2 & Es & I1 & I2 & I3 & I4 & I5 & I6). exists (d ++ d2), o2. unfold input in *. cbn in Es, I1, I2, I5, I6.
    split; [exact Es|]. split; [congruence|]. split; [by rewrite H2, I2, app_assoc|]. split; [exact I3|].
    rewrite !app_assoc. split; [exact I4|]. split; [lia|]. destruct I6 as [I6|(? & ? & [|])]; [by left| |]; right; split_and!; try done.
    + left. lia.
    + by right.
Qed.

Section With.
Variable username password : option (list Z).
Variable uri reply rest : list Z.

(** In a state, with so many answers to come, [n] bytes of [todo] are expected, and then
    [rest] follows. *)
Inductive stage : Z -> nat -> Z -> list Z -> Prop :=
| st_rest : stage pahomqtt_cs_socks5_request 1 (Zlen reply) reply
| st_head : stage pahomqtt_cs_socks5_request 2 5 reply
| st_accept : stage pahomqtt_cs_socks5_userpass_reply 3 2 ([1; 0] ++ reply)
| st_none : stage pahomqtt_cs_socks5_start 4 2 ([5; 0] ++ reply)
| st_userpass u p : username = Some u -> password = Some p -> stage pahomqtt_cs_socks5_start 4 2 ([5; 2; 1; 0] ++ reply).

Record client s : Prop := {
  cl_sends : sends s;
  cl_username : socks5_username s = username;
  cl_password : socks5_password s = password;
  cl_uri : serverURI s = uri;
  cl_bytes : Forall bytes_ok (input s)
}.

(** The connection will be made in [c] calls, and is made. *)
Definition live (c : nat) s : Prop :=
  client s /\ exists k n todo part, stage (s5_state s) k n todo /\ filled n part s /\
    part ++ concat (input s) = todo ++ rest /\ (k + List.length (input s) <= c)%nat.
Definition made s : Prop := s5_state s = pahomqtt_cs_new /\ out_packet s = [] /\ concat (input s) = rest.

Definition nearer (c : nat) (rc : Z) s' : Prop :=
  going_on rc /\ (made s' \/ exists c', (c' < c)%nat /\ live c' s').

Hypothesis Hreq : request_payload uri <> None.
Hypothesis Hlen : reply_length reply = Some (Zlen reply).
Hypothesis Hmore : 5 < Zlen reply.
Hypothesis Hgranted : exists r, reply = 5 :: 0 :: r.

Lemma client_set_in q st s : client s -> client (set_state st (set_in q s)).
Proof. by intros [[] ? ? ? ?]. Qed.

Lemma live_message m s st n k todo :
  client s -> s5_state s = st -> st <> pahomqtt_cs_new -> 0 < Zlen m -> stage st k n todo -> concat (input s) = todo ++ rest ->
  filled n [] s ->
  wp (packet__queue m) s (nearer (S (k + List.length (input s)))).
Proof.
  intros [Hs Hu Hp Hr Hb] Hst Hne Hm Hstage Hc Hf. eapply wp_mono; [apply wp_queue_at_once; [done|congruence|done]|].
  intros rc s' (-> & Hs' & Hi & Hin & H1 & H2 & H3 & H4). split; [by left|]. right. exists (k + List.length (input s))%nat. split; [lia|].
  split; [split; [done|congruence|congruence|congruence|by rewrite Hi]|]. exists k, n, todo, []. rewrite H1, Hi, Hst. split_and!; try done.
  destruct Hf as (Hf & ? & ?). split_and!; [by rewrite Hin|done|done].
Qed.

Lemma expected_nil n s : 0 <= n -> filled n [] (set_in (mkPacket (Some (replicate (Z.to_nat n) None)) n n 0) s).
Proof. intros Hn. split; [|split; [done|apply Forall_nil_2]]. cbn. by rewrite Z.sub_0_r. Qed.

Lemma request_nonempty req : request_payload uri = Some req -> 0 < Zlen req.
Proof.
  unfold request_payload. destruct (inet_pton4 uri); [intros [= <-]; zlen|].
  destruct (inet_pton6 uri); [intros [= <-]; zlen|]. destruct (_ <? _); intros [= <-]; zlen.
Qed.

Lemma live_request q s :
  client s -> concat (input s) = reply ++ rest ->
  wp socks5__send (set_state pahomqtt_cs_socks5_auth_ok (set_in q s)) (nearer (3 + List.length (input s))).
Proof.
  intros Hcl Hc. unfold socks5__send. apply wp_bind, wp_get. cbn [s5_state set_state].
  change (pahomqtt_cs_socks5_auth_ok =? pahomqtt_cs_socks5_new) with false.
  change (pahomqtt_cs_socks5_auth_ok =? pahomqtt_cs_socks5_auth_ok) with true. cbv iota.
  replace (serverURI _) with uri by (symmetry; apply Hcl). destruct (request_payload uri) as [req|] eqn:E; [|done].
  apply wp_bind, wp_modify, wp_bind, wp_modify. match goal with |- wp _ ?s1 _ => change (input s) with (input s1) end.
  eapply (live_message req _ pahomqtt_cs_socks5_request 5 2 reply); try done.
  - by destruct Hcl as [[] ? ? ? ?].
  - by apply request_nonempty.
  - by constructor.
  - by apply expected_nil.
Qed.

Lemma live_userpass q s u p :
  client s -> username = Some u -> password = Some p -> concat (input s) = [1; 0] ++ reply ++ rest ->
  wp socks5__send (set_state pahomqtt_cs_socks5_send_userpass (set_in q s)) (nearer (4 + List.length (input s))).
Proof.
  intros Hcl Hu Hp Hc. unfold socks5__send. apply wp_bind, wp_get. cbn [s5_state set_state].
  change (pahomqtt_cs_socks5_send_userpass =? pahomqtt_cs_socks5_new) with false.
  change (pahomqtt_cs_socks5_send_userpass =? pahomqtt_cs_socks5_auth_ok) with false.
  change (pahomqtt_cs_socks5_send_userpass =? pahomqtt_cs_socks5_send_userpass) with true. cbv iota.
  replace (socks5_username _) with username by (symmetry; apply Hcl). rewrite Hu.
  replace (socks5_password _) with password by (symmetry; apply Hcl). rewrite Hp.
  apply wp_bind, wp_modify, wp_bind, wp_modify. match goal with |- wp _ ?s1 _ => change (input s) with (input s1) end.
  eapply (live_message (userpass_payload u p) _ pahomqtt_cs_socks5_userpass_reply 2 3); try done.
  - by destruct Hcl as [[] ? ? ? ?].
  - by apply st_accept.
  - etransitivity; [exact Hc|]. by rewrite app_assoc.
  - by apply expected_nil.
Qed.

Lemma wp_payload_at n part i b s (Q : Z -> Socks5St Script -> Prop) :
  filled n part s -> part !! i = Some b -> Q b s -> wp (payload_at i) s Q.
Proof.
  intros [E _] Hi HQ. unfold payload_at. apply wp_bind, wp_get. rewrite E. cbn [sp_payload].
  rewrite lookup_app_l by (rewrite length_map; by eapply lookup_lt_Some). rewrite list_lookup_fmap, Hi. by apply wp_ret.
Qed.

Lemma live_method s m :
  client s -> filled 2 [5; m] s ->
  (m = 0 /\ concat (input s) = reply ++ rest) \/
  (m = 2 /\ (exists u p, username = Some u /\ password = Some p) /\ concat (input s) = [1; 0] ++ reply ++ rest) ->
  wp read_method s (nearer (4 + List.length (input s))).
Proof.
  intros Hcl Hf Hm. unfold read_method. apply wp_bind, (wp_payload_at 2 [5; m] 0 5); [done|done|].
  change (negb (5 =? 5)) with false. cbv iota. apply wp_bind, (wp_payload_at 2 [5; m] 1 m); [done|done|].
  apply wp_bind, wp_modify. destruct Hm as [[-> Hc]|(-> & (u & p & Hu & Hp) & Hc)].
  - change (0 =? SOCKS_AUTH_NONE) with true. cbv iota. apply wp_bind, wp_modify.
    eapply wp_mono; [by apply live_request|]. intros rc s' [Hg [|(c & Hc' & Hl)]]; (split; [done|]); [by left|right].
    exists c. split; [lia|done].
  - change (2 =? SOCKS_AUTH_NONE) with false. change (2 =? SOCKS_AUTH_USERPASS) with true. cbv iota.
    apply wp_bind, wp_modify. by eapply live_userpass.
Qed.

Lemma live_auth s :
  client s -> filled 2 [1; 0] s -> concat (input s) = reply ++ rest ->
  wp read_auth s (nearer (3 + List.length (input s))).
Proof.
  intros Hcl Hf Hc. unfold read_auth. apply wp_bind, (wp_payload_at 2 [1; 0] 0 1); [done|done|].
  change (negb (1 =? 1)) with false. cbv iota. apply wp_bind, (wp_payload_at 2 [1; 0] 1 0); [done|done|].
  apply wp_bind, wp_modify. change (0 =? 0) with true. cbv iota. apply wp_bind, wp_modify. by apply live_request.
Qed.

(** The first five bytes of the reply tell how long it is. *)
Lemma live_head s part :
  client s -> filled 5 part s -> Zlen part = 5 -> s5_state s = pahomqtt_cs_socks5_request ->
  part ++ concat (input s) = reply ++ rest ->
  wp read_reply s (nearer (2 + List.length (input s))).
Proof.
  intros Hcl Hf Hl Hst Hc. destruct Hgranted as (r & Er).
  assert (exists a x l, r = a :: fst x :: snd x :: l /\ part = [5; 0; a; fst x; snd x]) as (a & [t x] & l & -> & ->).
  { revert Hc. rewrite Er. rewrite Er in Hmore. clear -Hl Hmore. destruct r as [|a [|t [|x l]]]; rewrite ?Zlen_cons, ?Zlen_nil in Hmore; try lia.
    destruct part as [|p0 [|p1 [|p2 [|p3 [|p4 [|p5 l2]]]]]]; rewrite ?Zlen_cons, ?Zlen_nil in Hl; try (pose proof (Zlen_nonneg l2)); try lia.
    intros [= -> -> -> -> -> _]. exists a, (t, x), l. done. }
  cbn [fst snd] in *. pose proof Hf as (E & _ & Hok). unfold read_reply. apply wp_bind, wp_get. rewrite E. cbn [sp_packet_length].
  change (5 =? 5) with true. cbv iota. apply wp_bind, (wp_payload_at 5 [5; 0; a; t; x] 3 t); [done|done|].
  assert (forall k, Zlen reply = 5 + k ->
    wp (_ ← more k; mret PAHOMQTT_ERR_NOT_FINISHED) s (nearer (2 + List.length (input s)))) as Hk.
  { intros k Hk. apply wp_bind, wp_modify, wp_ret. rewrite E. split; [by right|]. right. exists (1 + List.length (input s))%nat. split; [lia|].
    split; [by destruct Hcl as [[] ? ? ? ?]|]. exists 1%nat, (Zlen reply), reply, [5; 0; a; t; x]. cbn [s5_state set_in]. rewrite Hst.
    split; [constructor|]. split; [|split; [done|done]]. split; [|split; [rewrite Hl; lia|done]]. cbn [in_packet set_in sp_payload sp_packet_length sp_to_process sp_pos fmap option_fmap option_map].
    rewrite Hl, Hk. f_equal; [|lia]. f_equal. rewrite <- app_assoc. f_equal. by replace (5 + k - 5) with k by lia. }
  rewrite Er in Hlen. cbn [reply_length] in Hlen. rewrite <- Er in Hlen.
  destruct (Z.eqb_spec t SOCKS_ATYPE_IP_V4) as [->|H4]; [apply Hk; by injection Hlen|].
  destruct (Z.eqb_spec t SOCKS_ATYPE_IP_V6) as [->|H6]; [apply Hk; by injection Hlen|].
  destruct (Z.eqb_spec t SOCKS_ATYPE_DOMAINNAME) as [->|H3].
  - apply wp_bind, (wp_payload_at 5 [5; 0; a; 3; x] 4 x); [done|done|]. apply Hk. by injection Hlen.
  - exfalso. destruct (Z.eqb_spec t 1); [done|]. destruct (Z.eqb_spec t 4); [done|]. by destruct (Z.eqb_spec t 3).
Qed.

Lemma made_reply s :
  client s -> filled (Zlen reply) reply s -> concat (input s) = rest ->
  wp read_reply s (nearer (1 + List.length (input s))).
Proof.
  intros Hcl Hf Hc. destruct Hgranted as (r & Er). unfold read_reply. apply wp_bind, wp_get. pose proof Hf as (E & _ & _). rewrite E.
  cbn [sp_packet_length]. destruct (Z.eqb_spec (Zlen reply) 5); [lia|]. apply wp_bind, (wp_payload_at (Zlen reply) reply 0 5); [done|by rewrite Er|].
  change (negb (5 =? 5)) with false. cbv iota. apply wp_bind, (wp_payload_at (Zlen reply) reply 1 0); [done|by rewrite Er|].
  apply wp_bind, wp_modify. change (0 =? 0) with true. cbv iota. apply wp_bind, wp_modify, wp_ret. split; [by left|]. left.
  split; [done|]. split; [apply Hcl|done].
Qed.

(** What is expected is a prefix of what is to come. *)
Lemma stage_length st k n todo : stage st k n todo -> 0 <= n <= Zlen todo.
Proof.
  intros []; rewrite ?Zlen_app; pose proof (Zlen_nonneg reply); change (Zlen [1; 0]) with 2; change (Zlen [5; 0]) with 2;
    change (Zlen [5; 2; 1; 0]) with 4; lia.
Qed.

(** The answer that was expected is there. *)
Lemma live_answer k n todo part s (m : SM (Socks5St Script) Z) :
  client s -> stage (s5_state s) k n todo -> filled n part s -> Zlen part = n -> part ++ concat (input s) = todo ++ rest ->
  m = (if s5_state s =? pahomqtt_cs_socks5_start then read_method
       else if s5_state s =? pahomqtt_cs_socks5_userpass_reply then read_auth else read_reply) ->
  wp m s (nearer (k + List.length (input s))).
Proof.
  intros Hcl Hstage Hf Hl Hc ->.
  assert (forall a b l, Zlen part = 2 -> todo = a :: b :: l -> part = [a; b] /\ concat (input s) = l ++ rest) as H2.
  { intros a b l H2 Ht. destruct (list_2 _ H2) as (x & y & ->). rewrite Ht in Hc. by injection Hc as -> -> ?. }
  remember (s5_state s) as st eqn:Est. symmetry in Est. destruct Hstage.
  - apply app_inj_1 in Hc as [-> Hc]; [by apply made_reply|]. unfold Zlen in *. lia.
  - by eapply live_head.
  - destruct (H2 1 0 reply) as [-> Hc']; [done|done|]. by apply live_auth.
  - destruct (H2 5 0 reply) as [-> Hc']; [done|done|]. apply live_method with 0; [done|done|by left].
  - destruct (H2 5 2 (1 :: 0 :: reply)) as [-> Hc']; [done|done|]. apply live_method with 2; [done|done|right]. split_and!; [done|eauto|done].
Qed.

Lemma live_socks5__read c s : live c s -> wp socks5__read s (nearer c).
Proof.
  intros (Hcl & k & n & todo & part & Hstage & Hf & Hc & Hk).
  assert (forall m, m = (if s5_state s =? pahomqtt_cs_socks5_start then read_method
       else if s5_state s =? pahomqtt_cs_socks5_userpass_reply then read_auth else read_reply) ->
    wp (rc ← read_expected; match rc with Some rc => mret rc | None => m end) s (nearer c)) as Hafter.
  { intros m Hm. apply wp_bind. unfold read_expected. apply wp_bind, wp_get.
    eapply wp_mono; [apply (wp_read_pieces _ n part); [done|destruct Hf as [-> _]; cbn; lia|apply Hcl]|].
    intros r s' (d & o & Es & H1 & H2 & H3 & Hf' & H4 & H5).
    assert (client s' /\ s5_state s' = s5_state s /\ input s' = sc_input o) as (Hcl' & Est & Ei).
    { rewrite Es. split; [|done]. destruct Hcl as [[] ? ? ? ?]. split; try done. split; cbn; congruence. }
    assert ((part ++ d) ++ concat (input s') = todo ++ rest) as Hc' by (by rewrite Ei, <- app_assoc, <- H2).
    destruct H5 as [[-> Hl]|(-> & Hl & H5)].
    - eapply wp_mono; [eapply live_answer; [exact Hcl'|by rewrite Est|exact Hf'|exact Hl|exact Hc'|by rewrite Est]|].
      rewrite Ei. intros rc s2 [Hg [|(c' & Hlt & Hl')]]; (split; [done|]); [by left|right]. exists c'. split; [lia|done].
    - apply wp_ret. split; [by left|]. right. destruct H5 as [H5|H5].
      + exists (k + List.length (sc_input o))%nat. unfold input in *. split; [lia|]. split; [done|]. exists k, n, todo, (part ++ d).
        rewrite Est. split_and!; try done. unfold input. rewrite Ei. lia.
      + exfalso. rewrite Ei, H5 in Hc'. cbn in Hc'. rewrite app_nil_r in Hc'. pose proof (stage_length _ _ _ _ Hstage).
        rewrite Hc', Zlen_app in Hl. pose proof (Zlen_nonneg rest). lia. }
  unfold socks5__read. apply wp_bind, wp_get.
  destruct (Z.eqb_spec (s5_state s) pahomqtt_cs_socks5_start) as [_|E1]; [by apply Hafter|].
  destruct (Z.eqb_spec (s5_state s) pahomqtt_cs_socks5_userpass_reply) as [_|E2]; [by apply Hafter|].
  destruct (Z.eqb_spec (s5_state s) pahomqtt_cs_socks5_request) as [_|E]; [by apply Hafter|]. exfalso. inversion Hstage; congruence.
Qed.

Lemma made_stays n s : made s -> reads n s = Ok (PAHOMQTT_ERR_SUCCESS, s).
Proof.
  intros (Hst & _). induction n as [|n IH]; [done|]. cbn [reads]. rewrite (sm_bind_run _ _ s 0 s); [exact IH|].
  unfold socks5__read. rewrite (sm_bind_run sm_get _ s s s) by done. by rewrite Hst.
Qed.

Lemma live_reads n c s : (c <= n)%nat -> live c s -> wp (reads n) s (fun rc s' => rc = PAHOMQTT_ERR_SUCCESS /\ made s').
Proof.
  revert c s. induction n as [|n IH]; intros c s Hle Hl.
  { destruct Hl as (_ & k & m & todo & part & Hstage & _ & _ & Hk). destruct Hstage; lia. }
  cbn [reads]. apply wp_bind. eapply wp_mono; [by apply live_socks5__read|]. intros rc s' [Hg Hn].
  apply goes_on_spec in Hg as ->. destruct Hn as [Hm|(c' & Hc' & Hl')].
  - do 2 eexists. split; [by apply made_stays|done].
  - apply (IH c'); [lia|done].
Qed.

End With.

Lemma connects_heard (s : Socks5St Script) (method reply rest : list Z) :
  out_packet s = [] -> s5_socket s <> INVALID_SOCKET -> sc_limits (s5_os s) = [] -> Forall bytes_ok (input s) ->
  request_payload (serverURI s) <> None ->
  concat (input s) = method ++ 5 :: 0 :: reply ++ rest ->
  method = [5; 0] \/ (method = [5; 2; 1; 0] /\ socks5_username s <> None /\ socks5_password s <> None) ->
  reply_length (5 :: 0 :: reply) = Some (Zlen (5 :: 0 :: reply)) -> 5 < Zlen (5 :: 0 :: reply) ->
  wp (negotiate (4 + List.length (input s))) s (fun rc s' =>
    rc = PAHOMQTT_ERR_SUCCESS /\ s5_state s' = pahomqtt_cs_new /\ out_packet s' = [] /\ concat (input s') = rest).
Proof.
  intros Ho Hk Hl Hb Hreq Hc Hm Hr H5. unfold negotiate. apply wp_bind. unfold socks5_begin. apply wp_bind, wp_modify.
  unfold socks5__send. apply wp_bind, wp_get. cbn [s5_state set_state].
  change (pahomqtt_cs_socks5_new =? pahomqtt_cs_socks5_new) with true. cbv iota. apply wp_bind, wp_modify, wp_bind, wp_modify.
  set (s1 := set_in _ _).
  assert (exists todo, stage (socks5_username s) (socks5_password s) (5 :: 0 :: reply) pahomqtt_cs_socks5_start 4 2 todo /\
    concat (input s) = todo ++ rest) as (todo & Hstage & Ht).
  { rewrite Hc. destruct Hm as [-> |(-> & Hu & Hp)]; [eexists; split; [apply st_none|done]|].
    destruct (socks5_username s) eqn:E1; [|done]. destruct (socks5_password s) eqn:E2; [|done].
    eexists. split; [by eapply st_userpass|done]. }
  eapply wp_mono; [eapply (live_message (socks5_username s) (socks5_password s) (serverURI s) (5 :: 0 :: reply) rest _ s1 pahomqtt_cs_socks5_start 2 4 todo); try done|].
  - unfold greeting_payload. cbn. by destruct (socks5_username s).
  - by apply expected_nil.
  - intros rc s' [_ [(H1 & H2 & H3)|(c & Hlt & Hlive)]].
    + eexists _, _. split; [by apply (made_stays rest)|]. by split_and!.
    + eapply wp_mono; [eapply live_reads; [exact Hreq|exact Hr|exact H5|by eexists| |exact Hlive]; cbn in Hlt; unfold input in *; cbn in Hlt; lia|].
      intros rc' s2 (-> & H1 & H2 & H3). by split_and!.
Qed.

(** C39. SOCKS5 connects.  When the proxy accepts the client, with or without a password
    and with an address of any of the three types, the negotiation ends and the
    connection is made, in a bounded number of calls of [socks5__read], however the
    answers are cut into pieces and whenever there is nothing to read in between.  The
    connection takes each message whole; the server's text is an address or a name of at
    most 255 bytes; a domain name in the reply is not empty, and its port is left in the
    stream in front of what follows, which is not touched. *)
Theorem socks5_connects (s : Socks5St Script) (method reply port rest : list Z) :
  out_packet s = [] -> s5_socket s <> INVALID_SOCKET -> sc_limits (s5_os s) = [] -> Forall bytes_ok (input s) ->
  (exists m, asks (serverURI s) m) ->
  concat (input s) = method ++ 5 :: 0 :: reply ++ port ++ rest ->
  method = [5; 0] \/ (method = [5; 2; 1; 0] /\ socks5_username s <> None /\ socks5_password s <> None) ->
  rfc_reply (5 :: 0 :: reply ++ port) -> Zlen port = unread (5 :: 0 :: reply) -> 5 < Zlen (5 :: 0 :: reply) ->
  wp (negotiate (4 + List.length (input s))) s (fun rc s' =>
    rc = PAHOMQTT_ERR_SUCCESS /\ s5_state s' = pahomqtt_cs_new /\ out_packet s' = [] /\ concat (input s') = port ++ rest).
Proof.
  intros Ho Hk Hl Hb (m & Hm) Hc Hmeth Hr Hport H5. apply (connects_heard s method reply (port ++ rest)); try done.
  - unfold request_payload. destruct Hm as [a E|a E1 E2|E1 E2 Hu]; rewrite ?E, ?E1, ?E2; [done|done|].
    destruct (Z.ltb_spec UCHAR_MAX (Zlen (serverURI s))) as [H6|]; [|done]. unfold UCHAR_MAX in H6. lia.
  - apply reply_heard. exists port. split; [exact Hr|]. split; [done|lia].
Qed.

End Connects.

(** ** Examples *)

(** A server that has a name, and proxies. *)
#[local] Instance names_only : InetPton := { inet_pton4 _ := None; inet_pton6 _ := None }.

Definition client_of (user pass : option (list Z)) (pieces : list (list Z)) : Socks5St Script :=
  mkS5 7 pahomqtt_cs_new (mkPacket None 0 0 0) [] user pass [97; 46; 98] (mkScript pieces [] [] []).

(** With a password, an IPv4 address and a byte of the server that follows. *)
Definition accepting : Socks5St Script :=
  client_of (Some [117]) (Some [112]) [[5]; []; [2; 1]; [0; 5]; [0; 0; 1]; []; [10; 0; 0; 1; 7; 91; 32]].
Definition refusing : Socks5St Script := client_of None None [[5; 255]].
Definition nameless : Socks5St Script := client_of None None [[5; 0]; []; [5; 0; 0; 3; 0]].

(** The state after [n] calls, and after one more. *)
Definition after (n : nat) (s : Socks5St Script) : Socks5St Script :=
  match negotiate n s with Ok (_, s') => s' | _ => s end.
Definition one_more (s : Socks5St Script) : Socks5St Script :=
  match socks5__read s with Ok (_, s') => s' | _ => s end.

Lemma socks5_refines_witness :
  negotiate 11 accepting = Ok (PAHOMQTT_ERR_SUCCESS, after 11 accepting) /\
  s5_state (after 11 accepting) = pahomqtt_cs_new /\
  exists out pre reply, rfc_dialogue (Some [117]) (Some [112]) [97; 46; 98] Granted out (pre ++ 5 :: 0 :: reply).
Proof.
  assert (negotiate 11 accepting = Ok (PAHOMQTT_ERR_SUCCESS, after 11 accepting)) as E by (vm_compute; reflexivity).
  assert (s5_state (after 11 accepting) = pahomqtt_cs_new) as Hst by (vm_compute; reflexivity).
  assert (Zlen [117] <= 255 /\ Zlen [112] <= 255) as [Hu Hp] by (vm_compute; split; discriminate).
  destruct (wpo_Ok _ _ _ _ _ _ (socks5_refines 11 accepting eq_refl Hu Hp) E) as [_ Hr].
  split; [exact E|]. split; [exact Hst|]. destruct (Hr Hst) as (out & pre & reply & port & (Hd & _) & _). exists out, pre, reply.
  exact Hd.
Defined.

Lemma socks5_connects_witness :
  wp (negotiate (4 + List.length (input accepting))) accepting (fun rc s' =>
    rc = PAHOMQTT_ERR_SUCCESS /\ s5_state s' = pahomqtt_cs_new /\ out_packet s' = [] /\ concat (input s') = [32]).
Proof.
  apply (socks5_connects accepting [5; 2; 1; 0] [0; 1; 10; 0; 0; 1; 7; 91] [] [32]); try reflexivity; try discriminate.
  - repeat constructor; vm_compute; (try split); try discriminate; reflexivity.
  - eexists. apply asks_name; [reflexivity|reflexivity|discriminate].
  - right. split; [reflexivity|]. split; discriminate.
Defined.

Lemma failed_read_crashes_witness :
  negotiate 0 refusing = Ok (PAHOMQTT_ERR_SUCCESS, after 0 refusing) /\
  socks5__read (after 0 refusing) = Ok (PAHOMQTT_ERR_AUTH, one_more (after 0 refusing)) /\
  socks5__read (one_more (after 0 refusing)) = Oob.
Proof.
  assert (negotiate 0 refusing = Ok (PAHOMQTT_ERR_SUCCESS, after 0 refusing)) as E1 by (vm_compute; reflexivity).
  assert (socks5__read (after 0 refusing) = Ok (PAHOMQTT_ERR_AUTH, one_more (after 0 refusing))) as E2 by (vm_compute; reflexivity).
  assert (s5_state (one_more (after 0 refusing)) = pahomqtt_cs_socks5_start) as H2 by (vm_compute; reflexivity).
  assert (s5_state (after 0 refusing) = pahomqtt_cs_socks5_start) as H1 by (vm_compute; reflexivity).
  split; [exact E1|]. split; [exact E2|].
  apply (failed_read_crashes 0 refusing _ _ PAHOMQTT_ERR_SUCCESS PAHOMQTT_ERR_AUTH eq_refl E1); [by left|exact E2|discriminate|discriminate| |].
  - by rewrite H1, H2.
  - left. exact H2.
Defined.

Lemma socks5_turn_ends_witness :
  negotiate 2 nameless = Ok (PAHOMQTT_ERR_SUCCESS, after 2 nameless) /\ forall fuel, read_turn fuel (after 2 nameless) = Fail.
Proof.
  assert (negotiate 2 nameless = Ok (PAHOMQTT_ERR_SUCCESS, after 2 nameless)) as E by (vm_compute; reflexivity).
  assert (read_turn 2 (after 2 nameless) = Fail) as E2 by (vm_compute; reflexivity).
  split; [exact E|]. destruct (socks5_turn_ends 2 nameless _ _ eq_refl E) as [H|[H _]]; [by left| |exact H].
  exfalso. exact (wpo_not_fail _ _ _ _ H E2).
Defined.

End Socks5.
