(* ===== verification/WsFrames.v ===== *)
(** * WebSocket frames ([src/src/WebSocket.c])

    The frames the client sends: their header, the mask, and what the buffers of a
    packet look like afterwards, against the framing of RFC 6455. *)

From S2P Require Import Prelude.
From S2P Require Import Clients.
From S2P Require Import Socket.
From Stdlib Require Import ZArith Lia List.
From stdpp Require Import base numbers list gmap.

Open Scope Z_scope.

Module WsFrames.
Import Clients Socket.

(** ** Constants *)

Definition WebSocket_OP_CONTINUE : Z := 0.
Definition WebSocket_OP_BINARY : Z := 2.
Definition WebSocket_OP_CLOSE : Z := 8.
Definition WebSocket_OP_PING : Z := 9.
Definition WebSocket_OP_PONG : Z := 10.
Definition WebSocket_CLOSE_NORMAL : Z := 1000.
Definition WebSocket_CLOSE_GOING_AWAY : Z := 1001.
Definition WebSocket_CLOSE_TLS_FAIL : Z := 1015.

(** ** Building a frame *)

(** [WebSocket_calculateFrameHeaderSize] *)
Definition WebSocket_calculateFrameHeaderSize (websocket : bool) (mask_data data_len : Z) : Z :=
  if websocket then
    (if data_len <? 126 then 2 else if data_len <? 65536 then 4 else if data_len <? 18446744073709551615 then 10 else 0) +
    (if Z.land mask_data 1 =? 0 then 0 else 4)
  else 0.

(** [htobe16] and [htobe64] stored: the [n] low bytes, the highest first. *)
Fixpoint be (n : nat) (v : Z) : list Z :=
  match n with
  | O => []
  | S n => (v / 256 ^ Z.of_nat n) mod 256 :: be n v
  end.

(** The bytes of the header up to the mask; [None] for a length that is too large. *)
Definition frame_header (opcode mask_data data_len : Z) : option (list Z) :=
  let b0 := Z.lor 128 (Z.land opcode 15) in
  let b1 := Z.shiftl (Z.land mask_data 1) 7 in
  if data_len <? 126 then Some [b0; Z.lor b1 (Z.land data_len 127)]
  else if data_len <? 65536 then Some ([b0; Z.lor b1 126] ++ be 2 data_len)
  else if data_len <? 18446744073709551615 then Some ([b0; Z.lor b1 127] ++ be 8 data_len)
  else None.

(** The exclusive or of a buffer with the mask, from index [idx] of the payload on. *)
Fixpoint xor_mask (mask : list Z) (idx : nat) (l : list Z) : list Z :=
  match l with
  | [] => []
  | b :: r => Z.lxor b (nth (idx mod 4) mask 0) :: xor_mask mask (S idx) r
  end.

(** The loop over the buffers.  When the mask is an old one it stops at the third buffer
    or the last. *)
Fixpoint mask_buffers (mask : list Z) (new_mask : bool) (count i idx : nat) (bufs : list (list Z)) : list (list Z) :=
  match bufs with
  | [] => []
  | b :: r =>
      if negb new_mask && ((i =? 2)%nat || (i =? count - 1)%nat) then bufs
      else xor_mask mask idx b :: mask_buffers mask new_mask count (S i) (idx + length b) r
  end.

(** [WebSocket_buildFrame]: the buffer with the header, the other buffers and the mask.
    [random] is what the random numbers give if they are drawn.  A length that is too
    large makes it write before its buffer. *)
Definition WebSocket_buildFrame (opcode mask_data : Z) (random : list Z) (buf0 : list Z) (bufs : list (list Z)) (mask : list Z)
    : res (list Z * list (list Z) * list Z) :=
  let data_len := foldl (fun t b => t + Zlen b) (Zlen buf0) bufs in
  let new_mask := negb (mask_data =? 0) && (nth 0 mask 0 =? 0) in
  let mask := if new_mask then random else mask in
  match frame_header opcode mask_data data_len with
  | None => Oob
  | Some h =>
      if mask_data =? 0 then Ok (h ++ buf0, bufs, mask)
      else Ok (h ++ mask ++ xor_mask mask 0 buf0, mask_buffers mask new_mask (length bufs) 0 (length buf0) bufs, mask)
  end.

(** [WebSocket_unmaskData] *)
Fixpoint unmask_buffers (mask : list Z) (idx : nat) (bufs : list (list Z)) : list (list Z) :=
  match bufs with
  | [] => []
  | b :: r => xor_mask mask idx b :: unmask_buffers mask (idx + length b) r
  end.
Definition WebSocket_unmaskData (idx : nat) (bufs : list (list Z)) (mask : list Z) : list (list Z) * list Z :=
  (unmask_buffers mask idx bufs, [0; 0; 0; 0]).

(** [rand] *)
Class SysRand (OS : Type) := sys_rand : OS -> Z * OS.

Section Putdatas.
Context {OS : Type} `{Sys OS} `{SysRand OS}.
Abbreviation M := (SM (SockSt OS)).

(** [rand() % UINT8_MAX], four times. *)
Definition random_byte : M Z := r ← call_os sys_rand; mret (r mod 255).
Definition random_mask : M (list Z) :=
  a ← random_byte; b ← random_byte; c ← random_byte; d ← random_byte; mret [a; b; c; d].

(** The frame is built; the random numbers are drawn when there is no mask yet. *)
Definition build (opcode mask_data : Z) (buf0 : list Z) (bufs : list (list Z)) (mask : list Z) : M (list Z * list (list Z) * list Z) :=
  random ← (if negb (mask_data =? 0) && (nth 0 mask 0 =? 0) then random_mask else mret mask);
  sm_lift (WebSocket_buildFrame opcode mask_data random buf0 bufs mask).

(** [WebSocket_putdatas]: also the buffers and the mask. *)
Definition WebSocket_putdatas (sk : Z) (websocket : bool) (buf0 : list Z) (bufs : list (list Z)) (mask frees : list Z)
    : M (Z * list (list Z) * list Z) :=
  if websocket then
    '(wsbuf0, bufs', mask') ← build WebSocket_OP_BINARY 1 buf0 bufs mask;
    rc ← Socket_putdatas sk wsbuf0 bufs' frees;
    if rc =? TCPSOCKET_INTERRUPTED then mret (rc, bufs', mask')
    else
      let '(bufs'', mask'') := WebSocket_unmaskData (length buf0) bufs' mask' in
      mret (rc, bufs'', mask'')
  else
    rc ← Socket_putdatas sk buf0 bufs frees;
    mret (rc, bufs, mask).

End Putdatas.

(** ** The framing of RFC 6455 *)

(** The value of bytes, the highest first. *)
Definition be_value (l : list Z) : Z := fold_left (fun v b => 256 * v + b) l 0.

Record frame := mkFrame {
  f_fin : bool;
  f_opcode : Z;
  f_masked : bool;
  f_payload : list Z
}.

(** The first frame of a stream, without extensions, and what follows it.  A length has
    its shortest form. *)
Definition decode_length (len7 : Z) (r : list Z) : option (Z * list Z) :=
  if len7 <? 126 then Some (len7, r)
  else
    let n := if len7 =? 126 then 2%nat else 8%nat in
    if (length r <? n)%nat then None
    else
      let len := be_value (take n r) in
      if (if len7 =? 126 then 126 <=? len else (65536 <=? len) && (len <? 9223372036854775808))
      then Some (len, drop n r) else None.
Definition decode_frame (l : list Z) : option (frame * list Z) :=
  match l with
  | b0 :: b1 :: r =>
      if negb ((b0 / 16) mod 8 =? 0) then None
      else
        '(len, r) ← decode_length (b1 mod 128) r;
        let masked := 128 <=? b1 in
        if masked && (length r <? 4)%nat then None
        else
          let '(key, r) := if masked then (take 4 r, drop 4 r) else ([], r) in
          if Zlen r <? len then None
          else
            let payload := take (Z.to_nat len) r in
            Some (mkFrame (128 <=? b0) (b0 mod 16) masked (if masked then xor_mask key 0 payload else payload),
                  drop (Z.to_nat len) r)
  | _ => None
  end.

(** A frame as it is written, with its key if it has a mask. *)
Definition length_bytes (masked : bool) (n : Z) : list Z :=
  let m := if masked then 128 else 0 in
  if n <? 126 then [m + n] else if n <? 65536 then (m + 126) :: be 2 n else (m + 127) :: be 8 n.
Definition encode_frame (f : frame) (key : list Z) : list Z :=
  ((if f_fin f then 128 else 0) + f_opcode f) :: length_bytes (f_masked f) (Zlen (f_payload f)) ++
  (if f_masked f then key ++ xor_mask key 0 (f_payload f) else f_payload f).
Definition frame_ok (f : frame) (key : list Z) : Prop :=
  0 <= f_opcode f < 16 /\ Zlen (f_payload f) < 9223372036854775808 /\ length key = 4%nat.

(** ** Masks *)

Lemma xor_mask_length mask idx l : length (xor_mask mask idx l) = length l.
Proof. revert idx. induction l as [|b l IH]; intros idx; cbn; [done|]. by rewrite IH. Qed.

Lemma Zlen_xor_mask mask idx l : Zlen (xor_mask mask idx l) = Zlen l.
Proof. unfold Zlen. by rewrite xor_mask_length. Qed.

Lemma xor_mask_app mask idx l k : xor_mask mask idx (l ++ k) = xor_mask mask idx l ++ xor_mask mask (idx + length l) k.
Proof.
  revert idx. induction l as [|b l IH]; intros idx; cbn [app xor_mask length]; [by rewrite Nat.add_0_r|].
  by rewrite IH, Nat.add_succ_comm.
Qed.

Lemma xor_mask_involutive mask idx l : xor_mask mask idx (xor_mask mask idx l) = l.
Proof.
  revert idx. induction l as [|b l IH]; intros idx; cbn; [done|].
  by rewrite IH, Z.lxor_assoc, Z.lxor_nilpotent, Z.lxor_0_r.
Qed.

Lemma mask_buffers_new mask count i idx bufs : mask_buffers mask true count i idx bufs = unmask_buffers mask idx bufs.
Proof. revert i idx. induction bufs as [|b r IH]; intros i idx; cbn; [done|]. by rewrite IH. Qed.

Lemma concat_unmask mask idx bufs : concat (unmask_buffers mask idx bufs) = xor_mask mask idx (concat bufs).
Proof. revert idx. induction bufs as [|b r IH]; intros idx; cbn; [done|]. by rewrite IH, xor_mask_app. Qed.

Lemma unmask_involutive mask idx bufs : unmask_buffers mask idx (unmask_buffers mask idx bufs) = bufs.
Proof.
  revert idx. induction bufs as [|b r IH]; intros idx; cbn; [done|]. by rewrite xor_mask_involutive, xor_mask_length, IH.
Qed.

Lemma total_length (bufs : list (list Z)) n : foldl (fun t b => t + Zlen b) n bufs = n + Zlen (concat bufs).
Proof.
  revert n. induction bufs as [|b r IH]; intros n; cbn; [rewrite Zlen_nil; lia|]. rewrite IH, Zlen_app. lia.
Qed.

(** ** Lengths *)

Lemma be_length n v : length (be n v) = n.
Proof. induction n; cbn; [done|]. by rewrite IHn. Qed.

Lemma be_value_from x l : fold_left (fun v b => 256 * v + b) l x = x * 256 ^ Zlen l + be_value l.
Proof.
  unfold be_value. revert x. induction l as [|b l IH]; intros x; cbn [fold_left]; [rewrite Zlen_nil, Z.pow_0_r; lia|].
  rewrite IH, (IH (256 * 0 + b)), Zlen_cons, Z.pow_add_r by (try lia; apply Zlen_nonneg). lia.
Qed.

Lemma be_value_be n v : be_value (be n v) = v mod 256 ^ Z.of_nat n.
Proof.
  induction n as [|n IH]; [by rewrite Z.mod_1_r|]. cbn [be]. unfold be_value. cbn [fold_left]. rewrite be_value_from, IH.
  unfold Zlen. rewrite be_length, Nat2Z.inj_succ, Z.pow_succ_r by lia.
  rewrite (Z.mul_comm 256 (256 ^ _)), Z.rem_mul_r by lia. lia.
Qed.

Lemma lor_128 b : 0 <= b < 128 -> Z.lor 128 b = 128 + b.
Proof.
  intros Hb. assert (forallb (fun b => (128 <=? b) || (Z.lor 128 b =? 128 + b)) (seqZ 0 256) = true) as H by (by vm_compute).
  pose proof (byte_forall _ H b) as E. cbv beta in E. apply orb_true_iff in E; [|unfold byte_ok; lia].
  destruct E as [E|E]; [apply Z.leb_le in E; lia|by apply Z.eqb_eq].
Qed.

Lemma decode_length_bytes masked n r :
  0 <= n < 9223372036854775808 ->
  exists b1 l, length_bytes masked n = b1 :: l /\ (128 <=? b1) = masked /\ decode_length (b1 mod 128) (l ++ r) = Some (n, r).
Proof.
  intros Hn. unfold length_bytes. set (m := if masked then 128 else 0).
  assert (forall k, 0 <= k < 128 -> (128 <=? m + k) = masked /\ (m + k) mod 128 = k) as Hm.
  { intros k Hk. unfold m. destruct masked; (split; [apply Z.leb_le || apply Z.leb_gt; lia|]).
    - replace (128 + k) with (k + 1 * 128) by lia. rewrite Z_mod_plus_full. by apply Z.mod_small.
    - rewrite Z.add_0_l. by apply Z.mod_small. }
  assert (forall k, 126 <= n < 256 ^ Z.of_nat k -> be_value (take k (be k n ++ r)) = n /\ drop k (be k n ++ r) = r /\
    (length (be k n ++ r) <? k)%nat = false) as Hbe.
  { intros k Hk. rewrite take_app_le, take_ge, drop_app_ge, be_length, Nat.sub_diag, drop_0 by (rewrite be_length; lia).
    rewrite be_value_be, Z.mod_small by lia. split; [done|]. split; [done|]. apply Nat.ltb_ge. rewrite length_app, be_length. lia. }
  unfold decode_length. destruct (Z.ltb_spec n 126) as [H1|H1].
  - destruct (Hm n) as [E1 E2]; [lia|]. exists (m + n), []. rewrite E2. split; [done|]. split; [done|].
    by rewrite (proj2 (Z.ltb_lt _ _) H1).
  - destruct (Z.ltb_spec n 65536) as [H2|H2].
    + destruct (Hm 126) as [E1 E2]; [lia|]. exists (m + 126), (be 2 n). rewrite E2. split; [done|]. split; [done|].
      destruct (Hbe 2%nat) as (B1 & B2 & B3); [cbn; lia|].
      change (126 <? 126) with false. change (126 =? 126) with true. cbv iota zeta. rewrite B3, B1, B2.
      by rewrite (proj2 (Z.leb_le _ _) H1).
    + destruct (Hm 127) as [E1 E2]; [lia|]. exists (m + 127), (be 8 n). rewrite E2. split; [done|]. split; [done|].
      destruct (Hbe 8%nat) as (B1 & B2 & B3); [cbn; lia|].
      change (127 <? 126) with false. change (127 =? 126) with false. cbv iota zeta. rewrite B3, B1, B2.
      rewrite (proj2 (Z.leb_le _ _) H2), (proj2 (Z.ltb_lt n _)) by lia. done.
Qed.

(** What is written as a frame is read as that frame. *)
Lemma decode_encode f key k : frame_ok f key -> decode_frame (encode_frame f key ++ k) = Some (f, k).
Proof.
  destruct f as [fin op masked p]. intros (Hop & Hp & Hkey). cbn [f_opcode f_payload] in *. unfold encode_frame. cbn [f_fin f_opcode f_masked f_payload].
  set (b0 := (if fin then 128 else 0) + op).
  assert ((b0 / 16) mod 8 = 0 /\ b0 mod 16 = op /\ (128 <=? b0) = fin) as (B1 & B2 & B3).
  { unfold b0. destruct fin; (split; [|split; [|apply Z.leb_le || apply Z.leb_gt; lia]]); dlia. }
  destruct (decode_length_bytes masked (Zlen p) ((if masked then key ++ xor_mask key 0 p else p) ++ k)) as (b1 & l & E & Em & El);
    [pose proof (Zlen_nonneg p); lia|].
  rewrite E. cbn [app]. unfold decode_frame. rewrite B1. change (negb (0 =? 0)) with false. cbv iota.
  rewrite <- app_assoc, El. cbn [mbind option_bind]. rewrite Em, B2, B3. destruct masked.
  - cbn [andb]. rewrite <- !app_assoc.
    destruct (Nat.ltb_spec (length (key ++ xor_mask key 0 p ++ k)) 4); [rewrite length_app in *; lia|].
    rewrite <- Hkey, take_app_exact, drop_app_exact. rewrite <- (Zlen_xor_mask key 0 p).
    destruct (Z.ltb_spec (Zlen (xor_mask key 0 p ++ k)) (Zlen (xor_mask key 0 p))) as [Hbad|_];
      [rewrite Zlen_app in Hbad; pose proof (Zlen_nonneg k); lia|].
    rewrite Zlen_to_nat, take_app_exact, drop_app_exact. by rewrite xor_mask_involutive.
  - cbn [andb]. destruct (Z.ltb_spec (Zlen (p ++ k)) (Zlen p)) as [Hbad|_]; [rewrite Zlen_app in Hbad; pose proof (Zlen_nonneg k); lia|].
    by rewrite Zlen_to_nat, take_app_exact, drop_app_exact.
Qed.

(** ** The frames of the client *)

Lemma frame_header_spec opcode n :
  0 <= opcode < 16 -> 0 <= n < 18446744073709551615 ->
  frame_header opcode 1 n = Some ((128 + opcode) :: length_bytes true n).
Proof.
  intros Hop Hn. unfold frame_header. change 15 with (Z.ones 4). change 127 with (Z.ones 7) at 1. rewrite !Z.land_ones by lia.
  rewrite (Z.mod_small opcode) by lia. rewrite lor_128 by lia. change (Z.shiftl (Z.land 1 1) 7) with 128. unfold length_bytes.
  destruct (Z.ltb_spec n 126); [|destruct (Z.ltb_spec n 65536); [done|]; by rewrite (proj2 (Z.ltb_lt _ _) (proj2 Hn))].
  change (2 ^ 7) with 128. rewrite Z.mod_small, lor_128 by lia. done.
Qed.

(** A frame with a new mask. *)
Lemma buildFrame_spec opcode random buf0 bufs mask :
  0 <= opcode < 16 -> Zlen (buf0 ++ concat bufs) < 18446744073709551615 -> nth 0 mask 0 = 0 ->
  WebSocket_buildFrame opcode 1 random buf0 bufs mask =
    Ok ((128 + opcode) :: length_bytes true (Zlen (buf0 ++ concat bufs)) ++ random ++ xor_mask random 0 buf0,
        unmask_buffers random (length buf0) bufs, random).
Proof.
  intros Hop Hn Hm. unfold WebSocket_buildFrame. rewrite total_length, <- Zlen_app, Hm. change (negb (1 =? 0) && (0 =? 0)) with true.
  cbv iota zeta. rewrite frame_header_spec by (done || (split; [apply Zlen_nonneg|done])). change (1 =? 0) with false. cbv iota.
  by rewrite mask_buffers_new.
Qed.

(** C11. WebSocket frames.  The frame built for the buffers of a packet that has not been
    masked before, with a mask of four bytes, is read under RFC 6455 as one final and
    masked frame with the bytes of the buffers as its payload; its header has the size
    that [WebSocket_calculateFrameHeaderSize] announces; and [WebSocket_unmaskData] gives
    the buffers and the empty mask back. *)
Theorem frame_roundtrip (opcode : Z) (random mask buf0 : list Z) (bufs : list (list Z)) (more : list Z) :
  0 <= opcode < 16 -> length random = 4%nat -> nth 0 mask 0 = 0 -> Zlen (buf0 ++ concat bufs) < 9223372036854775808 ->
  exists wsbuf0 bufs' mask', WebSocket_buildFrame opcode 1 random buf0 bufs mask = Ok (wsbuf0, bufs', mask') /\
    decode_frame (wsbuf0 ++ concat bufs' ++ more) = Some (mkFrame true opcode true (buf0 ++ concat bufs), more) /\
    Zlen wsbuf0 = Zlen buf0 + WebSocket_calculateFrameHeaderSize true 1 (Zlen (buf0 ++ concat bufs)) /\
    WebSocket_unmaskData (length buf0) bufs' mask' = (bufs, [0; 0; 0; 0]).
Proof.
  intros Hop Hr Hm Hn. rewrite buildFrame_spec by (done || lia). do 3 eexists. split; [done|]. split; [|split].
  - rewrite <- (decode_encode (mkFrame true opcode true (buf0 ++ concat bufs)) random) by (split; [done|split; [done|exact Hr]]). f_equal.
    unfold encode_frame. cbn [f_fin f_opcode f_masked f_payload app]. rewrite concat_unmask, xor_mask_app, Nat.add_0_l. by rewrite <- !app_assoc.
  - assert (Zlen random = 4) as Hr4 by (unfold Zlen; by rewrite Hr). set (n := Zlen (buf0 ++ concat bufs)) in *.
    unfold WebSocket_calculateFrameHeaderSize. change (Z.land 1 1 =? 0) with false. cbv iota.
    assert (1 + Zlen (length_bytes true n) =
      (if n <? 126 then 2 else if n <? 65536 then 4 else if n <? 18446744073709551615 then 10 else 0)) as <-.
    { unfold length_bytes. destruct (Z.ltb_spec n 126); [done|].
      destruct (Z.ltb_spec n 65536); [|rewrite (proj2 (Z.ltb_lt n _)) by lia]; rewrite Zlen_cons; unfold Zlen; rewrite be_length; lia. }
    rewrite Zlen_cons, !Zlen_app, Zlen_xor_mask, Hr4. lia.
  - unfold WebSocket_unmaskData. by rewrite unmask_involutive.
Qed.

Lemma frame_roundtrip_witness :
  WebSocket_buildFrame 2 1 [7; 11; 13; 17] [50; 6] [[0; 1]; [116]; [0; 9]; [80]] [0; 0; 0; 0] =
    Ok ([130; 136; 7; 11; 13; 17; 53; 13], [[13; 16]; [115]; [11; 4]; [65]], [7; 11; 13; 17]) /\
  decode_frame ([130; 136; 7; 11; 13; 17; 53; 13] ++ [13; 16; 115; 11; 4; 65] ++ [1]) =
    Some (mkFrame true 2 true [50; 6; 0; 1; 116; 0; 9; 80], [1]).
Proof.
  destruct (frame_roundtrip 2 [7; 11; 13; 17] [0; 0; 0; 0] [50; 6] [[0; 1]; [116]; [0; 9]; [80]] [1]) as (w & b & m & E & D & _);
    [done|done|done|done|].
  vm_compute in E. injection E as <- <- <-. split; [reflexivity|exact D].
Defined.

(** A PUBLISH that was interrupted and is sent again, with the topic and the payload
    masked and the mask kept: the topic is masked again, the identifier is not masked. *)
Example retry_corrupts :
  match WebSocket_buildFrame 2 1 [7; 11; 13; 17] [50; 6] [[0; 1]; [116]; [0; 9]; [80]] [0; 0; 0; 0] with
  | Ok (_, b, m) =>
      match WebSocket_buildFrame 2 1 [1; 2; 3; 4] [58; 6] [[0; 1]; nth 1 b []; [0; 9]; nth 3 b []] m with
      | Ok (w, b, _) => fst <$> decode_frame (w ++ concat b)
      | _ => None
      end
  | _ => None
  end = Some (mkFrame true 2 true [58; 6; 0; 1; 115; 11; 4; 80]).
Proof. by vm_compute. Qed.

End WsFrames.
