(* ===== verification/WsReads.v ===== *)
(** * Receiving WebSocket frames ([src/src/WebSocket.c])

    The raw bytes of a frame are kept until the whole frame is there, its payload goes
    to the frame at the head of the queue, from which [WebSocket_getch] and
    [WebSocket_getdata] read; PING is answered and CLOSE ends the connection.  The
    sockets are those of [Socket]. *)

From S2P Require Import Prelude.
From S2P Require Import LinkedList.
From S2P Require Import Clients.
From S2P Require Import Socket.
From S2P Require Import Reads.
From S2P Require Import WsFrames.
From Stdlib Require Import ZArith Lia List.
From stdpp Require Import base numbers list gmap.

Open Scope Z_scope.

Module WsReads.
Import LinkedList Clients Socket Reads WsFrames.

(** ** The state *)

(** [ws_frame], with its data. *)
Record ws_frame := mkWsFrame {
  wf_data : list Z;
  wf_pos : Z
}.

(** The static variables of the file, and [net->websocket].  A frame of the queue that
    has been freed is [None].  [frame_buffer] has the first [frame_buffer_data_len]
    bytes of the buffer. *)
Record WsSt (OS : Type) := mkWsSt {
  ws_sock : SockSt OS;
  websocket : bool;
  in_frames : list (option ws_frame);
  last_frame : option ws_frame;
  frame_buffer : option (list Z);
  frame_buffer_len : Z;
  frame_buffer_index : Z
}.
Arguments mkWsSt {OS}.
Arguments ws_sock {OS}.
Arguments websocket {OS}.
Arguments in_frames {OS}.
Arguments last_frame {OS}.
Arguments frame_buffer {OS}.
Arguments frame_buffer_len {OS}.
Arguments frame_buffer_index {OS}.

Section WsReads.
Context {OS : Type} `{Sys OS} `{SysRand OS}.
Abbreviation St := (WsSt OS).
Abbreviation M := (SM (WsSt OS)).

(** What the variable [rcs] of [WebSocket_receiveFrame] holds before it is assigned: a
    call that is served from the buffer leaves it so. *)
Variable rcs0 : Z.

Definition set_ws_sock (k : SockSt OS) (s : St) : St :=
  mkWsSt k (websocket s) (in_frames s) (last_frame s) (frame_buffer s) (frame_buffer_len s) (frame_buffer_index s).
Definition set_websocket (b : bool) (s : St) : St :=
  mkWsSt (ws_sock s) b (in_frames s) (last_frame s) (frame_buffer s) (frame_buffer_len s) (frame_buffer_index s).
Definition set_frames (l : list (option ws_frame)) (last : option ws_frame) (s : St) : St :=
  mkWsSt (ws_sock s) (websocket s) l last (frame_buffer s) (frame_buffer_len s) (frame_buffer_index s).
Definition set_buffer (b : option (list Z)) (len index : Z) (s : St) : St :=
  mkWsSt (ws_sock s) (websocket s) (in_frames s) (last_frame s) b len index.
Definition set_index (i : Z) (s : St) : St := set_buffer (frame_buffer s) (frame_buffer_len s) i s.

Definition on_socket {A} (m : SM (SockSt OS) A) : M A :=
  fun s => '(a, k) ← m (ws_sock s); Ok (a, set_ws_sock k s).

(** ** Raw data *)

Definition buffered (s : St) : list Z := default [] (frame_buffer s).

(** The first [len] bytes at a pointer that the socket buffer returned. *)
Definition known (buf : option (list (option Z))) (len : Z) : M (option (list Z)) :=
  match buf with
  | None => mret None
  | Some b => match mapM id (take (Z.to_nat len) b) with Some d => mret (Some d) | None => sm_oob end
  end.

(** The next [n] bytes of the buffer. *)
Definition take_buffered (n rc : Z) : M (option (list Z) * Z * Z) :=
  s ← sm_get;
  _ ← sm_modify (set_index (frame_buffer_index s + n));
  mret (Some (take (Z.to_nat n) (drop (Z.to_nat (frame_buffer_index s)) (buffered s))), n, rc).

(** Data from the socket is appended. *)
Definition append_buffered (d : list Z) : M () :=
  sm_modify (fun s =>
    match frame_buffer s with
    | None => set_buffer (Some d) (Zlen d) 0 s
    | Some b =>
        set_buffer (Some (b ++ d))
          (if Zlen b + Zlen d <? frame_buffer_len s then frame_buffer_len s else Zlen b + Zlen d) (frame_buffer_index s) s
    end).

(** [WebSocket_getRawSocketData]: the data, [actual_len] and [rc], which is passed in. *)
Definition WebSocket_getRawSocketData (sk bytes rc : Z) : M (option (list Z) * Z * Z) :=
  s ← sm_get;
  let avail := Zlen (buffered s) - frame_buffer_index s in
  if (0 <? bytes) && (bytes <=? avail) then take_buffered bytes rc
  else
    let want := if 0 <? bytes then bytes - avail else bytes in
    '(buf, actual_len, rc) ← on_socket (Socket_getdata sk want 0 rc);
    d ← known buf actual_len;
    if rc =? 0 then mret (d, actual_len, SOCKET_ERROR)
    else if want =? 0 then
      _ ← sm_modify (set_buffer None 0 0);
      mret (d, actual_len, rc)
    else
      match d with
      | Some l =>
          if actual_len =? 0 then mret (d, actual_len, rc)
          else
            _ ← append_buffered l;
            _ ← on_socket (SocketBuffer_complete sk);
            s ← sm_get;
            take_buffered (Z.min bytes (Zlen (buffered s) - frame_buffer_index s)) rc
      | None => mret (d, actual_len, rc)
      end.

(** ** Frames *)

(** [n] more bytes in [WebSocket_receiveFrame]: the bytes and [rcs], or the code to leave
    with; [absent] is the one for a null pointer. *)
Definition get_raw (sk n rc absent : Z) : M (Z + list Z * Z) :=
  '(b, len, rc) ← WebSocket_getRawSocketData sk n rc;
  if rc =? SOCKET_ERROR then mret (inl SOCKET_ERROR)
  else
    match b with
    | None => mret (inl absent)
    | Some d => if len <? n then mret (inl TCPSOCKET_INTERRUPTED) else mret (inr (d, rc))
    end.

(** Leaving early. *)
Definition get_bind {A B} (m : M (Z + A)) (f : A -> M (Z + B)) : M (Z + B) :=
  r ← m; match r with inl c => mret (inl c) | inr a => f a end.

Definition valid_opcode (opcode : Z) : bool :=
  negb ((opcode <? WebSocket_OP_CONTINUE) || (WebSocket_OP_PONG <? opcode) ||
        ((WebSocket_OP_BINARY <? opcode) && (opcode <? WebSocket_OP_CLOSE))).

(** A continuation frame has the opcode of the frame before. *)
Definition next_opcode (opcode tmp_opcode : Z) : Z := if tmp_opcode =? 0 then opcode else tmp_opcode.

(** The number of bytes of the extended length. *)
Definition ext_size (len7 : Z) : Z := if len7 =? 126 then 2 else if len7 =? 127 then 8 else 0.

(** The extended length, and the mask. *)
Definition get_length (sk len7 rc : Z) : M (Z + Z * Z) :=
  if ext_size len7 =? 0 then mret (inr (len7, rc))
  else get_bind (get_raw sk (ext_size len7) rc SOCKET_ERROR) (fun '(b, rc) => mret (inr (be_value b, rc))).
Definition get_mask (sk : Z) (has_mask : bool) (rc : Z) : M (Z + Z) :=
  if has_mask then get_bind (get_raw sk 4 rc SOCKET_ERROR) (fun '(_, rc) => mret (inr rc)) else mret (inr rc).

(** One frame: [is_final], the opcode, the payload and [rcs].  The mask is read into a
    variable of an inner block, and the payload is combined with the outer one, which is
    zero. *)
Definition receive_one (sk opcode : Z) : M (Z + bool * Z * list Z * Z) :=
  get_bind (get_raw sk 2 rcs0 TCPSOCKET_INTERRUPTED) (fun '(b, rc) =>
  match b with
  | [b0; b1] =>
      let is_final := negb (Z.shiftr (Z.land b0 255) 7 =? 0) in
      let tmp_opcode := Z.land b0 15 in
      let opcode := next_opcode opcode tmp_opcode in
      if negb (valid_opcode opcode) then mret (inl SOCKET_ERROR)
      else
        let has_mask := negb (Z.shiftr (Z.land b1 255) 7 =? 0) in
        get_bind (get_length sk (Z.land b1 127) rc) (fun '(payload_len, rc) =>
        get_bind (get_mask sk has_mask rc) (fun rc =>
        get_bind (get_raw sk payload_len rc SOCKET_ERROR) (fun '(b, rc) =>
        mret (inr (is_final, opcode, if has_mask then xor_mask [0; 0; 0; 0] 0 b else b, rc)))))
  | _ => sm_oob
  end).

(** The head of the queue; a freed frame must not be looked at. *)
Definition head_frame : M (option ws_frame) :=
  s ← sm_get;
  match in_frames s with
  | [] => mret None
  | None :: _ => sm_oob
  | Some f :: _ => mret (Some f)
  end.
Definition set_head (f : option ws_frame) : M () :=
  sm_modify (fun s => match in_frames s with [] => s | _ :: r => set_frames (f :: r) (last_frame s) s end).

(** [WebSocket_pong] and [WebSocket_close] *)
Definition WebSocket_pong (sk : Z) (app_data : list Z) : M () :=
  s ← sm_get;
  if websocket s then
    '(wsbuf0, bufs, _) ← on_socket (build WebSocket_OP_PONG 1 [] [app_data] [0; 0; 0; 0]);
    _ ← on_socket (Socket_putdatas sk wsbuf0 bufs [0]);
    mret ()
  else mret ().
Definition WebSocket_close (sk status_code : Z) (reason : list Z) : M () :=
  s ← sm_get;
  if websocket s then
    let status_code := if (status_code <? WebSocket_CLOSE_NORMAL) || (WebSocket_CLOSE_TLS_FAIL <? status_code)
                       then WebSocket_CLOSE_GOING_AWAY else status_code in
    '(wsbuf0, _, _) ← on_socket (build WebSocket_OP_CLOSE 1 (be 2 status_code ++ reason) [] [0; 0; 0; 0]);
    _ ← on_socket (Socket_putdatas sk wsbuf0 [] []);
    sm_modify (set_websocket false)
  else mret ().

Definition control (opcode : Z) : bool := (opcode =? WebSocket_OP_PING) || (opcode =? WebSocket_OP_PONG).

(** The loops of [WebSocket_receiveFrame]: the code, and what is left to be read of the
    frame.  [res] is the frame the payloads go to, which is the head of the queue when
    there is one. *)
Fixpoint receive_loop (fuel : nat) (sk opcode : Z) (res : option ws_frame) : M (Z * Z) :=
  match fuel with
  | O => sm_fail
  | S fuel =>
      r ← receive_one sk opcode;
      match r with
      | inl rc => mret (rc, 0)
      | inr (is_final, opcode, b, rc) =>
          let res' := match res with None => mkWsFrame b 0 | Some f => mkWsFrame (wf_data f ++ b) (wf_pos f) end in
          _ ← set_head (Some res');
          '(_, _, rc) ← WebSocket_getRawSocketData sk 0 rc;
          if rc =? SOCKET_ERROR then mret (SOCKET_ERROR, 0)
          else if negb is_final then receive_loop fuel sk opcode (Some res')
          else if control opcode then
            _ ← (if opcode =? WebSocket_OP_PING then WebSocket_pong sk (wf_data res') else mret ());
            _ ← set_head None;
            receive_loop fuel sk opcode None
          else if opcode =? WebSocket_OP_CLOSE then
            _ ← set_head None;
            _ ← WebSocket_close sk WebSocket_CLOSE_GOING_AWAY [];
            mret (SOCKET_ERROR, 0)
          else
            _ ← sm_modify (fun s => match in_frames s with [] => set_frames [Some res'] (last_frame s) s | _ => s end);
            mret (TCPSOCKET_COMPLETE, Zlen (wf_data res') - wf_pos res')
      end
  end.

(** [WebSocket_receiveFrame]: also [actual_len], when the code is [TCPSOCKET_COMPLETE]. *)
Definition WebSocket_receiveFrame (fuel : nat) (sk : Z) : M (Z * Z) :=
  res ← head_frame;
  '(rc, actual_len) ← receive_loop fuel sk WebSocket_OP_BINARY res;
  _ ← (if rc =? TCPSOCKET_INTERRUPTED then sm_modify (set_index 0) else mret ());
  mret (rc, actual_len).

(** ** Reading from the frames *)

Variable fuel : nat.

(** The first frame, when there is something left to be read in it. *)
Definition unread_frame (f : option ws_frame) : option ws_frame :=
  match f with Some f => if Zlen (wf_data f) =? wf_pos f then None else Some f | None => None end.

(** [WebSocket_getch] *)
Definition WebSocket_getch (sk : Z) : M (Z * Z) :=
  s ← sm_get;
  if websocket s then
    frame ← head_frame;
    '(rc, frame) ← match unread_frame frame with
                   | Some f => mret (SOCKET_ERROR, Some f)
                   | None =>
                       '(rc, _) ← WebSocket_receiveFrame fuel sk;
                       if negb (rc =? TCPSOCKET_COMPLETE) then mret (rc, None)
                       else f ← head_frame; mret (rc, f)
                   end;
    match frame with
    | Some f =>
        if wf_pos f <? Zlen (wf_data f) then
          match wf_data f !! Z.to_nat (wf_pos f) with
          | Some c => _ ← set_head (Some (mkWsFrame (wf_data f) (wf_pos f + 1))); mret (TCPSOCKET_COMPLETE, c)
          | None => sm_oob
          end
        else mret (rc, 0)
    | None => mret (rc, 0)
    end
  else on_socket (Socket_getch sk).

(** [WebSocket_framePos] and [WebSocket_framePosSeekTo] *)
Definition WebSocket_framePos : M Z := f ← head_frame; mret (match f with Some f => wf_pos f | None => 0 end).
Definition WebSocket_framePosSeekTo (pos : Z) : M () :=
  f ← head_frame; match f with Some f => set_head (Some (mkWsFrame (wf_data f) pos)) | None => mret () end.

(** What is left of a frame: [rv] and [actual_len]. *)
Definition rest_of (f : ws_frame) : list Z := drop (Z.to_nat (wf_pos f)) (wf_data f).

(** The head of the queue becomes the last frame. *)
Definition detach_head : M () :=
  sm_modify (fun s => match in_frames s with [] => set_frames [] None s | f :: r => set_frames r f s end).

(** The loop of [WebSocket_getdata]: the frame, when it holds what is asked for. *)
Fixpoint fill (n : nat) (sk bytes : Z) (f : ws_frame) : M (ws_frame * bool) :=
  if bytes <=? Zlen (wf_data f) - wf_pos f then mret (f, true)
  else
    match n with
    | O => sm_fail
    | S n =>
        '(rc, _) ← WebSocket_receiveFrame fuel sk;
        if negb (rc =? TCPSOCKET_COMPLETE) then mret (f, false)
        else
          f ← head_frame;
          match f with Some f => fill n sk bytes f | None => sm_oob end
    end.

(** [WebSocket_getdata]: the first [bytes] bytes at the pointer and [actual_len]. *)
Definition WebSocket_getdata (sk bytes : Z) : M (option (list Z) * Z) :=
  s ← sm_get;
  if websocket s then
    frame ← head_frame;
    if bytes =? 0 then
      match frame with
      | Some f => if wf_pos f =? Zlen (wf_data f) then _ ← detach_head; mret (Some [], 0) else mret (None, 0)
      | None => mret (None, 0)
      end
    else
      frame ← match frame with
              | Some f => mret (Some f)
              | None =>
                  '(rc, _) ← WebSocket_receiveFrame fuel sk;
                  if rc =? TCPSOCKET_COMPLETE then head_frame else mret None
              end;
      match frame with
      | None => mret (None, 0)
      | Some f =>
          '(f, filled) ← fill fuel sk bytes f;
          let actual_len := Zlen (wf_data f) - wf_pos f in
          if negb filled then mret (Some (rest_of f), actual_len)
          else
            _ ← (if bytes <? actual_len then set_head (Some (mkWsFrame (wf_data f) (wf_pos f + bytes))) else detach_head);
            mret (Some (take (Z.to_nat bytes) (rest_of f)), actual_len)
      end
  else on_socket (tcp_getdata sk bytes).

(** [WebSocket_terminate]: the frames are freed; one that has been freed already must not
    be. *)
Definition WebSocket_terminate : M () :=
  s ← sm_get;
  if forallb (fun f => bool_decide (is_Some f)) (in_frames s) then
    _ ← sm_modify (set_frames [] None);
    sm_modify (set_buffer None 0 0)
  else sm_oob.

End WsReads.

(** ** A connection that a server feeds

    [feeds sk stream o]: what the socket [sk] receives is, and goes on to be, a part of
    [stream]. *)
Class Feeds (OS : Type) `{SysLaws OS} `{SysRand OS} := {
  feeds : Z -> list Z -> OS -> Prop;
  feeds_received sk stream o : feeds sk stream o -> exists later, stream = received sk o ++ later;
  feeds_recv sk stream n o rc e d o' : feeds sk stream o -> sys_recv sk n o = (rc, e, d, o') -> feeds sk stream o';
  feeds_writev sk stream k bufs o rc e o' : feeds sk stream o -> sys_writev k bufs o = (rc, e, o') -> feeds sk stream o';
  feeds_rand sk stream o : feeds sk stream o -> feeds sk stream (snd (sys_rand o));
  rand_received sk o : received sk (snd (sys_rand o)) = received sk o
}.

(** ** Raw data *)

Section Raw.
Context {OS : Type} {SY : Sys OS} {SL : SysLaws OS} {SR : SysRand OS} {FD : Feeds OS}.
Implicit Types k : SockSt OS.
Implicit Types s : WsSt OS.

(** [got] has been received. *)
Definition fed (sk : Z) (got : list Z) k k' : Prop :=
  recvd sk got k k' /\ forall stream, feeds sk stream (os k) -> feeds sk stream (os k').

Lemma fed_os sk got k k' k2 : fed sk got k k' -> os k2 = os k' -> fed sk got k k2.
Proof. intros [H1 H2] E. split; [intros x|intros st]; rewrite E; [apply H1|apply H2]. Qed.

Lemma fed_nil sk k k' : os k' = os k -> fed sk [] k k'.
Proof. intros E. split; [by apply recvd_nil|]. intros st. by rewrite E. Qed.

Lemma fed_trans sk g1 g2 k1 k2 k3 : fed sk g1 k1 k2 -> fed sk g2 k2 k3 -> fed sk (g1 ++ g2) k1 k3.
Proof. intros [A1 A2] [B1 B2]. split; [by eapply recvd_trans|]. auto. Qed.

(** A call of [recv] that ends a connection. *)
Definition recv_fails (sk : Z) : Prop :=
  exists n o rc e d o', sys_recv sk n o = (rc, e, d, o') /\ (rc = 0 \/ (rc = SOCKET_ERROR /\ e <> EAGAIN)).

Lemma grow_empty q n : mid [] [] [] q -> 0 < n -> mid [] [] [] (grow q n) /\ Zlen (@nil Z) < n.
Proof.
  intros [H1 H2 H3 H4 H5 H6 H7 H8] Hn. split; [|done]. unfold grow. destruct (Z.ltb_spec (sq_buflen q) n); [|done].
  rewrite Zlen_nil in *. rewrite H5. split; cbn; rewrite ?Zlen_nil; try done; [|by left].
  split; [lia|]. unfold Zlen. rewrite length_take, length_app, length_replicate. lia.
Qed.

(** What has been received is in the buffer, and the queue of the socket is interrupted or
    complete. *)
Lemma wp_recv_end sk n d found (al rc : Z) k :
  rd_mid sk [] [] [] k -> found_ok sk k found -> sk <> 0 -> Zlen d <= n <= sq_buflen (cur sk k) -> 0 < n -> al = Zlen d ->
  wp (_ ← recv_into found 0 d;
      s ← sm_get;
      let buf := sq_buf (queue_at found s) in
      _ ← (if al =? n then _ ← SocketBuffer_complete sk; mret () else SocketBuffer_interrupted sk al);
      mret (Some buf, al, rc)) k (fun r k' =>
    os k' = os k /\ distinct k' /\ shape (cur sk k') /\ (d = [] -> resting sk [] [] k') /\
    exists buf, r = (Some buf, al, rc) /\ take (Z.to_nat al) buf = map Some d).
Proof.
  intros Hm Hf Hsk Hd Hn ->. apply wp_bind.
  eapply wp_mono; [apply (wp_recv_into sk [] [] d); [done|done|rewrite Zlen_nil; lia]|].
  intros [] k1 (q & Hu & Hat & B1 & B2 & B3 & B4 & B5 & B6 & _). pose proof (updated_cur _ _ _ _ Hu) as Hcq.
  apply wp_bind, wp_get. rewrite Hat. rewrite Zlen_nil, Z.add_0_l in B6.
  destruct (rd_mid_cur _ _ _ _ _ Hm) as [M1 M2 M3 M4 M5 M6 M7 M8].
  assert (shape q) as Hshape by (split; [by rewrite B2|by rewrite B1, B3]).
  destruct Hu as (U1 & _ & U3 & U4). apply wp_bind. destruct (Z.eqb_spec (Zlen d) n) as [He|Hne].
  - apply wp_bind. eapply wp_mono; [apply (wp_complete sk); [done|by rewrite Hcq]|]. intros ? k2 ([R0 R1] & R2 & _ & R3).
    do 2 apply wp_ret. split; [congruence|]. split; [done|]. split; [unfold cur; rewrite R2; by destruct R1 as [_ ?%mid_shape]|].
    split; [|by eexists]. intros ->. rewrite Zlen_nil in He. lia.
  - assert (is_Some (held sk k1) -> clean (def_queue k1)) as Hcl.
    { destruct Hm as [_ Hm]. destruct (held sk k); [destruct U4 as [-> ->]; by intros _; apply Hm|]. destruct U4 as [-> _]. by intros [? ?]. }
    eapply wp_mono; [apply (wp_interrupted_queue sk (Zlen d)); done|]. intros [] k2 ([R0 R1] & R2 & _ & R3).
    apply wp_ret. split; [congruence|]. split; [done|]. rewrite Hcq in R2. split; [unfold cur; rewrite R2; exact Hshape|].
    split; [|by eexists]. intros ->. split; [done|]. rewrite R2. apply mid_rest. split; cbn; rewrite ?B1, ?B2, ?B3, ?B4, ?B5, ?Zlen_nil; done.
Qed.

Lemma resting_back sk k : rd_mid sk [] [] [] k -> resting sk [] [] k.
Proof.
  intros [Hd H]. destruct (held sk k) as [q|] eqn:Eh; [destruct H as [H1 H2]|destruct H as (_ & _ & H1 & H2)];
    (split; [split|]; [done..|rewrite Eh; done]).
Qed.

(** [Socket_getdata] on a socket of which nothing is held: data, nothing yet, or an
    error. *)
Lemma wp_getdata_raw sk n rc0 k :
  resting sk [] [] k -> sk <> 0 -> 0 < n ->
  wp (Socket_getdata sk n 0 rc0) k (fun r k' => exists got, fed sk got k k' /\ Zlen got <= n /\ bytes_ok got /\
    ((exists buf, r = (Some buf, Zlen got, Zlen got) /\ got <> [] /\ take (Z.to_nat (Zlen got)) buf = map Some got /\
        distinct k' /\ shape (cur sk k')) \/
     (exists buf, r = (Some buf, 0, EAGAIN) /\ got = [] /\ resting sk [] [] k') \/
     (exists e, (r = (None, 0, e)) /\ got = [] /\ recv_fails sk /\ resting sk [] [] k'))).
Proof.
  intros Hrest Hsk Hn. pose proof (resting_mid _ _ _ _ Hrest) as Hm. unfold Socket_getdata. destruct (Z.eqb_spec n 0); [lia|].
  apply wp_bind. eapply wp_mono; [apply (wp_getQueuedData sk [] n []); [done|]|].
  { intros q Hq. by apply grow_empty. }
  intros ? k1 (-> & Hroom & Hm1 & _ & E1). apply wp_bind. rewrite Zlen_nil, Z.sub_0_r.
  unfold call_os, wp at 1. destruct (sys_recv sk n (os k1)) as [[[rc e] d] o'] eqn:Er. do 2 eexists. split; [done|]. cbv beta iota.
  set (k2 := set_os o' k1). destruct (recv_same k1 k2 eq_refl eq_refl) as (_ & _ & Hm2). specialize (Hm2 _ _ _ _ Hm1).
  assert (fed sk d k k2) as Hg.
  { split; [intros x; rewrite (recv_received sk n _ _ _ _ _ x Er), E1; done|]. intros st Hst. rewrite <- E1 in Hst. by eapply feeds_recv. }
  assert (forall al rc' : Z, Zlen d <= n -> al = Zlen d ->
    wp (found ← find_queue sk;
        _ ← recv_into found 0 d;
        s ← sm_get;
        let buf := sq_buf (queue_at found s) in
        _ ← (if al =? n then _ ← SocketBuffer_complete sk; mret () else SocketBuffer_interrupted sk al);
        mret (Some buf, al, rc')) k2 (fun r k' => fed sk d k k' /\ distinct k' /\ shape (cur sk k') /\ (d = [] -> resting sk [] [] k') /\
      exists buf, r = (Some buf, al, rc') /\ take (Z.to_nat al) buf = map Some d)) as Hend.
  { intros al rc' Hle Hal. apply wp_bind. eapply wp_mono; [apply (wp_find_queue sk); apply Hm2|]. intros found k3 (Hf & Hq).
    pose proof (qsame_rd_mid _ _ _ _ _ _ Hq Hm2) as Hm3. eapply wp_mono; [apply (wp_recv_end sk n d found al rc'); try done|].
    - destruct Hq. by apply (found_same sk k2).
    - assert (cur sk k3 = cur sk k1) as ->; [|rewrite Zlen_nil in Hroom; lia].
      unfold cur. rewrite (qsame_held _ _ _ Hq). by destruct Hq as (_ & -> & _).
    - intros r k' (R1 & R2 & R3 & R4 & R5). split; [|done]. apply (fed_os sk d k k2); [done|]. rewrite R1. by destruct Hq as (_ & _ & ->). }
  destruct (recv_law sk n _ _ _ _ _ Er Hn) as [[-> ->]|(Hrc & -> & Hdok)].
  - change (SOCKET_ERROR =? SOCKET_ERROR) with true. cbn [andb]. destruct (Z.eqb_spec e EAGAIN) as [->|He].
    + change (negb true && negb (EAGAIN =? EWOULDBLOCK)) with false. change (SOCKET_ERROR =? 0) with false. cbv iota.
      eapply wp_mono; [apply (Hend 0 EAGAIN); [rewrite Zlen_nil; lia|done]|]. intros r k' (R1 & _ & _ & R4 & buf & -> & _).
      exists []. split; [done|]. split; [rewrite Zlen_nil; lia|]. split; [apply Forall_nil_2|]. right. left. exists buf. split; [done|]. split; [done|by apply R4].
    + assert (negb (e =? EWOULDBLOCK) = true) as -> by (by apply negb_true_iff, Z.eqb_neq). cbn [negb andb]. cbv iota.
      apply wp_ret. exists []. split; [exact Hg|]. split; [rewrite Zlen_nil; lia|]. split; [apply Forall_nil_2|]. right. right. exists e.
      split; [done|]. split; [done|]. split; [|by apply resting_back]. do 6 eexists. split; [exact Er|]. by right.
  - destruct (Z.eqb_spec (Zlen d) SOCKET_ERROR) as [Hbad|_]; [unfold SOCKET_ERROR in Hbad; lia|]. cbn [andb].
    destruct (Z.eqb_spec (Zlen d) 0) as [H0|H0].
    + assert (d = []) as -> by (destruct d; [done|]; rewrite Zlen_cons in H0; pose proof (Zlen_nonneg d); lia).
      apply wp_ret. exists []. split; [exact Hg|]. split; [rewrite Zlen_nil; lia|]. split; [apply Forall_nil_2|]. right. right. exists 0.
      split; [done|]. split; [done|]. split; [|by apply resting_back]. do 6 eexists. split; [exact Er|]. by left.
    + rewrite Z.add_0_l. eapply wp_mono; [apply (Hend (Zlen d) (Zlen d)); [lia|done]|].
      intros r k' (R1 & R2 & R3 & _ & buf & -> & R5). exists d. split; [done|]. split; [lia|]. split; [done|]. left. exists buf. split; [done|].
      split; [by intros ->|]. by split_and!.
Qed.

(** [b] is in the buffer of frames, and has been looked at up to [i]; the socket holds
    nothing. *)
Record raw_state (sk : Z) (b : list Z) (i : Z) s : Prop := {
  rs_buffer : buffered s = b;
  rs_index : frame_buffer_index s = i;
  rs_range : 0 <= i <= Zlen b;
  rs_bytes : bytes_ok b;
  rs_socket : resting sk [] [] (ws_sock s)
}.
Definition frames_same s s' : Prop :=
  websocket s' = websocket s /\ in_frames s' = in_frames s /\ last_frame s' = last_frame s.
Definition ws_fed (sk : Z) (got : list Z) s s' : Prop := fed sk got (ws_sock s) (ws_sock s').

Lemma frames_trans s1 s2 s3 : frames_same s1 s2 -> frames_same s2 s3 -> frames_same s1 s3.
Proof. intros (A1 & A2 & A3) (B1 & B2 & B3). unfold frames_same. split_and!; congruence. Qed.

Lemma wp_on_socket {A} (m : SM (SockSt OS) A) s Q :
  wp m (ws_sock s) (fun a k => Q a (set_ws_sock k s)) -> wp (on_socket m) s Q.
Proof. intros (a & k & E & HQ). exists a, (set_ws_sock k s). split; [|done]. unfold on_socket. by rewrite E. Qed.

Lemma wp_take_buffered sk n rc b i s :
  raw_state sk b i s -> 0 <= n -> i + n <= Zlen b ->
  wp (take_buffered n rc) s (fun r s' => r = (Some (take (Z.to_nat n) (drop (Z.to_nat i) b)), n, rc) /\
    ws_fed sk [] s s' /\ frames_same s s' /\ raw_state sk b (i + n) s').
Proof.
  intros [<- <- Hr Hb Hs] Hn Hle. unfold take_buffered. apply wp_bind, wp_get, wp_bind, wp_modify, wp_ret.
  split; [done|]. split; [by apply fed_nil|]. split; [done|]. split; try done. lia.
Qed.

Lemma wp_getRaw sk n rc b i s :
  raw_state sk b i s -> sk <> 0 -> 0 < n ->
  wp (WebSocket_getRawSocketData sk n rc) s (fun r s' => exists got i', ws_fed sk got s s' /\ frames_same s s' /\
    raw_state sk (b ++ got) i' s' /\
    ((exists rc', r = (Some (take (Z.to_nat n) (drop (Z.to_nat i) (b ++ got))), n, rc') /\ i' = i + n /\
        ((got = [] /\ rc' = rc) \/ (i' = Zlen (b ++ got) /\ 0 < rc'))) \/
     (exists l len rc', r = (Some l, len, rc') /\ len < n /\ Zlen (b ++ got) < i + n /\ 0 < rc') \/
     (exists len rc', r = (None, len, rc') /\ got = [] /\ recv_fails sk /\ Zlen b < i + n))).
Proof.
  intros Hst Hsk Hn. pose proof Hst as [Hb Hi Hr Hbok Hs]. unfold WebSocket_getRawSocketData. apply wp_bind, wp_get. rewrite Hb, Hi.
  rewrite (proj2 (Z.ltb_lt _ _) Hn). cbn [andb]. destruct (Z.leb_spec n (Zlen b - i)) as [Hle|Hlt].
  { eapply wp_mono; [apply (wp_take_buffered sk n rc b i); [done|lia|lia]|]. intros r s' (-> & H1 & H2 & H3).
    exists [], (i + n). rewrite app_nil_r. split; [done|]. split; [done|]. split; [done|]. left. exists rc. split; [done|]. split; [done|by left]. }
  apply wp_bind, wp_on_socket. eapply wp_mono; [apply (wp_getdata_raw sk (n - (Zlen b - i)) rc); [done|done|lia]|].
  intros r k (got & Hgot & Hle & Hgok & Hcase). set (s1 := set_ws_sock k s).
  destruct Hcase as [(buf & -> & Hne & Hbuf & Hd & Hsh)|[(buf & -> & -> & Hrest)|(e & -> & -> & Hf & Hrest)]]; cbv beta iota.
  - pose proof (Zlen_nonneg got). assert (0 < Zlen got) by (destruct got; [done|]; rewrite Zlen_cons; pose proof (Zlen_nonneg got); lia).
    apply wp_bind. unfold known. rewrite Hbuf, mapM_known. apply wp_ret.
    destruct (Z.eqb_spec (Zlen got) 0); [lia|]. destruct (Z.eqb_spec (n - (Zlen b - i)) 0); [lia|].
    apply wp_bind. unfold append_buffered. apply wp_modify. set (s2 := match frame_buffer s1 with None => _ | Some _ => _ end).
    assert (buffered s2 = b ++ got /\ frame_buffer_index s2 = i /\ ws_sock s2 = k /\ frames_same s s2) as (E1 & E2 & E3 & E4).
    { unfold s2. change (frame_buffer s1) with (frame_buffer s). unfold buffered in *. destruct (frame_buffer s); cbn in *; subst b; [done|].
      unfold Zlen in Hr. cbn in Hr. split_and!; try done. lia. }
    clearbody s2. apply wp_bind, wp_on_socket. rewrite E3. eapply wp_mono; [by apply (wp_complete sk)|]. intros ? k3 (R1 & R2 & _ & R4).
    apply wp_bind, wp_get. set (s3 := set_ws_sock k3 s2).
    assert (raw_state sk (b ++ got) i s3) as Hst3.
    { split; [done|done|rewrite Zlen_app; lia|by apply bytes_ok_app|]. change (ws_sock s3) with k3. split; [exact R1|]. by rewrite R2. }
    assert (ws_fed sk got s s3) as Hg3 by (by apply (fed_os sk got (ws_sock s) k)).
    change (buffered s3) with (buffered s2). rewrite E1. change (frame_buffer_index s3) with (frame_buffer_index s2). rewrite E2.
    eapply wp_mono; [apply (wp_take_buffered sk _ (Zlen got) (b ++ got) i); [done|rewrite Zlen_app; lia|rewrite Zlen_app; lia]|].
    intros r s4 (-> & H1 & H2 & H3). exists got, (i + Z.min n (Zlen (b ++ got) - i)).
    split; [rewrite <- (app_nil_r got); by eapply fed_trans|]. split; [by eapply frames_trans|]. split; [done|].
    destruct (Z.leb_spec n (Zlen (b ++ got) - i)).
    + left. rewrite Z.min_l by lia. exists (Zlen got). split; [done|]. split; [done|right]. rewrite Zlen_app in *. split; [lia|done].
    + right. left. rewrite Z.min_r by lia. do 3 eexists. split; [done|]. lia.
  - apply wp_bind. unfold known. change (Z.to_nat 0) with 0%nat. rewrite take_0. apply wp_ret. change (EAGAIN =? 0) with false. cbv iota.
    destruct (Z.eqb_spec (n - (Zlen b - i)) 0); [lia|]. change (0 =? 0) with true. cbv iota. apply wp_ret.
    exists [], i. rewrite app_nil_r. split; [exact Hgot|]. split; [done|]. split; [by split|]. right. left. do 3 eexists.
    split; [done|]. split; [lia|]. split; [lia|done].
  - apply wp_bind. unfold known. apply wp_ret. assert (raw_state sk b i s1) as Hst1 by (by split).
    destruct (Z.eqb_spec e 0); [|destruct (Z.eqb_spec (n - (Zlen b - i)) 0); [lia|]]; apply wp_ret;
      (exists [], i; rewrite app_nil_r; split; [exact Hgot|]; split; [done|]; split; [done|]; right; right; do 2 eexists; split; [done|]; split; [done|]; split; [done|lia]).
Qed.

(** [WebSocket_getRawSocketData] for no bytes: the end of a frame. *)
Lemma wp_getRaw_end sk rc s :
  resting sk [] [] (ws_sock s) -> sk <> 0 -> rc <> 0 ->
  wp (WebSocket_getRawSocketData sk 0 rc) s (fun r s' =>
    r = (Some [], 0, rc) /\ ws_fed sk [] s s' /\ frames_same s s' /\ raw_state sk [] 0 s').
Proof.
  intros Hs Hsk Hrc. unfold WebSocket_getRawSocketData. apply wp_bind, wp_get. change (0 <? 0) with false. cbn [andb]. cbv iota zeta.
  apply wp_bind, wp_on_socket. unfold Socket_getdata. change (0 =? 0) with true. cbv iota. apply wp_bind.
  pose proof (resting_mid _ _ _ _ Hs) as Hm. eapply wp_mono; [apply (wp_complete sk); [apply Hm|eapply mid_shape; by apply (rd_mid_cur sk [])]|].
  intros buf k (R1 & R2 & _ & R4). apply wp_ret. apply wp_bind. unfold known. change (Z.to_nat 0) with 0%nat. rewrite take_0. apply wp_ret.
  destruct (Z.eqb_spec rc 0); [done|]. change (0 =? 0) with true. cbv iota. apply wp_bind, wp_modify, wp_ret.
  split; [done|]. split; [by apply fed_nil|]. split; [done|]. split; [done|done|done|apply Forall_nil_2|].
  cbn. split; [done|]. by rewrite R2.
Qed.

(** *** The parts of a frame *)

Definition slice (i n : Z) (l : list Z) : list Z := take (Z.to_nat n) (drop (Z.to_nat i) l).

Lemma slice_app i n (l k : list Z) : 0 <= i -> 0 <= n -> i + n <= Zlen l -> slice i n (l ++ k) = slice i n l.
Proof.
  intros Hi Hn Hl. unfold slice, Zlen in *. rewrite drop_app_le by lia. rewrite take_app_le; [done|]. rewrite length_drop. lia.
Qed.

Lemma slice_length i n l : 0 <= i -> 0 <= n -> i + n <= Zlen l -> Zlen (slice i n l) = n.
Proof. intros Hi Hn Hl. unfold slice, Zlen in *. rewrite length_take, length_drop. lia. Qed.

Lemma slice_ok i n l : bytes_ok l -> bytes_ok (slice i n l).
Proof. intros H. by apply Forall_take, Forall_drop. Qed.

Lemma be_value_nonneg l : bytes_ok l -> 0 <= be_value l.
Proof.
  intros H. induction H as [|b l Hb Hl IH]; [done|]. unfold be_value. cbn [fold_left]. rewrite be_value_from.
  unfold byte_ok in Hb. pose proof (Z.pow_nonneg 256 (Zlen l)). nia.
Qed.

(** The header of the frame at the front of [l]: whether it is final, the opcode of the
    frame, whether it has a mask, the size of the header and of the payload. *)
Definition front (l : list Z) : option (bool * Z * bool * Z * Z) :=
  match slice 0 2 l with
  | [b0; b1] =>
      let len7 := Z.land b1 127 in
      let ext := ext_size len7 in
      if Zlen l <? 2 + ext then None
      else
        let has_mask := negb (Z.shiftr (Z.land b1 255) 7 =? 0) in
        Some (negb (Z.shiftr (Z.land b0 255) 7 =? 0), Z.land b0 15, has_mask, 2 + ext + (if has_mask then 4 else 0),
              if ext =? 0 then len7 else be_value (slice 2 ext l))
  | _ => None
  end.
Definition partial (l : list Z) : Prop :=
  match front l with None => True | Some (_, _, _, h, n) => Zlen l < h + n end.

Lemma ext_size_range x : 0 <= ext_size x <= 8.
Proof. unfold ext_size. destruct (x =? 126); [lia|]. destruct (x =? 127); lia. Qed.

Lemma slice_2 l : 2 <= Zlen l -> exists b0 b1 r, l = b0 :: b1 :: r /\ slice 0 2 l = [b0; b1].
Proof.
  destruct l as [|b0 [|b1 r]]; rewrite ?Zlen_cons, ?Zlen_nil; try lia. intros _. by exists b0, b1, r.
Qed.

Lemma front_app (l k : list Z) x : front l = Some x -> front (l ++ k) = Some x.
Proof.
  unfold front. destruct (slice 0 2 l) as [|b0 [|b1 [|? ?]]] eqn:E; try done.
  assert (2 <= Zlen l) as H2.
  { assert (Zlen (slice 0 2 l) = 2) as Hl by (by rewrite E). unfold slice, Zlen in *. rewrite length_take, drop_0 in Hl. lia. }
  rewrite slice_app, E by lia. pose proof (ext_size_range (Z.land b1 127)). rewrite Zlen_app. pose proof (Zlen_nonneg k).
  destruct (Z.ltb_spec (Zlen l) (2 + ext_size (Z.land b1 127))); [done|].
  destruct (Z.ltb_spec (Zlen l + Zlen k) (2 + ext_size (Z.land b1 127))); [lia|]. by rewrite slice_app by lia.
Qed.

Lemma front_short l : Zlen l < 2 -> front l = None.
Proof. destruct l as [|b0 [|b1 r]]; rewrite ?Zlen_cons, ?Zlen_nil; try done. pose proof (Zlen_nonneg r). lia. Qed.

(** *** Reading the parts *)

(** [g] has been received since [s0], behind [b], and read up to [i]; if there is
    something in [g] all of it has been read. *)
Definition chain (sk rcs0 : Z) (b g : list Z) (i rc : Z) s0 s : Prop :=
  ws_fed sk g s0 s /\ frames_same s0 s /\ raw_state sk (b ++ g) i s /\
  ((g = [] /\ rc = rcs0) \/ (i = Zlen (b ++ g) /\ 0 < rc)).
Definition stopped (sk : Z) (b g : list Z) s0 s : Prop :=
  ws_fed sk g s0 s /\ frames_same s0 s /\ exists i, raw_state sk (b ++ g) i s.
(** The connection is broken. *)
Definition lost (sk : Z) s0 s : Prop := recv_fails sk /\ frames_same s0 s.

Lemma wp_get_raw sk rcs0 n rc absent b g i s0 s :
  chain sk rcs0 b g i rc s0 s -> sk <> 0 -> 0 < n -> rcs0 <> SOCKET_ERROR -> absent = TCPSOCKET_INTERRUPTED \/ absent = SOCKET_ERROR ->
  wp (get_raw sk n rc absent) s (fun r s' => exists g' more, g' = g ++ more /\
    ((exists rc', r = inr (slice i n (b ++ g'), rc') /\ i + n <= Zlen (b ++ g') /\ chain sk rcs0 b g' (i + n) rc' s0 s') \/
     (r = inl TCPSOCKET_INTERRUPTED /\ Zlen (b ++ g') < i + n /\ stopped sk b g' s0 s') \/
     (r = inl SOCKET_ERROR /\ lost sk s0 s'))).
Proof.
  intros (Hg & Hsame & Hst & Hrc) Hsk Hn Hrcs Habs. unfold get_raw. apply wp_bind.
  eapply wp_mono; [apply (wp_getRaw sk n rc (b ++ g) i); done|]. intros r s' (m & i' & H1 & H2 & H3 & H4). rewrite <- app_assoc in *.
  assert (ws_fed sk (g ++ m) s0 s') as Hg' by (by eapply fed_trans). pose proof (frames_trans _ _ _ Hsame H2) as Hsame'.
  destruct H4 as [(rc' & -> & -> & Hrc')|[(l & len & rc' & -> & Hlen & Hshort & Hrc')|(len & rc' & -> & -> & Hf & Hshort)]];
    cbv beta iota.
  - assert (rc' <> SOCKET_ERROR) as Hne by (destruct Hrc' as [[_ ->]|[_ ?]]; [destruct Hrc as [[_ ->]|[_ ?]]; [done|]|]; unfold SOCKET_ERROR; lia).
    rewrite (proj2 (Z.eqb_neq _ _) Hne). destruct (Z.ltb_spec n n); [lia|]. apply wp_ret. exists (g ++ m), m. split; [done|]. left.
    exists rc'. split; [done|]. pose proof (rs_range _ _ _ _ H3) as Hr. split; [lia|]. split; [done|]. split; [done|]. split; [done|].
    destruct Hrc' as [[-> ->]|[? ?]]; [|by right]. rewrite app_nil_r in *. destruct Hrc as [Hrc|[Hi _]]; [by left|]. lia.
  - assert (rc' <> SOCKET_ERROR) as Hne by (unfold SOCKET_ERROR; lia). rewrite (proj2 (Z.eqb_neq _ _) Hne).
    destruct (Z.ltb_spec len n); [|lia]. apply wp_ret. exists (g ++ m), m. split; [done|]. right. left. split; [done|]. split; [lia|].
    split; [done|]. split; [done|]. by exists i'.
  - destruct (rc' =? SOCKET_ERROR); apply wp_ret; exists (g ++ []), []; (split; [done|]); [by right; right|].
    destruct Habs as [-> | ->]; [right; left|by right; right]. split; [done|]. rewrite app_nil_r in *. split; [lia|].
    split; [done|]. split; [done|]. by exists i'.
Qed.

Lemma slice_all i n l : 0 <= i -> i + n = Zlen l -> slice i n l = drop (Z.to_nat i) l.
Proof. intros Hi Hl. unfold slice. apply take_ge. rewrite length_drop. unfold Zlen in Hl. lia. Qed.

(** The payload: with it the frame is there. *)
Lemma wp_get_payload sk rcs0 rc b g fin tmp m h n s0 s :
  chain sk rcs0 b g h rc s0 s -> partial b -> front (b ++ g) = Some (fin, tmp, m, h, n) -> 0 <= n -> 0 <= h ->
  sk <> 0 -> rcs0 <> SOCKET_ERROR ->
  wp (get_raw sk n rc SOCKET_ERROR) s (fun r s' => exists g',
    (exists rc', r = inr (drop (Z.to_nat h) (b ++ g'), rc') /\ front (b ++ g') = Some (fin, tmp, m, h, n) /\
       Zlen (b ++ g') = h + n /\ 0 < rc' /\ ws_fed sk g' s0 s' /\ frames_same s0 s' /\ resting sk [] [] (ws_sock s')) \/
    (r = inl TCPSOCKET_INTERRUPTED /\ partial (b ++ g') /\ stopped sk b g' s0 s') \/
    (r = inl SOCKET_ERROR /\ lost sk s0 s')).
Proof.
  intros Hch Hpart Hf Hn Hh Hsk Hrcs.
  assert (g = [] -> Zlen b < h + n) as Hpb.
  { intros ->. rewrite app_nil_r in Hf. unfold partial in Hpart. by rewrite Hf in Hpart. }
  destruct (Z.eq_dec n 0) as [->|Hn0].
  - destruct Hch as (H1 & H2 & H3 & H4). destruct H4 as [[-> _]|[Hh2 Hrc]].
    { pose proof (rs_range _ _ _ _ H3) as Hr. rewrite app_nil_r in Hr. specialize (Hpb eq_refl). lia. }
    unfold get_raw. apply wp_bind. eapply wp_mono; [apply (wp_getRaw_end sk rc); [by eapply rs_socket|done|lia]|].
    intros r s' (-> & R1 & R2 & R3). cbv beta iota. destruct (Z.eqb_spec rc SOCKET_ERROR); [unfold SOCKET_ERROR in *; lia|].
    change (0 <? 0) with false. cbv iota. apply wp_ret. exists g. left. exists rc.
    assert (drop (Z.to_nat h) (b ++ g) = []) as -> by (apply drop_ge; unfold Zlen in Hh2; lia).
    split; [done|]. split; [done|]. split; [lia|]. split; [done|]. split; [rewrite <- (app_nil_r g); by eapply fed_trans|].
    split; [by eapply frames_trans|]. by eapply rs_socket.
  - eapply wp_mono; [apply (wp_get_raw sk rcs0 n rc SOCKET_ERROR b g h s0); [done|done|lia|done|by right]|].
    intros r s' (g' & more & -> & [(rc' & -> & Hle & (C1 & C2 & C3 & C4))|[(-> & Hlt & Hs)|(-> & Hx)]]).
    + exists (g ++ more). left. exists rc'.
      assert (front (b ++ g ++ more) = Some (fin, tmp, m, h, n)) as Hf' by (rewrite app_assoc; by apply front_app).
      destruct C4 as [[Hnil _]|[Hlen Hrc]].
      { apply app_nil in Hnil as [-> ->]. specialize (Hpb eq_refl). rewrite !app_nil_r in Hle. lia. }
      rewrite slice_all by lia. split_and!; try done. by eapply rs_socket.
    + exists (g ++ more). right. left. split; [done|]. split; [|done]. unfold partial.
      rewrite app_assoc, (front_app _ more _ Hf), <- app_assoc. exact Hlt.
    + exists g. right. right. done.
Qed.

Lemma wp_get_bind {A B} (m : SM (WsSt OS) (Z + A)) (f : A -> SM (WsSt OS) (Z + B)) s (Q : Z + B -> WsSt OS -> Prop) :
  wp m s (fun r s' => match r with inl c => Q (inl c) s' | inr a => wp (f a) s' Q end) -> wp (get_bind m f) s Q.
Proof.
  intros H. unfold get_bind. apply wp_bind. eapply wp_mono; [exact H|]. intros [c|a] s' Hr; [by apply wp_ret|exact Hr].
Qed.

(** How the reading of one frame ends. *)
Definition one_post (sk opcode : Z) (b : list Z) s0 (r : Z + bool * Z * list Z * Z) s' : Prop :=
  exists g,
    (exists fin tmp m h n rc, r = inr (fin, next_opcode opcode tmp, drop (Z.to_nat h) (b ++ g), rc) /\
       front (b ++ g) = Some (fin, tmp, m, h, n) /\ Zlen (b ++ g) = h + n /\ valid_opcode (next_opcode opcode tmp) = true /\
       0 < rc /\ ws_fed sk g s0 s' /\ frames_same s0 s' /\ resting sk [] [] (ws_sock s')) \/
    (r = inl TCPSOCKET_INTERRUPTED /\ partial (b ++ g) /\ stopped sk b g s0 s') \/
    (r = inl SOCKET_ERROR /\ (lost sk s0 s' \/
       (ws_fed sk g s0 s' /\ exists b0 r', b ++ g = b0 :: r' /\ valid_opcode (next_opcode opcode (Z.land b0 15)) = false))).

Lemma xor_mask_zero i l : xor_mask [0; 0; 0; 0] i l = l.
Proof.
  revert i. induction l as [|b l IH]; intros i; cbn -[Nat.modulo]; [done|]. rewrite IH. f_equal.
  assert (i mod 4 < 4)%nat as Hi by (apply Nat.mod_upper_bound; lia). destruct (i mod 4)%nat as [|[|[|[|]]]]; try lia; apply Z.lxor_0_r.
Qed.

(** The extended length is there: the header can be read but for the mask. *)
Lemma wp_get_length sk rcs0 rc b g b0 b1 r s0 s :
  chain sk rcs0 b g 2 rc s0 s -> b ++ g = b0 :: b1 :: r -> sk <> 0 -> rcs0 <> SOCKET_ERROR ->
  let has_mask := negb (Z.shiftr (Z.land b1 255) 7 =? 0) in
  let ext := ext_size (Z.land b1 127) in
  wp (get_length sk (Z.land b1 127) rc) s (fun r s' => exists g' more, g' = g ++ more /\
    ((exists n rc, r = inr (n, rc) /\ chain sk rcs0 b g' (2 + ext) rc s0 s' /\ 0 <= n /\
       front (b ++ g') = Some (negb (Z.shiftr (Z.land b0 255) 7 =? 0), Z.land b0 15, has_mask, 2 + ext + (if has_mask then 4 else 0), n)) \/
     (r = inl TCPSOCKET_INTERRUPTED /\ front (b ++ g') = None /\ stopped sk b g' s0 s') \/ (r = inl SOCKET_ERROR /\ lost sk s0 s'))).
Proof.
  intros Hch Eb Hsk Hrcs has_mask ext. pose proof (ext_size_range (Z.land b1 127)) as Hext. fold ext in Hext.
  assert (2 <= Zlen (b ++ g)) as H2 by (rewrite Eb, !Zlen_cons; pose proof (Zlen_nonneg r); lia).
  assert (forall g' more : list Z, g' = g ++ more -> front (b ++ g') =
    if Zlen (b ++ g') <? 2 + ext then None else
    Some (negb (Z.shiftr (Z.land b0 255) 7 =? 0), Z.land b0 15, has_mask, 2 + ext + (if has_mask then 4 else 0),
      if ext =? 0 then Z.land b1 127 else be_value (slice 2 ext (b ++ g')))) as Hfront.
  { intros g' more ->. unfold front at 1. rewrite app_assoc, slice_app by lia. by rewrite Eb. }
  unfold get_length. fold ext. destruct (Z.eqb_spec ext 0) as [He|He].
  - apply wp_ret. exists g, []. rewrite app_nil_r. split; [done|]. left. exists (Z.land b1 127), rc. split; [done|].
    split; [by rewrite He|]. split; [apply Z.land_nonneg; right; lia|]. rewrite (Hfront g []) by (by rewrite app_nil_r).
    destruct (Z.ltb_spec (Zlen (b ++ g)) (2 + ext)); [lia|done].
  - apply wp_get_bind. eapply wp_mono; [apply (wp_get_raw sk rcs0 ext rc SOCKET_ERROR b g 2 s0); [done|done|lia|done|by right]|].
    intros x s2 (g2 & m2 & Eg & [(rc2 & -> & Hle2 & Hch2)|[(-> & Hlt & Hs)|(-> & Hx)]]); cbv beta iota; [apply wp_ret|..];
      exists g2, m2; (split; [done|]).
    + left. do 2 eexists. split; [done|]. split; [done|]. rewrite (Hfront _ _ Eg). destruct (Z.ltb_spec (Zlen (b ++ g2)) (2 + ext)); [lia|].
      split; [|done]. apply be_value_nonneg, slice_ok. by destruct Hch2 as (_ & _ & [] & _).
    + right. left. split; [done|]. split; [|done]. rewrite (Hfront _ _ Eg). by rewrite (proj2 (Z.ltb_lt _ _) Hlt).
    + by right; right.
Qed.

Lemma wp_get_mask sk rcs0 rc has_mask b g i s0 s :
  chain sk rcs0 b g i rc s0 s -> sk <> 0 -> rcs0 <> SOCKET_ERROR ->
  let h := i + (if has_mask : bool then 4 else 0) in
  wp (get_mask sk has_mask rc) s (fun r s' => exists g' more, g' = g ++ more /\
    ((exists rc, r = inr rc /\ chain sk rcs0 b g' h rc s0 s') \/
     (r = inl TCPSOCKET_INTERRUPTED /\ Zlen (b ++ g') < h /\ stopped sk b g' s0 s') \/ (r = inl SOCKET_ERROR /\ lost sk s0 s'))).
Proof.
  intros Hch Hsk Hrcs h. unfold get_mask, h. destruct has_mask.
  - apply wp_get_bind. eapply wp_mono; [apply (wp_get_raw sk rcs0 4 rc SOCKET_ERROR b g i s0); [done|done|lia|done|by right]|].
    intros r s3 (g3 & m3 & Eg & [(rc3 & -> & Hle3 & Hch3)|[(-> & Hlt & Hs)|(-> & Hx)]]); cbv beta iota; [apply wp_ret|..];
      exists g3, m3; (split; [done|]); [left; by exists rc3|right; by left|right; by right].
  - apply wp_ret. exists g, []. rewrite app_nil_r, Z.add_0_r. split; [done|]. left. by exists rc.
Qed.

Lemma wp_receive_one sk rcs0 opcode b s :
  raw_state sk b 0 s -> partial b -> sk <> 0 -> rcs0 <> SOCKET_ERROR ->
  wp (receive_one rcs0 sk opcode) s (one_post sk opcode b s).
Proof.
  intros Hst Hpart Hsk Hrcs. unfold receive_one. apply wp_get_bind.
  assert (chain sk rcs0 b [] 0 rcs0 s s) as Hch0.
  { split; [by apply fed_nil|]. split; [done|]. rewrite app_nil_r. split; [done|by left]. }
  eapply wp_mono; [apply (wp_get_raw sk rcs0 2 rcs0 TCPSOCKET_INTERRUPTED b [] 0 s); [done|done|lia|done|by left]|].
  intros r s1 (g1 & m1 & _ & [(rc1 & -> & Hle1 & Hch1)|[(-> & Hlt & Hs)|(-> & Hx)]]).
  2: { exists g1. right. left. split; [done|]. split; [|done]. unfold partial. by rewrite front_short. }
  2: { exists g1. right. right. split; [done|by left]. }
  destruct (slice_2 (b ++ g1)) as (b0 & b1 & r1 & Eb & E2); [lia|]. rewrite E2. cbv beta iota zeta.
  destruct (valid_opcode _) eqn:Hv; cbn [negb].
  2: { apply wp_ret. exists g1. right. right. split; [done|]. right. split; [by apply Hch1|]. by exists b0, (b1 :: r1). }
  apply wp_get_bind. eapply wp_mono; [by apply (wp_get_length sk rcs0 rc1 b g1 b0 b1 r1 s)|].
  intros r s2 (g2 & m2 & Eg2 & [(n & rc2 & -> & Hch2 & Hn & Hf2)|[(-> & Hlt & Hs)|(-> & Hx)]]).
  2: { exists g2. right. left. split; [done|]. split; [|done]. unfold partial. by rewrite Hlt. }
  2: { exists g2. right. right. split; [done|by left]. }
  cbv beta iota. set (msk := negb (Z.shiftr (Z.land b1 255) 7 =? 0)) in *. pose proof (ext_size_range (Z.land b1 127)) as Hext.
  apply wp_get_bind. eapply wp_mono; [by apply (wp_get_mask sk rcs0 rc2 msk b g2 (2 + ext_size (Z.land b1 127)) s)|].
  intros r s3 (g3 & m3 & -> & [(rc3 & -> & Hch3)|[(-> & Hlt & Hs)|(-> & Hx)]]).
  2: { exists (g2 ++ m3). right. left. split; [done|]. split; [|done]. unfold partial. rewrite app_assoc, (front_app _ m3 _ Hf2), <- app_assoc. lia. }
  2: { exists g2. right. right. split; [done|by left]. }
  pose proof (front_app _ m3 _ Hf2) as Hf3. rewrite <- app_assoc in Hf3.
  apply wp_get_bind. eapply wp_mono; [eapply (wp_get_payload sk rcs0 rc3 b _ _ _ _ _ n s); [done|done|exact Hf3|done|destruct msk; lia|done|done]|].
  intros r s4 (g4 & [(rc4 & -> & F1 & F2 & F3 & F4 & F5 & F6)|[(-> & Hp & Hs)|(-> & Hx)]]).
  - apply wp_ret. exists g4. left. exists (negb (Z.shiftr (Z.land b0 255) 7 =? 0)), (Z.land b0 15), msk, (2 + ext_size (Z.land b1 127) + (if msk then 4 else 0)), n, rc4. rewrite xor_mask_zero. split; [by destruct msk|]. done.
  - exists g4. right. by left.
  - exists g4. right. right. split; [done|by left].
Qed.

(** ** Writing while reading *)

(** What does not concern the reading of the sockets is changed, and the connection
    goes on. *)
Definition writes_only (k k' : SockSt OS) : Prop :=
  queues k' = queues k /\ def_queue k' = def_queue k /\ (forall x, received x (os k') = received x (os k)) /\
  (forall x stream, feeds x stream (os k) -> feeds x stream (os k')).

Lemma writes_trans k1 k2 k3 : writes_only k1 k2 -> writes_only k2 k3 -> writes_only k1 k3.
Proof. intros (A1 & A2 & A3 & A4) (B1 & B2 & B3 & B4). split_and!; [congruence..| |auto]. intros x. by rewrite B3. Qed.

Lemma writes_resting sk k k' : writes_only k k' -> resting sk [] [] k -> resting sk [] [] k'.
Proof. intros (E1 & E2 & _). unfold resting, reading, distinct, held, qlist. by rewrite E1, E2. Qed.

Lemma wp_putdatas_reading sk w bufs frees k :
  wp (Socket_putdatas sk w bufs frees) k (fun _ k' => writes_only k k').
Proof.
  unfold Socket_putdatas. apply wp_bind. unfold Socket_noPendingWrites. apply wp_bind, wp_get.
  destruct (AList.find _ _) as [r l]. apply wp_bind, wp_modify, wp_ret. set (k1 := set_mod _ k).
  assert (writes_only k k1) as H1 by done. destruct (negb _); [by apply wp_ret|]. apply wp_bind. unfold Socket_writev. apply wp_bind.
  unfold call_os, wp at 1. destruct (sys_writev sk (w :: bufs) (os k1)) as [[rc e] o'] eqn:Ew. do 2 eexists. split; [done|]. cbv beta iota.
  assert (writes_only k (set_os o' k1)) as H2.
  { eapply writes_trans; [exact H1|]. split_and!; try done; [intros x; by eapply writev_received|intros x st Hst; by eapply feeds_writev]. }
  destruct (rc =? SOCKET_ERROR); apply wp_ret; (destruct (_ =? SOCKET_ERROR); [by apply wp_ret|]); (destruct (_ =? foldl _ _ _); [by apply wp_ret|]);
    apply wp_bind; unfold SocketBuffer_pendingWrite; apply wp_modify; do 2 (apply wp_bind; apply wp_modify); by apply wp_ret.
Qed.

Lemma wp_build opcode buf0 bufs k :
  0 <= opcode < 16 -> Zlen (buf0 ++ concat bufs) < 9223372036854775808 ->
  wp (build opcode 1 buf0 bufs [0; 0; 0; 0]) k (fun _ k' => writes_only k k').
Proof.
  intros Hop Hlen. unfold build. cbn [nth]. change (negb (1 =? 0) && (0 =? 0)) with true. cbv iota. apply wp_bind.
  assert (forall k1, writes_only k k1 -> wp random_byte k1 (fun _ k2 => writes_only k k2)) as Hr.
  { intros k1 H1. unfold random_byte. apply wp_bind. unfold call_os, wp at 1.
    destruct (sys_rand (os k1)) as [r o'] eqn:Er. do 2 eexists. split; [done|]. apply wp_ret. eapply writes_trans; [exact H1|].
    assert (o' = snd (sys_rand (os k1))) as -> by (by rewrite Er). split_and!; try done; [intros x; apply rand_received|].
    intros x st Hst. by apply feeds_rand. }
  unfold random_mask. apply wp_bind. eapply wp_mono; [by apply Hr|intros r1 k1 H1]. apply wp_bind. eapply wp_mono; [by apply Hr|intros r2 k2 H2].
  apply wp_bind. eapply wp_mono; [by apply Hr|intros r3 k3 H3]. apply wp_bind. eapply wp_mono; [by apply Hr|intros r4 k4 H4]. apply wp_ret.
  eapply wp_lift; [apply buildFrame_spec; [done|lia|done]|done].
Qed.

Lemma wp_pong sk d s :
  Zlen d < 9223372036854775808 ->
  wp (WebSocket_pong sk d) s (fun _ s' => frames_same s s' /\ buffered s' = buffered s /\ frame_buffer_index s' = frame_buffer_index s /\
    writes_only (ws_sock s) (ws_sock s')).
Proof.
  intros Hd. unfold WebSocket_pong. apply wp_bind, wp_get. destruct (websocket s); [|by apply wp_ret].
  apply wp_bind, wp_on_socket. eapply wp_mono; [apply wp_build; [done|cbn; by rewrite app_nil_r]|]. intros [[w bufs] m] k1 H1.
  apply wp_bind, wp_on_socket. eapply wp_mono; [apply wp_putdatas_reading|]. intros rc k2 H2. apply wp_ret.
  split; [done|]. split; [done|]. split; [done|]. by eapply writes_trans.
Qed.

Lemma wp_ws_close sk code s : wp (WebSocket_close sk code []) s (fun _ _ => True).
Proof.
  unfold WebSocket_close. apply wp_bind, wp_get. destruct (websocket s); [|by apply wp_ret].
  apply wp_bind, wp_on_socket. eapply wp_mono; [apply wp_build; [done|]|]; [done|]. intros [[w bufs] m] k1 H1.
  apply wp_bind, wp_on_socket. eapply wp_mono; [apply wp_putdatas_reading|]. intros rc k2 H2. by apply wp_modify.
Qed.

(** ** A stream of frames *)

(** The frames a server may send: final, without a mask, and with a payload if they have
    data. *)
Definition enc (f : frame) : list Z := encode_frame f [].
Definition is_control (f : frame) : bool := control (f_opcode f).
Definition is_data (f : frame) : bool := (f_opcode f =? 1) || (f_opcode f =? WebSocket_OP_BINARY).
Record server_frame (f : frame) : Prop := {
  sf_fin : f_fin f = true;
  sf_masked : f_masked f = false;
  sf_opcode : f_opcode f ∈ [1; WebSocket_OP_BINARY; WebSocket_OP_CLOSE; WebSocket_OP_PING; WebSocket_OP_PONG];
  sf_length : Zlen (f_payload f) < 9223372036854775808;
  sf_payload : is_data f = true -> f_payload f <> []
}.

Lemma server_opcode f : server_frame f ->
  0 <= f_opcode f < 16 /\ negb (Z.shiftr (Z.land (128 + f_opcode f) 255) 7 =? 0) = true /\ Z.land (128 + f_opcode f) 15 = f_opcode f /\
  valid_opcode (f_opcode f) = true /\ f_opcode f <> 0.
Proof.
  intros [_ _ Hop _ _]. rewrite !elem_of_cons in Hop. destruct Hop as [-> |[-> |[-> |[-> |[-> |Hn]]]]]; try done. by apply elem_of_nil in Hn.
Qed.

Lemma low_bits b : 0 <= b < 128 -> Z.land b 127 = b /\ Z.shiftr (Z.land b 255) 7 = 0.
Proof.
  intros Hb. change 127 with (Z.ones 7). change 255 with (Z.ones 8). rewrite !Z.land_ones, Z.shiftr_div_pow2 by lia.
  change (2 ^ 7) with 128. change (2 ^ 8) with 256. rewrite !Z.mod_small by lia. split; [done|]. by apply Z.div_small.
Qed.

(** The frame at the front of the stream. *)
Lemma front_enc f (later : list Z) :
  server_frame f ->
  exists h, front (enc f ++ later) = Some (true, f_opcode f, false, h, Zlen (f_payload f)) /\
    0 <= h /\ Zlen (enc f) = h + Zlen (f_payload f) /\ drop (Z.to_nat h) (enc f) = f_payload f.
Proof.
  intros Hf. destruct (server_opcode f Hf) as (Hop & Hfin & Hlow & _). destruct Hf as [F1 F2 _ Hlen _]. unfold enc, encode_frame.
  rewrite F1, F2. set (p := f_payload f) in *. set (n := Zlen p) in *. pose proof (Zlen_nonneg p) as Hn. fold n in Hn.
  assert (forall e b1, ext_size b1 = Zlen e -> 0 <= b1 < 128 -> (if ext_size b1 =? 0 then b1 else be_value e) = n ->
    exists h, front (((128 + f_opcode f) :: (b1 :: e) ++ p) ++ later) = Some (true, f_opcode f, false, h, n) /\
      0 <= h /\ Zlen ((128 + f_opcode f) :: (b1 :: e) ++ p) = h + n /\ drop (Z.to_nat h) ((128 + f_opcode f) :: (b1 :: e) ++ p) = p) as Hgen.
  { intros e b1 He Hb1 Hv. destruct (low_bits b1 Hb1) as [L1 L2]. pose proof (Zlen_nonneg e). exists (2 + Zlen e). split; [|split; [lia|split]].
    - unfold front. change (slice 0 2 _) with [128 + f_opcode f; b1]. cbv beta iota zeta. rewrite L1, L2, Hfin, Hlow, He.
      change (negb (0 =? 0)) with false. cbv iota. cbn [app]. rewrite !Zlen_cons, Zlen_app, Zlen_app. pose proof (Zlen_nonneg later).
      fold n. destruct (Z.ltb_spec (1 + (1 + (Zlen e + n + Zlen later))) (2 + Zlen e)); [lia|]. rewrite Z.add_0_r.
      replace (slice 2 (Zlen e) _) with e by (unfold slice; change (drop (Z.to_nat 2) _) with ((e ++ p) ++ later); by rewrite <- app_assoc, Zlen_to_nat, take_app_exact).
      by rewrite <- He, Hv.
    - cbn [app]. rewrite !Zlen_cons, Zlen_app. fold n. lia.
    - replace (Z.to_nat (2 + Zlen e)) with (S (S (length e))) by (unfold Zlen; lia). cbn [app drop]. apply drop_app_exact. }
  unfold length_bytes. destruct (Z.ltb_spec n 126) as [H1|H1]; [|destruct (Z.ltb_spec n 65536) as [H2|H2]].
  - rewrite Z.add_0_l. assert (ext_size n = 0) as E0 by (unfold ext_size; destruct (Z.eqb_spec n 126); [lia|]; destruct (Z.eqb_spec n 127); lia).
    apply (Hgen [] n); [by rewrite E0|lia|by rewrite E0].
  - apply (Hgen (be 2 n) 126); [unfold Zlen; by rewrite be_length|lia|]. change (ext_size 126 =? 0) with false. cbv iota.
    rewrite be_value_be. apply Z.mod_small. cbn. lia.
  - apply (Hgen (be 8 n) 127); [unfold Zlen; by rewrite be_length|lia|]. change (ext_size 127 =? 0) with false. cbv iota.
    rewrite be_value_be. apply Z.mod_small. change (256 ^ Z.of_nat 8) with 18446744073709551616. lia.
Qed.

(** What has been read as a frame is the first frame of the stream. *)
Lemma front_stream fs l (later : list Z) fin tmp m h n :
  Forall server_frame fs -> concat (map enc fs) = l ++ later -> front l = Some (fin, tmp, m, h, n) -> Zlen l = h + n ->
  exists f fs', fs = f :: fs' /\ fin = true /\ tmp = f_opcode f /\ drop (Z.to_nat h) l = f_payload f /\ concat (map enc fs') = later.
Proof.
  intros Hfs Hc Hl Hlen. destruct fs as [|f fs']; [cbn in Hc; symmetry in Hc; by apply app_nil in Hc as [-> _]|].
  apply Forall_cons in Hfs as [Hf _]. cbn [map concat] in Hc. destruct (front_enc f (concat (map enc fs')) Hf) as (h' & E & H0 & El & Ed).
  pose proof (front_app l later _ Hl) as Hl'. rewrite <- Hc, E in Hl'. injection Hl' as <- <- <- <- <-.
  apply app_inj_1 in Hc as [<- Hc]; [|unfold Zlen in *; lia]. by exists f, fs'.
Qed.

(** The frames [fs] are still to come, and [b] is what there is of the first one. *)
Definition at_stream (sk : Z) (stream : list Z) (fs : list frame) (b : list Z) (o : OS) : Prop :=
  feeds sk stream o /\ exists before, stream = before ++ concat (map enc fs) /\ received sk o = before ++ b.
Record connected (sk : Z) (stream : list Z) (fs : list frame) (b : list Z) s : Prop := {
  co_raw : raw_state sk b 0 s;
  co_partial : partial b;
  co_stream : at_stream sk stream fs b (os (ws_sock s));
  co_frames : Forall server_frame fs;
  co_websocket : websocket s = true
}.

Lemma at_stream_fed sk stream fs b g k k' :
  at_stream sk stream fs b (os k) -> fed sk g k k' ->
  at_stream sk stream fs (b ++ g) (os k') /\ exists later, concat (map enc fs) = (b ++ g) ++ later.
Proof.
  intros (Hf & before & Hs & Hr) [Hg Hf']. specialize (Hf' _ Hf). specialize (Hg sk). rewrite Z.eqb_refl, Hr, <- app_assoc in Hg.
  split; [split; [done|by exists before]|]. destruct (feeds_received _ _ _ Hf') as (later & Hl). exists later.
  rewrite Hg, <- app_assoc, Hs in Hl. by apply app_inv_head in Hl.
Qed.

Lemma at_stream_next sk stream f fs l o :
  at_stream sk stream (f :: fs) l o -> l = enc f -> at_stream sk stream fs [] o.
Proof.
  intros (Hf & before & Hs & Hr) ->. split; [done|]. exists (before ++ enc f). rewrite app_nil_r. split; [|done].
  by rewrite Hs, <- app_assoc.
Qed.

Lemma at_stream_writes sk stream fs b k k' :
  at_stream sk stream fs b (os k) -> writes_only k k' -> at_stream sk stream fs b (os k').
Proof. intros (Hf & before & Hs & Hr) (_ & _ & W3 & W4). split; [by apply W4|]. exists before. by rewrite W3. Qed.

(** What one call of [receive_one] does on the stream. *)
Lemma wp_receive_next sk rcs0 opcode stream fs b s :
  connected sk stream fs b s -> sk <> 0 -> rcs0 <> SOCKET_ERROR ->
  wp (receive_one rcs0 sk opcode) s (fun r s' =>
    (exists f fs' rc, fs = f :: fs' /\ r = inr (true, f_opcode f, f_payload f, rc) /\ 0 < rc /\ frames_same s s' /\
       resting sk [] [] (ws_sock s') /\ at_stream sk stream fs' [] (os (ws_sock s'))) \/
    (exists b', r = inl TCPSOCKET_INTERRUPTED /\ frames_same s s' /\ at_stream sk stream fs b' (os (ws_sock s')) /\ partial b' /\
       exists i, raw_state sk b' i s') \/
    (r = inl SOCKET_ERROR /\ lost sk s s')).
Proof.
  intros [C1 C2 C3 C4 C5] Hsk Hrcs. eapply wp_mono; [by apply wp_receive_one|].
  intros r s' (g & [(fin & tmp & m & h & n & rc & -> & Hfr & Hlen & _ & Hrc & Hfed & Hsame & Hrest)|[(-> & Hp & Hfed & Hsame & Hraw)|(-> & Hc)]]).
  - left. destruct (at_stream_fed _ _ _ _ _ _ _ C3 Hfed) as [Hat (later & Hl)].
    destruct (front_stream _ _ _ _ _ _ _ _ C4 Hl Hfr Hlen) as (f & fs' & -> & -> & -> & -> & Hl').
    apply Forall_cons in C4 as [Hf _]. destruct (server_opcode f Hf) as (_ & _ & _ & _ & Hop).
    exists f, fs', rc. split; [done|]. unfold next_opcode. rewrite (proj2 (Z.eqb_neq _ _) Hop). split; [done|]. split; [done|]. split; [done|].
    split; [done|]. eapply at_stream_next; [exact Hat|]. cbn [map concat] in Hl. rewrite Hl' in Hl. by apply app_inv_tail in Hl.
  - right. left. exists (b ++ g). split; [done|]. split; [done|]. split; [by eapply at_stream_fed|]. by split.
  - right. right. split; [done|]. destruct Hc as [Hc|(Hfed & b0 & r' & Hb & Hv)]; [done|]. exfalso.
    destruct (at_stream_fed _ _ _ _ _ _ _ C3 Hfed) as [_ (later & Hl)]. rewrite Hb in Hl.
    destruct fs as [|f fs']; [done|]. apply Forall_cons in C4 as [Hf _]. destruct (server_opcode f Hf) as (_ & _ & Hlow & Hval & Hop).
    cbn [map concat] in Hl. unfold enc, encode_frame in Hl. rewrite (sf_fin f Hf) in Hl. cbn [app] in Hl. injection Hl as E _. rewrite <- E in Hv.
    rewrite Hlow in Hv. unfold next_opcode in Hv. rewrite (proj2 (Z.eqb_neq _ _) Hop), Hval in Hv. done.
Qed.

Definition with_payload (res : option ws_frame) (p : list Z) : ws_frame :=
  match res with None => mkWsFrame p 0 | Some f => mkWsFrame (wf_data f ++ p) (wf_pos f) end.
Definition queue_of (res : option ws_frame) : list (option ws_frame) := match res with None => [] | Some f => [Some f] end.

(** How [WebSocket_receiveFrame] ends: the control frames [ctl] have been dealt with, and
    a frame with data has come or not. *)
Definition loop_post (sk : Z) (stream : list Z) (res : option ws_frame) (fs : list frame) (last : option ws_frame) (rc : Z) s' : Prop :=
  (exists ctl f fs', fs = ctl ++ f :: fs' /\ Forall (fun c => is_control c = true) ctl /\ (res <> None -> ctl = []) /\ is_data f = true /\
     rc = TCPSOCKET_COMPLETE /\ in_frames s' = [Some (with_payload res (f_payload f))] /\ last_frame s' = last /\
     connected sk stream fs' [] s') \/
  (exists ctl fs' b, fs = ctl ++ fs' /\ Forall (fun c => is_control c = true) ctl /\ (res <> None -> ctl = []) /\
     rc = TCPSOCKET_INTERRUPTED /\ in_frames s' = queue_of res /\ last_frame s' = last /\ connected sk stream fs' b (set_index 0 s')) \/
  (rc = SOCKET_ERROR /\ ((recv_fails sk /\ in_frames s' = queue_of res) \/
     (res = None /\ exists f, In f fs /\ f_opcode f = WebSocket_OP_CLOSE))).

Lemma raw_state_0 sk b i s : raw_state sk b i s -> raw_state sk b 0 (set_index 0 s).
Proof. intros [H1 H2 H3 H4 H5]. split; try done. lia. Qed.

Lemma wp_set_head q f s r :
  in_frames s = queue_of q -> r = (match q with None => [] | Some _ => [f] end) ->
  wp (set_head f) s (fun _ s' => s' = set_frames r (last_frame s) s).
Proof. intros E ->. unfold set_head. apply wp_modify. rewrite E. destruct q; [done|]. by destruct s; cbn in *; subst. Qed.

Definition next_is_data (fs : list frame) : Prop := match fs with f :: _ => is_data f = true | [] => True end.

Lemma server_kinds f : server_frame f ->
  is_control f = true \/ f_opcode f = WebSocket_OP_CLOSE \/ (is_data f = true /\ is_control f = false /\ f_opcode f <> WebSocket_OP_CLOSE).
Proof.
  intros [_ _ Hop _ _]. unfold is_control, is_data. rewrite !elem_of_cons in Hop.
  destruct Hop as [-> |[-> |[-> |[-> |[-> |Hn]]]]]; [right; right|right; right|right; left|left|left|by apply elem_of_nil in Hn]; done.
Qed.

Lemma control_no_data f : server_frame f -> is_control f = true -> is_data f = false.
Proof.
  intros [_ _ Hop _ _]. unfold is_control, is_data. rewrite !elem_of_cons in Hop.
  by destruct Hop as [-> |[-> |[-> |[-> |[-> |Hn%elem_of_nil]]]]].
Qed.

(** A control frame is dealt with when the queue is empty. *)
Lemma wp_control sk stream fs f s :
  connected sk stream fs [] s -> server_frame f -> in_frames s = [] ->
  wp (_ ← (if f_opcode f =? WebSocket_OP_PING then WebSocket_pong sk (f_payload f) else mret ()); set_head None) s
    (fun _ s' => in_frames s' = [] /\ last_frame s' = last_frame s /\ connected sk stream fs [] s').
Proof.
  intros [C1 C2 C3 C4 C5] Hf Hq. apply wp_bind.
  apply wp_mono with (Q := fun _ s1 => frames_same s s1 /\ buffered s1 = buffered s /\ frame_buffer_index s1 = frame_buffer_index s /\
    writes_only (ws_sock s) (ws_sock s1)).
  { destruct (f_opcode f =? WebSocket_OP_PING); [by apply wp_pong, Hf|by apply wp_ret]. }
  intros [] s1 ((A1 & A2 & A3) & A4 & A5 & A6). eapply wp_mono; [apply (wp_set_head None None s1 []); [by rewrite A2, Hq|done]|].
  intros _ s2 ->. split; [done|]. split; [done|]. destruct C1 as [R1 R2 R3 R4 R5]. split; try done; [|by eapply at_stream_writes|by rewrite <- C5].
  split; [by rewrite <- R1|by rewrite <- R2|done|done|by eapply writes_resting].
Qed.

Lemma wp_receive_loop fuel sk rcs0 stream opcode res fs b last s :
  connected sk stream fs b s -> in_frames s = queue_of res -> last_frame s = last -> (res <> None -> next_is_data fs) ->
  (length fs < fuel)%nat -> sk <> 0 -> rcs0 <> SOCKET_ERROR ->
  wp (receive_loop rcs0 fuel sk opcode res) s (fun r s' => loop_post sk stream res fs last (fst r) s').
Proof.
  revert opcode res fs b s. induction fuel as [|fuel IH]; intros opcode res fs b s Hco Hq Hlast Hctl Hfuel Hsk Hrcs; [lia|].
  cbn [receive_loop]. apply wp_bind. eapply wp_mono; [by apply (wp_receive_next sk rcs0 opcode stream fs b)|].
  intros r s1 [(f & fs' & rc & -> & -> & Hrc & Hsame & Hrest & Hat)|[(b' & -> & Hsame & Hat & Hp & i & Hraw)|(-> & Hx)]].
  2: { apply wp_ret. destruct Hsame as (S1 & S2 & S3). right. left. exists [], fs, b'. split; [done|]. split; [by apply Forall_nil|].
       split; [done|]. split; [done|]. split; [by rewrite S2|]. split; [congruence|]. destruct Hco. split; try done.
       - by eapply raw_state_0.
       - cbn. congruence. }
  2: { apply wp_ret. right. right. split; [done|]. destruct Hx as [Hx (_ & Hx2 & _)]. left. split; [done|congruence]. }
  destruct Hsame as (S1 & S2 & S3). pose proof (co_frames _ _ _ _ _ Hco) as Hfs. apply Forall_cons in Hfs as [Hf Hfs'].
  fold (with_payload res (f_payload f)). set (res' := with_payload res (f_payload f)). apply wp_bind.
  eapply wp_mono; [apply (wp_set_head res (Some res') s1 (match res with None => [] | Some _ => [Some res'] end)); [by rewrite S2|done]|].
  intros [] s2 ->. set (s2 := set_frames _ _ s1). apply wp_bind. eapply wp_mono; [apply (wp_getRaw_end sk rc s2); [exact Hrest|done|lia]|].
  intros r s3 (-> & Hfed & (T1 & T2 & T3) & Hraw). cbv beta iota zeta. destruct (Z.eqb_spec rc SOCKET_ERROR); [unfold SOCKET_ERROR in *; lia|].
  cbn [negb]. assert (connected sk stream fs' [] s3) as Hco3.
  { split; try done; [|by rewrite T1; cbn; rewrite S1; apply Hco]. by apply (at_stream_fed _ _ _ [] [] (ws_sock s2)). }
  assert (last_frame s3 = last) as Hl3 by (rewrite T3; cbn; congruence).
  assert (in_frames s3 = match res with None => [] | Some _ => [Some res'] end) as Hq3 by (by rewrite T2).
  destruct (server_kinds f Hf) as [Hk|[Hk|(Hk & Hk2 & Hk3)]].
  - assert (res = None) as -> by (destruct res; [|done]; specialize (Hctl ltac:(done)); unfold next_is_data in Hctl; by rewrite (control_no_data f Hf Hk) in Hctl).
    fold (is_control f). rewrite Hk. change (wf_data res') with (f_payload f).
    apply wp_bind_assoc. eapply wp_mono; [by apply (wp_control sk stream fs' f s3)|].
    intros _ s4 (U1 & U2 & U3). cbn [length] in Hfuel. eapply wp_mono; [apply (IH (f_opcode f) None fs' [] s4); try done; [congruence|lia]|].
    intros [rc' al] s5 [(ctl & f' & fs2 & -> & P1 & P2 & P3)|[(ctl & fs2 & b2 & -> & P1 & P2 & P3)|(P1 & P2)]]; cbn [fst] in *.
    + left. exists (f :: ctl), f', fs2. split; [done|]. split; [by apply Forall_cons|]. by split.
    + right. left. exists (f :: ctl), fs2, b2. split; [done|]. split; [by apply Forall_cons|]. by split.
    + right. right. split; [done|]. destruct P2 as [?|(_ & f2 & Hin & ?)]; [by left|right]. split; [done|]. exists f2. split; [by right|done].
  - assert (res = None) as -> by (destruct res; [|done]; specialize (Hctl ltac:(done)); unfold next_is_data, is_data in Hctl; by rewrite Hk in Hctl).
    assert (control (f_opcode f) = false) as -> by (by rewrite Hk). rewrite (proj2 (Z.eqb_eq _ _) Hk).
    apply wp_bind. eapply wp_mono; [by apply (wp_set_head None None s3 [])|].
    intros _ s4 _. apply wp_bind. eapply wp_mono; [apply wp_ws_close|]. intros _ s5 _. apply wp_ret. right. right. split; [done|]. right.
    split; [done|]. exists f. split; [by left|done].
  - fold (is_control f). rewrite Hk2, (proj2 (Z.eqb_neq _ _) Hk3). apply wp_bind, wp_modify, wp_ret. left. exists [], f, fs'.
    split; [done|]. split; [by apply Forall_nil|]. split; [done|]. split; [done|]. split; [done|]. fold res'.
    destruct res as [f0|]; rewrite Hq3; (split; [done|]); (split; [done|]); [done|]. destruct Hco3 as [D1 D2 D3 D4 D5]. by destruct D1.
Qed.

(** [WebSocket_receiveFrame] when at most one frame is queued. *)
Lemma wp_receiveFrame fuel sk rcs0 stream res fs b s :
  connected sk stream fs b s -> in_frames s = queue_of res -> (res <> None -> next_is_data fs) ->
  (length fs < fuel)%nat -> sk <> 0 -> rcs0 <> SOCKET_ERROR ->
  wp (WebSocket_receiveFrame rcs0 fuel sk) s (fun r s' =>
    (exists ctl f fs', fs = ctl ++ f :: fs' /\ Forall (fun c => is_control c = true) ctl /\ (res <> None -> ctl = []) /\ is_data f = true /\
       fst r = TCPSOCKET_COMPLETE /\ in_frames s' = [Some (with_payload res (f_payload f))] /\ connected sk stream fs' [] s') \/
    (exists ctl fs' b, fs = ctl ++ fs' /\ Forall (fun c => is_control c = true) ctl /\ (res <> None -> ctl = []) /\
       fst r = TCPSOCKET_INTERRUPTED /\ in_frames s' = queue_of res /\ connected sk stream fs' b s') \/
    (fst r = SOCKET_ERROR /\ ((recv_fails sk /\ in_frames s' = queue_of res) \/
       (res = None /\ exists f, In f fs /\ f_opcode f = WebSocket_OP_CLOSE)))).
Proof.
  intros Hco Hq Hnext Hfuel Hsk Hrcs. unfold WebSocket_receiveFrame. apply wp_bind.
  apply wp_mono with (Q := fun r s' => r = res /\ s' = s).
  { unfold head_frame. apply wp_bind, wp_get. rewrite Hq. destruct res; by apply wp_ret. }
  intros ? ? [-> ->]. apply wp_bind. eapply wp_mono; [by apply (wp_receive_loop fuel sk rcs0 stream WebSocket_OP_BINARY res fs b (last_frame s))|].
  intros [rc al] s1 [(ctl & f & fs' & H1 & H2 & H3 & H4 & H5 & H6 & _ & H7)|[(ctl & fs' & b' & H1 & H2 & H3 & H4 & H5 & _ & H6)|(H1 & H2)]];
    cbn [fst] in *; subst rc; apply wp_bind.
  - apply wp_ret, wp_ret. left. by exists ctl, f, fs'.
  - apply wp_modify, wp_ret. right. left. by exists ctl, fs', b'.
  - apply wp_ret, wp_ret. right. by right.
Qed.

End Raw.
End WsReads.
