(* ===== verification/WsFactory.v ===== *)
(** * Packets over WebSocket frames

    [MQTTPacket_Factory] when [net->websocket] is set: the transport that
    [src/src/WebSocket.c] makes of a socket, and the theorem that the packets read are
    the bytes of the data frames of a server, however these are cut.  A frame holds parts
    of packets, or several; PING and PONG come between the packets. *)

From S2P Require Import Prelude.
From S2P Require Import LinkedList.
From S2P Require Import Properties.
From S2P Require Import Clients.
From S2P Require Import Packet.
From S2P Require Import State.
From S2P Require Import PacketIO.
From S2P Require Import Socket.
From S2P Require Import Reads.
From S2P Require Import WsFrames.
From S2P Require Import WsReads.
From Stdlib Require Import ZArith Lia List.
From stdpp Require Import base numbers list gmap.

Open Scope Z_scope.

Module WsFactory.
Import LinkedList Properties Clients Packet State PacketIO Socket Reads WsFrames WsReads.

(** ** The transport *)

(** [WsStuck] is the state after an access outside of a buffer or to freed memory. *)
Inductive WsNet (OS : Type) : Type :=
| Ws (s : WsSt OS)
| WsStuck.
Arguments Ws {OS} s.
Arguments WsStuck {OS}.

Section Transport.
Context {OS : Type} {SY : Sys OS} {SR : SysRand OS}.
Variable rcs0 : Z.
Variable fuel : nat.

Definition ws_run {A} (a0 : A) (m : SM (WsSt OS) A) (n : WsNet OS) : A * WsNet OS :=
  match n with
  | WsStuck => (a0, WsStuck)
  | Ws s => match m s with Ok (a, s') => (a, Ws s') | _ => (a0, WsStuck) end
  end.

Definition ws_transport : Transport (WsNet OS) := {|
  putdatas sk buf0 bufs mask n :=
    ws_run (SOCKET_ERROR, bufs, mask) (s ← sm_get; on_socket (WebSocket_putdatas sk (websocket s) buf0 bufs mask [])) n;
  noPendingWrites sk := ws_run false (on_socket (Socket_noPendingWrites sk));
  updateWrite sk topic payload := ws_run false (on_socket (SocketBuffer_updateWrite sk topic payload));
  getch sk := ws_run (SOCKET_ERROR, 0) (WebSocket_getch rcs0 fuel sk);
  getdata sk bytes := ws_run (None, 0) (WebSocket_getdata rcs0 fuel sk bytes);
  framePos n := fst (ws_run 0 WebSocket_framePos n);
  framePosSeekTo pos n := snd (ws_run () (WebSocket_framePosSeekTo pos) n);
  net_close sk n := snd (ws_run () (_ ← WebSocket_close sk WebSocket_CLOSE_NORMAL []; on_socket (Socket_close sk)) n);
  time_now := ws_run 0 (on_socket (call_os sys_clock))
|}.

End Transport.

(** ** The order of the frames *)

Definition is_packet (p : list Z) : Prop :=
  exists header digits body, p = header :: digits ++ body /\ digits_value digits = Some (Zlen body).

(** The bytes in the data frames. *)
Definition payloads (fs : list frame) : list Z := concat (map f_payload (List.filter is_data fs)).

(** When [u] has been received and not been read: the frames that have no data come
    where packets are whole. *)
Definition between_packets (u : list Z) (fs : list frame) : Prop :=
  forall a f b, fs = a ++ f :: b -> is_data f = false -> exists ps, Forall is_packet ps /\ u ++ payloads a = concat ps.

Definition incomplete (u : list Z) : Prop := forall p x, is_packet p -> u <> p ++ x.

Lemma payloads_app a b : payloads (a ++ b) = payloads a ++ payloads b.
Proof. unfold payloads. by rewrite List.filter_app, map_app, concat_app. Qed.

Lemma payloads_control ctl : Forall (fun c => is_control c = true) ctl -> Forall server_frame ctl -> payloads ctl = [].
Proof.
  induction 1 as [|c l Hc _ IH]; intros Hs; [done|]. apply Forall_cons in Hs as [H1 H2]. unfold payloads. cbn [List.filter].
  rewrite (control_no_data c H1 Hc). by apply IH.
Qed.

Lemma payloads_data f : is_data f = true -> payloads [f] = f_payload f.
Proof. intros Hf. unfold payloads. cbn [List.filter]. rewrite Hf. cbn. by rewrite app_nil_r. Qed.

Lemma between_after u fs1 fs : between_packets u (fs1 ++ fs) -> between_packets (u ++ payloads fs1) fs.
Proof.
  intros H a f b -> Hf. destruct (H (fs1 ++ a) f b) as (ps & H1 & H2); [by rewrite app_assoc|done|].
  exists ps. split; [done|]. by rewrite <- app_assoc, <- payloads_app.
Qed.

Lemma digits_unique d d' x y n m :
  digits_value d = Some n -> digits_value d' = Some m -> d ++ x = d' ++ y -> d = d'.
Proof.
  intros H1 H2 E. apply app_eq_inv in E as [(k & -> & _)|(k & -> & _)].
  - by rewrite (digits_prefix _ _ _ _ H2 H1), app_nil_r.
  - by rewrite (digits_prefix _ _ _ _ H1 H2), app_nil_r.
Qed.

Lemma packet_unique p q x y : is_packet p -> is_packet q -> p ++ x = q ++ y -> p = q.
Proof.
  intros (h & d & b & -> & Hd) (h' & d' & b' & -> & Hd') E. cbn in E. injection E as <- E. rewrite <- !app_assoc in E.
  pose proof (digits_unique _ _ _ _ _ _ Hd Hd' E) as <-. apply app_inv_head in E. rewrite Hd in Hd'. injection Hd' as Hl.
  apply app_inj_1 in E as [-> _]; [done|]. unfold Zlen in Hl. lia.
Qed.

Lemma between_packet p u fs : is_packet p -> between_packets (p ++ u) fs -> between_packets u fs.
Proof.
  intros Hp H a f b -> Hf. destruct (H a f b eq_refl Hf) as (ps & H1 & H2). rewrite <- app_assoc in H2.
  destruct ps as [|q ps]; [by destruct Hp as (? & ? & ? & -> & _)|]. apply Forall_cons in H1 as [Hq H1]. cbn in H2.
  pose proof (packet_unique _ _ _ _ Hp Hq H2) as <-. apply app_inv_head in H2. by exists ps.
Qed.

Lemma between_next u fs : between_packets u fs -> incomplete u -> u <> [] -> next_is_data fs.
Proof.
  intros H Hu Hne. destruct fs as [|f fs]; [done|]. cbn. destruct (is_data f) eqn:Hf; [done|]. exfalso.
  destruct (H [] f fs eq_refl Hf) as (ps & H1 & H2). change (payloads []) with (@nil Z) in H2. rewrite app_nil_r in H2.
  destruct ps as [|p ps]; [done|]. apply Forall_cons in H1 as [Hp _]. by apply (Hu p (concat ps)).
Qed.

Lemma more_no_value ds x : all_more (ds ++ x) -> digits_value ds = None.
Proof.
  induction ds as [|c r IH]; [done|]. intros H. cbn in H. apply Forall_cons in H as [Hc H]. cbn.
  destruct (Z.eqb_spec (Z.land c 128) 0); [done|]. by rewrite IH.
Qed.

Lemma incomplete_digits h ds : all_more ds -> incomplete (h :: ds).
Proof.
  intros Hm p x (h' & d & b & -> & Hd) E. cbn in E. injection E as <- ->. rewrite <- app_assoc in Hm.
  apply more_no_value in Hm. congruence.
Qed.

Lemma incomplete_body h ds n part : digits_value ds = Some n -> Zlen part < n -> incomplete (h :: ds ++ part).
Proof.
  intros Hd Hn p x (h' & d & b & -> & Hd') E. cbn in E. injection E as <- E. rewrite <- app_assoc in E.
  pose proof (digits_unique _ _ _ _ _ _ Hd Hd' E) as <-. apply app_inv_head in E. subst part. rewrite Hd in Hd'. injection Hd' as ->.
  rewrite Zlen_app in Hn. pose proof (Zlen_nonneg x). lia.
Qed.

(** ** Reading *)

Section Factory.
Context {OS : Type} {SY : Sys OS} {SL : SysLaws OS} {SR : SysRand OS} {FD : Feeds OS}.
Implicit Types s : WsSt OS.
Variable rcs0 : Z.
Variable fuel : nat.
Hypothesis rcs0_ok : rcs0 <> SOCKET_ERROR.

(** The connection is there, and [fs] are the frames to come. *)
Definition opened (sk : Z) (stream : list Z) (fs : list frame) s : Prop :=
  (exists b, connected sk stream fs b s) /\ (List.length fs < fuel)%nat.

Definition broken (sk : Z) (fs : list frame) : Prop := recv_fails sk \/ exists f, In f fs /\ f_opcode f = WebSocket_OP_CLOSE.

(** The first frame, of which [pre] has been read before the packet, and [c] since. *)
Definition mid_frame (pre c u : list Z) : ws_frame := mkWsFrame (pre ++ c ++ u) (Zlen (pre ++ c)).
Definition mid (pre c u : list Z) s : Prop := in_frames s = [Some (mid_frame pre c u)].

Lemma opened_queue sk stream fs s l last : opened sk stream fs s -> opened sk stream fs (set_frames l last s).
Proof. intros [(b & [[H1 H2 H3 H4 H5] C2 C3 C4 C5]) Hl]. split; [|done]. exists b. by do 2 (split; try done). Qed.

(** What is left of [WebSocket_getch] when there is a frame. *)
Lemma wp_take_char sk stream fs pre c x u s rc (Q : Z * Z -> WsSt OS -> Prop) :
  opened sk stream fs s -> mid pre c (x :: u) s ->
  (forall s', opened sk stream fs s' -> mid pre (c ++ [x]) u s' -> Q (TCPSOCKET_COMPLETE, x) s') ->
  wp (if wf_pos (mid_frame pre c (x :: u)) <? Zlen (wf_data (mid_frame pre c (x :: u))) then
        match wf_data (mid_frame pre c (x :: u)) !! Z.to_nat (wf_pos (mid_frame pre c (x :: u))) with
        | Some ch => _ ← set_head (Some (mkWsFrame (wf_data (mid_frame pre c (x :: u))) (wf_pos (mid_frame pre c (x :: u)) + 1)));
                     mret (TCPSOCKET_COMPLETE, ch)
        | None => sm_oob
        end
      else mret (rc, 0)) s Q.
Proof.
  intros Ho Hm HQ. unfold mid_frame. cbn [wf_pos wf_data]. rewrite !Zlen_app, Zlen_cons. pose proof (Zlen_nonneg u).
  destruct (Z.ltb_spec (Zlen pre + Zlen c) (Zlen pre + (Zlen c + (1 + Zlen u)))); [|lia].
  rewrite <- Zlen_app, app_assoc. rewrite Zlen_to_nat, list_lookup_middle by done. apply wp_bind.
  eapply wp_mono; [eapply (wp_set_head (Some (mid_frame pre c (x :: u)))); [exact Hm|reflexivity]|]. intros _ s' ->. apply wp_ret, HQ.
  - by apply opened_queue.
  - unfold mid, mid_frame. cbn. f_equal. f_equal. f_equal; [by rewrite <- !app_assoc|rewrite !Zlen_app, Zlen_cons, Zlen_nil; lia].
Qed.

(** The queue, with nothing read of a packet when it is empty. *)
Definition view (pre c u : list Z) (res : option ws_frame) : Prop :=
  match res with None => pre = [] /\ c = [] /\ u = [] | Some f => f = mid_frame pre c u end.

Lemma wp_head s res : in_frames s = queue_of res -> wp head_frame s (fun r s' => r = res /\ s' = s).
Proof. intros Hq. unfold head_frame. apply wp_bind, wp_get. rewrite Hq. destruct res; by apply wp_ret. Qed.

Lemma mid_payload pre c u res p : view pre c u res -> with_payload res p = mid_frame pre c (u ++ p).
Proof.
  destruct res as [f|]; [intros ->|intros (-> & -> & ->); done]. unfold with_payload, mid_frame. cbn. by rewrite <- !app_assoc.
Qed.

(** [WebSocket_receiveFrame], with what it does to the bytes of the frames. *)
Lemma wp_receive sk stream fs pre c u res s :
  opened sk stream fs s -> in_frames s = queue_of res -> view pre c u res -> (res <> None -> next_is_data fs) -> sk <> 0 ->
  wp (WebSocket_receiveFrame rcs0 fuel sk) s (fun r s' => exists fs1 fs', fs = fs1 ++ fs' /\
    ((fst r = TCPSOCKET_COMPLETE /\ fs1 <> [] /\ mid pre c (u ++ payloads fs1) s' /\ payloads fs1 <> [] /\ opened sk stream fs' s') \/
     (fst r = TCPSOCKET_INTERRUPTED /\ payloads fs1 = [] /\ in_frames s' = queue_of res /\ opened sk stream fs' s') \/
     (fst r = SOCKET_ERROR /\ ((recv_fails sk /\ in_frames s' = queue_of res) \/ (res = None /\ broken sk fs))))).
Proof.
  intros [(b & Hco) Hl] Hq Hv Hnext Hsk. pose proof (co_frames _ _ _ _ _ Hco) as Hsf.
  eapply wp_mono; [by apply (wp_receiveFrame fuel sk rcs0 stream res fs b)|].
  intros r s' [(ctl & f & fs' & -> & Hc & _ & Hf & Hr & Hq' & Hco')|[(ctl & fs' & b' & -> & Hc & _ & Hr & Hq' & Hco')|(Hr & H)]].
  - apply Forall_app in Hsf as [Hs1 Hs2]. apply Forall_cons in Hs2 as [Hs2 _].
    exists (ctl ++ [f]), fs'. split; [by rewrite <- app_assoc|]. left. split; [done|]. split; [by destruct ctl|].
    rewrite payloads_app, (payloads_control ctl), (payloads_data f) by done. cbn [app].
    split; [unfold mid; by rewrite Hq', (mid_payload pre c u)|]. split; [by apply Hs2|]. split; [by exists []|].
    rewrite length_app in Hl. cbn in Hl. lia.
  - apply Forall_app in Hsf as [Hs1 _]. exists ctl, fs'. split; [done|]. right. left. split; [done|]. split; [by apply payloads_control|].
    split; [done|]. split; [by exists b'|]. rewrite length_app in Hl. lia.
  - exists [], fs. split; [done|]. right. right. split; [done|]. destruct H as [H|[H1 H2]]; [by left|right]. split; [done|by right].
Qed.

(** [WebSocket_getch] *)
Lemma wp_ws_getch sk stream fs pre c u res s :
  opened sk stream fs s -> in_frames s = queue_of res -> view pre c u res -> (u = [] -> res <> None -> next_is_data fs) -> sk <> 0 ->
  wp (WebSocket_getch rcs0 fuel sk) s (fun r s' => exists fs1 fs', fs = fs1 ++ fs' /\
    ((exists x u', r = (TCPSOCKET_COMPLETE, x) /\ u ++ payloads fs1 = x :: u' /\ mid pre (c ++ [x]) u' s' /\ opened sk stream fs' s') \/
     (fst r = TCPSOCKET_INTERRUPTED /\ u = [] /\ payloads fs1 = [] /\ in_frames s' = queue_of res /\ opened sk stream fs' s') \/
     (fst r = SOCKET_ERROR /\ broken sk fs))).
Proof.
  intros Ho Hq Hv Hnext Hsk. unfold WebSocket_getch. apply wp_bind, wp_get. destruct Ho as [(b & Hco) Hl].
  rewrite (co_websocket _ _ _ _ _ Hco). apply wp_bind. eapply wp_mono; [by apply (wp_head s res)|]. intros ? ? [-> ->].
  apply wp_bind. destruct (decide (u = [])) as [->|Hu].
  - assert (unread_frame res = None) as ->.
    { destruct res as [f|]; [|done]. rewrite Hv. unfold unread_frame, mid_frame. cbn. by rewrite app_nil_r, Z.eqb_refl. }
    apply wp_bind. eapply wp_mono; [apply (wp_receive sk stream fs pre c [] res); [by split; [exists b|]|done|done|by apply Hnext|done]|].
    intros [rc al] s1 (fs1 & fs' & -> & [(Hrc & _ & Hm & Hp & Ho')|[(Hrc & Hp & Hq' & Ho')|(Hrc & H)]]); cbn [fst] in Hrc; subst rc.
    + change (negb (TCPSOCKET_COMPLETE =? TCPSOCKET_COMPLETE)) with false. cbv iota. cbn [app] in Hm. destruct (payloads fs1) as [|x u'] eqn:Ep; [done|].
      apply wp_bind. eapply wp_mono; [by apply (wp_head s1 (Some (mid_frame pre c (x :: u'))))|]. intros ? ? [-> ->]. apply wp_ret.
      eapply wp_take_char; [exact Ho'|exact Hm|]. intros s2 H1 H2. exists fs1, fs'. split; [done|]. left. exists x, u'. by rewrite Ep.
    + change (negb (TCPSOCKET_INTERRUPTED =? TCPSOCKET_COMPLETE)) with true. cbv iota. do 2 apply wp_ret.
      exists fs1, fs'. split; [done|]. right. by left.
    + change (negb (SOCKET_ERROR =? TCPSOCKET_COMPLETE)) with true. cbv iota. do 2 apply wp_ret.
      exists fs1, fs'. split; [done|]. right. right. split; [done|]. destruct H as [[H _]|[_ H]]; [by left|done].
  - destruct res as [f|]; [|by destruct Hv as (_ & _ & ?)]. cbn in Hv. subst f. destruct u as [|x u]; [done|].
    assert (unread_frame (Some (mid_frame pre c (x :: u))) = Some (mid_frame pre c (x :: u))) as ->.
    { unfold unread_frame, mid_frame. cbn. rewrite !Zlen_app, Zlen_cons. pose proof (Zlen_nonneg u).
      destruct (Z.eqb_spec (Zlen pre + (Zlen c + (1 + Zlen u))) (Zlen pre + Zlen c)); [lia|done]. }
    apply wp_ret. eapply wp_take_char; [by split; [exists b|]|exact Hq|]. intros s2 H1 H2. exists [], fs. split; [done|]. left. exists x, u.
    by rewrite app_nil_r.
Qed.

(** What there is of a packet after a failed [WebSocket_getdata]: the frame is still there. *)
Definition cut_short (sk : Z) (stream : list Z) (fs : list frame) (pre c u : list Z) s : Prop :=
  exists fs1 fs', fs = fs1 ++ fs' /\ mid pre c (u ++ payloads fs1) s /\ (opened sk stream fs' s \/ recv_fails sk).

Lemma mid_length pre c u : Zlen (wf_data (mid_frame pre c u)) - wf_pos (mid_frame pre c u) = Zlen u.
Proof. unfold mid_frame. cbn. rewrite !Zlen_app. lia. Qed.

(** The loop of [WebSocket_getdata]. *)
Lemma wp_fill sk stream bytes pre c n fs u s :
  opened sk stream fs s -> mid pre c u s -> between_packets (c ++ u) fs -> c <> [] ->
  (forall part, Zlen part < bytes -> incomplete (c ++ part)) -> (List.length fs < n)%nat -> sk <> 0 ->
  wp (fill rcs0 fuel n sk bytes (mid_frame pre c u)) s (fun r s' =>
    (exists fs1 fs', fs = fs1 ++ fs' /\ r = (mid_frame pre c (u ++ payloads fs1), true) /\ bytes <= Zlen (u ++ payloads fs1) /\
       mid pre c (u ++ payloads fs1) s' /\ opened sk stream fs' s') \/
    (exists part, r = (mid_frame pre c part, false) /\ Zlen part < bytes /\ cut_short sk stream fs pre c u s')).
Proof.
  revert fs u s. induction n as [|n IH]; intros fs u s Ho Hm Hb Hc Hinc Hn Hsk; [lia|]. cbn [fill].
  rewrite mid_length. destruct (Z.leb_spec bytes (Zlen u)) as [Hle|Hlt].
  { apply wp_ret. left. exists [], fs. change (payloads []) with (@nil Z). by rewrite app_nil_r. }
  apply wp_bind. eapply wp_mono; [apply (wp_receive sk stream fs pre c u (Some (mid_frame pre c u))); try done|].
  { intros _. eapply between_next; [exact Hb|by apply Hinc|by destruct c]. }
  intros [rc al] s1 (fs1 & fs' & -> & [(Hrc & Hne & Hm1 & Hp & Ho')|[(Hrc & Hp & Hq' & Ho')|(Hrc & H)]]); cbn [fst] in Hrc; subst rc.
  - change (negb (TCPSOCKET_COMPLETE =? TCPSOCKET_COMPLETE)) with false. cbv iota.
    apply wp_bind. eapply wp_mono; [by apply (wp_head s1 (Some (mid_frame pre c (u ++ payloads fs1))))|]. intros ? ? [-> ->].
    eapply wp_mono; [apply (IH fs' (u ++ payloads fs1) s1); try done|].
    + rewrite app_assoc. by apply between_after.
    + rewrite length_app in Hn. destruct fs1; [done|]. cbn in Hn. lia.
    + intros r s2 [(f2 & f3 & -> & -> & H2)|(part & -> & Hlt2 & f2 & f3 & -> & H2)].
      * left. exists (fs1 ++ f2), f3. split; [by rewrite app_assoc|]. by rewrite payloads_app, app_assoc.
      * right. exists part. split; [done|]. split; [done|]. exists (fs1 ++ f2), f3. split; [by rewrite app_assoc|]. by rewrite payloads_app, app_assoc.
  - change (negb (TCPSOCKET_INTERRUPTED =? TCPSOCKET_COMPLETE)) with true. cbv iota. apply wp_ret. right. exists u.
    split; [done|]. split; [done|]. exists fs1, fs'. rewrite Hp, app_nil_r. split; [done|]. split; [exact Hq'|by left].
  - change (negb (SOCKET_ERROR =? TCPSOCKET_COMPLETE)) with true. cbv iota. apply wp_ret. right. exists u. split; [done|]. split; [done|].
    destruct H as [[H Hq']|[H _]]; [|done]. exists [], (fs1 ++ fs'). change (payloads []) with (@nil Z). rewrite app_nil_r.
    split; [done|]. split; [exact Hq'|by right].
Qed.

(** The bytes that have not been read, between packets. *)
Definition unread (u : list Z) s : Prop :=
  (in_frames s = [] /\ u = []) \/ (exists pre, mid pre [] u s /\ u <> []).

Lemma unread_after pre c body u s :
  u <> [] -> unread u (set_frames [Some (mkWsFrame (pre ++ c ++ body ++ u) (Zlen (pre ++ c) + Zlen body))] (last_frame s) s).
Proof.
  intros Hu. right. exists (pre ++ c ++ body). split; [|done]. unfold mid, mid_frame. cbn [in_frames set_frames].
  f_equal. f_equal. f_equal; [by rewrite <- !app_assoc|]. rewrite app_nil_r, !Zlen_app. lia.
Qed.

Lemma wp_detach sk stream fs pre c u s :
  mid pre c u s -> opened sk stream fs s -> wp detach_head s (fun _ s' => unread [] s' /\ opened sk stream fs s').
Proof.
  intros Hm Ho. unfold detach_head. apply wp_modify. unfold mid in Hm. rewrite Hm. split; [by left|by apply opened_queue].
Qed.

(** [WebSocket_getdata], for the bytes after the fixed header of a packet. *)
Lemma wp_ws_getdata sk stream n pre c fs u s :
  opened sk stream fs s -> mid pre c u s -> between_packets (c ++ u) fs -> c <> [] -> 0 <= n ->
  (forall part, Zlen part < n -> incomplete (c ++ part)) -> sk <> 0 ->
  wp (WebSocket_getdata rcs0 fuel sk n) s (fun r s' =>
    (exists body u' fs1 fs', fs = fs1 ++ fs' /\ default [] (fst r) = body /\ (n <> 0 -> is_Some (fst r)) /\ n <= snd r /\ Zlen body = n /\
       u ++ payloads fs1 = body ++ u' /\ unread u' s' /\ opened sk stream fs' s') \/
    (is_Some (fst r) /\ snd r < n /\ cut_short sk stream fs pre c u s')).
Proof.
  intros Ho Hm Hb Hc Hn Hinc Hsk. unfold WebSocket_getdata. apply wp_bind, wp_get. pose proof Ho as [(b & Hco) _].
  rewrite (co_websocket _ _ _ _ _ Hco). apply wp_bind. eapply wp_mono; [by apply (wp_head s (Some (mid_frame pre c u)))|]. intros ? ? [-> ->].
  destruct (Z.eqb_spec n 0) as [->|Hn0].
  - assert ((wf_pos (mid_frame pre c u) =? Zlen (wf_data (mid_frame pre c u))) = bool_decide (u = [])) as ->.
    { pose proof (mid_length pre c u) as Hl. case_bool_decide as Hu; [subst u; apply Z.eqb_eq; rewrite Zlen_nil in Hl; lia|].
      apply Z.eqb_neq. destruct u; [done|]. rewrite Zlen_cons in Hl. pose proof (Zlen_nonneg u). lia. }
    assert (forall s', unread u s' -> opened sk stream fs s' -> exists body u' fs1 fs', fs = fs1 ++ fs' /\ [] = body /\ Zlen body = 0 /\
       u ++ payloads fs1 = body ++ u' /\ unread u' s' /\ opened sk stream fs' s') as Hend.
    { intros s' H1 H2. exists [], u, [], fs. change (payloads []) with (@nil Z). by rewrite app_nil_r. }
    case_bool_decide as Hu.
    + apply wp_bind. eapply wp_mono; [by eapply wp_detach|]. intros [] s' [D1 D2]. apply wp_ret. left.
      destruct (Hend s') as (body & u' & fs1 & fs' & H1 & H2 & H3 & H4 & H5 & H6); [by subst u|done|].
      exists body, u', fs1, fs'. by split_and!.
    + apply wp_ret. left. destruct (Hend s) as (body & u' & fs1 & fs' & H1 & H2 & H3 & H4 & H5 & H6); [|done|].
      { right. exists (pre ++ c). split; [|done]. unfold mid. rewrite Hm. unfold mid_frame. cbn. by rewrite app_nil_r, <- app_assoc. }
      exists body, u', fs1, fs'. by split_and!.
  - apply wp_bind, wp_ret. apply wp_bind. eapply wp_mono; [apply (wp_fill sk stream n pre c fuel fs u); try done; apply Ho|].
    intros r s1 [(fs1 & fs' & -> & -> & Hle & Hm1 & Ho1)|(part & -> & Hlt & Hcut)]; cbv beta iota zeta; rewrite mid_length; cbn [negb].
    + set (t := u ++ payloads fs1) in *. pose (body := take (Z.to_nat n) t). pose (u' := drop (Z.to_nat n) t).
      assert (t = body ++ u') as Et by (symmetry; apply take_drop).
      assert (Zlen body = n) as Hbody by (unfold Zlen in *; unfold body; rewrite length_take; lia). clearbody body u'.
      assert (take (Z.to_nat n) (rest_of (mid_frame pre c t)) = body) as ->.
      { unfold rest_of, mid_frame. cbn. rewrite app_assoc, Zlen_to_nat, drop_app_exact, Et, <- Hbody, Zlen_to_nat. apply take_app_exact. }
      assert (forall s', unread u' s' -> opened sk stream fs' s' -> wp (mret (Some body, Zlen t)) s' (fun r s' =>
        exists body u' fs2 fs3, fs1 ++ fs' = fs2 ++ fs3 /\ default [] (fst r) = body /\ (n <> 0 -> is_Some (fst r)) /\ n <= snd r /\
          Zlen body = n /\ u ++ payloads fs2 = body ++ u' /\ unread u' s' /\ opened sk stream fs3 s')) as Hend.
      { intros s' H1 H2. apply wp_ret. exists body, u', fs1, fs'. split_and!; done. }
      rewrite Et, Zlen_app in Hend |- *. apply wp_bind. destruct (Z.ltb_spec n (Zlen body + Zlen u')).
      * rewrite Et in Hm1. eapply wp_mono; [eapply (wp_set_head (Some (mid_frame pre c (body ++ u')))); [exact Hm1|reflexivity]|].
        intros _ s' ->. eapply wp_mono; [apply Hend|].
        -- unfold mid_frame. cbn. rewrite <- Hbody. apply unread_after. intros ->. rewrite Zlen_nil in *. lia.
        -- by apply opened_queue.
        -- intros r s2 H2. by left.
      * eapply wp_mono; [by eapply wp_detach|]. intros [] s' [D1 D2]. eapply wp_mono; [apply Hend|].
        -- destruct u'; [done|]. rewrite Zlen_cons in *. pose proof (Zlen_nonneg u'). lia.
        -- done.
        -- intros r s2 H2. by left.
    + apply wp_ret. right. by split_and!.
Qed.

(** ** [MQTTPacket_Factory] *)

Context {P : Type} {PO : PersistenceOps P}.
Implicit Types st : St P (WsNet OS).
#[local] Instance ws_net : Transport (WsNet OS) := ws_transport rcs0 fuel.

Definition at_ws st s : St P (WsNet OS) := set_network st (Ws s).

Lemma wp_call_ws {A} (a0 : A) (m : SM (WsSt OS) A) st s (Q : A -> WsSt OS -> Prop) :
  wp m s Q -> wp (call_net (ws_run a0 m)) (at_ws st s) (fun a st' => exists s', st' = at_ws st s' /\ Q a s').
Proof.
  intros (a & s' & Hm & HQ). exists a, (at_ws st s'). split; [|by exists s'].
  unfold call_net. cbn. by rewrite Hm.
Qed.

Lemma broken_after sk fs1 fs : broken sk fs -> broken sk (fs1 ++ fs).
Proof. intros [H|(f & H1 & H2)]; [by left|right]. exists f. split; [|done]. apply in_app_iff. by right. Qed.

(** The bytes have no length. *)
Definition no_length (ds u : list Z) : Prop := exists ds' u', u = ds' ++ u' /\ all_more (ds ++ ds') /\ (4 <= List.length (ds ++ ds'))%nat.

Definition decode_post (sk : Z) (stream : list Z) (fs : list frame) (pre : list Z) (h : Z) (ds u : list Z) (v m : Z) (r : Z * Z) s' : Prop :=
  exists fs1 fs', fs = fs1 ++ fs' /\
    ((exists ds' n u', r = (TCPSOCKET_COMPLETE, v + n * m) /\ digits_value ds' = Some n /\ u ++ payloads fs1 = ds' ++ u' /\
        mid pre (h :: ds ++ ds') u' s' /\ opened sk stream fs' s') \/
     (fst r = TCPSOCKET_INTERRUPTED /\ mid pre (h :: ds ++ u ++ payloads fs1) [] s' /\ opened sk stream fs' s') \/
     (fst r = SOCKET_ERROR /\ (broken sk fs \/ no_length ds (u ++ payloads fs1)))).

(** A digit with the continuation bit has been read. *)
Lemma decode_more sk stream fs1 fs pre h ds c u u' v m r s' :
  u ++ payloads fs1 = c :: u' -> Z.land c 128 <> 0 ->
  decode_post sk stream fs pre h (ds ++ [c]) u' (v + Z.land c 127 * m) (m * 128) r s' ->
  decode_post sk stream (fs1 ++ fs) pre h ds u v m r s'.
Proof.
  intros Hu Hc (fs2 & fs' & -> & H). exists (fs1 ++ fs2), fs'. split; [by rewrite app_assoc|].
  rewrite payloads_app, app_assoc, Hu. cbn [app].
  destruct H as [(ds' & n & u2 & -> & Hd & Hu2 & Hm & Ho)|[(Hr & Hm & Ho)|(Hr & H)]].
  - left. exists (c :: ds'), (Z.land c 127 + 128 * n), u2. split; [f_equal; lia|]. rewrite <- app_assoc in Hm. split; [|by rewrite Hu2].
    cbn. rewrite Hd. by destruct (Z.eqb_spec (Z.land c 128) 0).
  - right. left. by rewrite <- app_assoc in Hm.
  - right. right. split; [done|]. destruct H as [H|(ds' & u2 & Hu2 & Ha & Hl)]; [left; by apply broken_after|right].
    exists (c :: ds'), u2. rewrite Hu2. by rewrite <- !app_assoc in Ha, Hl.
Qed.

Lemma wp_decode_ws sk stream pre h f len v m ds fs u st s :
  the_socket st = sk -> opened sk stream fs s -> mid pre (h :: ds) u s -> between_packets ((h :: ds) ++ u) fs -> all_more ds ->
  Zlen ds = len -> Z.of_nat f + len = 5 -> sk <> 0 ->
  wp (decode_loop f len v m) (at_ws st s) (fun r st' => exists s', st' = at_ws st s' /\ decode_post sk stream fs pre h ds u v m r s').
Proof.
  intros Hst. revert len v m ds fs u s. induction f as [|f IH]; intros len v m ds fs u s Ho Hm Hb Ha Hlen Hf Hsk; cbn [decode_loop].
  { unfold Zlen in *. apply wp_ret. exists s. split; [done|]. exists [], fs. split; [done|]. right. right. split; [done|right].
    exists [], (u ++ payloads []). rewrite (app_nil_r ds). split; [done|]. split; [done|lia]. }
  destruct (Z.ltb_spec 4 (len + 1)) as [H4|H4].
  { unfold Zlen in *. apply wp_ret. exists s. split; [done|]. exists [], fs. split; [done|]. right. right. split; [done|right].
    exists [], (u ++ payloads []). rewrite (app_nil_r ds). split; [done|]. split; [done|lia]. }
  apply wp_bind, wp_get, wp_bind. change (the_socket (at_ws st s)) with (the_socket st). rewrite Hst.
  eapply wp_mono; [apply wp_call_ws, (wp_ws_getch sk stream fs pre (h :: ds) u (Some (mid_frame pre (h :: ds) u)) s Ho Hm eq_refl); [|done]|].
  { intros -> _. rewrite app_nil_r in Hb. eapply between_next; [exact Hb|by apply incomplete_digits|done]. }
  intros [rc c] st' (s1 & -> & fs1 & fs' & -> & [(x & u' & [= -> ->] & Hu & Hm1 & Ho1)|[(Hrc & -> & Hp & Hq & Ho1)|(Hrc & H)]]).
  - change (negb (TCPSOCKET_COMPLETE =? TCPSOCKET_COMPLETE)) with false. cbv iota.
    destruct (Z.eqb_spec (Z.land x 128) 0) as [Hz|Hz]; cbn [negb].
    + apply wp_ret. exists s1. split; [done|]. exists fs1, fs'. split; [done|]. left. exists [x], (Z.land x 127), u'.
      split; [done|]. split; [cbn; by rewrite Hz|]. by split.
    + apply between_after in Hb. rewrite <- app_assoc, Hu in Hb.
      eapply wp_mono; [apply (IH (len + 1) _ _ (ds ++ [x]) fs' u' s1); try done|].
      * by rewrite app_comm_cons, <- app_assoc.
      * apply Forall_app. split; [done|]. by apply Forall_singleton.
      * rewrite Zlen_app, Zlen_cons, Zlen_nil. lia.
      * lia.
      * intros r st' (s2 & -> & H). exists s2. split; [done|]. by eapply decode_more.
  - cbn [fst] in Hrc. subst rc. change (negb (TCPSOCKET_INTERRUPTED =? TCPSOCKET_COMPLETE)) with true. cbv iota. apply wp_ret.
    exists s1. split; [done|]. exists fs1, fs'. split; [done|]. right. left. rewrite Hp, !app_nil_r. split; [done|]. by split.
  - cbn [fst] in Hrc. subst rc. change (negb (SOCKET_ERROR =? TCPSOCKET_COMPLETE)) with true. cbv iota. apply wp_ret.
    exists s1. split; [done|]. exists fs1, fs'. split; [done|]. right. right. split; [done|by left].
Qed.

(** Between two packets: [u] has been received and not been read. *)
Record ready (sk : Z) (stream u : list Z) (fs : list frame) s : Prop := {
  re_opened : opened sk stream fs s;
  re_between : between_packets u fs;
  re_unread : unread u s
}.

(** The end of [MQTTPacket_Factory]. *)
Definition rewound (pos : Z) (m : SM (St P (WsNet OS)) (Z * option packet)) : SM (St P (WsNet OS)) (Z * option packet) :=
  '(error, pack) ← m;
  _ ← (if error =? TCPSOCKET_INTERRUPTED then sm_modify (fun st => set_network st (framePosSeekTo pos (st_net st))) else mret ());
  mret (error, pack).

Lemma Factory_rewound v st : MQTTPacket_Factory v st = rewound (framePos (st_net st)) (factory_body v) st.
Proof. done. Qed.

Lemma rewound_interrupted pos m st s s' :
  m st = Ok ((TCPSOCKET_INTERRUPTED, None), at_ws st s) -> framePosSeekTo pos (Ws s) = Ws s' ->
  rewound pos m st = Ok ((TCPSOCKET_INTERRUPTED, None), at_ws st s').
Proof.
  intros E1 E2. unfold rewound. rewrite (sm_bind_run _ _ _ _ _ E1). cbv iota beta.
  change (TCPSOCKET_INTERRUPTED =? TCPSOCKET_INTERRUPTED) with true. cbv iota. rewrite (sm_bind_run _ _ _ () (at_ws st s')); [done|].
  unfold sm_modify. change (st_net (at_ws st s)) with (Ws s). by rewrite E2.
Qed.

Lemma rewound_error pos m st s :
  m st = Ok ((SOCKET_ERROR, None), at_ws st s) -> rewound pos m st = Ok ((SOCKET_ERROR, None), at_ws st s).
Proof. intros E1. unfold rewound. by rewrite (sm_bind_run _ _ _ _ _ E1). Qed.

Lemma unread_view u s : unread u s ->
  exists pre res, in_frames s = queue_of res /\ view pre [] u res /\ (u = [] -> res = None) /\ framePos (Ws s) = Zlen pre.
Proof.
  intros [[Hq ->]|(pre & Hm & Hu)].
  - exists [], None. split; [done|]. split; [done|]. split; [done|]. cbn. unfold WebSocket_framePos, head_frame, mbind, sm_bind. cbn. by rewrite Hq.
  - exists pre, (Some (mid_frame pre [] u)). split; [done|]. split; [done|]. split; [done|].
    unfold mid in Hm. cbn. unfold WebSocket_framePos, head_frame, mbind, sm_bind. cbn. rewrite Hm. cbn. by rewrite app_nil_r.
Qed.

Lemma seek_back sk stream fs pre c u s :
  mid pre c u s -> c <> [] -> exists s', framePosSeekTo (Zlen pre) (Ws s) = Ws s' /\ unread (c ++ u) s' /\
    (opened sk stream fs s -> opened sk stream fs s').
Proof.
  intros Hm Hc. assert (wp (WebSocket_framePosSeekTo (Zlen pre)) s (fun _ s' => s' = set_frames [Some (mkWsFrame (pre ++ c ++ u) (Zlen pre))] (last_frame s) s))
    as ([] & s' & E & ->).
  { unfold WebSocket_framePosSeekTo. apply wp_bind. eapply wp_mono; [by apply (wp_head s (Some (mid_frame pre c u)))|]. intros ? ? [-> ->].
    eapply (wp_set_head (Some (mid_frame pre c u))); [exact Hm|reflexivity]. }
  exists (set_frames [Some (mkWsFrame (pre ++ c ++ u) (Zlen pre))] (last_frame s) s). split; [|split].
  - cbn. by rewrite E.
  - right. exists pre. split; [|by destruct c]. unfold mid, mid_frame. cbn. by rewrite app_nil_r.
  - apply opened_queue.
Qed.

(** What a call of [factory_body] does. *)
Definition ends_in v st pos u fs (o : attempt) sk stream s : Prop :=
  exists fs1 fs' s', fs = fs1 ++ fs' /\
    match o with
    | Interrupted => factory_body v (at_ws st s) = Ok ((TCPSOCKET_INTERRUPTED, None), at_ws st s') /\
        exists s2, framePosSeekTo pos (Ws s') = Ws s2 /\ ready sk stream (u ++ payloads fs1) fs' s2
    | Broken => exists rc, factory_body v (at_ws st s) = Ok ((rc, None), at_ws st s') /\
        (rc = SOCKET_ERROR \/ (rc = TCPSOCKET_INTERRUPTED /\ exists s2, framePosSeekTo pos (Ws s') = Ws s2)) /\
        (broken sk fs \/ exists h u', u ++ payloads fs1 = h :: u' /\ no_length [] u')
    | Frame header ds body => exists u',
        u ++ payloads fs1 = header :: ds ++ body ++ u' /\ digits_value ds = Some (Zlen body) /\ ready sk stream u' fs' s' /\
        factory_body v (at_ws st s) = frame_done v header body (at_ws st s')
    end.

Lemma factory_rest st sk stream pre h u ds n fs s pos :
  the_socket st = sk -> opened sk stream fs s -> mid pre (h :: ds) u s -> between_packets ((h :: ds) ++ u) fs -> digits_value ds = Some n -> sk <> 0 ->
  pos = Zlen pre ->
  exists r s', call_net (getdata sk n) (at_ws st s) = Ok (r, at_ws st s') /\ exists fs1 fs', fs = fs1 ++ fs' /\
    ((exists body u', default [] (fst r) = body /\ (n <> 0 -> is_Some (fst r)) /\ n <= snd r /\ Zlen body = n /\ u ++ payloads fs1 = body ++ u' /\
        ready sk stream u' fs' s') \/
     (is_Some (fst r) /\ snd r < n /\ exists s2, framePosSeekTo pos (Ws s') = Ws s2 /\
        (ready sk stream ((h :: ds) ++ u ++ payloads fs1) fs' s2 \/ recv_fails sk))).
Proof.
  intros Hst Ho Hm Hb Hd Hsk ->. pose proof (digits_nonneg _ _ Hd) as Hn.
  destruct (wp_call_ws (None, 0) _ st s _ (wp_ws_getdata sk stream n pre (h :: ds) fs u s Ho Hm Hb ltac:(done) Hn
    (fun part => incomplete_body h ds n part Hd) Hsk)) as (r & st' & E & s' & -> & H).
  exists r, s'. split; [exact E|]. destruct H as [(body & u' & fs1 & fs' & -> & H1 & H2 & H3 & H4 & H5 & H6 & H7)|(H1 & H2 & fs1 & fs' & -> & H3 & H4)];
    exists fs1, fs'; (split; [done|]); apply between_after in Hb; rewrite <- app_assoc in Hb.
  - left. exists body, u'. do 5 (split; [done|]). split; [done| |done]. rewrite H5 in Hb.
    apply (between_packet ((h :: ds) ++ body)); [|by rewrite <- app_assoc]. exists h, ds, body. split; [done|]. by rewrite H4.
  - right. split; [done|]. split; [done|]. destruct (seek_back sk stream fs' _ _ _ _ H3 ltac:(done)) as (s2 & E2 & Hu & Hop).
    exists s2. split; [done|]. destruct H4 as [H4|H4]; [left|by right]. split; [by apply Hop|done|done].
Qed.

Lemma factory_body_ws v st sk stream u fs s :
  the_socket st = sk -> ready sk stream u fs s -> sk <> 0 -> exists o, ends_in v st (framePos (Ws s)) u fs o sk stream s.
Proof.
  intros Hst [Ho Hb Hu] Hsk. destruct (unread_view u s Hu) as (pre & res & Hq & Hv & Hres & Hpos). rewrite Hpos. unfold ends_in, factory_body.
  rewrite (sm_bind_run sm_get _ _ _ _ eq_refl). change (the_socket (at_ws st s)) with (the_socket st). rewrite Hst.
  destruct (wp_call_ws (SOCKET_ERROR, 0) _ st s _ (wp_ws_getch sk stream fs pre [] u res s Ho Hq Hv ltac:(intros E Hne; by destruct (Hne (Hres E))) Hsk))
    as ([rc h] & st1 & E1 & s1 & -> & fs1 & fs' & -> & H1). change (getch sk) with (ws_run (SOCKET_ERROR, 0) (WebSocket_getch rcs0 fuel sk)).
  rewrite (sm_bind_run _ _ _ _ _ E1). clear E1. cbv beta iota. apply between_after in Hb.
  destruct H1 as [(x & u1 & [= -> ->] & Eu & Hm1 & Ho1)|[(Hrc & -> & Hp & Hq1 & Ho1)|(Hrc & Hbr)]]; [|cbn [fst] in Hrc; subst rc..].
  2: { exists Interrupted, fs1, fs', s1. split; [done|]. change (negb (TCPSOCKET_INTERRUPTED =? TCPSOCKET_COMPLETE)) with true. cbv iota.
       split; [done|]. rewrite Hres in Hq1 by done. exists s1. split; [|rewrite Hp in *; split; [done|done|by left]].
       change (snd (ws_run () (WebSocket_framePosSeekTo (Zlen pre)) (Ws s1)) = Ws s1). cbn.
       unfold WebSocket_framePosSeekTo, head_frame, mbind, sm_bind. cbn. by rewrite Hq1. }
  2: { exists Broken, fs1, fs', s1. split; [done|]. exists SOCKET_ERROR. split; [done|]. split; [by left|by left]. }
  change (negb (TCPSOCKET_COMPLETE =? TCPSOCKET_COMPLETE)) with false. cbv iota. rewrite Eu in Hb.
  destruct (wp_decode_ws sk stream pre x 5 0 0 1 [] fs' u1 st s1 Hst Ho1 Hm1 Hb ltac:(by apply Forall_nil) eq_refl eq_refl Hsk)
    as ([rc n] & st2 & E2 & s2 & -> & fs2 & fs3 & -> & H2). unfold MQTTPacket_decode.
  rewrite (sm_bind_run _ _ _ _ _ E2). clear E2. cbv beta iota. apply between_after in Hb.
  assert (u ++ payloads (fs1 ++ fs2) = x :: u1 ++ payloads fs2) as Eu2 by (by rewrite payloads_app, app_assoc, Eu).
  destruct H2 as [(ds & n' & u2 & [= -> ->] & Hd & Eu3 & Hm2 & Ho2)|[(Hrc & Hm2 & Ho2)|(Hrc & Hbr)]]; [|cbn [fst] in Hrc; subst rc..].
  2: { exists Interrupted, (fs1 ++ fs2), fs3, s2. split; [by rewrite app_assoc|]. change (negb (TCPSOCKET_INTERRUPTED =? TCPSOCKET_COMPLETE)) with true.
       cbv iota. split; [done|]. destruct (seek_back sk stream fs3 _ _ _ _ Hm2 ltac:(done)) as (s4 & E4 & Hu4 & Hop). exists s4. split; [done|].
       rewrite Eu2. rewrite app_nil_r in Hu4. by split; [apply Hop| |]. }
  2: { exists Broken, (fs1 ++ fs2), fs3, s2. split; [by rewrite app_assoc|]. exists SOCKET_ERROR. split; [done|]. split; [by left|].
       destruct Hbr as [Hbr|Hbr]; [left; by apply broken_after|right]. rewrite Eu2. by exists x, (u1 ++ payloads fs2). }
  change (negb (TCPSOCKET_COMPLETE =? TCPSOCKET_COMPLETE)) with false. cbv iota. rewrite Z.mul_1_r, Z.add_0_l.
  cbn [app] in Hm2, Hb. rewrite Eu3 in Hb, Eu2.
  destruct (factory_rest st sk stream pre x u2 ds n' fs3 s2 (Zlen pre) Hst Ho2 Hm2 Hb Hd Hsk eq_refl)
    as ([od al] & s3 & E3 & fs4 & fs5 & -> & H3). rewrite (sm_bind_run _ _ _ _ _ E3). cbv beta iota. cbn [fst snd] in H3.
  assert (u ++ payloads (fs1 ++ fs2 ++ fs4) = x :: ds ++ u2 ++ payloads fs4) as Eu5.
  { rewrite (app_assoc fs1), payloads_app, app_assoc, Eu2. cbn. by rewrite <- app_assoc. }
  destruct H3 as [(body & u' & Hbody & Hsome & Hle & Hlen & Eu6 & Hready)|(Hsome & Hlt & s4 & E4 & Hr)].
  - exists (Frame x ds body), (fs1 ++ fs2 ++ fs4), fs5, s3. split; [by rewrite <- !app_assoc|]. exists u'. rewrite Eu5, Eu6.
    split; [done|]. split; [by rewrite Hlen|]. split; [done|].
    assert (negb (n' =? 0) && negb (bool_decide (is_Some od)) = false) as ->.
    { destruct (Z.eqb_spec n' 0); [done|]. rewrite bool_decide_eq_true_2 by auto. done. }
    destruct (Z.ltb_spec al n'); [lia|]. by rewrite Hbody.
  - rewrite (bool_decide_eq_true_2 (is_Some od)), andb_false_r by done. destruct (Z.ltb_spec al n'); [|lia].
    destruct Hr as [Hr|Hr]; [exists Interrupted|exists Broken]; exists (fs1 ++ fs2 ++ fs4), fs5, s3; (split; [by rewrite <- !app_assoc|]); rewrite Eu5.
    + split; [done|]. by exists s4.
    + exists TCPSOCKET_INTERRUPTED. split; [done|]. split; [right; split; [done|by exists s4]|left; by left].
Qed.

(** C10. Reading over WebSocket.  The server sends the frames [fs] behind [u], bytes of
    data frames that have been received and not read: each data frame final, unmasked and
    not empty, each control frame unmasked, and PING, PONG and CLOSE between packets.
    Whatever pieces of the stream arrive, a call of [MQTTPacket_Factory] ends:
    interrupted, with the bytes of the frames that came kept behind [u]; or with a
    packet, whose bytes are the first of these, and the rest is kept; or broken, which
    only happens after an error of the socket, a CLOSE, or five bytes of length.  No
    memory outside of the frames, or freed, is accessed.  The return code that the C
    leaves uninitialised is taken not to be [SOCKET_ERROR] ([ready]). *)
Theorem Factory_over_websocket (v : Z) (st : St P (WsNet OS)) (s : WsSt OS) (stream u : list Z) (fs : list frame) :
  let sk := the_socket st in
  st_net st = Ws s -> ready sk stream u fs s -> sk <> 0 ->
  exists o fs1 fs' s', fs = fs1 ++ fs' /\
    match o with
    | Interrupted =>
        MQTTPacket_Factory v st = Ok ((TCPSOCKET_INTERRUPTED, None), set_network st (Ws s')) /\
        ready sk stream (u ++ payloads fs1) fs' s'
    | Frame header digits body => exists u',
        u ++ payloads fs1 = header :: digits ++ body ++ u' /\ digits_value digits = Some (Zlen body) /\
        MQTTPacket_Factory v st = rewound (framePos (st_net st)) (frame_done v header body) (set_network st (Ws s')) /\
        ready sk stream u' fs' s'
    | Broken => exists rc,
        MQTTPacket_Factory v st = Ok ((rc, None), set_network st (Ws s')) /\
        (broken sk fs \/ exists header u', u ++ payloads fs1 = header :: u' /\ no_length [] u')
    end.
Proof.
  intros sk Hn Hr Hsk. destruct (factory_body_ws v st sk stream u fs s eq_refl Hr Hsk) as (o & fs1 & fs' & s1 & -> & H).
  assert (at_ws st s = st) as Est by (unfold at_ws; rewrite <- Hn; by destruct st). rewrite Est in H. rewrite Factory_rewound, Hn.
  destruct o as [| |header ds body].
  - destruct H as (E1 & s2 & E2 & H). exists Interrupted, fs1, fs', s2. split; [done|]. split; [|done]. by eapply rewound_interrupted.
  - destruct H as (rc & E1 & [->|(-> & s2 & E2)] & H).
    + exists Broken, fs1, fs', s1. split; [done|]. exists SOCKET_ERROR. split; [by apply rewound_error|done].
    + exists Broken, fs1, fs', s2. split; [done|]. exists TCPSOCKET_INTERRUPTED. split; [by eapply rewound_interrupted|done].
  - destruct H as (u' & H1 & H2 & H3 & H4). exists (Frame header ds body), fs1, fs', s1. split; [done|]. exists u'.
    split; [done|]. split; [done|]. split; [|done]. unfold rewound. unfold mbind, sm_bind at 1. rewrite H4. done.
Qed.

End Factory.

(** ** A server *)

#[export] Instance script_rand : SysRand Script := fun o => (77, o).

#[export] Instance script_feeds : Feeds Script.
Proof.
  refine {| feeds sk stream o := exists later, stream = received sk o ++ map to_byte (concat (sc_input o)) ++ later |}.
  - intros sk stream o (later & ->). by eexists.
  - intros sk stream n [inp lim log rd] rc e d o' (later & ->) Hr. cbn in Hr. unfold script_recv in Hr. cbn [sc_input] in Hr.
    destruct inp as [|[|x l] r]; injection Hr as <- <- <- <-; [by exists later|by exists later|]. exists later.
    unfold received, script_laws. cbn [sc_read sc_input]. rewrite bytes_of_snoc, Z.eqb_refl, <- !app_assoc. f_equal. cbn [concat].
    rewrite !app_assoc, <- map_app. f_equal. f_equal. try change (S (Datatypes.length l)) with (Datatypes.length (x :: l)).
    generalize (x :: l). intros d.
    destruct (Nat.ltb_spec (Z.to_nat n) (List.length d)); cbn [concat]; [by rewrite app_assoc, take_drop|by rewrite take_ge by lia].
  - intros sk stream k bufs [inp lim log rd] rc e o' (later & ->) Hw. cbn in Hw. unfold script_writev in Hw.
    destruct (_ <? 0); injection Hw as <- <- <-; by exists later.
  - done.
  - done.
Defined.

(** A PING, a PUBLISH in two frames, and in the second a PINGRESP; the bytes come in
    four pieces. *)
Definition example_frames : list frame :=
  [mkFrame true WebSocket_OP_PING false [7]; mkFrame true WebSocket_OP_BINARY false [48; 5; 0];
   mkFrame true WebSocket_OP_BINARY false [1; 97; 120; 121; 208; 0]].
Definition example_stream : list Z := concat (map enc example_frames).
Definition example_ws : WsSt Script :=
  mkWsSt (Socket_outInitialize (mkScript [take 2 example_stream; []; take 4 (drop 2 example_stream); []; drop 6 example_stream] [] [] [])) true [] None None 0 0.
Definition example_state : St MemStore (WsNet Script) := mkSt sample_client ∅ (mkPubs ∅ AList.empty) [] (Ws example_ws) 0 0.
Definition example_net : Transport (WsNet Script) := ws_net 0 10.

Fixpoint calls (n : nat) (st : St MemStore (WsNet Script)) : list (res (Z * option packet)) :=
  match n with
  | O => []
  | S n => match MQTTPacket_Factory (NT := example_net) 4 st with
           | Ok (r, st') => Ok r :: calls n st'
           | Fail => [Fail]
           | Oob => [Oob]
           end
  end.

Example calls_run :
  calls 6 example_state =
  replicate 3 (Ok (TCPSOCKET_INTERRUPTED, None)) ++
  [Ok (TCPSOCKET_COMPLETE, Some (Ppublish (mkPublish 48 (Some [97]) 1 0 (Some [120; 121]) 2 4 MQTTProperties_initializer [0; 0; 0; 0])));
   Ok (TCPSOCKET_COMPLETE, Some (Pheader 208)); Ok (TCPSOCKET_INTERRUPTED, None)].
Proof. by vm_compute. Qed.

Lemma example_ready : ready 10 5 example_stream [] example_frames example_ws.
Proof.
  split; [split|..].
  - exists []. split; [| |split|..].
    + split; try done; [apply Forall_nil_2|]. split; [|done]. split; [apply NoDup_nil_2|].
      split; [done|]. split; try done. by left.
    + done.
    + by exists [].
    + by exists [].
    + repeat (apply Forall_cons; split); [..|by apply Forall_nil]; (split; [done|done| |done|done]); cbn; set_solver.
    + done.
  - cbn. lia.
  - intros a f b E Hf. exists []. split; [by apply Forall_nil|]. destruct a as [|a1 [|a2 [|a3 a]]]; injection E; intros; subst; [done|discriminate Hf..|by destruct a].
  - by left.
Qed.

Lemma Factory_over_websocket_witness :
  ready 10 5 example_stream [] example_frames example_ws /\ exists o fs1 fs' s', example_frames = fs1 ++ fs' /\
    match o with
    | Interrupted =>
        MQTTPacket_Factory (NT := example_net) 4 example_state = Ok ((TCPSOCKET_INTERRUPTED, None), set_network example_state (Ws s')) /\
        ready 10 5 example_stream (payloads fs1) fs' s'
    | Frame header digits body => exists u', payloads fs1 = header :: digits ++ body ++ u'
    | Broken => exists rc, MQTTPacket_Factory (NT := example_net) 4 example_state = Ok ((rc, None), set_network example_state (Ws s'))
    end.
Proof.
  split; [exact example_ready|].
  destruct (Factory_over_websocket 0 10 ltac:(done) 4 example_state example_ws example_stream [] example_frames eq_refl example_ready ltac:(vm_compute; discriminate))
    as (o & fs1 & fs' & s' & E & H).
  exists o, fs1, fs', s'. split; [exact E|]. destruct o as [| |header digits body].
  - exact H.
  - destruct H as (rc & H & _). exists rc. exact H.
  - destruct H as (u' & H & _). exists u'. exact H.
Defined.

End WsFactory.
