(* ===== verification/Outgoing.v ===== *)
(** * Outgoing connections ([src/src/MQTTProtocolOut.c])

    The parts of a server address, the settings of an HTTP proxy with the credentials
    in its address, and [MQTTProtocol_connect], which chooses where the connection goes
    and what the client waits for next.  Opening a socket and the dialogues with
    proxies and WebSocket servers are an interface. *)

From S2P Require Import Prelude.
From S2P Require Import Wire.
From S2P Require Import Properties.
From S2P Require Import LinkedList.
From S2P Require Import Clients.
From S2P Require Import Packet.
From S2P Require Import State.
From S2P Require Import Persistence.
From S2P Require Import PacketIO.
From S2P Require Import Session.
From S2P Require Import Base64.
From Stdlib Require Import ZArith Lia List Ascii String.
From stdpp Require Import base numbers list gmap.

Open Scope Z_scope.

Module Outgoing.
Import Wire Properties Clients Packet State Persistence PacketIO Session Base64.

Definition MQTT_DEFAULT_PORT : Z := 1883.
Definition WS_DEFAULT_PORT : Z := 80.

(** ** Addresses *)

(** [strchr] and [strrchr]: the first and the last position. *)
Fixpoint strchr (c : Z) (l : list Z) : option nat :=
  match l with [] => None | b :: l => if b =? c then Some O else S <$> strchr c l end.
Fixpoint strrchr (c : Z) (l : list Z) : option nat :=
  match l with
  | [] => None
  | b :: l => match strrchr c l with Some i => Some (S i) | None => if b =? c then Some O else None end
  end.

(** [atoi]: white space, a sign, digits. *)
Definition isspace (b : Z) : bool := (b =? 32) || ((9 <=? b) && (b <=? 13)).
Fixpoint skip_space (l : list Z) : list Z :=
  match l with b :: r => if isspace b then skip_space r else l | [] => [] end.
Definition atoi (l : list Z) : Z :=
  match skip_space l with
  | 45 :: r => - atoi_digits r 0
  | 43 :: r => atoi_digits r 0
  | r => atoi_digits r 0
  end.

(** [MQTTProtocol_addressPort]: the length of the address, the port, and where the
    topic starts.  An address of length 0 is read before its start. *)
Definition colon_of (uri : list Z) : option nat :=
  match strrchr 58 uri with
  | None => None
  | Some i =>
      if bool_decide (head uri = Some 91) then
        match strrchr 93 uri with Some j => if Nat.ltb i j then None else Some i | None => Some i end
      else Some i
  end.
Definition MQTTProtocol_addressPort (uri : list Z) (default_port : Z) : res (nat * Z * option nat) :=
  let colon_pos := colon_of uri in
  let '(len, port) := match colon_pos with
                      | Some i => (i, atoi (drop (S i) uri))
                      | None => (List.length uri, default_port)
                      end in
  let addr_start := default O colon_pos in
  let topic := (fun k => (addr_start + k)%nat) <$> strchr 47 (drop addr_start uri) in
  match len with
  | O => Oob
  | S len' => Ok (if bool_decide (uri !! len' = Some 93) then len' else len, port, topic)
  end.

(** ** Credentials of a proxy *)

Definition isxdigit (b : Z) : bool :=
  ((48 <=? b) && (b <=? 57)) || ((65 <=? b) && (b <=? 70)) || ((97 <=? b) && (b <=? 102)).
Definition xdigit (b : Z) : Z := if b <=? 57 then b - 48 else if b <=? 70 then b - 55 else b - 87.

(** [MQTTProtocol_specialChars]: what is written, and the length that is left.  A turn
    of the loop for each unit of fuel; a string without an at sign is read past its
    end. *)
Fixpoint MQTTProtocol_specialChars (fuel : nat) (p1 : list Z) (basic_auth_in_len : Z) : option (res (list Z * Z)) :=
  match fuel with
  | O => None
  | S fuel =>
      match p1 with
      | [] => Some Oob
      | c :: r =>
          if c =? 64 then Some (Ok ([], basic_auth_in_len))
          else if negb (c =? 37) then
            out ← MQTTProtocol_specialChars fuel r basic_auth_in_len;
            Some ('(l, n) ← out; Ok (c :: l, n))
          else
            match r with
            | a :: b :: r' =>
                if isxdigit a && isxdigit b then
                  out ← MQTTProtocol_specialChars fuel r' (basic_auth_in_len - 2);
                  Some ('(l, n) ← out; Ok (16 * xdigit a + xdigit b :: l, n))
                else MQTTProtocol_specialChars fuel p1 basic_auth_in_len
            | _ => MQTTProtocol_specialChars fuel p1 basic_auth_in_len
            end
      end
  end.

(** [strstr]: whether a string occurs. *)
Fixpoint strstr (prefix l : list Z) : bool :=
  bool_decide (take (List.length prefix) l = prefix) || match l with [] => false | _ :: l => strstr prefix l end.

(** [MQTTProtocol_setHTTPProxy]: the address of the proxy, and the string that goes into
    the Authorization header, with its terminator. *)
Definition MQTTProtocol_setHTTPProxy (fuel : nat) (source prefix : list Z) : option (res (list Z * option (list Z))) :=
  let source := if strstr prefix source then drop (List.length prefix) source else source in
  match strchr 64 source with
  | None => Some (Ok (source, None))
  | Some i =>
      let dest := drop (S i) source in
      match i with
      | O => Some (Ok (dest, None))
      | _ =>
          out ← MQTTProtocol_specialChars fuel source (Z.of_nat i);
          Some ('(basic_auth, basic_auth_in_len) ← out;
                let '(_, auth) := Base64_encode (Base64_encodeLength basic_auth_in_len + 1) (take (Z.to_nat basic_auth_in_len) basic_auth) in
                Ok (dest, Some auth))
      end
  end.

(** *** Decoding percent escapes *)

(** The escapes of a user or password: every percent sign is followed by two digits. *)
Inductive escaped : list Z -> list Z -> Prop :=
| esc_nil : escaped [] []
| esc_char c l r : c <> 64 -> c <> 37 -> escaped l r -> escaped (c :: l) (c :: r)
| esc_hex a b l r : isxdigit a = true -> isxdigit b = true -> escaped l r -> escaped (37 :: a :: b :: l) (16 * xdigit a + xdigit b :: r).

Lemma xdigit_not_at b : isxdigit b = true -> b <> 64.
Proof. intros H ->. discriminate H. Qed.

Lemma specialChars_escaped l r rest n fuel :
  escaped l r -> (List.length l < fuel)%nat ->
  MQTTProtocol_specialChars fuel (l ++ 64 :: rest) n = Some (Ok (r, n - (Zlen l - Zlen r))).
Proof.
  intros H. revert n fuel. induction H as [|c l r Hc Hp H IH|a b l r Ha Hb H IH]; intros n [|fuel] Hf; try (cbn in Hf; lia);
    cbn [app MQTTProtocol_specialChars].
  - cbn [Z.eqb Pos.eqb]. by rewrite (@Zlen_nil Z), Z.sub_0_r.
  - destruct (Z.eqb_spec c 64); [done|]. destruct (Z.eqb_spec c 37); [done|]. cbn [negb].
    rewrite IH by (cbn in Hf; lia). cbn [mbind option_bind res_bind]. rewrite !Zlen_cons.
    by replace (1 + Zlen l - (1 + Zlen r)) with (Zlen l - Zlen r) by lia.
  - cbn [Z.eqb Pos.eqb negb]. rewrite Ha, Hb. cbn [andb]. rewrite IH by (cbn in Hf; lia). cbn [mbind option_bind res_bind].
    rewrite !Zlen_cons. by replace (n - 2 - (Zlen l - Zlen r)) with (n - (1 + (1 + (1 + Zlen l)) - (1 + Zlen r))) by lia.
Qed.

(** It returns only for escapes. *)
Lemma specialChars_returns fuel p1 n out :
  MQTTProtocol_specialChars fuel p1 n = Some (Ok out) -> exists l rest, p1 = l ++ 64 :: rest /\ escaped l (fst out).
Proof.
  revert p1 n out. induction fuel as [|fuel IH]; intros p1 n out; cbn [MQTTProtocol_specialChars]; [done|].
  destruct p1 as [|c p1]; [done|]. destruct (Z.eqb_spec c 64) as [->|H1].
  { intros [= <-]. exists [], p1. split; [done|constructor]. }
  destruct (Z.eqb_spec c 37) as [->|H2]; cbn [negb].
  - assert (MQTTProtocol_specialChars fuel (37 :: p1) n = Some (Ok out) -> exists l rest, 37 :: p1 = l ++ 64 :: rest /\ escaped l (fst out)) as Hloop by apply IH.
    destruct p1 as [|a [|b p1]]; [done|done|]. destruct (isxdigit a && isxdigit b) eqn:E; [|done]. apply andb_true_iff in E as [Ha Hb].
    destruct (MQTTProtocol_specialChars fuel p1 (n - 2)) as [[[l m]| |]|] eqn:E; try done. cbn. intros [= <-].
    destruct (IH _ _ _ E) as (l' & rest & -> & Hl). exists (37 :: a :: b :: l'), rest. split; [done|]. by constructor.
  - destruct (MQTTProtocol_specialChars fuel p1 n) as [[[l m]| |]|] eqn:E; try done. cbn. intros [= <-].
    destruct (IH _ _ _ E) as (l' & rest & -> & Hl). exists (c :: l'), rest. split; [done|]. by constructor.
Qed.

Lemma specialChars_at fuel l rest n : MQTTProtocol_specialChars fuel (l ++ 64 :: rest) n <> Some Oob.
Proof.
  revert l n. induction fuel as [|fuel IH]; intros l n; cbn [MQTTProtocol_specialChars]; [done|].
  destruct l as [|c l]; cbn [app]; [done|]. destruct (Z.eqb_spec c 64); [done|]. destruct (Z.eqb_spec c 37) as [->|]; cbn [negb].
  - assert (MQTTProtocol_specialChars fuel ((37 :: l) ++ 64 :: rest) n <> Some Oob) as Hloop by apply IH. cbn [app] in Hloop.
    destruct l as [|a [|b l]]; cbn [app] in *.
    + destruct rest as [|b rest]; [done|]. by destruct (isxdigit b).
    + by destruct (isxdigit a).
    + destruct (isxdigit a && isxdigit b); [|done]. specialize (IH l (n - 2)).
      by destruct (MQTTProtocol_specialChars fuel (l ++ 64 :: rest) (n - 2)) as [[[? ?]| |]|].
  - specialize (IH l n). by destruct (MQTTProtocol_specialChars fuel (l ++ 64 :: rest) n) as [[[? ?]| |]|].
Qed.

Lemma specialChars_not_fail fuel p1 n : MQTTProtocol_specialChars fuel p1 n <> Some Fail.
Proof.
  revert p1 n. induction fuel as [|fuel IH]; intros p1 n; cbn [MQTTProtocol_specialChars]; [done|].
  destruct p1 as [|c p1]; [done|]. destruct (c =? 64); [done|]. destruct (negb (c =? 37)).
  - specialize (IH p1 n). by destruct (MQTTProtocol_specialChars fuel p1 n) as [[[? ?]| |]|].
  - destruct p1 as [|a [|b p1]]; [apply IH|apply IH|]. destruct (isxdigit a && isxdigit b); [|apply IH].
    specialize (IH p1 (n - 2)). by destruct (MQTTProtocol_specialChars fuel p1 (n - 2)) as [[[? ?]| |]|].
Qed.

Lemma at_unique (l l' rest rest' : list Z) : 64 ∉ l -> 64 ∉ l' -> l ++ 64 :: rest = l' ++ 64 :: rest' -> l = l' /\ rest = rest'.
Proof.
  revert l'. induction l as [|a l IH]; intros [|b l'] H1 H2 E; cbn in E.
  - by injection E as <-.
  - injection E as <- E. destruct H2. by left.
  - injection E as -> E. destruct H1. by left.
  - injection E as <- E. apply IH in E as [-> ->]; [done|intros ?; apply H1; by right|intros ?; apply H2; by right].
Qed.

Lemma escaped_no_at l r : escaped l r -> 64 ∉ l.
Proof.
  induction 1 as [|c l r H1 H2 _ IH|a b l r Ha Hb _ IH].
  - by apply not_elem_of_nil.
  - apply not_elem_of_cons. by split.
  - apply xdigit_not_at in Ha, Hb. repeat (apply not_elem_of_cons; split); by try done.
Qed.

Lemma strchr_first c l rest : c ∉ l -> strchr c (l ++ c :: rest) = Some (List.length l).
Proof.
  induction l as [|b l IH]; intros H; cbn [app strchr].
  - by rewrite Z.eqb_refl.
  - apply not_elem_of_cons in H as [H1 H2]. destruct (Z.eqb_spec b c); [done|]. by rewrite IH.
Qed.

Lemma strchr_none c l : c ∉ l -> strchr c l = None.
Proof.
  induction l as [|b l IH]; intros H; cbn [strchr]; [done|].
  apply not_elem_of_cons in H as [H1 H2]. destruct (Z.eqb_spec b c); [done|]. by rewrite IH.
Qed.

Lemma strrchr_last c l rest : c ∉ rest -> strrchr c (l ++ c :: rest) = Some (List.length l).
Proof.
  intros H. induction l as [|b l IH]; cbn [app strrchr].
  - assert (strrchr c rest = None) as ->; [|by rewrite Z.eqb_refl]. induction rest as [|x rest IH]; [done|].
    apply not_elem_of_cons in H as [H1 H2]. cbn. rewrite IH by done. by destruct (Z.eqb_spec x c).
  - by rewrite IH.
Qed.

Lemma strrchr_none c l : c ∉ l -> strrchr c l = None.
Proof.
  induction l as [|b l IH]; intros H; cbn [strrchr]; [done|].
  apply not_elem_of_cons in H as [H1 H2]. rewrite IH by done. by destruct (Z.eqb_spec b c).
Qed.

Lemma xdigit_range b : isxdigit b = true -> 0 <= xdigit b < 16.
Proof.
  unfold isxdigit, xdigit. intros H. destruct (Z.leb_spec b 57), (Z.leb_spec b 70), (Z.leb_spec 48 b), (Z.leb_spec 65 b), (Z.leb_spec 97 b), (Z.leb_spec b 102);
    cbn in H; try discriminate H; lia.
Qed.

Lemma escaped_bytes l r : escaped l r -> bytes_ok l -> bytes_ok r /\ Zlen r <= Zlen l.
Proof.
  induction 1 as [|c l r H1 H2 _ IH|a b l r Ha Hb _ IH]; intros Hl.
  - by split; [constructor|].
  - apply Forall_cons in Hl as [Hc Hl]. destruct (IH Hl). rewrite !Zlen_cons. split; [by constructor|lia].
  - do 3 apply Forall_cons in Hl as [_ Hl]. destruct (IH Hl). apply xdigit_range in Ha, Hb. rewrite !Zlen_cons.
    split; [constructor; [unfold byte_ok; lia|done]|lia].
Qed.

Lemma Base64_encode_terminated l : bytes_ok l -> Zlen l < 536870912 ->
  Base64_encode (Base64_encodeLength (Zlen l) + 1) l = (Zlen (rfc4648 l), rfc4648 l ++ [0]).
Proof.
  intros Hl Hn. pose proof (Zlen_nonneg l). rewrite encodeLength_spec by lia. rewrite <- rfc4648_Zlen. pose proof (rfc4648_Zlen l) as E.
  unfold Base64_encode. change 0 with (Zlen (@nil Z)) at 1. rewrite encode_loop_spec by (rewrite ?Zlen_nil; (done || lia || dlia)).
  rewrite Zlen_nil, Z.add_0_l, app_nil_l. pose proof (Zlen_nonneg (rfc4648 l)).
  destruct (Z.leb_spec (Zlen (rfc4648 l)) (Zlen (rfc4648 l) + 1)); [|lia].
  destruct (Z.leb_spec (Zlen (rfc4648 l)) (Zlen (rfc4648 l) + 1)); [|lia].
  by destruct (Z.ltb_spec (Zlen (rfc4648 l)) (Zlen (rfc4648 l) + 1)); [|lia].
Qed.

Definition http_prefix : list Z := chars "http://".

Lemma drop_prefix l : strstr http_prefix (http_prefix ++ l) = true /\ drop (List.length http_prefix) (http_prefix ++ l) = l.
Proof. split; [|apply drop_app_exact]. unfold strstr. destruct (http_prefix ++ l) eqn:E; rewrite <- E, take_app_exact, bool_decide_eq_true_2 by done; done. Qed.

(** C25. The credentials of an HTTP proxy.  For an address [http://user@host], with a user
    part that is not empty, has no @ and less than 2^29 bytes, the proxy is [host], and the
    header carries, in Base64, the user part with its percent escapes decoded.  A user part
    with a percent sign that two hexadecimal digits do not follow makes the call go on for
    ever. *)
Theorem setHTTPProxy_credentials (user host : list Z) :
  user <> [] -> 64 ∉ user -> bytes_ok user -> Zlen user < 536870912 ->
  (forall creds, escaped user creds ->
     MQTTProtocol_setHTTPProxy (S (List.length user)) (http_prefix ++ user ++ 64 :: host) http_prefix = Some (Ok (host, Some (rfc4648 creds ++ [0])))) /\
  ((forall creds, ~ escaped user creds) ->
     forall fuel, MQTTProtocol_setHTTPProxy fuel (http_prefix ++ user ++ 64 :: host) http_prefix = None).
Proof.
  intros Hne Hat Hb Hl. destruct (drop_prefix (user ++ 64 :: host)) as [E1 E2]. unfold MQTTProtocol_setHTTPProxy. rewrite E1, E2.
  rewrite strchr_first by done. assert (drop (S (List.length user)) (user ++ 64 :: host) = host) as ->.
  { replace (S (List.length user)) with (List.length (user ++ [64])) by (rewrite length_app; cbn; lia).
    replace (user ++ 64 :: host) with ((user ++ [64]) ++ host) by (by rewrite <- app_assoc). apply drop_app_exact. }
  assert (exists n, List.length user = S n) as [n Hn] by (destruct user; [done|by eexists]). split.
  - intros creds Hc. destruct (escaped_bytes _ _ Hc Hb) as [Hcb Hcl]. rewrite Hn, <- Hn.
    rewrite (specialChars_escaped user creds) by (done || lia). fold (Zlen user). replace (Zlen user - (Zlen user - Zlen creds)) with (Zlen creds) by lia.
    cbn [mbind option_bind res_bind]. rewrite Zlen_to_nat, take_ge by lia. rewrite Base64_encode_terminated by (done || lia). done.
  - intros Hno fuel. rewrite Hn, <- Hn. destruct (MQTTProtocol_specialChars fuel (user ++ 64 :: host) (Z.of_nat (List.length user))) as [[[l m]| |]|] eqn:E; [..|done].
    + apply specialChars_returns in E as (l' & rest & E & He). apply at_unique in E as [-> _]; [|done|by eapply escaped_no_at]. by destruct (Hno _ He).
    + by apply specialChars_not_fail in E.
    + by apply specialChars_at in E.
Qed.

Lemma setHTTPProxy_credentials_witness :
  let user := chars "me:p%40ss" in
  MQTTProtocol_setHTTPProxy 10 (http_prefix ++ user ++ 64 :: chars "proxy:8080") http_prefix =
    Some (Ok (chars "proxy:8080", Some (rfc4648 (chars "me:p@ss") ++ [0]))) /\
  forall fuel, MQTTProtocol_setHTTPProxy fuel (http_prefix ++ chars "me:100%" ++ 64 :: chars "proxy") http_prefix = None.
Proof.
  intros user. split.
  - apply (setHTTPProxy_credentials user (chars "proxy:8080")).
    + discriminate.
    + apply (bool_decide_eq_true_1 _). vm_compute. reflexivity.
    + by_compute.
    + reflexivity.
    + repeat constructor; discriminate.
  - apply (setHTTPProxy_credentials (chars "me:100%") (chars "proxy")).
    + discriminate.
    + apply (bool_decide_eq_true_1 _). vm_compute. reflexivity.
    + by_compute.
    + reflexivity.
    + intros creds H. vm_compute in H. repeat match goal with H : escaped (_ :: _) _ |- _ => inversion H; clear H; subst end; done.
Defined.

(** *** The parts of an address *)

Lemma digits_app f n acc r : digits f n acc ++ r = digits f n (acc ++ r).
Proof. revert n acc. induction f as [|f IH]; intros n acc; cbn [digits]; [done|]. destruct (n <? 10); [done|]. by rewrite IH. Qed.

Lemma digits_first f n acc : 0 <= n -> exists d r, digits (S f) n acc = (48 + d) :: r /\ 0 <= d < 10.
Proof.
  revert n acc. induction f as [|f IH]; intros n acc Hn.
  - cbn [digits]. destruct (Z.ltb_spec n 10); [by exists n, acc|]. exists (n mod 10), acc. split; [done|dlia].
  - change (digits (S (S f)) n acc) with (if n <? 10 then (48 + n) :: acc else digits (S f) (n / 10) ((48 + n mod 10) :: acc)).
    destruct (Z.ltb_spec n 10); [by exists n, acc|]. apply IH. dlia.
Qed.

Lemma digits_no c f n acc : 0 <= n -> ~ 48 <= c < 58 -> c ∉ acc -> c ∉ digits f n acc.
Proof.
  intros Hn Hc. revert n acc Hn. induction f as [|f IH]; intros n acc Hn Ha; cbn [digits]; [done|].
  destruct (Z.ltb_spec n 10).
  - apply not_elem_of_cons. split; [lia|done].
  - apply IH; [dlia|]. apply not_elem_of_cons. split; [dlia|done].
Qed.

(** A port, and the path after it. *)
Definition path_ok (path : list Z) : Prop := 58 ∉ path /\ 93 ∉ path /\ (path = [] \/ head path = Some 47).

Lemma atoi_port n path : 0 <= n < 65536 -> path_ok path -> atoi (decimal n ++ path) = n.
Proof.
  intros Hn (_ & _ & Hp). unfold decimal. destruct (Z.ltb_spec n 0); [lia|]. rewrite digits_app. cbn [app].
  destruct (digits_first 19 n path ltac:(lia)) as (d & r & E & Hd).
  assert (atoi_digits (digits 20 n path) 0 = n) as Hv.
  { rewrite atoi_digits_spec by lia. destruct Hp as [->|Hp]; [done|]. destruct path as [|b path]; [done|]. injection Hp as ->. done. }
  rewrite E in Hv |- *. unfold atoi, skip_space, isspace.
  destruct (Z.eqb_spec (48 + d) 32); [lia|]. destruct (Z.leb_spec (48 + d) 13); [lia|]. rewrite andb_false_r. cbn [orb].
  assert (forall x (P : Prop), 48 <= x < 58 -> match x with 45 => False | 43 => False | _ => True end) as Hx by (intros; destruct x as [|p|p]; [lia| |lia]; do 6 (destruct p; try lia); done).
  specialize (Hx (48 + d) True ltac:(lia)). destruct (48 + d) as [|p|p]; [lia| |lia]. do 6 (destruct p; try done).
Qed.

Lemma colon_of_port host rest :
  58 ∉ rest -> (head host <> Some 91 \/ exists v6, host = 91 :: v6 ++ [93] /\ 93 ∉ rest) -> host <> [] ->
  colon_of (host ++ 58 :: rest) = Some (List.length host).
Proof.
  intros Hr Hh Hne. unfold colon_of. rewrite strrchr_last by done. destruct host as [|b host]; [done|]. cbn [app head]. case_bool_decide as E; [|done].
  injection E as ->. destruct Hh as [Hh|(v6 & E & H93)]; [done|]. injection E as ->.
  replace (91 :: (v6 ++ [93]) ++ 58 :: rest) with ((91 :: v6) ++ 93 :: 58 :: rest) by (cbn; by rewrite <- app_assoc).
  rewrite strrchr_last by (apply not_elem_of_cons; split; done). cbn [List.length]. rewrite length_app. cbn [List.length].
  by destruct (Nat.ltb_spec (S (List.length v6 + 1)) (S (List.length v6))); [lia|].
Qed.

Lemma strrchr_other c x l : x <> c -> strrchr c (l ++ [x]) = strrchr c l.
Proof.
  intros H. induction l as [|b l IH]; cbn [app strrchr]; [by destruct (Z.eqb_spec x c)|]. by rewrite IH.
Qed.

Lemma strrchr_lt c l i : strrchr c l = Some i -> (i < List.length l)%nat.
Proof.
  revert i. induction l as [|b l IH]; intros i; cbn [strrchr List.length]; [done|]. destruct (strrchr c l) as [j|].
  - intros [= <-]. specialize (IH j eq_refl). lia.
  - destruct (b =? c); [|done]. intros [= <-]. lia.
Qed.

Lemma lookup_before (l : list Z) x rest n : List.length l = S n -> (l ++ x :: rest) !! n = list.last l.
Proof.
  intros H. rewrite lookup_app_l by lia. rewrite last_lookup. by rewrite H.
Qed.

(** The parts of a server address.  [name:port], with a path or without, gives the
    name and the port; a literal IPv6 address in brackets is cut before the closing
    bracket, with a port or without; an address without a port gives the default one,
    and then a path is taken for part of the name. *)
Theorem addressPort_spec (host path : list Z) (n default_port : Z) :
  host <> [] -> 0 <= n < 65536 -> path_ok path ->
  (head host <> Some 91 -> list.last host <> Some 93 ->
     exists topic, MQTTProtocol_addressPort (host ++ 58 :: decimal n ++ path) default_port = Ok (List.length host, n, topic)) /\
  (exists topic, MQTTProtocol_addressPort (91 :: host ++ 93 :: 58 :: decimal n ++ path) default_port = Ok (S (List.length host), n, topic)) /\
  (93 ∉ host -> exists topic, MQTTProtocol_addressPort (91 :: host ++ [93]) default_port = Ok (S (List.length host), default_port, topic)) /\
  (58 ∉ host -> head host <> Some 91 -> list.last (host ++ path) <> Some 93 ->
     exists topic, MQTTProtocol_addressPort (host ++ path) default_port = Ok (List.length (host ++ path), default_port, topic)).
Proof.
  intros Hne Hn Hp. pose proof Hp as (Hp1 & Hp2 & _).
  assert (forall c, ~ 48 <= c < 58 -> c ∉ path -> c ∉ decimal n ++ path) as Hrest.
  { intros c Hc Hcp. unfold decimal. destruct (Z.ltb_spec n 0); [lia|]. rewrite digits_app. apply digits_no; [lia|done|done]. }
  pose proof (Hrest 58 ltac:(lia) Hp1) as R58. pose proof (Hrest 93 ltac:(lia) Hp2) as R93.
  unfold MQTTProtocol_addressPort. repeat split.
  - intros H1 H2. rewrite colon_of_port by (done || by left).
    assert (exists k, List.length host = S k) as [k Hk] by (destruct host; [done|by eexists]). rewrite Hk, <- Hk.
    eexists. rewrite (lookup_before host 58 (decimal n ++ path) k Hk), bool_decide_eq_false_2 by done. rewrite Hk.
    replace (drop (S (S k)) (host ++ 58 :: decimal n ++ path)) with (decimal n ++ path); [by rewrite atoi_port|].
    replace (host ++ 58 :: decimal n ++ path) with ((host ++ [58]) ++ decimal n ++ path) by (by rewrite <- app_assoc).
    replace (S (S k)) with (List.length (host ++ [58])) by (rewrite length_app; cbn; lia). by rewrite drop_app_exact.
  - set (h := 91 :: host ++ [93]). replace (91 :: host ++ 93 :: 58 :: decimal n ++ path) with (h ++ 58 :: decimal n ++ path) by (unfold h; cbn; by rewrite <- app_assoc).
    rewrite (colon_of_port h) by (done || by (right; exists host)).
    assert (List.length h = S (S (List.length host))) as Hk by (unfold h; cbn; rewrite length_app; cbn; lia). rewrite Hk.
    eexists. rewrite (lookup_before h 58 (decimal n ++ path) _ Hk). assert (list.last h = Some 93) as -> by (apply (last_snoc 93 (91 :: host))).
    rewrite bool_decide_eq_true_2 by done.
    replace (drop (S (S (S (List.length host)))) (h ++ 58 :: decimal n ++ path)) with (decimal n ++ path); [by rewrite atoi_port|].
    replace (h ++ 58 :: decimal n ++ path) with ((h ++ [58]) ++ decimal n ++ path) by (by rewrite <- app_assoc).
    replace (S (S (S (List.length host)))) with (List.length (h ++ [58])) by (rewrite length_app; cbn [List.length]; lia). by rewrite drop_app_exact.
  - intros H93. assert (colon_of (91 :: host ++ [93]) = None) as ->.
    { unfold colon_of. rewrite app_comm_cons, (strrchr_last 93 (91 :: host) []) by apply not_elem_of_nil.
      destruct (strrchr 58 ((91 :: host) ++ [93])) as [i|] eqn:E; [|done]. cbn [app head]. rewrite bool_decide_eq_true_2 by done.
      assert (i < S (List.length host))%nat.
      { rewrite strrchr_other in E by done. by apply strrchr_lt in E. }
      cbn [List.length]. by destruct (Nat.ltb_spec i (S (List.length host))); [|lia]. }
    cbn [default List.length]. rewrite length_app. cbn [List.length]. eexists. rewrite Nat.add_1_r.
    assert ((91 :: host ++ [93]) !! S (List.length host) = Some 93) as -> by (cbn; apply list_lookup_middle; done). by rewrite bool_decide_eq_true_2 by done.
  - intros H58 H91 Hl. assert (colon_of (host ++ path) = None) as ->.
    { unfold colon_of. rewrite strrchr_none; [done|]. apply not_elem_of_app. by split. }
    assert (exists k, List.length (host ++ path) = S k) as [k Hk] by (destruct host; [done|by eexists]).
    eexists. rewrite Hk. rewrite last_lookup, Hk in Hl. cbn [pred] in Hl. by rewrite bool_decide_eq_false_2.
Qed.

Lemma addressPort_spec_witness :
  let host := chars "fe80::1" in
  let path := chars "/mqtt" in
  (exists topic, MQTTProtocol_addressPort (91 :: host ++ 93 :: 58 :: decimal 8883 ++ path) 1883 = Ok (8%nat, 8883, topic)) /\
  (exists topic, MQTTProtocol_addressPort (91 :: host ++ [93]) 1883 = Ok (8%nat, 1883, topic)) /\
  (exists topic, MQTTProtocol_addressPort (chars "broker" ++ 58 :: decimal 8080 ++ path) 80 = Ok (6%nat, 8080, topic)) /\
  (exists topic, MQTTProtocol_addressPort (chars "broker" ++ path) 80 = Ok (11%nat, 80, topic)).
Proof.
  intros host path.
  assert (path_ok path) as Hp.
  { split; [|split; [|right; reflexivity]]; apply (bool_decide_eq_true_1 _); vm_compute; reflexivity. }
  destruct (addressPort_spec host path 8883 1883) as (_ & H1 & H2 & _); [discriminate|lia|exact Hp|].
  destruct (addressPort_spec (chars "broker") path 8080 80) as (H3 & _ & _ & H4); [discriminate|lia|exact Hp|].
  split; [exact H1|]. split; [apply H2; apply (bool_decide_eq_true_1 _); vm_compute; reflexivity|].
  split; [apply H3; discriminate|]. apply H4; [apply (bool_decide_eq_true_1 _); vm_compute; reflexivity|discriminate|discriminate].
Defined.

(** An address of no length is read before its start. *)
Example addressPort_empty : MQTTProtocol_addressPort (chars ":1883") 1883 = Oob.
Proof. reflexivity. Qed.

(** ** Connecting *)

Definition URI_TCP : list Z := chars "tcp://".
Definition URI_WS : list Z := chars "ws://".
Definition starts_with (prefix l : list Z) : bool := bool_decide (take (List.length prefix) l = prefix).

Definition TCP_IN_PROGRESS : Z := 1.
Definition SSL_IN_PROGRESS : Z := 2.
Definition WEBSOCKET_IN_PROGRESS : Z := 3.
Definition WAIT_FOR_CONNACK : Z := 4.
Definition PROXY_CONNECT_IN_PROGRESS : Z := 5.
Definition SOCKS5_PROXY_CONNECT_IN_PROGRESS : Z := 6.
(** The error numbers of the sockets of Windows. *)
Definition EINPROGRESS : Z := 10036.
Definition EWOULDBLOCK : Z := 10035.

(** The calls that open a connection: [Socket_new] with the address, cut to its length,
    and the port, which gives a code and a socket; the start of the dialogues with a
    WebSocket server, an HTTP proxy and a SOCKS5 proxy on a socket, the answer of a
    WebSocket server; the outcome of a connection in progress, which [getsockopt] tells;
    and the lists of sockets with a pending write. *)
Class Connector (N : Type) := {
  Socket_new : list Z -> Z -> N -> Z * Z * N;
  WebSocket_connect : Z -> list Z -> N -> Z * N;
  WebSocket_proxy_connect : Z -> list Z -> N -> Z * N;
  WebSocket_socks5_proxy_connect : Z -> N -> Z * N;
  WebSocket_upgrade : Z -> N -> Z * N;
  connect_outcome : Z -> N -> Z * N;
  Socket_addPendingWrite : Z -> N -> N;
  Socket_clearPendingWrite : Z -> N -> N
}.

(** A network for examples on which every connection is made at once. *)
#[export] Instance script_connector : Connector ScriptNet := {
  Socket_new _ _ n := (0, 3, n);
  WebSocket_connect _ _ n := (0, n);
  WebSocket_proxy_connect _ _ n := (0, n);
  WebSocket_socks5_proxy_connect _ n := (0, n);
  WebSocket_upgrade _ n := (0, n);
  connect_outcome _ n := (0, n);
  Socket_addPendingWrite _ n := n;
  Socket_clearPendingWrite _ n := n
}.

(** The proxies: the HTTP proxy of the client or of the environment, and the SOCKS5
    host and port. *)
Record proxies := mkProxies {
  px_http : option (list Z);
  px_socks5_host : option (list Z);
  px_socks5_port : Z
}.

Definition no_proxies : proxies := mkProxies None None 0.

Section Connect.
Context {P N : Type} {PO : PersistenceOps P} {NT : Transport N} {NC : Connector N}.
Abbreviation M := (SM (St P N)).

Definition set_state (state : Z) : M () := modify_client (fun c => set_connect_state c state).

(** The host of an address, and its port. *)
Definition open_socket (address : list Z) (default_port : Z) : M Z :=
  '(len, port, _) ← sm_lift (MQTTProtocol_addressPort address default_port);
  '(rc, socket) ← call_net (Socket_new (take len address) port);
  _ ← modify_nethandles (fun n => mkNet socket (net_lastSent n) (net_lastReceived n) (net_lastPing n));
  mret rc.

Definition on_socket (f : Z -> N -> Z * N) : M Z := s ← sm_get; call_net (f (the_socket s)).

(** What follows a TCP connection that is complete. *)
Definition connected_socket (ip_address : list Z) (websocket http_proxy socks5 : bool) (MQTTVersion : Z)
    (connectProperties willProperties : option MQTTProperties) : M Z :=
  rc ← (if websocket && http_proxy then
          _ ← set_state PROXY_CONNECT_IN_PROGRESS; on_socket (fun s => WebSocket_proxy_connect s ip_address)
        else mret 0);
  rc ← (if websocket then
          rc ← on_socket (fun s => WebSocket_connect s ip_address);
          _ ← (if rc =? TCPSOCKET_INTERRUPTED then set_state WEBSOCKET_IN_PROGRESS else mret ());
          mret rc
        else mret rc);
  rc ← (if socks5 then
          _ ← set_state SOCKS5_PROXY_CONNECT_IN_PROGRESS; on_socket WebSocket_socks5_proxy_connect
        else mret rc);
  if rc =? 0 then
    rc ← MQTTPacket_send_connect MQTTVersion connectProperties willProperties;
    _ ← set_state (if rc =? 0 then WAIT_FOR_CONNACK else NOT_IN_PROGRESS);
    mret rc
  else mret rc.

(** [MQTTProtocol_connect]; the address of an HTTP proxy that makes
    [MQTTProtocol_specialChars] go on for ever is [Fail]. *)
Definition proxy_address (px : proxies) : M (option (list Z)) :=
  match px_http px with
  | None => mret None
  | Some p0 =>
      match MQTTProtocol_setHTTPProxy (S (List.length p0)) p0 http_prefix with
      | None => sm_fail
      | Some r => '(dest, _) ← sm_lift r; mret (Some dest)
      end
  end.
Definition MQTTProtocol_connect (px : proxies) (ip_address : list Z) (websocket : bool) (MQTTVersion : Z)
    (connectProperties willProperties : option MQTTProperties) : M Z :=
  _ ← modify_client (fun c => set_flags c (connected c) 1 (ping_outstanding c));
  http ← proxy_address px;
  rc ← match http, px_socks5_host px with
       | Some dest, None => if websocket then open_socket dest WS_DEFAULT_PORT else open_socket ip_address MQTT_DEFAULT_PORT
       | Some dest, Some host => if websocket then open_socket dest WS_DEFAULT_PORT else open_socket host (px_socks5_port px)
       | None, Some host => open_socket host (px_socks5_port px)
       | None, None => open_socket ip_address MQTT_DEFAULT_PORT
       end;
  if (rc =? EINPROGRESS) || (rc =? EWOULDBLOCK) then _ ← set_state TCP_IN_PROGRESS; mret rc
  else if rc =? 0 then
    connected_socket ip_address websocket (bool_decide (is_Some http)) (bool_decide (is_Some (px_socks5_host px))) MQTTVersion
      connectProperties willProperties
  else mret rc.

End Connect.

(** The fuel for an address is enough. *)
Lemma specialChars_fuel fuel fuel' p1 n out :
  (fuel <= fuel')%nat -> MQTTProtocol_specialChars fuel p1 n = Some out -> MQTTProtocol_specialChars fuel' p1 n = Some out.
Proof.
  revert fuel' p1 n out. induction fuel as [|fuel IH]; intros [|fuel'] p1 n out Hle; cbn [MQTTProtocol_specialChars]; try done; [lia|].
  destruct p1 as [|c p1]; [done|]. destruct (c =? 64); [done|]. destruct (negb (c =? 37)).
  - destruct (MQTTProtocol_specialChars fuel p1 n) as [o|] eqn:E; [|done]. cbn. intros <-. by rewrite (IH fuel' _ _ _ ltac:(lia) E).
  - destruct p1 as [|a [|b p1]]; [by apply IH; lia|by apply IH; lia|]. destruct (isxdigit a && isxdigit b); [|by apply IH; lia].
    destruct (MQTTProtocol_specialChars fuel p1 (n - 2)) as [o|] eqn:E; [|done]. cbn. intros <-. by rewrite (IH fuel' _ _ _ ltac:(lia) E).
Qed.
Lemma specialChars_enough fuel p1 n :
  (List.length p1 < fuel)%nat -> MQTTProtocol_specialChars fuel p1 n = None -> forall fuel', MQTTProtocol_specialChars fuel' p1 n = None.
Proof.
  revert p1 n. induction fuel as [|fuel IH]; intros p1 n Hf; [lia|]. cbn [MQTTProtocol_specialChars]. destruct p1 as [|c p1]; [done|].
  intros H [|fuel']; [done|]. cbn [MQTTProtocol_specialChars]. destruct (c =? 64) eqn:E1; [done|]. destruct (negb (c =? 37)) eqn:E2.
  - destruct (MQTTProtocol_specialChars fuel p1 n) as [o|] eqn:E; [done|]. by rewrite (IH p1 n ltac:(cbn in Hf; lia) E fuel').
  - assert (forall a, (forall f, MQTTProtocol_specialChars (S f) (c :: p1) n = MQTTProtocol_specialChars f (c :: p1) n) -> MQTTProtocol_specialChars a (c :: p1) n = None) as Hloop.
    { intros f Hs. induction f as [|f IHf]; [done|]. by rewrite Hs. }
    destruct p1 as [|a [|b p1]].
    + apply Hloop. intros f. cbn [MQTTProtocol_specialChars]. by rewrite E1, E2.
    + apply Hloop. intros f. cbn [MQTTProtocol_specialChars]. by rewrite E1, E2.
    + destruct (isxdigit a && isxdigit b) eqn:E3.
      * destruct (MQTTProtocol_specialChars fuel p1 (n - 2)) as [o|] eqn:E; [done|]. by rewrite (IH p1 (n - 2) ltac:(cbn in Hf; lia) E fuel').
      * apply Hloop. intros f. cbn [MQTTProtocol_specialChars]. by rewrite E1, E2, E3.
Qed.
End Outgoing.
