(* ===== verification/AsyncCommands.v ===== *)
(** * The commands of the asynchronous client ([src/src/MQTTAsyncUtils.c])

    The structures [MQTTAsync_command] and [MQTTAsync_queuedCommand], their records in the
    persistence, and how the queue of commands is restored from them.  A command is read
    twice: when the client is created, without what a PUBLISH carries, and when it is
    processed. *)

From S2P Require Import Prelude.
From S2P Require Import Wire.
From S2P Require Import Properties.
From S2P Require Import Clients.
From S2P Require Import Packet.
From S2P Require Import State.
From S2P Require Import Persistence.
From Stdlib Require Import ZArith Lia List Sorting.Permutation Sorting.Sorted.
From stdpp Require Import base numbers list gmap sorting.

Open Scope Z_scope.

Module AsyncCommands.
Import Wire Properties Clients Packet State Persistence.

(** ** Commands *)

(** [MQTTSubscribe_options] in memory: the identifier and the version of the structure,
    the members, and a byte of padding. *)
Record sub_struct := mkSubStruct {
  ss_struct_id : list Z;
  ss_struct_version : Z;
  ss_options : MQTTSubscribe_options;
  ss_padding : Z
}.

(** The union [details]; null pointers are [None] or, for arrays, empty. *)
Inductive details :=
| Dsub (topics : list (list Z)) (qoss : list Z) (opts : sub_struct) (optlist : list sub_struct)
| Dunsub (topics : list (list Z))
| Dpub (destinationName : option (list Z)) (payloadlen : Z) (payload : option (list Z)) (qos retained : Z)
| Ddis (internal : bool) (timeout reasonCode : Z)
| Dconn (currentURI MQTTVersion : Z).

Definition type_of (d : details) : Z :=
  match d with
  | Dsub _ _ _ _ => SUBSCRIBE
  | Dunsub _ => UNSUBSCRIBE
  | Dpub _ _ _ _ _ => PUBLISH
  | Ddis _ _ _ => DISCONNECT
  | Dconn _ _ => CONNECT
  end.

(** [MQTTAsync_command]: of the callbacks, whether they are set. *)
Record MQTTAsync_command := mkCommand {
  c_onSuccess : bool;
  c_onFailure : bool;
  c_onSuccess5 : bool;
  c_onFailure5 : bool;
  c_token : Z;
  c_start_time : Z;
  c_properties : MQTTProperties;
  c_details : details
}.
Definition c_type (c : MQTTAsync_command) : Z := type_of (c_details c).

(** [MQTTAsync_queuedCommand]; [q_client] is the place of the client in the list of
    handles, and [q_id] tells a structure from all others. *)
Record MQTTAsync_queuedCommand := mkQueued {
  q_command : MQTTAsync_command;
  q_client : nat;
  q_cseqno : Z;
  q_not_restored : bool;
  q_key : option (list Z);
  q_id : Z
}.
Definition q_type (q : MQTTAsync_queuedCommand) : Z := c_type (q_command q).

Definition set_details (c : MQTTAsync_command) (d : details) : MQTTAsync_command :=
  mkCommand (c_onSuccess c) (c_onFailure c) (c_onSuccess5 c) (c_onFailure5 c) (c_token c) (c_start_time c) (c_properties c) d.
Definition set_props (c : MQTTAsync_command) (p : MQTTProperties) : MQTTAsync_command :=
  mkCommand (c_onSuccess c) (c_onFailure c) (c_onSuccess5 c) (c_onFailure5 c) (c_token c) (c_start_time c) p (c_details c).
Definition set_token (c : MQTTAsync_command) (t : Z) : MQTTAsync_command :=
  mkCommand (c_onSuccess c) (c_onFailure c) (c_onSuccess5 c) (c_onFailure5 c) t (c_start_time c) (c_properties c) (c_details c).
Definition set_start (c : MQTTAsync_command) (t : Z) : MQTTAsync_command :=
  mkCommand (c_onSuccess c) (c_onFailure c) (c_onSuccess5 c) (c_onFailure5 c) (c_token c) t (c_properties c) (c_details c).
Definition set_command (q : MQTTAsync_queuedCommand) (c : MQTTAsync_command) : MQTTAsync_queuedCommand :=
  mkQueued c (q_client q) (q_cseqno q) (q_not_restored q) (q_key q) (q_id q).
Definition set_cseqno (q : MQTTAsync_queuedCommand) (n : Z) : MQTTAsync_queuedCommand :=
  mkQueued (q_command q) (q_client q) n (q_not_restored q) (q_key q) (q_id q).
Definition set_restored (q : MQTTAsync_queuedCommand) (not_restored : bool) (key : option (list Z)) : MQTTAsync_queuedCommand :=
  mkQueued (q_command q) (q_client q) (q_cseqno q) not_restored key (q_id q).

(** A structure set to zero by [memset]. *)
Definition no_options : sub_struct := mkSubStruct [0; 0; 0; 0] 0 (mkSubOpts 0 0 0) 0.
Definition zero_command (d : details) : MQTTAsync_command := mkCommand false false false false 0 0 MQTTProperties_initializer d.

(** ** Writing the records *)

Definition options_bytes (o : sub_struct) : list Z :=
  ss_struct_id o ++ int_bytes (ss_struct_version o) ++
  [noLocal (ss_options o); retainAsPublished (ss_options o); retainHandling (ss_options o); ss_padding o].
Definition string_bytes (s : list Z) : list Z := cstr s ++ [0].

(** The buffers of the topics; an array that is shorter is read out of bounds. *)
Fixpoint topic_buffers (MQTTVersion : Z) (topics : list (list Z)) (qoss : list Z) (opts : list sub_struct) : res (list (list Z)) :=
  match topics with
  | [] => Ok []
  | t :: topics =>
      if MQTTVersion <? MQTTVERSION_5 then
        match qoss with
        | [] => Oob
        | q :: qoss => r ← topic_buffers MQTTVersion topics qoss opts; Ok (string_bytes t :: int_bytes q :: r)
        end
      else
        match opts with
        | [] => Oob
        | o :: opts => r ← topic_buffers MQTTVersion topics qoss opts; Ok (string_bytes t :: options_bytes o :: r)
        end
  end.

(** The buffers of a command without its properties; [None] for a command that is not
    stored. *)
Definition command_buffers (MQTTVersion : Z) (c : MQTTAsync_command) : res (option (list (list Z))) :=
  let start := [int_bytes (c_type c); int_bytes (c_token c)] in
  match c_details c with
  | Dsub topics qoss opts optlist =>
      r ← topic_buffers MQTTVersion topics qoss (if Zlen topics =? 1 then [opts] else optlist);
      Ok (Some (start ++ [int_bytes (Zlen topics)] ++ r))
  | Dunsub topics => Ok (Some (start ++ [int_bytes (Zlen topics)] ++ map string_bytes topics))
  | Dpub (Some dest) payloadlen payload qos retained =>
      if negb (Zlen (default [] payload) =? payloadlen) then Oob
      else Ok (Some (start ++ [string_bytes dest; int_bytes payloadlen; default [] payload; int_bytes qos; int_bytes retained]))
  | Dpub None _ _ _ _ => Oob
  | Ddis _ _ _ | Dconn _ _ => Ok None
  end.

Definition command_stem (MQTTVersion : Z) : list Z :=
  if MQTTVERSION_5 <=? MQTTVersion then PERSISTENCE_V5_COMMAND_KEY else PERSISTENCE_COMMAND_KEY.
Definition command_key (MQTTVersion seqno : Z) : option (list Z) :=
  snprintf_key (PERSISTENCE_MAX_KEY_LENGTH + 1) (command_stem MQTTVersion) seqno.

Section Store.
Context {P : Type} `{PersistenceOps P}.

(** [MQTTAsync_unpersistCommand]; [MQTTASYNC_PERSISTENCE_ERROR] is the same number. *)
Definition MQTTAsync_unpersistCommand (MQTTVersion : Z) (q : MQTTAsync_queuedCommand) (s : P) : Z * P :=
  match command_key MQTTVersion (q_cseqno q) with
  | None => (MQTTCLIENT_PERSISTENCE_ERROR, s)
  | Some key => premove key s
  end.

(** [MQTTAsync_persistCommand]: the return code, [command_seqno] of the client, the
    command.  What [beforeWrite] returns is overwritten. *)
Definition MQTTAsync_persistCommand (MQTTVersion seqno : Z) (q : MQTTAsync_queuedCommand) (s : P)
    : res (Z * Z * MQTTAsync_queuedCommand * P) :=
  bufs ← command_buffers MQTTVersion (q_command q);
  let seqno := to_u32 (seqno + 1) in
  let seqno := if seqno =? PERSISTENCE_SEQNO_LIMIT then 0 else seqno in
  match bufs with
  | None => Ok (0, seqno, q, s)
  | Some bufs =>
      '(bufs, rc) ←
        (if MQTTVERSION_5 <=? MQTTVersion then
           '(out, rc) ← MQTTProperties_write (Some (c_properties (q_command q)));
           buf ← alloc_write (MQTTProperties_len (Some (c_properties (q_command q)))) out;
           Ok (bufs ++ [buf], rc)
         else Ok (bufs, 0));
      match command_key MQTTVersion seqno with
      | None => Ok (rc, seqno, q, s)
      | Some key =>
          let '(_, bufs) := call_beforeWrite bufs in
          let '(rc, s) := pput key bufs s in
          Ok (rc, seqno, set_cseqno q seqno, s)
      end
  end.

(** ** Reading the records *)

(** [strnlen] *)
Fixpoint strnlen (l : list Z) : Z := match l with [] => 0 | b :: l => if b =? 0 then 0 else 1 + strnlen l end.

(** A string; the test is meant to find that there is no terminator. *)
Definition read_string (l : list Z) : res (list Z * list Z) :=
  if strnlen l + 1 =? Zlen l then Fail else read_cstr l.
(** The string that the first reading of a PUBLISH passes over: without a terminator the
    pointer is left behind the end, and the next test refuses the record. *)
Definition skip_string (l : list Z) : res (list Z * list Z) := if strnlen l =? Zlen l then Fail else read_string l.
Definition need_int (l : list Z) : res (Z * list Z) := if Zlen l <? 4 then Fail else read_int l.

Definition read_options (l : list Z) : res (sub_struct * list Z) :=
  match l with
  | i0 :: i1 :: i2 :: i3 :: l =>
      '(v, l) ← need_int l;
      match l with
      | a :: b :: c :: p :: l => Ok (mkSubStruct [i0; i1; i2; i3] v (mkSubOpts a b c) p, l)
      | _ => Fail
      end
  | _ => Fail
  end.

Fixpoint restore_topics (n : nat) (l : list Z) : res (list (list Z) * list Z) :=
  match n with
  | O => Ok ([], l)
  | S n => '(t, l) ← read_string l; '(ts, l) ← restore_topics n l; Ok (t :: ts, l)
  end.
Fixpoint restore_qoss (n : nat) (l : list Z) : res (list (list Z) * list Z * list Z) :=
  match n with
  | O => Ok ([], [], l)
  | S n => '(t, l) ← read_string l; '(q, l) ← need_int l; '(ts, qs, l) ← restore_qoss n l; Ok (t :: ts, q :: qs, l)
  end.
Fixpoint restore_options (n : nat) (l : list Z) : res (list (list Z) * list sub_struct * list Z) :=
  match n with
  | O => Ok ([], [], l)
  | S n => '(t, l) ← read_string l; '(o, l) ← read_options l; '(ts, os, l) ← restore_options n l; Ok (t :: ts, o :: os, l)
  end.

(** What a command gets from its record: [d] is what it has already, [again] tells
    that it is read for the second time.  A record that is now of another kind would
    use the union for what it is not. *)
Definition restore_details (type MQTTVersion : Z) (again : bool) (d : option details) (l : list Z) : res (details * list Z) :=
  if type =? SUBSCRIBE then
    if again then match d with Some (Dsub t q o os) => Ok (Dsub t q o os, l) | _ => Oob end
    else
      '(count, l) ← need_int l;
      if MQTTVersion <? MQTTVERSION_5 then
        '(ts, qs, l) ← restore_qoss (Z.to_nat count) l; Ok (Dsub ts qs no_options [], l)
      else
        '(ts, os, l) ← restore_options (Z.to_nat count) l;
        Ok (if count =? 1 then Dsub ts [] (default no_options (head os)) [] else Dsub ts [] no_options os, l)
  else if type =? UNSUBSCRIBE then
    if again then match d with Some (Dunsub t) => Ok (Dunsub t, l) | _ => Oob end
    else '(count, l) ← need_int l; '(ts, l) ← restore_topics (Z.to_nat count) l; Ok (Dunsub ts, l)
  else if type =? PUBLISH then
    match d with
    | Some (Dsub _ _ _ _) | Some (Dunsub _) => Oob
    | _ =>
        '(dest, l) ← (if again then read_string l else skip_string l);
        '(payloadlen, l) ← need_int l;
        if payloadlen <? 0 then Oob
        else if Zlen l <? payloadlen then Fail
        else
          let payload := take (Z.to_nat payloadlen) l in
          let l := drop (Z.to_nat payloadlen) l in
          if Zlen l <? 8 then Fail
          else
            '(qos, l) ← read_int l;
            '(retained, l) ← read_int l;
            Ok (if again then Dpub (Some dest) payloadlen (Some payload) qos retained
                else Dpub None payloadlen None qos retained, l)
    end
  else Fail.

(** [MQTTAsync_restoreCommand]: [None] is null.  The first time [qcommand] is null. *)
Definition MQTTAsync_restoreCommand (buffer : list Z) (MQTTVersion : Z) (qcommand : option MQTTAsync_queuedCommand)
    : res (option MQTTAsync_queuedCommand) :=
  match buffer with
  | [] => Ok None
  | _ =>
      let again := bool_decide (is_Some qcommand) in
      let restored :=
        (if Zlen buffer <? 8 then Fail
         else
           '(type, l) ← read_int buffer;
           '(token, l) ← read_int l;
           '(d, l) ← restore_details type MQTTVersion again (c_details ∘ q_command <$> qcommand) l;
           let q := match qcommand with
                    | None => mkQueued (set_token (zero_command d) token) O 0 true None 0
                    | Some q => set_restored (set_command q (set_token (set_details (q_command q) d) token)) false (q_key q)
                    end in
           if again && (MQTTVERSION_5 <=? MQTTVersion) then
             '(props, _) ← MQTTProperties_read (c_properties (q_command q)) l;
             Ok (set_command q (set_props (q_command q) props))
           else Ok q) in
      match restored with Ok q => Ok (Some q) | Fail => Ok None | Oob => Oob end
  end.

(** The version of a record, by its key. *)
Definition version_of_key (key : list Z) : Z := if has_stem PERSISTENCE_V5_COMMAND_KEY key then MQTTVERSION_5 else MQTTVERSION_3_1_1.

Definition is_command_key (key : list Z) : bool := has_stem PERSISTENCE_COMMAND_KEY key || has_stem PERSISTENCE_V5_COMMAND_KEY key.

(** The number in a key, and [qsort] with [cmpkeys], which reads a key without a dash
    from a null pointer; the order of keys with the same number is one of those [qsort]
    may give. *)
Definition key_number (key : list Z) : Z := atoi_digits (after_dash key) 0.
Fixpoint insert_key (k : list Z) (l : list (list Z)) : list (list Z) :=
  match l with
  | [] => [k]
  | k' :: r => if key_number k <=? key_number k' then k :: l else k' :: insert_key k r
  end.
Definition has_dash (key : list Z) : bool := existsb (Z.eqb 45) key.
Definition sort_keys (l : list (list Z)) : res (list (list Z)) :=
  if (1 <? Zlen l) && negb (forallb has_dash l) then Oob else Ok (foldr insert_key [] l).

(** One turn of the loop of [MQTTAsync_restoreCommands], for the client at [i]: the
    return code and the command. *)
Definition restore_command_key (i : nat) (key : list Z) (s : P) : res (Z * option MQTTAsync_queuedCommand) :=
  if negb (is_command_key key) then Ok (0, None)
  else
    let '(rc, buffer) := pget key s in
    if negb (rc =? 0) then Ok (rc, None) else
    let '(rc, buffer) := call_afterRead buffer in
    if negb (rc =? 0) then Ok (rc, None) else
    cmd ← (MQTTAsync_restoreCommand buffer (version_of_key key) None : res (option MQTTAsync_queuedCommand));
    Ok (0, option_map (fun q => mkQueued (q_command q) i (to_u32 (key_number key)) (q_not_restored q) (Some key) (q_id q)) cmd).

(** The loop: the return code, the commands in order, [command_seqno] and
    [noBufferedMessages]. *)
Fixpoint restore_commands_loop (i : nat) (keys : list (list Z)) (s : P) (seqno buffered : Z)
    : res (Z * list MQTTAsync_queuedCommand * Z * Z) :=
  match keys with
  | [] => Ok (0, [], seqno, buffered)
  | key :: keys =>
      '(rc, cmd) ← restore_command_key i key s;
      let seqno' := match cmd with Some q => Z.max seqno (q_cseqno q) | None => seqno end in
      let buffered' := match cmd with Some q => if q_type q =? PUBLISH then buffered + 1 else buffered | None => buffered end in
      if negb (rc =? 0) then Ok (rc, option_list cmd, seqno', buffered')
      else
        '(rc, cmds, seqno, buffered) ← restore_commands_loop i keys s seqno' buffered';
        Ok (rc, option_list cmd ++ cmds, seqno, buffered)
  end.

(** [MQTTAsync_restoreCommands] *)
Definition MQTTAsync_restoreCommands (i : nat) (persistence : bool) (s : P) (seqno buffered : Z)
    : res (Z * list MQTTAsync_queuedCommand * Z * Z) :=
  if persistence then
    let '(rc, keys) := pkeys s in
    if rc =? 0 then keys ← sort_keys keys; restore_commands_loop i keys s seqno buffered else Ok (rc, [], seqno, buffered)
  else Ok (0, [], seqno, buffered).

(** The loops of [MQTTAsync_unpersistCommandsAndMessages] and
    [MQTTAsync_unpersistInflightMessages], which differ in the keys they choose. *)
Fixpoint remove_keys (chosen : list Z -> bool) (keys : list (list Z)) (s : P) : Z * P :=
  match keys with
  | [] => (0, s)
  | key :: keys =>
      if chosen key then
        let '(rc, s) := premove key s in if rc =? 0 then remove_keys chosen keys s else (rc, s)
      else remove_keys chosen keys s
  end.
Definition unpersist_chosen (chosen : list Z -> bool) (c : Clients) (s : P) : Z * P :=
  if persistence c then
    let '(rc, keys) := pkeys s in
    if rc =? 0 then remove_keys chosen keys s else (rc, s)
  else (0, s).
Definition queued_key (key : list Z) : bool :=
  is_command_key key || has_stem PERSISTENCE_QUEUE_KEY key || has_stem PERSISTENCE_V5_QUEUE_KEY key.
Definition inflight_key (key : list Z) : bool :=
  existsb (fun stem => has_stem stem key)
    [PERSISTENCE_PUBLISH_SENT; PERSISTENCE_V5_PUBLISH_SENT; PERSISTENCE_PUBREL; PERSISTENCE_V5_PUBREL;
     PERSISTENCE_PUBLISH_RECEIVED; PERSISTENCE_V5_PUBLISH_RECEIVED].
Definition MQTTAsync_unpersistCommandsAndMessages := unpersist_chosen queued_key.
Definition MQTTAsync_unpersistInflightMessages := unpersist_chosen inflight_key.

End Store.

(** ** Reading back *)

Definition no_nul (l : list Z) : Prop := Forall (fun b => b <> 0) l.

Lemma strnlen_app l r : no_nul l -> strnlen (l ++ 0 :: r) = Zlen l.
Proof.
  induction 1 as [|b l Hb _ IH]; [done|]. cbn [app strnlen]. rewrite Zlen_cons, IH. by destruct (Z.eqb_spec b 0).
Qed.

Lemma read_string_spec l rest : no_nul l -> rest <> [] -> read_string (string_bytes l ++ rest) = Ok (l, rest).
Proof.
  intros Hl Hr. unfold read_string, string_bytes. rewrite cstr_id by done.
  assert (strnlen ((l ++ [0]) ++ rest) = Zlen l) as -> by (rewrite <- app_assoc; by apply strnlen_app).
  rewrite !Zlen_app, Zlen_cons, Zlen_nil. assert (Zlen rest <> 0) by (destruct rest; [done|]; rewrite Zlen_cons; pose proof (Zlen_nonneg rest); lia).
  destruct (Z.eqb_spec (Zlen l + 1) (Zlen l + (1 + 0) + Zlen rest)); [lia|]. by apply read_cstr_spec.
Qed.

Lemma skip_string_spec l rest : no_nul l -> rest <> [] -> skip_string (string_bytes l ++ rest) = Ok (l, rest).
Proof.
  intros Hl Hr. rewrite <- (read_string_spec l rest) by done. unfold skip_string, string_bytes. rewrite cstr_id by done.
  rewrite <- app_assoc. change ([0] ++ rest) with (0 :: rest). rewrite (strnlen_app l), Zlen_app by done. rewrite Zlen_cons. pose proof (Zlen_nonneg rest). by destruct (Z.eqb_spec (Zlen l) (Zlen l + (1 + Zlen rest))); [lia|].
Qed.

(** A string at the end of the record is refused. *)
Lemma read_string_end l : no_nul l -> read_string (string_bytes l) = Fail.
Proof.
  intros Hl. unfold read_string, string_bytes. rewrite cstr_id by done. rewrite (strnlen_app l []) by done.
  rewrite Zlen_app, Zlen_cons, Zlen_nil. by destruct (Z.eqb_spec (Zlen l + 1) (Zlen l + (1 + 0))); [|lia].
Qed.

Lemma int_bytes_length n : Zlen (int_bytes n) = 4.
Proof. done. Qed.

Lemma need_int_bytes n rest : int_ok n -> need_int (int_bytes n ++ rest) = Ok (n, rest).
Proof.
  intros Hn. unfold need_int. rewrite Zlen_app, int_bytes_length. pose proof (Zlen_nonneg rest).
  destruct (Z.ltb_spec (4 + Zlen rest) 4); [lia|]. by apply read_int_bytes.
Qed.

(** The start of a record. *)
Lemma restore_start (type token : Z) (rest : list Z) v q :
  int_ok type -> int_ok token ->
  MQTTAsync_restoreCommand (int_bytes type ++ int_bytes token ++ rest) v q =
    match
      ('(d, l) ← restore_details type v (bool_decide (is_Some q)) (c_details ∘ q_command <$> q) rest;
       let q' := match q with
                 | None => mkQueued (set_token (zero_command d) token) O 0 true None 0
                 | Some q => set_restored (set_command q (set_token (set_details (q_command q) d) token)) false (q_key q)
                 end in
       if bool_decide (is_Some q) && (MQTTVERSION_5 <=? v) then
         '(props, _) ← MQTTProperties_read (c_properties (q_command q')) l;
         Ok (set_command q' (set_props (q_command q') props))
       else Ok q')
    with Ok q => Ok (Some q) | Fail => Ok None | Oob => Oob end.
Proof.
  intros Ht Hk. unfold MQTTAsync_restoreCommand. destruct (int_bytes type ++ int_bytes token ++ rest) as [|b r] eqn:E; [done|].
  rewrite <- E. clear E b r. rewrite !Zlen_app, !int_bytes_length. pose proof (Zlen_nonneg rest).
  destruct (Z.ltb_spec (4 + (4 + Zlen rest)) 8); [lia|]. rewrite read_int_bytes by done. cbn [mbind res_bind].
  rewrite read_int_bytes by done. cbn [mbind res_bind]. done.
Qed.

(** A PUBLISH that can be stored. *)
Record publish_ok (v : Z) (c : MQTTAsync_command) (dest payload : list Z) (qos retained : Z) : Prop := {
  po_details : c_details c = Dpub (Some dest) (Zlen payload) (Some payload) qos retained;
  po_dest : no_nul dest;
  po_payload : Zlen payload < 2147483648;
  po_ints : int_ok (c_token c) /\ int_ok qos /\ int_ok retained;
  po_props : MQTTVERSION_5 <= v -> props_arg_ok (Some (c_properties c))
}.

(** What restoring the details of a PUBLISH gives. *)
Lemma restore_publish v again d dest payload qos retained rest :
  no_nul dest -> Zlen payload < 2147483648 -> int_ok qos -> int_ok retained ->
  match d with Some (Dsub _ _ _ _) | Some (Dunsub _) => False | _ => True end ->
  restore_details PUBLISH v again d
    (string_bytes dest ++ int_bytes (Zlen payload) ++ payload ++ int_bytes qos ++ int_bytes retained ++ rest) =
  Ok (if again then Dpub (Some dest) (Zlen payload) (Some payload) qos retained else Dpub None (Zlen payload) None qos retained, rest).
Proof.
  intros Hd Hp Hq Hr Hprev. unfold restore_details. change (PUBLISH =? SUBSCRIBE) with false. change (PUBLISH =? UNSUBSCRIBE) with false.
  change (PUBLISH =? PUBLISH) with true. cbv iota. pose proof (Zlen_nonneg payload).
  assert (forall A (f : res A), match d with Some (Dsub _ _ _ _) | Some (Dunsub _) => Oob | _ => f end = f) as -> by (by destruct d as [[]|]).
  rewrite skip_string_spec, read_string_spec by done. replace (if again then _ else _) with (Ok (dest, int_bytes (Zlen payload) ++ payload ++ int_bytes qos ++ int_bytes retained ++ rest)) by (by destruct again).
  cbn [mbind res_bind]. rewrite need_int_bytes by (unfold int_ok; lia). cbn [mbind res_bind].
  destruct (Z.ltb_spec (Zlen payload) 0); [lia|].
  rewrite Zlen_to_nat, take_app_exact, drop_app_exact. rewrite !Zlen_app, !int_bytes_length. pose proof (Zlen_nonneg rest).
  destruct (Z.ltb_spec (Zlen payload + (4 + (4 + Zlen rest))) (Zlen payload)); [lia|].
  destruct (Z.ltb_spec (4 + (4 + Zlen rest)) 8); [lia|]. rewrite read_int_bytes by done. cbn [mbind res_bind].
  by rewrite read_int_bytes by done.
Qed.

(** The properties that a command of version [v] is stored with. *)
Lemma stored_properties v c :
  (MQTTVERSION_5 <= v -> props_arg_ok (Some (c_properties c))) ->
  exists out rc p, (if MQTTVERSION_5 <=? v then MQTTProperties_write (Some (c_properties c)) else Ok ([], 0)) = Ok (out, rc) /\
    (MQTTVERSION_5 <= v -> alloc_write (MQTTProperties_len (Some (c_properties c))) out = Ok out) /\
    (v < MQTTVERSION_5 -> out = []) /\
    (MQTTVERSION_5 <= v -> MQTTProperties_read MQTTProperties_initializer out = Ok (p, []) /\ entries p = entries (c_properties c)).
Proof.
  intros H. destruct (properties_part v (Some (c_properties c)) H) as (out & rc & Hw & Hl & Hmax & Hr).
  destruct (Hr []) as (p & Hp & He & _). rewrite app_nil_r in Hp. exists out, rc, p. split; [exact Hw|].
  destruct (Z.leb_spec MQTTVERSION_5 v); [|by repeat split; intros; try lia; injection Hw as -> _].
  split; [intros _; apply alloc_write_ok; lia|]. split; [lia|]. intros _. by split.
Qed.

Section Restart.
Context {P : Type} {PO : PersistenceOps P} {PL : PersistenceLaws P} {PR : PersistenceReliable P}.
Implicit Types s : P.

Definition after_seqno (seqno : Z) : Z := if seqno + 1 =? PERSISTENCE_SEQNO_LIMIT then 0 else seqno + 1.

Lemma after_seqno_range seqno : 0 <= seqno < PERSISTENCE_SEQNO_LIMIT -> 0 <= after_seqno seqno < PERSISTENCE_SEQNO_LIMIT.
Proof. unfold after_seqno, PERSISTENCE_SEQNO_LIMIT. intros H. zcases; lia. Qed.

Definition key_for (v n : Z) : list Z := key_of (command_stem v) n.

Lemma command_key_fits v n : 0 <= n < PERSISTENCE_SEQNO_LIMIT -> command_key v n = Some (key_for v n).
Proof. intros Hn. apply queue_key; [|done]. unfold command_stem. by destruct (_ <=? _). Qed.

Lemma key_for_facts v n : 0 <= n < PERSISTENCE_SEQNO_LIMIT ->
  is_command_key (key_for v n) = true /\ (MQTTVERSION_5 <=? version_of_key (key_for v n)) = (MQTTVERSION_5 <=? v) /\
  key_number (key_for v n) = n /\ has_dash (key_for v n) = true.
Proof.
  intros Hn. unfold PERSISTENCE_SEQNO_LIMIT in Hn. unfold key_for, command_stem, key_number, version_of_key.
  destruct (MQTTVERSION_5 <=? v) eqn:Ev; (split; [done|]); (split; [done|]); (split; [|done]); by apply atoi_decimal.
Qed.

(** A command is stored under its number. *)
Lemma persist_stored v seqno q bufs s :
  command_buffers v (q_command q) = Ok (Some bufs) -> 0 <= seqno < PERSISTENCE_SEQNO_LIMIT ->
  (MQTTVERSION_5 <= v -> props_arg_ok (Some (c_properties (q_command q)))) ->
  exists out p s', let n := after_seqno seqno in
    MQTTAsync_persistCommand v seqno q s = Ok (0, n, set_cseqno q n, s') /\
    contents s' = <[key_for v n := concat bufs ++ out]> (contents s) /\
    (v < MQTTVERSION_5 -> out = []) /\
    (MQTTVERSION_5 <= v -> MQTTProperties_read MQTTProperties_initializer out = Ok (p, []) /\ entries p = entries (c_properties (q_command q))).
Proof.
  intros Hb Hs Hp. destruct (stored_properties v _ Hp) as (out & rc & p & Hw & Ha & Hv & Hr).
  destruct (put_reliable (key_for v (after_seqno seqno)) (if MQTTVERSION_5 <=? v then bufs ++ [out] else bufs) s) as (s' & Hput & Hc).
  exists out, p, s'. cbn zeta. split; [|split; [|done]].
  - unfold MQTTAsync_persistCommand. rewrite Hb. cbn [mbind res_bind]. rewrite to_u32_id by (unfold u32_ok, PERSISTENCE_SEQNO_LIMIT in *; lia).
    fold (after_seqno seqno). rewrite command_key_fits by (by apply after_seqno_range). unfold call_beforeWrite. rewrite no_beforeWrite.
    destruct (Z.leb_spec MQTTVERSION_5 v).
    + rewrite Hw. cbn [mbind res_bind]. rewrite Ha by done. cbn [mbind res_bind]. by rewrite Hput.
    + cbn [mbind res_bind]. by rewrite Hput.
  - rewrite Hc. f_equal. destruct (Z.leb_spec MQTTVERSION_5 v); [by rewrite concat_app; cbn; rewrite app_nil_r|]. by rewrite Hv, app_nil_r by done.
Qed.

(** A restart finds what is in the store. *)
Lemma restore_key_stored i v n s' record :
  contents s' !! key_for v n = Some record -> 0 <= n < PERSISTENCE_SEQNO_LIMIT ->
  restore_command_key i (key_for v n) s' =
    (cmd ← (MQTTAsync_restoreCommand record (version_of_key (key_for v n)) None : res (option MQTTAsync_queuedCommand));
     Ok (0, option_map (fun q => mkQueued (q_command q) i n (q_not_restored q) (Some (key_for v n)) (q_id q)) cmd)).
Proof.
  intros Hc Hn. destruct (key_for_facts v n Hn) as (Hk & _ & Hnum & _). unfold restore_command_key. rewrite Hk, (pget_reliable _ _ _ Hc).
  cbn [negb Z.eqb]. unfold call_afterRead. rewrite no_afterRead. cbn [negb Z.eqb]. rewrite Hnum.
  rewrite to_u32_id by (unfold u32_ok, PERSISTENCE_SEQNO_LIMIT in *; lia). done.
Qed.

(** What a restart makes of a command: the topic and the payload of a PUBLISH are left in
    the record. *)
Definition first_details (v : Z) (d : details) : details :=
  match d with
  | Dpub _ payloadlen _ qos retained => Dpub None payloadlen None qos retained
  | Dsub topics qoss opts optlist =>
      if MQTTVERSION_5 <=? v then if Zlen topics =? 1 then Dsub topics [] opts [] else Dsub topics [] no_options optlist
      else Dsub topics qoss no_options []
  | _ => d
  end.
Definition restored_command (v : Z) (i : nat) (n : Z) (c : MQTTAsync_command) : MQTTAsync_queuedCommand :=
  mkQueued (set_token (zero_command (first_details v (c_details c))) (c_token c)) i n true (Some (key_for v n)) 0.

(** The first reading of a record. *)
Lemma restore_first v i n s' type token rest d l :
  contents s' !! key_for v n = Some (int_bytes type ++ int_bytes token ++ rest) -> 0 <= n < PERSISTENCE_SEQNO_LIMIT ->
  int_ok type -> int_ok token -> restore_details type (version_of_key (key_for v n)) false None rest = Ok (d, l) ->
  restore_command_key i (key_for v n) s' = Ok (0, Some (mkQueued (set_token (zero_command d) token) i n true (Some (key_for v n)) 0)).
Proof.
  intros Hc Hn Ht Hk Hd. rewrite (restore_key_stored i v n s' _ Hc Hn), restore_start by done.
  rewrite bool_decide_eq_false_2 by (by intros [? ?]). cbn [fmap option_fmap option_map]. by rewrite Hd.
Qed.

(** The record of a PUBLISH. *)
Definition publish_record (token : Z) (dest payload : list Z) (qos retained : Z) (out : list Z) : list Z :=
  int_bytes PUBLISH ++ int_bytes token ++
  (string_bytes dest ++ int_bytes (Zlen payload) ++ payload ++ int_bytes qos ++ int_bytes retained ++ out).
Lemma publish_stored v seqno q dest payload qos retained s :
  publish_ok v (q_command q) dest payload qos retained -> 0 <= seqno < PERSISTENCE_SEQNO_LIMIT ->
  exists out p s', let n := after_seqno seqno in
    MQTTAsync_persistCommand v seqno q s = Ok (0, n, set_cseqno q n, s') /\
    contents s' = <[key_for v n := publish_record (c_token (q_command q)) dest payload qos retained out]> (contents s) /\
    (MQTTVERSION_5 <= v -> MQTTProperties_read MQTTProperties_initializer out = Ok (p, []) /\ entries p = entries (c_properties (q_command q))).
Proof.
  intros [Hd Hn Hpl (Ht & Hq & Hr) Hp] Hs.
  set (bufs := [int_bytes PUBLISH; int_bytes (c_token (q_command q)); string_bytes dest; int_bytes (Zlen payload); payload; int_bytes qos; int_bytes retained]).
  assert (command_buffers v (q_command q) = Ok (Some bufs)) as Hb.
  { unfold command_buffers. rewrite Hd. cbn [default]. rewrite Z.eqb_refl. cbn [negb]. unfold c_type. by rewrite Hd. }
  destruct (persist_stored v seqno q bufs s Hb Hs Hp) as (out & p & s' & Hper & Hc & Hv & Hrd). exists out, p, s'. cbn zeta.
  split; [exact Hper|]. split; [|exact Hrd]. rewrite Hc. unfold publish_record, bufs. cbn [concat]. rewrite app_nil_r. by rewrite <- !app_assoc.
Qed.
Lemma publish_first v i n q dest payload qos retained out s' :
  publish_ok v (q_command q) dest payload qos retained -> 0 <= n < PERSISTENCE_SEQNO_LIMIT ->
  contents s' !! key_for v n = Some (publish_record (c_token (q_command q)) dest payload qos retained out) ->
  restore_command_key i (key_for v n) s' = Ok (0, Some (restored_command v i n (q_command q))).
Proof.
  intros [Hd Hno Hpl (Ht & Hq & Hr) _] Hn Hc. unfold restored_command. rewrite Hd.
  eapply restore_first; [exact Hc|done..|]. by apply (restore_publish _ false).
Qed.

(** C8. A PUBLISH that waits to be sent survives a restart.  [MQTTAsync_persistCommand]
    stores it under the next number; a restarted client finds the command, without its
    topic and payload; when the command is to be sent the record gives all of it: topic,
    payload, QoS, RETAIN, token and, in MQTT 5, the properties.  A client of the same MQTT
    version removes the record under the same key.  This is over a store that loses
    nothing, for a topic without NUL, a payload and integers in the range of int, the
    number of the last command in its range, and MQTT 5 properties that are well formed
    with four byte integers below 2^31 ([publish_ok]; a greater one is not written as it
    is). *)
Theorem publish_command_survives (v seqno : Z) (q : MQTTAsync_queuedCommand) (dest payload : list Z) (qos retained : Z) (i : nat) (s : P) :
  publish_ok v (q_command q) dest payload qos retained -> 0 <= seqno < PERSISTENCE_SEQNO_LIMIT ->
  exists s' record q1 q2, let n := after_seqno seqno in let key := key_for v n in
    MQTTAsync_persistCommand v seqno q s = Ok (0, n, set_cseqno q n, s') /\
    contents s' = <[key := record]> (contents s) /\
    restore_command_key i key s' = Ok (0, Some q1) /\
    q_client q1 = i /\ q_cseqno q1 = n /\ q_key q1 = Some key /\ q_not_restored q1 = true /\
    c_details (q_command q1) = Dpub None (Zlen payload) None qos retained /\ c_token (q_command q1) = c_token (q_command q) /\
    MQTTAsync_restoreCommand record (version_of_key key) (Some q1) = Ok (Some q2) /\
    q_not_restored q2 = false /\ c_details (q_command q2) = c_details (q_command q) /\ c_token (q_command q2) = c_token (q_command q) /\
    entries (c_properties (q_command q2)) = (if MQTTVERSION_5 <=? v then entries (c_properties (q_command q)) else []) /\
    contents (snd (MQTTAsync_unpersistCommand v q1 s')) = delete key (contents s).
Proof.
  intros Hok Hs. pose proof (after_seqno_range seqno Hs) as Hnr. destruct (publish_stored v seqno q dest payload qos retained s Hok Hs) as (out & p & s' & Hper & Hc & Hrd).
  cbn zeta in Hper, Hc. set (n := after_seqno seqno) in *. destruct (key_for_facts v n Hnr) as (_ & Hver & _ & _). set (key := key_for v n) in *.
  pose (q1 := restored_command v i n (q_command q)).
  pose (again := set_restored (set_command q1 (set_token (set_details (q_command q1) (c_details (q_command q))) (c_token (q_command q)))) false (Some key)).
  pose (q2 := if MQTTVERSION_5 <=? v then set_command again (set_props (q_command again) p) else again).
  eexists s', _, q1, q2. cbn zeta. fold n. fold key. split; [exact Hper|]. split; [exact Hc|]. split.
  { eapply publish_first; [exact Hok|done|]. rewrite Hc. apply lookup_insert_eq. }
  destruct Hok as [Hd Hno Hpl (Ht & Hq & Hr) _]. do 4 (split; [done|]). split; [by unfold q1, restored_command; rewrite Hd|]. split; [done|]. split.
  { unfold publish_record. rewrite restore_start by done. cbn [fmap option_fmap option_map compose].
    rewrite (restore_publish _ true) by (done || by unfold q1, restored_command; rewrite Hd).
    cbn [mbind res_bind andb]. rewrite Hver, <- Hd. fold again. unfold q2. destruct (Z.leb_spec MQTTVERSION_5 v) as [H5|H5]; [|done].
    destruct (Hrd H5) as [E _]. match goal with |- context [MQTTProperties_read ?x out] => change x with MQTTProperties_initializer end. by rewrite E. }
  unfold q2. split; [by destruct (_ <=? v)|]. split; [by destruct (_ <=? v)|]. split; [by destruct (_ <=? v)|]. split.
  { destruct (Z.leb_spec MQTTVERSION_5 v) as [H5|H5]; [by apply Hrd|done]. }
  unfold MQTTAsync_unpersistCommand. change (q_cseqno q1) with n. rewrite command_key_fits by done. fold key.
  destruct (remove_reliable key s') as (s2 & -> & Hs2). cbn [snd]. rewrite Hs2, Hc. apply delete_insert_eq.
Qed.

(** *** SUBSCRIBE and UNSUBSCRIBE *)

Lemma restore_topics_spec topics rest : Forall no_nul topics -> rest <> [] ->
  restore_topics (List.length topics) (concat (map string_bytes topics) ++ rest) = Ok (topics, rest).
Proof.
  intros Ht Hr. induction Ht as [|t ts Ht _ IH]; [done|]. cbn [List.length restore_topics map concat]. rewrite <- app_assoc.
  rewrite read_string_spec by (done || (intros E; apply app_nil in E; tauto)). cbn [mbind res_bind]. by rewrite IH.
Qed.

(** Without anything behind them the last one is refused. *)
Lemma restore_topics_end topics : Forall no_nul topics -> topics <> [] ->
  restore_topics (List.length topics) (concat (map string_bytes topics)) = Fail.
Proof.
  intros Ht Hne. induction Ht as [|t ts Ht Hts IH]; [done|]. cbn [List.length restore_topics map concat].
  destruct ts as [|t2 ts].
  - cbn [map concat]. rewrite app_nil_r. by rewrite read_string_end.
  - rewrite read_string_spec; [|done|].
    + cbn [mbind res_bind]. by rewrite IH.
    + cbn [map concat]. unfold string_bytes. by destruct (cstr t2).
Qed.

Lemma restore_qoss_spec v topics qoss opts rest : Forall no_nul topics -> Forall int_ok qoss -> List.length qoss = List.length topics ->
  v < MQTTVERSION_5 ->
  exists bufs, topic_buffers v topics qoss opts = Ok bufs /\
    restore_qoss (List.length topics) (concat bufs ++ rest) = Ok (topics, qoss, rest).
Proof.
  intros Ht Hq Hl Hv. revert qoss Hq Hl. induction Ht as [|t ts Ht _ IH]; intros [|q qs] Hq Hl; try done; [by exists []|].
  apply Forall_cons in Hq as [Hq Hqs]. injection Hl as Hl. destruct (IH qs Hqs Hl) as (bufs & Hb & Hr).
  exists (string_bytes t :: int_bytes q :: bufs). cbn [topic_buffers]. destruct (Z.ltb_spec v MQTTVERSION_5); [|lia]. rewrite Hb. split; [done|].
  cbn [List.length restore_qoss concat]. rewrite <- !app_assoc. rewrite read_string_spec by done. cbn [mbind res_bind].
  rewrite need_int_bytes by done. cbn [mbind res_bind]. by rewrite Hr.
Qed.

Definition options_ok (o : sub_struct) : Prop := List.length (ss_struct_id o) = 4%nat /\ int_ok (ss_struct_version o).

Lemma read_options_spec o rest : options_ok o -> read_options (options_bytes o ++ rest) = Ok (o, rest).
Proof.
  destruct o as [id ver [a b c] p]. intros [Hid Hv]. cbn in Hid, Hv. destruct id as [|i0 [|i1 [|i2 [|i3 [|? ?]]]]]; try done.
  unfold options_bytes. cbn [ss_struct_id ss_struct_version ss_options noLocal retainAsPublished retainHandling ss_padding].
  rewrite <- !app_assoc. cbn [app read_options]. by rewrite need_int_bytes.
Qed.

Lemma restore_options_spec v topics qoss opts rest : Forall no_nul topics -> Forall options_ok opts -> List.length opts = List.length topics ->
  MQTTVERSION_5 <= v ->
  exists bufs, topic_buffers v topics qoss opts = Ok bufs /\
    restore_options (List.length topics) (concat bufs ++ rest) = Ok (topics, opts, rest).
Proof.
  intros Ht Ho Hl Hv. revert opts Ho Hl. induction Ht as [|t ts Ht _ IH]; intros [|o os] Ho Hl; try done; [by exists []|].
  apply Forall_cons in Ho as [Ho Hos]. injection Hl as Hl. destruct (IH os Hos Hl) as (bufs & Hb & Hr).
  exists (string_bytes t :: options_bytes o :: bufs). cbn [topic_buffers]. destruct (Z.ltb_spec v MQTTVERSION_5); [lia|]. rewrite Hb. split; [done|].
  cbn [List.length restore_options concat]. rewrite <- !app_assoc.
  rewrite read_string_spec; [|done|destruct Ho as [Hid _]; unfold options_bytes; by destruct (ss_struct_id o)]. cbn [mbind res_bind].
  rewrite read_options_spec by done. cbn [mbind res_bind]. by rewrite Hr.
Qed.

(** A number of topics is no properties: the length is taken from its first byte and the
    identifier of the first one from the second, which is zero. *)
Lemma read_count_fails n rest : 1 <= n < 128 -> MQTTProperties_read MQTTProperties_initializer (int_bytes n ++ rest) = Fail.
Proof.
  intros Hn. assert (int_bytes n = [n; 0; 0; 0]) as -> by (unfold int_bytes; rewrite to_u32_id by (unfold u32_ok; lia); repeat f_equal; dlia).
  cbn [app]. unfold MQTTProperties_read. rewrite !Zlen_cons. pose proof (Zlen_nonneg rest). destruct (Z.ltb_spec 0 (1 + (1 + (1 + (1 + Zlen rest))))); [|lia].
  unfold MQTTPacket_decodeBuf, MQTTPacket_VBIdecode. rewrite VBIdecode_loop_cons. change (4 <? 0 + 1) with false. cbv iota zeta.
  assert (Z.land n 127 = n) as E by (change 127 with (Z.ones 7); rewrite Z.land_ones by lia; apply Z.mod_small; lia).
  assert (Z.land n 128 = 0) as -> by (rewrite <- E, <- Z.land_assoc; apply Z.land_0_r). rewrite E.
  change (negb (0 =? 0)) with false. cbv iota. rewrite Z.mul_1_r, Z.add_0_l, to_u32_id by (unfold u32_ok; lia). cbn [mbind res_bind].
  change (0 + 1) with 1. rewrite Z.add_0_l. unfold skip. rewrite !Zlen_cons. destruct (Z.ltb_spec (1 + (1 + (1 + (1 + Zlen rest)))) 1); [lia|].
  cbn [mbind res_bind]. change (drop (Z.to_nat 1) (n :: 0 :: 0 :: 0 :: rest)) with (0 :: 0 :: 0 :: rest). cbn [List.length read_loop].
  by destruct (Z.eqb_spec n 0); [lia|].
Qed.

(** An UNSUBSCRIBE that waits to be sent does not survive a restart when the version is
    below MQTT 5: its record ends with the terminator of the last topic, and the test for
    a missing terminator takes it for none. *)
Theorem unsubscribe_command_lost (v seqno : Z) (q : MQTTAsync_queuedCommand) (topics : list (list Z)) (i : nat) (s : P) :
  c_details (q_command q) = Dunsub topics -> Forall no_nul topics -> 1 <= Zlen topics < 2147483648 -> int_ok (c_token (q_command q)) ->
  v < MQTTVERSION_5 -> 0 <= seqno < PERSISTENCE_SEQNO_LIMIT ->
  exists s' record, let n := after_seqno seqno in
    MQTTAsync_persistCommand v seqno q s = Ok (0, n, set_cseqno q n, s') /\ contents s' = <[key_for v n := record]> (contents s) /\
    restore_command_key i (key_for v n) s' = Ok (0, None).
Proof.
  intros Hd Ht Hl Hk Hv Hs. pose proof (after_seqno_range seqno Hs) as Hnr. set (n := after_seqno seqno) in *.
  set (bufs := [int_bytes UNSUBSCRIBE; int_bytes (c_token (q_command q)); int_bytes (Zlen topics)] ++ map string_bytes topics).
  assert (command_buffers v (q_command q) = Ok (Some bufs)) as Hb by (unfold command_buffers; rewrite Hd; unfold c_type; by rewrite Hd).
  destruct (persist_stored v seqno q bufs s Hb Hs ltac:(lia)) as (out & p & s' & Hper & Hc & Hout & _). fold n in Hper, Hc.
  rewrite Hout, app_nil_r in Hc by done. exists s', (concat bufs). cbn zeta. fold n. split; [done|]. split; [done|].
  rewrite (restore_key_stored i v n s' (concat bufs)) by (done || (rewrite Hc; apply lookup_insert_eq)).
  assert (concat bufs = int_bytes UNSUBSCRIBE ++ int_bytes (c_token (q_command q)) ++ (int_bytes (Zlen topics) ++ concat (map string_bytes topics))) as ->.
  { unfold bufs. cbn [app concat]. by rewrite <- ?app_assoc. }
  rewrite restore_start by done. unfold restore_details. change (UNSUBSCRIBE =? SUBSCRIBE) with false. change (UNSUBSCRIBE =? UNSUBSCRIBE) with true.
  cbv iota. cbn [bool_decide]. rewrite need_int_bytes by (unfold int_ok; lia). cbn [mbind res_bind]. rewrite Zlen_to_nat.
  rewrite restore_topics_end; [done|done|]. intros ->. rewrite Zlen_nil in Hl. lia.
Qed.

(** In MQTT 5 its properties are behind the last topic. *)
Lemma unsubscribe_stored v seqno q topics i s :
  c_details (q_command q) = Dunsub topics -> Forall no_nul topics -> Zlen topics < 2147483648 -> int_ok (c_token (q_command q)) ->
  MQTTVERSION_5 <= v -> props_arg_ok (Some (c_properties (q_command q))) -> 0 <= seqno < PERSISTENCE_SEQNO_LIMIT ->
  exists s' record, let n := after_seqno seqno in
    MQTTAsync_persistCommand v seqno q s = Ok (0, n, set_cseqno q n, s') /\ contents s' = <[key_for v n := record]> (contents s) /\
    forall s2, contents s2 !! key_for v n = Some record ->
      restore_command_key i (key_for v n) s2 = Ok (0, Some (restored_command v i n (q_command q))).
Proof.
  intros Hd Ht Hl Hk Hv Hp Hs. pose proof (after_seqno_range seqno Hs) as Hnr. set (n := after_seqno seqno) in *.
  set (bufs := [int_bytes UNSUBSCRIBE; int_bytes (c_token (q_command q)); int_bytes (Zlen topics)] ++ map string_bytes topics).
  assert (command_buffers v (q_command q) = Ok (Some bufs)) as Hb by (unfold command_buffers; rewrite Hd; unfold c_type; by rewrite Hd).
  destruct (persist_stored v seqno q bufs s Hb Hs ltac:(done)) as (out & p & s' & Hper & Hc & _ & Hout). fold n in Hper, Hc.
  exists s', (concat bufs ++ out). cbn zeta. fold n. split; [done|]. split; [done|]. intros s2 H2. unfold restored_command. rewrite Hd.
  assert (concat bufs ++ out = int_bytes UNSUBSCRIBE ++ int_bytes (c_token (q_command q)) ++ (int_bytes (Zlen topics) ++ concat (map string_bytes topics) ++ out)) as Erec.
  { unfold bufs. cbn [app concat]. by rewrite <- ?app_assoc. }
  rewrite Erec in H2. eapply restore_first; [exact H2|done..|]. unfold restore_details. change (UNSUBSCRIBE =? SUBSCRIBE) with false.
  change (UNSUBSCRIBE =? UNSUBSCRIBE) with true. cbv iota. pose proof (Zlen_nonneg topics). rewrite need_int_bytes by (unfold int_ok; lia). cbn [mbind res_bind].
  rewrite Zlen_to_nat, restore_topics_spec; [done|done|]. intros ->. destruct (Hout Hv) as [E _]. by cbn in E.
Qed.

(** A SUBSCRIBE as the version stores it: the QoS of every topic, or its options. *)
Definition subscribe_ok (v : Z) (topics : list (list Z)) (qoss : list Z) (opts : list sub_struct) : Prop :=
  Forall no_nul topics /\ 1 <= Zlen topics < 2147483648 /\
  if v <? MQTTVERSION_5 then List.length qoss = List.length topics /\ Forall int_ok qoss
  else List.length opts = List.length topics /\ Forall options_ok opts.

Lemma subscribe_stored v seqno q topics qoss opts optlist i s :
  let l := if Zlen topics =? 1 then [opts] else optlist in
  c_details (q_command q) = Dsub topics qoss opts optlist -> subscribe_ok v topics qoss l -> int_ok (c_token (q_command q)) ->
  (MQTTVERSION_5 <= v -> props_arg_ok (Some (c_properties (q_command q)))) -> 0 <= seqno < PERSISTENCE_SEQNO_LIMIT ->
  exists s' record rest, let n := after_seqno seqno in
    MQTTAsync_persistCommand v seqno q s = Ok (0, n, set_cseqno q n, s') /\ contents s' = <[key_for v n := record]> (contents s) /\
    record = int_bytes SUBSCRIBE ++ int_bytes (c_token (q_command q)) ++ (int_bytes (Zlen topics) ++ rest) /\
    forall s2, contents s2 !! key_for v n = Some record ->
      restore_command_key i (key_for v n) s2 = Ok (0, Some (restored_command v i n (q_command q))).
Proof.
  intros l Hd (Ht & Hl & Hargs) Hk Hp Hs. pose proof (after_seqno_range seqno Hs) as Hnr. set (n := after_seqno seqno) in *.
  assert (exists r, topic_buffers v topics qoss l = Ok r /\ forall out,
    (if v <? MQTTVERSION_5 then restore_qoss (List.length topics) (concat r ++ out) = Ok (topics, qoss, out)
     else restore_options (List.length topics) (concat r ++ out) = Ok (topics, l, out))) as (r & Hr & Hread).
  { destruct (Z.ltb_spec v MQTTVERSION_5) as [H|H]; destruct Hargs as [Ha Hf].
    - destruct (restore_qoss_spec v topics qoss l [] Ht Hf Ha H) as (r & Hr & _). exists r. split; [done|]. intros out.
      destruct (restore_qoss_spec v topics qoss l out Ht Hf Ha H) as (r' & Hr' & E). congruence.
    - destruct (restore_options_spec v topics qoss l [] Ht Hf Ha H) as (r & Hr & _). exists r. split; [done|]. intros out.
      destruct (restore_options_spec v topics qoss l out Ht Hf Ha H) as (r' & Hr' & E). congruence. }
  set (bufs := [int_bytes SUBSCRIBE; int_bytes (c_token (q_command q)); int_bytes (Zlen topics)] ++ r).
  assert (command_buffers v (q_command q) = Ok (Some bufs)) as Hb by (unfold command_buffers; rewrite Hd; fold l; rewrite Hr; unfold c_type; by rewrite Hd).
  destruct (persist_stored v seqno q bufs s Hb Hs Hp) as (out & p & s' & Hper & Hc & _ & _). fold n in Hper, Hc.
  destruct (key_for_facts v n Hnr) as (_ & Hver & _ & _). exists s', (concat bufs ++ out), (concat r ++ out). cbn zeta. fold n.
  split; [done|]. split; [done|]. assert (concat bufs ++ out = int_bytes SUBSCRIBE ++ int_bytes (c_token (q_command q)) ++ (int_bytes (Zlen topics) ++ concat r ++ out)) as Erec
    by (unfold bufs; cbn [app concat]; by rewrite <- ?app_assoc).
  split; [exact Erec|]. intros s2 H2. rewrite Erec in H2. unfold restored_command. rewrite Hd. eapply restore_first; [exact H2|done..|].
  unfold restore_details. change (SUBSCRIBE =? SUBSCRIBE) with true. cbv iota. rewrite need_int_bytes by (unfold int_ok; lia).
  cbn [mbind res_bind]. rewrite Zlen_to_nat. specialize (Hread out). unfold first_details. rewrite <- Hver.
  assert ((version_of_key (key_for v n) <? MQTTVERSION_5) = (v <? MQTTVERSION_5)) as Ev.
  { apply Bool.eq_true_iff_eq. rewrite !Z.ltb_lt. destruct (Z.leb_spec MQTTVERSION_5 v), (Z.leb_spec MQTTVERSION_5 (version_of_key (key_for v n))); (done || lia). }
  rewrite Ev. destruct (Z.ltb_spec v MQTTVERSION_5) as [H|H]; rewrite Hread; cbn [mbind res_bind]; rewrite Hver.
  - by destruct (Z.leb_spec MQTTVERSION_5 v); [lia|].
  - destruct (Z.leb_spec MQTTVERSION_5 v); [|lia]. unfold l. by destruct (Zlen topics =? 1).
Qed.

(** A SUBSCRIBE that waits to be sent is found by a restart.  When it is to be sent its
    record is read again; before MQTT 5 nothing changes, and in MQTT 5 the properties
    are read where the number of topics is, the command is freed and
    [MQTTAsync_restoreCommand] returns null, which [MQTTAsync_processCommand] then uses. *)
Theorem subscribe_command_restored (v seqno : Z) (q : MQTTAsync_queuedCommand) (topics : list (list Z)) (qoss : list Z)
    (opts : sub_struct) (optlist : list sub_struct) (i : nat) (s : P) :
  let l := if Zlen topics =? 1 then [opts] else optlist in
  c_details (q_command q) = Dsub topics qoss opts optlist -> subscribe_ok v topics qoss l -> Zlen topics < 128 -> int_ok (c_token (q_command q)) ->
  (MQTTVERSION_5 <= v -> props_arg_ok (Some (c_properties (q_command q)))) -> 0 <= seqno < PERSISTENCE_SEQNO_LIMIT ->
  exists s' record, let n := after_seqno seqno in let key := key_for v n in let q1 := restored_command v i n (q_command q) in
    MQTTAsync_persistCommand v seqno q s = Ok (0, n, set_cseqno q n, s') /\ contents s' = <[key := record]> (contents s) /\
    restore_command_key i key s' = Ok (0, Some q1) /\
    MQTTAsync_restoreCommand record (version_of_key key) (Some q1) =
      Ok (if MQTTVERSION_5 <=? v then None else Some (set_restored q1 false (Some key))).
Proof.
  intros l Hd Hok Hmax Hk Hp Hs. destruct (subscribe_stored v seqno q topics qoss opts optlist i s Hd Hok Hk Hp Hs) as (s' & record & rest & Hper & Hc & Erec & Hr).
  destruct Hok as (_ & Hl & _). cbn zeta in Hper, Hc, Hr. pose proof (after_seqno_range seqno Hs) as Hnr. set (n := after_seqno seqno) in *.
  destruct (key_for_facts v n Hnr) as (_ & Hver & _ & _). exists s', record. cbn zeta. fold n. split; [done|]. split; [done|]. split; [apply Hr; rewrite Hc; apply lookup_insert_eq|].
  rewrite Erec. rewrite restore_start by done. unfold restored_command. rewrite Hd. cbn [fmap option_fmap option_map compose q_command c_details set_token zero_command].
  assert (forall r, restore_details SUBSCRIBE (version_of_key (key_for v n)) true (Some (first_details v (Dsub topics qoss opts optlist))) r =
    Ok (first_details v (Dsub topics qoss opts optlist), r)) as Hsecond by (intros r; unfold restore_details, first_details; destruct (MQTTVERSION_5 <=? v); [by destruct (Zlen topics =? 1)|done]).
  rewrite bool_decide_eq_true_2 by done. rewrite Hsecond. cbn [mbind res_bind andb]. rewrite Hver.
  destruct (Z.leb_spec MQTTVERSION_5 v) as [H|H]; [|done].
  match goal with |- context [MQTTProperties_read ?x _] => change x with MQTTProperties_initializer end. by rewrite read_count_fails by lia.
Qed.

(** *** The whole store *)

(** Removal of the chosen keys. *)
Lemma remove_keys_spec chosen keys s : exists s', remove_keys chosen keys s = (0, s') /\
  forall k, contents s' !! k = if bool_decide (k ∈ keys) && chosen k then None else contents s !! k.
Proof.
  revert s. induction keys as [|key keys IH]; intros s; cbn [remove_keys]; [by exists s|].
  destruct (chosen key) eqn:Ek.
  - destruct (remove_reliable key s) as (s1 & -> & Hs1). cbn [Z.eqb]. destruct (IH s1) as (s2 & -> & Hs2). exists s2. split; [done|]. intros k.
    rewrite Hs2, Hs1. destruct (decide (k = key)) as [->|Hne].
    + rewrite lookup_delete_eq, (bool_decide_eq_true_2 (key ∈ key :: keys)), Ek by (by left). by destruct (_ && _).
    + rewrite lookup_delete_ne by done. repeat f_equal. by rewrite (bool_decide_ext (k ∈ key :: keys) (k ∈ keys)) by (rewrite elem_of_cons; tauto).
  - destruct (IH s) as (s2 & -> & Hs2). exists s2. split; [done|]. intros k. rewrite Hs2.
    destruct (decide (k = key)) as [->|Hne]; [by rewrite Ek, !andb_false_r|].
    by rewrite (bool_decide_ext (k ∈ key :: keys) (k ∈ keys)) by (rewrite elem_of_cons; tauto).
Qed.

Lemma unpersist_chosen_spec chosen c s : persistence c = true ->
  exists s', unpersist_chosen chosen c s = (0, s') /\ forall k, contents s' !! k = if chosen k then None else contents s !! k.
Proof.
  intros Hp. unfold unpersist_chosen. rewrite Hp. destruct (pkeys s) as [rc keys] eqn:E. pose proof (pkeys_rc s) as Hrc. rewrite E in Hrc.
  cbn in Hrc. subst rc. cbn [Z.eqb]. apply pkeys_ok in E as [_ Hk]. destruct (remove_keys_spec chosen keys s) as (s' & H1 & H2). exists s'.
  split; [done|]. intros k. rewrite H2. case_bool_decide as Hin; [done|]. cbn [andb]. destruct (contents s !! k) eqn:Ec; [|by destruct (chosen k)].
  destruct Hin. apply Hk. by exists l.
Qed.

Lemma has_stem_app stem k : has_stem stem k = true -> exists r, k = stem ++ r.
Proof. unfold has_stem. intros H%bool_decide_eq_true. exists (drop (List.length stem) k). rewrite <- H at 1. by rewrite take_drop. Qed.

(** The records of MQTT messages in flight, and of what is outside of the session. *)
Theorem unpersist_partition (c : Clients) (s : P) :
  persistence c = true ->
  exists s1 s2, MQTTAsync_unpersistInflightMessages c s = (0, s1) /\ MQTTAsync_unpersistCommandsAndMessages c s = (0, s2) /\
    forall k, contents s1 !! k = (if inflight_key k then None else contents s !! k) /\
      contents s2 !! k = (if queued_key k then None else contents s !! k) /\ inflight_key k && queued_key k = false.
Proof.
  intros Hp. destruct (unpersist_chosen_spec inflight_key c s Hp) as (s1 & E1 & H1). destruct (unpersist_chosen_spec queued_key c s Hp) as (s2 & E2 & H2).
  exists s1, s2. split; [done|]. split; [done|]. intros k. split; [apply H1|]. split; [apply H2|].
  apply not_true_is_false. intros [Hi Hq]%andb_true_iff. unfold inflight_key in Hi. apply existsb_exists in Hi as (stem & Hin & Hi).
  apply has_stem_app in Hi as (r & ->). unfold queued_key, is_command_key in Hq. cbn [In] in Hin.
  repeat destruct Hin as [<-|Hin]; [..|done]; discriminate Hq.
Qed.

Lemma insert_key_perm k l : insert_key k l ≡ₚ k :: l.
Proof.
  induction l as [|k' l IH]; cbn [insert_key]; [done|]. destruct (_ <=? _); [done|]. rewrite IH. apply perm_swap.
Qed.

Lemma insert_key_sorted k l : StronglySorted Z.le (map key_number l) -> StronglySorted Z.le (map key_number (insert_key k l)).
Proof.
  induction l as [|k' l IH]; cbn [insert_key map]; intros Hs; [by repeat constructor|].
  apply StronglySorted_inv in Hs as [Hs Hf]. destruct (Z.leb_spec (key_number k) (key_number k')) as [Hle|Hlt]; cbn [map].
  - constructor; [by constructor|]. constructor; [done|]. eapply Forall_impl; [exact Hf|]. cbn. lia.
  - constructor; [by apply IH|]. apply Forall_forall. intros x Hx. apply list_elem_of_In, in_map_iff in Hx as (y & <- & Hy).
    apply list_elem_of_In in Hy. rewrite insert_key_perm in Hy. apply elem_of_cons in Hy as [->|Hy]; [lia|].
    rewrite Forall_forall in Hf. apply Hf, list_elem_of_fmap. by exists y.
Qed.

Lemma sort_keys_spec l : Forall (fun k => has_dash k = true) l ->
  exists l', sort_keys l = Ok l' /\ l' ≡ₚ l /\ StronglySorted Z.le (map key_number l').
Proof.
  intros Hd. exists (foldr insert_key [] l). split.
  - unfold sort_keys. assert (forallb has_dash l = true) as -> by (apply forallb_forall; intros k Hk; rewrite Forall_forall in Hd; by apply Hd, list_elem_of_In).
    by rewrite andb_false_r.
  - clear Hd. induction l as [|k l [IH1 IH2]]; cbn [foldr]; [by repeat constructor|]. split; [by rewrite insert_key_perm, IH1|by apply insert_key_sorted].
Qed.

Definition publishes (l : list MQTTAsync_queuedCommand) : Z := Zlen (List.filter (fun q => q_type q =? PUBLISH) l).

(** The loop, given what every key of a command gives: a command with the number of the
    key, or nothing. *)
Lemma restore_loop_spec i s (f : list Z -> option MQTTAsync_queuedCommand) keys seqno buffered :
  Forall (fun k => is_command_key k = true -> restore_command_key i k s = Ok (0, f k)) keys ->
  let cmds := omap f (List.filter is_command_key keys) in
  restore_commands_loop i keys s seqno buffered = Ok (0, cmds, foldl Z.max seqno (map q_cseqno cmds), buffered + publishes cmds).
Proof.
  intros H. cbn zeta. revert seqno buffered. induction H as [|k keys Hk _ IH]; intros seqno buffered; cbn [restore_commands_loop List.filter].
  { cbn. by rewrite Z.add_0_r. }
  destruct (is_command_key k) eqn:Ek.
  - rewrite (Hk eq_refl). cbn [mbind res_bind negb Z.eqb]. rewrite IH. cbn [mbind res_bind omap list_omap]. destruct (f k) as [q|]; [|done].
    cbn [option_list app map foldl]. f_equal. f_equal. unfold publishes. cbn [List.filter]. destruct (q_type q =? PUBLISH); rewrite ?Zlen_cons; lia.
  - assert (restore_command_key i k s = Ok (0, None)) as -> by (unfold restore_command_key; by rewrite Ek). cbn [mbind res_bind negb Z.eqb].
    by rewrite IH.
Qed.

Lemma filter_sorted (f : list Z -> bool) l : StronglySorted Z.le (map key_number l) -> StronglySorted Z.le (map key_number (List.filter f l)).
Proof.
  induction l as [|k l IH]; cbn [List.filter map]; intros Hs; [constructor|]. apply StronglySorted_inv in Hs as [Hs Hf].
  destruct (f k); cbn [map]; [|by apply IH]. constructor; [by apply IH|]. apply Forall_forall. intros x Hx.
  apply list_elem_of_fmap in Hx as (y & -> & Hy). apply list_elem_of_In, List.filter_In in Hy as [Hy _].
  rewrite Forall_forall in Hf. apply Hf, list_elem_of_fmap. exists y. split; [done|]. by apply list_elem_of_In.
Qed.

Lemma foldl_max_ge l a : a <= foldl Z.max a l /\ Forall (fun x => x <= foldl Z.max a l) l.
Proof.
  revert a. induction l as [|x l IH]; intros a; cbn; [by split; [lia|]|]. destruct (IH (Z.max a x)) as [H1 H2]. split; [lia|].
  constructor; [lia|done].
Qed.

(** *** The history of a store *)

(** A command that can be stored and read again. *)
Definition storable (v : Z) (c : MQTTAsync_command) : Prop :=
  int_ok (c_token c) /\ (MQTTVERSION_5 <= v -> props_arg_ok (Some (c_properties c))) /\
  match c_details c with
  | Dpub (Some dest) payloadlen (Some payload) qos retained => publish_ok v c dest payload qos retained /\ payloadlen = Zlen payload
  | Dsub topics qoss opts optlist => subscribe_ok v topics qoss (if Zlen topics =? 1 then [opts] else optlist)
  | Dunsub topics => Forall no_nul topics /\ 1 <= Zlen topics < 2147483648
  | _ => False
  end.

(** The commands that survive a restart: an UNSUBSCRIBE only from MQTT 5. *)
Definition survives (v : Z) (c : MQTTAsync_command) : bool := match c_details c with Dunsub _ => MQTTVERSION_5 <=? v | _ => true end.

Definition kept_as (v : Z) (i : nat) (s : P) (n : Z) (c : MQTTAsync_command) : Prop :=
  is_Some (contents s !! key_for v n) /\
  restore_command_key i (key_for v n) s = Ok (0, if survives v c then Some (restored_command v i n c) else None).

Lemma restore_key_same i key s1 s2 : is_Some (contents s1 !! key) -> contents s2 !! key = contents s1 !! key ->
  restore_command_key i key s2 = restore_command_key i key s1.
Proof. intros [record H1] H2. rewrite H1 in H2. unfold restore_command_key. by rewrite (pget_reliable _ _ _ H1), (pget_reliable _ _ _ H2). Qed.

Lemma kept_same v i s1 s2 n c : kept_as v i s1 n c -> contents s2 !! key_for v n = contents s1 !! key_for v n -> kept_as v i s2 n c.
Proof. intros [H1 H2] H. unfold kept_as. rewrite H. split; [done|]. by rewrite (restore_key_same i _ s1 s2). Qed.

Lemma command_kept v i seqno q s : storable v (q_command q) -> 0 <= seqno < PERSISTENCE_SEQNO_LIMIT ->
  exists s' record, let n := after_seqno seqno in
    MQTTAsync_persistCommand v seqno q s = Ok (0, n, set_cseqno q n, s') /\ contents s' = <[key_for v n := record]> (contents s) /\
    kept_as v i s' n (q_command q).
Proof.
  intros (Hk & Hp & Hd) Hs. pose proof (after_seqno_range seqno Hs) as Hn. unfold kept_as, survives.
  destruct (c_details (q_command q)) as [t q0 o os|t|[dest|] len [payload|] qos ret| |] eqn:Ed; try done.
  - destruct (subscribe_stored v seqno q t q0 o os i s Ed Hd Hk Hp Hs) as (s' & record & rest & H1 & H2 & _ & H3). exists s', record.
    split; [exact H1|]. split; [exact H2|]. rewrite H2, lookup_insert_eq. split; [by eexists|]. apply H3. rewrite H2. apply lookup_insert_eq.
  - destruct (Z.leb_spec MQTTVERSION_5 v) as [Hv|Hv].
    + destruct (unsubscribe_stored v seqno q t i s Ed ltac:(apply Hd) ltac:(lia) Hk Hv (Hp Hv) Hs) as (s' & record & H1 & H2 & H3). exists s', record.
      split; [exact H1|]. split; [exact H2|]. rewrite H2, lookup_insert_eq. split; [by eexists|]. apply H3. rewrite H2. apply lookup_insert_eq.
    + destruct (unsubscribe_command_lost v seqno q t i s Ed ltac:(apply Hd) ltac:(lia) Hk Hv Hs) as (s' & record & H1 & H2 & H3). exists s', record.
      split; [exact H1|]. split; [exact H2|]. rewrite H2, lookup_insert_eq. split; [by eexists|exact H3].
  - destruct Hd as [Hd _]. destruct (publish_stored v seqno q dest payload qos ret s Hd Hs) as (out & p & s' & H1 & H2 & _). eexists s', _.
    split; [exact H1|]. split; [exact H2|]. rewrite H2, lookup_insert_eq. split; [by eexists|].
    eapply publish_first; [exact Hd|done|]. rewrite H2. apply lookup_insert_eq.
Qed.

(** What a client does to its store while it runs: commands are stored when they are
    accepted and removed when they have been carried out. *)
Inductive store_op :=
| Keep (q : MQTTAsync_queuedCommand)
| Forget (q : MQTTAsync_queuedCommand).
Definition store_step (v : Z) (op : store_op) (x : Z * P) : res (Z * P) :=
  match op with
  | Keep q => '(rc, seqno, q, s) ← MQTTAsync_persistCommand v (fst x) q (snd x); Ok (seqno, s)
  | Forget q => Ok (fst x, snd (MQTTAsync_unpersistCommand v q (snd x)))
  end.
Fixpoint store_steps (v : Z) (ops : list store_op) (x : Z * P) : res (Z * P) :=
  match ops with [] => Ok x | op :: ops => x ← store_step v op x; store_steps v ops x end.

(** The commands waiting, with their numbers. *)
Abbreviation numbered := (Z * MQTTAsync_command)%type.
Definition waiting_step (op : store_op) (x : Z * list numbered) : Z * list numbered :=
  match op with
  | Keep q => (fst x + 1, snd x ++ [(fst x + 1, q_command q)])
  | Forget q => (fst x, List.filter (fun e => negb (fst e =? q_cseqno q)) (snd x))
  end.
Definition waiting (ops : list store_op) (seqno : Z) : Z * list numbered := foldl (fun x op => waiting_step op x) (seqno, []) ops.

Definition op_ok (v : Z) (op : store_op) : Prop :=
  match op with Keep q => storable v (q_command q) | Forget q => 0 <= q_cseqno q < PERSISTENCE_SEQNO_LIMIT end.
Definition keeps (ops : list store_op) : Z := Zlen (List.filter (fun op => match op with Keep _ => true | Forget _ => false end) ops).

(** A key [cmpkeys] can read. *)
Definition sortable (k : list Z) : Prop := has_dash k = true /\ 0 <= key_number k < 4294967296.
Record holds (v : Z) (i : nat) (s : P) (seqno : Z) (l : list numbered) : Prop := {
  ho_range : Forall (fun n => 0 <= n <= seqno) (map fst l);
  ho_sorted : StronglySorted Z.lt (map fst l);
  ho_kept : Forall (fun e => kept_as v i s (fst e) (snd e)) l;
  ho_keys : forall k, is_Some (contents s !! k) -> sortable k /\ (is_command_key k = true -> exists n, n ∈ map fst l /\ k = key_for v n)
}.

Lemma key_for_inj v n n' : 0 <= n < PERSISTENCE_SEQNO_LIMIT -> 0 <= n' < PERSISTENCE_SEQNO_LIMIT -> key_for v n = key_for v n' -> n = n'.
Proof. intros H H' E. pose proof (key_for_facts v n H) as (_ & _ & <- & _). pose proof (key_for_facts v n' H') as (_ & _ & <- & _). by rewrite E. Qed.

Lemma holds_keep v i s seqno l q : holds v i s seqno l -> storable v (q_command q) -> 0 <= seqno -> seqno + 1 < PERSISTENCE_SEQNO_LIMIT ->
  exists s', store_step v (Keep q) (seqno, s) = Ok (seqno + 1, s') /\ holds v i s' (seqno + 1) (l ++ [(seqno + 1, q_command q)]).
Proof.
  intros [H1 H2 H3 H4] Hq H0 Hn. destruct (command_kept v i seqno q s Hq ltac:(lia)) as (s' & record & Hper & Hc & Hk). cbn zeta in *.
  assert (after_seqno seqno = seqno + 1) as E by (unfold after_seqno; destruct (Z.eqb_spec (seqno + 1) PERSISTENCE_SEQNO_LIMIT); lia).
  rewrite E in *. exists s'. cbn [store_step fst snd]. rewrite Hper. split; [done|]. rewrite Forall_map, Forall_forall in H1.
  split; rewrite ?map_app; cbn [map fst].
  - apply Forall_app. split; [rewrite Forall_map, Forall_forall; intros e He; specialize (H1 e He); cbn in *; lia|]. by repeat constructor; lia.
  - apply StronglySorted_app_2; [|done|by repeat constructor]. intros x y Hx Hy%list_elem_of_singleton. apply list_elem_of_fmap in Hx as (e & -> & He). specialize (H1 e He). cbn in H1. lia.
  - apply Forall_app. split; [|by apply Forall_singleton]. rewrite Forall_forall in H3 |- *. intros e He. eapply kept_same; [by apply H3|].
    specialize (H1 e He). cbn in H1. rewrite Hc, lookup_insert_ne; [done|]. intros E2%key_for_inj; lia.
  - intros k Hin. rewrite Hc in Hin. destruct (decide (k = key_for v (seqno + 1))) as [->|Hne].
    + destruct (key_for_facts v (seqno + 1) ltac:(lia)) as (_ & _ & F3 & F4). split; [split; [done|]; rewrite F3; unfold PERSISTENCE_SEQNO_LIMIT in *; lia|].
      intros _. exists (seqno + 1). split; [|done]. apply elem_of_app. right. by left.
    + rewrite lookup_insert_ne in Hin by done. destruct (H4 k Hin) as [Hs Hcmd]. split; [done|]. intros Hk'. destruct (Hcmd Hk') as (n & Hn' & ->).
      exists n. split; [|done]. apply elem_of_app. by left.
Qed.

Lemma filter_fst_sorted (f : numbered -> bool) l : StronglySorted Z.lt (map fst l) -> StronglySorted Z.lt (map fst (List.filter f l)).
Proof.
  induction l as [|e l IH]; cbn [List.filter map]; intros Hs; [constructor|]. apply StronglySorted_inv in Hs as [Hs Hf].
  destruct (f e); cbn [map]; [|by apply IH]. constructor; [by apply IH|]. rewrite Forall_map, Forall_forall in Hf |- *.
  intros x Hx. apply list_elem_of_In, List.filter_In in Hx as [Hx _]. by apply Hf, list_elem_of_In.
Qed.
Lemma Forall_sublist {X} (Q : X -> Prop) (f : X -> bool) l : Forall Q l -> Forall Q (List.filter f l).
Proof. rewrite !Forall_forall. intros H x Hx. apply list_elem_of_In, List.filter_In in Hx as [Hx _]. by apply H, list_elem_of_In. Qed.

Lemma holds_forget v i s seqno l q : holds v i s seqno l -> 0 <= q_cseqno q < PERSISTENCE_SEQNO_LIMIT -> seqno < PERSISTENCE_SEQNO_LIMIT ->
  exists s', store_step v (Forget q) (seqno, s) = Ok (seqno, s') /\ holds v i s' seqno (List.filter (fun e => negb (fst e =? q_cseqno q)) l).
Proof.
  intros [H1 H2 H3 H4] Hq Hn. cbn [store_step fst snd]. unfold MQTTAsync_unpersistCommand. rewrite command_key_fits by done.
  destruct (remove_reliable (key_for v (q_cseqno q)) s) as (s' & -> & Hc). cbn [snd]. exists s'. split; [done|]. split.
  - rewrite Forall_map in H1 |- *. by apply Forall_sublist.
  - by apply filter_fst_sorted.
  - apply Forall_forall. intros e He. apply list_elem_of_In, List.filter_In in He as [He%list_elem_of_In Hne%negb_true_iff%Z.eqb_neq].
    rewrite Forall_forall in H3. rewrite Forall_map, Forall_forall in H1. specialize (H1 e He). cbn in H1. eapply kept_same; [by apply H3|].
    rewrite Hc, lookup_delete_ne; [done|]. intros E%key_for_inj; lia.
  - intros k Hin. rewrite Hc in Hin. destruct (decide (k = key_for v (q_cseqno q))) as [->|Hne]; [rewrite lookup_delete_eq in Hin; by destruct Hin|].
    rewrite lookup_delete_ne in Hin by done. destruct (H4 k Hin) as [Hs Hcmd]. split; [done|]. intros Hk. destruct (Hcmd Hk) as (n & Hn' & ->).
    exists n. split; [|done]. apply list_elem_of_fmap in Hn' as (e & -> & He). apply list_elem_of_fmap. exists e. split; [done|].
    apply list_elem_of_In, List.filter_In. split; [by apply list_elem_of_In|]. apply negb_true_iff, Z.eqb_neq. intros E. apply Hne. by rewrite E.
Qed.

Lemma holds_steps v i ops s seqno l :
  holds v i s seqno l -> 0 <= seqno -> seqno + keeps ops < PERSISTENCE_SEQNO_LIMIT -> Forall (op_ok v) ops ->
  exists s', let x := foldl (fun x op => waiting_step op x) (seqno, l) ops in
    store_steps v ops (seqno, s) = Ok (fst x, s') /\ holds v i s' (fst x) (snd x) /\ fst x = seqno + keeps ops.
Proof.
  intros Hh H0 Hn Hok. revert s seqno l Hh H0 Hn. induction Hok as [|op ops Ho _ IH]; intros s seqno l Hh H0 Hn.
  { exists s. cbn. rewrite Z.add_0_r. by split. }
  destruct op as [q|q]; unfold keeps in *; cbn [List.filter] in *; rewrite ?Zlen_cons in *.
  - pose proof (Zlen_nonneg (List.filter (fun op => match op with Keep _ => true | Forget _ => false end) ops)).
    destruct (holds_keep v i s seqno l q Hh Ho H0 ltac:(lia)) as (s1 & E1 & Hh1). destruct (IH s1 _ _ Hh1 ltac:(lia) ltac:(lia)) as (s' & E & Hh' & Hl).
    exists s'. cbn zeta in *. cbn [store_steps foldl waiting_step fst snd]. rewrite E1. cbn [mbind res_bind]. split; [exact E|]. split; [exact Hh'|]. rewrite Hl. lia.
  - pose proof (Zlen_nonneg (List.filter (fun op => match op with Keep _ => true | Forget _ => false end) ops)).
    destruct (holds_forget v i s seqno l q Hh Ho ltac:(lia)) as (s1 & E1 & Hh1). destruct (IH s1 _ _ Hh1 ltac:(lia) ltac:(lia)) as (s' & E & Hh' & Hl).
    exists s'. cbn zeta in *. cbn [store_steps foldl waiting_step fst snd]. rewrite E1. cbn [mbind res_bind]. by split.
Qed.

(** The keys of the commands, sorted, are those of the numbers. *)
Lemma sorted_command_keys v i s seqno l keys :
  holds v i s seqno l -> seqno < PERSISTENCE_SEQNO_LIMIT -> NoDup keys -> (forall k, k ∈ keys <-> is_Some (contents s !! k)) ->
  StronglySorted Z.le (map key_number keys) -> List.filter is_command_key keys = map (key_for v) (map fst l).
Proof.
  intros [H1 H2 H3 H4] Hn Hnd Hk Hs. rewrite Forall_forall in H1.
  assert (forall n, n ∈ map fst l -> key_number (key_for v n) = n /\ is_command_key (key_for v n) = true) as Hfacts.
  { intros n Hin. specialize (H1 n Hin). cbn in H1. by destruct (key_for_facts v n ltac:(lia)) as (? & _ & ? & _). }
  assert (map key_number (map (key_for v) (map fst l)) = map fst l) as Hnums.
  { rewrite <- (map_id (map fst l)) at 2. rewrite List.map_map. apply map_ext_in. intros n Hin%list_elem_of_In. by apply Hfacts. }
  assert (List.filter is_command_key keys ≡ₚ map (key_for v) (map fst l)) as Hperm.
  { apply NoDup_Permutation.
    - by apply NoDup_ListNoDup, List.NoDup_filter, NoDup_ListNoDup.
    - apply (NoDup_fmap_1 key_number). change (NoDup (map key_number (map (key_for v) (map fst l)))). rewrite Hnums.
      clear -H2. induction H2 as [|x r Hr IH Hx]; constructor; [|done]. intros Hin. rewrite Forall_forall in Hx. specialize (Hx x Hin). lia.
    - intros k. rewrite list_elem_of_In, List.filter_In, <- list_elem_of_In, Hk. rewrite list_elem_of_fmap. split.
      + intros [Hin Hc]. destruct (H4 k Hin) as [_ Hcmd]. destruct (Hcmd Hc) as (n & ? & ->). by exists n.
      + intros (n & -> & Hin). split; [|by apply Hfacts]. apply list_elem_of_fmap in Hin as (e & -> & He). rewrite Forall_forall in H3. by apply (H3 e He). }
  assert (map key_number (List.filter is_command_key keys) = map fst l) as Hnum.
  { apply (StronglySorted_unique Z.le).
    - by apply filter_sorted.
    - clear -H2. induction H2 as [|x r _ IH Hx]; constructor; [done|]. eapply Forall_impl; [exact Hx|]. cbn. lia.
    - etrans; [apply (Permutation_map key_number), Hperm|]. by rewrite Hnums. }
  rewrite <- Hnum at 1. rewrite List.map_map. rewrite <- (map_id (List.filter is_command_key keys)) at 1. apply map_ext_in. intros k Hin%list_elem_of_In.
  rewrite Hperm in Hin. apply list_elem_of_fmap in Hin as (n & -> & Hin). by rewrite (proj1 (Hfacts n Hin)).
Qed.

(** C9. Restarting.  Take a store in which there is no command, whatever other records it
    has under keys with a dash and a number, and any sequence of commands stored and
    commands removed in which the numbers do not start again.  A client that restarts on
    it has in its queue the commands stored and not removed, once each and in the order
    they were accepted, as [restored_command] describes them (a PUBLISH without its topic
    and payload, which are read later), with their numbers, and all but the UNSUBSCRIBE
    commands stored by a version below MQTT 5, which are lost; the last number is the
    greatest of theirs and the PUBLISH commands are counted.  Commands are those that [storable]
    allows: strings without NUL, integers in the range of int, MQTT 5 properties well
    formed with four byte integers below 2^31; the store loses nothing. *)
Theorem commands_restored_in_order (v : Z) (i : nat) (ops : list store_op) (s : P) (seqno start buffered : Z) :
  (forall k, is_Some (contents s !! k) -> sortable k /\ is_command_key k = false) ->
  Forall (op_ok v) ops -> 0 <= seqno -> seqno + keeps ops < PERSISTENCE_SEQNO_LIMIT ->
  exists s', let '(seqno', l) := waiting ops seqno in let survivors := List.filter (fun e => survives v (snd e)) l in
    let cmds := map (fun e => restored_command v i (fst e) (snd e)) survivors in
    store_steps v ops (seqno, s) = Ok (seqno', s') /\ StronglySorted Z.lt (map fst l) /\
    MQTTAsync_restoreCommands i true s' start buffered = Ok (0, cmds, foldl Z.max start (map fst survivors), buffered + publishes cmds).
Proof.
  intros Hfresh Hok H0 Hn.
  assert (holds v i s seqno []) as Hh.
  { split; [constructor|constructor|constructor|]. intros k Hk. destruct (Hfresh k Hk) as [? E]. split; [done|]. by rewrite E. }
  destruct (holds_steps v i ops s seqno [] Hh H0 Hn Hok) as (s' & Hst & Hh' & Hl). exists s'. cbn zeta in *. unfold waiting.
  destruct (foldl _ _ _) as [seqno' l]. cbn [fst snd] in *. split; [exact Hst|]. split; [apply Hh'|].
  unfold MQTTAsync_restoreCommands. destruct (pkeys s') as [rc keys] eqn:E. pose proof (pkeys_rc s') as Hrc. rewrite E in Hrc.
  cbn in Hrc. subst rc. cbn [Z.eqb]. apply pkeys_ok in E as [Hnd Hk].
  destruct (sort_keys_spec keys) as (ks & -> & Hperm & Hsort); [apply Forall_forall; intros k Hin; by apply (ho_keys _ _ _ _ _ Hh'), Hk|]. cbn [mbind res_bind].
  assert (List.filter is_command_key ks = map (key_for v) (map fst l)) as Hkeys.
  { apply (sorted_command_keys v i s' seqno'); [done|lia|by rewrite Hperm| |done]. intros k. by rewrite Hperm, Hk. }
  pose (found k := match restore_command_key i k s' with Ok (_, c) => c | _ => None end).
  assert (Forall (fun e => restore_command_key i (key_for v (fst e)) s' = Ok (0, if survives v (snd e) then Some (restored_command v i (fst e) (snd e)) else None)) l) as Hf
    by (eapply Forall_impl; [apply Hh'|]; intros e; apply proj2).
  rewrite (restore_loop_spec i s' found).
  - assert (omap found (List.filter is_command_key ks) = map (fun e => restored_command v i (fst e) (snd e)) (List.filter (fun e => survives v (snd e)) l)) as ->.
    { rewrite Hkeys. clear -Hf. induction Hf as [|e l He _ IH]; [done|]. cbn [map omap list_omap List.filter]. unfold found at 1. rewrite He.
      cbn [map omap list_omap] in IH. destruct (survives v (snd e)); cbn [map]; by rewrite <- IH. }
    by rewrite List.map_map.
  - apply Forall_forall. intros k Hin Hc. assert (k ∈ map (key_for v) (map fst l)) as Hin'.
    { rewrite <- Hkeys. apply list_elem_of_In, List.filter_In. split; [by apply list_elem_of_In|done]. }
    apply list_elem_of_fmap in Hin' as (n & -> & Hin'). apply list_elem_of_fmap in Hin' as (e & -> & He).
    rewrite Forall_forall in Hf. unfold found. by rewrite (Hf e He).
Qed.

End Restart.

(** A PUBLISH with properties, and an MQTT 5 client whose numbers start again. *)
Definition sample_publish : MQTTAsync_queuedCommand :=
  mkQueued (set_props (set_token (zero_command (Dpub (Some [97; 47; 98]) 3 (Some [1; 0; 2]) 2 1)) 65535) sample_props) 0 0 false None 9.

Lemma publish_command_survives_witness :
  let s := (∅ : MemStore) in
  (publish_ok 5 (q_command sample_publish) [97; 47; 98] [1; 0; 2] 2 1 /\ 0 <= 999999 < PERSISTENCE_SEQNO_LIMIT) /\
  exists s' record q1 q2, let n := after_seqno 999999 in let key := key_for 5 n in
    MQTTAsync_persistCommand 5 999999 sample_publish s = Ok (0, n, set_cseqno sample_publish n, s') /\
    contents s' = <[key := record]> (contents s) /\
    restore_command_key 0 key s' = Ok (0, Some q1) /\
    q_client q1 = O /\ q_cseqno q1 = n /\ q_key q1 = Some key /\ q_not_restored q1 = true /\
    c_details (q_command q1) = Dpub None (Zlen [1; 0; 2]) None 2 1 /\ c_token (q_command q1) = c_token (q_command sample_publish) /\
    MQTTAsync_restoreCommand record (version_of_key key) (Some q1) = Ok (Some q2) /\
    q_not_restored q2 = false /\ c_details (q_command q2) = c_details (q_command sample_publish) /\
    c_token (q_command q2) = c_token (q_command sample_publish) /\
    entries (c_properties (q_command q2)) = (if MQTTVERSION_5 <=? 5 then entries (c_properties (q_command sample_publish)) else []) /\
    contents (snd (MQTTAsync_unpersistCommand 5 q1 s')) = delete key (contents s).
Proof.
  intros s.
  assert (publish_ok 5 (q_command sample_publish) [97; 47; 98] [1; 0; 2] 2 1 /\ 0 <= 999999 < PERSISTENCE_SEQNO_LIMIT) as [H1 H2].
  { split; [|vm_compute; split; [discriminate|reflexivity]]. split.
    - reflexivity.
    - repeat (apply List.Forall_cons || apply List.Forall_nil); discriminate.
    - reflexivity.
    - repeat split; discriminate.
    - intros _. split; [exact sample_props_inv | repeat constructor; vm_compute; reflexivity]. }
  split; [split; [exact H1|exact H2]|].
  apply (publish_command_survives 5 999999 sample_publish [97; 47; 98] [1; 0; 2] 2 1 0 s H1 H2).
Defined.

(** A store with a message received; a SUBSCRIBE, an UNSUBSCRIBE and two PUBLISH commands
    are accepted before MQTT 5, and the first PUBLISH is carried out. *)
Definition sample_subscribe : MQTTAsync_queuedCommand := mkQueued (zero_command (Dsub [[97]; [98]] [0; 1] no_options [])) 0 0 false None 8.
Definition sample_unsubscribe : MQTTAsync_queuedCommand := mkQueued (zero_command (Dunsub [[97]])) 0 0 false None 7.
Definition sample_ops : list store_op :=
  [Keep sample_subscribe; Keep sample_publish; Keep sample_unsubscribe; Keep sample_publish; Forget (set_cseqno sample_publish 9)].
Definition inbound_store : MemStore := <[publish_key 4 513 := [50; 6]]> ∅.

Lemma commands_restored_in_order_witness :
  ((forall k, is_Some (contents inbound_store !! k) -> sortable k /\ is_command_key k = false) /\
   Forall (op_ok 4) sample_ops /\ 0 <= 7 /\ 7 + keeps sample_ops < PERSISTENCE_SEQNO_LIMIT) /\
  exists s', let '(seqno', l) := waiting sample_ops 7 in let survivors := List.filter (fun e => survives 4 (snd e)) l in
    let cmds := map (fun e => restored_command 4 2 (fst e) (snd e)) survivors in
    store_steps 4 sample_ops (7, inbound_store) = Ok (seqno', s') /\ StronglySorted Z.lt (map fst l) /\
    MQTTAsync_restoreCommands 2 true s' 0 0 = Ok (0, cmds, foldl Z.max 0 (map fst survivors), 0 + publishes cmds).
Proof.
  assert (forall k, is_Some (contents inbound_store !! k) -> sortable k /\ is_command_key k = false) as H1.
  { assert (forall k, is_Some (contents inbound_store !! k) -> k ∈ snd (pkeys inbound_store)) as Hk.
    { intros k. apply MemStore_laws. vm_compute. reflexivity. }
    intros k Hin%Hk. vm_compute in Hin. repeat (apply elem_of_cons in Hin as [-> | Hin]); [..|by apply elem_of_nil in Hin];
    (split; [|vm_compute; reflexivity]); (split; [vm_compute; reflexivity|]); vm_compute; split; [discriminate|reflexivity]. }
  assert (storable 4 (q_command sample_publish)) as Hp.
  { split; [vm_compute; split; [discriminate|reflexivity]|]. split; [intros H; exfalso; apply H; reflexivity|]. split; [|reflexivity]. split.
    - reflexivity.
    - repeat (apply List.Forall_cons || apply List.Forall_nil); discriminate.
    - reflexivity.
    - repeat split; discriminate.
    - intros H; exfalso; apply H; reflexivity. }
  assert (Forall (op_ok 4) sample_ops) as H2.
  { repeat (apply List.Forall_cons || apply List.Forall_nil); try exact Hp.
    - split; [vm_compute; split; [discriminate|reflexivity]|]. split; [intros H; exfalso; apply H; reflexivity|].
      split; [repeat constructor; discriminate|]. split; [vm_compute; split; [discriminate|reflexivity]|]. split; [reflexivity|].
      repeat constructor; vm_compute; discriminate.
    - split; [vm_compute; split; [discriminate|reflexivity]|]. split; [intros H; exfalso; apply H; reflexivity|].
      split; [repeat constructor; discriminate|]. vm_compute. split; [discriminate|reflexivity].
    - vm_compute. split; [discriminate|reflexivity]. }
  assert (7 + keeps sample_ops < PERSISTENCE_SEQNO_LIMIT) as H3 by (vm_compute; reflexivity).
  assert (0 <= 7) as H0 by (vm_compute; discriminate).
  split; [exact (conj H1 (conj H2 (conj H0 H3)))|].
  exact (commands_restored_in_order 4 2 sample_ops inbound_store 7 0 0 H1 H2 H0 H3).
Defined.

(** The numbers and kinds of the commands of the restarted client. *)
Example restart_order :
  match store_steps 4 sample_ops (7, inbound_store) with
  | Ok (n, s) =>
      match MQTTAsync_restoreCommands 2 true s 0 0 with
      | Ok (rc, l, n', b) => Some (n, rc, map q_cseqno l, map q_type l, n', b)
      | _ => None
      end
  | _ => None
  end = Some (11, 0, [8; 11], [SUBSCRIBE; PUBLISH], 11, 1).
Proof. vm_compute. reflexivity. Qed.

End AsyncCommands.
