(* ===== verification/AsyncQueue.v ===== *)
(** * The queue of the asynchronous client ([src/src/MQTTAsyncUtils.c], [MQTTAsync.c])

    The handles of the asynchronous API and the list of commands they share: how a
    command is added, which one is taken next, the identifiers, the bounded buffer for
    messages, the intervals between attempts to reconnect, and the calls of the API that
    add commands.  Every critical section is a step; the callbacks of the application
    are recorded in the order they are called, and do not call the library. *)

From S2P Require Import Prelude.
From S2P Require Import Utf8.
From S2P Require Import Wire.
From S2P Require Import Properties.
From S2P Require Import LinkedList.
From S2P Require Import Clients.
From S2P Require Import Packet.
From S2P Require Import State.
From S2P Require Import Store.
From S2P Require Import Persistence.
From S2P Require Import PacketIO.
From S2P Require Import Protocol.
From S2P Require Import Session.
From S2P Require Import AsyncCommands.
From Stdlib Require Import ZArith Lia List Sorting.Sorted.
From stdpp Require Import base numbers list gmap.

Open Scope Z_scope.

Module AsyncQueue.
Import Utf8 Wire Properties Clients Packet State Store Persistence PacketIO Protocol Session AsyncCommands.

Definition MQTTASYNC_SUCCESS : Z := 0.
Definition MQTTASYNC_FAILURE : Z := -1.
Definition MQTTASYNC_PERSISTENCE_ERROR : Z := -2.
Definition MQTTASYNC_DISCONNECTED : Z := -3.
Definition MQTTASYNC_BAD_UTF8_STRING : Z := -5.
Definition MQTTASYNC_BAD_QOS : Z := -9.
Definition MQTTASYNC_NO_MORE_MSGIDS : Z := -10.
Definition MQTTASYNC_OPERATION_INCOMPLETE : Z := -11.
Definition MQTTASYNC_MAX_BUFFERED_MESSAGES : Z := -12.
Definition MQTTASYNC_BAD_MQTT_OPTION : Z := -15.
Definition MQTTVERSION_DEFAULT : Z := 0.

(** ** Handles *)

(** [MQTTAsync_createOptions]: the members used after the handle is created. *)
Record MQTTAsync_createOptions := mkCreate {
  co_struct_version : Z;
  co_sendWhileDisconnected : Z;
  co_maxBufferedMessages : Z;
  co_allowDisconnectedSendAtAnyTime : Z;
  co_deleteOldestMessages : Z;
  co_persistQoS0 : Z
}.

(** What [MQTTAsync_struct] keeps as it was given: of the callbacks [cl], [ma], [dc],
    [connected] and [disconnected], whether they are set. *)
Record settings := mkSettings {
  a_serverURI : list Z;
  a_cl : bool;
  a_ma : bool;
  a_dc : bool;
  a_connected : bool;
  a_disconnected : bool;
  a_createOptions : option MQTTAsync_createOptions;
  a_serverURIs : list (list Z);
  a_connectTimeout : Z;
  a_connectProps : option MQTTProperties;
  a_willProps : option MQTTProperties
}.

(** Its members for the automatic reconnection. *)
Record reconnection := mkReconnection {
  automaticReconnect : bool;
  minRetryInterval : Z;
  maxRetryInterval : Z;
  currentInterval : Z;
  currentIntervalBase : Z;
  lastConnectionFailedTime : Z;
  retrying : bool;
  reconnectNow : bool
}.

(** [MQTTAsync_struct]; [pending_write] is the structure of the command it points to. *)
Record MQTTAsyncs (P : Type) := mkAsync {
  a_settings : settings;
  a_websocket : bool;
  a_c : Clients;
  a_phandle : P;
  a_connect : MQTTAsync_command;
  a_disconnect : MQTTAsync_command;
  a_pending_write : option Z;
  a_responses : AList.t MQTTAsync_queuedCommand;
  a_command_seqno : Z;
  a_shouldBeConnected : bool;
  a_noBufferedMessages : Z;
  a_reconnection : reconnection
}.
Arguments mkAsync {P}.
Arguments a_settings {P}.
Arguments a_websocket {P}.
Arguments a_c {P}.
Arguments a_phandle {P}.
Arguments a_connect {P}.
Arguments a_disconnect {P}.
Arguments a_pending_write {P}.
Arguments a_responses {P}.
Arguments a_command_seqno {P}.
Arguments a_shouldBeConnected {P}.
Arguments a_noBufferedMessages {P}.
Arguments a_reconnection {P}.

Section Setters.
Context {P : Type}.
Implicit Types h : MQTTAsyncs P.
Definition with_session h (c : Clients) (p : P) : MQTTAsyncs P :=
  mkAsync (a_settings h) (a_websocket h) c p (a_connect h) (a_disconnect h) (a_pending_write h) (a_responses h)
    (a_command_seqno h) (a_shouldBeConnected h) (a_noBufferedMessages h) (a_reconnection h).
Definition with_websocket h (b : bool) : MQTTAsyncs P :=
  mkAsync (a_settings h) b (a_c h) (a_phandle h) (a_connect h) (a_disconnect h) (a_pending_write h) (a_responses h)
    (a_command_seqno h) (a_shouldBeConnected h) (a_noBufferedMessages h) (a_reconnection h).
Definition with_connect h (c : MQTTAsync_command) : MQTTAsyncs P :=
  mkAsync (a_settings h) (a_websocket h) (a_c h) (a_phandle h) c (a_disconnect h) (a_pending_write h) (a_responses h)
    (a_command_seqno h) (a_shouldBeConnected h) (a_noBufferedMessages h) (a_reconnection h).
Definition with_disconnect h (c : MQTTAsync_command) : MQTTAsyncs P :=
  mkAsync (a_settings h) (a_websocket h) (a_c h) (a_phandle h) (a_connect h) c (a_pending_write h) (a_responses h)
    (a_command_seqno h) (a_shouldBeConnected h) (a_noBufferedMessages h) (a_reconnection h).
Definition with_pending_write h (p : option Z) : MQTTAsyncs P :=
  mkAsync (a_settings h) (a_websocket h) (a_c h) (a_phandle h) (a_connect h) (a_disconnect h) p (a_responses h)
    (a_command_seqno h) (a_shouldBeConnected h) (a_noBufferedMessages h) (a_reconnection h).
Definition with_responses h (l : AList.t MQTTAsync_queuedCommand) : MQTTAsyncs P :=
  mkAsync (a_settings h) (a_websocket h) (a_c h) (a_phandle h) (a_connect h) (a_disconnect h) (a_pending_write h) l
    (a_command_seqno h) (a_shouldBeConnected h) (a_noBufferedMessages h) (a_reconnection h).
Definition with_seqno h (n : Z) : MQTTAsyncs P :=
  mkAsync (a_settings h) (a_websocket h) (a_c h) (a_phandle h) (a_connect h) (a_disconnect h) (a_pending_write h) (a_responses h)
    n (a_shouldBeConnected h) (a_noBufferedMessages h) (a_reconnection h).
Definition with_should h (b : bool) : MQTTAsyncs P :=
  mkAsync (a_settings h) (a_websocket h) (a_c h) (a_phandle h) (a_connect h) (a_disconnect h) (a_pending_write h) (a_responses h)
    (a_command_seqno h) b (a_noBufferedMessages h) (a_reconnection h).
Definition with_buffered h (n : Z) : MQTTAsyncs P :=
  mkAsync (a_settings h) (a_websocket h) (a_c h) (a_phandle h) (a_connect h) (a_disconnect h) (a_pending_write h) (a_responses h)
    (a_command_seqno h) (a_shouldBeConnected h) n (a_reconnection h).
Definition with_reconnection h (r : reconnection) : MQTTAsyncs P :=
  mkAsync (a_settings h) (a_websocket h) (a_c h) (a_phandle h) (a_connect h) (a_disconnect h) (a_pending_write h) (a_responses h)
    (a_command_seqno h) (a_shouldBeConnected h) (a_noBufferedMessages h) r.
Definition with_client h (c : Clients) : MQTTAsyncs P := with_session h c (a_phandle h).
End Setters.

(** ** The state *)

(** What the application can observe, the messages received from the server, before they
    are handed over, and the ends of the structures of commands. *)
Inductive event :=
| EvSuccess (i : nat) (id token : Z)
| EvFailure (i : nat) (id token code : Z)
| EvConnectSuccess (i : nat)
| EvConnectFailure (i : nat) (code : Z)
| EvConnectionLost (i : nat)
| EvDeliveryComplete (i : nat) (token : Z)
| EvDisconnected (i : nat)
| EvConnected (i : nat) (first : bool)
| EvServerDisconnected (i : nat) (reason : option Z)
| EvReceived (i : nat) (m : qEntry)
| EvArrived (i : nat) (topicLen : Z) (m : qEntry) (accepted : bool)
| EvFree (id : Z).

(** The handles, [MQTTAsync_commands], what the clients share, the structures allocated
    so far, the commands [MQTTAsync_processCommand] has taken, the events, and what is to
    come: the values of [rand] and the answers of the [messageArrived] callbacks. *)
Record World (P N : Type) := mkWorld {
  w_handles : list (MQTTAsyncs P);
  w_commands : AList.t MQTTAsync_queuedCommand;
  w_pubs : pubstore;
  w_pending : list pending_write;
  w_net : N;
  w_msgs_sent : Z;
  w_msgs_received : Z;
  w_next : Z;
  w_taken : list MQTTAsync_queuedCommand;
  w_events : list event;
  w_rand : list Z;
  w_answers : list bool
}.
Arguments mkWorld {P N}.
Arguments w_handles {P N}.
Arguments w_commands {P N}.
Arguments w_pubs {P N}.
Arguments w_pending {P N}.
Arguments w_net {P N}.
Arguments w_msgs_sent {P N}.
Arguments w_msgs_received {P N}.
Arguments w_next {P N}.
Arguments w_taken {P N}.
Arguments w_events {P N}.
Arguments w_rand {P N}.
Arguments w_answers {P N}.

Section Async.
Context {P N : Type} {PO : PersistenceOps P} {NT : Transport N}.
Abbreviation A := (SM (World P N)).
Abbreviation queued := MQTTAsync_queuedCommand.

Definition put_handles (w : World P N) (l : list (MQTTAsyncs P)) : World P N :=
  mkWorld l (w_commands w) (w_pubs w) (w_pending w) (w_net w) (w_msgs_sent w) (w_msgs_received w) (w_next w) (w_taken w) (w_events w) (w_rand w) (w_answers w).
Definition put_commands (w : World P N) (l : AList.t queued) : World P N :=
  mkWorld (w_handles w) l (w_pubs w) (w_pending w) (w_net w) (w_msgs_sent w) (w_msgs_received w) (w_next w) (w_taken w) (w_events w) (w_rand w) (w_answers w).
Definition put_next (w : World P N) (n : Z) : World P N :=
  mkWorld (w_handles w) (w_commands w) (w_pubs w) (w_pending w) (w_net w) (w_msgs_sent w) (w_msgs_received w) n (w_taken w) (w_events w) (w_rand w) (w_answers w).
Definition put_taken (w : World P N) (l : list queued) : World P N :=
  mkWorld (w_handles w) (w_commands w) (w_pubs w) (w_pending w) (w_net w) (w_msgs_sent w) (w_msgs_received w) (w_next w) l (w_events w) (w_rand w) (w_answers w).
Definition put_events (w : World P N) (l : list event) : World P N :=
  mkWorld (w_handles w) (w_commands w) (w_pubs w) (w_pending w) (w_net w) (w_msgs_sent w) (w_msgs_received w) (w_next w) (w_taken w) l (w_rand w) (w_answers w).
Definition put_rand (w : World P N) (l : list Z) : World P N :=
  mkWorld (w_handles w) (w_commands w) (w_pubs w) (w_pending w) (w_net w) (w_msgs_sent w) (w_msgs_received w) (w_next w) (w_taken w) (w_events w) l (w_answers w).
Definition put_answers (w : World P N) (l : list bool) : World P N :=
  mkWorld (w_handles w) (w_commands w) (w_pubs w) (w_pending w) (w_net w) (w_msgs_sent w) (w_msgs_received w) (w_next w) (w_taken w) (w_events w) (w_rand w) l.

Definition get_handle (i : nat) : A (MQTTAsyncs P) :=
  w ← sm_get; match w_handles w !! i with Some h => mret h | None => sm_oob end.
Definition modify_handle (i : nat) (f : MQTTAsyncs P -> MQTTAsyncs P) : A () :=
  h ← get_handle i; sm_modify (fun w => put_handles w (<[i := f h]> (w_handles w))).
Definition emit (e : event) : A () := sm_modify (fun w => put_events w (w_events w ++ [e])).
Definition modify_commands (f : AList.t queued -> AList.t queued) : A () :=
  sm_modify (fun w => put_commands w (f (w_commands w))).

(** What a client sees of the state, and what an operation on it leaves. *)
Definition session_of (w : World P N) (h : MQTTAsyncs P) : St P N :=
  mkSt (a_c h) (a_phandle h) (w_pubs w) (w_pending w) (w_net w) (w_msgs_sent w) (w_msgs_received w).
Definition session_back (w : World P N) (i : nat) (h : MQTTAsyncs P) (s : St P N) : World P N :=
  mkWorld (<[i := with_session h (st_client s) (st_phandle s)]> (w_handles w)) (w_commands w) (st_pubs s) (st_pending s) (st_net s)
    (st_msgs_sent s) (st_msgs_received s) (w_next w) (w_taken w) (w_events w) (w_rand w) (w_answers w).
Definition on_session {X} (i : nat) (m : SM (St P N) X) : A X := fun w =>
  match w_handles w !! i with
  | None => Oob
  | Some h => '(x, s) ← m (session_of w h); Ok (x, session_back w i h s)
  end.
Definition clock : A Z := fun w => let '(t, n) := time_now (w_net w) in
  Ok (t, mkWorld (w_handles w) (w_commands w) (w_pubs w) (w_pending w) n (w_msgs_sent w) (w_msgs_received w) (w_next w) (w_taken w) (w_events w) (w_rand w) (w_answers w)).

(** [malloc] and [MQTTAsync_freeCommand] of a structure. *)
Definition new_structure : A Z :=
  w ← sm_get; _ ← sm_modify (fun w => put_next w (w_next w + 1)); mret (w_next w).
Definition MQTTAsync_freeCommand (q : queued) : A () := emit (EvFree (q_id q)).

(** ** Adding commands *)

Definition same_structure (q : queued) (q' : queued) : bool := q_id q' =? q_id q.
Definition is_publish_of (i : nat) (q : queued) : bool := Nat.eqb (q_client q) i && (q_type q =? PUBLISH).

(** [clientCompareConnectCommand] *)
Definition clientCompareConnectCommand (q q' : queued) : bool :=
  Nat.eqb (q_client q') (q_client q) && (q_type q' =? q_type q) && ((q_type q' =? CONNECT) || (q_type q' =? DISCONNECT)).

(** The commands that go to the head of the queue. *)
Definition goes_first (c : MQTTAsync_command) : bool :=
  match c_details c with Dconn _ _ => true | Ddis internal _ _ => internal | _ => false end.

(** The part for those: a duplicate of the head is ignored, one further on is replaced. *)
Definition add_first (q : queued) : A () :=
  w ← sm_get;
  if match AList.items (w_commands w) with
     | head :: _ => Nat.eqb (q_client head) (q_client q) && (q_type head =? q_type q)
     | [] => false
     end
  then MQTTAsync_freeCommand q
  else
    let '(old, l) := AList.unlink (clientCompareConnectCommand q) (w_commands w) in
    _ ← match old with Some q' => MQTTAsync_freeCommand q' | None => mret () end;
    modify_commands (fun _ => AList.insert_before 0 q l).

(** The QoS 0 messages that an option keeps out of the persistence. *)
Definition not_persisted (o : option MQTTAsync_createOptions) (c : MQTTAsync_command) : bool :=
  match c_details c, o with
  | Dpub _ _ _ qos _, Some o => (2 <=? co_struct_version o) && (co_persistQoS0 o =? 0) && (qos =? 0)
  | _, _ => false
  end.

(** A PUBLISH that is stored gives up what it carries. *)
Definition strip (q : queued) (key : option (list Z)) : queued :=
  match c_details (q_command q) with
  | Dpub _ payloadlen _ qos retained =>
      set_restored (set_command q (set_props (set_details (q_command q) (Dpub None payloadlen None qos retained)) MQTTProperties_initializer))
        true key
  | _ => q
  end.

(** The command to be queued, and whether the function goes on. *)
Definition persist_added (q : queued) : A (queued * bool) :=
  h ← get_handle (q_client q);
  if negb (persistence (a_c h)) || not_persisted (a_createOptions (a_settings h)) (q_command q) then mret (q, true)
  else
    '(rc, seqno, q, p) ← sm_lift (MQTTAsync_persistCommand (Clients.MQTTVersion (a_c h)) (a_command_seqno h) q (a_phandle h));
    _ ← modify_handle (q_client q) (fun h => with_seqno (with_session h (a_c h) p) seqno);
    if (q_type q =? PUBLISH) && (rc =? 0) then
      match command_key (Clients.MQTTVersion (a_c h)) (q_cseqno q) with
      | Some key => mret (strip q (Some key), true)
      | None => mret (set_restored q true None, false)
      end
    else mret (q, true).

(** The buffer is full: its oldest message is dropped, and then read. *)
Definition drop_oldest (i : nat) : A () :=
  w ← sm_get;
  match List.find (is_publish_of i) (AList.items (w_commands w)) with
  | None => mret ()
  | Some q =>
      _ ← modify_commands (fun l => snd (AList.unlink (same_structure q) l));
      _ ← MQTTAsync_freeCommand q;
      h ← get_handle i;
      if persistence (a_c h) then sm_oob else mret ()
  end.
Definition buffer_full (h : MQTTAsyncs P) : bool :=
  match a_createOptions (a_settings h) with
  | Some o => co_maxBufferedMessages o <=? a_noBufferedMessages h
  | None => false
  end.
Definition count_publish (i : nat) : A () :=
  h ← get_handle i;
  if buffer_full h then drop_oldest i
  else modify_handle i (fun h => with_buffered h (a_noBufferedMessages h + 1)).

(** [MQTTAsync_addCommand] *)
Definition MQTTAsync_addCommand (q : queued) : A Z :=
  h ← get_handle (q_client q);
  q ← (if negb (q_type q =? CONNECT) || (connect_state (a_c h) =? NOT_IN_PROGRESS)
       then now ← clock; mret (set_command q (set_start (q_command q) now)) else mret q);
  _ ← (if goes_first (q_command q) then add_first q
       else
         '(q, more) ← persist_added q;
         _ ← modify_commands (AList.append q);
         if more && (q_type q =? PUBLISH) then count_publish (q_client q) else mret ());
  mret MQTTASYNC_SUCCESS.

(** ** Taking the next command *)

(** The test of the loop of [MQTTAsync_processCommand]. *)
Definition can_process (q : queued) : A bool :=
  h ← get_handle (q_client q);
  let c := a_c h in
  let outbound := Zlen (AList.items (outboundMsgs c)) in
  let asks := match c_details (q_command q) with Dpub _ _ _ _ _ | Dsub _ _ _ _ | Dunsub _ => true | _ => false end in
  let in_window := match c_details (q_command q) with
                   | Dpub _ _ _ qos _ => 0 <? qos
                   | Dsub _ _ _ _ | Dunsub _ => true
                   | _ => false
                   end in
  ready ← (if (q_type q =? CONNECT) || (q_type q =? DISCONNECT) then mret true
           else if negb (connected c =? 0) && (connect_state c =? NOT_IN_PROGRESS)
           then on_session (q_client q) (call_net (noPendingWrites (net_socket (net c))))
           else mret false);
  mret (ready && negb (asks && (MAX_MSG_ID - 1 <=? outbound)) && negb (in_window && (maxInflightMessages c <=? outbound))).

(** The loop: only the first command of a client is looked at. *)
Fixpoint choose_command (l : list queued) (ignored_clients : list nat) : A (option queued) :=
  match l with
  | [] => mret None
  | cmd :: l =>
      if existsb (Nat.eqb (q_client cmd)) ignored_clients then choose_command l ignored_clients
      else
        ok ← can_process cmd;
        if ok : bool then mret (Some cmd) else choose_command l (ignored_clients ++ [q_client cmd])
  end.

(** The command taken, as it leaves the queue: its record is read when it was not
    restored yet, and removed. *)
Definition restore_taken (q : queued) : A queued :=
  h ← get_handle (q_client q);
  if negb (persistence (a_c h)) then mret q
  else
    q ← (if q_not_restored q then
           match q_key q with
           | None => sm_oob
           | Some key =>
               let '(rc, buffer) := pget key (a_phandle h) in
               let '(rc, buffer) := if rc =? 0 then call_afterRead buffer else (rc, buffer) in
               if rc =? 0 then
                 r ← sm_lift (MQTTAsync_restoreCommand buffer (version_of_key key) (Some q));
                 match r with Some q => mret (set_restored q (q_not_restored q) None) | None => sm_oob end
               else mret q
           end
         else mret q);
    let '(_, p) := MQTTAsync_unpersistCommand (Clients.MQTTVersion (a_c h)) q (a_phandle h) in
    _ ← modify_handle (q_client q) (fun h => with_session h (a_c h) p);
    mret q.

Definition take_command : A (option queued) :=
  w ← sm_get;
  cmd ← choose_command (AList.items (w_commands w)) [];
  match cmd with
  | None => mret None
  | Some q =>
      _ ← (if q_type q =? PUBLISH then modify_handle (q_client q) (fun h => with_buffered h (a_noBufferedMessages h - 1)) else mret ());
      _ ← modify_commands (fun l => snd (AList.unlink (same_structure q) l));
      _ ← sm_modify (fun w => put_taken w (w_taken w ++ [q]));
      q ← restore_taken q;
      mret (Some q)
  end.

(** ** Message identifiers *)

(** [cmdMessageIDCompare] *)
Definition cmdMessageIDCompare (id : Z) (q : queued) : bool := c_token (q_command q) =? id.

(** The three searches, each of which may move the cursor of its list. *)
Record id_lists := mkIdLists {
  in_commands : AList.t queued;
  in_outbound : AList.t Messages;
  in_responses : AList.t queued
}.
Definition id_taken (id : Z) (l : id_lists) : bool * id_lists :=
  let '(r, cmds) := AList.find (cmdMessageIDCompare id) (in_commands l) in
  if bool_decide (is_Some r) then (true, mkIdLists cmds (in_outbound l) (in_responses l))
  else
    let '(r, out) := AList.find (messageIDCompare id) (in_outbound l) in
    if bool_decide (is_Some r) then (true, mkIdLists cmds out (in_responses l))
    else
      let '(r, resp) := AList.find (cmdMessageIDCompare id) (in_responses l) in
      (bool_decide (is_Some r), mkIdLists cmds out resp).

(** The [while] loop; [None] is a loop that does not end. *)
Fixpoint assign_id_loop (fuel : nat) (start_msgid msgid : Z) (l : id_lists) : option (Z * id_lists) :=
  match fuel with
  | O => None
  | S fuel =>
      let '(used, l) := id_taken msgid l in
      if negb used then Some (msgid, l)
      else
        let msgid := next_msgid msgid in
        if msgid =? start_msgid then Some (0, l) else assign_id_loop fuel start_msgid msgid l
  end.

(** [MQTTAsync_assignMsgId]; as many turns as there are identifiers.  [Fail] is a call
    that does not return. *)
Definition MQTTAsync_assignMsgId (i : nat) : A Z :=
  h ← get_handle i;
  w ← sm_get;
  let c := a_c h in
  match assign_id_loop (Z.to_nat MAX_MSG_ID) (msgID c) (next_msgid (msgID c))
          (mkIdLists (w_commands w) (outboundMsgs c) (a_responses h)) with
  | None => sm_fail
  | Some (msgid, l) =>
      _ ← modify_commands (fun _ => in_commands l);
      _ ← modify_handle i (fun h => with_responses (with_client h
            (let c := set_outbound (a_c h) (in_outbound l) in if msgid =? 0 then c else set_msgID c msgid)) (in_responses l));
      mret msgid
  end.

(** ** The interval between attempts to connect *)

(** [MQTTAsync_randomJitter]: the products by 1.2 and 1/1.2, rounded to [double] and cut
    to [int], are those of the fractions 6/5 and 5/6.  The loop draws values until one
    is below the limit; when those of [rand] run out it gives 0.  The result and the
    values left; [None] is a loop that does not end. *)
Section Jitter.
Context (RAND_MAX : Z).
Fixpoint draw (limit : Z) (l : list Z) : option (Z * list Z) :=
  match l with
  | [] => if limit <=? 0 then None else Some (0, [])
  | r :: l => if limit <=? r then draw limit l else Some (r, l)
  end.
Definition MQTTAsync_randomJitter (currentIntervalBase minInterval maxInterval : Z) (l : list Z) : option (Z * list Z) :=
  let max_sleep := Z.quot (Z.min maxInterval currentIntervalBase * 6) 5 in
  let min_sleep := Z.quot (Z.max minInterval currentIntervalBase * 5) 6 in
  if max_sleep <=? min_sleep then Some (min_sleep, l)
  else
    let range := max_sleep - min_sleep + 1 in
    let buckets := RAND_MAX / range in
    let limit := buckets * range in
    '(r, l) ← draw limit l;
    Some (min_sleep + r / buckets, l).

(** The state after [MQTTAsync_startConnectRetry] at a time. *)
Definition next_attempt (r : reconnection) (now : Z) (l : list Z) : option (reconnection * list Z) :=
  let base := if retrying r then Z.min (currentIntervalBase r * 2) (maxRetryInterval r) else minRetryInterval r in
  '(interval, l) ← MQTTAsync_randomJitter base (minRetryInterval r) (maxRetryInterval r) l;
  Some (mkReconnection (automaticReconnect r) (minRetryInterval r) (maxRetryInterval r) interval base now true (reconnectNow r), l).
Definition MQTTAsync_startConnectRetry (i : nat) : A () :=
  h ← get_handle i;
  if automaticReconnect (a_reconnection h) && a_shouldBeConnected h then
    now ← clock;
    w ← sm_get;
    match next_attempt (a_reconnection h) now (w_rand w) with
    | None => sm_fail
    | Some (r, l) => _ ← modify_handle i (fun h => with_reconnection h r); sm_modify (fun w => put_rand w l)
    end
  else mret ().
End Jitter.

(** [MQTTAsync_checkConn] *)
Definition MQTTAsync_checkConn (command : MQTTAsync_command) (h : MQTTAsyncs P) : bool :=
  match c_details command with
  | Dconn uri version =>
      (uri + 1 <? Zlen (a_serverURIs (a_settings h))) || ((version =? 4) && (Clients.MQTTVersion (a_c h) =? MQTTVERSION_DEFAULT))
  | _ => false
  end.

(** ** The API *)

(** [MQTTAsync_responseOptions]: of the callbacks, whether they are set. *)
Record MQTTAsync_responseOptions := mkResponse {
  ro_struct_version : Z;
  ro_onSuccess : bool;
  ro_onFailure : bool;
  ro_properties : MQTTProperties;
  ro_onSuccess5 : bool;
  ro_onFailure5 : bool;
  ro_subscribeOptions : sub_struct;
  ro_subscribeOptionsCount : Z;
  ro_subscribeOptionsList : list sub_struct
}.

(** The tests of the options of a call. *)
Definition check_response (c : Clients) (response : option MQTTAsync_responseOptions) : Z :=
  match response with
  | None => MQTTASYNC_SUCCESS
  | Some r =>
      if MQTTVERSION_5 <=? Clients.MQTTVersion c then
        if (ro_struct_version r =? 0) || ro_onFailure r || ro_onSuccess r then MQTTASYNC_BAD_MQTT_OPTION else MQTTASYNC_SUCCESS
      else
        if (1 <=? ro_struct_version r) && (ro_onFailure5 r || ro_onSuccess5 r) then MQTTASYNC_BAD_MQTT_OPTION else MQTTASYNC_SUCCESS
  end.

(** A new command with the callbacks and properties of the options. *)
Definition new_command (i : nat) (c : Clients) (token : Z) (response : option MQTTAsync_responseOptions) (d : details) : A queued :=
  id ← new_structure;
  match response with
  | None => mret (mkQueued (set_token (zero_command d) token) i 0 false None id)
  | Some r =>
      props ← (if MQTTVERSION_5 <=? Clients.MQTTVersion c then sm_lift (MQTTProperties_copy (ro_properties r)) else mret MQTTProperties_initializer);
      mret (mkQueued (mkCommand (ro_onSuccess r) (ro_onFailure r) (ro_onSuccess5 r) (ro_onFailure5 r) token 0 props d) i 0 false None id)
  end.

(** The tests of [MQTTAsync_send]: its error, or the identifier. *)
Definition send_allowed (h : MQTTAsyncs P) : bool :=
  if negb (connected (a_c h) =? 0) then true
  else match a_createOptions (a_settings h) with
       | None => false
       | Some o => negb (co_sendWhileDisconnected o =? 0) &&
                   (a_shouldBeConnected h || ((2 <=? co_struct_version o) && negb (co_allowDisconnectedSendAtAnyTime o =? 0)))
       end.
Definition refuses_new (h : MQTTAsyncs P) : bool :=
  match a_createOptions (a_settings h) with
  | None => false
  | Some o => ((co_struct_version o <? 2) || (co_deleteOldestMessages o =? 0)) && (co_maxBufferedMessages o <=? a_noBufferedMessages h)
  end.
Definition send_tests (i : nat) (destinationName : list Z) (qos : Z) (response : option MQTTAsync_responseOptions) : A (Z * Z) :=
  h ← get_handle i;
  if negb (send_allowed h) then mret (MQTTASYNC_DISCONNECTED, 0)
  else if negb (UTF8_validateString (Some destinationName)) then mret (MQTTASYNC_BAD_UTF8_STRING, 0)
  else if (qos <? 0) || (2 <? qos) then mret (MQTTASYNC_BAD_QOS, 0)
  else
    msgid ← (if 0 <? qos then MQTTAsync_assignMsgId i else mret 0);
    if (0 <? qos) && (msgid =? 0) then mret (MQTTASYNC_NO_MORE_MSGIDS, 0)
    else if refuses_new h then mret (MQTTASYNC_MAX_BUFFERED_MESSAGES, 0)
    else mret (check_response (a_c h) response, msgid).

(** [MQTTAsync_send]: the code and the token of the command. *)
Definition MQTTAsync_send (i : nat) (destinationName payload : list Z) (qos retained : Z) (response : option MQTTAsync_responseOptions) : A (Z * Z) :=
  '(rc, msgid) ← send_tests i destinationName qos response;
  if negb (rc =? MQTTASYNC_SUCCESS) then mret (rc, 0)
  else
    h ← get_handle i;
    q ← new_command i (a_c h) msgid response (Dpub (Some (cstr destinationName)) (Zlen payload) (Some payload) qos retained);
    rc ← MQTTAsync_addCommand q;
    mret (rc, msgid).

(** The first error among the topics, and the QoS when there are some. *)
Fixpoint check_topics (topics : list (list Z)) (qoss : option (list Z)) : Z :=
  match topics with
  | [] => MQTTASYNC_SUCCESS
  | t :: topics =>
      if negb (UTF8_validateString (Some t)) then MQTTASYNC_BAD_UTF8_STRING
      else match qoss with
           | Some (q :: qoss) => if (q <? 0) || (2 <? q) then MQTTASYNC_BAD_QOS else check_topics topics (Some qoss)
           | _ => check_topics topics None
           end
  end.

(** The tests the two calls share; [extra] is the error of the subscribe options. *)
Definition subscription_tests (i : nat) (topics : list (list Z)) (qoss : option (list Z)) (extra : MQTTAsyncs P -> res bool)
    (response : option MQTTAsync_responseOptions) : A (Z * Z) :=
  h ← get_handle i;
  let rc := if connected (a_c h) =? 0 then MQTTASYNC_DISCONNECTED else check_topics topics qoss in
  if negb (rc =? MQTTASYNC_SUCCESS) then mret (rc, 0)
  else
    msgid ← MQTTAsync_assignMsgId i;
    if msgid =? 0 then mret (MQTTASYNC_NO_MORE_MSGIDS, 0)
    else
      bad ← sm_lift (extra h);
      if bad : bool then mret (MQTTASYNC_BAD_MQTT_OPTION, 0) else mret (check_response (a_c h) response, msgid).

(** The options of a subscription: one, or a list as long as the topics, which is read
    from a null pointer without a response. *)
Definition option_mismatch (count : Z) (response : option MQTTAsync_responseOptions) (h : MQTTAsyncs P) : res bool :=
  if (MQTTVERSION_5 <=? Clients.MQTTVersion (a_c h)) && (1 <? count) then
    match response with
    | None => Oob
    | Some r => Ok (negb (count =? ro_subscribeOptionsCount r) && negb (ro_subscribeOptionsCount r =? 0))
    end
  else Ok false.
Definition initialized_options : sub_struct := mkSubStruct [77; 81; 83; 79] 0 (mkSubOpts 0 0 0) 0.
Definition option_list_of (count : nat) (r : MQTTAsync_responseOptions) : res (list sub_struct) :=
  if ro_subscribeOptionsCount r =? 0 then Ok (replicate count initialized_options)
  else if Nat.ltb (List.length (ro_subscribeOptionsList r)) count then Oob else Ok (take count (ro_subscribeOptionsList r)).

(** [MQTTAsync_subscribeMany]: [count] topics, each with its QoS. *)
Definition MQTTAsync_subscribeMany (i : nat) (topics : list (list Z)) (qoss : list Z) (response : option MQTTAsync_responseOptions) : A (Z * Z) :=
  '(rc, msgid) ← subscription_tests i topics (Some qoss) (option_mismatch (Zlen topics) response) response;
  if negb (rc =? MQTTASYNC_SUCCESS) then mret (rc, 0)
  else
    h ← get_handle i;
    '(opts, optlist) ←
      match response with
      | Some r =>
          if MQTTVERSION_5 <=? Clients.MQTTVersion (a_c h) then
            l ← (if 1 <? Zlen topics then sm_lift (option_list_of (List.length topics) r) else mret []);
            mret (ro_subscribeOptions r, l)
          else mret (no_options, [])
      | None => mret (no_options, [])
      end;
    q ← new_command i (a_c h) msgid response (Dsub (map cstr topics) qoss opts optlist);
    rc ← MQTTAsync_addCommand q;
    mret (rc, msgid).

(** [MQTTAsync_unsubscribeMany] *)
Definition MQTTAsync_unsubscribeMany (i : nat) (topics : list (list Z)) (response : option MQTTAsync_responseOptions) : A (Z * Z) :=
  '(rc, msgid) ← subscription_tests i topics None (fun _ => Ok false) response;
  if negb (rc =? MQTTASYNC_SUCCESS) then mret (rc, 0)
  else
    h ← get_handle i;
    q ← new_command i (a_c h) msgid response (Dunsub (map cstr topics));
    rc ← MQTTAsync_addCommand q;
    mret (rc, msgid).

(** [MQTTAsync_disconnectOptions] *)
Record MQTTAsync_disconnectOptions := mkDisconnect {
  do_struct_version : Z;
  do_timeout : Z;
  do_onSuccess : bool;
  do_onFailure : bool;
  do_properties : MQTTProperties;
  do_reasonCode : Z;
  do_onSuccess5 : bool;
  do_onFailure5 : bool
}.

(** [MQTTAsync_disconnect1] *)
Definition MQTTAsync_disconnect1 (i : nat) (options : option MQTTAsync_disconnectOptions) (internal : bool) : A Z :=
  _ ← (if internal then mret () else modify_handle i (fun h => with_should h false));
  h ← get_handle i;
  if connected (a_c h) =? 0 then mret MQTTASYNC_DISCONNECTED
  else
    id ← new_structure;
    cmd ← match options with
          | None => mret (zero_command (Ddis internal 0 0))
          | Some o =>
              if (MQTTVERSION_5 <=? Clients.MQTTVersion (a_c h)) && (1 <=? do_struct_version o) then
                props ← sm_lift (MQTTProperties_copy (do_properties o));
                mret (mkCommand (do_onSuccess o) (do_onFailure o) (do_onSuccess5 o) (do_onFailure5 o) 0 0 props
                        (Ddis internal (do_timeout o) (do_reasonCode o)))
              else mret (mkCommand (do_onSuccess o) (do_onFailure o) (do_onSuccess5 o) (do_onFailure5 o) 0 0 MQTTProperties_initializer
                           (Ddis internal (do_timeout o) 0))
          end;
    MQTTAsync_addCommand (mkQueued cmd i 0 false None id).

(** [MQTTAsync_disconnect_internal], and [MQTTAsync_disconnect] with options that are
    initialised. *)
Definition initialized_disconnect (timeout : Z) : MQTTAsync_disconnectOptions :=
  mkDisconnect 0 timeout false false MQTTProperties_initializer 0 false false.
Definition MQTTAsync_disconnect_internal (i : nat) (timeout : Z) : A Z :=
  MQTTAsync_disconnect1 i (Some (initialized_disconnect timeout)) true.
Definition MQTTAsync_disconnect (i : nat) (options : option MQTTAsync_disconnectOptions) : A Z :=
  match options with
  | Some o => if (do_struct_version o <? 0) || (1 <? do_struct_version o) then mret (-8) else MQTTAsync_disconnect1 i options false
  | None => MQTTAsync_disconnect1 i options false
  end.

(** A CONNECT like the last one, whose attempts of versions start again. *)
Definition restart_version (c : Clients) (cmd : MQTTAsync_command) : MQTTAsync_command :=
  if Clients.MQTTVersion c =? MQTTVERSION_DEFAULT then
    match c_details cmd with Dconn uri _ => set_details cmd (Dconn uri 0) | _ => cmd end
  else cmd.
Definition add_connect (i : nat) (cmd : MQTTAsync_command) : A Z :=
  id ← new_structure; MQTTAsync_addCommand (mkQueued cmd i 0 false None id).

(** [MQTTAsync_reconnect] *)
Definition MQTTAsync_reconnect (i : nat) : A Z :=
  h ← get_handle i;
  let r := a_reconnection h in
  if automaticReconnect r then
    if a_shouldBeConnected h then
      _ ← modify_handle i (fun h => with_reconnection h
            (if retrying r then mkReconnection true (minRetryInterval r) (maxRetryInterval r) (currentInterval r) (currentIntervalBase r)
                                  (lastConnectionFailedTime r) true true
             else mkReconnection true (minRetryInterval r) (maxRetryInterval r) (minRetryInterval r) (minRetryInterval r)
                    (lastConnectionFailedTime r) true true));
      mret MQTTASYNC_SUCCESS
    else mret MQTTASYNC_FAILURE
  else add_connect i (restart_version (a_c h) (a_connect h)).

(** [MQTTAsync_isComplete] and [MQTTAsync_getPendingTokens], with the end mark. *)
Definition pending_tokens (i : nat) (w : World P N) (h : MQTTAsyncs P) : list Z :=
  map (fun q => c_token (q_command q)) (List.filter (fun q => Nat.eqb (q_client q) i) (AList.items (w_commands w)))
  ++ map m_msgid (AList.items (outboundMsgs (a_c h))).
Definition MQTTAsync_isComplete (i : nat) (dt : Z) : A bool :=
  w ← sm_get; h ← get_handle i; mret (negb (existsb (Z.eqb dt) (pending_tokens i w h))).
Definition MQTTAsync_getPendingTokens (i : nat) : A (option (list Z)) :=
  w ← sm_get; h ← get_handle i;
  mret match pending_tokens i w h with [] => None | l => Some (l ++ [-1]) end.

(** ** Freeing *)

(** What the failure callbacks of a command are told. *)
Definition fail_command (code : Z) (q : queued) : A () :=
  if c_onFailure (q_command q) || c_onFailure5 (q_command q)
  then emit (EvFailure (q_client q) (q_id q) (c_token (q_command q)) code) else mret ().

Fixpoint fail_all (l : list queued) : A () :=
  match l with
  | [] => mret ()
  | q :: l => _ ← fail_command MQTTASYNC_OPERATION_INCOMPLETE q; _ ← MQTTAsync_freeCommand q; fail_all l
  end.

(** [MQTTAsync_freeResponses] *)
Definition MQTTAsync_freeResponses (i : nat) : A () :=
  h ← get_handle i;
  _ ← fail_all (AList.items (a_responses h));
  modify_handle i (fun h => with_responses h AList.empty).

(** [MQTTAsync_freeCommands] *)
Fixpoint free_commands (i : nat) (l : list queued) : A () :=
  match l with
  | [] => mret ()
  | q :: l =>
      if Nat.eqb (q_client q) i then
        _ ← modify_commands (fun l => snd (AList.unlink (same_structure q) l));
        _ ← fail_command MQTTASYNC_OPERATION_INCOMPLETE q;
        _ ← MQTTAsync_freeCommand q;
        free_commands i l
      else free_commands i l
  end.
Definition MQTTAsync_freeCommands (i : nat) : A () :=
  w ← sm_get; free_commands i (AList.items (w_commands w)).

End Async.

(** ** Identifiers *)

(** The lists after the searches: only cursors move. *)
Definition same_items (l l' : id_lists) : Prop :=
  AList.items (in_commands l') = AList.items (in_commands l) /\ AList.items (in_outbound l') = AList.items (in_outbound l) /\
  AList.items (in_responses l') = AList.items (in_responses l).
Definition tokens (l : AList.t MQTTAsync_queuedCommand) : list Z := map (fun q => c_token (q_command q)) (AList.items l).
Definition id_in_use (l : id_lists) (id : Z) : Prop :=
  In id (tokens (in_commands l)) \/ in_use (in_outbound l) id \/ In id (tokens (in_responses l)).

Lemma same_items_in_use l l' id : same_items l l' -> id_in_use l' id <-> id_in_use l id.
Proof. intros (H1 & H2 & H3). unfold id_in_use, tokens, in_use. by rewrite H1, H2, H3. Qed.

Lemma find_token id l :
  match AList.find (cmdMessageIDCompare id) l with
  | (Some _, l') => In id (tokens l) /\ AList.items l' = AList.items l
  | (None, l') => ~ In id (tokens l) /\ l' = l
  end.
Proof.
  pose proof (AList.find_spec (cmdMessageIDCompare id) l) as H. destruct (AList.find _ l) as [[i|] l'].
  - destruct H as [Hh ->]. split; [|done]. apply AList.holds_lookup in Hh as (q & Hq & E%Z.eqb_eq). rewrite <- E.
    apply (in_map (fun q => c_token (q_command q))), list_elem_of_In, list_elem_of_lookup. by exists i.
  - destruct H as [H ->]. split; [|done]. intros Hin. apply in_map_iff in Hin as (q & E & Hin).
    apply list_elem_of_In, list_elem_of_lookup in Hin as [i Hi]. specialize (H i). unfold AList.holds in H. rewrite Hi in H.
    unfold cmdMessageIDCompare in H. by apply Z.eqb_neq in H.
Qed.

Lemma id_taken_spec id l : let '(b, l') := id_taken id l in (b = true <-> id_in_use l id) /\ same_items l l'.
Proof.
  unfold id_taken, id_in_use, same_items. pose proof (find_token id (in_commands l)) as H1.
  destruct (AList.find _ (in_commands l)) as [[i|] c]; [rewrite bool_decide_eq_true_2 by done; cbn; tauto|].
  rewrite bool_decide_eq_false_2 by (by intros [? ?]). pose proof (find_id_spec id (in_outbound l)) as H2.
  destruct (AList.find _ (in_outbound l)) as [[j|] o].
  { destruct H2 as (H2 & _ & ->). rewrite bool_decide_eq_true_2 by done. destruct H1 as [? ->]. cbn. tauto. }
  rewrite bool_decide_eq_false_2 by (by intros [? ?]). pose proof (find_token id (in_responses l)) as H3.
  destruct H1 as [H1 ->], H2 as [H2 ->]. destruct (AList.find _ (in_responses l)) as [[k|] r].
  - rewrite bool_decide_eq_true_2 by done. cbn. tauto.
  - rewrite bool_decide_eq_false_2 by (by intros [? ?]). destruct H3 as [H3 ->]. split; [|cbn; tauto]. split; [done|tauto].
Qed.

Lemma same_items_trans l l' l'' : same_items l l' -> same_items l' l'' -> same_items l l''.
Proof. unfold same_items. intuition congruence. Qed.

Lemma assign_same fuel start msgid l id l' : assign_id_loop fuel start msgid l = Some (id, l') -> same_items l l'.
Proof.
  revert msgid l. induction fuel as [|fuel IH]; intros msgid l; cbn [assign_id_loop]; [done|].
  pose proof (id_taken_spec msgid l) as H. destruct (id_taken msgid l) as [b l1]. destruct H as [_ H]. destruct b; cbn [negb]; [|by intros [= <- <-]].
  destruct (_ =? _); [by intros [= <- <-]|]. intros E. eapply same_items_trans; [exact H|by eapply IH].
Qed.

(** What the loop does from turn [k], all earlier identifiers being in use. *)
Lemma assign_id_loop_spec fuel start k l :
  0 <= start <= MAX_MSG_ID -> Z.of_nat fuel = MAX_MSG_ID - k -> 0 <= k -> (1 <= start -> k < MAX_MSG_ID - 1) ->
  (forall j, 0 <= j < k -> id_in_use l (candidate start j)) ->
  match assign_id_loop fuel start (candidate start k) l with
  | Some (id, l') => same_items l l' /\
      ((exists j, 0 <= j < MAX_MSG_ID /\ id = candidate start j /\ id <> start /\ ~ id_in_use l id /\
                  forall i, 0 <= i < j -> id_in_use l (candidate start i)) \/
       (id = 0 /\ 1 <= start /\ forall i, 1 <= i <= MAX_MSG_ID -> i <> start -> id_in_use l i))
  | None => start = 0 /\ forall i, 1 <= i <= MAX_MSG_ID -> id_in_use l i
  end.
Proof.
  revert k l. induction fuel as [|fuel IH]; intros k l Hs Hf Hk Hlast Hused; cbn [assign_id_loop].
  { assert (k = MAX_MSG_ID) by lia. split; [unfold MAX_MSG_ID in *; lia|]. intros i Hi.
    destruct (candidate_surj start i Hs Hi) as (j & Hj & <-). apply Hused. lia. }
  pose proof (id_taken_spec (candidate start k) l) as H. destruct (id_taken (candidate start k) l) as [b l'].
  destruct H as [Hb Hsame]. destruct b; cbn [negb].
  - assert (forall j, 0 <= j < k + 1 -> id_in_use l (candidate start j)) as Hused'.
    { intros j Hj. destruct (Z.eq_dec j k) as [->|]; [by apply Hb|]. apply Hused. lia. }
    rewrite candidate_next. destruct (Z.eqb_spec (candidate start (k + 1)) start) as [E|E].
    + split; [done|]. right. pose proof (candidate_range start (k + 1)) as Hr. rewrite E in Hr. split; [done|]. split; [lia|].
      intros id Hid Hne. destruct (candidate_surj start id Hs Hid) as (j & Hj & <-). apply Hused'.
      assert (j <> MAX_MSG_ID - 1) by (intros ->; apply Hne; apply candidate_start; lia).
      specialize (Hlast ltac:(lia)). apply candidate_start in E; lia.
    + specialize (IH (k + 1) l' Hs ltac:(lia) ltac:(lia)).
      assert (1 <= start -> k + 1 < MAX_MSG_ID - 1) as Hlast'.
      { intros H1. assert (k + 1 <> MAX_MSG_ID - 1) by (intros Hk1; apply E, candidate_start; lia). specialize (Hlast H1). lia. }
      specialize (IH Hlast' ltac:(intros j Hj; apply (same_items_in_use _ _ _ Hsame); by apply Hused')).
      destruct (assign_id_loop fuel start (candidate start (k + 1)) l') as [[id l2]|].
      * destruct IH as (Hs2 & IH). split; [by eapply same_items_trans|]. destruct IH as [(j & H1 & H2 & H3 & H4 & H5)|(H1 & H2 & H3)].
        -- left. exists j. split; [done|]. split; [done|]. split; [done|]. split; [by rewrite <- (same_items_in_use _ _ _ Hsame)|].
           intros i Hi. apply (same_items_in_use _ _ _ Hsame). by apply H5.
        -- right. split; [done|]. split; [done|]. intros i Hi Hne. apply (same_items_in_use _ _ _ Hsame). by apply H3.
      * destruct IH as [H1 H2]. split; [done|]. intros i Hi. apply (same_items_in_use _ _ _ Hsame). by apply H2.
  - split; [done|]. left. assert (~ id_in_use l (candidate start k)) as Hnot by (intros H; by apply Hb in H).
    exists k. unfold MAX_MSG_ID in *. split; [lia|]. split; [done|]. split; [|done].
    intros E. pose proof (candidate_range start k). specialize (Hlast ltac:(lia)). apply candidate_start in E; unfold MAX_MSG_ID in *; lia.
Qed.

(** ** Reconnection *)

Lemma draw_range limit RAND_MAX l : 0 < limit -> Forall (fun r => 0 <= r <= RAND_MAX) l ->
  exists r l', draw limit l = Some (r, l') /\ 0 <= r < limit /\ Forall (fun r => 0 <= r <= RAND_MAX) l'.
Proof.
  intros Hl. induction 1 as [|r l Hr Hf IH]; cbn [draw].
  - destruct (Z.leb_spec limit 0); [lia|]. exists 0, []. by repeat split; try lia.
  - destruct (Z.leb_spec limit r); [done|]. exists r, l. by repeat split; try lia.
Qed.

Lemma draw_never l limit : limit <= 0 -> Forall (fun r => 0 <= r) l -> draw limit l = None.
Proof.
  intros Hl. induction 1 as [|r l Hr _ IH]; cbn [draw].
  - by destruct (Z.leb_spec limit 0); [|lia].
  - by destruct (Z.leb_spec limit r); [|lia].
Qed.

Lemma scale_up b : 0 <= b -> Z.quot (b * 6) 5 = 6 * b / 5.
Proof. intros Hb. rewrite Z.quot_div_nonneg by lia. f_equal. lia. Qed.
Lemma scale_down b : 0 <= b -> Z.quot (b * 5) 6 = 5 * b / 6.
Proof. intros Hb. rewrite Z.quot_div_nonneg by lia. f_equal. lia. Qed.

(** The jitter, for a base between the bounds: within 5/6 and 6/5 of the base; the loop
    ends unless there are more intervals to choose from than values of [rand]. *)
Lemma randomJitter_spec RAND_MAX base lo hi l :
  0 < lo <= base -> base <= hi -> 0 < RAND_MAX -> Forall (fun r => 0 <= r <= RAND_MAX) l ->
  if 6 * base / 5 - 5 * base / 6 + 1 <=? RAND_MAX then
    exists r l', MQTTAsync_randomJitter RAND_MAX base lo hi l = Some (r, l') /\ 5 * base / 6 <= r <= 6 * base / 5 /\
      Forall (fun r => 0 <= r <= RAND_MAX) l'
  else MQTTAsync_randomJitter RAND_MAX base lo hi l = None.
Proof.
  intros Hlo Hhi HR Hl. unfold MQTTAsync_randomJitter. rewrite Z.min_r, Z.max_r, scale_up, scale_down by lia.
  assert (5 * base / 6 < 6 * base / 5) as Hlt by dlia. destruct (Z.leb_spec (6 * base / 5) (5 * base / 6)); [lia|].
  set (range := 6 * base / 5 - 5 * base / 6 + 1). assert (0 < range) as Hr by (unfold range; lia). set (buckets := RAND_MAX / range).
  destruct (Z.leb_spec range RAND_MAX) as [H0|H0].
  - assert (0 < buckets) as Hb by (by apply Z.div_str_pos). destruct (draw_range (buckets * range) RAND_MAX l) as (r & l' & -> & Hd & Hf); [nia|done|].
    exists (5 * base / 6 + r / buckets), l'. split; [done|]. split; [|done].
    assert (0 <= r / buckets < range) as Hq by (split; [apply Z.div_pos; lia|apply Z.div_lt_upper_bound; lia]). unfold range in Hq. lia.
  - assert (buckets = 0) as -> by (apply Z.div_small; lia). rewrite draw_never; [done|lia|].
    eapply Forall_impl; [exact Hl|]. cbn. lia.
Qed.

(** Failures at successive times. *)
Fixpoint attempts (RAND_MAX : Z) (times : list Z) (r : reconnection) (l : list Z) : option (reconnection * list Z) :=
  match times with
  | [] => Some (r, l)
  | t :: times => '(r, l) ← next_attempt RAND_MAX r t l; attempts RAND_MAX times r l
  end.

(** The bounds on the intervals, and a [rand] with enough values for the widest one. *)
Record intervals_ok (RAND_MAX : Z) (r : reconnection) : Prop := {
  io_min : 0 < minRetryInterval r;
  io_max : minRetryInterval r <= maxRetryInterval r;
  io_rand : 6 * maxRetryInterval r / 5 + 1 <= RAND_MAX
}.

Lemma next_attempt_spec RAND_MAX r t l base :
  intervals_ok RAND_MAX r -> Forall (fun x => 0 <= x <= RAND_MAX) l ->
  base = (if retrying r then Z.min (currentIntervalBase r * 2) (maxRetryInterval r) else minRetryInterval r) ->
  minRetryInterval r <= base <= maxRetryInterval r ->
  exists r' l', next_attempt RAND_MAX r t l = Some (r', l') /\ Forall (fun x => 0 <= x <= RAND_MAX) l' /\ intervals_ok RAND_MAX r' /\
    retrying r' = true /\ lastConnectionFailedTime r' = t /\ currentIntervalBase r' = base /\
    minRetryInterval r' = minRetryInterval r /\ maxRetryInterval r' = maxRetryInterval r /\
    5 * base / 6 <= currentInterval r' <= 6 * base / 5.
Proof.
  intros [H1 H2 H3] Hl Hb Hr. unfold next_attempt. rewrite <- Hb.
  pose proof (randomJitter_spec RAND_MAX base (minRetryInterval r) (maxRetryInterval r) l ltac:(lia) ltac:(lia)) as H.
  assert (6 * base / 5 <= 6 * maxRetryInterval r / 5) by (apply Z.div_le_mono; lia). assert (0 <= 5 * base / 6) by (apply Z.div_pos; lia).
  specialize (H ltac:(dlia) Hl). destruct (Z.leb_spec (6 * base / 5 - 5 * base / 6 + 1) RAND_MAX); [|lia].
  destruct H as (x & l' & -> & Hx & Hf). cbn [mbind option_bind].
  eexists _, l'. split; [done|]. split; [done|]. split; [by split|].
  do 5 (split; [done|]). exact Hx.
Qed.

Lemma attempts_last RAND_MAX times t r l :
  attempts RAND_MAX (times ++ [t]) r l = ('(r, l) ← attempts RAND_MAX times r l; next_attempt RAND_MAX r t l).
Proof.
  revert r l. induction times as [|x times IH]; intros r l; cbn [app attempts].
  - cbn [mbind option_bind]. by destruct (next_attempt RAND_MAX r t l) as [[? ?]|].
  - destruct (next_attempt RAND_MAX r x l) as [[r1 l1]|]; cbn [mbind option_bind]; [apply IH|done].
Qed.

(** Reconnection backs off.  After [n + 1] attempts that failed, the base of the
    interval is the minimum doubled [n] times, or the maximum if that is less; the
    interval to wait is chosen between 5/6 and 6/5 of it, from the time of the last
    failure.  Choosing it ends: [rand] has more values than the widest interval. *)
Theorem retry_backoff (RAND_MAX : Z) (r : reconnection) (l times : list Z) (t : Z) :
  intervals_ok RAND_MAX r -> retrying r = false -> Forall (fun x => 0 <= x <= RAND_MAX) l ->
  exists r' l', attempts RAND_MAX (times ++ [t]) r l = Some (r', l') /\ retrying r' = true /\ lastConnectionFailedTime r' = t /\
    currentIntervalBase r' = Z.min (minRetryInterval r * 2 ^ Z.of_nat (List.length times)) (maxRetryInterval r) /\
    5 * currentIntervalBase r' / 6 <= currentInterval r' <= 6 * currentIntervalBase r' / 5 /\
    minRetryInterval r' = minRetryInterval r /\ maxRetryInterval r' = maxRetryInterval r /\ intervals_ok RAND_MAX r' /\
    Forall (fun x => 0 <= x <= RAND_MAX) l'.
Proof.
  intros Hok Hr Hl. pose proof Hok as [H1 H2 _]. revert t. induction times as [|t' times IH] using rev_ind; intros t.
  - rewrite attempts_last. cbn [attempts mbind option_bind].
    destruct (next_attempt_spec RAND_MAX r t l (minRetryInterval r) Hok Hl) as (r' & l' & -> & E1 & E2 & E3 & E4 & E5 & E6 & E7 & E8); [by rewrite Hr|lia|].
    exists r', l'. rewrite E5. cbn [List.length]. rewrite Z.mul_1_r, Z.min_l by lia. done.
  - rewrite attempts_last. destruct (IH t') as (r1 & l1 & -> & Hr1 & _ & Hb1 & _ & Hmin & Hmax & Hok1 & Hl1). cbn [mbind option_bind].
    assert (0 < 2 ^ Z.of_nat (List.length times)) by (apply Z.pow_pos_nonneg; lia).
    set (base := Z.min (currentIntervalBase r1 * 2) (maxRetryInterval r1)).
    destruct (next_attempt_spec RAND_MAX r1 t l1 base Hok1 Hl1) as (r' & l' & -> & E1 & E2 & E3 & E4 & E5 & E6 & E7 & E8);
      [by rewrite Hr1|unfold base; rewrite Hb1, Hmin, Hmax; nia|].
    exists r', l'. rewrite E5, E6, E7. repeat (split; [done|]). split; [|by rewrite Hmin, Hmax].
    unfold base. rewrite Hb1, Hmax. rewrite length_app. cbn [List.length]. rewrite Nat.add_1_r, Nat2Z.inj_succ, Z.pow_succ_r by lia. nia.
Qed.

Definition sample_reconnection : reconnection := mkReconnection true 1 60 0 0 0 false false.

Lemma retry_backoff_witness :
  (intervals_ok 32767 sample_reconnection /\ retrying sample_reconnection = false /\ Forall (fun x => 0 <= x <= 32767) [32767; 5; 20000]) /\
  exists r' l', attempts 32767 ([10; 20; 30] ++ [40]) sample_reconnection [32767; 5; 20000] = Some (r', l') /\ retrying r' = true /\ lastConnectionFailedTime r' = 40 /\
    currentIntervalBase r' = Z.min (minRetryInterval sample_reconnection * 2 ^ Z.of_nat (List.length [10; 20; 30])) (maxRetryInterval sample_reconnection) /\
    5 * currentIntervalBase r' / 6 <= currentInterval r' <= 6 * currentIntervalBase r' / 5 /\
    minRetryInterval r' = minRetryInterval sample_reconnection /\ maxRetryInterval r' = maxRetryInterval sample_reconnection /\ intervals_ok 32767 r' /\
    Forall (fun x => 0 <= x <= 32767) l'.
Proof.
  assert (intervals_ok 32767 sample_reconnection) as H1 by (split; vm_compute; first [reflexivity|discriminate]).
  assert (Forall (fun x => 0 <= x <= 32767) [32767; 5; 20000]) as H2
    by (repeat (apply List.Forall_cons || apply List.Forall_nil); vm_compute; split; discriminate).
  split; [split; [exact H1|split; [reflexivity|exact H2]]|].
  apply (retry_backoff 32767 sample_reconnection [32767; 5; 20000] [10; 20; 30] 40 H1 eq_refl H2).
Defined.

End AsyncQueue.
