(* ===== verification/AsyncClient.v ===== *)
(** * The asynchronous client ([src/src/MQTTAsyncUtils.c])

    What the two threads do: [MQTTAsync_processCommand], which carries out the next
    command, the end of writes, the packets that answer commands, time-outs and
    reconnection, and the end of a connection or a session. *)

From S2P Require Import Prelude.
From S2P Require Import Utf8.
From S2P Require Import Wire.
From S2P Require Import Properties.
From S2P Require Import LinkedList.
From S2P Require Import Clients.
From S2P Require Import Packet.
From S2P Require Import State.
From S2P Require Import Store.
From S2P Require Import Persistence.
From S2P Require Import PacketIO.
From S2P Require Import Protocol.
From S2P Require Import Session.
From S2P Require Import Outgoing.
From S2P Require Import AsyncCommands.
From S2P Require Import AsyncQueue.
From Stdlib Require Import ZArith Lia List Ascii String.
From stdpp Require Import base numbers list gmap.

Open Scope Z_scope.

Module AsyncClient.
Import Utf8 Wire Properties Clients Packet State Store Persistence PacketIO Protocol Session Outgoing AsyncCommands AsyncQueue.

Definition MQTTREASONCODE_UNSPECIFIED_ERROR : Z := 128.
Definition MQTT_BAD_SUBSCRIBE : Z := 128.

Section Client.
Context {P N : Type} {PO : PersistenceOps P} {NT : Transport N} {NC : Connector N}.
Abbreviation A := (SM (World P N)).
Abbreviation queued := MQTTAsync_queuedCommand.
(** The largest value of [rand], the proxies of the clients, and the four bytes that
    [malloc] leaves in the mask of a new [Publish]. *)
Context (RAND_MAX : Z) (px : proxies) (stale_mask : list Z).

(** ** The end of a session *)

(** [MQTTAsync_closeOnly] *)
Definition MQTTAsync_closeOnly (reason : Z) (props : option MQTTProperties) : SM (St P N) () :=
  _ ← modify_client (fun c => set_flags c (connected c) 0 0);
  s ← sm_get;
  _ ← (if 0 <? the_socket s then
         _ ← MQTTProtocol_checkPendingWrites;
         s ← sm_get;
         ready ← (if negb (connected (st_client s) =? 0) then call_net (noPendingWrites (the_socket s)) else mret false);
         _ ← (if ready : bool then MQTTPacket_send_disconnect reason props else mret 0);
         close_socket
       else mret ());
  modify_client (fun c => set_connect_state (set_flags c 0 (good c) (ping_outstanding c)) NOT_IN_PROGRESS).

(** [MQTTAsync_cleanSession] *)
Definition clean_messages : SM (St P N) Z :=
  s ← sm_get;
  rc ← call_persistence (MQTTAsync_unpersistInflightMessages (st_client s));
  l ← MQTTProtocol_emptyMessageList (inboundMsgs (st_client s));
  _ ← modify_client (fun c => set_inbound c l);
  l ← MQTTProtocol_emptyMessageList (outboundMsgs (st_client s));
  _ ← modify_client (fun c => set_outbound c l);
  _ ← modify_client (fun c => set_msgID c 0);
  mret rc.
Definition MQTTAsync_cleanSession (i : nat) : A Z :=
  rc ← on_session i clean_messages;
  _ ← MQTTAsync_freeResponses i;
  mret rc.

(** [MQTTAsync_closeSession] *)
Definition MQTTAsync_closeSession (i : nat) (reason : Z) (props : option MQTTProperties) : A () :=
  _ ← on_session i (MQTTAsync_closeOnly reason props);
  h ← get_handle i;
  let c := a_c h in
  if negb (cleansession c =? 0) || ((MQTTVERSION_5 <=? Clients.MQTTVersion c) && (sessionExpiry c =? 0))
  then _ ← MQTTAsync_cleanSession i; mret ()
  else mret ().

(** The callback of a lost connection. *)
Definition lost_connection (i : nat) (was_connected : Z) : A () :=
  h ← get_handle i;
  if a_cl (a_settings h) && negb (was_connected =? 0) then emit (EvConnectionLost i) else mret ().

(** ** Disconnecting *)

(** [MQTTTime_elapsed], unsigned. *)
Definition MQTTTime_elapsed (start : Z) : A Z := now ← clock; mret (to_u64 (MQTTTime_difftime now start)).

(** [MQTTAsync_checkDisconnect]: the command is the queued one or the one kept in the
    handle. *)
Definition MQTTAsync_checkDisconnect (i : nat) (command : MQTTAsync_command) : A () :=
  match c_details command with
  | Ddis internal timeout reasonCode =>
      h ← get_handle i;
      finished ← (if Zlen (AList.items (outboundMsgs (a_c h))) =? 0 then mret true
                  else elapsed ← MQTTTime_elapsed (c_start_time command); mret (to_u64 timeout <=? elapsed));
      if negb finished then mret ()
      else
        let was_connected := connected (a_c h) in
        _ ← MQTTAsync_closeSession i reasonCode (Some (c_properties command));
        if internal : bool then
          _ ← lost_connection i was_connected;
          MQTTAsync_startConnectRetry RAND_MAX i
        else if c_onSuccess command || c_onSuccess5 command then emit (EvDisconnected i)
        else mret ()
  | _ => sm_oob
  end.

(** The failure of the CONNECT kept in the handle: its callbacks are not called again. *)
Definition connect_failed (i : nat) (code : Z) : A () :=
  h ← get_handle i;
  let c := a_connect h in
  if c_onFailure c then
    _ ← emit (EvConnectFailure i code);
    modify_handle i (fun h => with_connect h (mkCommand false false (c_onSuccess5 c) (c_onFailure5 c) (c_token c) (c_start_time c) (c_properties c) (c_details c)))
  else if c_onFailure5 c then
    _ ← emit (EvConnectFailure i code);
    modify_handle i (fun h => with_connect h (mkCommand (c_onSuccess c) (c_onFailure c) false false (c_token c) (c_start_time c) (c_properties c) (c_details c)))
  else mret ().

(** The CONNECT to be tried next: the next version, or the next server. *)
Definition next_server (c : Clients) (cmd : MQTTAsync_command) : MQTTAsync_command :=
  match c_details cmd with
  | Dconn uri version =>
      if Clients.MQTTVersion c =? MQTTVERSION_DEFAULT then
        if version =? MQTTVERSION_3_1 then set_details cmd (Dconn (uri + 1) MQTTVERSION_DEFAULT) else cmd
      else set_details cmd (Dconn (uri + 1) version)
  | _ => cmd
  end.

(** [nextOrClose] *)
Definition nextOrClose (i : nat) (rc : Z) : A () :=
  h ← get_handle i;
  let was_connected := connected (a_c h) in
  if MQTTAsync_checkConn (a_connect h) h then
    _ ← on_session i (MQTTAsync_closeOnly MQTTREASONCODE_SUCCESS None);
    _ ← lost_connection i was_connected;
    _ ← add_connect i (next_server (a_c h) (a_connect h));
    mret ()
  else
    _ ← MQTTAsync_closeSession i MQTTREASONCODE_SUCCESS None;
    _ ← lost_connection i was_connected;
    _ ← connect_failed i rc;
    MQTTAsync_startConnectRetry RAND_MAX i.

(** ** Carrying out a command *)

Definition succeed (q : queued) : A () :=
  if c_onSuccess (q_command q) || c_onSuccess5 (q_command q) then emit (EvSuccess (q_client q) (q_id q) (c_token (q_command q))) else mret ().

(** The server a CONNECT goes to, whether it is now a WebSocket one, and the version. *)
Definition connect_target (h : MQTTAsyncs P) (uri : Z) : res (list Z * bool) :=
  let uris := a_serverURIs (a_settings h) in
  if (0 <? Zlen uris) && (uri <? Zlen uris) then
    match (if uri <? 0 then None else uris !! Z.to_nat uri) with
    | None => Oob
    | Some serverURI =>
        if starts_with URI_TCP serverURI then Ok (drop (List.length URI_TCP) serverURI, a_websocket h)
        else if starts_with URI_WS serverURI then Ok (drop (List.length URI_WS) serverURI, true)
        else Ok (serverURI, a_websocket h)
    end
  else Ok (a_serverURI (a_settings h), a_websocket h).
Definition connect_version (c : Clients) (version : Z) : Z :=
  if Clients.MQTTVersion c =? MQTTVERSION_DEFAULT then
    if version =? MQTTVERSION_DEFAULT then MQTTVERSION_3_1_1
    else if version =? MQTTVERSION_3_1_1 then MQTTVERSION_3_1 else version
  else Clients.MQTTVersion c.

(** The branches of [MQTTAsync_processCommand]: the code, and the command as it is left. *)
Definition run_connect (q : queued) (uri version : Z) : A (Z * queued) :=
  h ← get_handle (q_client q);
  let c := a_c h in
  if negb (connect_state c =? NOT_IN_PROGRESS) || negb (connected c =? 0) then mret (0, q)
  else
    '(serverURI, websocket) ← sm_lift (connect_target h uri);
    _ ← modify_handle (q_client q) (fun h => with_websocket h websocket);
    let version := connect_version c version in
    rc ← on_session (q_client q)
           (MQTTProtocol_connect px serverURI websocket version (a_connectProps (a_settings h)) (a_willProps (a_settings h)));
    h ← get_handle (q_client q);
    let rc := if connect_state (a_c h) =? NOT_IN_PROGRESS then SOCKET_ERROR else rc in
    _ ← (if rc =? EINPROGRESS
         then on_session (q_client q) (s ← sm_get; sm_modify (fun s' => set_network s' (Socket_addPendingWrite (the_socket s) (st_net s'))))
         else mret ());
    mret (rc, set_command q (set_details (q_command q) (Dconn uri version))).

Definition run_subscribe (q : queued) (topics : list (list Z)) (qoss : list Z) (opts : sub_struct) (optlist : list sub_struct) : A (Z * queued) :=
  h ← get_handle (q_client q);
  let v5 := MQTTVERSION_5 <=? Clients.MQTTVersion (a_c h) in
  let subopts := if v5 then Some (map ss_options (if 1 <? Zlen topics then optlist else [opts])) else None in
  let props := if v5 then Some (c_properties (q_command q)) else None in
  rc ← on_session (q_client q) (MQTTPacket_send_subscribe topics qoss subopts props (c_token (q_command q)) 0);
  mret (rc, q).

Definition run_unsubscribe (q : queued) (topics : list (list Z)) : A (Z * queued) :=
  h ← get_handle (q_client q);
  let props := if MQTTVERSION_5 <=? Clients.MQTTVersion (a_c h) then Some (c_properties (q_command q)) else None in
  rc ← on_session (q_client q) (MQTTPacket_send_unsubscribe topics props (c_token (q_command q)) 0);
  mret (rc, q).

Definition run_publish (q : queued) (dest : option (list Z)) (payloadlen : Z) (payload : option (list Z)) (qos retained : Z) : A (Z * queued) :=
  h ← get_handle (q_client q);
  let v := Clients.MQTTVersion (a_c h) in
  let p := mkPublish 0 dest 0 (c_token (q_command q)) payload payloadlen v
             (if MQTTVERSION_5 <=? v then c_properties (q_command q) else MQTTProperties_initializer) stale_mask in
  '(rc, _, _) ← on_session (q_client q) (MQTTProtocol_startPublish p qos retained None);
  if qos =? 0 then
    if rc =? TCPSOCKET_COMPLETE then _ ← succeed q; mret (rc, q)
    else
      _ ← modify_handle (q_client q) (fun h => with_pending_write h (Some (q_id q)));
      mret (rc, if rc =? SOCKET_ERROR then q else set_command q (set_details (q_command q) (Dpub None payloadlen payload qos retained)))
  else mret (rc, set_command q (set_details (q_command q) (Dpub None payloadlen None qos retained))).

Definition run_disconnect (q : queued) : A (Z * queued) :=
  h ← get_handle (q_client q);
  if (connect_state (a_c h) =? NOT_IN_PROGRESS) && (connected (a_c h) =? 0) then mret (0, q)
  else
    _ ← (if negb (connect_state (a_c h) =? NOT_IN_PROGRESS) then connect_failed (q_client q) MQTTASYNC_OPERATION_INCOMPLETE else mret ());
    _ ← modify_handle (q_client q) (fun h => with_client h (set_connect_state (a_c h) DISCONNECTING));
    _ ← MQTTAsync_checkDisconnect (q_client q) (q_command q);
    mret (0, q).

Definition run_command (q : queued) : A (Z * queued) :=
  match c_details (q_command q) with
  | Dconn uri version => run_connect q uri version
  | Dsub topics qoss opts optlist => run_subscribe q topics qoss opts optlist
  | Dunsub topics => run_unsubscribe q topics
  | Dpub dest payloadlen payload qos retained => run_publish q dest payloadlen payload qos retained
  | Ddis _ _ _ => run_disconnect q
  end.

(** The end of [MQTTAsync_processCommand]: where the command goes. *)
Definition add_response (q : queued) : A () :=
  modify_handle (q_client q) (fun h => with_responses h (AList.append q (a_responses h))).
Definition is_error (rc : Z) : bool := (rc =? SOCKET_ERROR) || (rc =? MQTTASYNC_PERSISTENCE_ERROR).

Definition command_failed (rc : Z) (q : queued) : A () :=
  let i := q_client q in
  let is_connect := q_type q =? CONNECT in
  _ ← (if is_connect then
         _ ← MQTTAsync_disconnect i (Some (initialized_disconnect 0));
         modify_handle i (fun h => with_should h true)
       else _ ← MQTTAsync_disconnect_internal i 0; mret ());
  h ← get_handle i;
  if is_connect && MQTTAsync_checkConn (q_command q) h then
    _ ← MQTTAsync_addCommand (set_command q (next_server (a_c h) (q_command q)));
    mret ()
  else
    _ ← (if c_onFailure (q_command q) || c_onFailure5 (q_command q) then emit (EvFailure i (q_id q) 0 rc) else mret ());
    _ ← (if is_connect then
           _ ← modify_handle i (fun h => with_connect h (q_command q));
           MQTTAsync_startConnectRetry RAND_MAX i
         else mret ());
    MQTTAsync_freeCommand q.

Definition finish_command (rc : Z) (q : queued) : A () :=
  match c_details (q_command q) with
  | Dconn _ _ =>
      if is_error rc then command_failed rc q
      else _ ← modify_handle (q_client q) (fun h => with_connect h (q_command q)); MQTTAsync_freeCommand q
  | Ddis _ _ _ => _ ← modify_handle (q_client q) (fun h => with_disconnect h (q_command q)); MQTTAsync_freeCommand q
  | Dpub _ _ _ qos _ =>
      if is_error rc then command_failed rc q
      else if (qos =? 0) && negb (rc =? TCPSOCKET_INTERRUPTED) then MQTTAsync_freeCommand q
      else add_response q
  | _ => if is_error rc then command_failed rc q else add_response q
  end.

(** [MQTTAsync_processCommand]: whether there was a command. *)
Definition MQTTAsync_processCommand : A bool :=
  cmd ← take_command;
  match cmd with
  | None => mret false
  | Some q => '(rc, q) ← run_command q; _ ← finish_command rc q; mret true
  end.

(** ** Responses *)

Definition remove_response (i : nat) (q : queued) : A () :=
  modify_handle i (fun h => with_responses h (snd (AList.unlink (same_structure q) (a_responses h)))).

(** The payload of a structure, freed elsewhere. *)
Definition forget_payload (id : Z) (q : queued) : queued :=
  if q_id q =? id then
    match c_details (q_command q) with
    | Dpub dest payloadlen _ qos retained => set_command q (set_details (q_command q) (Dpub dest payloadlen None qos retained))
    | _ => q
    end
  else q.
Definition map_responses (f : queued -> queued) (h : MQTTAsyncs P) : MQTTAsyncs P :=
  with_responses h (AList.mk (map f (AList.items (a_responses h))) (AList.current (a_responses h))).

(** [MQTTAsync_writeComplete] for the client of the socket. *)
Definition write_finished (i : nat) (rc : Z) (q : queued) : A () :=
  match c_details (q_command q) with
  | Dpub _ _ _ qos _ =>
      let acknowledged := ((rc =? 1) && (qos =? 0)) || (rc =? -1) in
      _ ← (if (rc =? 1) && (qos =? 0) then succeed q
           else if rc =? -1 then fail_command rc q else mret ());
      _ ← (if qos =? 0 then modify_handle i (map_responses (forget_payload (q_id q))) else mret ());
      if acknowledged : bool then _ ← remove_response i q; MQTTAsync_freeCommand q else mret ()
  | _ => _ ← remove_response i q; MQTTAsync_freeCommand q
  end.
Definition MQTTAsync_writeComplete (i : nat) (rc : Z) : A () :=
  _ ← on_session i (_ ← MQTTProtocol_checkPendingWrites; touch_lastSent);
  h ← get_handle i;
  match a_pending_write h with
  | None => mret ()
  | Some id =>
      _ ← match List.find (fun q => q_id q =? id) (AList.items (a_responses h)) with
          | None => mret ()
          | Some q => write_finished i rc q
          end;
      modify_handle i (fun h => with_pending_write h None)
  end.

(** The response with a token, taken out of the list. *)
Definition take_response (i : nat) (token : Z) : A (option queued) :=
  h ← get_handle i;
  match List.find (cmdMessageIDCompare token) (AList.items (a_responses h)) with
  | None => mret None
  | Some q => _ ← remove_response i q; mret (Some q)
  end.

(** The callbacks of a PUBLISH that has been acknowledged. *)
Definition publish_callback (ackrc : Z) (q : queued) : A () :=
  let c := q_command q in
  if c_onSuccess c then emit (EvSuccess (q_client q) (q_id q) (c_token c))
  else if c_onSuccess5 c && (ackrc <? MQTTREASONCODE_UNSPECIFIED_ERROR) then emit (EvSuccess (q_client q) (q_id q) (c_token c))
  else if c_onFailure5 c && (MQTTREASONCODE_UNSPECIFIED_ERROR <=? ackrc) then emit (EvFailure (q_client q) (q_id q) (c_token c) ackrc)
  else mret ().

(** The part of [MQTTAsync_cycle] for PUBACK, PUBREC and PUBCOMP. *)
Definition handle_ack (i : nat) (a : Ack) : A Z :=
  let ptype := hdr_type (ack_header a) in
  match ack_msgId a with
  | None => sm_oob
  | Some msgid =>
      ackrc ← (if MQTTVERSION_5 <=? ack_MQTTVersion a then match ack_rc a with Some rc => mret rc | None => sm_oob end else mret 0);
      rc ← on_session i (if ptype =? PUBCOMP then MQTTProtocol_handlePubcomps a
                         else if ptype =? PUBREC then MQTTProtocol_handlePubrecs a
                         else MQTTProtocol_handlePubacks a);
      if negb (ptype =? PUBREC) || (MQTTREASONCODE_UNSPECIFIED_ERROR <=? ackrc) then
        h ← get_handle i;
        _ ← (if a_dc (a_settings h) then emit (EvDeliveryComplete i msgid) else mret ());
        q ← take_response i msgid;
        _ ← match q with
            | None => mret ()
            | Some q => _ ← publish_callback ackrc q; MQTTAsync_freeCommand q
            end;
        mret rc
      else mret rc
  end.

(** The part of [MQTTAsync_receiveThread] for SUBACK. *)
Definition suback_callback (v5 : bool) (qoss : list Z) (q : queued) : A () :=
  let c := q_command q in
  let failure := match qoss with [r] => if v5 then MQTTREASONCODE_UNSPECIFIED_ERROR <=? r else r =? MQTT_BAD_SUBSCRIBE | _ => false end in
  if failure : bool then
    if (if v5 then c_onFailure5 c else c_onFailure c) then emit (EvFailure (q_client q) (q_id q) (c_token c) (default 0 (head qoss))) else mret ()
  else if (if v5 then c_onSuccess5 c else c_onSuccess c) then
    match qoss with
    | [] => if v5 then sm_oob else emit (EvSuccess (q_client q) (q_id q) (c_token c))
    | _ => emit (EvSuccess (q_client q) (q_id q) (c_token c))
    end
  else mret ().
Definition handle_suback (i : nat) (s : Suback) : A Z :=
  h ← get_handle i;
  q ← take_response i (sub_msgId s);
  _ ← match q with
      | None => mret ()
      | Some q => _ ← suback_callback (MQTTVERSION_5 <=? Clients.MQTTVersion (a_c h)) (sub_qoss s) q; MQTTAsync_freeCommand q
      end;
  _ ← sm_lift (MQTTPacket_freeSuback s);
  mret TCPSOCKET_COMPLETE.

(** And for UNSUBACK. *)
Definition unsuback_callback (reasons : option (list Z)) (q : queued) : A () :=
  let c := q_command q in
  if c_onSuccess c then emit (EvSuccess (q_client q) (q_id q) (c_token c))
  else if c_onSuccess5 c then
    match reasons with
    | Some (_ :: _) => emit (EvSuccess (q_client q) (q_id q) (c_token c))
    | _ => sm_oob
    end
  else mret ().
Definition handle_unsuback (i : nat) (u : Unsuback) : A Z :=
  q ← take_response i (uns_msgId u);
  _ ← match q with
      | None => mret ()
      | Some q => _ ← unsuback_callback (uns_reasonCodes u) q; MQTTAsync_freeCommand q
      end;
  _ ← sm_lift (MQTTPacket_freeUnsuback u);
  mret TCPSOCKET_COMPLETE.

(** ** Keep alive and retries, for every client *)

(** [MQTTProtocol_closeSession] *)
Definition MQTTProtocol_closeSession (i : nat) : A () := _ ← MQTTAsync_disconnect_internal i 0; mret ().

(** One turn of [MQTTProtocol_keepalive]; whether the session is to be closed. *)
Definition keepalive_ping (now : Z) : SM (St P N) bool :=
  ready ← (s ← sm_get; call_net (noPendingWrites (the_socket s)));
  if negb ready then mret false
  else
    rc ← MQTTPacket_send_pingreq;
    if negb (rc =? TCPSOCKET_COMPLETE) then mret true else _ ← set_lastPing now; mret false.
Definition keepalive_client (now : Z) (i : nat) : A () :=
  h ← get_handle i;
  let c := a_c h in
  let interval := keepAliveInterval c * 1000 in
  if (connected c =? 0) || (keepAliveInterval c =? 0) then mret ()
  else if ping_outstanding c =? 1 then
    if interval <=? MQTTTime_difftime now (net_lastPing (net c)) then MQTTProtocol_closeSession i else mret ()
  else if (interval <=? MQTTTime_difftime now (net_lastSent (net c))) || (interval <=? MQTTTime_difftime now (net_lastReceived (net c))) then
    lost ← on_session i (keepalive_ping now);
    if lost : bool then MQTTProtocol_closeSession i else mret ()
  else mret ().

(** A message sent again, as in [MQTTProtocol_retries]; [false] when the write failed. *)
Definition send_again (now : Z) (regardless : bool) (j : nat) (m : Messages) : SM (St P N) bool :=
  s ← sm_get;
  if negb (due now (retryInterval (st_client s)) regardless m) then mret true
  else if (m_qos m =? 1) || ((m_qos m =? 2) && bool_decide (m_nextMessageType m = Some PUBREC)) then
    match m_publish m with
    | None => sm_oob
    | Some p =>
        pb ← deref_pub p;
        '(rc, sent) ← MQTTPacket_send_publish (retry_publish m pb) 1 (m_qos m) (m_retain m);
        _ ← share_buffers p sent;
        if rc =? SOCKET_ERROR then
          _ ← modify_client (fun c => set_flags c (connected c) 0 (ping_outstanding c)); mret false
        else touch_message j m
    end
  else if negb (m_qos m =? 0) && bool_decide (m_nextMessageType m = Some PUBCOMP) then
    rc ← MQTTPacket_send_pubrel (m_MQTTVersion m) (m_msgid m) 0;
    if negb (rc =? TCPSOCKET_COMPLETE) then
      _ ← modify_client (fun c => set_flags c (connected c) 0 (ping_outstanding c)); mret false
    else touch_message j m
  else mret true.

Fixpoint retries_client (n j : nat) (now : Z) (regardless : bool) (i : nat) : A () :=
  match n with
  | O => mret ()
  | S n =>
      h ← get_handle i;
      match AList.items (outboundMsgs (a_c h)) !! j with
      | None => mret ()
      | Some m =>
          if (connected (a_c h) =? 0) || (good (a_c h) =? 0) then mret ()
          else
            ready ← on_session i (s ← sm_get; call_net (noPendingWrites (the_socket s)));
            if negb ready then mret ()
            else
              more ← on_session i (send_again now regardless j m);
              if more : bool then retries_client n (S j) now regardless i else MQTTProtocol_closeSession i
      end
  end.
Definition retry_client (now : Z) (doRetry regardless : bool) (i : nat) : A () :=
  h ← get_handle i;
  if connected (a_c h) =? 0 then mret ()
  else if good (a_c h) =? 0 then MQTTProtocol_closeSession i
  else
    ready ← on_session i (s ← sm_get; call_net (noPendingWrites (the_socket s)));
    if negb ready then mret ()
    else if doRetry then
      if negb regardless && (retryInterval (a_c h) <=? 0) then mret ()
      else retries_client (List.length (AList.items (outboundMsgs (a_c h)))) 0 now regardless i
    else mret ().

Fixpoint for_clients (f : nat -> A ()) (n i : nat) : A () :=
  match n with O => mret () | S n => _ ← f i; for_clients f n (S i) end.
Definition every_client (f : nat -> A ()) : A () := w ← sm_get; for_clients f (List.length (w_handles w)) 0.
Definition MQTTProtocol_keepalive (now : Z) : A () := every_client (keepalive_client now).
Definition MQTTProtocol_retry (now : Z) (doRetry regardless : bool) : A () := every_client (retry_client now doRetry regardless).

(** [MQTTAsync_retry]: [last] is its static variable, returned as it leaves it. *)
Definition MQTTAsync_retry (retryLoopIntervalms last : Z) : A Z :=
  now ← clock;
  if retryLoopIntervalms <=? MQTTTime_difftime now last then
    last ← clock;
    _ ← MQTTProtocol_keepalive now;
    _ ← MQTTProtocol_retry now true false;
    mret last
  else
    _ ← MQTTProtocol_retry now false false;
    mret last.

(** ** CONNACK *)

(** The session after an accepted CONNACK, up to the retries. *)
Definition touch_outbound (c : Clients) : Clients :=
  set_outbound c (AList.mk (map (fun m => touched m 0 (m_nextMessageType m)) (AList.items (outboundMsgs c))) (AList.current (outboundMsgs c))).

(** [MQTTAsync_completeConnection] *)
Definition stop_retrying (r : reconnection) : reconnection :=
  mkReconnection (automaticReconnect r) (minRetryInterval r) (maxRetryInterval r) (currentInterval r) (currentIntervalBase r)
    (lastConnectionFailedTime r) false (reconnectNow r).
Definition MQTTAsync_completeConnection (i : nat) (connack : Connack) : A Z :=
  h ← get_handle i;
  if negb (connect_state (a_c h) =? WAIT_FOR_CONNACK) then mret MQTTASYNC_FAILURE
  else if negb (cka_rc connack =? MQTTASYNC_SUCCESS) then mret (cka_rc connack)
  else
    _ ← modify_handle i (fun h => with_reconnection
          (with_client h (set_connect_state (set_flags (a_c h) 1 1 (ping_outstanding (a_c h))) NOT_IN_PROGRESS))
          (stop_retrying (a_reconnection h)));
    let c := a_c h in
    rc ← (if negb (cleansession c =? 0) || negb (cleanstart c =? 0) then MQTTAsync_cleanSession i
          else if (MQTTVERSION_3_1_1 <=? Clients.MQTTVersion c) && (Z.land (cka_flags connack) 1 =? 0) then MQTTAsync_cleanSession i
          else mret MQTTASYNC_SUCCESS);
    h ← get_handle i;
    if 0 <? Zlen (AList.items (outboundMsgs (a_c h))) then
      _ ← modify_handle i (fun h => with_client h (touch_outbound (a_c h)));
      _ ← MQTTProtocol_retry 0 true true;
      h ← get_handle i;
      mret (if connected (a_c h) =? 1 then rc else MQTTASYNC_DISCONNECTED)
    else mret rc.

(** The callback of a successful CONNECT, which is not called again. *)
Definition connect_succeeded (i : nat) : A () :=
  h ← get_handle i;
  let c := a_connect h in
  if c_onSuccess c then
    _ ← emit (EvConnectSuccess i);
    modify_handle i (fun h => with_connect h (mkCommand false false (c_onSuccess5 c) (c_onFailure5 c) (c_token c) (c_start_time c) (c_properties c) (c_details c)))
  else if c_onSuccess5 c then
    _ ← emit (EvConnectSuccess i);
    modify_handle i (fun h => with_connect h (mkCommand (c_onSuccess c) (c_onFailure c) false false (c_token c) (c_start_time c) (c_properties c) (c_details c)))
  else mret ().

(** The receive maximum of the server bounds the messages in flight. *)
Definition PROPERTY_RECEIVE_MAXIMUM : Z := 33.
Definition receive_maximum (connack : Connack) (c : Clients) : res Clients :=
  if Clients.MQTTVersion c <? MQTTVERSION_5 then Ok c
  else match cka_properties connack with
       | None => Oob
       | Some props =>
           if MQTTProperties_hasProperty props PROPERTY_RECEIVE_MAXIMUM then
             recv_max ← MQTTProperties_getNumericValue props PROPERTY_RECEIVE_MAXIMUM;
             Ok (if recv_max <? maxInflightMessages c then set_window c recv_max else c)
           else Ok c
       end.

(** The part of [MQTTAsync_receiveThread] for CONNACK. *)
Definition handle_connack (i : nat) (connack : Connack) : A () :=
  rc ← MQTTAsync_completeConnection i connack;
  _ ← (if rc =? MQTTASYNC_SUCCESS then
         h ← get_handle i;
         let onSuccess := c_onSuccess (a_connect h) || c_onSuccess5 (a_connect h) in
         _ ← connect_succeeded i;
         _ ← (if a_connected (a_settings h) then emit (EvConnected i onSuccess) else mret ());
         h ← get_handle i;
         c ← sm_lift (receive_maximum connack (a_c h));
         modify_handle i (fun h => with_client h c)
       else nextOrClose i rc);
  sm_lift (MQTTPacket_freeConnack connack).

(** ** Time-outs *)

(** The body of the loop of [MQTTAsync_checkTimeouts]. *)
Definition reconnect_due (h : MQTTAsyncs P) (elapsed : Z) : bool :=
  let r := a_reconnection h in
  automaticReconnect r && retrying r && (reconnectNow r || (to_u64 (to_i32 (currentInterval r * 1000)) <? elapsed)).
Definition check_timeouts_of (i : nat) : A () :=
  h ← get_handle i;
  _ ← (if connect_state (a_c h) =? DISCONNECTING then MQTTAsync_checkDisconnect i (a_disconnect h) else mret ());
  h ← get_handle i;
  elapsed ← (if negb (connect_state (a_c h) =? NOT_IN_PROGRESS) then MQTTTime_elapsed (c_start_time (a_connect h)) else mret 0);
  if negb (connect_state (a_c h) =? NOT_IN_PROGRESS) && (to_u64 (to_i32 (a_connectTimeout (a_settings h) * 1000)) <? elapsed)
  then nextOrClose i MQTTASYNC_FAILURE
  else
    elapsed ← (let r := a_reconnection h in
               if automaticReconnect r && retrying r && negb (reconnectNow r) then MQTTTime_elapsed (lastConnectionFailedTime r) else mret 0);
    if reconnect_due h elapsed then
      _ ← add_connect i (restart_version (a_c h) (a_connect h));
      modify_handle i (fun h => with_reconnection h
        (let r := a_reconnection h in
         mkReconnection (automaticReconnect r) (minRetryInterval r) (maxRetryInterval r) (currentInterval r) (currentIntervalBase r)
           (lastConnectionFailedTime r) (retrying r) false))
    else mret ().

(** [MQTTAsync_checkTimeouts]: [last] is its static variable, returned as it leaves it. *)
Definition MQTTAsync_checkTimeouts (last : Z) : A Z :=
  now ← clock;
  if MQTTTime_difftime now last <? 3000 then mret last
  else _ ← every_client check_timeouts_of; mret now.

(** An error of the socket, in [MQTTAsync_receiveThread]. *)
Definition socket_error (i : nat) : A () := nextOrClose i SOCKET_ERROR.

(** ** Creation and destruction *)

(** The part of [MQTTAsync_createWithOptions] that restores the commands of a handle
    whose session was restored. *)
Fixpoint queue_restored (l : list queued) : A () :=
  match l with
  | [] => mret ()
  | q :: l =>
      id ← new_structure;
      _ ← modify_commands (AList.append (mkQueued (q_command q) (q_client q) (q_cseqno q) (q_not_restored q) (q_key q) id));
      queue_restored l
  end.
Definition restore_queue (i : nat) (restoreMessages : bool) : A Z :=
  h ← get_handle i;
  if negb restoreMessages then
    let '(rc, p) := MQTTAsync_unpersistCommandsAndMessages (a_c h) (a_phandle h) in
    _ ← modify_handle i (fun h => with_session h (a_c h) p);
    mret rc
  else
    '(rc, cmds, seqno, buffered) ← sm_lift (MQTTAsync_restoreCommands i (persistence (a_c h)) (a_phandle h) (a_command_seqno h) (a_noBufferedMessages h));
    _ ← queue_restored cmds;
    _ ← modify_handle i (fun h => with_buffered (with_seqno h seqno) buffered);
    mret rc.

(** The part of [MQTTAsync_destroy] that ends the session and frees the commands. *)
Definition destroy_commands (i : nat) : A () :=
  _ ← MQTTAsync_closeSession i MQTTREASONCODE_SUCCESS None;
  _ ← MQTTAsync_freeResponses i;
  MQTTAsync_freeCommands i.

End Client.

End AsyncClient.
