(* ===== verification/AsyncReceive.v ===== *)
(** * Receiving in the asynchronous client ([src/src/MQTTAsyncUtils.c])

    What the receiving thread does in a turn for the socket of a client that is ready: the
    continuation of a connection in progress, the reading of a packet, the handlers of
    the packets, and the messages that are handed to the application at once or from the
    queue of the client. *)

From S2P Require Import Prelude.
From S2P Require Import Wire.
From S2P Require Import Properties.
From S2P Require Import LinkedList.
From S2P Require Import Clients.
From S2P Require Import Packet.
From S2P Require Import State.
From S2P Require Import Store.
From S2P Require Import Persistence.
From S2P Require Import PacketIO.
From S2P Require Import Protocol.
From S2P Require Import Session.
From S2P Require Import Socks5.
From S2P Require Import Outgoing.
From S2P Require Import AsyncCommands.
From S2P Require Import AsyncQueue.
From S2P Require Import AsyncClient.
From Stdlib Require Import ZArith Lia List.
From stdpp Require Import base numbers list gmap.

Open Scope Z_scope.

Module AsyncReceive.
Import Wire Properties Clients Packet State Store Persistence PacketIO Protocol Session Outgoing AsyncCommands AsyncQueue AsyncClient.

Definition SSL_FATAL : Z := -3.

Section Receive.
Context {P N : Type} {PO : PersistenceOps P} {NT : Transport N} {NC : Connector N}.
Abbreviation A := (SM (World P N)).
Context (RAND_MAX : Z) (px : proxies).

(** ** Handing messages to the application *)

(** [MQTTAsync_deliverMessage]: the answer of the callback, which accepts when the answers
    given run out. *)
Definition MQTTAsync_deliverMessage (i : nat) (topicLen : Z) (m : qEntry) : A bool :=
  w ← sm_get;
  let accepted := match w_answers w with b :: _ => b | [] => true end in
  _ ← sm_modify (fun w => put_answers w (tl (w_answers w)));
  _ ← emit (EvArrived i topicLen m accepted);
  mret accepted.

(** A message put in the queue of its client, and stored. *)
Definition queue_message (qe : qEntry) : SM (St P N) () :=
  s ← sm_get;
  if persistence (st_client s) then
    '(_, c, qe, p) ← sm_lift (MQTTPersistence_persistQueueEntry (st_client s) qe (st_phandle s));
    _ ← sm_modify (fun s => set_phandle (set_client s c) p);
    modify_client (fun c => set_queue c (AList.append qe (messageQueue c)) (qentry_seqno c))
  else
    modify_client (fun c => set_queue c (AList.append qe (messageQueue c)) (qentry_seqno c)).

(** [Protocol_processPublication]; a message without a topic, which no handler has, counts
    as an access out of bounds. *)
Definition Protocol_processPublication (i : nat) (publish : Publish) (allocatePayload : Z) : A () :=
  match pub_topic publish with
  | None => sm_oob
  | Some topic =>
      props ← (if MQTTVERSION_5 <=? pub_MQTTVersion publish
               then sm_lift (MQTTProperties_copy (pub_properties publish))
               else mret MQTTProperties_initializer);
      let qos := hdr_qos (pub_header publish) in
      let qe := mkqEntry (default [] (pub_payload publish)) qos (hdr_retain (pub_header publish))
                  (if qos =? 2 then 0 else hdr_dup (pub_header publish)) (pub_msgId publish) props
                  topic (pub_topiclen publish) 0 in
      _ ← emit (EvReceived i qe);
      h ← get_handle i;
      delivered ← (if (Zlen (AList.items (messageQueue (a_c h))) =? 0) && negb (connected (a_c h) =? 0) && a_ma (a_settings h)
                   then MQTTAsync_deliverMessage i (pub_topiclen publish) qe
                   else mret false);
      if delivered : bool then mret () else on_session i (queue_message qe)
  end.

(** The part of [MQTTAsync_receiveThread] that hands over the first message of the queue. *)
Definition forget_entry (qe : qEntry) : SM (St P N) () :=
  s ← sm_get;
  _ ← (if persistence (st_client s) then call_persistence (MQTTPersistence_unpersistQueueEntry (st_client s) qe) else mret 0);
  modify_client (fun c => set_queue c (AList.remove_at 0 (messageQueue c)) (qentry_seqno c)).
Definition deliver_queued (i : nat) : A () :=
  h ← get_handle i;
  match AList.items (messageQueue (a_c h)) with
  | qe :: _ =>
      if a_ma (a_settings h) then
        let topicLen := if Zlen (cstr (q_topicName qe)) =? q_topicLen qe then 0 else q_topicLen qe in
        accepted ← MQTTAsync_deliverMessage i topicLen qe;
        if accepted : bool then on_session i (forget_entry qe) else mret ()
      else mret ()
  | [] => mret ()
  end.

(** ** PUBLISH and PUBREL *)

(** The QoS 2 branch of [MQTTProtocol_handlePublishes], in the two parts around the
    delivery: the message held, its publication and whether there was one before. *)
Definition hold_qos2 (publish : Publish) : SM (St P N) (nat * Messages * positive * bool) :=
  '(p, publish') ← MQTTProtocol_storePublication publish;
  props ← (if MQTTVERSION_5 <=? pub_MQTTVersion publish
           then sm_lift (MQTTProperties_copy (pub_properties publish))
           else mret MQTTProperties_initializer);
  let m := mkMessages (hdr_qos (pub_header publish)) (hdr_retain (pub_header publish)) (pub_msgId publish)
             (pub_MQTTVersion publish) props (Some p) 0 (Some PUBREL) in
  found ← find_inbound (m_msgid m);
  i ← hold_message found m;
  mret (i, m, p, bool_decide (is_Some found)).
Definition drop_publication (i : nat) (m : Messages) (p : positive) : SM (St P N) () :=
  _ ← unlink_publication (Some p);
  modify_client (fun c => set_inbound c (set_item i (set_publish m None) (inboundMsgs c))).
Definition receive_qos2 (i : nat) (publish : Publish) : A Z :=
  '(j, m, p, again) ← on_session i (hold_qos2 publish);
  rc ← on_session i (MQTTPacket_send_pubrec (pub_MQTTVersion publish) (pub_msgId publish));
  if (MQTTVERSION_5 <=? m_MQTTVersion m) && negb again then
    pb ← on_session i (deref_pub p);
    _ ← Protocol_processPublication i (publication_of m pb) 1;
    _ ← on_session i (drop_publication j m p);
    mret rc
  else mret rc.

(** [MQTTProtocol_handlePublishes] *)
Definition MQTTProtocol_handlePublishes (i : nat) (publish : Publish) : A Z :=
  let qos := hdr_qos (pub_header publish) in
  if qos =? 0 then
    _ ← Protocol_processPublication i publish 1; mret TCPSOCKET_COMPLETE
  else
    ready ← on_session i (s ← sm_get; call_net (noPendingWrites (the_socket s)));
    if negb ready then mret SOCKET_ERROR
    else if qos =? 1 then
      rc ← on_session i (MQTTPacket_send_puback (pub_MQTTVersion publish) (pub_msgId publish));
      _ ← Protocol_processPublication i publish 1;
      mret rc
    else if qos =? 2 then receive_qos2 i publish
    else mret TCPSOCKET_COMPLETE.

(** [MQTTProtocol_handlePubrels]: what to do with the message found. *)
Definition find_released (pubrel : Ack) (msgId : Z) : SM (St P N) (Z + nat * Messages) :=
  found ← find_inbound msgId;
  s ← sm_get;
  match found with
  | None =>
      if hdr_dup (ack_header pubrel) =? 0 then mret (inl TCPSOCKET_COMPLETE)
      else
        ready ← call_net (noPendingWrites (the_socket s));
        if negb ready then mret (inl SOCKET_ERROR)
        else rc ← MQTTPacket_send_pubcomp (ack_MQTTVersion pubrel) msgId; mret (inl rc)
  | Some (j, m) =>
      if negb (m_qos m =? 2) then mret (inl TCPSOCKET_COMPLETE)
      else if negb (bool_decide (m_nextMessageType m = Some PUBREL)) then mret (inl TCPSOCKET_COMPLETE)
      else
        ready ← call_net (noPendingWrites (the_socket s));
        if negb ready then mret (inl SOCKET_ERROR) else mret (inr (j, m))
  end.
Definition release_start (m : Messages) (pubrel : Ack) (msgId : Z) : SM (St P N) (Z * Publish) :=
  rc ← MQTTPacket_send_pubcomp (ack_MQTTVersion pubrel) msgId;
  publish ← match m_publish m with
            | Some p => pb ← deref_pub p; mret (publication_of m pb)
            | None => mret (publication_of m (mkPublications None 0 None 0 0 []))
            end;
  mret (rc, publish).
Definition release_end (j : nat) (m : Messages) (msgId : Z) : SM (St P N) Z :=
  rc ← persistence_remove (received_type (m_MQTTVersion m)) (m_qos m) msgId;
  _ ← unlink_publication (m_publish m);
  _ ← remove_inbound j;
  _ ← incr_received;
  mret rc.
Definition MQTTProtocol_handlePubrels (i : nat) (pubrel : Ack) : A Z :=
  match ack_msgId pubrel with
  | None => sm_oob
  | Some msgId =>
      found ← on_session i (find_released pubrel msgId);
      match found with
      | inl rc => mret rc
      | inr (j, m) =>
          '(rc, publish) ← on_session i (release_start m pubrel msgId);
          _ ← (if MQTTVERSION_5 <=? m_MQTTVersion m then mret () else Protocol_processPublication i publish 0);
          rc2 ← on_session i (release_end j m msgId);
          mret (rc + rc2)
      end
  end.

(** ** Connections in progress *)

(** The CONNECT that ends the connection of the network. *)
Definition send_connect (version : Z) (connectProps willProps : option MQTTProperties) : SM (St P N) Z :=
  _ ← set_state WAIT_FOR_CONNACK;
  MQTTPacket_send_connect version connectProps willProps.

(** The body of [MQTTAsync_connecting], without its end. *)
Definition connecting (serverURI : list Z) (websocket : bool) (version : Z) (connectProps willProps : option MQTTProperties) : SM (St P N) Z :=
  s ← sm_get;
  let state := connect_state (st_client s) in
  if state =? TCP_IN_PROGRESS then
    rc ← on_socket connect_outcome;
    if negb (rc =? 0) then mret rc
    else
      _ ← sm_modify (fun s => set_network s (Socket_clearPendingWrite (the_socket s) (st_net s)));
      if websocket then
        rc ← (if bool_decide (is_Some (px_http px)) then
                _ ← set_state PROXY_CONNECT_IN_PROGRESS; on_socket (fun s => WebSocket_proxy_connect s serverURI)
              else mret 0);
        if rc =? SOCKET_ERROR then mret rc
        else _ ← set_state WEBSOCKET_IN_PROGRESS; on_socket (fun s => WebSocket_connect s serverURI)
      else if bool_decide (is_Some (px_socks5_host px)) then
        _ ← set_state SOCKS5_PROXY_CONNECT_IN_PROGRESS;
        rc ← on_socket WebSocket_socks5_proxy_connect;
        if rc =? SOCKET_ERROR then mret rc else send_connect version connectProps willProps
      else send_connect version connectProps willProps
  else if state =? WEBSOCKET_IN_PROGRESS then
    rc ← on_socket WebSocket_upgrade;
    if (rc =? SOCKET_ERROR) || (rc =? TCPSOCKET_INTERRUPTED) then mret rc
    else send_connect version connectProps willProps
  else if state =? SOCKS5_PROXY_CONNECT_IN_PROGRESS then
    if socks5State (st_client s) =? Socks5.pahomqtt_cs_new then send_connect version connectProps willProps
    else mret (-1)
  else mret (-1).

(** The server of the connection, which is read beyond the list when there is none. *)
Definition connecting_server (h : MQTTAsyncs P) : res (list Z) :=
  let uris := a_serverURIs (a_settings h) in
  if 0 <? Zlen uris then
    match c_details (a_connect h) with
    | Dconn uri _ =>
        match (if uri <? 0 then None else uris !! Z.to_nat uri) with
        | None => Oob
        | Some serverURI =>
            Ok (if starts_with URI_TCP serverURI then drop (List.length URI_TCP) serverURI
                else if starts_with URI_WS serverURI then drop (List.length URI_WS) serverURI
                else serverURI)
        end
    | _ => Oob
    end
  else Ok (a_serverURI (a_settings h)).
Definition connecting_version (h : MQTTAsyncs P) : Z :=
  match c_details (a_connect h) with Dconn _ version => version | _ => 0 end.

(** [MQTTAsync_connecting] *)
Definition MQTTAsync_connecting (i : nat) : A Z :=
  h ← get_handle i;
  serverURI ← sm_lift (connecting_server h);
  rc ← on_session i (connecting serverURI (a_websocket h) (connecting_version h) (a_connectProps (a_settings h)) (a_willProps (a_settings h)));
  h ← get_handle i;
  let state := connect_state (a_c h) in
  _ ← (if (negb (rc =? 0) && negb (rc =? TCPSOCKET_INTERRUPTED) && negb (state =? SSL_IN_PROGRESS) && negb (state =? WEBSOCKET_IN_PROGRESS)
           && negb (rc =? SOCKS5_PROXY_CONNECT_IN_PROGRESS)) || (rc =? SSL_FATAL)
       then nextOrClose RAND_MAX i MQTTASYNC_FAILURE else mret ());
  mret rc.

(** ** A turn of the receiving thread *)

(** The part of [MQTTAsync_cycle] for a packet: what is left for the thread. *)
Definition cycle_packet (i : nat) (pack : packet) : A (Z * option packet) :=
  match pack with
  | Ppublish p => rc ← MQTTProtocol_handlePublishes i p; mret (rc, None)
  | Pack a =>
      let ptype := hdr_type (ack_header a) in
      if (ptype =? PUBACK) || (ptype =? PUBCOMP) || (ptype =? PUBREC) then rc ← handle_ack i a; mret (rc, None)
      else if ptype =? PUBREL then rc ← MQTTProtocol_handlePubrels i a; mret (rc, None)
      else mret (TCPSOCKET_COMPLETE, Some pack)
  | Pheader h =>
      if hdr_type h =? PINGRESP then rc ← on_session i MQTTProtocol_handlePingresps; mret (rc, None)
      else mret (TCPSOCKET_COMPLETE, Some pack)
  | _ => mret (TCPSOCKET_COMPLETE, Some pack)
  end.

(** [MQTTAsync_cycle] for a client whose socket is ready. *)
Definition MQTTAsync_cycle (i : nat) (retryLoopIntervalms last : Z) : A (Z * option packet * Z) :=
  h ← get_handle i;
  let state := connect_state (a_c h) in
  '(rc, pack) ← (if (state =? TCP_IN_PROGRESS) || (state =? SSL_IN_PROGRESS) || (state =? WEBSOCKET_IN_PROGRESS)
                 then rc ← MQTTAsync_connecting i; mret (rc, None)
                 else on_session i (MQTTPacket_Factory (Clients.MQTTVersion (a_c h))));
  h ← get_handle i;
  _ ← (if (connect_state (a_c h) =? WAIT_FOR_CONNACK) && (rc =? SOCKET_ERROR) then nextOrClose RAND_MAX i MQTTASYNC_FAILURE else mret ());
  '(rc, pack) ← match pack with
                | Some pack => '(rc', rest) ← cycle_packet i pack; mret (match rest with None => rc' | Some _ => rc end, rest)
                | None => mret (rc, None)
                end;
  last ← MQTTAsync_retry retryLoopIntervalms last;
  mret (rc, pack, last).

(** The packets the thread looks at itself. *)
Definition thread_packet (i : nat) (pack : packet) : A () :=
  match pack with
  | Pconnack c => handle_connack RAND_MAX i c
  | Psuback s => _ ← handle_suback i s; mret ()
  | Punsuback u => _ ← handle_unsuback i u; mret ()
  | Pack a =>
      if hdr_type (ack_header a) =? DISCONNECT then
        h ← get_handle i;
        _ ← (if a_disconnected (a_settings h) then emit (EvServerDisconnected i (ack_rc a)) else mret ());
        sm_lift (MQTTPacket_freeAck a)
      else mret ()
  | _ => mret ()
  end.

(** What the loop of [MQTTAsync_receiveThread] does with the result of a cycle on the socket
    of the client: nothing for a socket that has been closed meanwhile. *)
Definition thread_turn (i : nat) (sock rc : Z) (pack : option packet) : A () :=
  h ← get_handle i;
  if negb (net_socket (net (a_c h)) =? sock) then mret ()
  else if rc =? SOCKET_ERROR then nextOrClose RAND_MAX i rc
  else
    _ ← deliver_queued i;
    match pack with Some pack => thread_packet i pack | None => mret () end.

(** The body of the loop when the socket of the client is ready and no other thread takes
    the lock between the cycle and what follows it. *)
Definition receive_turn (i : nat) (retryLoopIntervalms last : Z) : A Z :=
  h ← get_handle i;
  let sock := net_socket (net (a_c h)) in
  '(rc, pack, last) ← MQTTAsync_cycle i retryLoopIntervalms last;
  _ ← thread_turn i sock rc pack;
  mret last.

End Receive.

End AsyncReceive.
