(* ===== verification/AsyncSafety.v ===== *)
(** * Safety of the asynchronous client

    What holds whatever the application and the threads do: no command is lost or freed
    twice, no callback of a command is called twice, the commands of a client are carried
    out in the order they were accepted, and the number of buffered messages is right.
    The invariant is about a view of the state; an operation is silent when it leaves the
    view as it is. *)

From S2P Require Import Prelude.
From S2P Require Import LinkedList.
From S2P Require Import Properties.
From S2P Require Import Clients.
From S2P Require Import Packet.
From S2P Require Import State.
From S2P Require Import Store.
From S2P Require Import Persistence.
From S2P Require Import PacketIO.
From S2P Require Import Protocol.
From S2P Require Import Session.
From S2P Require Import Outgoing.
From S2P Require Import AsyncCommands.
From S2P Require Import AsyncQueue.
From S2P Require Import AsyncClient.
From S2P Require Import AsyncReceive.
From Stdlib Require Import ZArith Lia List Sorting.Permutation Sorting.Sorted.
From stdpp Require Import base numbers list gmap.

Open Scope Z_scope.

Module AsyncSafety.
Import Properties Clients Packet State Store Persistence PacketIO Protocol Session Outgoing AsyncCommands AsyncQueue AsyncClient AsyncReceive.

Abbreviation queued := MQTTAsync_queuedCommand.

(** ** The view *)

Definition freed_id (e : event) : option Z := match e with EvFree id => Some id | _ => None end.
Definition called_id (e : event) : option Z := match e with EvSuccess _ id _ | EvFailure _ id _ _ => Some id | _ => None end.

(** The queue, the responses and the counter of every handle, the structures allocated,
    the commands taken, those freed and those whose callback was called. *)
Record view := mkView {
  v_queue : list queued;
  v_handles : list (list queued * Z);
  v_next : Z;
  v_taken : list queued;
  v_freed : list Z;
  v_called : list Z
}.

Section View.
Context {P N : Type}.
Definition handle_view (h : MQTTAsyncs P) : list queued * Z := (AList.items (a_responses h), a_noBufferedMessages h).
Definition view_of (w : World P N) : view :=
  mkView (AList.items (w_commands w)) (map handle_view (w_handles w)) (w_next w) (w_taken w)
    (omap freed_id (w_events w)) (omap called_id (w_events w)).

(** What an operation does to the view when it returns. *)
Definition triple {X} (I : view -> Prop) (m : SM (World P N) X) (J : X -> view -> Prop) : Prop :=
  forall w x w', m w = Ok (x, w') -> I (view_of w) -> J x (view_of w').
Definition silent {X} (m : SM (World P N) X) : Prop := forall w x w', m w = Ok (x, w') -> view_of w' = view_of w.

Lemma triple_silent {X} I (m : SM (World P N) X) : silent m -> triple I m (fun _ => I).
Proof. intros H w x w' E HI. by rewrite (H w x w' E). Qed.
Lemma triple_ret {X} (I : view -> Prop) (a : X) (J : X -> view -> Prop) : (forall v, I v -> J a v) -> triple I (mret a) J.
Proof. intros H w x w' [= <- <-]. apply H. Qed.
Lemma triple_bind {X Y} I (m : SM (World P N) X) (f : X -> SM (World P N) Y) J K :
  triple I m J -> (forall a, triple (J a) (f a) K) -> triple I (m ≫= f) K.
Proof. intros H1 H2 w x w' E HI. apply sm_bind_Ok in E as (a & w1 & E1 & E2). eapply H2; [exact E2|]. by eapply H1. Qed.
Lemma triple_weaken {X} (I I' : view -> Prop) (m : SM (World P N) X) (J J' : X -> view -> Prop) :
  triple I' m J' -> (forall v, I v -> I' v) -> (forall a v, J' a v -> J a v) -> triple I m J.
Proof. intros H H1 H2 w x w' E HI. eapply H2, H; eauto. Qed.
Lemma triple_skip {X Y} I (m : SM (World P N) X) (f : X -> SM (World P N) Y) K :
  silent m -> (forall a, triple I (f a) K) -> triple I (m ≫= f) K.
Proof. intros H1 H2. eapply triple_bind; [by apply triple_silent|exact H2]. Qed.
Lemma triple_oob {X} I (J : X -> view -> Prop) : triple I (sm_oob : SM (World P N) X) J.
Proof. done. Qed.
Lemma triple_fail {X} I (J : X -> view -> Prop) : triple I (sm_fail : SM (World P N) X) J.
Proof. done. Qed.

Lemma silent_ret {X} (a : X) : silent (mret a : SM (World P N) X).
Proof. by intros w x w' [= <- <-]. Qed.
Lemma silent_bind {X Y} (m : SM (World P N) X) (f : X -> SM (World P N) Y) : silent m -> (forall a, silent (f a)) -> silent (m ≫= f).
Proof. intros H1 H2 w x w' E. apply sm_bind_Ok in E as (a & w1 & E1 & E2). etransitivity; [by eapply H2|by eapply H1]. Qed.
Lemma silent_get : silent (sm_get : SM (World P N) _).
Proof. by intros w x w' [= <- <-]. Qed.
Lemma silent_oob {X} : silent (sm_oob : SM (World P N) X).
Proof. done. Qed.
Lemma silent_fail {X} : silent (sm_fail : SM (World P N) X).
Proof. done. Qed.
Lemma silent_lift {X} (r : res X) : silent (sm_lift r : SM (World P N) X).
Proof. intros w x w'. unfold sm_lift. destruct r; cbn; [by intros [= <- <-]|done|done]. Qed.
Lemma silent_handle i : silent (get_handle i : SM (World P N) _).
Proof. apply silent_bind; [apply silent_get|]. intros w. destruct (w_handles w !! i); [apply silent_ret|apply silent_oob]. Qed.

Lemma get_handle_Ok i (w : World P N) h w' : get_handle i w = Ok (h, w') -> w' = w /\ w_handles w !! i = Some h.
Proof. unfold get_handle, sm_get, mbind, sm_bind. destruct (w_handles w !! i); [by intros [= <- <-]|done]. Qed.

Lemma modify_handle_Ok i f (w : World P N) x w' : modify_handle i f w = Ok (x, w') ->
  exists h, w_handles w !! i = Some h /\ w' = put_handles w (<[i := f h]> (w_handles w)).
Proof.
  intros E. apply sm_bind_Ok in E as (h & w1 & E1 & E2). apply get_handle_Ok in E1 as [-> Hh]. exists h. split; [done|]. by injection E2 as <- <-.
Qed.

Lemma view_insert (w : World P N) i h h' : w_handles w !! i = Some h -> handle_view h' = handle_view h ->
  map handle_view (<[i := h']> (w_handles w)) = map handle_view (w_handles w).
Proof.
  intros Hh Hv. rewrite list_map_insert. apply list_insert_id. rewrite Hv. change (map handle_view (w_handles w)) with (handle_view <$> w_handles w).
  by rewrite list_lookup_fmap, Hh.
Qed.

Lemma silent_modify_handle i (f : MQTTAsyncs P -> MQTTAsyncs P) : (forall h, handle_view (f h) = handle_view h) -> silent (modify_handle i f : SM (World P N) ()).
Proof.
  intros Hf w x w' E. apply modify_handle_Ok in E as (h & Hh & ->). unfold view_of. cbn. by rewrite (view_insert w i h (f h) Hh (Hf h)).
Qed.
Lemma silent_session {X} i (m : SM (St P N) X) : silent (on_session i m).
Proof.
  intros w x w' E. unfold on_session in E. destruct (w_handles w !! i) as [h|] eqn:Hh; [|done].
  destruct (m (session_of w h)) as [[y s]| |]; try done. injection E as <- <-. unfold view_of. cbn.
  by rewrite (view_insert w i h (with_session h (st_client s) (st_phandle s)) Hh).
Qed.
Lemma silent_emit e : freed_id e = None -> called_id e = None -> silent (emit e : SM (World P N) ()).
Proof. intros H1 H2 w x w' [= <- <-]. unfold view_of. cbn. rewrite !omap_app. cbn. by rewrite H1, H2, !app_nil_r. Qed.
Lemma silent_clock `{Transport N} : silent (clock : SM (World P N) Z).
Proof. intros w x w'. unfold clock. destruct (time_now (w_net w)). by intros [= <- <-]. Qed.
Lemma silent_modify (f : World P N -> World P N) : (forall w, view_of (f w) = view_of w) -> silent (sm_modify f).
Proof. intros H w x w' [= <- <-]. apply H. Qed.
End View.

(** Operations that are silent because all they call is. *)
Ltac silent1 :=
  lazymatch goal with
  | |- silent (mret _) => apply silent_ret
  | |- silent (_ ≫= _) => apply silent_bind; [|intros ?]
  | |- silent sm_get => apply silent_get
  | |- silent sm_oob => apply silent_oob
  | |- silent sm_fail => apply silent_fail
  | |- silent (sm_lift _) => apply silent_lift
  | |- silent (get_handle _) => apply silent_handle
  | |- silent (on_session _ _) => apply silent_session
  | |- silent (emit _) => apply silent_emit; reflexivity
  | |- silent clock => apply silent_clock
  | |- silent (modify_handle _ _) => apply silent_modify_handle; intros ?; reflexivity
  | |- silent (sm_modify _) => apply silent_modify; intros ?; reflexivity
  | |- silent (let '_ := ?x in _) => destruct x
  | |- silent (match ?x with _ => _ end) => destruct x
  | |- silent (if ?x then _ else _) => destruct x
  | |- _ => solve [eauto with silent]
  end.
Ltac silent := repeat silent1.
Create HintDb silent.

(** ** The invariant *)

Definition publishes_of (i : nat) (l : list queued) : Z := Zlen (List.filter (is_publish_of i) l).

(** The commands whose order counts, those that do not go to the head of the queue. *)
Definition in_order (i : nat) (q : queued) : bool := Nat.eqb (q_client q) i && negb (goes_first (q_command q)).
Definition order (i : nat) (l : list queued) : list Z := map q_id (List.filter (in_order i) l).
Definition response_ids (h : list queued * Z) : list Z := map q_id (fst h).
Definition held (v : view) : list Z := map q_id (v_queue v) ++ concat (map response_ids (v_handles v)) ++ v_freed v.

(** [hand] are the structures an operation is working on, with whether their callback has
    been called, and [off] by how much the counters are behind. *)
Record inv (off : nat -> Z) (hand : list (Z * bool)) (v : view) : Prop := {
  i_ids : held v ++ map fst hand ≡ₚ seqZ 0 (v_next v);
  i_next : 0 <= v_next v;
  i_taken : Forall (fun q => q_id q < v_next v) (v_taken v);
  i_called : NoDup (v_called v);
  i_told : forall id, id ∈ v_called v -> id ∈ v_freed v \/ (id, true) ∈ hand;
  i_count : forall i r n, v_handles v !! i = Some (r, n) -> n = publishes_of i (v_queue v) - off i;
  i_order : forall i, StronglySorted Z.lt (order i (v_taken v) ++ order i (v_queue v))
}.

Definition set_queue (v : view) (l : list queued) : view := mkView l (v_handles v) (v_next v) (v_taken v) (v_freed v) (v_called v).
Definition set_handles (v : view) (l : list (list queued * Z)) : view := mkView (v_queue v) l (v_next v) (v_taken v) (v_freed v) (v_called v).
Definition set_taken (v : view) (l : list queued) : view := mkView (v_queue v) (v_handles v) (v_next v) l (v_freed v) (v_called v).
Definition set_freed (v : view) (l : list Z) : view := mkView (v_queue v) (v_handles v) (v_next v) (v_taken v) l (v_called v).
Definition set_called (v : view) (l : list Z) : view := mkView (v_queue v) (v_handles v) (v_next v) (v_taken v) (v_freed v) l.
Definition set_next (v : view) (n : Z) : view := mkView (v_queue v) (v_handles v) n (v_taken v) (v_freed v) (v_called v).

Ltac vcbn := cbn [v_queue v_handles v_next v_taken v_freed v_called set_queue set_handles set_taken set_freed set_called set_next map fst].

Lemma inv_ext off off' hand v : (forall i, off' i = off i) -> inv off hand v -> inv off' hand v.
Proof. intros H []. split; try done. intros i r n E. rewrite H. eauto. Qed.

Lemma ids_nodup off hand v : inv off hand v -> NoDup (held v ++ map fst hand).
Proof. intros H. rewrite (i_ids _ _ _ H). apply NoDup_seqZ. Qed.

Lemma perm_hand (A B F H : list Z) x : A ++ B ++ F ++ x :: H ≡ₚ x :: A ++ B ++ F ++ H.
Proof. by rewrite !Permutation_middle. Qed.

Lemma ids_of v (hand : list (Z * bool)) x : held v ++ x :: map fst hand ≡ₚ x :: held v ++ map fst hand.
Proof. by rewrite Permutation_middle. Qed.

(** A structure in hand is freed, or its callback is called. *)
Lemma inv_free off id b hand v : inv off ((id, b) :: hand) v -> inv off hand (set_freed v (v_freed v ++ [id])).
Proof.
  intros H. destruct H as [H1 H2 H3 H4 H5 H6 H7]. split; try done.
  - etransitivity; [|exact H1]. unfold held. cbn. rewrite <- !app_assoc. cbn. done.
  - intros x Hx. destruct (H5 x Hx) as [Hf|Hf].
    + left. apply elem_of_app. by left.
    + apply elem_of_cons in Hf as [[= -> ->]|Hf]; [left; apply elem_of_app; right; by apply list_elem_of_singleton|by right].
Qed.

Lemma inv_call off id hand v : inv off ((id, false) :: hand) v -> inv off ((id, true) :: hand) (set_called v (v_called v ++ [id])).
Proof.
  intros H. pose proof (ids_nodup _ _ _ H) as Hnd. destruct H as [H1 H2 H3 H4 H5 H6 H7]. cbn [map fst] in Hnd. rewrite ids_of in Hnd.
  apply NoDup_cons in Hnd as [Hni _]. assert (id ∉ v_called v) as Hnc.
  { intros Hx. apply Hni. apply elem_of_app. destruct (H5 id Hx) as [Hf|Hf].
    - left. unfold held. rewrite !elem_of_app. tauto.
    - right. apply elem_of_cons in Hf as [?|Hf]; [done|]. apply list_elem_of_fmap. by exists (id, true). }
  split; try done.
  - apply NoDup_app. split; [done|]. split; [|apply NoDup_singleton]. intros x Hx ->%list_elem_of_singleton. done.
  - intros x Hx. apply elem_of_app in Hx as [Hx|Hx%list_elem_of_singleton].
    + destruct (H5 x Hx) as [Hf|Hf]; [by left|]. right. apply elem_of_cons in Hf as [?|Hf]; [done|]. by right.
    + right. subst. by left.
Qed.

Lemma inv_new off hand v : inv off hand v -> inv off ((v_next v, false) :: hand) (set_next v (v_next v + 1)).
Proof.
  intros [H1 H2 H3 H4 H5 H6 H7]. split; try done.
  - change (held (set_next v (v_next v + 1))) with (held v). cbn [map fst v_next set_next]. rewrite ids_of, H1.
    rewrite seqZ_app by lia. rewrite Z.add_0_l. change (seqZ (v_next v) 1) with [v_next v]. by rewrite <- Permutation_cons_append.
  - cbn. lia.
  - cbn. eapply Forall_impl; [exact H3|]. cbn. lia.
  - intros x Hx. destruct (H5 x Hx) as [?|?]; [by left|]. right. by right.
Qed.

(** Changes of the queue. *)
Definition bump (off : nat -> Z) (d : Z) (q : queued) (i : nat) : Z := if is_publish_of i q then off i + d else off i.

Lemma publishes_app i l l' : publishes_of i (l ++ l') = publishes_of i l + publishes_of i l'.
Proof. unfold publishes_of. by rewrite List.filter_app, Zlen_app. Qed.
Lemma publishes_cons i q l : publishes_of i (q :: l) = (if is_publish_of i q then 1 else 0) + publishes_of i l.
Proof. unfold publishes_of. cbn [List.filter]. destruct (is_publish_of i q); [by rewrite Zlen_cons|lia]. Qed.
Lemma order_app i l l' : order i (l ++ l') = order i l ++ order i l'.
Proof. unfold order. by rewrite List.filter_app, map_app. Qed.
Lemma order_cons i q l : order i (q :: l) = (if in_order i q then [q_id q] else []) ++ order i l.
Proof. unfold order. cbn [List.filter]. by destruct (in_order i q). Qed.

Lemma sorted_snoc l x : StronglySorted Z.lt l -> Forall (fun y => y < x) l -> StronglySorted Z.lt (l ++ [x]).
Proof.
  induction 1 as [|y l Hs IH Hf]; cbn; intros Hl; [by repeat constructor|]. apply Forall_cons in Hl as [Hy Hl].
  constructor; [by apply IH|]. apply Forall_app. split; [done|]. by repeat constructor.
Qed.
Lemma sorted_middle l x l' : StronglySorted Z.lt (l ++ x ++ l') -> StronglySorted Z.lt (l ++ l').
Proof.
  induction l as [|y l IH]; cbn.
  - induction x as [|z x IHx]; cbn; [done|]. intros H. apply IHx. by apply StronglySorted_inv in H as [H _].
  - intros H. apply StronglySorted_inv in H as [H Hf]. constructor; [by apply IH|]. apply Forall_app in Hf as [Hf1 Hf2].
    apply Forall_app in Hf2 as [_ Hf2]. apply Forall_app. by split.
Qed.

Lemma inv_append off q b hand v :
  inv off ((q_id q, b) :: hand) v -> b = false ->
  (goes_first (q_command q) = false -> Forall (fun x => x < q_id q) (order (q_client q) (v_taken v) ++ order (q_client q) (v_queue v))) ->
  inv (bump off 1 q) hand (set_queue v (v_queue v ++ [q])).
Proof.
  intros [H1 H2 H3 H4 H5 H6 H7] -> Hn. split; try done.
  - etransitivity; [|exact H1]. unfold held. cbn. rewrite map_app, <- !app_assoc. cbn. rewrite Permutation_middle. by rewrite !perm_hand, !Permutation_middle.
  - intros x Hx. destruct (H5 x Hx) as [?|Hf]; [by left|]. apply elem_of_cons in Hf as [?|?]; [done|by right].
  - intros i r n E. rewrite (H6 i r n E). vcbn. rewrite publishes_app, publishes_cons. unfold bump. change (publishes_of i []) with 0.
    destruct (is_publish_of i q); lia.
  - intros i. vcbn. rewrite order_app, order_cons. change (order i []) with (@nil Z). rewrite app_nil_r, app_assoc.
    unfold in_order. destruct (Nat.eqb_spec (q_client q) i) as [<-|]; cbn [andb]; [|by rewrite app_nil_r].
    destruct (goes_first (q_command q)) eqn:E; cbn [negb]; [by rewrite app_nil_r|]. apply sorted_snoc; [done|by apply Hn].
Qed.

Lemma first_kind q : goes_first (q_command q) = true -> forall i, is_publish_of i q = false /\ in_order i q = false.
Proof.
  intros H i. unfold is_publish_of, in_order, q_type, c_type. rewrite H, andb_false_r. split; [|done].
  unfold goes_first in H. destruct (c_details (q_command q)); try discriminate H; by rewrite andb_false_r.
Qed.

Lemma inv_insert off q hand v :
  inv off ((q_id q, false) :: hand) v -> goes_first (q_command q) = true -> inv off hand (set_queue v (q :: v_queue v)).
Proof.
  intros [H1 H2 H3 H4 H5 H6 H7] Hq. split; try done.
  - etransitivity; [|exact H1]. unfold held. cbn. by rewrite !Permutation_middle.
  - intros x Hx. destruct (H5 x Hx) as [?|Hf]; [by left|]. apply elem_of_cons in Hf as [?|?]; [done|by right].
  - intros i r n E. rewrite (H6 i r n E). vcbn. rewrite publishes_cons. destruct (first_kind q Hq i) as [-> _]. lia.
  - intros i. vcbn. rewrite order_cons. destruct (first_kind q Hq i) as [_ ->]. done.
Qed.

Lemma inv_remove off q pre post hand v :
  v_queue v = pre ++ q :: post -> inv off hand v -> inv (bump off (-1) q) ((q_id q, false) :: hand) (set_queue v (pre ++ post)).
Proof.
  intros Hq [H1 H2 H3 H4 H5 H6 H7]. split; try done.
  - etransitivity; [|exact H1]. unfold held. cbn. rewrite Hq, !map_app. cbn. rewrite <- !app_assoc. cbn. by rewrite !Permutation_middle.
  - intros x Hx. destruct (H5 x Hx) as [?|Hf]; [by left|]. right. by right.
  - intros i r n E. rewrite (H6 i r n E). vcbn. rewrite Hq, !publishes_app, publishes_cons. unfold bump. destruct (is_publish_of i q); lia.
  - intros i. vcbn. specialize (H7 i). rewrite Hq, order_app, order_cons in H7. rewrite order_app. rewrite app_assoc in H7 |- *. by eapply sorted_middle.
Qed.

Lemma inv_take off q pre post hand v :
  v_queue v = pre ++ q :: post -> Forall (fun q' => q_client q' <> q_client q) pre -> inv off hand v ->
  inv (bump off (-1) q) ((q_id q, false) :: hand) (set_taken (set_queue v (pre ++ post)) (v_taken v ++ [q])).
Proof.
  intros Hq Hpre H. pose proof (inv_remove off q pre post hand v Hq H) as [H1 H2 H3 H4 H5 H6 _].
  assert (q_id q < v_next v) as Hid.
  { assert (q_id q ∈ seqZ 0 (v_next v)) as Hin; [|apply elem_of_seqZ in Hin; lia]. rewrite <- (i_ids _ _ _ H). unfold held. rewrite Hq, map_app. cbn.
    rewrite !elem_of_app, elem_of_cons. tauto. }
  split; try done.
  - cbn. apply Forall_app. split; [apply (i_taken _ _ _ H)|by repeat constructor].
  - intros i. vcbn. pose proof (i_order _ _ _ H i) as Ho. rewrite Hq, order_app, order_cons in Ho. rewrite !order_app, order_cons.
    change (order i []) with (@nil Z). rewrite app_nil_r. unfold in_order in *. destruct (Nat.eqb_spec (q_client q) i) as [E|]; cbn [andb] in *.
    + assert (order i pre = []) as Hp.
      { unfold order. rewrite <- E. clear - Hpre. induction Hpre as [|x l Hx _ IH]; [done|]. cbn [List.filter]. unfold in_order at 1.
        destruct (Nat.eqb_spec (q_client x) (q_client q)); [done|]. cbn [andb]. exact IH. }
      rewrite Hp in Ho |- *. cbn [app] in *. by rewrite <- app_assoc.
    + cbn [app] in Ho. by rewrite app_nil_r.
Qed.

(** Changes of one handle: its counter, and its responses. *)
Definition shift (off : nat -> Z) (i : nat) (d : Z) (j : nat) : Z := if Nat.eqb j i then off j + d else off j.

Lemma concat_insert {X} (f : X -> list Z) (l : list X) i x y :
  l !! i = Some x -> concat (map f (<[i := y]> l)) ++ f x ≡ₚ concat (map f l) ++ f y.
Proof.
  intros H. rewrite <- (take_drop_middle l i x H) at 2. rewrite insert_take_drop by (by eapply lookup_lt_Some).
  rewrite !map_app, !concat_app. cbn [map concat]. rewrite <- !app_assoc. apply Permutation_app_head.
  rewrite (Permutation_app_comm (f y)), (Permutation_app_comm (f x)). rewrite <- !app_assoc. apply Permutation_app_head, Permutation_app_comm.
Qed.

(** A structure is counted in a handle and in the hand in the same way. *)
Lemma inv_handle off hand hand' v i r n r' n' d :
  v_handles v !! i = Some (r, n) -> inv off hand v -> n' = n - d ->
  map q_id r' ++ map fst hand' ≡ₚ map q_id r ++ map fst hand ->
  (forall id, (id, true) ∈ hand -> (id, true) ∈ hand') ->
  inv (shift off i d) hand' (set_handles v (<[i := (r', n')]> (v_handles v))).
Proof.
  intros Hi [H1 H2 H3 H4 H5 H6 H7] -> Hp Ht. split; try done.
  - etransitivity; [|exact H1]. unfold held. vcbn. set (Q := map q_id (v_queue v)). set (F := v_freed v).
    pose proof (concat_insert response_ids (v_handles v) i (r, n) (r', n - d) Hi) as Hc. unfold response_ids at 2 4 in Hc. cbn [fst] in Hc.
    rewrite <- !app_assoc. apply Permutation_app_head.
    apply (Permutation_app_inv_r (map q_id r)). set (C := concat _) in Hc |- *. set (C' := concat (map response_ids (v_handles v))) in Hc |- *.
    transitivity ((C ++ map q_id r) ++ F ++ map fst hand').
    + rewrite <- !app_assoc. apply Permutation_app_head. rewrite (Permutation_app_comm (map q_id r)). by rewrite <- !app_assoc.
    + rewrite Hc. rewrite <- !app_assoc. apply Permutation_app_head. rewrite (Permutation_app_comm (map q_id r')), <- !app_assoc. apply Permutation_app_head.
      rewrite (Permutation_app_comm (map fst hand')), Hp. by rewrite Permutation_app_comm.
  - intros x Hx. destruct (H5 x Hx) as [?|?]; [by left|right; by apply Ht].
  - intros j r0 n0. vcbn. unfold shift. destruct (Nat.eqb_spec j i) as [->|Hne].
    + rewrite list_lookup_insert_eq by (by eapply lookup_lt_Some). intros [= <- <-]. rewrite (H6 i r n Hi). lia.
    + rewrite list_lookup_insert_ne by done. apply H6.
Qed.

Lemma inv_counter off hand v i r n d :
  v_handles v !! i = Some (r, n) -> inv off hand v -> inv (shift off i d) hand (set_handles v (<[i := (r, n - d)]> (v_handles v))).
Proof. intros Hi H. by apply (inv_handle off hand hand v i r n r (n - d) d). Qed.

Lemma shift_zero off i : forall j, off j = shift off i 0 j.
Proof. intros j. unfold shift. destruct (Nat.eqb j i); lia. Qed.

Lemma inv_respond off hand v i r n q :
  v_handles v !! i = Some (r, n) -> inv off ((q_id q, false) :: hand) v -> inv off hand (set_handles v (<[i := (r ++ [q], n)]> (v_handles v))).
Proof.
  intros Hi H. apply (inv_ext (shift off i 0)); [apply shift_zero|].
  eapply (inv_handle off ((q_id q, false) :: hand) hand) with (n := n); [exact Hi|exact H|lia| |].
  - rewrite map_app. cbn [map fst]. rewrite <- app_assoc. cbn [app]. done.
  - intros id Hid. apply elem_of_cons in Hid as [?|?]; done.
Qed.

Lemma inv_unrespond off hand v i pre post n q :
  v_handles v !! i = Some (pre ++ q :: post, n) -> inv off hand v -> inv off ((q_id q, false) :: hand) (set_handles v (<[i := (pre ++ post, n)]> (v_handles v))).
Proof.
  intros Hi H. apply (inv_ext (shift off i 0)); [apply shift_zero|].
  eapply (inv_handle off hand) with (n := n); [exact Hi|exact H|lia| |].
  - rewrite !map_app. cbn [map fst]. rewrite <- !app_assoc. apply Permutation_app_head. cbn [app]. by rewrite Permutation_middle.
  - intros id Hid. by right.
Qed.

Lemma inv_same_ids off hand v i r r' n :
  v_handles v !! i = Some (r, n) -> map q_id r' = map q_id r -> inv off hand v -> inv off hand (set_handles v (<[i := (r', n)]> (v_handles v))).
Proof.
  intros Hi Hr H. apply (inv_ext (shift off i 0)); [apply shift_zero|]. eapply (inv_handle off hand) with (n := n); [exact Hi|exact H|lia|by rewrite Hr|done].
Qed.

(** ** Steps on the view *)

Lemma unlink_items {X} (f : X -> bool) (l : AList.t X) :
  match AList.unlink f l with
  | (Some x, l') => exists pre post, AList.items l = pre ++ x :: post /\ f x = true /\ AList.items l' = pre ++ post
  | (None, l') => l' = l /\ Forall (fun x => f x = false) (AList.items l)
  end.
Proof.
  unfold AList.unlink. pose proof (AList.find_spec f l) as H. destruct (AList.find f l) as [[i|] l0]; cbn [fst].
  - destruct H as [Hh _]. apply AList.holds_lookup in Hh as (x & Hx & Hf). rewrite Hx.
    exists (take i (AList.items l)), (drop (S i) (AList.items l)). split; [by rewrite take_drop_middle|]. split; [done|]. cbn. apply delete_take_drop.
  - destruct H as [H _]. split; [done|]. apply Forall_lookup. intros i x Hx. specialize (H i). unfold AList.holds in H. by rewrite Hx in H.
Qed.

Lemma insert_before_items {X} (x : X) (l : AList.t X) : AList.items (AList.insert_before 0 x l) = x :: AList.items l.
Proof. unfold AList.insert_before. cbn. by rewrite drop_0. Qed.

(** The structure with an identifier is the only one. *)
Lemma split_unique (pre post pre' post' : list queued) q q' :
  NoDup (map q_id (pre ++ q :: post)) -> pre ++ q :: post = pre' ++ q' :: post' -> q_id q' = q_id q -> pre = pre' /\ q = q' /\ post = post'.
Proof.
  revert pre'. induction pre as [|x pre IH]; intros [|x' pre'] Hnd E Hid; cbn in *.
  - injection E as -> ->. done.
  - injection E as <- E. apply NoDup_cons in Hnd as [Hn _]. destruct Hn. rewrite E, map_app. apply elem_of_app. right. cbn. rewrite Hid. by left.
  - injection E as -> E. apply NoDup_cons in Hnd as [Hn _]. destruct Hn. rewrite map_app. apply elem_of_app. right. cbn. rewrite <- Hid. by left.
  - injection E as <- E. apply NoDup_cons in Hnd as [_ Hnd]. by destruct (IH pre' Hnd E Hid) as (-> & -> & ->).
Qed.

Lemma queue_nodup off hand v : inv off hand v -> NoDup (map q_id (v_queue v)).
Proof. intros H. apply ids_nodup in H. unfold held in H. rewrite <- app_assoc in H. by apply NoDup_app in H as [H _]. Qed.
Lemma responses_nodup off hand v i r n : inv off hand v -> v_handles v !! i = Some (r, n) -> NoDup (map q_id r).
Proof.
  intros H Hi. apply ids_nodup in H. unfold held in H. rewrite <- !app_assoc in H. apply NoDup_app in H as (_ & _ & H). apply NoDup_app in H as [H _].
  rewrite <- (take_drop_middle _ _ _ Hi), map_app, concat_app in H. cbn [map concat] in H. apply NoDup_app in H as (_ & _ & H). by apply NoDup_app in H as [H _].
Qed.

Section Steps.
Context {P N : Type} {PO : PersistenceOps P} {NT : Transport N} {NC : Connector N}.
Abbreviation A := (SM (World P N)).
Implicit Types off : nat -> Z.
Implicit Types hand : list (Z * bool).

Lemma view_handles (w : World P N) i h : w_handles w !! i = Some h -> v_handles (view_of w) !! i = Some (handle_view h).
Proof. intros H. cbn. change (map handle_view (w_handles w)) with (handle_view <$> w_handles w). by rewrite list_lookup_fmap, H. Qed.

Lemma triple_free off hand (q : queued) b :
  triple (P:=P) (N:=N) (inv off ((q_id q, b) :: hand)) (MQTTAsync_freeCommand q) (fun _ => inv off hand).
Proof.
  intros w x w' [= <- <-] H. apply inv_free in H. unfold view_of in *. cbn in *. rewrite !omap_app. cbn. by rewrite app_nil_r.
Qed.

Lemma triple_success off hand i id t :
  triple (P:=P) (N:=N) (inv off ((id, false) :: hand)) (emit (EvSuccess i id t)) (fun _ => inv off ((id, true) :: hand)).
Proof. intros w x w' [= <- <-] H. apply inv_call in H. unfold view_of in *. cbn in *. rewrite !omap_app. cbn. by rewrite app_nil_r. Qed.
Lemma triple_failure off hand i id t code :
  triple (P:=P) (N:=N) (inv off ((id, false) :: hand)) (emit (EvFailure i id t code)) (fun _ => inv off ((id, true) :: hand)).
Proof. intros w x w' [= <- <-] H. apply inv_call in H. unfold view_of in *. cbn in *. rewrite !omap_app. cbn. by rewrite app_nil_r. Qed.

(** A structure newer than all those whose order counts. *)
Definition newest (id : Z) (v : view) : Prop := forall i, Forall (fun x => x < id) (order i (v_taken v) ++ order i (v_queue v)).

Lemma order_below i l n : Forall (fun q => q_id q < n) l -> Forall (fun x => x < n) (order i l).
Proof.
  induction 1 as [|q l Hq _ IH]; [constructor|]. rewrite order_cons. destruct (in_order i q); [by constructor|done].
Qed.

Lemma next_newest off hand v : inv off hand v -> newest (v_next v) v.
Proof.
  intros H i. apply Forall_app. split; apply order_below; [apply (i_taken _ _ _ H)|]. apply Forall_forall. intros q Hq.
  assert (q_id q ∈ seqZ 0 (v_next v)) as Hin; [|apply elem_of_seqZ in Hin; lia]. rewrite <- (i_ids _ _ _ H). unfold held.
  rewrite !elem_of_app. do 2 left. apply list_elem_of_fmap. by exists q.
Qed.

Lemma triple_new off hand :
  triple (P:=P) (N:=N) (inv off hand) new_structure (fun id v => inv off ((id, false) :: hand) v /\ newest id v).
Proof.
  intros w x w' E H. unfold new_structure in E. cbn in E. injection E as <- <-. split; [by apply inv_new in H|]. by apply next_newest in H.
Qed.

Lemma triple_commands I (f : AList.t queued -> AList.t queued) (J : view -> Prop) :
  (forall (l : AList.t queued) v, v_queue v = AList.items l -> I v -> J (set_queue v (AList.items (f l)))) ->
  triple (P:=P) (N:=N) I (modify_commands f) (fun _ => J).
Proof. intros H w x w' [= <- <-] HI. apply (H (w_commands w) (view_of w)); done. Qed.

Lemma triple_modify I i (f : MQTTAsyncs P -> MQTTAsyncs P) (J : view -> Prop) :
  (forall h v, v_handles v !! i = Some (handle_view h) -> I v -> J (set_handles v (<[i := handle_view (f h)]> (v_handles v)))) ->
  triple (P:=P) (N:=N) I (modify_handle i f) (fun _ => J).
Proof.
  intros H w x w' E HI. apply modify_handle_Ok in E as (h & Hh & ->). specialize (H h (view_of w) (view_handles w i h Hh) HI).
  unfold view_of, set_handles in *. cbn in *. by rewrite list_map_insert.
Qed.

(** Reading what the view shows. *)
Lemma triple_get {X} I (f : World P N -> A X) K :
  (forall w, triple (fun v => v = view_of w /\ I v) (f w) K) -> triple I (w ← sm_get; f w) K.
Proof. intros H w x w' E HI. apply (H w w x w' E). done. Qed.
Lemma triple_handle {X} I i (f : MQTTAsyncs P -> A X) K :
  (forall h, triple (fun v => v_handles v !! i = Some (handle_view h) /\ I v) (f h) K) -> triple I (h ← get_handle i; f h) K.
Proof.
  intros H w x w' E HI. apply sm_bind_Ok in E as (h & w1 & E1 & E2). apply get_handle_Ok in E1 as [-> Hh].
  apply (H h w x w' E2). split; [by apply view_handles|done].
Qed.

(** *** Silent operations *)

Lemma silent_can_process q : silent (P:=P) (N:=N) (can_process q).
Proof. unfold can_process. silent. Qed.
#[local] Hint Resolve silent_can_process : silent.
Lemma silent_choose l ign : silent (P:=P) (N:=N) (choose_command l ign).
Proof. revert ign. induction l as [|q l IH]; intros ign; cbn [choose_command]; silent; apply IH. Qed.
Lemma silent_persist_added q : silent (P:=P) (N:=N) (persist_added q).
Proof. unfold persist_added. silent. Qed.
Lemma silent_restore_taken q : silent (P:=P) (N:=N) (restore_taken q).
Proof. unfold restore_taken. silent. Qed.
Lemma silent_startConnectRetry R i : silent (P:=P) (N:=N) (MQTTAsync_startConnectRetry R i).
Proof. unfold MQTTAsync_startConnectRetry. silent. Qed.
Lemma silent_lost_connection i c : silent (P:=P) (N:=N) (lost_connection i c).
Proof. unfold lost_connection. silent. Qed.
Lemma silent_elapsed t : silent (P:=P) (N:=N) (MQTTTime_elapsed t).
Proof. unfold MQTTTime_elapsed. silent. Qed.
Lemma silent_connect_failed i c : silent (P:=P) (N:=N) (connect_failed i c).
Proof. unfold connect_failed. silent. Qed.
Lemma silent_connect_succeeded i : silent (P:=P) (N:=N) (connect_succeeded i).
Proof. unfold connect_succeeded. silent. Qed.

Lemma silent_assign i : silent (P:=P) (N:=N) (MQTTAsync_assignMsgId i).
Proof.
  intros w x w' E. unfold MQTTAsync_assignMsgId in E. apply sm_bind_Ok in E as (h & w1 & E1 & E). apply get_handle_Ok in E1 as [-> Hh].
  apply sm_bind_Ok in E as (w1 & w2 & [= <- <-] & E).
  destruct (assign_id_loop _ _ _ _) as [[id l]|] eqn:Hl; [|done]. apply assign_same in Hl as (H1 & H2 & H3). cbn in H1, H3.
  apply sm_bind_Ok in E as ([] & w1 & [= <-] & E). apply sm_bind_Ok in E as ([] & w2 & E2 & [= <- <-]).
  apply modify_handle_Ok in E2 as (h' & Hh' & ->). cbn in Hh'. assert (h' = h) as -> by congruence.
  unfold view_of. cbn. rewrite (view_insert w i h _ Hh); [by rewrite H1|]. unfold handle_view. cbn. by rewrite H3.
Qed.
End Steps.

#[export] Hint Resolve silent_can_process silent_choose silent_persist_added silent_restore_taken silent_startConnectRetry
  silent_lost_connection silent_elapsed silent_connect_failed silent_connect_succeeded silent_assign : silent.

(** One step of the proof of a triple over a sequence of operations. *)
Ltac skip := eapply triple_skip; [solve [silent]|intros ?].

Section Operations.
Context {P N : Type} {PO : PersistenceOps P} {NT : Transport N} {NC : Connector N}.
Abbreviation A := (SM (World P N)).
Implicit Types off : nat -> Z.
Implicit Types hand : list (Z * bool).
Context (RAND_MAX : Z) (px : proxies) (stale_mask : list Z).

(** *** Freeing *)

Lemma triple_fail_command off hand code (q : queued) :
  triple (P:=P) (N:=N) (inv off ((q_id q, false) :: hand)) (fail_command code q) (fun _ v => exists b, inv off ((q_id q, b) :: hand) v).
Proof.
  unfold fail_command. destruct (_ || _).
  - eapply triple_weaken; [apply triple_failure|done|]. intros a v H. by exists true.
  - apply triple_ret. intros v H. by exists false.
Qed.

Lemma triple_free_any off hand (q : queued) :
  triple (P:=P) (N:=N) (fun v => exists b, inv off ((q_id q, b) :: hand) v) (MQTTAsync_freeCommand q) (fun _ => inv off hand).
Proof. intros w x w' E [b H]. by eapply triple_free. Qed.

(** All the structures of a list in hand are freed. *)
Definition in_hand (l : list queued) : list (Z * bool) := map (fun q => (q_id q, false)) l.
Lemma triple_fail_all off hand l :
  triple (P:=P) (N:=N) (inv off (in_hand l ++ hand)) (fail_all l) (fun _ => inv off hand).
Proof.
  induction l as [|q l IH]; cbn [fail_all in_hand map app]; [by apply triple_ret|].
  eapply triple_bind; [apply triple_fail_command|]. intros ?. eapply triple_bind; [apply triple_free_any|]. intros ?. exact IH.
Qed.

(** The responses are taken in hand when they are freed, and are gone afterwards. *)
Lemma inv_drop_responses off hand v i r n :
  v_handles v !! i = Some (r, n) -> inv off hand v -> inv off (in_hand r ++ hand) (set_handles v (<[i := ([], n)]> (v_handles v))).
Proof.
  intros Hi H. apply (inv_ext (shift off i 0)); [apply shift_zero|]. eapply (inv_handle off hand) with (n := n); [exact Hi|exact H|lia| |].
  - unfold in_hand. rewrite map_app, List.map_map. done.
  - intros id Hid. apply elem_of_app. by right.
Qed.

(** What [fail_all] adds to the events does not depend on the state. *)
Definition fail_events (l : list queued) : list event :=
  concat (map (fun q => (if c_onFailure (q_command q) || c_onFailure5 (q_command q)
                         then [EvFailure (q_client q) (q_id q) (c_token (q_command q)) MQTTASYNC_OPERATION_INCOMPLETE] else [])
                        ++ [EvFree (q_id q)]) l).
Lemma fail_all_eq l (w : World P N) : fail_all l w = Ok ((), put_events w (w_events w ++ fail_events l)).
Proof.
  revert w. induction l as [|q l IH]; intros w; cbn [fail_all fail_events map concat].
  - rewrite app_nil_r. by destruct w.
  - unfold fail_command. destruct (_ || _); unfold mbind, sm_bind, emit, sm_modify, MQTTAsync_freeCommand, mret, sm_ret, emit, sm_modify;
      rewrite IH; cbn; by rewrite <- ?app_assoc.
Qed.

Lemma triple_freeResponses off hand i : triple (P:=P) (N:=N) (inv off hand) (MQTTAsync_freeResponses i) (fun _ => inv off hand).
Proof.
  intros w x w' E H. unfold MQTTAsync_freeResponses in E. apply sm_bind_Ok in E as (h & w1 & E1 & E). apply get_handle_Ok in E1 as [-> Hh].
  apply sm_bind_Ok in E as ([] & w1 & E1 & E). rewrite fail_all_eq in E1. injection E1 as <-.
  apply modify_handle_Ok in E as (h' & Hh' & ->). cbn in Hh'. assert (h' = h) as -> by congruence.
  pose proof (inv_drop_responses _ _ _ _ _ _ (view_handles w i h Hh) H) as H0.
  set (w0 := put_handles w (<[i := with_responses h AList.empty]> (w_handles w))).
  assert (view_of w0 = set_handles (view_of w) (<[i := ([], a_noBufferedMessages h)]> (v_handles (view_of w)))) as E0
    by (unfold view_of, w0, set_handles; cbn; by rewrite list_map_insert).
  rewrite <- E0 in H0. exact (triple_fail_all off hand _ w0 _ _ (fail_all_eq _ w0) H0).
Qed.

(** *** Sessions *)

Definition zero : nat -> Z := fun _ => 0.
Definition keeps {X} (m : A X) : Prop := forall hand, triple (inv zero hand) m (fun _ => inv zero hand).

Lemma keeps_freeResponses i : keeps (MQTTAsync_freeResponses i).
Proof. intros hand. apply triple_freeResponses. Qed.
Lemma keeps_bind {X Y} (m : A X) (f : X -> A Y) : keeps m -> (forall a, keeps (f a)) -> keeps (m ≫= f).
Proof. intros H1 H2 hand. eapply triple_bind; [apply H1|]. intros a. apply H2. Qed.
Lemma keeps_silent {X} (m : A X) : silent m -> keeps m.
Proof. intros H hand. by apply triple_silent. Qed.
End Operations.

Create HintDb keeps.
#[export] Hint Resolve keeps_freeResponses : keeps.
Ltac keeps1 :=
  lazymatch goal with
  | |- keeps (mret _) => apply keeps_silent, silent_ret
  | |- keeps (_ ≫= _) => apply keeps_bind; [|intros ?]
  | |- keeps (let '_ := ?x in _) => destruct x
  | |- keeps (match ?x with _ => _ end) => destruct x
  | |- keeps (if ?x then _ else _) => destruct x
  | |- _ => first [solve [eauto with keeps] | apply keeps_silent; solve [silent]]
  end.
Ltac keeps := repeat keeps1.

Section Adding.
Context {P N : Type} {PO : PersistenceOps P} {NT : Transport N} {NC : Connector N}.
Abbreviation A := (SM (World P N)).
Implicit Types hand : list (Z * bool).
Context (RAND_MAX : Z) (px : proxies) (stale_mask : list Z).

Lemma keeps_cleanSession i : keeps (P:=P) (N:=N) (MQTTAsync_cleanSession i).
Proof. unfold MQTTAsync_cleanSession. keeps. Qed.
#[local] Hint Resolve keeps_cleanSession : keeps.
Lemma keeps_closeSession i r p : keeps (P:=P) (N:=N) (MQTTAsync_closeSession i r p).
Proof. unfold MQTTAsync_closeSession. keeps. Qed.
#[local] Hint Resolve keeps_closeSession : keeps.
Lemma keeps_checkDisconnect i c : keeps (P:=P) (N:=N) (MQTTAsync_checkDisconnect RAND_MAX i c).
Proof. unfold MQTTAsync_checkDisconnect. keeps. Qed.

(** *** Adding a command *)

Lemma find_publish (l : list queued) i q : In q l -> is_publish_of i q = true -> exists q', List.find (is_publish_of i) l = Some q'.
Proof.
  intros Hin Hq. destruct (List.find (is_publish_of i) l) eqn:E; [by eexists|]. apply (List.find_none _ _ E) in Hin. congruence.
Qed.

(** The queue without a structure that is in it. *)
Lemma triple_remove_structure off hand (q : queued) :
  triple (P:=P) (N:=N) (fun v => inv off hand v /\ q ∈ v_queue v) (modify_commands (fun l => snd (AList.unlink (same_structure q) l)))
    (fun _ => inv (bump off (-1) q) ((q_id q, false) :: hand)).
Proof.
  apply triple_commands. intros l v Hl [H Hq]. pose proof (unlink_items (same_structure q) l) as Hu. destruct (AList.unlink (same_structure q) l) as [[x|] l'].
  - destruct Hu as (pre & post & E & Hx & E'). cbn [snd]. rewrite E'. apply Z.eqb_eq in Hx. rewrite <- Hl in E.
    apply list_elem_of_split in Hq as (pre' & post' & E2). pose proof (queue_nodup _ _ _ H) as Hnd. rewrite E in Hnd.
    destruct (split_unique pre post pre' post' x q Hnd ltac:(congruence) ltac:(done)) as (-> & -> & ->). by eapply inv_remove.
  - destruct Hu as [-> Hf]. exfalso. rewrite Hl in Hq. rewrite Forall_forall in Hf. specialize (Hf q Hq). unfold same_structure in Hf. by rewrite Z.eqb_refl in Hf.
Qed.

Lemma bump_other q d : q_type q <> PUBLISH -> forall i, zero i = bump zero d q i.
Proof. intros H i. unfold bump, is_publish_of. destruct (Z.eqb_spec (q_type q) PUBLISH); [done|]. by rewrite andb_false_r. Qed.

(** The buffer after a PUBLISH at the end of the queue. *)
Lemma triple_count_publish hand (q : queued) :
  q_type q = PUBLISH ->
  triple (P:=P) (N:=N) (fun v => inv (bump zero 1 q) hand v /\ q ∈ v_queue v) (count_publish (q_client q)) (fun _ => inv zero hand).
Proof.
  intros Hq. assert (forall i, is_publish_of i q = Nat.eqb (q_client q) i) as Hpub by (intros i; unfold is_publish_of; by rewrite Hq, andb_true_r).
  unfold count_publish. apply triple_handle. intros h. destruct (buffer_full h).
  - unfold drop_oldest. apply triple_get. intros w. destruct (List.find _ _) as [q0|] eqn:Ef.
    + apply List.find_some in Ef as [Hin Hp0]. eapply triple_bind.
      { eapply triple_weaken; [apply (triple_remove_structure (bump zero 1 q) hand q0)|..]; [|done]. intros v (-> & _ & H & _). split; [done|]. by apply list_elem_of_In. }
      intros ?. eapply triple_bind; [apply triple_free|]. intros ?. apply triple_handle. intros h'. destruct (persistence (a_c h')); [apply triple_oob|].
      apply triple_ret. intros v [_ H]. eapply inv_ext; [|exact H]. intros i. unfold bump. rewrite Hpub.
      unfold is_publish_of in *. apply andb_true_iff in Hp0 as [Hc ->]. apply Nat.eqb_eq in Hc as ->. rewrite andb_true_r. by destruct (Nat.eqb (q_client q) i).
    + apply triple_ret. intros v (-> & _ & _ & Hin). apply list_elem_of_In in Hin. apply (List.find_none _ _ Ef) in Hin. by rewrite Hpub, Nat.eqb_refl in Hin.
  - apply triple_modify. intros h' v Hv (_ & H & _). cbn [handle_view with_buffered a_responses a_noBufferedMessages].
    pose proof (inv_counter _ _ _ _ _ _ (-1) Hv H) as H'. replace (a_noBufferedMessages h' - -1) with (a_noBufferedMessages h' + 1) in H' by lia. eapply inv_ext; [|exact H'].
    intros i. unfold shift, bump. rewrite Hpub, (Nat.eqb_sym i). destruct (Nat.eqb (q_client q) i); [|done]. done.
Qed.

(** What is added is the same structure. *)
Record same_command (q q' : queued) : Prop := {
  sc_id : q_id q' = q_id q;
  sc_client : q_client q' = q_client q;
  sc_type : q_type q' = q_type q;
  sc_first : goes_first (q_command q') = goes_first (q_command q)
}.
Lemma same_command_refl q : same_command q q.
Proof. done. Qed.

Lemma persistCommand_Ok v seqno q (p : P) rc seqno' q' p' : MQTTAsync_persistCommand v seqno q p = Ok (rc, seqno', q', p') ->
  q' = q \/ q' = set_cseqno q seqno' /\ is_Some (command_key v seqno').
Proof.
  unfold MQTTAsync_persistCommand. destruct (command_buffers v (q_command q)) as [[bufs|]| |]; cbn [mbind res_bind]; [|intros [= <- <- <- <-]; by left|done|done].
  destruct (if MQTTVERSION_5 <=? v then _ else _) as [[bufs' rc']| |]; cbn [mbind res_bind]; [|done|done].
  destruct (command_key v _) as [key|] eqn:Ek; [|intros [= <- <- <- <-]; by left]. destruct (call_beforeWrite bufs') as [? bufs2]. destruct (pput key bufs2 p).
  intros [= <- <- <- <-]. right. split; [done|]. by rewrite Ek.
Qed.

Lemma persist_added_Ok (q q' : queued) more (w w' : World P N) : persist_added q w = Ok ((q', more), w') -> q_cseqno q = 0 -> same_command q q' /\ more = true.
Proof.
  intros E H0. unfold persist_added in E. apply sm_bind_Ok in E as (h & w1 & E1 & E). destruct (negb _ || _); [by injection E as <- <- _|].
  apply sm_bind_Ok in E as ([[[rc seqno] q1] p] & w2 & E2 & E). unfold sm_lift in E2. destruct (MQTTAsync_persistCommand _ _ _ _) as [[[[rc' seqno'] q1'] p']| |] eqn:Ep; try done.
  injection E2 as <- <- <- <- <-. apply persistCommand_Ok in Ep. apply sm_bind_Ok in E as ([] & w3 & _ & E).
  assert (same_command q q1' /\ is_Some (command_key (Clients.MQTTVersion (a_c h)) (q_cseqno q1'))) as [Hs [key Hk]].
  { destruct Ep as [->|[-> Hk]]; [|by split]. split; [done|]. rewrite H0. eexists. by apply (command_key_fits _ 0). }
  destruct ((q_type q1' =? PUBLISH) && (rc' =? 0)) eqn:Et; [|by injection E as <- <- _]. rewrite Hk in E. injection E as <- <- _.
  apply andb_true_iff in Et as [Et%Z.eqb_eq _]. split; [|done]. destruct Hs as [S1 S2 S3 S4]. unfold strip, q_type, c_type in *.
  destruct (c_details (q_command q1')) eqn:Ed; try (by split). split; try done. unfold goes_first in *. by rewrite Ed in S4.
Qed.

Lemma add_first_inv hand (q : queued) :
  goes_first (q_command q) = true ->
  triple (P:=P) (N:=N) (inv zero ((q_id q, false) :: hand)) (add_first q) (fun _ => inv zero hand).
Proof.
  intros Hq w x w' E H. unfold add_first in E. apply sm_bind_Ok in E as (w0 & w1 & E0 & E). injection E0 as <- <-.
  match type of E with (if ?b then _ else _) _ = _ => destruct b end.
  { eapply triple_free; [exact E|exact H]. }
  pose proof (unlink_items (clientCompareConnectCommand q) (w_commands w)) as Hu. destruct (AList.unlink _ _) as [[old|] l].
  - destruct Hu as (pre & post & Ei & Hc & El). unfold MQTTAsync_freeCommand in E. apply sm_bind_Ok in E as ([] & w2 & E2 & E). injection E2 as <-. injection E as <- <-.
    assert (inv zero hand (set_queue (set_freed (set_queue (view_of w) (pre ++ post)) (v_freed (view_of w) ++ [q_id old])) (q :: pre ++ post))) as Hgoal.
    { apply (inv_insert zero q hand (set_freed (set_queue (view_of w) (pre ++ post)) (v_freed (view_of w) ++ [q_id old]))); [|done].
      apply (inv_free zero (q_id old) false _ (set_queue (view_of w) (pre ++ post))). eapply inv_ext; [|eapply inv_remove; [exact Ei|exact H]].
      apply bump_other. unfold clientCompareConnectCommand in Hc. intros Ht. rewrite Ht in Hc. cbn in Hc. by rewrite andb_false_r in Hc. }
    unfold view_of, set_queue, set_freed in *. cbn -[AList.insert_before] in *. rewrite !omap_app, insert_before_items, El. cbn in *. by rewrite app_nil_r.
  - destruct Hu as [-> _]. apply sm_bind_Ok in E as ([] & w2 & [= <-] & E). injection E as <- <-. pose proof (inv_insert _ _ _ _ H Hq) as Hgoal.
    unfold view_of, set_queue in *. cbn -[AList.insert_before] in *. by rewrite insert_before_items.
Qed.

Lemma add_command_inv hand (q : queued) :
  (goes_first (q_command q) = false -> q_cseqno q = 0) ->
  triple (P:=P) (N:=N) (fun v => inv zero ((q_id q, false) :: hand) v /\ (goes_first (q_command q) = false -> newest (q_id q) v))
    (MQTTAsync_addCommand q) (fun _ => inv zero hand).
Proof.
  intros H0. unfold MQTTAsync_addCommand. skip. eapply (triple_bind _ _ _ (fun q' v =>
    (inv zero ((q_id q, false) :: hand) v /\ (goes_first (q_command q) = false -> newest (q_id q) v)) /\ same_command q q' /\ q_cseqno q' = q_cseqno q)).
  { destruct (negb _ || _); [skip|]; apply triple_ret; intros v Hv; by repeat split; try apply Hv. }
  intros q1. apply triple_bind with (J := fun _ => inv zero hand); [|intros ?; by apply triple_ret].
  destruct (goes_first (q_command q1)) eqn:Ef.
  - intros w x w' E [[H _] [[S1 S2 S3 S4] _]]. eapply add_first_inv; [exact Ef|exact E|]. by rewrite S1.
  - intros w x w' E [[H Hn] [[S1 S2 S3 S4] Hc]]. rewrite Ef in S4. symmetry in S4. specialize (H0 S4). specialize (Hn S4). rewrite H0 in Hc.
    apply sm_bind_Ok in E as ([q2 more] & w1 & E1 & E). pose proof (persist_added_Ok _ _ _ _ _ E1 Hc) as [[T1 T2 T3 T4] ->].
    apply silent_persist_added in E1. rewrite <- E1 in H, Hn. apply sm_bind_Ok in E as ([] & w2 & E2 & E).
    assert (inv (bump zero 1 q2) hand (view_of w2) /\ q2 ∈ v_queue (view_of w2)) as Hin.
    { injection E2 as <-. unfold view_of. cbn. split; [|apply elem_of_app; right; by left].
      apply (inv_append zero q2 false hand (view_of w1)); [by rewrite T1, S1|done|]. intros _. rewrite T1, S1. apply Hn. }
    cbn [andb] in E. destruct (q_type q2 =? PUBLISH) eqn:Et.
    + apply Z.eqb_eq in Et. eapply triple_count_publish; [exact Et|exact E|exact Hin].
    + apply Z.eqb_neq in Et. injection E as <- <-. eapply inv_ext; [|apply Hin]. by apply bump_other.
Qed.

(** A structure just made, as it is given to [MQTTAsync_addCommand]. *)
Definition fresh (hand : list (Z * bool)) (q : queued) (v : view) : Prop :=
  (inv zero ((q_id q, false) :: hand) v /\ newest (q_id q) v) /\ q_cseqno q = 0.

Lemma triple_pure {X} (I : view -> Prop) (F : Prop) (m : SM (World P N) X) (J : X -> view -> Prop) :
  (F -> triple I m J) -> triple (fun v => I v /\ F) m J.
Proof. intros H w x w' E [HI HF]. by eapply H. Qed.

Lemma add_fresh hand (q : queued) : triple (P:=P) (N:=N) (fresh hand q) (MQTTAsync_addCommand q) (fun _ => inv zero hand).
Proof.
  apply triple_pure. intros H0. eapply triple_weaken; [by apply add_command_inv|by intros v [? ?]|done].
Qed.

Lemma add_new hand (f : Z -> A queued) :
  (forall id, triple (fun v => inv zero ((id, false) :: hand) v /\ newest id v) (f id) (fresh hand)) ->
  triple (P:=P) (N:=N) (inv zero hand) (id ← new_structure; q ← f id; MQTTAsync_addCommand q) (fun _ => inv zero hand).
Proof.
  intros H. eapply triple_bind; [apply triple_new|]. intros id. eapply triple_bind; [apply H|]. intros q. apply add_fresh.
Qed.

Lemma triple_new_command hand i c token r d :
  triple (P:=P) (N:=N) (inv zero hand) (new_command i c token r d) (fresh hand).
Proof.
  unfold new_command. eapply triple_bind; [apply triple_new|]. intros id. destruct r as [r|].
  - skip. apply triple_ret. intros v Hv. by split.
  - apply triple_ret. intros v Hv. by split.
Qed.

Lemma keeps_add_connect i cmd : keeps (P:=P) (N:=N) (add_connect i cmd).
Proof.
  intros hand. unfold add_connect. eapply triple_bind; [apply triple_new|]. intros id.
  eapply triple_weaken; [apply add_fresh|by intros v Hv|done].
Qed.

Lemma keeps_add_command i c token r d : keeps (P:=P) (N:=N) (q ← new_command i c token r d; MQTTAsync_addCommand q).
Proof. intros hand. eapply triple_bind; [apply triple_new_command|]. intros q. apply add_fresh. Qed.

Lemma keeps_disconnect1 i o internal : keeps (P:=P) (N:=N) (MQTTAsync_disconnect1 i o internal).
Proof.
  unfold MQTTAsync_disconnect1. apply keeps_bind; [keeps|intros _]. apply keeps_bind; [keeps|]. intros h. destruct (_ =? 0); [keeps|].
  intros hand. eapply triple_bind; [apply triple_new|]. intros id. skip. eapply triple_weaken; [apply add_fresh|by intros v Hv|done].
Qed.
#[local] Hint Resolve keeps_disconnect1 keeps_add_connect : keeps.
Lemma keeps_disconnect_internal i t : keeps (P:=P) (N:=N) (MQTTAsync_disconnect_internal i t).
Proof. apply keeps_disconnect1. Qed.
Lemma keeps_disconnect i o : keeps (P:=P) (N:=N) (MQTTAsync_disconnect i o).
Proof. unfold MQTTAsync_disconnect. keeps. Qed.
Lemma keeps_reconnect i : keeps (P:=P) (N:=N) (MQTTAsync_reconnect i).
Proof. unfold MQTTAsync_reconnect. keeps. Qed.

Lemma silent_send_tests i d qos r : silent (P:=P) (N:=N) (send_tests i d qos r).
Proof. unfold send_tests. silent. Qed.
Lemma silent_subscription_tests i topics qoss extra r : silent (P:=P) (N:=N) (subscription_tests i topics qoss extra r).
Proof. unfold subscription_tests. silent. Qed.
#[local] Hint Resolve silent_send_tests silent_subscription_tests : silent.

(** The last steps of a call that adds a command. *)
Lemma keeps_add_reply {X} i c token r d (f : Z -> X) :
  keeps (P:=P) (N:=N) (q ← new_command i c token r d; rc ← MQTTAsync_addCommand q; mret (f rc)).
Proof.
  intros hand. eapply triple_bind; [apply triple_new_command|]. intros q. eapply triple_bind; [apply add_fresh|]. intros rc. by apply triple_ret.
Qed.
#[local] Hint Resolve keeps_add_reply : keeps.
Lemma keeps_send i d payload qos retained r : keeps (P:=P) (N:=N) (MQTTAsync_send i d payload qos retained r).
Proof.
  unfold MQTTAsync_send. apply keeps_bind; [keeps|]. intros [rc msgid]. destruct (negb _); [keeps|]. apply keeps_bind; [keeps|]. intros h.
  apply (keeps_add_reply i (a_c h) msgid r _ (fun rc => (rc, msgid))).
Qed.
Lemma keeps_subscribeMany i topics qoss r : keeps (P:=P) (N:=N) (MQTTAsync_subscribeMany i topics qoss r).
Proof.
  unfold MQTTAsync_subscribeMany. apply keeps_bind; [keeps|]. intros [rc msgid]. destruct (negb _); [keeps|]. apply keeps_bind; [keeps|]. intros h.
  apply keeps_bind; [keeps|]. intros [opts optlist]. apply (keeps_add_reply i (a_c h) msgid r _ (fun rc => (rc, msgid))).
Qed.
Lemma keeps_unsubscribeMany i topics r : keeps (P:=P) (N:=N) (MQTTAsync_unsubscribeMany i topics r).
Proof.
  unfold MQTTAsync_unsubscribeMany. apply keeps_bind; [keeps|]. intros [rc msgid]. destruct (negb _); [keeps|]. apply keeps_bind; [keeps|]. intros h.
  apply (keeps_add_reply i (a_c h) msgid r _ (fun rc => (rc, msgid))).
Qed.
End Adding.

#[export] Hint Resolve silent_send_tests silent_subscription_tests : silent.
#[export] Hint Resolve keeps_cleanSession keeps_closeSession keeps_checkDisconnect keeps_disconnect1 keeps_add_connect keeps_disconnect_internal
  keeps_disconnect keeps_reconnect keeps_send keeps_subscribeMany keeps_unsubscribeMany : keeps.

Section Processing.
Context {P N : Type} {PO : PersistenceOps P} {NT : Transport N} {NC : Connector N}.
Abbreviation A := (SM (World P N)).
Implicit Types hand : list (Z * bool).
Context (RAND_MAX : Z) (px : proxies) (stale_mask : list Z).

(** *** Taking a command *)

(** The command chosen is the first of its client. *)
Lemma choose_command_split l ign (w w' : World P N) q : choose_command l ign w = Ok (Some q, w') ->
  ~ In (q_client q) ign /\ exists pre post, l = pre ++ q :: post /\ Forall (fun q' => q_client q' <> q_client q) pre.
Proof.
  revert ign w. induction l as [|x l IH]; intros ign w E; cbn [choose_command] in E; [done|].
  destruct (existsb _ ign) eqn:Ei.
  - destruct (IH _ _ E) as (Hn & pre & post & -> & Hpre). split; [done|]. exists (x :: pre), post. split; [done|]. constructor; [|done].
    intros Hx. apply Hn. apply existsb_exists in Ei as (k & Hk & Ek%Nat.eqb_eq). congruence.
  - apply sm_bind_Ok in E as (ok & w1 & E1 & E). destruct ok.
    + injection E as <- <-. split.
      * intros Hin. assert (existsb (Nat.eqb (q_client x)) ign = true) as Ht; [|congruence]. apply existsb_exists. exists (q_client x). by rewrite Nat.eqb_refl.
      * by exists [], l.
    + destruct (IH _ _ E) as (Hn & pre & post & -> & Hpre). split; [intros Hin; apply Hn, in_app_iff; by left|].
      exists (x :: pre), post. split; [done|]. constructor; [|done]. intros Hx. apply Hn, in_app_iff. right. by left.
Qed.

(** The part of a command its handling needs to be the same. *)
Definition same_structure_as (q q' : queued) : Prop := q_id q' = q_id q /\ q_client q' = q_client q.

Lemma restoreCommand_same data v q q' : MQTTAsync_restoreCommand data v (Some q) = Ok (Some q') -> same_structure_as q q'.
Proof.
  unfold MQTTAsync_restoreCommand. destruct data as [|b data]; [done|]. intros E.
  match type of E with match ?x with _ => _ end = _ => destruct x as [q0| |] eqn:E0 end; try done. injection E as ->.
  destruct (Zlen (b :: data) <? 8); [done|]. apply res_bind_Ok in E0 as ([type l] & _ & E0). apply res_bind_Ok in E0 as ([token l'] & _ & E0).
  apply res_bind_Ok in E0 as ([d l2] & _ & E0). destruct (_ && _); [|by injection E0 as <-].
  apply res_bind_Ok in E0 as ([props l3] & _ & E0). by injection E0 as <-.
Qed.

Lemma restore_taken_same q (w w' : World P N) q' : restore_taken q w = Ok (q', w') -> same_structure_as q q'.
Proof.
  intros E. unfold restore_taken in E. apply sm_bind_Ok in E as (h & w1 & _ & E). destruct (negb _); [by injection E as <-|].
  apply sm_bind_Ok in E as (q1 & w2 & E1 & E). destruct (MQTTAsync_unpersistCommand _ _ _) as [? p].
  apply sm_bind_Ok in E as ([] & w3 & _ & [= <- _]). destruct (q_not_restored q); [|by injection E1 as <-].
  destruct (q_key q) as [key|]; [|done]. destruct (pget key _) as [rc buffer]. destruct (if rc =? 0 then _ else _) as [rc' buffer'].
  destruct (rc' =? 0); [|by injection E1 as <-]. apply sm_bind_Ok in E1 as ([q2|] & w4 & E2 & E1); [|done]. injection E1 as <- _.
  unfold sm_lift in E2. destruct (MQTTAsync_restoreCommand _ _ _) eqn:Er; try done. injection E2 as -> _. by apply restoreCommand_same in Er.
Qed.

Lemma take_command_inv hand :
  triple (P:=P) (N:=N) (inv zero hand) take_command
    (fun cmd v => match cmd with None => inv zero hand v | Some q => inv zero ((q_id q, false) :: hand) v end).
Proof.
  intros w x w' E H. unfold take_command in E. apply sm_bind_Ok in E as (w0 & w1 & [= <- <-] & E). apply sm_bind_Ok in E as (cmd & w1 & E1 & E).
  pose proof (silent_choose _ _ _ _ _ E1) as Hv. destruct cmd as [q|]; [|injection E as <- <-; by rewrite Hv].
  destruct (choose_command_split _ _ _ _ _ E1) as (_ & pre & post & Hq & Hpre). change (AList.items (w_commands w)) with (v_queue (view_of w)) in Hq.
  rewrite <- Hv in Hq, H. clear w E1 Hv. apply sm_bind_Ok in E as ([] & w2 & E2 & E).
  assert (inv (bump zero 1 q) hand (view_of w2) /\ v_queue (view_of w2) = pre ++ q :: post) as [H2 Hq2].
  { destruct (Z.eqb_spec (q_type q) PUBLISH) as [Ht|Ht].
    - apply modify_handle_Ok in E2 as (h & Hh & ->). split; [|done]. pose proof (inv_counter _ _ _ _ _ _ 1 (view_handles w1 _ h Hh) H) as H'.
      unfold view_of, set_handles in *. cbn in H' |- *. rewrite list_map_insert. eapply inv_ext; [|exact H'].
      intros i. unfold shift, bump, is_publish_of. rewrite Ht, Z.eqb_refl, andb_true_r, (Nat.eqb_sym i). done.
    - injection E2 as <-. split; [|done]. eapply inv_ext; [|exact H]. intros i. unfold bump, is_publish_of. apply Z.eqb_neq in Ht. by rewrite Ht, andb_false_r. }
  apply sm_bind_Ok in E as ([] & w3 & [= <-] & E). apply sm_bind_Ok in E as ([] & w4 & [= <-] & E).
  apply sm_bind_Ok in E as (q1 & w5 & E5 & [= <- <-]). pose proof (silent_restore_taken _ _ _ _ E5) as ->. apply restore_taken_same in E5 as [-> _].
  pose proof (unlink_items (same_structure q) (w_commands w2)) as Hu. change (AList.items (w_commands w2)) with (v_queue (view_of w2)) in Hu.
  destruct (AList.unlink (same_structure q) (w_commands w2)) as [[y|] l'].
  - destruct Hu as (pre' & post' & Hq' & Hy%Z.eqb_eq & El). pose proof (queue_nodup _ _ _ H2) as Hnd. rewrite Hq2 in Hnd, Hq'.
    destruct (split_unique pre post pre' post' q y Hnd Hq' Hy) as (<- & <- & <-). pose proof (inv_take _ _ _ _ _ _ Hq2 Hpre H2) as Hgoal.
    eapply inv_ext in Hgoal; [unfold view_of, set_taken, set_queue in *; cbn in *; by rewrite El|].
    intros i. unfold bump. destruct (is_publish_of i q); cbn; lia.
  - destruct Hu as [_ Hf]. rewrite Hq2 in Hf. apply Forall_app in Hf as [_ Hf]. apply Forall_cons in Hf as [Hf _]. unfold same_structure in Hf.
    by rewrite Z.eqb_refl in Hf.
Qed.

(** *** Carrying it out *)

(** What a branch of [MQTTAsync_processCommand] leaves: the same structure, whose callback
    has been called only if it is a PUBLISH that will be freed at once. *)
Definition told_at_once (rc : Z) (q : queued) : Prop :=
  rc = TCPSOCKET_COMPLETE /\ match c_details (q_command q) with Dpub _ _ _ qos _ => qos = 0 | _ => False end.
Definition ran (hand : list (Z * bool)) (q : queued) (r : Z * queued) (v : view) : Prop :=
  same_structure_as q (snd r) /\
  exists b, inv zero ((q_id q, b) :: hand) v /\ (b = true -> told_at_once (fst r) (snd r)).

Lemma triple_ran hand q rc q' : same_structure_as q q' ->
  triple (P:=P) (N:=N) (inv zero ((q_id q, false) :: hand)) (mret (rc, q')) (ran hand q).
Proof. intros Hs. apply triple_ret. intros v Hv. split; [exact Hs|]. by exists false. Qed.

Lemma triple_keeps {X Y} hand (m : A X) (f : X -> A Y) K :
  keeps m -> (forall a, triple (inv zero hand) (f a) K) -> triple (inv zero hand) (m ≫= f) K.
Proof. intros H1 H2. eapply triple_bind; [apply H1|exact H2]. Qed.

Lemma run_connect_inv hand q uri version :
  triple (P:=P) (N:=N) (inv zero ((q_id q, false) :: hand)) (run_connect px q uri version) (ran hand q).
Proof.
  unfold run_connect. skip. destruct (_ || _); [by apply triple_ran|]. skip. destruct a0 as [serverURI websocket].
  skip. skip. skip. skip. by apply triple_ran.
Qed.
Lemma run_subscribe_inv hand q topics qoss opts optlist :
  triple (P:=P) (N:=N) (inv zero ((q_id q, false) :: hand)) (run_subscribe q topics qoss opts optlist) (ran hand q).
Proof. unfold run_subscribe. skip. skip. by apply triple_ran. Qed.
Lemma run_unsubscribe_inv hand q topics :
  triple (P:=P) (N:=N) (inv zero ((q_id q, false) :: hand)) (run_unsubscribe q topics) (ran hand q).
Proof. unfold run_unsubscribe. skip. skip. by apply triple_ran. Qed.
Lemma run_disconnect_inv hand q :
  triple (P:=P) (N:=N) (inv zero ((q_id q, false) :: hand)) (run_disconnect RAND_MAX q) (ran hand q).
Proof.
  unfold run_disconnect. skip. destruct (_ && _); [by apply triple_ran|]. skip. skip. apply triple_keeps; [keeps|]. intros ?. by apply triple_ran.
Qed.

(** The callback of a command in hand. *)
Lemma triple_succeed hand q :
  triple (P:=P) (N:=N) (inv zero ((q_id q, false) :: hand)) (succeed q) (fun _ v => exists b, inv zero ((q_id q, b) :: hand) v).
Proof.
  unfold succeed. destruct (_ || _).
  - eapply triple_weaken; [apply triple_success|done|]. intros a v H. by exists true.
  - apply triple_ret. intros v H. by exists false.
Qed.

Lemma run_publish_inv hand q dest payloadlen payload qos retained :
  c_details (q_command q) = Dpub dest payloadlen payload qos retained ->
  triple (P:=P) (N:=N) (inv zero ((q_id q, false) :: hand)) (run_publish stale_mask q dest payloadlen payload qos retained) (ran hand q).
Proof.
  intros Hd. unfold run_publish. skip. skip. destruct a0 as [[rc x] y]. destruct (Z.eqb_spec qos 0) as [->|]; [|by apply triple_ran].
  destruct (Z.eqb_spec rc TCPSOCKET_COMPLETE) as [->|].
  - eapply triple_bind; [apply triple_succeed|]. intros ?. apply triple_ret. intros v [b H]. split; [done|]. exists b. split; [done|]. intros _.
    split; [done|]. cbn. by rewrite Hd.
  - skip. apply triple_ran. by destruct (rc =? SOCKET_ERROR).
Qed.

Lemma run_command_inv hand q :
  triple (P:=P) (N:=N) (inv zero ((q_id q, false) :: hand)) (run_command RAND_MAX px stale_mask q) (ran hand q).
Proof.
  unfold run_command. destruct (c_details (q_command q)) eqn:E;
    [apply run_subscribe_inv|apply run_unsubscribe_inv|by apply run_publish_inv|apply run_disconnect_inv|apply run_connect_inv].
Qed.

(** *** And where it goes *)

Lemma triple_free_as hand q q' b : same_structure_as q q' ->
  triple (P:=P) (N:=N) (inv zero ((q_id q, b) :: hand)) (MQTTAsync_freeCommand q') (fun _ => inv zero hand).
Proof. intros [<- _]. apply triple_free. Qed.

Lemma add_response_inv hand q :
  triple (P:=P) (N:=N) (inv zero ((q_id q, false) :: hand)) (add_response q) (fun _ => inv zero hand).
Proof.
  apply triple_modify. intros h v Hh H. pose proof (inv_respond _ _ _ _ _ _ _ Hh H) as H'. exact H'.
Qed.

Lemma command_failed_inv hand rc q :
  triple (P:=P) (N:=N) (inv zero ((q_id q, false) :: hand)) (command_failed RAND_MAX rc q) (fun _ => inv zero hand).
Proof.
  unfold command_failed. apply triple_keeps; [keeps|]. intros ?. skip. destruct (_ && _) eqn:Ec.
  - apply andb_true_iff in Ec as [Ec _]. apply triple_bind with (J := fun _ => inv zero hand); [|intros ?; by apply triple_ret].
    set (q' := set_command q (next_server (a_c a0) (q_command q))). assert (goes_first (q_command q') = true) as Hf.
    { unfold q_type, c_type in Ec. unfold q', next_server. destruct (c_details (q_command q)) eqn:Ed; try discriminate Ec. cbn.
      destruct (_ =? MQTTVERSION_DEFAULT); [|done]. destruct (_ =? MQTTVERSION_3_1); cbn; [done|]. unfold goes_first. by rewrite Ed. }
    eapply triple_weaken; [apply (add_command_inv hand q'); by rewrite Hf|intros v H; split; [exact H|by rewrite Hf]|done].
  - eapply triple_bind with (J := fun _ v => exists b, inv zero ((q_id q, b) :: hand) v).
    { destruct (_ || _); [|apply triple_ret; by eexists]. eapply triple_weaken; [apply triple_failure|done|]. intros ? v H. by exists true. }
    intros ?. eapply triple_bind with (J := fun _ v => exists b, inv zero ((q_id q, b) :: hand) v).
    { intros w x w' E [b H]. exists b. eapply triple_silent; [|exact E|exact H]. silent. }
    intros ?. apply triple_free_any.
Qed.

Lemma finish_command_inv hand q rc q' :
  triple (P:=P) (N:=N) (ran hand q (rc, q')) (finish_command RAND_MAX rc q') (fun _ => inv zero hand).
Proof.
  intros w x w' E [[Hid Hc] [b [H Hb]]]. cbn [fst snd] in *. rewrite <- Hid in H. destruct b.
  { destruct (Hb eq_refl) as [-> Hd]. unfold finish_command in E. destruct (c_details (q_command q')); try done. subst. cbn [is_error Z.eqb andb negb] in E.
    change (MQTTAsync_freeCommand q' w = Ok (x, w')) in E. by eapply triple_free. }
  clear Hb. revert w x w' E H. change (triple (inv zero ((q_id q', false) :: hand)) (finish_command RAND_MAX rc q') (fun _ => inv zero hand)).
  unfold finish_command. destruct (c_details (q_command q')).
  - destruct (is_error rc); [apply command_failed_inv|apply add_response_inv].
  - destruct (is_error rc); [apply command_failed_inv|apply add_response_inv].
  - destruct (is_error rc); [apply command_failed_inv|]. destruct (_ && _); [apply triple_free|apply add_response_inv].
  - skip. apply triple_free.
  - destruct (is_error rc); [apply command_failed_inv|]. skip. apply triple_free.
Qed.

Lemma keeps_processCommand : keeps (P:=P) (N:=N) (MQTTAsync_processCommand RAND_MAX px stale_mask).
Proof.
  intros hand. unfold MQTTAsync_processCommand. eapply triple_bind; [apply take_command_inv|]. intros [q|]; [|by apply triple_ret].
  eapply triple_bind; [apply run_command_inv|]. intros [rc q']. eapply triple_bind; [apply finish_command_inv|]. intros ?. by apply triple_ret.
Qed.
End Processing.

#[export] Hint Resolve keeps_processCommand : keeps.

Section Responses.
Context {P N : Type} {PO : PersistenceOps P} {NT : Transport N} {NC : Connector N}.
Abbreviation A := (SM (World P N)).
Implicit Types hand : list (Z * bool).
Context (RAND_MAX : Z) (px : proxies) (stale_mask : list Z).

(** *** Responses *)

(** The command of a response while it is still in the list of a handle: as in hand,
    were it taken out. *)
Definition detached (i : nat) (id : Z) (b : bool) (hand : list (Z * bool)) (v : view) : Prop :=
  exists pre q post n, v_handles v !! i = Some (pre ++ q :: post, n) /\ q_id q = id /\ NoDup (map q_id (pre ++ q :: post)) /\
    inv zero ((id, b) :: hand) (set_handles v (<[i := (pre ++ post, n)]> (v_handles v))).

Lemma detach hand i q v r n : v_handles v !! i = Some (r, n) -> q ∈ r -> inv zero hand v -> detached i (q_id q) false hand v.
Proof.
  intros Hi Hq H. apply list_elem_of_split in Hq as (pre & post & ->). exists pre, q, post, n. split; [done|]. split; [done|].
  split; [by eapply responses_nodup|]. by eapply inv_unrespond.
Qed.

Lemma detached_call i id hand v : detached i id false hand v -> detached i id true hand (set_called v (v_called v ++ [id])).
Proof.
  intros (pre & q & post & n & Hi & Hq & Hnd & H). exists pre, q, post, n. split; [done|]. split; [done|]. split; [done|]. apply inv_call in H. exact H.
Qed.

Lemma detached_success i hand j id t :
  triple (P:=P) (N:=N) (detached i id false hand) (emit (EvSuccess j id t)) (fun _ => detached i id true hand).
Proof. intros w x w' [= <- <-] H. apply detached_call in H. unfold view_of in *. cbn in *. rewrite !omap_app. cbn. by rewrite app_nil_r. Qed.
Lemma detached_failure i hand j id t code :
  triple (P:=P) (N:=N) (detached i id false hand) (emit (EvFailure j id t code)) (fun _ => detached i id true hand).
Proof. intros w x w' [= <- <-] H. apply detached_call in H. unfold view_of in *. cbn in *. rewrite !omap_app. cbn. by rewrite app_nil_r. Qed.

Lemma forget_payload_id id q : q_id (forget_payload id q) = q_id q.
Proof. unfold forget_payload. destruct (_ =? _); [|done]. by destruct (c_details (q_command q)). Qed.
Lemma forget_ids id l : map q_id (map (forget_payload id) l) = map q_id l.
Proof. rewrite List.map_map. apply map_ext. apply forget_payload_id. Qed.

Lemma forget_handle id h : handle_view (P:=P) (map_responses (forget_payload id) h) = (map (forget_payload id) (AList.items (a_responses h)), a_noBufferedMessages h).
Proof. done. Qed.

Lemma detached_forget i id b hand :
  triple (P:=P) (N:=N) (detached i id b hand) (modify_handle i (map_responses (forget_payload id))) (fun _ => detached i id b hand).
Proof.
  apply triple_modify. intros h v Hh (pre & q & post & n & Hi & Hq & Hnd & H). rewrite Hh in Hi. injection Hi as Hr Hn. rewrite forget_handle, Hr, Hn.
  exists (map (forget_payload id) pre), (forget_payload id q), (map (forget_payload id) post), n. vcbn.
  assert ((i < List.length (v_handles v))%nat) as Hlt by (by eapply lookup_lt_Some).
  rewrite list_lookup_insert_eq by done. split; [by rewrite map_app|]. split; [by rewrite forget_payload_id|].
  split; [by rewrite <- (map_cons (forget_payload id)), <- map_app, forget_ids|].
  assert (v_handles (set_handles v (<[i := (pre ++ post, n)]> (v_handles v))) !! i = Some (pre ++ post, n)) as Hl by (vcbn; by rewrite list_lookup_insert_eq).
  pose proof (inv_same_ids _ _ _ i (pre ++ post) (map (forget_payload id) (pre ++ post)) n Hl (forget_ids _ _) H) as H'.
  unfold set_handles in *. cbn in *. rewrite !list_insert_insert_eq, map_app in *. exact H'.
Qed.

Lemma keeps_forget i id : keeps (P:=P) (N:=N) (modify_handle i (map_responses (forget_payload id))).
Proof.
  intros hand. apply triple_modify. intros h v Hh H. rewrite forget_handle. eapply inv_same_ids; [exact Hh|apply forget_ids|exact H].
Qed.

Lemma detached_remove i q b hand :
  triple (P:=P) (N:=N) (detached i (q_id q) b hand) (remove_response i q) (fun _ => inv zero ((q_id q, b) :: hand)).
Proof.
  apply triple_modify. intros h v Hh (pre & q' & post & n & Hi & Hq & Hnd & H). rewrite Hh in Hi. injection Hi as Hr Hn.
  pose proof (unlink_items (same_structure q) (a_responses h)) as Hu. unfold handle_view. cbn [with_responses a_responses a_noBufferedMessages].
  destruct (AList.unlink (same_structure q) (a_responses h)) as [[y|] l'].
  - destruct Hu as (pre' & post' & E & Hy%Z.eqb_eq & El). rewrite Hr in E. destruct (split_unique pre post pre' post' q' y Hnd E ltac:(congruence)) as (<- & <- & <-).
    cbn [snd]. by rewrite El, Hn.
  - destruct Hu as [_ Hf]. rewrite Hr in Hf. apply Forall_app in Hf as [_ Hf]. apply Forall_cons in Hf as [Hf _]. unfold same_structure in Hf.
    by rewrite Hq, Z.eqb_refl in Hf.
Qed.

(** The end of a write: the command may be freed, after its callback. *)
Lemma detached_free i q hand :
  triple (P:=P) (N:=N) (fun v => exists b, detached i (q_id q) b hand v) (_ ← remove_response i q; MQTTAsync_freeCommand q) (fun _ => inv zero hand).
Proof.
  intros w x w' E [b H]. refine (triple_bind _ _ _ _ (fun _ => inv zero hand) (detached_remove i q b hand) _ w x w' E H). intros ?. apply triple_free.
Qed.

Lemma write_finished_inv hand i rc q :
  triple (P:=P) (N:=N) (fun v => inv zero hand v /\ detached i (q_id q) false hand v) (write_finished i rc q) (fun _ => inv zero hand).
Proof.
  assert (forall v, inv zero hand v /\ detached i (q_id q) false hand v -> exists b, detached i (q_id q) b hand v) as Hd by (intros v [_ H]; by exists false).
  unfold write_finished. destruct (c_details (q_command q)) as [| |dest payloadlen payload qos retained| |];
    try (eapply triple_weaken; [apply detached_free|exact Hd|done]).
  destruct (((rc =? 1) && (qos =? 0)) || (rc =? -1)) eqn:Ea.
  - eapply triple_bind with (J := fun _ v => exists b, detached i (q_id q) b hand v).
    { clear Ea. destruct (_ && _).
      - unfold succeed. destruct (_ || _); [|by apply triple_ret]. eapply triple_weaken; [apply detached_success|by intros v [_ ?]|intros ? v ?; by exists true].
      - destruct (rc =? -1); [|by apply triple_ret]. unfold fail_command. destruct (_ || _); [|by apply triple_ret].
        eapply triple_weaken; [apply detached_failure|by intros v [_ ?]|intros ? v ?; by exists true]. }
    intros ?. eapply triple_bind with (J := fun _ v => exists b, detached i (q_id q) b hand v); [|intros ?; apply detached_free].
    destruct (qos =? 0); [|by apply triple_ret]. intros w x w' E [b H]. exists b. by eapply detached_forget.
  - apply orb_false_iff in Ea as [Ea1 Ea2]. rewrite Ea1, Ea2. apply triple_weaken with (I' := inv zero hand) (J' := fun _ => inv zero hand); [|by intros v [H _]|done].
    apply triple_skip; [apply silent_ret|]. intros ?. apply triple_bind with (J := fun _ => inv zero hand); [|intros ?; by apply triple_ret].
    destruct (qos =? 0); [apply keeps_forget|by apply triple_ret].
Qed.

Lemma find_response l id q : List.find (fun q' : queued => q_id q' =? id) l = Some q -> q ∈ l /\ q_id q = id.
Proof. intros E. apply List.find_some in E as [Hin Hid%Z.eqb_eq]. split; [by apply list_elem_of_In|done]. Qed.

Lemma keeps_writeComplete i rc : keeps (P:=P) (N:=N) (MQTTAsync_writeComplete i rc).
Proof.
  intros hand. unfold MQTTAsync_writeComplete. skip. apply triple_handle. intros h. destruct (a_pending_write h) as [id|]; [|by apply triple_ret; intros v [_ H]].
  eapply triple_bind with (J := fun _ => inv zero hand); [|intros ?; apply triple_silent; silent].
  destruct (List.find _ _) as [q|] eqn:Ef; [|by apply triple_ret; intros v [_ H]]. apply find_response in Ef as [Hin Hid].
  eapply triple_weaken; [apply (write_finished_inv hand)| |done]. intros v [Hh H]. split; [done|]. by eapply detach.
Qed.

Lemma take_response_inv hand i token :
  triple (P:=P) (N:=N) (inv zero hand) (take_response i token)
    (fun r v => match r with None => inv zero hand v | Some q => inv zero ((q_id q, false) :: hand) v end).
Proof.
  unfold take_response. apply triple_handle. intros h. destruct (List.find _ _) as [q|] eqn:Ef; [|by apply triple_ret; intros v [_ H]].
  apply List.find_some in Ef as [Hin _]. apply list_elem_of_In in Hin.
  eapply triple_bind with (J := fun _ => inv zero ((q_id q, false) :: hand)); [|intros ?; by apply triple_ret].
  eapply triple_weaken; [apply (detached_remove i q false hand)| |done]. intros v [Hh H]. by eapply detach.
Qed.

(** A response is taken, its callback called once at most, and it is freed. *)
Definition calls (f : queued -> A ()) : Prop :=
  forall hand q, triple (inv zero ((q_id q, false) :: hand)) (f q) (fun _ v => exists b, inv zero ((q_id q, b) :: hand) v).

Lemma keeps_answer {X} i token (f : queued -> A ()) (g : A X) : calls f -> keeps g ->
  keeps (P:=P) (N:=N) (r ← take_response i token; _ ← match r with None => mret () | Some q => _ ← f q; MQTTAsync_freeCommand q end; g).
Proof.
  intros Hf Hg hand. eapply triple_bind; [apply take_response_inv|]. intros r. eapply triple_bind with (J := fun _ => inv zero hand); [|intros ?; apply Hg].
  destruct r as [q|]; [|by apply triple_ret]. eapply triple_bind; [apply Hf|]. intros ?. apply triple_free_any.
Qed.

Ltac callback :=
  lazymatch goal with
  | |- triple _ (if ?x then _ else _) _ => destruct x; callback
  | |- triple _ (match ?x with _ => _ end) _ => destruct x; callback
  | |- triple _ (mret _) _ => apply triple_ret; intros ? ?; by exists false
  | |- triple _ sm_oob _ => apply triple_oob
  | |- triple _ (emit (EvSuccess _ _ _)) _ => eapply triple_weaken; [apply triple_success|done|intros ? ? ?; by exists true]
  | |- triple _ (emit (EvFailure _ _ _ _)) _ => eapply triple_weaken; [apply triple_failure|done|intros ? ? ?; by exists true]
  end.
Lemma calls_publish ackrc : calls (publish_callback ackrc).
Proof. intros hand q. unfold publish_callback. callback. Qed.
Lemma calls_suback v5 qoss : calls (suback_callback v5 qoss).
Proof. intros hand q. unfold suback_callback. cbv zeta. callback. Qed.
Lemma calls_unsuback reasons : calls (unsuback_callback reasons).
Proof. intros hand q. unfold unsuback_callback. callback. Qed.

Lemma keeps_handle_ack i a : keeps (P:=P) (N:=N) (handle_ack i a).
Proof.
  unfold handle_ack. destruct (ack_msgId a) as [msgid|]; [|keeps]. apply keeps_bind; [keeps|]. intros ackrc. apply keeps_bind; [keeps|]. intros rc.
  destruct (_ || _); [|keeps]. apply keeps_bind; [keeps|]. intros h. apply keeps_bind; [keeps|]. intros ?. apply keeps_answer; [apply calls_publish|keeps].
Qed.
Lemma keeps_handle_suback i s : keeps (P:=P) (N:=N) (handle_suback i s).
Proof. unfold handle_suback. apply keeps_bind; [keeps|]. intros h. apply keeps_answer; [apply calls_suback|keeps]. Qed.
Lemma keeps_handle_unsuback i u : keeps (P:=P) (N:=N) (handle_unsuback i u).
Proof. unfold handle_unsuback. apply keeps_answer; [apply calls_unsuback|keeps]. Qed.
End Responses.

#[export] Hint Resolve keeps_writeComplete keeps_handle_ack keeps_handle_suback keeps_handle_unsuback : keeps.

Section Connection.
Context {P N : Type} {PO : PersistenceOps P} {NT : Transport N} {NC : Connector N}.
Abbreviation A := (SM (World P N)).
Implicit Types hand : list (Z * bool).
Context (RAND_MAX : Z) (px : proxies) (stale_mask : list Z).

(** *** The connection *)

Lemma keeps_nextOrClose i rc : keeps (P:=P) (N:=N) (nextOrClose RAND_MAX i rc).
Proof. unfold nextOrClose. keeps. Qed.
#[local] Hint Resolve keeps_nextOrClose : keeps.
Lemma keeps_socket_error i : keeps (P:=P) (N:=N) (socket_error RAND_MAX i).
Proof. apply keeps_nextOrClose. Qed.

Lemma keeps_close_session i : keeps (P:=P) (N:=N) (MQTTProtocol_closeSession i).
Proof. unfold MQTTProtocol_closeSession. keeps. Qed.
#[local] Hint Resolve keeps_close_session : keeps.

Lemma keeps_for_clients (f : nat -> A ()) n i : (forall j, keeps (f j)) -> keeps (for_clients f n i).
Proof. intros Hf. revert i. induction n as [|n IH]; intros i; cbn [for_clients]; [keeps|]. apply keeps_bind; [apply Hf|intros ?; apply IH]. Qed.
Lemma keeps_every_client (f : nat -> A ()) : (forall j, keeps (f j)) -> keeps (every_client f).
Proof. intros Hf. unfold every_client. apply keeps_bind; [keeps|]. intros w. by apply keeps_for_clients. Qed.

Lemma keeps_keepalive_client now i : keeps (P:=P) (N:=N) (keepalive_client now i).
Proof. unfold keepalive_client. keeps. Qed.
Lemma keeps_keepalive now : keeps (P:=P) (N:=N) (MQTTProtocol_keepalive now).
Proof. apply keeps_every_client. apply keeps_keepalive_client. Qed.

Lemma keeps_retries_client n j now regardless i : keeps (P:=P) (N:=N) (retries_client n j now regardless i).
Proof.
  revert j. induction n as [|n IH]; intros j; cbn [retries_client]; [keeps|]. apply keeps_bind; [keeps|]. intros h.
  destruct (AList.items (outboundMsgs (a_c h)) !! j) as [m|]; [|keeps]. destruct (_ || _); [keeps|]. apply keeps_bind; [keeps|]. intros ready.
  destruct (negb ready); [keeps|]. apply keeps_bind; [keeps|]. intros [|]; [apply IH|keeps].
Qed.
#[local] Hint Resolve keeps_retries_client : keeps.
Lemma keeps_retry_client now doRetry regardless i : keeps (P:=P) (N:=N) (retry_client now doRetry regardless i).
Proof. unfold retry_client. keeps. Qed.
Lemma keeps_retry now doRetry regardless : keeps (P:=P) (N:=N) (MQTTProtocol_retry now doRetry regardless).
Proof. apply keeps_every_client. apply keeps_retry_client. Qed.
#[local] Hint Resolve keeps_retry keeps_keepalive : keeps.
Lemma keeps_retry_loop interval last : keeps (P:=P) (N:=N) (MQTTAsync_retry interval last).
Proof. unfold MQTTAsync_retry. keeps. Qed.

Lemma keeps_completeConnection i connack : keeps (P:=P) (N:=N) (MQTTAsync_completeConnection i connack).
Proof. unfold MQTTAsync_completeConnection. keeps. Qed.
#[local] Hint Resolve keeps_completeConnection : keeps.
Lemma keeps_handle_connack i connack : keeps (P:=P) (N:=N) (handle_connack RAND_MAX i connack).
Proof. unfold handle_connack. keeps. Qed.

Lemma keeps_check_timeouts_of i : keeps (P:=P) (N:=N) (check_timeouts_of RAND_MAX i).
Proof. unfold check_timeouts_of. keeps. Qed.
Lemma keeps_checkTimeouts last : keeps (P:=P) (N:=N) (MQTTAsync_checkTimeouts RAND_MAX last).
Proof.
  unfold MQTTAsync_checkTimeouts. apply keeps_bind; [keeps|]. intros now. destruct (_ <? 3000); [keeps|].
  apply keeps_bind; [apply keeps_every_client, keeps_check_timeouts_of|intros ?; keeps].
Qed.

(** *** A turn of the receiving thread *)

Lemma silent_deliverMessage i n m : silent (P:=P) (N:=N) (MQTTAsync_deliverMessage i n m).
Proof. unfold MQTTAsync_deliverMessage. silent. Qed.
#[local] Hint Resolve silent_deliverMessage : silent.
Lemma silent_processPublication i p a : silent (P:=P) (N:=N) (AsyncReceive.Protocol_processPublication i p a).
Proof. unfold AsyncReceive.Protocol_processPublication. silent. Qed.
#[local] Hint Resolve silent_processPublication : silent.
Lemma silent_deliver_queued i : silent (P:=P) (N:=N) (deliver_queued i).
Proof. unfold deliver_queued. silent. Qed.
Lemma silent_handlePublishes i p : silent (P:=P) (N:=N) (AsyncReceive.MQTTProtocol_handlePublishes i p).
Proof. unfold AsyncReceive.MQTTProtocol_handlePublishes, receive_qos2. silent. Qed.
Lemma silent_handlePubrels i a : silent (P:=P) (N:=N) (AsyncReceive.MQTTProtocol_handlePubrels i a).
Proof. unfold AsyncReceive.MQTTProtocol_handlePubrels. silent. Qed.
#[local] Hint Resolve silent_deliver_queued silent_handlePublishes silent_handlePubrels : silent.
#[local] Hint Resolve keeps_retry_loop keeps_handle_connack : keeps.

Lemma keeps_connecting i : keeps (P:=P) (N:=N) (MQTTAsync_connecting RAND_MAX px i).
Proof. unfold MQTTAsync_connecting. keeps. Qed.
Lemma keeps_cycle_packet i pack : keeps (P:=P) (N:=N) (cycle_packet i pack).
Proof. unfold cycle_packet. keeps. Qed.
#[local] Hint Resolve keeps_connecting keeps_cycle_packet : keeps.
Lemma keeps_cycle i interval last : keeps (P:=P) (N:=N) (MQTTAsync_cycle RAND_MAX px i interval last).
Proof. unfold MQTTAsync_cycle. keeps. Qed.
Lemma keeps_thread_packet i pack : keeps (P:=P) (N:=N) (thread_packet RAND_MAX i pack).
Proof. unfold thread_packet. keeps. Qed.
#[local] Hint Resolve keeps_cycle keeps_thread_packet : keeps.
Lemma keeps_thread_turn i sock rc pack : keeps (P:=P) (N:=N) (thread_turn RAND_MAX i sock rc pack).
Proof. unfold thread_turn. keeps. Qed.
#[local] Hint Resolve keeps_thread_turn : keeps.
Lemma keeps_receive_turn i interval last : keeps (P:=P) (N:=N) (receive_turn RAND_MAX px i interval last).
Proof. unfold receive_turn. keeps. Qed.

(** *** Restored commands *)

Lemma restore_loop_buffered i keys (s : P) seqno buffered rc cmds seqno' buffered' :
  restore_commands_loop i keys s seqno buffered = Ok (rc, cmds, seqno', buffered') ->
  Forall (fun q => q_client q = i) cmds /\ buffered' = buffered + publishes_of i cmds.
Proof.
  revert seqno buffered rc cmds seqno' buffered'. induction keys as [|key keys IH]; intros seqno buffered rc cmds seqno' buffered'; cbn [restore_commands_loop].
  { intros [= <- <- <- <-]. split; [constructor|]. change (publishes_of i []) with 0. lia. }
  destruct (restore_command_key i key s) as [[rc0 cmd]| |] eqn:Ek; cbn [mbind res_bind]; [|done|done].
  assert (match cmd with Some q => q_client q = i | None => True end) as Hc.
  { unfold restore_command_key in Ek. destruct (negb _); [by injection Ek as <- <-|]. destruct (pget key s) as [rc1 b]. destruct (negb (rc1 =? 0)); [by injection Ek as <- <-|].
    destruct (call_afterRead b) as [rc2 b']. destruct (negb (rc2 =? 0)); [by injection Ek as <- <-|]. destruct (MQTTAsync_restoreCommand _ _ _) as [[q|]| |]; try done; by injection Ek as <- <-. }
  assert (forall q, cmd = Some q -> (q_type q =? PUBLISH) = is_publish_of i q) as Hp.
  { intros q ->. unfold is_publish_of. by rewrite Hc, Nat.eqb_refl. }
  destruct (negb (rc0 =? 0)).
  - intros [= <- <- <- <-]. destruct cmd as [q|]; [|split; [by apply Forall_nil|]; change (publishes_of i (option_list None)) with 0; lia]. change (option_list (Some q)) with [q].
    split; [by repeat constructor|]. rewrite publishes_cons, <- (Hp q eq_refl). change (publishes_of i []) with 0. destruct (_ =? PUBLISH); lia.
  - destruct (restore_commands_loop i keys s _ _) as [[[[rc1 cmds1] seqno1] buffered1]| |] eqn:El; cbn [mbind res_bind]; try done.
    intros [= <- <- <- <-]. destruct (IH _ _ _ _ _ _ El) as [Hf ->]. destruct cmd as [q|]; [|by split]. change (option_list (Some q) ++ cmds1) with (q :: cmds1).
    split; [by constructor|]. rewrite publishes_cons, <- (Hp q eq_refl). destruct (_ =? PUBLISH); lia.
Qed.

Lemma restoreCommands_buffered i persistence (s : P) seqno buffered rc cmds seqno' buffered' :
  MQTTAsync_restoreCommands i persistence s seqno buffered = Ok (rc, cmds, seqno', buffered') ->
  Forall (fun q => q_client q = i) cmds /\ buffered' = buffered + publishes_of i cmds.
Proof.
  assert (Forall (fun q => q_client q = i) [] /\ buffered = buffered + publishes_of i []) as H0 by (split; [constructor|change (publishes_of i []) with 0; lia]).
  unfold MQTTAsync_restoreCommands. destruct persistence; [|by intros [= <- <- <- <-]]. destruct (pkeys s) as [rc0 keys].
  destruct (rc0 =? 0); [|by intros [= <- <- <- <-]]. destruct (sort_keys keys) as [keys'| |]; cbn [mbind res_bind]; [|done|done]. apply restore_loop_buffered.
Qed.

Lemma queue_restored_inv i l : Forall (fun q => q_client q = i) l -> forall d hand (w w' : World P N) x,
  queue_restored l w = Ok (x, w') -> inv (shift zero i d) hand (view_of w) ->
  inv (shift zero i (d + publishes_of i l)) hand (view_of w') /\ w_handles w' = w_handles w.
Proof.
  induction 1 as [|q l Hq _ IH]; intros d hand w w' x E H; cbn [queue_restored] in E.
  { injection E as <- <-. split; [|done]. replace (d + publishes_of i []) with d by (change (publishes_of i []) with 0; lia). exact H. }
  apply sm_bind_Ok in E as (id & w1 & E1 & E). pose proof (triple_new _ _ _ _ _ E1 H) as [H1 Hn]. injection E1 as <- <-.
  apply sm_bind_Ok in E as ([] & w2 & [= <-] & E). set (q' := mkQueued _ _ _ _ _ _) in E.
  pose proof (inv_append _ q' _ _ _ H1 eq_refl (fun _ => Hn (q_client q'))) as H2. rewrite publishes_cons.
  eapply (inv_ext _ (shift zero i (d + (if is_publish_of i q then 1 else 0)))) in H2.
  - destruct (IH _ _ _ _ _ E H2) as [H3 H4]. split; [|by rewrite H4]. by rewrite Z.add_assoc.
  - intros j. unfold shift, bump. destruct (Nat.eqb_spec j i) as [->|Hne].
    + change (is_publish_of i q') with (is_publish_of i q). unfold zero. destruct (is_publish_of i q); lia.
    + change (is_publish_of j q') with (is_publish_of j q). unfold is_publish_of. rewrite Hq. by destruct (Nat.eqb_spec i j).
Qed.

Lemma keeps_restore_queue i restoreMessages : keeps (P:=P) (N:=N) (restore_queue i restoreMessages).
Proof.
  intros hand w x w' E H. unfold restore_queue in E. apply sm_bind_Ok in E as (h & w1 & E1 & E). apply get_handle_Ok in E1 as [-> Hh].
  destruct (negb restoreMessages).
  { destruct (MQTTAsync_unpersistCommandsAndMessages _ _) as [rc p]. eapply triple_silent; [|exact E|exact H]. silent. }
  apply sm_bind_Ok in E as ([[[rc cmds] seqno] buffered] & w1 & E1 & E). unfold sm_lift in E1.
  destruct (MQTTAsync_restoreCommands _ _ _ _ _) as [[[[rc0 cmds0] seqno0] buffered0]| |] eqn:Er; try done. injection E1 as -> -> -> -> <-.
  apply restoreCommands_buffered in Er as [Hf Hb]. apply sm_bind_Ok in E as ([] & w1 & E1 & E).
  destruct (queue_restored_inv i cmds Hf 0 hand w w1 () E1) as [H1 Hsame].
  { eapply inv_ext; [|exact H]. intros j. symmetry. apply shift_zero. }
  apply sm_bind_Ok in E as ([] & w2 & E2 & [= <- <-]). apply modify_handle_Ok in E2 as (h' & Hh' & ->). rewrite Hsame in Hh'. assert (h' = h) as -> by congruence.
  rewrite <- Hsame in Hh. pose proof (inv_counter _ _ _ _ _ _ (- publishes_of i cmds) (view_handles w1 i h Hh) H1) as H2.
  rewrite Z.sub_opp_r, <- Hb in H2. unfold view_of, set_handles in *. cbn in H2 |- *. rewrite list_map_insert. eapply inv_ext; [|exact H2].
  intros j. unfold shift. destruct (Nat.eqb j i); unfold zero; lia.
Qed.
End Connection.

(** ** Runs *)

Definition ran_to {S X} (m : SM S X) (w w' : S) : Prop := exists x, m w = Ok (x, w').

Section Runs.
Context {P N : Type} {PO : PersistenceOps P} {NT : Transport N} {NC : Connector N}.
Context (RAND_MAX : Z) (px : proxies) (stale_mask : list Z).
Implicit Types w : World P N.

(** A step of the application, of the sending or of the receiving thread, whose turn is for
    one client, or of the timer.  The turn of the receiving thread is made of two critical
    sections, a cycle and what follows it, between which other steps may come; the latter is
    a step with any result of a cycle.  [step_settings] is what [MQTTAsync_connect] changes in a
    handle before it adds its command: neither its responses nor its queue of messages. *)
Definition setting (f : MQTTAsyncs P -> MQTTAsyncs P) : Prop :=
  forall h, handle_view (f h) = handle_view h /\ AList.items (messageQueue (a_c (f h))) = AList.items (messageQueue (a_c h)).
Inductive astep w w' : Prop :=
| step_send i destinationName payload qos retained response :
    ran_to (MQTTAsync_send i destinationName payload qos retained response) w w' -> astep w w'
| step_subscribe i topics qoss response : ran_to (MQTTAsync_subscribeMany i topics qoss response) w w' -> astep w w'
| step_unsubscribe i topics response : ran_to (MQTTAsync_unsubscribeMany i topics response) w w' -> astep w w'
| step_settings i f : setting f -> ran_to (modify_handle i f) w w' -> astep w w'
| step_connect i cmd : ran_to (add_connect i cmd) w w' -> astep w w'
| step_disconnect i options : ran_to (MQTTAsync_disconnect i options) w w' -> astep w w'
| step_reconnect i : ran_to (MQTTAsync_reconnect i) w w' -> astep w w'
| step_restore i restoreMessages : ran_to (restore_queue i restoreMessages) w w' -> astep w w'
| step_process : ran_to (MQTTAsync_processCommand RAND_MAX px stale_mask) w w' -> astep w w'
| step_write_complete i rc : ran_to (MQTTAsync_writeComplete i rc) w w' -> astep w w'
| step_receive i interval last : ran_to (receive_turn RAND_MAX px i interval last) w w' -> astep w w'
| step_cycle i interval last : ran_to (MQTTAsync_cycle RAND_MAX px i interval last) w w' -> astep w w'
| step_thread i sock rc pack : ran_to (thread_turn RAND_MAX i sock rc pack) w w' -> astep w w'
| step_retry interval last : ran_to (MQTTAsync_retry interval last) w w' -> astep w w'
| step_timeouts last : ran_to (MQTTAsync_checkTimeouts RAND_MAX last) w w' -> astep w w'.

(** Handles just created, and no command. *)
Definition started w : Prop :=
  AList.items (w_commands w) = [] /\ w_next w = 0 /\ w_taken w = [] /\ w_events w = [] /\
  Forall (fun h => AList.items (a_responses h) = [] /\ a_noBufferedMessages h = 0) (w_handles w).

Definition queue_ids w : list Z := map q_id (AList.items (w_commands w)).
Definition waiting_ids w : list Z := concat (map (fun h => map q_id (AList.items (a_responses h))) (w_handles w)).
Definition freed w : list Z := omap freed_id (w_events w).
Definition called w : list Z := omap called_id (w_events w).

Lemma waiting_view w : concat (map response_ids (v_handles (view_of w))) = waiting_ids w.
Proof. unfold waiting_ids. cbn. by rewrite List.map_map. Qed.

Lemma started_inv w : started w -> inv zero [] (view_of w).
Proof.
  intros (H1 & H2 & H3 & H4 & H5). assert (waiting_ids w = []) as Hw.
  { unfold waiting_ids. clear -H5. induction H5 as [|h l [Hh _] _ IH]; [done|]. cbn. by rewrite Hh. }
  split.
  - unfold held. rewrite waiting_view, Hw. cbn. by rewrite H1, H2, H4.
  - cbn. by rewrite H2.
  - cbn. rewrite H3. constructor.
  - cbn. rewrite H4. constructor.
  - cbn. rewrite H4. intros id Hid. by apply elem_of_nil in Hid.
  - intros i r n E. cbn in E |- *. rewrite H1. change (publishes_of i [] - zero i) with 0.
    change (map handle_view (w_handles w)) with (handle_view <$> w_handles w) in E. rewrite list_lookup_fmap in E.
    destruct (w_handles w !! i) as [h|] eqn:Hh; [|done]. injection E as _ <-. by apply (Forall_lookup_1 _ _ _ _ H5 Hh).
  - intros i. cbn. rewrite H1, H3. constructor.
Qed.

Lemma astep_inv w w' : astep w w' -> inv zero [] (view_of w) -> inv zero [] (view_of w').
Proof.
  assert (forall X (m : SM (World P N) X), keeps m -> ran_to m w w' -> inv zero [] (view_of w) -> inv zero [] (view_of w')) as Hk.
  { intros X m Hm [x E]. by apply (Hm [] w x w' E). }
  intros []; (eapply Hk; [|eassumption]).
  - apply keeps_send.
  - apply keeps_subscribeMany.
  - apply keeps_unsubscribeMany.
  - apply keeps_silent, silent_modify_handle. intros h. by apply H.
  - apply keeps_add_connect.
  - apply keeps_disconnect.
  - apply keeps_reconnect.
  - apply keeps_restore_queue.
  - apply keeps_processCommand.
  - apply keeps_writeComplete.
  - apply keeps_receive_turn.
  - apply keeps_cycle.
  - apply keeps_thread_turn.
  - apply keeps_retry_loop.
  - apply keeps_checkTimeouts.
Qed.

Lemma runs_inv w w' : started w -> rtc astep w w' -> inv zero [] (view_of w').
Proof. intros H. apply started_inv in H. induction 1 as [|w w1 w2 H1 _ IH]; [done|]. apply IH. by eapply astep_inv. Qed.

(** C1. No queued command is lost, and none is freed or reported twice.  Whatever the
    application and the threads do, and in whatever order: every command ever allocated is
    in exactly one of the queue, the responses of a handle and what has been freed, and
    there once; the success and failure callbacks called for a queued command
    ([EvSuccess], [EvFailure]) are at most one, and it is freed by then; the counter of a
    handle is the number of its messages in the queue.  Not counted are the callbacks
    called from the copies of a CONNECT and a DISCONNECT that the handle keeps after the
    command has been freed (m->connect and m->disconnect: [EvConnectSuccess],
    [EvConnectFailure], [EvDisconnected]); the copy of a CONNECT serves every automatic
    reconnection. *)
Theorem commands_accounted (w0 w : World P N) :
  started w0 -> rtc astep w0 w ->
  queue_ids w ++ waiting_ids w ++ freed w ≡ₚ seqZ 0 (w_next w) /\
  NoDup (called w) /\ (forall id, id ∈ called w -> id ∈ freed w) /\
  (forall i h, w_handles w !! i = Some h ->
     a_noBufferedMessages h = Zlen (List.filter (is_publish_of i) (AList.items (w_commands w)))).
Proof.
  intros H Hr. pose proof (runs_inv _ _ H Hr) as [H1 H2 H3 H4 H5 H6 H7]. split; [|split; [exact H4|split]].
  - unfold held in H1. by rewrite waiting_view, app_nil_r in H1.
  - intros id Hid. destruct (H5 id Hid) as [?|Hn]; [done|]. by apply elem_of_nil in Hn.
  - intros i h Hh. rewrite (H6 i _ _ (view_handles w i h Hh)). unfold zero. rewrite Z.sub_0_r. done.
Qed.

(** C3. The commands of a client are carried out in the order they were accepted: the
    identifiers of those taken, those that go to the head of the queue apart, grow, and
    those still in the queue follow. *)
Theorem commands_in_order (w0 w : World P N) (i : nat) :
  started w0 -> rtc astep w0 w -> StronglySorted Z.lt (order i (w_taken w) ++ order i (AList.items (w_commands w))).
Proof. intros H Hr. apply (i_order _ _ _ (runs_inv _ _ H Hr)). Qed.
End Runs.

(** ** A run

    Two connected clients, one of which keeps at most one message in flight. *)

Definition sample_handle (socket window : Z) : MQTTAsyncs MemStore :=
  mkAsync (mkSettings [104; 58; 49] true true true false false None [] 30 None None) false
    (mkClients [99; 49] None None 1 0 1 1 0 (mkNet socket 0 0 0) 0 60 20 None AList.empty AList.empty AList.empty 0 false 4 0 window 0 0)
    (∅ : MemStore) (zero_command (Dconn 0 4)) (zero_command (Ddis false 0 0)) None AList.empty 0 true 0 (mkReconnection true 1 60 1 1 0 false false).
(** PUBACK, two messages, and SUBACK. *)
Definition sample_input : list Z := [64; 2; 0; 1; 48; 4; 0; 1; 97; 7; 48; 4; 0; 1; 97; 8; 144; 3; 0; 2; 128].
Definition sample_world : World MemStore ScriptNet :=
  mkWorld [sample_handle 5 1; sample_handle 6 10] AList.empty (mkPubs ∅ AList.empty) [] (mkScript [] [] sample_input 0 7) 0 0 0 [] [] [10; 20] [false].

Definition both_callbacks : option MQTTAsync_responseOptions :=
  Some (mkResponse 0 true true MQTTProperties_initializer false false initialized_options 0 []).

Definition after {S X} (m : SM S X) (w : S) : S := match m w with Ok (_, w') => w' | _ => w end.
Definition runs {S X} (m : SM S X) (w : S) : bool := match m w with Ok _ => true | _ => false end.
Lemma after_ran {S X} (m : SM S X) w : runs m w = true -> ran_to m w (after m w).
Proof. unfold runs, after. destruct (m w) as [[x w']| |] eqn:E; [|done|done]. intros _. by exists x. Qed.

(** Messages of both clients, and a subscription that is refused: the commands, which the
    first client has to carry out one by one, the acknowledgements, two messages received,
    the first of which is refused at first, and a message left in the queue. *)
Abbreviation sample_astep := (astep (P:=MemStore) (N:=ScriptNet) 32767 no_proxies [0; 0; 0; 0]).
Definition sample_process : SM (World MemStore ScriptNet) bool := MQTTAsync_processCommand 32767 no_proxies [0; 0; 0; 0].
Definition sample_turn : SM (World MemStore ScriptNet) Z := receive_turn 32767 no_proxies 0 5000 7.
Definition sample_queued : World MemStore ScriptNet :=
  after (MQTTAsync_send 1 [97] [3] 0 0 both_callbacks)
    (after (MQTTAsync_subscribeMany 0 [[98]] [1] both_callbacks)
       (after (MQTTAsync_send 0 [97] [1; 2] 1 0 both_callbacks) sample_world)).
Definition sample_sent : World MemStore ScriptNet :=
  after sample_process (after sample_turn (after sample_process (after sample_process sample_queued))).
Definition sample_end : World MemStore ScriptNet :=
  after (MQTTAsync_send 0 [97] [1; 2] 1 0 both_callbacks) (after sample_turn (after sample_turn (after sample_turn sample_sent))).

Ltac sample_step rule := eapply rtc_r; [|eapply rule; apply after_ran; vm_compute; reflexivity].
Lemma sample_run : started sample_world /\ rtc sample_astep sample_world sample_end.
Proof.
  split; [by repeat constructor|].
  unfold sample_end. sample_step step_send. do 3 sample_step step_receive.
  unfold sample_sent. sample_step step_process. sample_step step_receive. do 2 sample_step step_process.
  unfold sample_queued. sample_step step_send. sample_step step_subscribe. sample_step step_send. apply rtc_refl.
Qed.

Lemma commands_accounted_witness :
  (started sample_world /\ rtc sample_astep sample_world sample_end) /\
  (queue_ids sample_end = [3] /\ freed sample_end = [2; 0; 1] /\ called sample_end = [2; 0; 1]) /\
  (queue_ids sample_end ++ waiting_ids sample_end ++ freed sample_end ≡ₚ seqZ 0 (w_next sample_end) /\
   NoDup (called sample_end) /\ (forall id, id ∈ called sample_end -> id ∈ freed sample_end) /\
   (forall i h, w_handles sample_end !! i = Some h ->
      a_noBufferedMessages h = Zlen (List.filter (is_publish_of i) (AList.items (w_commands sample_end))))).
Proof.
  split; [exact sample_run|]. split; [split; [|split]; vm_compute; reflexivity|]. destruct sample_run as [H1 H2].
  exact (commands_accounted 32767 no_proxies [0; 0; 0; 0] sample_world sample_end H1 H2).
Defined.

Lemma commands_in_order_witness :
  (started sample_world /\ rtc sample_astep sample_world sample_end) /\ map q_id (w_taken sample_end) = [0; 2; 1] /\
  order 0 (w_taken sample_end) = [0; 1] /\
  StronglySorted Z.lt (order 0 (w_taken sample_end) ++ order 0 (AList.items (w_commands sample_end))).
Proof.
  split; [exact sample_run|]. split; [vm_compute; reflexivity|]. split; [vm_compute; reflexivity|]. destruct sample_run as [H1 H2].
  exact (commands_in_order 32767 no_proxies [0; 0; 0; 0] sample_world sample_end 0 H1 H2).
Defined.

End AsyncSafety.
