(* ===== verification/AsyncInbox.v ===== *)
(** * The messages received by the asynchronous client

    Whatever the application and the threads do, the messages a client receives are handed
    to the application one after the other, in the order they came: none is lost, none is
    accepted twice, and one that is refused is offered again before those that follow. *)

From S2P Require Import Prelude.
From S2P Require Import Properties.
From S2P Require Import LinkedList.
From S2P Require Import Clients.
From S2P Require Import Packet.
From S2P Require Import State.
From S2P Require Import Store.
From S2P Require Import Persistence.
From S2P Require Import PacketIO.
From S2P Require Import Protocol.
From S2P Require Import Session.
From S2P Require Import Outgoing.
From S2P Require Import AsyncCommands.
From S2P Require Import AsyncQueue.
From S2P Require Import AsyncClient.
From S2P Require Import AsyncReceive.
From S2P Require Import AsyncSafety.
From Stdlib Require Import ZArith Lia List.
From stdpp Require Import base numbers list gmap relations.

Open Scope Z_scope.

Module AsyncInbox.
Import Properties Clients Packet State Store Persistence PacketIO Protocol Session Outgoing AsyncCommands AsyncQueue AsyncClient AsyncReceive AsyncSafety.

(** ** The queue of messages of a session *)

Section Sessions.
Context {P N : Type} {PO : PersistenceOps P} {NT : Transport N} {NC : Connector N}.
Abbreviation M := (SM (St P N)).

Definition inbox_of (s : St P N) : list qEntry := AList.items (messageQueue (st_client s)).
Abbreviation same := (respects (same_view inbox_of)).

Lemma same_modify_client (f : Clients -> Clients) :
  (forall c, AList.items (messageQueue (f c)) = AList.items (messageQueue c)) -> same (modify_client f).
Proof. intros H. apply respects_modify. intros s. apply H. Qed.
Lemma same_call_net {X} (f : N -> X * N) : same (call_net f).
Proof. intros s x s' E. unfold call_net in E. by destruct (f (st_net s)) as [a n]; injection E as _ <-. Qed.
Lemma same_call_persistence (f : P -> Z * P) : same (call_persistence f).
Proof. intros s x s' E. unfold call_persistence in E. by destruct (f (st_phandle s)) as [a n]; injection E as _ <-. Qed.

End Sessions.
#[export] Hint Resolve same_call_net same_call_persistence : respects.
#[export] Hint Extern 1 (respects _ (modify_client _)) => apply same_modify_client; intros ?; reflexivity : respects.

Section SessionOperations.
Context {P N : Type} {PO : PersistenceOps P} {NT : Transport N} {NC : Connector N}.
Abbreviation same := (respects (same_view (inbox_of (P:=P) (N:=N)))).

Lemma same_removePublications l : same (removePublications l).
Proof. induction l as [|m l IH]; cbn [removePublications]; respects; apply IH. Qed.
Lemma same_pending_loop l : same (pending_loop l).
Proof. induction l as [|m l IH]; cbn [pending_loop]; respects; apply IH. Qed.
#[local] Hint Resolve same_removePublications same_pending_loop : respects.

Lemma same_MQTTPacket_Factory v : same (MQTTPacket_Factory v).
Proof. respects. Qed.
Lemma same_MQTTPacket_send_puback v id : same (MQTTPacket_send_puback v id).
Proof. respects. Qed.
Lemma same_MQTTPacket_send_pubrec v id : same (MQTTPacket_send_pubrec v id).
Proof. respects. Qed.
Lemma same_MQTTProtocol_handlePingresps  : same (MQTTProtocol_handlePingresps).
Proof. respects. Qed.
Lemma same_hold_qos2 p : same (hold_qos2 p).
Proof. respects. Qed.
Lemma same_drop_publication i m p : same (drop_publication i m p).
Proof. respects. Qed.
Lemma same_deref_pub p : same (deref_pub p).
Proof. respects. Qed.
Lemma same_find_released a b : same (find_released a b).
Proof. respects. Qed.
Lemma same_release_start m a b : same (release_start m a b).
Proof. respects. Qed.
Lemma same_release_end j m b : same (release_end j m b).
Proof. respects. Qed.
Lemma same_keepalive_ping now : same (keepalive_ping now).
Proof. respects. Qed.
Lemma same_send_again now regardless j m : same (send_again now regardless j m).
Proof. respects. Qed.
Lemma same_clean_messages  : same (clean_messages).
Proof. respects. Qed.
Lemma same_MQTTAsync_closeOnly a b : same (MQTTAsync_closeOnly a b).
Proof. respects. Qed.
Lemma same_connecting px u ws v cp wp : same (connecting px u ws v cp wp).
Proof. respects. Qed.
Lemma same_MQTTProtocol_handlePubacks a : same (MQTTProtocol_handlePubacks a).
Proof. respects. Qed.
Lemma same_MQTTProtocol_handlePubrecs a : same (MQTTProtocol_handlePubrecs a).
Proof. respects. Qed.
Lemma same_MQTTProtocol_handlePubcomps a : same (MQTTProtocol_handlePubcomps a).
Proof. respects. Qed.
Lemma same_MQTTProtocol_checkPendingWrites  : same (MQTTProtocol_checkPendingWrites).
Proof. respects. Qed.
Lemma same_touch_lastSent  : same (touch_lastSent).
Proof. respects. Qed.
Lemma same_MQTTProtocol_startPublish p q r m : same (MQTTProtocol_startPublish p q r m).
Proof. respects. Qed.
Lemma same_MQTTPacket_send_subscribe t q s p id d : same (MQTTPacket_send_subscribe t q s p id d).
Proof. respects. Qed.
Lemma same_MQTTPacket_send_unsubscribe t p id d : same (MQTTPacket_send_unsubscribe t p id d).
Proof. respects. Qed.
Lemma same_MQTTProtocol_connect a px ws v cp wp : same (MQTTProtocol_connect a px ws v cp wp).
Proof. respects. Qed.
End SessionOperations.

#[export] Hint Resolve same_MQTTPacket_Factory same_MQTTPacket_send_puback same_MQTTPacket_send_pubrec same_MQTTProtocol_handlePingresps same_hold_qos2 same_drop_publication same_deref_pub same_find_released same_release_start same_release_end same_keepalive_ping same_send_again same_clean_messages same_MQTTAsync_closeOnly same_connecting same_MQTTProtocol_handlePubacks same_MQTTProtocol_handlePubrecs same_MQTTProtocol_handlePubcomps same_MQTTProtocol_checkPendingWrites same_touch_lastSent same_MQTTProtocol_startPublish same_MQTTPacket_send_subscribe same_MQTTPacket_send_unsubscribe same_MQTTProtocol_connect : respects.

(** ** The queues of messages of the handles, and the events that concern them *)

Definition inbox_event (e : event) : bool :=
  match e with EvReceived _ _ | EvArrived _ _ _ _ => true | _ => false end.

Section Worlds.
Context {P N : Type} {PO : PersistenceOps P} {NT : Transport N} {NC : Connector N}.
Abbreviation A := (SM (World P N)).

Definition queue_of (h : MQTTAsyncs P) : list qEntry := AList.items (messageQueue (a_c h)).
Definition inbox (w : World P N) : list (list qEntry) * list event :=
  (queue_of <$> w_handles w, List.filter inbox_event (w_events w)).
Abbreviation quiet := (respects (same_view inbox)).

Lemma inbox_insert (w : World P N) i h h' : w_handles w !! i = Some h -> queue_of h' = queue_of h ->
  queue_of <$> <[i := h']> (w_handles w) = queue_of <$> w_handles w.
Proof. intros Hh Hq. rewrite list_fmap_insert. apply list_insert_id. by rewrite list_lookup_fmap, Hh, Hq. Qed.

Lemma quiet_session {X} i (m : SM (St P N) X) : respects (same_view inbox_of) m -> quiet (on_session i m).
Proof.
  intros Hm w x w' E. unfold on_session in E. destruct (w_handles w !! i) as [h|] eqn:Hh; [|done].
  destruct (m (session_of w h)) as [[y s]| |] eqn:Em; try done. injection E as <- <-. unfold same_view, inbox. cbn. f_equal.
  apply (inbox_insert w i h); [done|]. exact (Hm _ _ _ Em).
Qed.
Lemma quiet_modify_handle i (f : MQTTAsyncs P -> MQTTAsyncs P) : (forall h, queue_of (f h) = queue_of h) -> quiet (modify_handle i f).
Proof.
  intros Hf w x w' E. apply modify_handle_Ok in E as (h & Hh & ->). unfold same_view, inbox. cbn. f_equal. by apply (inbox_insert w i h).
Qed.
Lemma quiet_emit e : inbox_event e = false -> quiet (emit e : A ()).
Proof. intros He w x w' [= _ <-]. unfold same_view, inbox. cbn. rewrite List.filter_app. cbn. by rewrite He, app_nil_r. Qed.
Lemma quiet_handle i : quiet (get_handle i : A _).
Proof. intros w x w' E. by apply get_handle_Ok in E as [-> _]. Qed.
Lemma quiet_clock : quiet (clock : A _).
Proof. intros w x w'. unfold clock. destruct (time_now (w_net w)). by intros [= _ <-]. Qed.
End Worlds.

#[export] Hint Resolve quiet_handle quiet_clock : respects.
Ltac quiet1 :=
  lazymatch goal with
  | |- respects (same_view inbox) (on_session _ _) => apply quiet_session
  | |- respects (same_view inbox) (modify_handle _ _) => apply quiet_modify_handle; intros ?; first [reflexivity | unfold queue_of; cbn; repeat case_match; reflexivity]
  | |- respects (same_view inbox) (emit _) => apply quiet_emit; reflexivity
  | |- respects _ _ => respects1
  end.
Ltac quiet := repeat quiet1.

Section QuietOperations.
Context {P N : Type} {PO : PersistenceOps P} {NT : Transport N} {NC : Connector N}.
Context (RAND_MAX : Z) (px : proxies) (stale_mask : list Z).
Abbreviation quiet := (respects (same_view (inbox (P:=P) (N:=N)))).

Lemma quiet_fail_all l : quiet (fail_all l).
Proof. induction l as [|q l IH]; cbn [fail_all]; quiet; apply IH. Qed.
Lemma quiet_choose_command l ign : quiet (choose_command l ign).
Proof. revert ign. induction l as [|q l IH]; intros ign; cbn [choose_command]; quiet; apply IH. Qed.
Lemma quiet_queue_restored l : quiet (queue_restored l).
Proof. induction l as [|q l IH]; cbn [queue_restored]; quiet; apply IH. Qed.
Lemma quiet_for_clients f n i : (forall j, quiet (f j)) -> quiet (for_clients f n i).
Proof. intros Hf. revert i. induction n as [|n IH]; intros i; cbn [for_clients]; quiet. Qed.
Lemma quiet_every_client f : (forall j, quiet (f j)) -> quiet (every_client f).
Proof. intros Hf. unfold every_client. quiet. by apply quiet_for_clients. Qed.
Lemma quiet_retries_client n j now regardless i : quiet (retries_client n j now regardless i).
Proof. revert j. induction n as [|n IH]; intros j; cbn [retries_client]; quiet; apply IH. Qed.
#[local] Hint Resolve quiet_fail_all quiet_choose_command quiet_queue_restored quiet_retries_client : respects.
#[local] Hint Extern 1 (respects (same_view inbox) (every_client _)) => apply quiet_every_client; intros ?; solve [quiet] : respects.

(** What leaves the messages alone: all steps but those of the receiving thread. *)
Lemma quiet_MQTTAsync_send i d p q r c : quiet (MQTTAsync_send i d p q r c).
Proof. quiet. Qed.
Lemma quiet_MQTTAsync_subscribeMany i t q r : quiet (MQTTAsync_subscribeMany i t q r).
Proof. quiet. Qed.
Lemma quiet_MQTTAsync_unsubscribeMany i t r : quiet (MQTTAsync_unsubscribeMany i t r).
Proof. quiet. Qed.
Lemma quiet_add_connect i cmd : quiet (add_connect i cmd).
Proof. quiet. Qed.
Lemma quiet_MQTTAsync_disconnect i o : quiet (MQTTAsync_disconnect i o).
Proof. quiet. Qed.
Lemma quiet_MQTTAsync_reconnect i : quiet (MQTTAsync_reconnect i).
Proof. quiet. Qed.
Lemma quiet_restore_queue i r : quiet (restore_queue i r).
Proof. quiet. Qed.
Lemma quiet_MQTTAsync_processCommand  : quiet (MQTTAsync_processCommand RAND_MAX px stale_mask).
Proof. quiet. Qed.
Lemma quiet_MQTTAsync_writeComplete i rc : quiet (MQTTAsync_writeComplete i rc).
Proof. quiet. Qed.
Lemma quiet_nextOrClose i rc : quiet (nextOrClose RAND_MAX i rc).
Proof. quiet. Qed.
Lemma quiet_MQTTAsync_connecting i : quiet (MQTTAsync_connecting RAND_MAX px i).
Proof. quiet. Qed.
Lemma quiet_handle_ack i a : quiet (handle_ack i a).
Proof. quiet. Qed.
Lemma quiet_handle_suback i a : quiet (handle_suback i a).
Proof. quiet. Qed.
Lemma quiet_handle_unsuback i a : quiet (handle_unsuback i a).
Proof. quiet. Qed.
Lemma quiet_update i (f : Clients -> res Clients) : (forall c c', f c = Ok c' -> messageQueue c' = messageQueue c) ->
  quiet (h ← get_handle i; c ← sm_lift (f (a_c h)); modify_handle i (fun h => with_client h c)).
Proof.
  intros Hf w x w' E. apply sm_bind_Ok in E as (h & w1 & E1 & E). apply get_handle_Ok in E1 as [-> Hh].
  apply sm_bind_Ok in E as (c & w2 & E2 & E). unfold sm_lift in E2. destruct (f (a_c h)) as [c'| |] eqn:Ef; try done. injection E2 as <- <-.
  apply modify_handle_Ok in E as (h' & Hh' & ->). assert (h' = h) as -> by congruence. unfold same_view, inbox. cbn. f_equal.
  apply (inbox_insert w i h); [done|]. unfold queue_of. cbn. by rewrite (Hf _ _ Ef).
Qed.
Lemma receive_maximum_queue connack c c' : receive_maximum connack c = Ok c' -> messageQueue c' = messageQueue c.
Proof.
  unfold receive_maximum. destruct (_ <? _); [by intros [= <-]|]. destruct (cka_properties connack); [|done]. destruct (MQTTProperties_hasProperty _ _); [|by intros [= <-]].
  intros E. apply res_bind_Ok in E as (n & _ & E). injection E as <-. by destruct (_ <? _).
Qed.
Lemma quiet_handle_connack i c : quiet (handle_connack RAND_MAX i c).
Proof.
  unfold handle_connack. apply (respects_bind (same_view inbox)); [quiet|intros rc]. apply (respects_bind (same_view inbox)); [|intros ?; quiet].
  destruct (_ =? _); [|quiet]. do 3 (apply (respects_bind (same_view inbox)); [quiet|intros ?]). apply quiet_update, receive_maximum_queue.
Qed.
#[local] Hint Resolve quiet_handle_connack : respects.
Lemma quiet_thread_packet i p : quiet (thread_packet RAND_MAX i p).
Proof. quiet. Qed.
Lemma quiet_MQTTAsync_retry interval last : quiet (MQTTAsync_retry interval last).
Proof. quiet. Qed.
Lemma quiet_MQTTAsync_checkTimeouts last : quiet (MQTTAsync_checkTimeouts RAND_MAX last).
Proof. quiet. Qed.
End QuietOperations.

#[export] Hint Resolve quiet_MQTTAsync_send quiet_MQTTAsync_subscribeMany quiet_MQTTAsync_unsubscribeMany quiet_add_connect quiet_MQTTAsync_disconnect quiet_MQTTAsync_reconnect quiet_restore_queue quiet_MQTTAsync_processCommand quiet_MQTTAsync_writeComplete quiet_nextOrClose quiet_MQTTAsync_connecting quiet_handle_ack quiet_handle_suback quiet_handle_unsuback quiet_handle_connack quiet_thread_packet quiet_MQTTAsync_retry quiet_MQTTAsync_checkTimeouts : respects.

(** ** The specification: a queue *)

#[export] Instance qEntry_eq_dec : EqDecision qEntry.
Proof. intros x y. unfold Decision. decide equality; apply (_ : EqDecision _). Defined.

(** A message without the number it has in the store. *)
Definition unnumbered (m : qEntry) : qEntry := set_seqno m 0.

(** The messages a client has received and not handed over: a message received goes to the
    end; what is offered to the application is the first, which leaves when it is
    accepted.  An offer of another message has no result. *)
Definition take_turn (i : nat) (q : list qEntry) (e : event) : option (list qEntry) :=
  match e with
  | EvReceived j m => Some (if Nat.eqb j i then q ++ [unnumbered m] else q)
  | EvArrived j _ m accepted =>
      if negb (Nat.eqb j i) then Some q
      else match q with
           | x :: rest => if decide (x = unnumbered m) then Some (if accepted then rest else q) else None
           | [] => None
           end
  | _ => Some q
  end.
Fixpoint replay (i : nat) (q : list qEntry) (evs : list event) : option (list qEntry) :=
  match evs with [] => Some q | e :: evs => q ← take_turn i q e; replay i q evs end.

(** The messages received, and those the application accepted. *)
Definition received_by (i : nat) (e : event) : option qEntry :=
  match e with EvReceived j m => if Nat.eqb j i then Some (unnumbered m) else None | _ => None end.
Definition accepted_by (i : nat) (e : event) : option qEntry :=
  match e with EvArrived j _ m true => if Nat.eqb j i then Some (unnumbered m) else None | _ => None end.

Lemma replay_app i q evs evs' : replay i q (evs ++ evs') = (q ← replay i q evs; replay i q evs').
Proof. revert q. induction evs as [|e evs IH]; intros q; cbn; [done|]. destruct (take_turn i q e); cbn; [apply IH|done]. Qed.
Lemma replay_inbox i q evs : replay i q (List.filter inbox_event evs) = replay i q evs.
Proof.
  revert q. induction evs as [|e evs IH]; intros q; [done|]. cbn [List.filter]. destruct (inbox_event e) eqn:He; cbn [replay].
  - destruct (take_turn i q e); cbn; [apply IH|done].
  - assert (take_turn i q e = Some q) as -> by (by destruct e). cbn. apply IH.
Qed.

(** Nothing is lost, doubled or overtaken. *)
Lemma replay_order i q evs q' : replay i q evs = Some q' -> omap (accepted_by i) evs ++ q' = q ++ omap (received_by i) evs.
Proof.
  revert q. induction evs as [|e evs IH]; intros q E; cbn in E |- *; [injection E as <-; by rewrite app_nil_r|].
  destruct e as [| | | | | | | | |j m|j n m acc|]; cbn in *; try by apply IH.
  - destruct (Nat.eqb j i); cbn; apply IH in E; [|done]. by rewrite E, <- app_assoc.
  - destruct (Nat.eqb j i); cbn in *; [|destruct acc; by apply IH]. destruct q as [|x q]; [done|]. destruct (decide _) as [->|]; [|done].
    destruct acc; cbn in *; apply IH in E; [|done]. cbn. by rewrite E.
Qed.

(** ** The queues follow the specification *)

(** From the queues [start], the events are those of queues that are now [qs]. *)
Definition follows (start : list (list qEntry)) (x : list (list qEntry) * list event) : Prop :=
  List.length start = List.length x.1 /\
  forall i q0 q, start !! i = Some q0 -> x.1 !! i = Some q -> replay i (unnumbered <$> q0) x.2 = Some (unnumbered <$> q).

(** One more event, and what becomes of the queue of its client. *)
Lemma follows_event start qs evs i q e q' :
  qs !! i = Some q -> take_turn i (unnumbered <$> q) e = Some (unnumbered <$> q') -> (forall j qj, j <> i -> take_turn j qj e = Some qj) ->
  follows start (qs, evs) -> follows start (<[i := q']> qs, evs ++ [e]).
Proof.
  intros Hi He Hother [Hlen H]. split; cbn in *; [by rewrite length_insert|]. intros j q0 qj H0 Hj. rewrite replay_app. destruct (decide (j = i)) as [->|Hne].
  - rewrite list_lookup_insert_eq in Hj by (by eapply lookup_lt_Some). injection Hj as <-. rewrite (H _ _ _ H0 Hi). cbn. by rewrite He.
  - rewrite list_lookup_insert_ne in Hj by done. rewrite (H _ _ _ H0 Hj). cbn. by rewrite Hother.
Qed.

Lemma take_received i q m : take_turn i (unnumbered <$> q) (EvReceived i m) = Some (unnumbered <$> (q ++ [m])).
Proof. cbn. by rewrite Nat.eqb_refl, fmap_app. Qed.
Lemma take_arrived i m q n b : take_turn i (unnumbered <$> m :: q) (EvArrived i n m b) = Some (unnumbered <$> (if b then q else m :: q)).
Proof. cbn. rewrite Nat.eqb_refl. cbn. rewrite decide_True by done. by destruct b. Qed.
Lemma other_received i m j q : j <> i -> take_turn j q (EvReceived i m) = Some q.
Proof. intros H%not_eq_sym%Nat.eqb_neq. cbn. by rewrite H. Qed.
Lemma other_arrived i n m b j q : j <> i -> take_turn j q (EvArrived i n m b) = Some q.
Proof. intros H%not_eq_sym%Nat.eqb_neq. cbn. by rewrite H. Qed.

Section Receiving.
Context {P N : Type} {PO : PersistenceOps P} {NT : Transport N} {NC : Connector N}.
Context (RAND_MAX : Z) (px : proxies).
Abbreviation A := (SM (World P N)).
Implicit Types w : World P N.

Lemma emit_inbox e w x w' : inbox_event e = true -> emit e w = Ok (x, w') -> inbox w' = ((inbox w).1, (inbox w).2 ++ [e]).
Proof. intros He [= _ <-]. unfold inbox. cbn. rewrite List.filter_app. cbn. by rewrite He. Qed.
(** A message offered, when the queues are taken to be [qs]. *)
Lemma deliver_inbox start qs i n m q w b w' : MQTTAsync_deliverMessage i n m w = Ok (b, w') -> qs !! i = Some (m :: q) ->
  follows start (qs, (inbox w).2) -> (inbox w').1 = (inbox w).1 /\ follows start (<[i := if b then q else m :: q]> qs, (inbox w').2).
Proof.
  intros [= <- <-] Hi Hf. split; [done|]. unfold inbox at 1. cbn [snd put_events put_answers w_events]. rewrite List.filter_app.
  eapply follows_event; [exact Hi|apply take_arrived|intros j qj; apply other_arrived|exact Hf].
Qed.

Lemma session_inbox {X} i (m : SM (St P N) X) (R : list qEntry -> list qEntry -> Prop) w x w' :
  (forall s y s', m s = Ok (y, s') -> R (inbox_of s) (inbox_of s')) -> on_session i m w = Ok (x, w') ->
  exists q q', (inbox w).1 !! i = Some q /\ R q q' /\ inbox w' = (<[i := q']> (inbox w).1, (inbox w).2).
Proof.
  intros HR E. unfold on_session in E. destruct (w_handles w !! i) as [h|] eqn:Hh; [|done].
  destruct (m (session_of w h)) as [[y s]| |] eqn:Em; try done. injection E as <- <-. apply HR in Em.
  exists (queue_of h), (inbox_of s). unfold inbox. cbn. split; [by rewrite list_lookup_fmap, Hh|]. split; [exact Em|].
  by rewrite list_fmap_insert.
Qed.

Lemma persist_same c qe (p : P) rc c' qe' p' : MQTTPersistence_persistQueueEntry c qe p = Ok (rc, c', qe', p') ->
  messageQueue c' = messageQueue c /\ unnumbered qe' = unnumbered qe.
Proof.
  unfold MQTTPersistence_persistQueueEntry. intros E. apply res_bind_Ok in E as ([[bufs rc0] stem] & _ & E).
  destruct (snprintf_key _ _ _); [|by injection E as _ <- <- _].
  destruct (match beforeWrite with None => _ | Some f => _ end). destruct (_ =? 0); [destruct (pput _ _ _)|]; by injection E as _ <- <- _.
Qed.
Definition appended (qe : qEntry) (q q' : list qEntry) : Prop := exists qe', q' = q ++ [qe'] /\ unnumbered qe' = unnumbered qe.
Lemma queue_message_inbox qe (s : St P N) y s' : queue_message qe s = Ok (y, s') -> appended qe (inbox_of s) (inbox_of s').
Proof.
  intros E. unfold queue_message in E. apply sm_bind_Ok in E as (s0 & s1 & [= <- <-] & E). destruct (persistence (st_client s)).
  - apply sm_bind_Ok in E as ([[[rc c] qe'] p] & s1 & E1 & E). unfold sm_lift in E1. destruct (MQTTPersistence_persistQueueEntry _ _ _) as [[[[rc0 c0] qe0] p0]| |] eqn:Ep; try done.
    injection E1 as <- <- <- <- <-. apply persist_same in Ep as [H1 H2]. apply sm_bind_Ok in E as ([] & s2 & [= <-] & [= _ <-]).
    exists qe0. split; [|done]. unfold inbox_of. cbn. by rewrite H1.
  - injection E as _ <-. by exists qe.
Qed.
Lemma forget_inbox qe (s : St P N) y s' : forget_entry qe s = Ok (y, s') -> inbox_of s' = tail (inbox_of s).
Proof.
  intros E. unfold forget_entry in E. apply sm_bind_Ok in E as (s0 & s1 & [= <- <-] & E). apply sm_bind_Ok in E as (rc & s1 & E1 & E).
  assert (inbox_of s1 = inbox_of s) as <-.
  { destruct (persistence _); [|by injection E1 as _ <-]. by eapply same_call_persistence. }
  injection E as _ <-. unfold inbox_of. cbn. by destruct (AList.items _).
Qed.

Definition delivers {X} (m : A X) : Prop := forall start w x w', m w = Ok (x, w') -> follows start (inbox w) -> follows start (inbox w').
Lemma delivers_quiet {X} (m : A X) : respects (same_view inbox) m -> delivers m.
Proof. intros H start w x w' E. by rewrite (H _ _ _ E). Qed.
Lemma delivers_bind {X Y} (m : A X) (f : X -> A Y) : delivers m -> (forall x, delivers (f x)) -> delivers (m ≫= f).
Proof. intros H1 H2 start w y w' E Hw. apply sm_bind_Ok in E as (x & w1 & E1 & E2). eapply H2; [exact E2|]. by eapply H1. Qed.

Lemma delivers_queued i : delivers (deliver_queued i).
Proof.
  intros start w x w' E Hw. unfold deliver_queued in E. apply sm_bind_Ok in E as (h & w1 & E1 & E). apply get_handle_Ok in E1 as [-> Hh].
  destruct (AList.items (messageQueue (a_c h))) as [|m q] eqn:Hq; [by injection E as _ <-|]. destruct (a_ma _); [|by injection E as _ <-].
  assert ((inbox w).1 !! i = Some (m :: q)) as Hi by (unfold inbox, queue_of; cbn; by rewrite list_lookup_fmap, Hh; cbn; rewrite Hq).
  apply sm_bind_Ok in E as (b & w1 & E1 & E). apply (deliver_inbox start (inbox w).1 i _ m q) in E1 as [Hqs Hf]; [|done|by destruct (inbox w)].
  destruct b.
  - apply (session_inbox _ _ (fun q q' => q' = tail q)) in E as (q1 & q2 & Hq1 & -> & ->); [|apply forget_inbox].
    rewrite Hqs, Hi in *. injection Hq1 as <-. exact Hf.
  - injection E as _ <-. rewrite list_insert_id in Hf by done. rewrite <- Hqs in Hf. by destruct (inbox w1).
Qed.

Lemma follows_same start qs evs i q q' : qs !! i = Some q -> unnumbered <$> q' = unnumbered <$> q ->
  follows start (qs, evs) -> follows start (<[i := q']> qs, evs).
Proof.
  intros Hi Hq [Hlen H]. split; cbn in *; [by rewrite length_insert|]. intros j q0 qj H0 Hj. destruct (decide (j = i)) as [->|Hne].
  - rewrite list_lookup_insert_eq in Hj by (by eapply lookup_lt_Some). injection Hj as <-. rewrite Hq. by apply H.
  - rewrite list_lookup_insert_ne in Hj by done. by apply H.
Qed.

Lemma delivers_processPublication i p a : delivers (AsyncReceive.Protocol_processPublication i p a).
Proof.
  intros start w x w' E Hw. unfold AsyncReceive.Protocol_processPublication in E. destruct (pub_topic p) as [topic|]; [|done].
  apply sm_bind_Ok in E as (props & w1 & E1 & E). assert (inbox w1 = inbox w) as Hw1.
  { destruct (MQTTVERSION_5 <=? _); [|by injection E1 as _ <-]. exact (respects_lift (same_view inbox) _ _ _ _ E1). }
  rewrite <- Hw1 in Hw. clear E1 Hw1 w. revert E. set (qe := mkqEntry _ _ _ _ _ _ _ _ _). intros E.
  apply sm_bind_Ok in E as ([] & w2 & E2 & E). apply emit_inbox in E2; [|done].
  apply sm_bind_Ok in E as (h & w3 & E3 & E). apply get_handle_Ok in E3 as [-> Hh]. destruct (inbox w1) as [qs evs]. cbn in E2.
  assert ((inbox w2).1 !! i = Some (queue_of h)) as Hi by (unfold inbox; cbn; by rewrite list_lookup_fmap, Hh).
  assert (follows start (<[i := queue_of h ++ [qe]]> (inbox w2).1, (inbox w2).2)) as Hf.
  { rewrite E2 in Hi |- *. eapply follows_event; [exact Hi|apply take_received|intros j qj; apply other_received|exact Hw]. }
  clear E2 Hw qs evs w1. assert (Hlt : (i < List.length (inbox w2).1)%nat) by (by eapply lookup_lt_Some).
  apply sm_bind_Ok in E as (b & w3 & E3 & E).
  assert ((inbox w3).1 = (inbox w2).1 /\ follows start (<[i := if b then queue_of h else queue_of h ++ [qe]]> (inbox w2).1, (inbox w3).2)) as [Hq Hf3].
  { destruct (_ && _ && _) eqn:Hc; [|by injection E3 as <- <-]. apply andb_true_iff in Hc as [[Hc _]%andb_true_iff _]. apply Z.eqb_eq in Hc.
    assert (queue_of h = []) as Hn by (unfold queue_of; destruct (AList.items _); [done|unfold Zlen in Hc; cbn in Hc; lia]). rewrite Hn in *.
    apply (deliver_inbox start (<[i := [qe]]> (inbox w2).1) i _ qe []) in E3 as [Hq Hf3]; [|by rewrite list_lookup_insert_eq|done].
    split; [done|]. by rewrite list_insert_insert_eq in Hf3. }
  destruct b.
  - injection E as _ <-. rewrite list_insert_id in Hf3 by done. rewrite <- Hq in Hf3. by destruct (inbox w3).
  - apply (session_inbox _ _ (appended qe)) in E as (q1 & q2 & Hq1 & (qe' & -> & Hu) & ->); [|apply queue_message_inbox].
    rewrite Hq in *. assert (q1 = queue_of h) as -> by congruence. rewrite <- (list_insert_insert_eq (inbox w2).1 i (queue_of h ++ [qe']) (queue_of h ++ [qe])).
    eapply follows_same; [by apply list_lookup_insert_eq| |exact Hf3]. by rewrite !fmap_app; cbn; rewrite Hu.
Qed.
End Receiving.

#[export] Hint Resolve delivers_queued delivers_processPublication : respects.
Ltac delivers1 :=
  lazymatch goal with
  | |- delivers (_ ≫= _) => apply delivers_bind; [|intros ?]
  | |- delivers (let '_ := ?x in _) => destruct x
  | |- delivers (match ?x with _ => _ end) => destruct x
  | |- delivers (if ?x then _ else _) => destruct x
  | |- _ => first [solve [eauto with respects] | apply delivers_quiet; solve [quiet]]
  end.
Ltac delivers := repeat delivers1.

Section Steps.
Context {P N : Type} {PO : PersistenceOps P} {NT : Transport N} {NC : Connector N}.
Context (RAND_MAX : Z) (px : proxies) (stale_mask : list Z).
Abbreviation delivers := (delivers (P:=P) (N:=N)).
Implicit Types w : World P N.

Lemma delivers_handlePublishes i p : delivers (AsyncReceive.MQTTProtocol_handlePublishes i p).
Proof. unfold AsyncReceive.MQTTProtocol_handlePublishes, AsyncReceive.receive_qos2. delivers. Qed.
Lemma delivers_handlePubrels i a : delivers (AsyncReceive.MQTTProtocol_handlePubrels i a).
Proof. unfold AsyncReceive.MQTTProtocol_handlePubrels. delivers. Qed.
#[local] Hint Resolve delivers_handlePublishes delivers_handlePubrels : respects.
Lemma delivers_cycle_packet i pack : delivers (cycle_packet i pack).
Proof. unfold cycle_packet. delivers. Qed.
#[local] Hint Resolve delivers_cycle_packet : respects.
Lemma delivers_cycle i interval last : delivers (MQTTAsync_cycle RAND_MAX px i interval last).
Proof. unfold MQTTAsync_cycle. delivers. Qed.
Lemma delivers_thread_turn i sock rc pack : delivers (thread_turn RAND_MAX i sock rc pack).
Proof. unfold thread_turn. delivers. Qed.
#[local] Hint Resolve delivers_cycle delivers_thread_turn : respects.
Lemma delivers_receive_turn i interval last : delivers (receive_turn RAND_MAX px i interval last).
Proof. unfold receive_turn. delivers. Qed.
#[local] Hint Resolve delivers_receive_turn : respects.

Lemma astep_follows start w w' : astep RAND_MAX px stale_mask w w' -> follows start (inbox w) -> follows start (inbox w').
Proof.
  assert (forall X (m : SM (World P N) X), delivers m -> ran_to m w w' -> follows start (inbox w) -> follows start (inbox w')) as Hk.
  { intros X m Hm [x E]. by apply (Hm start w x w' E). }
  intros []; (eapply Hk; [|eassumption]); try solve [delivers].
  apply delivers_quiet, quiet_modify_handle. intros h. by apply H.
Qed.

Lemma runs_follow w0 w : started w0 -> rtc (astep RAND_MAX px stale_mask) w0 w -> follows (inbox w0).1 (inbox w).
Proof.
  intros (_ & _ & _ & He & _) Hr. assert (follows (inbox w0).1 (inbox w0)) as H0.
  { split; [done|]. intros i q0 q H1 H2. unfold inbox at 1. cbn [snd]. rewrite He. cbn. congruence. }
  revert H0. generalize (inbox w0).1. clear He. intros start H0. induction Hr as [|w w1 w2 H1 _ IH]; [done|]. apply IH. by eapply astep_follows.
Qed.

(** C4. The messages of a client are handed to the application one after the other.  Whatever the
    application and the threads do, and in whatever order, the events of a client are those
    of a queue: each message received goes to its end, each call of the callback is for
    its first message, which leaves it when it is accepted, and what is then in the queue
    is the queue of messages of the client.  So the messages accepted, and then those still
    in the queue, are those the queue held at first and then those received, in the same
    order: none is lost, none is handed over again once it was accepted, and none overtakes another. *)
Theorem messages_in_order w0 w i h0 h :
  started w0 -> rtc (astep RAND_MAX px stale_mask) w0 w -> w_handles w0 !! i = Some h0 -> w_handles w !! i = Some h ->
  replay i (unnumbered <$> queue_of h0) (w_events w) = Some (unnumbered <$> queue_of h) /\
  omap (accepted_by i) (w_events w) ++ (unnumbered <$> queue_of h) = (unnumbered <$> queue_of h0) ++ omap (received_by i) (w_events w).
Proof.
  intros Hs Hr H0 H. assert (replay i (unnumbered <$> queue_of h0) (w_events w) = Some (unnumbered <$> queue_of h)) as Hq.
  { rewrite <- replay_inbox. apply (runs_follow w0 w Hs Hr); unfold inbox; cbn; rewrite list_lookup_fmap; [by rewrite H0|by rewrite H]. }
  split; [exact Hq|]. by apply replay_order.
Qed.
End Steps.

(** In the sample run the first message is refused, and offered again. *)
Definition offered (e : event) : option (list Z * bool) :=
  match e with EvArrived 0 _ m b => Some (q_payload m, b) | _ => None end.
Lemma messages_in_order_witness :
  started sample_world /\ rtc sample_astep sample_world sample_end /\ omap offered (w_events sample_end) = [([7], false); ([7], true); ([8], true)] /\
  exists h, w_handles sample_end !! 0%nat = Some h /\
    replay 0 [] (w_events sample_end) = Some (unnumbered <$> queue_of h) /\
    omap (accepted_by 0) (w_events sample_end) ++ (unnumbered <$> queue_of h) = omap (received_by 0) (w_events sample_end).
Proof.
  destruct sample_run as [H1 H2]. split; [exact H1|]. split; [exact H2|]. split; [vm_compute; reflexivity|].
  destruct (w_handles sample_end !! 0%nat) as [h|] eqn:Hh; [|exfalso; revert Hh; vm_compute; discriminate]. exists h. split; [reflexivity|].
  assert (w_handles sample_world !! 0%nat = Some (sample_handle 5 1)) as H0 by reflexivity.
  pose proof (messages_in_order 32767 no_proxies [0; 0; 0; 0] sample_world sample_end 0 (sample_handle 5 1) h H1 H2 H0 Hh) as H.
  assert (unnumbered <$> queue_of (sample_handle 5 1) = []) as Hn by reflexivity. rewrite Hn, app_nil_l in H. exact H.
Defined.

End AsyncInbox.
