(* ===== verification/AsyncApi.v ===== *)
(** * Calls of the asynchronous API

    What [MQTTAsync_send] promises: its errors leave everything as it was, and a message it
    accepts is queued behind the others with a token nothing else is using. *)

From S2P Require Import Prelude.
From S2P Require Import Utf8.
From S2P Require Import Wire.
From S2P Require Import Properties.
From S2P Require Import LinkedList.
From S2P Require Import Clients.
From S2P Require Import Packet.
From S2P Require Import State.
From S2P Require Import Persistence.
From S2P Require Import Protocol.
From S2P Require Import Outgoing.
From S2P Require Import AsyncCommands.
From S2P Require Import AsyncQueue.
From S2P Require Import AsyncSafety.
From Stdlib Require Import ZArith Lia List.
From stdpp Require Import base numbers list gmap.

Open Scope Z_scope.

Module AsyncApi.
Import Utf8 Wire Properties Clients Packet State Persistence Protocol Outgoing AsyncCommands AsyncQueue AsyncSafety.

Section Api.
Context {P N : Type} {PO : PersistenceOps P} {NT : Transport N} {NC : Connector N}.
Implicit Types w : World P N.
Implicit Types h : MQTTAsyncs P.

(** What the tests of a call look at. *)
Definition lists_of w h : id_lists := mkIdLists (w_commands w) (outboundMsgs (a_c h)) (a_responses h).

(** A handle after its identifiers were searched: all that a call looks at is the same. *)
Record same_handle h h' : Prop := {
  sh_settings : a_settings h' = a_settings h;
  sh_buffered : a_noBufferedMessages h' = a_noBufferedMessages h;
  sh_persistence : persistence (a_c h') = persistence (a_c h)
}.
Lemma same_handle_refl h : same_handle h h.
Proof. done. Qed.
Lemma same_handle_trans h h' h'' : same_handle h h' -> same_handle h' h'' -> same_handle h h''.
Proof. intros [] []. split; congruence. Qed.

(** What a call to send asks of its arguments and of the state: among the rest, for QoS 1
    and 2, an identifier other than the last one given that nothing is using. *)
Definition free_token w h (id : Z) : Prop := 1 <= id <= MAX_MSG_ID /\ ~ id_in_use (lists_of w h) id.
Record send_accepts w h (destinationName : list Z) (qos : Z) (response : option MQTTAsync_responseOptions) : Prop := {
  sa_allowed : send_allowed h = true;
  sa_topic : UTF8_validateString (Some destinationName) = true;
  sa_qos : 0 <= qos <= 2;
  sa_token : qos = 0 \/ exists id, id <> msgID (a_c h) /\ free_token w h id;
  sa_buffer : refuses_new h = false;
  sa_response : check_response (a_c h) response = MQTTASYNC_SUCCESS
}.

(** The identifier given is not in use, unless there is none. *)
Lemma assign_spec i w h id w' :
  w_handles w !! i = Some h -> 0 <= msgID (a_c h) <= MAX_MSG_ID -> MQTTAsync_assignMsgId i w = Ok (id, w') ->
  (if id =? 0 then ~ (exists id, id <> msgID (a_c h) /\ free_token w h id) else id <> msgID (a_c h) /\ free_token w h id) /\
  exists h', w_handles w' !! i = Some h' /\ same_handle h h'.
Proof.
  intros Hh Hm E. unfold MQTTAsync_assignMsgId in E. apply sm_bind_Ok in E as (h0 & w1 & E1 & E). apply get_handle_Ok in E1 as [-> Hh0].
  assert (h0 = h) as -> by congruence. apply sm_bind_Ok in E as (w1 & w2 & [= <- <-] & E).
  pose proof (assign_id_loop_spec (Z.to_nat MAX_MSG_ID) (msgID (a_c h)) 0 (lists_of w h) Hm) as Hl. unfold lists_of in Hl.
  rewrite <- candidate_first in Hl by done. specialize (Hl ltac:(unfold MAX_MSG_ID; lia) ltac:(lia) ltac:(unfold MAX_MSG_ID; lia) ltac:(intros j Hj; lia)).
  destruct (assign_id_loop _ _ _ _) as [[id' l]|]; [|done]. destruct Hl as [_ Hl].
  apply sm_bind_Ok in E as ([] & w1 & [= <-] & E). apply sm_bind_Ok in E as ([] & w2 & E2 & [= <- <-]).
  apply modify_handle_Ok in E2 as (h' & Hh' & ->). cbn in Hh'. assert (h' = h) as -> by congruence. split.
  - destruct Hl as [(j & Hj & -> & Hs & Hn & _)|(-> & _ & Hu)].
    + pose proof (candidate_range (msgID (a_c h)) j) as Hj'. destruct (Z.eqb_spec (candidate (msgID (a_c h)) j) 0); [lia|]. by split.
    + intros (id & Hne & Hr & Hn). by apply Hn, Hu.
  - eexists. split; [cbn; apply list_lookup_insert_eq; by eapply lookup_lt_Some|]. by split; cbn; destruct (id' =? 0).
Qed.

Lemma send_tests_spec i d qos r w h rc token w' :
  w_handles w !! i = Some h -> 0 <= msgID (a_c h) <= MAX_MSG_ID -> send_tests i d qos r w = Ok ((rc, token), w') ->
  (exists h', w_handles w' !! i = Some h' /\ same_handle h h') /\
  if rc =? MQTTASYNC_SUCCESS then send_accepts w h d qos r /\ (if qos =? 0 then token = 0 else free_token w h token)
  else ~ send_accepts w h d qos r.
Proof.
  intros Hh Hm E. unfold send_tests in E. apply sm_bind_Ok in E as (h0 & w1 & E1 & E). apply get_handle_Ok in E1 as [-> Hh0].
  assert (h0 = h) as -> by congruence.
  destruct (send_allowed h) eqn:E1; cbn [negb] in E; [|injection E as <- <- <-; split; [by exists h|intros []; congruence]].
  destruct (UTF8_validateString (Some d)) eqn:E2; cbn [negb] in E; [|injection E as <- <- <-; split; [by exists h|intros []; congruence]].
  destruct ((qos <? 0) || (2 <? qos)) eqn:E3.
  { injection E as <- <- <-. split; [by exists h|intros []]. apply orb_true_iff in E3 as [?%Z.ltb_lt|?%Z.ltb_lt]; lia. }
  apply orb_false_iff in E3 as [E3%Z.ltb_ge E3'%Z.ltb_ge]. apply sm_bind_Ok in E as (id & w1 & E4 & E).
  assert ((if qos =? 0 then id = 0 else if id =? 0 then ~ (exists id, id <> msgID (a_c h) /\ free_token w h id) else id <> msgID (a_c h) /\ free_token w h id) /\
          exists h', w_handles w1 !! i = Some h' /\ same_handle h h') as [Hid Hsame].
  { destruct (Z.eqb_spec qos 0) as [->|Hq]; [injection E4 as <- <-; eauto using same_handle_refl|].
    destruct (Z.ltb_spec 0 qos); [|lia]. by eapply assign_spec. }
  destruct ((0 <? qos) && (id =? 0)) eqn:E5.
  { injection E as <- <- <-. split; [done|]. intros [_ _ _ Ht _ _]. apply andb_true_iff in E5 as [?%Z.ltb_lt E5]. rewrite E5 in Hid.
    destruct (Z.eqb_spec qos 0); [lia|]. destruct Ht as [?|Ht]; [lia|]. by apply Hid. }
  destruct (refuses_new h) eqn:E6; injection E as <- <- <-; [split; [done|intros []; congruence]|]. split; [done|].
  destruct (Z.eqb_spec (check_response (a_c h) r) MQTTASYNC_SUCCESS) as [Hc|Hc]; [|by intros []].
  destruct (Z.eqb_spec qos 0) as [->|Hq]; [split; [by constructor; auto|done]|].
  destruct (Z.ltb_spec 0 qos); [|lia]. cbn [andb] in E5. rewrite E5 in Hid. split; [|apply Hid]. constructor; [done|done|lia|eauto|done|done].
Qed.

(** The command as it is queued: its token and, when nothing is stored, what it carries. *)
Record queued_as (h : MQTTAsyncs P) (q q' : MQTTAsync_queuedCommand) : Prop := {
  qa_same : same_command q q';
  qa_token : c_token (q_command q') = c_token (q_command q);
  qa_details : persistence (a_c h) = false -> c_details (q_command q') = c_details (q_command q)
}.

Lemma queued_as_handle h h' q q' : same_handle h h' -> queued_as h q q' -> queued_as h' q q'.
Proof. intros [_ _ Hp] [H1 H2 H3]. split; try done. by rewrite Hp. Qed.

Lemma persist_added_as q q' more w w' h : q_cseqno q = 0 -> w_handles w !! q_client q = Some h ->
  persist_added q w = Ok ((q', more), w') ->
  more = true /\ queued_as h q q' /\ w_commands w' = w_commands w /\ exists h', w_handles w' !! q_client q = Some h' /\ same_handle h h'.
Proof.
  intros H0 Hh E. pose proof (persist_added_Ok _ _ _ _ _ E H0) as [Hs ->]. unfold persist_added in E.
  apply sm_bind_Ok in E as (h0 & w1 & E1 & E). apply get_handle_Ok in E1 as [-> Hh0]. assert (h0 = h) as -> by congruence.
  destruct (negb (persistence (a_c h)) || _) eqn:Ep; [injection E as <- <-; do 3 (split; [done|]); by exists h|].
  apply orb_false_iff in Ep as [Ep _]. apply negb_false_iff in Ep.
  apply sm_bind_Ok in E as ([[[rc seqno] q1] p] & w1 & E1 & E). unfold sm_lift in E1.
  destruct (MQTTAsync_persistCommand _ _ _ _) as [[[[rc' seqno'] q1'] p']| |] eqn:Eq; try done. injection E1 as <- <- <- <- <-.
  apply persistCommand_Ok in Eq. apply sm_bind_Ok in E as ([] & w2 & E2 & E). apply modify_handle_Ok in E2 as (h' & Hh' & ->).
  assert (c_token (q_command q1') = c_token (q_command q) /\ q_client q1' = q_client q) as [Ht Hcl] by (by destruct Eq as [->|[-> _]]).
  rewrite Hcl in Hh', E. assert (h' = h) as -> by congruence.
  set (h1 := with_seqno (with_session h (a_c h) p') seqno') in E.
  assert (exists h', <[q_client q := h1]> (w_handles w) !! q_client q = Some h' /\ same_handle h h') as Hex.
  { exists h1. split; [apply list_lookup_insert_eq; by eapply lookup_lt_Some|done]. }
  assert (c_token (q_command q') = c_token (q_command q1') /\ w_commands w' = w_commands w /\
          w_handles w' = <[q_client q := h1]> (w_handles w)) as (Hq & Hc & Hw).
  { destruct (_ && _); [|injection E as <- <-; repeat split]. destruct (command_key _ (q_cseqno q1')) as [key|]; [|by injection E]. injection E as <- <-. split; [|done].
    unfold strip. by destruct (c_details (q_command q1')). }
  split; [done|]. split; [split; [done|congruence|by rewrite Ep]|]. split; [done|]. by rewrite Hw.
Qed.

(** What becomes of the queue when its buffer may be full. *)
Definition after_add h (i : nat) (l l' : list MQTTAsync_queuedCommand) : Prop :=
  if buffer_full h then
    exists pre q post, l = pre ++ q :: post /\ l' = pre ++ post /\ is_publish_of i q = true /\ Forall (fun q => is_publish_of i q = false) pre
  else l' = l.

Lemma find_split {X} (f : X -> bool) l x : List.find f l = Some x -> exists pre post, l = pre ++ x :: post /\ f x = true /\ Forall (fun y => f y = false) pre.
Proof.
  induction l as [|y l IH]; cbn; [done|]. destruct (f y) eqn:E.
  - intros [= ->]. by exists [], l.
  - intros H. destruct (IH H) as (pre & post & -> & Hx & Hf). exists (y :: pre), post. split; [done|]. split; [done|]. by constructor.
Qed.

Lemma count_publish_queue i w w' h x :
  w_handles w !! i = Some h -> NoDup (map q_id (AList.items (w_commands w))) -> List.find (is_publish_of i) (AList.items (w_commands w)) <> None ->
  count_publish i w = Ok (x, w') -> after_add h i (AList.items (w_commands w)) (AList.items (w_commands w')).
Proof.
  intros Hh Hnd Hex E. unfold count_publish in E. apply sm_bind_Ok in E as (h0 & w1 & E1 & E). apply get_handle_Ok in E1 as [-> Hh0].
  assert (h0 = h) as -> by congruence. unfold after_add. destruct (buffer_full h).
  - unfold drop_oldest in E. apply sm_bind_Ok in E as (w1 & w2 & [= <- <-] & E). destruct (List.find _ _) as [q0|] eqn:Ef; [|done].
    destruct (find_split _ _ _ Ef) as (pre & post & Hl & Hq & Hpre). exists pre, q0, post. split; [done|]. split; [|done].
    apply sm_bind_Ok in E as ([] & w1 & [= <-] & E). apply sm_bind_Ok in E as ([] & w2 & [= <-] & E). apply sm_bind_Ok in E as (h1 & w3 & E1 & E).
    apply get_handle_Ok in E1 as [-> _]. destruct (persistence (a_c h1)); [done|]. injection E as _ <-. cbn.
    pose proof (unlink_items (same_structure q0) (w_commands w)) as Hu. destruct (AList.unlink (same_structure q0) (w_commands w)) as [[y|] l'].
    + destruct Hu as (pre' & post' & E & Hy%Z.eqb_eq & El). rewrite Hl in Hnd, E. by destruct (split_unique pre post pre' post' q0 y Hnd E Hy) as (<- & _ & <-).
    + destruct Hu as [_ Hf]. rewrite Hl in Hf. apply Forall_app in Hf as [_ Hf]. apply Forall_cons in Hf as [Hf _]. unfold same_structure in Hf. by rewrite Z.eqb_refl in Hf.
  - apply modify_handle_Ok in E as (h' & _ & ->). done.
Qed.

Lemma add_publish i q w w' h rc :
  q_client q = i -> q_type q = PUBLISH -> q_cseqno q = 0 -> w_handles w !! i = Some h ->
  NoDup (map q_id (AList.items (w_commands w)) ++ [q_id q]) ->
  MQTTAsync_addCommand q w = Ok (rc, w') ->
  rc = MQTTASYNC_SUCCESS /\ exists q', queued_as h q q' /\ after_add h i (AList.items (w_commands w) ++ [q']) (AList.items (w_commands w')).
Proof.
  intros Hi Ht H0 Hh Hnd E. unfold MQTTAsync_addCommand in E. rewrite Hi in E. apply sm_bind_Ok in E as (h0 & w1 & E1 & E).
  apply get_handle_Ok in E1 as [-> Hh0]. assert (h0 = h) as -> by congruence. rewrite Ht in E. cbn [Z.eqb negb orb] in E.
  apply sm_bind_Ok in E as (q1 & w1 & E1 & E). apply sm_bind_Ok in E1 as (now & w0 & Ec & E1). injection E1 as <- <-.
  assert (w_handles w0 = w_handles w /\ w_commands w0 = w_commands w) as [Hw Hc] by (unfold clock in Ec; destruct (time_now (w_net w)); by injection Ec as _ <-).
  set (q1 := set_command q (set_start (q_command q) now)) in E. assert (goes_first (q_command q1) = false) as Hg.
  { unfold q_type, c_type in Ht. unfold q1, goes_first. cbn. by destruct (c_details (q_command q)). }
  rewrite Hg in E. apply sm_bind_Ok in E as ([] & w1 & E1 & [= <- <-]). split; [done|].
  apply sm_bind_Ok in E1 as ([q2 more] & w2 & E1 & E). rewrite <- Hw, <- Hi in Hh.
  destruct (persist_added_as q1 q2 more w0 w2 h H0 Hh E1) as (-> & [Q1 Q2 Q3] & Hc2 & h2 & Hh2 & Hs).
  assert (queued_as h q q2) as Hq2 by (destruct Q1; split; [by split|done|done]). exists q2. split; [done|].
  apply sm_bind_Ok in E as ([] & w3 & [= <-] & E). destruct Q1 as [S1 S2 S3 S4]. change (q_type q1) with (q_type q) in S3. rewrite S3, Ht in E. cbn [Z.eqb andb] in E.
  change (q_client q1) with (q_client q) in S2. rewrite S2, Hi in E.
  assert (AList.items (w_commands w) ++ [q2] = AList.items (AList.append q2 (w_commands w2))) as Hl by (cbn; by rewrite Hc2, Hc).
  rewrite Hl. assert (buffer_full h = buffer_full h2) as Hb by (unfold buffer_full; destruct Hs as [-> -> _]; done). unfold after_add. rewrite Hb.
  refine (count_publish_queue i _ _ h2 _ _ _ _ E).
  - change (q_client q1) with (q_client q) in Hh2. by rewrite Hi in Hh2.
  - cbn. rewrite Hc2, Hc, map_app. cbn. by rewrite S1.
  - intros Hn. assert (In q2 (AList.items (AList.append q2 (w_commands w2)))) as Hin by (rewrite <- Hl; apply in_app_iff; right; by left).
    apply (List.find_none _ _ Hn) in Hin. unfold is_publish_of in Hin. by rewrite S2, Hi, Nat.eqb_refl, S3, Ht in Hin.
Qed.

Lemma new_command_Ok i c token r d q w w' : new_command i c token r d w = Ok (q, w') ->
  q_client q = i /\ q_cseqno q = 0 /\ q_id q = w_next w /\ c_token (q_command q) = token /\ c_details (q_command q) = d /\
  w_commands w' = w_commands w /\ w_handles w' = w_handles w.
Proof.
  intros E. unfold new_command in E. apply sm_bind_Ok in E as (id & w1 & E1 & E).
  assert (id = w_next w /\ w_commands w1 = w_commands w /\ w_handles w1 = w_handles w) as (-> & Hc & Hw) by (by injection E1 as <- <-). clear E1.
  destruct r as [r|]; [|by injection E as <- <-].
  apply sm_bind_Ok in E as (props & w2 & E2 & E). injection E as <- <-.
  assert (w2 = w1) as ->; [|done]. destruct (_ <=? _); [|by injection E2]. unfold sm_lift in E2. destruct (MQTTProperties_copy _); by inversion E2.
Qed.

End Api.

(** ** A call *)

Definition sample_call : SM (World MemStore ScriptNet) (Z * Z) := MQTTAsync_send 0 [97] [9] 2 0 None.
Definition sample_client_state : MQTTAsyncs MemStore := default (sample_handle 5 1) (w_handles sample_end !! 0%nat).


End AsyncApi.
