(* ===== verification/SyncClient.v ===== *)
(** * The synchronous client ([src/src/MQTTClient.c])

    The calls of the synchronous API as an application without callbacks makes them: no
    thread reads in the background, and a call that waits reads packets itself, one turn of
    [MQTTClient_cycle] after the other, until its answer or its time-out comes.

    The loops of the waits have fuel; [None] is a wait that is not over when it runs out. *)

From S2P Require Import Prelude.
From S2P Require Import Utf8.
From S2P Require Import Wire.
From S2P Require Import Properties.
From S2P Require Import LinkedList.
From S2P Require Import Clients.
From S2P Require Import Packet.
From S2P Require Import State.
From S2P Require Import Store.
From S2P Require Import Persistence.
From S2P Require Import PacketIO.
From S2P Require Import Protocol.
From S2P Require Import Session.
From S2P Require Import Base64.
From S2P Require Import Outgoing.
From Stdlib Require Import ZArith Lia List Ascii String.
From stdpp Require Import base numbers list gmap.

Open Scope Z_scope.

Module SyncClient.
Import Utf8 Wire Properties Clients Packet State Store Persistence PacketIO Protocol Session Base64 Outgoing.

Definition MQTTCLIENT_NULL_PARAMETER : Z := -6.
Definition MQTTCLIENT_BAD_STRUCTURE : Z := -8.
Definition MQTTCLIENT_BAD_QOS : Z := -9.
Definition MQTTCLIENT_BAD_MQTT_VERSION : Z := -11.
Definition MQTTCLIENT_BAD_MQTT_OPTION : Z := -15.
Definition MQTTCLIENT_WRONG_MQTT_VERSION : Z := -16.
Definition MQTTCLIENT_0_LEN_WILL_TOPIC : Z := -17.
Definition MQTT_BAD_SUBSCRIBE : Z := 128.
Definition MQTTVERSION_DEFAULT : Z := 0.

(** [Socket_getReadySocket] waits at most a time in milliseconds for the socket of the
    client, and returns it, or 0, or an error; [SocketBuffer_getWrite] is whether a write is
    pending. *)
Class Poller (N : Type) := {
  getReadySocket : Z -> Z -> N -> Z * N;
  getWrite : Z -> N -> bool
}.

(** What the application passes to connect.  [o_struct_id] is whether the structure begins
    with its mark; so is [wo_struct_id]. *)
Record will_options := mkWillOptions {
  wo_struct_id : bool;
  wo_struct_version : Z;
  wo_topicName : option (list Z);
  wo_message : option (list Z);
  wo_payload : option (list Z);
  wo_retained : Z;
  wo_qos : Z
}.
(** The SOCKS5 proxy, as the options and the client have it; the fields of the client are
    not the ones [MQTTProtocol_connect] reads, which are those of its network. *)
Record socks5_settings := mkSocks5 {
  socks5_host : option (list Z);
  socks5_port : Z;
  socks5_username : option (list Z);
  socks5_password : option (list Z)
}.
Record connectOptions := mkOptions {
  o_struct_id : bool;
  o_struct_version : Z;
  o_keepAliveInterval : Z;
  o_cleansession : Z;
  o_reliable : Z;
  o_will : option will_options;
  o_username : option (list Z);
  o_password : option (list Z);
  o_connectTimeout : Z;
  o_retryInterval : Z;
  o_MQTTVersion : Z;
  o_serverURIs : list (list Z);
  o_binarypwd : option (list Z);
  o_maxInflightMessages : Z;
  o_cleanstart : Z;
  o_httpProxy : option (list Z);
  o_socks5 : socks5_settings
}.
Record MQTTResponse := mkResponse {
  r_reasonCode : Z;
  r_reasonCodeCount : Z;
  r_reasonCodes : list Z;
  r_properties : option MQTTProperties
}.
Definition response (rc : Z) : MQTTResponse := mkResponse rc 0 [] None.
Definition with_code (r : MQTTResponse) (rc : Z) : MQTTResponse := mkResponse rc (r_reasonCodeCount r) (r_reasonCodes r) (r_properties r).

Record MQTTClient_message := mkMessage {
  mg_struct_id : bool;
  mg_struct_version : Z;
  mg_payload : list Z;
  mg_qos : Z;
  mg_retained : Z;
  mg_properties : MQTTProperties
}.
Definition bad_message (m : MQTTClient_message) : bool :=
  negb (mg_struct_id m) || (negb (mg_struct_version m =? 0) && negb (mg_struct_version m =? 1)).

(** The handle of the application with its client, and the static variables of the retries. *)
Record Sync (P N : Type) := mkSync {
  y_st : St P N;
  y_serverURI : list Z;
  y_websocket : bool;
  y_httpProxy : option (list Z);
  y_socks5 : socks5_settings;
  y_commandTimeout : Z;
  y_retryLoopIntervalms : Z;
  y_last : Z
}.
Arguments mkSync {P N}.
Arguments y_st {P N}.
Arguments y_serverURI {P N}.
Arguments y_websocket {P N}.
Arguments y_httpProxy {P N}.
Arguments y_socks5 {P N}.
Arguments y_commandTimeout {P N}.
Arguments y_retryLoopIntervalms {P N}.
Arguments y_last {P N}.

Section Sync.
Context {P N : Type} {PO : PersistenceOps P} {NT : Transport N} {NC : Connector N} {NP : Poller N}.
(** The proxy of the environment, [getenv("http_proxy")]. *)
Context (http_proxy : option (list Z)).
Abbreviation M := (SM (St P N)).
Abbreviation A := (SM (Sync P N)).

Definition put_st (y : Sync P N) (s : St P N) : Sync P N :=
  mkSync s (y_serverURI y) (y_websocket y) (y_httpProxy y) (y_socks5 y) (y_commandTimeout y) (y_retryLoopIntervalms y) (y_last y).
Definition put_websocket (y : Sync P N) (b : bool) : Sync P N :=
  mkSync (y_st y) (y_serverURI y) b (y_httpProxy y) (y_socks5 y) (y_commandTimeout y) (y_retryLoopIntervalms y) (y_last y).
Definition put_proxies (y : Sync P N) (p : option (list Z)) (s : socks5_settings) : Sync P N :=
  mkSync (y_st y) (y_serverURI y) (y_websocket y) p s (y_commandTimeout y) (y_retryLoopIntervalms y) (y_last y).
Definition put_commandTimeout (y : Sync P N) (t : Z) : Sync P N :=
  mkSync (y_st y) (y_serverURI y) (y_websocket y) (y_httpProxy y) (y_socks5 y) t (y_retryLoopIntervalms y) (y_last y).
Definition put_interval (y : Sync P N) (n : Z) : Sync P N :=
  mkSync (y_st y) (y_serverURI y) (y_websocket y) (y_httpProxy y) (y_socks5 y) (y_commandTimeout y) n (y_last y).
Definition put_last (y : Sync P N) (t : Z) : Sync P N :=
  mkSync (y_st y) (y_serverURI y) (y_websocket y) (y_httpProxy y) (y_socks5 y) (y_commandTimeout y) (y_retryLoopIntervalms y) t.
Definition on_st {X} (m : M X) : A X := fun y => '(x, s) ← m (y_st y); Ok (x, put_st y s).

(** A wait that is not over is not followed by anything. *)
Definition unless_waiting {X Y} (m : A (option X)) (f : X -> A (option Y)) : A (option Y) :=
  r ← m; match r with None => mret None | Some x => f x end.
Local Notation "x ⇠ m ; k" := (unless_waiting m (fun x => k)) (at level 20, m at level 100, k at level 200, right associativity).
Local Notation "' p ⇠ m ; k" := (unless_waiting m (fun x => let p := x in k)) (at level 20, p pattern, m at level 100, k at level 200, right associativity).

(** [MQTTTime_elapsed], in milliseconds, without a sign. *)
Definition MQTTTime_elapsed (start : Z) : M Z :=
  now ← MQTTTime_now; mret (to_u64 (MQTTTime_difftime now start)).

(** ** One turn *)

Definition header_type (pack : packet) : Z :=
  match pack with
  | Pconnack k => hdr_type (cka_header k)
  | Ppublish p => hdr_type (pub_header p)
  | Pack a => hdr_type (ack_header a)
  | Psuback s => hdr_type (sub_header s)
  | Punsuback u => hdr_type (uns_header u)
  | Pheader h => hdr_type h
  end.

(** What [MQTTClient_cycle] reads from the socket of the client. *)
Definition receive_packet : M (Z * option packet) :=
  s ← sm_get;
  let state := connect_state (st_client s) in
  if (state =? TCP_IN_PROGRESS) || (state =? SSL_IN_PROGRESS) then mret (0, None)
  else if state =? WEBSOCKET_IN_PROGRESS then rc ← on_socket WebSocket_upgrade; mret (rc, None)
  else
    '(rc, pack) ← MQTTPacket_Factory (Clients.MQTTVersion (st_client s));
    mret (if rc =? TCPSOCKET_INTERRUPTED then 0 else rc, pack).

(** [MQTTClient_cycle]: the socket, the code and the packet nobody has handled. *)
Definition MQTTClient_cycle (timeout : Z) : A (Z * Z * option packet) :=
  s ← on_st sm_get;
  sock ← on_st (call_net (getReadySocket (the_socket s) timeout));
  '(rc, pack) ← (if (0 <? sock) && (sock =? the_socket s) then
                   '(rc, pack) ← on_st receive_packet;
                   match pack with
                   | None => mret (rc, None)
                   | Some pack => '(rc', rest) ← on_st (handle_packet pack); mret (match rest with None => rc' | Some _ => rc end, rest)
                   end
                 else mret (0, None));
  y ← sm_get;
  last ← on_st (MQTTClient_retry (y_retryLoopIntervalms y) (y_last y));
  _ ← sm_modify (fun y => put_last y last);
  mret (sock, rc, pack).

(** ** Waiting *)

(** The tests of [MQTTClient_waitfor] for the socket of the client: the code when the wait
    is over. *)
Definition wait_test (packet_type rc : Z) (pack : option packet) : M (option Z) :=
  s ← sm_get;
  let state := connect_state (st_client s) in
  if rc =? SOCKET_ERROR then mret (Some rc)
  else if match pack with Some pack => header_type pack =? packet_type | None => false end then mret (Some rc)
  else if state =? TCP_IN_PROGRESS then rc ← on_socket connect_outcome; mret (Some rc)
  else if (state =? WEBSOCKET_IN_PROGRESS) || (state =? PROXY_CONNECT_IN_PROGRESS) then mret (Some 1)
  else if state =? WAIT_FOR_CONNACK then
    error ← on_socket connect_outcome;
    mret (if 0 <? error then Some error else None)
  else mret None.

Fixpoint wait_loop (fuel : nat) (packet_type start timeout : Z) : A (option (Z * option packet)) :=
  match fuel with
  | O => mret None
  | S fuel =>
      '(sock, rc, pack) ← MQTTClient_cycle 100;
      s ← on_st sm_get;
      stop ← (if sock =? the_socket s then on_st (wait_test packet_type rc pack) else mret None);
      match stop with
      | Some rc => mret (Some (rc, pack))
      | None =>
          e ← on_st (MQTTTime_elapsed start);
          if timeout <? e then mret (Some (rc, None)) else wait_loop fuel packet_type start timeout
      end
  end.

(** [MQTTClient_waitfor] *)
Definition MQTTClient_waitfor (fuel : nat) (packet_type timeout : Z) : A (option (Z * option packet)) :=
  start ← on_st MQTTTime_now;
  if timeout <=? 0 then mret (Some (MQTTCLIENT_FAILURE, None)) else wait_loop fuel packet_type start timeout.

(** [MQTTClient_yield] *)
Definition yield_timeout : Z := 100.
Fixpoint yield_loop (fuel : nat) (start e : Z) : A (option ()) :=
  match fuel with
  | O => mret None
  | S fuel =>
      '(sock, rc, _) ← MQTTClient_cycle (if e <? yield_timeout then yield_timeout - e else 0);
      s ← on_st sm_get;
      _ ← (if (rc =? SOCKET_ERROR) && (sock =? the_socket s) && negb (connect_state (st_client s) =? DISCONNECTING)
           then on_st MQTTClient_disconnect_internal else mret ());
      e ← on_st (MQTTTime_elapsed start);
      if e <? yield_timeout then yield_loop fuel start e else mret (Some ())
  end.
Definition MQTTClient_yield (fuel : nat) : A (option ()) :=
  start ← on_st MQTTTime_now;
  e ← on_st (MQTTTime_elapsed start);
  yield_loop fuel start e.

(** [MQTTClient_receive]: the code and the message. *)
Fixpoint receive_loop (fuel : nat) (start timeout e : Z) : A (option Z) :=
  match fuel with
  | O => mret None
  | S fuel =>
      '(sock, rc, _) ← MQTTClient_cycle (if e <? timeout then timeout - e else 0);
      s ← on_st sm_get;
      if (rc =? SOCKET_ERROR) && (sock =? the_socket s) then mret (Some rc)
      else
        e ← on_st (MQTTTime_elapsed start);
        s ← on_st sm_get;
        if (e <? timeout) && (Zlen (AList.items (messageQueue (st_client s))) =? 0) then receive_loop fuel start timeout e
        else mret (Some rc)
  end.
Definition MQTTClient_receive (fuel : nat) (timeout : Z) : A (option (Z * option qEntry)) :=
  start ← on_st MQTTTime_now;
  s ← on_st sm_get;
  if connected (st_client s) =? 0 then mret (Some (MQTTCLIENT_DISCONNECTED, None))
  else
    let timeout := if 0 <? Zlen (AList.items (messageQueue (st_client s))) then 0 else timeout in
    e ← on_st (MQTTTime_elapsed start);
    rc ⇠ receive_loop fuel start timeout e;
    s ← on_st sm_get;
    '(rc, message) ← (if 0 <? Zlen (AList.items (messageQueue (st_client s)))
                      then '(rc, qe) ← on_st (MQTTClient_deliverMessage rc); mret (rc, Some qe)
                      else mret (rc, None));
    _ ← (if rc =? SOCKET_ERROR then on_st MQTTClient_disconnect_internal else mret ());
    mret (Some (rc, message)).

(** [MQTTClient_waitForCompletion] *)
Fixpoint completion_loop (fuel : nat) (mdt start timeout e : Z) : A (option Z) :=
  match fuel with
  | O => mret None
  | S fuel' =>
      if e <? timeout then
        s ← on_st sm_get;
        match completion_test (st_client s) mdt with
        | Some rc => mret (Some rc)
        | None =>
            _ ⇠ MQTTClient_yield fuel;
            e ← on_st (MQTTTime_elapsed start);
            completion_loop fuel' mdt start timeout e
        end
      else mret (Some MQTTCLIENT_FAILURE)
  end.
Definition MQTTClient_waitForCompletion (fuel : nat) (mdt timeout : Z) : A (option Z) :=
  start ← on_st MQTTTime_now;
  e ← on_st (MQTTTime_elapsed start);
  completion_loop fuel mdt start timeout e.

(** ** Disconnecting *)

(** [MQTTClient_disconnect1], without the threads and the callback. *)
Fixpoint flush_loop (fuel : nat) (start timeout : Z) : A (option ()) :=
  match fuel with
  | O => mret None
  | S fuel' =>
      s ← on_st sm_get;
      if (0 <? Zlen (AList.items (inboundMsgs (st_client s)))) || (0 <? Zlen (AList.items (outboundMsgs (st_client s)))) then
        e ← on_st (MQTTTime_elapsed start);
        if to_u64 timeout <=? e then mret (Some ())
        else _ ⇠ MQTTClient_yield fuel; flush_loop fuel' start timeout
      else mret (Some ())
  end.
Definition MQTTClient_disconnect1 (fuel : nat) (timeout reason : Z) (props : option MQTTProperties) : A (option Z) :=
  s ← on_st sm_get;
  _ ⇠ (if negb (connected (st_client s) =? 0) then
         start ← on_st MQTTTime_now;
         _ ← on_st (set_state DISCONNECTING);
         flush_loop fuel start timeout
       else mret (Some ()));
  _ ← on_st (MQTTClient_closeSession reason props);
  mret (Some MQTTCLIENT_SUCCESS).
Definition MQTTClient_disconnect (fuel : nat) (timeout : Z) : A (option Z) :=
  MQTTClient_disconnect1 fuel timeout MQTTREASONCODE_SUCCESS None.
Definition MQTTClient_disconnect5 (fuel : nat) (timeout reason : Z) (props : option MQTTProperties) : A (option Z) :=
  MQTTClient_disconnect1 fuel timeout reason props.

(** [MQTTClient_isConnected] and [MQTTClient_setCommandTimeout] *)
Definition MQTTClient_isConnected : A Z := s ← on_st sm_get; mret (connected (st_client s)).
Definition MQTTClient_setCommandTimeout (milliSeconds : Z) : A Z :=
  if milliSeconds <? 5000 then mret MQTTCLIENT_FAILURE
  else _ ← sm_modify (fun y => put_commandTimeout y milliSeconds); mret MQTTCLIENT_SUCCESS.

(** ** Publishing *)

(** The waits of [MQTTClient_publish5]: for room among the messages in flight, whether
    there is still a connection; and for a write to be completed. *)
Fixpoint block_loop (fuel : nat) : A (option bool) :=
  match fuel with
  | O => mret None
  | S fuel' =>
      s ← on_st sm_get;
      blocked ← (if maxInflightMessages (st_client s) <=? Zlen (AList.items (outboundMsgs (st_client s))) then mret true
                 else ready ← on_st (call_net (noPendingWrites (the_socket s))); mret (negb ready));
      if negb blocked then mret (Some true)
      else
        _ ⇠ MQTTClient_yield fuel;
        s ← on_st sm_get;
        if connected (st_client s) =? 0 then mret (Some false) else block_loop fuel'
  end.
Fixpoint drain_loop (fuel : nat) : A (option ()) :=
  match fuel with
  | O => mret None
  | S fuel' =>
      s ← on_st sm_get;
      if (connected (st_client s) =? 1) && getWrite (the_socket s) (st_net s) then
        _ ⇠ MQTTClient_yield fuel; drain_loop fuel'
      else mret (Some ())
  end.

(** [MQTTClient_publish5]: the code and the delivery token. *)
Definition MQTTClient_publish5 (fuel : nat) (topicName payload : list Z) (qos retained : Z) (properties : option MQTTProperties)
    : A (option (Z * option Z)) :=
  s ← on_st sm_get;
  if connected (st_client s) =? 0 then mret (Some (MQTTCLIENT_DISCONNECTED, None))
  else if negb (UTF8_validateString (Some topicName)) then mret (Some (MQTTCLIENT_BAD_UTF8_STRING, None))
  else
    free ⇠ block_loop fuel;
    if negb free then mret (Some (MQTTCLIENT_FAILURE, None))
    else
      s ← on_st sm_get;
      match (if 0 <? qos then MQTTProtocol_assignMsgId (st_client s) else Some (0, st_client s)) with
      | None => mret None
      | Some (msgid, c) =>
          _ ← on_st (modify_client (fun _ => c));
          if (0 <? qos) && (msgid =? 0) then mret (Some (MQTTCLIENT_MAX_MESSAGES_INFLIGHT, None))
          else
            '(rc, msg, _) ← on_st (MQTTProtocol_startPublish (new_publish c topicName payload msgid properties) qos retained None);
            rc ⇠ (if rc =? TCPSOCKET_INTERRUPTED then
                    _ ⇠ drain_loop fuel;
                    s ← on_st sm_get;
                    mret (Some (if (0 <? qos) || (connected (st_client s) =? 1) then MQTTCLIENT_SUCCESS else MQTTCLIENT_FAILURE))
                  else mret (Some rc));
            let token := if 0 <? qos then m_msgid <$> msg else None in
            if rc =? SOCKET_ERROR then
              _ ← on_st MQTTClient_disconnect_internal;
              mret (Some (if 0 <? qos then MQTTCLIENT_SUCCESS else MQTTCLIENT_FAILURE, token))
            else mret (Some (rc, token))
      end.
(** The message of an application, with its mark. *)
Definition MQTTClient_publishMessage5 (fuel : nat) (topicName : list Z) (message : option MQTTClient_message) : A (option (Z * option Z)) :=
  match message with
  | None => mret (Some (MQTTCLIENT_NULL_PARAMETER, None))
  | Some m =>
      if bad_message m then mret (Some (MQTTCLIENT_BAD_STRUCTURE, None))
      else MQTTClient_publish5 fuel topicName (mg_payload m) (mg_qos m) (mg_retained m)
             (if 1 <=? mg_struct_version m then Some (mg_properties m) else None)
  end.
Definition MQTTClient_publishMessage (fuel : nat) (topicName : list Z) (message : option MQTTClient_message) : A (option (Z * option Z)) :=
  s ← on_st sm_get;
  match message with
  | None => sm_oob
  | Some m =>
      if bad_message m then mret (Some (MQTTCLIENT_BAD_STRUCTURE, None))
      else if MQTTVERSION_5 <=? Clients.MQTTVersion (st_client s) then mret (Some (MQTTCLIENT_WRONG_MQTT_VERSION, None))
      else MQTTClient_publishMessage5 fuel topicName message
  end.
Definition MQTTClient_publish (fuel : nat) (topicName payload : list Z) (qos retained : Z) : A (option (Z * option Z)) :=
  s ← on_st sm_get;
  if MQTTVERSION_5 <=? Clients.MQTTVersion (st_client s) then mret (Some (MQTTCLIENT_WRONG_MQTT_VERSION, None))
  else MQTTClient_publish5 fuel topicName payload qos retained None.

(** ** Subscribing *)

(** The answer for the application: with MQTT 5 a copy of the properties of the packet
    when it has any, and its codes, of which the first must be there; the array is made
    for more than one. *)
Definition codes_response (codes : list Z) (properties : option MQTTProperties) : res MQTTResponse :=
  match properties, codes with
  | Some props, code :: _ =>
      copy ← (if 0 <? count props then Some <$> MQTTProperties_copy props else Ok None);
      Ok (mkResponse code (Zlen codes) (if 1 <? Zlen codes then codes else []) copy)
  | _, _ => Oob
  end.

(** Below MQTT 5 the codes are written over the qualities of service asked for, whose
    array has the length of the request. *)
Definition grant (qos codes : list Z) : res (list Z) :=
  if Zlen qos <? Zlen codes then Oob else Ok (codes ++ drop (List.length codes) qos).

(** The tests of each topic. *)
Fixpoint topic_tests (topics : list (list Z)) (qos : list Z) : Z :=
  match topics, qos with
  | t :: topics, q :: qos =>
      if negb (UTF8_validateString (Some t)) then MQTTCLIENT_BAD_UTF8_STRING
      else if (q <? 0) || (2 <? q) then MQTTCLIENT_BAD_QOS
      else topic_tests topics qos
  | _, _ => MQTTCLIENT_SUCCESS
  end.

(** What follows a request that was sent: the code, the response and the array. *)
Definition await_suback (fuel : nat) (qos : list Z) : A (option (Z * MQTTResponse * list Z)) :=
  y ← sm_get;
  '(rc, pack) ⇠ MQTTClient_waitfor fuel SUBACK (y_commandTimeout y);
  match pack with
  | None => mret (Some (SOCKET_ERROR, response MQTTCLIENT_FAILURE, qos))
  | Some (Psuback sub) =>
      s ← on_st sm_get;
      '(r, qos) ← (if Clients.MQTTVersion (st_client s) =? MQTTVERSION_5
                   then r ← sm_lift (codes_response (sub_qoss sub) (sub_properties sub)); mret (r, qos)
                   else qos ← sm_lift (grant qos (sub_qoss sub)); mret (response rc, qos));
      _ ← sm_lift (MQTTPacket_freeSuback sub);
      mret (Some (TCPSOCKET_COMPLETE, r, qos))
  | Some _ => sm_oob
  end.

(** [MQTTClient_subscribeMany5]: the response, and the array of the qualities of service. *)
Definition MQTTClient_subscribeMany5 (fuel : nat) (topics : list (list Z)) (qos : list Z) (opts : option (list MQTTSubscribe_options))
    (props : option MQTTProperties) : A (option (MQTTResponse * list Z)) :=
  s ← on_st sm_get;
  if connected (st_client s) =? 0 then mret (Some (response MQTTCLIENT_DISCONNECTED, qos))
  else
    let rc := topic_tests topics qos in
    if negb (rc =? MQTTCLIENT_SUCCESS) then mret (Some (response rc, qos))
    else
      match MQTTProtocol_assignMsgId (st_client s) with
      | None => mret None
      | Some (msgid, c) =>
          _ ← on_st (modify_client (fun _ => c));
          if msgid =? 0 then mret (Some (response MQTTCLIENT_MAX_MESSAGES_INFLIGHT, qos))
          else
            rc ← on_st (MQTTPacket_send_subscribe topics qos opts props msgid 0);
            '(rc, r, qos) ⇠ (if rc =? TCPSOCKET_COMPLETE then await_suback fuel qos
                             else mret (Some (rc, response MQTTCLIENT_FAILURE, qos)));
            _ ← (if rc =? SOCKET_ERROR then on_st MQTTClient_disconnect_internal else mret ());
            mret (Some (if rc <? 0 then with_code r rc else r, qos))
      end.
Definition MQTTClient_subscribe5 (fuel : nat) (topic : list Z) (qos : Z) (opts : option MQTTSubscribe_options)
    (props : option MQTTProperties) : A (option MQTTResponse) :=
  '(r, qos) ⇠ MQTTClient_subscribeMany5 fuel [topic] [qos] ((fun o => [o]) <$> opts) props;
  mret (Some (if bool_decide (hd_error qos = Some MQTT_BAD_SUBSCRIBE) then with_code r MQTT_BAD_SUBSCRIBE else r)).
Definition MQTTClient_subscribeMany (fuel : nat) (topics : list (list Z)) (qos : list Z) : A (option (Z * list Z)) :=
  s ← on_st sm_get;
  if MQTTVERSION_5 <=? Clients.MQTTVersion (st_client s) then mret (Some (MQTTCLIENT_WRONG_MQTT_VERSION, qos))
  else '(r, qos) ⇠ MQTTClient_subscribeMany5 fuel topics qos None None; mret (Some (r_reasonCode r, qos)).
Definition MQTTClient_subscribe (fuel : nat) (topic : list Z) (qos : Z) : A (option Z) :=
  s ← on_st sm_get;
  if MQTTVERSION_5 <=? Clients.MQTTVersion (st_client s) then mret (Some MQTTCLIENT_WRONG_MQTT_VERSION)
  else r ⇠ MQTTClient_subscribe5 fuel topic qos None None; mret (Some (r_reasonCode r)).

Definition await_unsuback (fuel : nat) : A (option (Z * MQTTResponse)) :=
  y ← sm_get;
  '(rc, pack) ⇠ MQTTClient_waitfor fuel UNSUBACK (y_commandTimeout y);
  match pack with
  | None => mret (Some (SOCKET_ERROR, response MQTTCLIENT_FAILURE))
  | Some (Punsuback unsub) =>
      s ← on_st sm_get;
      r ← (if Clients.MQTTVersion (st_client s) =? MQTTVERSION_5
           then sm_lift (codes_response (default [] (uns_reasonCodes unsub)) (uns_properties unsub))
           else mret (response rc));
      _ ← sm_lift (MQTTPacket_freeUnsuback unsub);
      mret (Some (TCPSOCKET_COMPLETE, r))
  | Some _ => sm_oob
  end.

(** [MQTTClient_unsubscribeMany5] *)
Definition MQTTClient_unsubscribeMany5 (fuel : nat) (topics : list (list Z)) (props : option MQTTProperties) : A (option MQTTResponse) :=
  s ← on_st sm_get;
  if connected (st_client s) =? 0 then mret (Some (response MQTTCLIENT_DISCONNECTED))
  else if negb (forallb (fun t => UTF8_validateString (Some t)) topics) then mret (Some (response MQTTCLIENT_BAD_UTF8_STRING))
  else
    match MQTTProtocol_assignMsgId (st_client s) with
    | None => mret None
    | Some (msgid, c) =>
        _ ← on_st (modify_client (fun _ => c));
        if msgid =? 0 then mret (Some (response MQTTCLIENT_MAX_MESSAGES_INFLIGHT))
        else
          rc ← on_st (MQTTPacket_send_unsubscribe topics props msgid 0);
          '(rc, r) ⇠ (if rc =? TCPSOCKET_COMPLETE then await_unsuback fuel else mret (Some (rc, response MQTTCLIENT_FAILURE)));
          _ ← (if rc =? SOCKET_ERROR then on_st MQTTClient_disconnect_internal else mret ());
          mret (Some (if rc <? 0 then with_code r rc else r))
    end.
Definition MQTTClient_unsubscribeMany (fuel : nat) (topics : list (list Z)) : A (option Z) :=
  r ⇠ MQTTClient_unsubscribeMany5 fuel topics None; mret (Some (r_reasonCode r)).
Definition MQTTClient_unsubscribe5 (fuel : nat) (topic : list Z) (props : option MQTTProperties) : A (option MQTTResponse) :=
  MQTTClient_unsubscribeMany5 fuel [topic] props.
Definition MQTTClient_unsubscribe (fuel : nat) (topic : list Z) : A (option Z) :=
  r ⇠ MQTTClient_unsubscribe5 fuel topic None; mret (Some (r_reasonCode r)).

(** ** Creation *)

Definition MQTTCLIENT_BAD_PROTOCOL : Z := -14.
Definition MQTTCLIENT_SSL_NOT_SUPPORTED : Z := -10.
Definition MQTTCLIENT_PERSISTENCE_DEFAULT : Z := 0.
Definition MQTTCLIENT_PERSISTENCE_NONE : Z := 1.
Definition MQTTCLIENT_PERSISTENCE_USER : Z := 2.
Definition URI_SSL : list Z := chars "ssl://".
Definition URI_WSS : list Z := chars "wss://".

(** [MQTTPersistence_create]: the code, and whether there is a store.  The structure of
    the application, if any, has all its functions or not; it is kept either way. *)
Definition MQTTPersistence_create (persistence_type : Z) (structure : option bool) : Z * bool :=
  if persistence_type =? MQTTCLIENT_PERSISTENCE_NONE then (0, false)
  else if persistence_type =? MQTTCLIENT_PERSISTENCE_DEFAULT then (0, true)
  else if persistence_type =? MQTTCLIENT_PERSISTENCE_USER then
    match structure with
    | Some ok => (if ok : bool then 0 else MQTTCLIENT_PERSISTENCE_ERROR, true)
    | None => (MQTTCLIENT_PERSISTENCE_ERROR, false)
    end
  else (MQTTCLIENT_PERSISTENCE_ERROR, false).

(** The options of a creation: whether they have their mark, and the versions. *)
Record createOptions := mkCreateOptions {
  co_struct_id : bool;
  co_struct_version : Z;
  co_MQTTVersion : Z
}.
Definition create_tests (serverURI clientId : list Z) (persistence_type : Z) (options : option createOptions) : Z :=
  if negb (UTF8_validateString (Some clientId)) then MQTTCLIENT_BAD_UTF8_STRING
  else if (strlen clientId =? 0) && (persistence_type =? MQTTCLIENT_PERSISTENCE_DEFAULT) then MQTTCLIENT_PERSISTENCE_ERROR
  else if strstr (chars "://") serverURI && negb (starts_with URI_TCP serverURI) && negb (starts_with URI_WS serverURI) then MQTTCLIENT_BAD_PROTOCOL
  else if match options with Some o => negb (co_struct_id o) || negb (co_struct_version o =? 0) | None => false end then MQTTCLIENT_BAD_STRUCTURE
  else MQTTCLIENT_SUCCESS.

(** The server, and whether it is reached by a WebSocket; without TLS the other kinds are
    refused. *)
Definition create_server (serverURI : list Z) : option (list Z * bool) :=
  if starts_with URI_TCP serverURI then Some (drop (List.length URI_TCP) serverURI, false)
  else if starts_with URI_WS serverURI then Some (drop (List.length URI_WS) serverURI, true)
  else if starts_with URI_SSL serverURI || starts_with URI_WSS serverURI then None
  else Some (serverURI, false).
Definition new_client (clientId : list Z) (version : Z) (store : bool) : Clients :=
  mkClients clientId None None 0 0 0 0 0 (mkNet 0 0 0 0) 0 0 0 None AList.empty AList.empty AList.empty 0 store version 0 0 0 0.

(** The messages of an earlier run. *)
Definition restore (serverURI : list Z) : M Z :=
  rc ← MQTTPersistence_initialize serverURI;
  if rc =? 0 then
    s ← sm_get;
    '(_, c) ← sm_lift (MQTTPersistence_restoreMessageQueue (st_client s) (st_phandle s));
    _ ← modify_client (fun _ => c);
    mret rc
  else mret rc.

(** [MQTTClient_createWithOptions]: the code and the handle, on the store and the network
    of the process. *)
Definition MQTTClient_createWithOptions (serverURI clientId : option (list Z)) (persistence_type : Z) (structure : option bool)
    (options : option createOptions) (store : P) (network : N) : res (Z * option (Sync P N)) :=
  match serverURI, clientId with
  | Some serverURI, Some clientId =>
      let rc := create_tests serverURI clientId persistence_type options in
      if negb (rc =? MQTTCLIENT_SUCCESS) then Ok (rc, None)
      else
        match create_server serverURI with
        | None => Ok (MQTTCLIENT_SSL_NOT_SUPPORTED, None)
        | Some (serverURI, websocket) =>
            let '(rc, persistent) := MQTTPersistence_create persistence_type structure in
            let version := match options with Some o => co_MQTTVersion o | None => MQTTVERSION_DEFAULT end in
            let s := mkSt (new_client clientId version persistent) store (mkPubs ∅ AList.empty) [] network 0 0 in
            '(rc, s) ← (if rc =? 0 then restore serverURI s else Ok (rc, s));
            Ok (rc, Some (mkSync s serverURI websocket None (mkSocks5 None 0 None None) 10000 5000 0))
        end
  | _, _ => Ok (MQTTCLIENT_NULL_PARAMETER, None)
  end.
Definition MQTTClient_create (serverURI clientId : option (list Z)) (persistence_type : Z) (structure : option bool) (store : P) (network : N) :=
  MQTTClient_createWithOptions serverURI clientId persistence_type structure None store network.

(** ** Destruction *)

(** [MQTTPersistence_close]: the store is closed, and the client has none. *)
Definition without_store (c : Clients) : Clients :=
  mkClients (clientID c) (username c) (password c) (cleansession c) (cleanstart c) (connected c) (good c) (ping_outstanding c) (net c) (msgID c)
    (keepAliveInterval c) (retryInterval c) (will c) (inboundMsgs c) (outboundMsgs c) (messageQueue c) (qentry_seqno c) false
    (Clients.MQTTVersion c) (connect_state c) (maxInflightMessages c) (sessionExpiry c) (socks5State c).
Definition MQTTPersistence_close : M Z :=
  s ← sm_get;
  if persistence (st_client s) then
    rc ← call_persistence pclose;
    _ ← modify_client without_store;
    mret rc
  else mret 0.

(** [MQTTProtocol_freeClient]: the messages are freed with their publications; the other
    members are values. *)
Definition MQTTProtocol_freeClient : M () :=
  s ← sm_get;
  _ ← MQTTProtocol_freeMessageList (outboundMsgs (st_client s));
  s ← sm_get;
  MQTTProtocol_freeMessageList (inboundMsgs (st_client s)).

(** [MQTTClient_destroy]: what is left of the process, without the client. *)
Definition MQTTClient_destroy (y : Sync P N) : res (P * pubstore * list pending_write * N) :=
  '(_, s) ← (_ ← MQTTPersistence_close; _ ← MQTTClient_emptyMessageQueue; MQTTProtocol_freeClient) (y_st y);
  Ok (st_phandle s, st_pubs s, st_pending s, st_net s).

(** ** Connecting *)

(** [setRetryLoopInterval] *)
Definition setRetryLoopInterval (keepalive : Z) : Z := Z.min 5000 (Z.max 100 (Z.quot (keepalive * 1000) 10)).

(** The will of the options, copied: the payload of version 1 comes before the message.
    There is a topic: [will_tests] refuses a will without. *)
Definition copy_will (w : will_options) : option willMessages :=
  if (wo_struct_version w =? 0) || (wo_struct_version w =? 1) then
    match wo_topicName w with
    | None => None
    | Some topic =>
        let payload := match (if wo_struct_version w =? 1 then wo_payload w else None) with
                       | Some p => p
                       | None => match wo_message w with Some m => cstr m | None => [] end
                       end in
        Some (mkWill (cstr topic) payload (wo_retained w) (wo_qos w))
    end
  else None.

(** A string of the client that is freed, and replaced when the options have one.  When
    they have none the pointer to the freed string stays, for the CONNECT to read or for
    another call to free: that is [Oob]. *)
Definition replace_string (old new : option (list Z)) : res (option (list Z)) :=
  match old, new with
  | Some _, None => Oob
  | _, _ => Ok new
  end.
Definition given {X} (new old : option X) : option X := match new with Some _ => new | None => old end.

(** The part of [MQTTClient_connectURI] that copies the options to the client. *)
Definition copy_options (o : connectOptions) (c : Clients) : res Clients :=
  let version := o_MQTTVersion o in
  username ← replace_string (username c) (cstr <$> o_username o);
  password ← replace_string (password c) (match o_password o with
                                          | Some p => Some (cstr p)
                                          | None => if 5 <=? o_struct_version o then o_binarypwd o else None
                                          end);
  Ok (mkClients (clientID c) username password
        (if MQTTVERSION_5 <=? version then 0 else o_cleansession o)
        (if MQTTVERSION_5 <=? version then o_cleanstart o else 0)
        (connected c) (good c) (ping_outstanding c) (net c) (msgID c)
        (o_keepAliveInterval o) (o_retryInterval o) (o_will o ≫= copy_will) (inboundMsgs c) (outboundMsgs c) (messageQueue c) (qentry_seqno c) (persistence c)
        version (connect_state c)
        (if (6 <=? o_struct_version o) && (0 <? o_maxInflightMessages o) then o_maxInflightMessages o
         else if negb (o_reliable o =? 0) then 1 else 10)
        (sessionExpiry c) (socks5State c)).
Definition copy_proxies (o : connectOptions) (y : Sync P N) : Sync P N :=
  put_proxies y (given (if 8 <=? o_struct_version o then o_httpProxy o else None) (y_httpProxy y))
    (mkSocks5 (given (socks5_host (o_socks5 o)) (socks5_host (y_socks5 y)))
       (if negb (socks5_port (o_socks5 o) =? 0) then socks5_port (o_socks5 o) else socks5_port (y_socks5 y))
       (given (socks5_username (o_socks5 o)) (socks5_username (y_socks5 y)))
       (given (socks5_password (o_socks5 o)) (socks5_password (y_socks5 y)))).

(** The proxies of a connection: the SOCKS5 proxy of the network is never set. *)
Definition proxies_of (y : Sync P N) : proxies := mkProxies (given (y_httpProxy y) http_proxy) None 0.

(** What is left of the time, without a sign. *)
Definition time_left (start millisecsTimeout : Z) : A Z :=
  e ← on_st (MQTTTime_elapsed start); mret (to_u64 (millisecsTimeout - e)).

Section Version.
Context (fuel : nat) (serverURI : list Z) (version start millisecsTimeout : Z) (connectProperties willProperties : option MQTTProperties).

Definition send_connect : M Z :=
  _ ← set_state WAIT_FOR_CONNACK;
  MQTTPacket_send_connect version connectProperties willProperties.

(** The stages of [MQTTClient_connectURIVersion], each with the code and whether the
    next one follows. *)
Definition stop (rc : Z) : A (option (Z * bool)) := mret (Some (rc, false)).
Definition go (rc : Z) : A (option (Z * bool)) := mret (Some (rc, true)).
Definition or_stop (m : M Z) : A (option (Z * bool)) :=
  rc ← on_st m; if rc =? SOCKET_ERROR then stop SOCKET_ERROR else go 0.

Definition start_stage : A (option (Z * bool)) :=
  y ← sm_get;
  rc ← on_st (MQTTProtocol_connect (proxies_of y) serverURI (y_websocket y) version connectProperties willProperties);
  s ← on_st sm_get;
  if (rc =? SOCKET_ERROR) || (connect_state (st_client s) =? NOT_IN_PROGRESS) then stop SOCKET_ERROR else go rc.

(** The TCP connection is complete. *)
Definition tcp_complete : A (option (Z * bool)) :=
  y ← sm_get;
  if y_websocket y : bool then
    rc ← (if bool_decide (is_Some (px_http (proxies_of y))) then
            _ ← on_st (set_state PROXY_CONNECT_IN_PROGRESS);
            on_st (on_socket (fun sock => WebSocket_proxy_connect sock serverURI))
          else mret 0);
    if rc =? SOCKET_ERROR then stop rc
    else
      _ ← on_st (set_state WEBSOCKET_IN_PROGRESS);
      or_stop (on_socket (fun sock => WebSocket_connect sock serverURI))
  else or_stop send_connect.

Definition state_is (state : Z) : A bool := s ← on_st sm_get; mret (connect_state (st_client s) =? state).

Definition tcp_stage (rc : Z) : A (option (Z * bool)) :=
  waiting ← state_is TCP_IN_PROGRESS;
  if waiting : bool then
    left ← time_left start millisecsTimeout;
    '(rc, _) ⇠ MQTTClient_waitfor fuel CONNECT left;
    if negb (rc =? 0) then stop SOCKET_ERROR else tcp_complete
  else go rc.

(** The outcome of the wait for the upgrade is not looked at. *)
Definition websocket_stage (rc : Z) : A (option (Z * bool)) :=
  waiting ← state_is WEBSOCKET_IN_PROGRESS;
  if waiting : bool then
    left ← time_left start millisecsTimeout;
    '(rc, _) ⇠ MQTTClient_waitfor fuel CONNECT left;
    or_stop send_connect
  else go rc.

(** The CONNACK that was waited for: the code, the session present flag and the
    properties. *)
Definition take_connack (connack : Connack) : A (Z * Z * option MQTTProperties) :=
  let rc := cka_rc connack in
  '(rc, sessionPresent, properties) ←
    (if rc =? MQTTCLIENT_SUCCESS then
       rc ← on_st connack_accepted;
       s ← on_st sm_get;
       properties ← (if Clients.MQTTVersion (st_client s) =? MQTTVERSION_5
                     then match cka_properties connack with
                          | Some p => p ← sm_lift (MQTTProperties_copy p); mret (Some p)
                          | None => sm_oob
                          end
                     else mret None);
       mret (rc, if version =? 4 then Z.land (cka_flags connack) 1 else 0, properties)
     else mret (rc, 0, None));
  _ ← sm_lift (MQTTPacket_freeConnack connack);
  mret (rc, sessionPresent, properties).
Definition connack_stage (rc : Z) : A (option (Z * Z * option MQTTProperties)) :=
  waiting ← state_is WAIT_FOR_CONNACK;
  if waiting : bool then
    left ← time_left start millisecsTimeout;
    '(_, pack) ⇠ MQTTClient_waitfor fuel CONNACK left;
    match pack with
    | None => mret (Some (SOCKET_ERROR, 0, None))
    | Some (Pconnack connack) => r ← take_connack connack; mret (Some r)
    | Some _ => sm_oob
    end
  else mret (Some (rc, 0, None)).

(** The stages one after the other. *)
Definition stages : A (option (Z * Z * option MQTTProperties)) :=
  '(rc, more) ⇠ start_stage;
  '(rc, more) ⇠ (if more : bool then tcp_stage rc else stop rc);
  '(rc, more) ⇠ (if more : bool then websocket_stage rc else stop rc);
  if more : bool then connack_stage rc else mret (Some (rc, 0, None)).

(** [MQTTClient_connectURIVersion]: the response, and the session present flag when it
    is successful. *)
Definition MQTTClient_connectURIVersion : A (option (MQTTResponse * Z)) :=
  '(rc, sessionPresent, properties) ⇠ stages;
  _ ← (if rc =? MQTTCLIENT_SUCCESS then mret () else on_st MQTTClient_disconnect_internal);
  mret (Some (mkResponse rc 0 [] properties, sessionPresent)).
End Version.

(** What connect returns in the options, from version 4 of the structure. *)
Record returned := mkReturned {
  rt_serverURI : list Z;
  rt_MQTTVersion : Z;
  rt_sessionPresent : Z
}.
Definition returns (o : connectOptions) (serverURI : list Z) (version : Z) (r : MQTTResponse * Z) : MQTTResponse * option returned :=
  (r.1, if (r_reasonCode r.1 =? MQTTCLIENT_SUCCESS) && (4 <=? o_struct_version o) then Some (mkReturned serverURI version r.2) else None).

(** [MQTTClient_connectURI] *)
Definition MQTTClient_connectURI (fuel : nat) (o : connectOptions) (serverURI : list Z) (connectProperties willProperties : option MQTTProperties)
    : A (option (MQTTResponse * option returned)) :=
  let millisecsTimeout := to_u64 (o_connectTimeout o * 1000) in
  start ← on_st MQTTTime_now;
  _ ← sm_modify (fun y => put_interval y (setRetryLoopInterval (o_keepAliveInterval o)));
  _ ← sm_modify (copy_proxies o);
  s ← on_st sm_get;
  c ← sm_lift (copy_options o (st_client s));
  _ ← on_st (modify_client (fun _ => c));
  let version := if 3 <=? o_struct_version o then o_MQTTVersion o else MQTTVERSION_DEFAULT in
  if version =? MQTTVERSION_DEFAULT then
    r ⇠ MQTTClient_connectURIVersion fuel serverURI 4 start millisecsTimeout connectProperties willProperties;
    if negb (r_reasonCode r.1 =? MQTTCLIENT_SUCCESS) then
      r ⇠ MQTTClient_connectURIVersion fuel serverURI 3 start millisecsTimeout connectProperties willProperties;
      mret (Some (returns o serverURI 3 r))
    else mret (Some (returns o serverURI 4 r))
  else
    r ⇠ MQTTClient_connectURIVersion fuel serverURI version start millisecsTimeout connectProperties willProperties;
    mret (Some (returns o serverURI version r)).

(** The tests of [MQTTClient_connectAll]. *)
Definition will_tests (w : will_options) : Z :=
  if negb (wo_struct_id w) || (negb (wo_struct_version w =? 0) && negb (wo_struct_version w =? 1)) then MQTTCLIENT_BAD_STRUCTURE
  else if (wo_qos w <? 0) || (2 <? wo_qos w) then MQTTCLIENT_BAD_QOS
  else match wo_topicName w with
       | None => MQTTCLIENT_NULL_PARAMETER
       | Some t => if strlen t =? 0 then MQTTCLIENT_0_LEN_WILL_TOPIC else MQTTCLIENT_SUCCESS
       end.
Definition valid_string (o : option (list Z)) : bool := match o with Some s => UTF8_validateString (Some s) | None => true end.
Definition option_tests (o : connectOptions) : Z :=
  let will_rc := match o_will o with Some w => will_tests w | None => MQTTCLIENT_SUCCESS end in
  if negb (o_struct_id o) || (o_struct_version o <? 0) || (8 <? o_struct_version o) then MQTTCLIENT_BAD_STRUCTURE
  else if negb (will_rc =? MQTTCLIENT_SUCCESS) then will_rc
  else if negb (valid_string (o_username o)) || negb (valid_string (o_password o)) then MQTTCLIENT_BAD_UTF8_STRING
  else if negb (o_MQTTVersion o =? MQTTVERSION_DEFAULT) && ((o_MQTTVersion o <? MQTTVERSION_3_1) || (MQTTVERSION_5 <? o_MQTTVersion o))
  then MQTTCLIENT_BAD_MQTT_VERSION
  else if MQTTVERSION_5 <=? o_MQTTVersion o
       then if negb (o_cleansession o =? 0) then MQTTCLIENT_BAD_MQTT_OPTION else MQTTCLIENT_SUCCESS
       else if negb (o_cleanstart o =? 0) then MQTTCLIENT_BAD_MQTT_OPTION else MQTTCLIENT_SUCCESS.

(** The servers of the options, until one accepts; the kind of connection that one of
    them asks for is kept for those that follow. *)
Definition server_address (uri : list Z) : list Z * bool :=
  if starts_with URI_TCP uri then (drop (List.length URI_TCP) uri, false)
  else if starts_with URI_WS uri then (drop (List.length URI_WS) uri, true)
  else (uri, false).
Fixpoint server_loop (fuel : nat) (o : connectOptions) (uris : list (list Z)) (connectProperties willProperties : option MQTTProperties)
    (last : MQTTResponse * option returned) : A (option (MQTTResponse * option returned)) :=
  match uris with
  | [] => mret (Some last)
  | uri :: uris =>
      let '(serverURI, websocket) := server_address uri in
      _ ← sm_modify (fun y => if websocket then put_websocket y true else y);
      r ⇠ MQTTClient_connectURI fuel o serverURI connectProperties willProperties;
      if r_reasonCode r.1 =? MQTTREASONCODE_SUCCESS then mret (Some r)
      else server_loop fuel o uris connectProperties willProperties r
  end.

(** The receive maximum of the server, and the will, which is not kept. *)
Definition PROPERTY_RECEIVE_MAXIMUM : Z := 33.
Definition receive_maximum (r : MQTTResponse) (c : Clients) : res Clients :=
  match r_properties r with
  | Some props =>
      if (r_reasonCode r =? MQTTREASONCODE_SUCCESS) && MQTTProperties_hasProperty props PROPERTY_RECEIVE_MAXIMUM then
        recv_max ← MQTTProperties_getNumericValue props PROPERTY_RECEIVE_MAXIMUM;
        Ok (if recv_max <? maxInflightMessages c then set_window c recv_max else c)
      else Ok c
  | None => Ok c
  end.

(** [MQTTClient_connectAll] *)
Definition MQTTClient_connectAll (fuel : nat) (options : option connectOptions) (connectProperties willProperties : option MQTTProperties)
    : A (option (MQTTResponse * option returned)) :=
  r ⇠ match options with
      | None => mret (Some (response MQTTCLIENT_NULL_PARAMETER, None))
      | Some o =>
          if negb (option_tests o =? MQTTCLIENT_SUCCESS) then mret (Some (response (option_tests o), None))
          else
            y ← sm_get;
            r ⇠ (if (o_struct_version o <? 2) || (Zlen (o_serverURIs o) =? 0)
                 then MQTTClient_connectURI fuel o (y_serverURI y) connectProperties willProperties
                 else server_loop fuel o (o_serverURIs o) connectProperties willProperties (response SOCKET_ERROR, None));
            s ← on_st sm_get;
            c ← sm_lift (receive_maximum r.1 (st_client s));
            _ ← on_st (modify_client (fun _ => c));
            mret (Some r)
      end;
  _ ← on_st (modify_client (fun c => set_will c None));
  mret (Some r).

(** [MQTTClient_connect] and [MQTTClient_connect5] *)
Definition MQTTClient_connect (fuel : nat) (options : option connectOptions) : A (option (Z * option returned)) :=
  s ← on_st sm_get;
  if MQTTVERSION_5 <=? Clients.MQTTVersion (st_client s) then mret (Some (MQTTCLIENT_WRONG_MQTT_VERSION, None))
  else r ⇠ MQTTClient_connectAll fuel options None None; mret (Some (r_reasonCode r.1, r.2)).
Definition MQTTClient_connect5 (fuel : nat) (options : option connectOptions) (connectProperties willProperties : option MQTTProperties)
    : A (option (MQTTResponse * option returned)) :=
  s ← on_st sm_get;
  if Clients.MQTTVersion (st_client s) <? MQTTVERSION_5 then mret (Some (response MQTTCLIENT_WRONG_MQTT_VERSION, None))
  else MQTTClient_connectAll fuel options connectProperties willProperties.

End Sync.

(** A network with bytes to read is ready at once; the others wait for the whole time. *)
Definition script_poll (sock timeout : Z) (n : ScriptNet) : Z * ScriptNet :=
  let ready := match drop (Z.to_nat (sn_pos n)) (sn_input n) with [] => false | _ => true end in
  (if ready then sock else 0,
   mkScript (sn_results n) (sn_written n) (sn_input n) (sn_pos n) (sn_clock n + (if ready then 1 else 1 + 1000 * Z.max 0 timeout))).
#[export] Instance script_poller : Poller ScriptNet := { getReadySocket := script_poll; getWrite _ _ := false }.

End SyncClient.
