(* ===== verification/SyncConnect.v ===== *)
(** * What connecting the synchronous client leaves

    A client that is connected when the code of connect says so, and that has no connection
    and no socket when it does not. *)

From S2P Require Import Prelude.
From S2P Require Import Properties.
From S2P Require Import LinkedList.
From S2P Require Import Clients.
From S2P Require Import Packet.
From S2P Require Import State.
From S2P Require Import Store.
From S2P Require Import Persistence.
From S2P Require Import PacketIO.
From S2P Require Import Protocol.
From S2P Require Import Session.
From S2P Require Import Outgoing.
From S2P Require Import SyncClient.
From Stdlib Require Import ZArith Lia List.
From stdpp Require Import base numbers list gmap.

Open Scope Z_scope.

Module SyncConnect.
Import Wire Properties Clients Packet State Store Persistence PacketIO Protocol Session Outgoing SyncClient.

(** ** What the outcomes of a computation have in common *)

(** [hoare I m Q]: every outcome of [m] from a state with [I] satisfies [Q]. *)
Definition hoare {S X} (I : S -> Prop) (m : SM S X) (Q : X -> S -> Prop) : Prop := forall s x s', I s -> m s = Ok (x, s') -> Q x s'.
Abbreviation ends m Q := (hoare (fun _ => True) m Q).

Section Hoare.
Context {S : Type}.
Implicit Types I : S -> Prop.
Lemma hoare_ret {X} I (x : X) (Q : X -> S -> Prop) : (forall s, I s -> Q x s) -> hoare I (mret x) Q.
Proof. intros H s y s' HI [= <- <-]. auto. Qed.
Lemma hoare_bind {X Y} I (m : SM S X) (f : X -> SM S Y) J Q : hoare I m J -> (forall x, hoare (J x) (f x) Q) -> hoare I (m ≫= f) Q.
Proof. intros Hm Hf s y s' HI E. apply sm_bind_Ok in E as (x & s1 & E1 & E). eapply Hf; [by eapply Hm|done]. Qed.
(** A part of which nothing is asked. *)
Lemma hoare_skip {X Y} I (m : SM S X) (f : X -> SM S Y) Q : (forall x, ends (f x) Q) -> hoare I (m ≫= f) Q.
Proof. intros H. by eapply hoare_bind with (J := fun _ _ => True); [by intros s x s' _ _|]. Qed.
Lemma hoare_get {X} I (f : S -> SM S X) Q : (forall s0, hoare (fun s => s = s0 /\ I s) (f s0) Q) -> hoare I (sm_get ≫= f) Q.
Proof. intros H s x s' HI E. apply sm_bind_Ok in E as (? & ? & [= <- <-] & E). by eapply (H s). Qed.
Lemma hoare_keep {X} I (m : SM S X) R : respects R m -> (forall s s', R s s' -> I s -> I s') -> hoare I m (fun _ => I).
Proof. intros H HR s x s' HI E. eapply HR; [by eapply H|done]. Qed.
Lemma hoare_mono {X} I I' (m : SM S X) (Q Q' : X -> S -> Prop) :
  hoare I' m Q' -> (forall s, I s -> I' s) -> (forall x s, Q' x s -> Q x s) -> hoare I m Q.
Proof. intros H HI HQ s x s' Hs E. apply HQ, (H s); auto. Qed.
Lemma hoare_if {X} (b : bool) I (m m' : SM S X) Q :
  hoare (fun s => I s /\ b = true) m Q -> hoare (fun s => I s /\ b = false) m' Q -> hoare I (if b then m else m') Q.
Proof. intros H1 H2 s x s' HI E. destruct b; [by eapply H1|by eapply H2]. Qed.
Lemma hoare_right {X} P I (m : SM S X) Q : hoare I m Q -> hoare (fun s => P s /\ I s) m Q.
Proof. intros H s x s' [_ Hs]. by apply H. Qed.
Lemma hoare_any {X} I (m : SM S X) Q : ends m Q -> hoare I m Q.
Proof. intros H s x s' _. by apply H. Qed.
Lemma hoare_oob {X} I (Q : X -> S -> Prop) : hoare I sm_oob Q.
Proof. done. Qed.
End Hoare.

(** ** The state of the connection *)

Section States.
Context {P N : Type} {PO : PersistenceOps P} {NT : Transport N} {NC : Connector N} {NP : Poller N}.
Abbreviation M := (SM (St P N)).
Implicit Types s : St P N.

(** The state of the connection, the flag and the socket. *)
Definition link (s : St P N) : Z * Z * Z := (connect_state (st_client s), connected (st_client s), the_socket s).

Definition idle (s : St P N) : Prop := connect_state (st_client s) = NOT_IN_PROGRESS.
Definition keeps_idle (s s' : St P N) : Prop := idle s -> idle s'.
Definition disconnected (s : St P N) : Prop :=
  connect_state (st_client s) = NOT_IN_PROGRESS /\ connected (st_client s) = 0 /\ the_socket s <= 0.

Abbreviation same := (respects (same_view link)).

Lemma link_client (f : Clients -> Clients) :
  (forall c, connect_state (f c) = connect_state c /\ connected (f c) = connected c /\ net_socket (net (f c)) = net_socket (net c)) ->
  same (modify_client f).
Proof.
  intros H. apply respects_modify. intros s. unfold same_view, link. cbn. destruct (H (st_client s)) as (-> & -> & E).
  unfold the_socket. cbn. by rewrite E.
Qed.
Lemma link_call_net {X} (f : N -> X * N) : same (call_net f).
Proof. intros s x s' E. unfold call_net in E. by destruct (f (st_net s)) as [a n]; injection E as _ <-. Qed.
Lemma link_call_persistence (f : P -> Z * P) : same (call_persistence f).
Proof. intros s x s' E. unfold call_persistence in E. by destruct (f (st_phandle s)) as [a n]; injection E as _ <-. Qed.
End States.
#[export] Hint Resolve link_call_net link_call_persistence : respects.
#[export] Hint Extern 1 (respects (same_view link) (modify_client _)) => apply link_client; intros ?; split; [|split]; reflexivity : respects.

Section Sessions.
Context {P N : Type} {PO : PersistenceOps P} {NT : Transport N} {NC : Connector N} {NP : Poller N}.
Abbreviation same := (respects (same_view (link (P:=P) (N:=N)))).

Lemma link_removePublications l : same (removePublications l).
Proof. induction l as [|m l IH]; cbn [removePublications]; respects; apply IH. Qed.
#[local] Hint Resolve link_removePublications : respects.
Lemma link_cleanSession : same MQTTClient_cleanSession.
Proof. respects. Qed.
Lemma link_send_connect v cp wp : same (MQTTPacket_send_connect v cp wp).
Proof. respects. Qed.
Lemma link_send_publish p d q r : same (MQTTPacket_send_publish p d q r).
Proof. respects. Qed.
Lemma link_send_pubrel v id d : same (MQTTPacket_send_pubrel v id d).
Proof. respects. Qed.
Lemma link_send_pingreq : same MQTTPacket_send_pingreq.
Proof. respects. Qed.
Lemma link_send_disconnect r p : same (MQTTPacket_send_disconnect r p).
Proof. respects. Qed.
Lemma link_touch_message i m : same (touch_message i m).
Proof. respects. Qed.
Lemma link_share_buffers p sent : same (share_buffers p sent).
Proof. respects. Qed.
Lemma link_deref_pub p : same (deref_pub p).
Proof. respects. Qed.


(** What the link tells is kept by what does not change it. *)
Lemma link_keeps {X} (m : SM (St P N) X) (Q : St P N -> Prop) :
  (forall s s', same_view link s s' -> Q s -> Q s') -> same m -> respects (fun s s' => Q s -> Q s') m.
Proof. intros HQ H s x s' E. apply HQ. by eapply H. Qed.
Lemma idle_link (s s' : St P N) : same_view link s s' -> idle s -> idle s'.
Proof. unfold same_view, link, idle. by intros [= -> _ _]. Qed.
Lemma disconnected_link (s s' : St P N) : same_view link s s' -> disconnected s -> disconnected s'.
Proof. unfold same_view, link, disconnected. by intros [= -> -> ->]. Qed.

Lemma link_clean_if (b : bool) : same (if b then _ ← MQTTClient_cleanSession; mret () else mret ()).
Proof. respects. Qed.
Lemma ends_close_socket : ends (close_socket (P:=P) (N:=N)) (fun _ s => the_socket s <= 0).
Proof. by intros s x s' _ [= _ <-]. Qed.

Lemma ends_closeSession reason props : ends (MQTTClient_closeSession (P:=P) (N:=N) reason props) (fun _ => disconnected).
Proof.
  apply hoare_skip. intros _. apply hoare_get. intros s1.
  eapply hoare_bind with (J := fun _ s => the_socket s <= 0).
  { destruct (Z.ltb_spec 0 (the_socket s1)) as [Hs|Hs].
    - apply hoare_skip. intros _. exact ends_close_socket.
    - apply hoare_ret. by intros s [-> _]. }
  intros _. eapply hoare_bind with (J := fun _ => disconnected).
  { intros s x s' Hs [= _ <-]. split; [done|]. by split. }
  intros _. apply hoare_get. intros s2. apply hoare_right.
  eapply hoare_keep; [apply link_clean_if|exact disconnected_link].
Qed.
Lemma ends_disconnect : ends (MQTTClient_disconnect_internal (P:=P) (N:=N)) (fun _ => disconnected).
Proof. apply hoare_skip. intros _. apply ends_closeSession. Qed.

(** Nothing but a call to connect begins a connection: what is idle stays so. *)
Abbreviation calm := (respects (keeps_idle (P:=P) (N:=N))).
#[export] Instance keeps_idle_preorder : PreOrder (keeps_idle (P:=P) (N:=N)).
Proof. split; [intros s H; exact H|]. intros x y z H1 H2 H. exact (H2 (H1 H)). Qed.
Lemma calm_link {X} (m : SM (St P N) X) : same m -> calm m.
Proof. apply link_keeps, idle_link. Qed.
Lemma calm_client (f : Clients -> Clients) : (forall c, connect_state (f c) = connect_state c) -> calm (modify_client f).
Proof. intros H. apply respects_modify. intros s. unfold keeps_idle, idle. cbn. by rewrite H. Qed.
Lemma calm_disconnect : calm MQTTClient_disconnect_internal.
Proof. intros s x s' E _. by eapply ends_disconnect. Qed.
Lemma calm_closeSession sendwill : calm (MQTTProtocol_closeSession sendwill).
Proof. apply calm_disconnect. Qed.

End Sessions.
#[export] Hint Resolve calm_closeSession : respects.
#[export] Hint Extern 1 (respects keeps_idle (modify_client _)) => apply calm_client; intros ?; reflexivity : respects.
#[export] Hint Extern 2 (respects keeps_idle _) => apply calm_link; solve [eauto with respects nocore] : respects.

Section Connack.
Context {P N : Type} {PO : PersistenceOps P} {NT : Transport N} {NC : Connector N} {NP : Poller N}.
Abbreviation same := (respects (same_view (link (P:=P) (N:=N)))).
Abbreviation calm := (respects (keeps_idle (P:=P) (N:=N))).
#[local] Hint Resolve link_cleanSession link_send_connect link_send_publish link_send_pubrel link_send_pingreq link_touch_message link_share_buffers link_deref_pub : respects.

Lemma calm_retries_loop n i now regardless : calm (retries_loop n i now regardless).
Proof. revert i. induction n as [|n IH]; intros i; cbn [retries_loop]; respects; apply IH. Qed.
#[local] Hint Resolve calm_retries_loop : respects.
Lemma calm_retry now doRetry regardless : calm (MQTTProtocol_retry now doRetry regardless).
Proof. respects. Qed.
#[local] Hint Resolve calm_retry : respects.

Lemma link_clean_some (b : bool) : same (if b then MQTTClient_cleanSession else mret MQTTCLIENT_SUCCESS).
Proof. respects. Qed.

(** An accepted CONNACK: the client is connected when the code is 0. *)
Definition accepted (rc : Z) (s : St P N) : Prop := rc = MQTTCLIENT_SUCCESS -> idle s /\ connected (st_client s) = 1.
Lemma ends_connack_accepted : ends (connack_accepted (P:=P) (N:=N)) accepted.
Proof.
  eapply hoare_bind with (J := fun _ => accepted MQTTCLIENT_SUCCESS); [by intros s x s' _ [= _ <-]|intros _].
  apply hoare_get. intros s1. eapply hoare_bind with (J := fun _ => accepted MQTTCLIENT_SUCCESS).
  { apply hoare_right. eapply hoare_keep; [apply link_clean_some|].
    intros s s' H. unfold accepted. intros Ha Hrc. destruct (Ha Hrc) as [Hi Hc]. split; [by eapply idle_link|].
    injection H as _ -> _. done. }
  intros rc. apply hoare_get. intros s2. apply hoare_if; [|by apply hoare_ret; intros s [[_ H] _] _; apply H].
  eapply hoare_bind with (J := fun _ => idle).
  { intros s x s' [[_ H] _] [= _ <-]. destruct (H eq_refl) as [Hi _]. exact Hi. }
  intros _. eapply hoare_bind with (J := fun _ => idle); [eapply hoare_keep; [apply calm_retry|intros s s' H; exact H]|].
  intros _. apply hoare_get. intros s3. apply hoare_ret. intros s [-> Hi]. unfold accepted.
  by destruct (Z.eqb_spec (connected (st_client s3)) 1).
Qed.

(** What follows a TCP connection: the CONNECT was sent when the code is 0. *)
Definition in_state (states : list Z) (s : St P N) : Prop := connect_state (st_client s) ∈ states.
Definition when_0 (states : list Z) (rc : Z) (s : St P N) : Prop := rc = 0 -> in_state states s.
Lemma ends_connected_socket ip ws hp s5 v cp wp :
  ends (connected_socket (P:=P) (N:=N) ip ws hp s5 v cp wp) (when_0 [WAIT_FOR_CONNACK]).
Proof.
  unfold connected_socket. do 3 (apply hoare_skip; intros ?). destruct (Z.eqb_spec x1 0) as [->|Hne]; [|by apply hoare_ret; intros s _ H].
  apply hoare_skip. intros rc. eapply hoare_bind with (J := fun _ => when_0 [WAIT_FOR_CONNACK] rc).
  - intros s u s' _ [= _ <-] ->. apply list_elem_of_here.
  - intros _. by apply hoare_ret.
Qed.
Lemma ends_connect px ip ws v cp wp : ends (MQTTProtocol_connect (P:=P) (N:=N) px ip ws v cp wp) (when_0 [WAIT_FOR_CONNACK]).
Proof.
  unfold MQTTProtocol_connect. do 3 (apply hoare_skip; intros ?). destruct (_ || _) eqn:E.
  - apply hoare_skip. intros _. apply hoare_ret. intros s _ ->. discriminate E.
  - destruct (Z.eqb_spec x1 0); [apply ends_connected_socket|by apply hoare_ret; intros s _ H].
Qed.
Lemma hoare_set_state state : ends (set_state (P:=P) (N:=N) state) (fun _ => in_state [state]).
Proof. intros s x s' _ [= _ <-]. apply list_elem_of_here. Qed.
Lemma ends_send_connect v cp wp : ends (send_connect (P:=P) (N:=N) v cp wp) (fun _ => in_state [WAIT_FOR_CONNACK]).
Proof.
  eapply hoare_bind; [apply hoare_set_state|]. intros u. eapply hoare_keep; [apply link_send_connect|].
  intros s s' H. unfold in_state. injection H as H _ _. by rewrite H.
Qed.
End Connack.

(** ** Connecting *)

Section Connecting.
Context {P N : Type} {PO : PersistenceOps P} {NT : Transport N} {NC : Connector N} {NP : Poller N}.
Context (http_proxy : option (list Z)).
Abbreviation A := (SM (Sync P N)).

Lemma hoare_on_st {X} I (m : SM (St P N) X) (Q : X -> St P N -> Prop) :
  hoare I m Q -> hoare (fun y => I (y_st y)) (on_st m) (fun x y => Q x (y_st y)).
Proof.
  intros H y x y' HI E. unfold on_st in E. apply res_bind_Ok in E as ([x0 s] & E0 & E). injection E as <- <-. by eapply H.
Qed.

(** What is true of a wait that is over. *)
Definition over {X} (Q : X -> Sync P N -> Prop) (r : option X) (y : Sync P N) : Prop := match r with Some x => Q x y | None => True end.
Lemma hoare_unless {X Y} I (m : A (option X)) (f : X -> A (option Y)) J Q :
  hoare I m (over J) -> (forall x, hoare (J x) (f x) (over Q)) -> hoare I (unless_waiting m f) (over Q).
Proof. intros Hm Hf. eapply hoare_bind; [exact Hm|]. intros [x|]; [apply Hf|]. by apply hoare_ret. Qed.
Lemma hoare_unless_skip {X Y} I (m : A (option X)) (f : X -> A (option Y)) Q :
  (forall x, ends (f x) (over Q)) -> hoare I (unless_waiting m f) (over Q).
Proof. intros H. apply hoare_unless with (J := fun _ _ => True); [|done]. by intros y [x|] y' _ _. Qed.

Section Version.
Context (fuel : nat) (serverURI : list Z) (version start millisecsTimeout : Z) (cp wp : option MQTTProperties).

(** The codes of the stages: one that stops is not 0, and one that goes on with 0 is in
    one of the states. *)
Definition stage (states : list Z) (r : Z * bool) (y : Sync P N) : Prop := r.1 = 0 -> r.2 = true /\ in_state states (y_st y).

Lemma hoare_or_stop I (m : SM (St P N) Z) states : hoare I m (fun _ => in_state states) -> hoare (fun y => I (y_st y)) (or_stop m) (over (stage states)).
Proof.
  intros H. eapply hoare_bind; [apply hoare_on_st, H|]. intros rc. cbv beta.
  destruct (rc =? SOCKET_ERROR); apply hoare_ret; intros y Hy; cbn; unfold stage; cbn; [done|by intros _].
Qed.

Lemma stage_start : ends (start_stage http_proxy serverURI version cp wp) (over (stage [WAIT_FOR_CONNACK])).
Proof.
  apply hoare_get. intros y0. eapply hoare_bind; [eapply hoare_mono; [apply hoare_on_st, ends_connect|done|by intros x s H]|].
  intros rc. cbv beta. eapply hoare_bind with (J := fun _ y => when_0 [WAIT_FOR_CONNACK] rc (y_st y)).
  { intros y x y' Hy E. unfold on_st in E. cbn in E. injection E as _ <-. exact Hy. }
  intros s. destruct (_ || _); apply hoare_ret; intros y Hy; cbn; unfold stage; cbn; [done|]. by intros ->; split; [|apply Hy].
Qed.

Lemma hoare_state_is I state :
  hoare I (state_is (P:=P) (N:=N) state) (fun b y => I y /\ b = (connect_state (st_client (y_st y)) =? state)).
Proof.
  intros y b y' HI E. unfold state_is, on_st in E. apply sm_bind_Ok in E as (s & y1 & E1 & E).
  injection E1 as <- <-. injection E as <- <-. destruct y. by split.
Qed.

(** A call on the socket keeps the state of the connection. *)
Lemma keep_state states {X} (m : SM (St P N) X) : respects (same_view link) m -> hoare (in_state states) m (fun _ => in_state states).
Proof. intros H. eapply hoare_keep; [exact H|]. intros s s' E. unfold in_state. injection E as E _ _. by rewrite E. Qed.
Lemma stage_tcp_complete : ends (tcp_complete http_proxy serverURI version cp wp) (over (stage [WAIT_FOR_CONNACK; WEBSOCKET_IN_PROGRESS])).
Proof.
  apply hoare_get. intros y. destruct (y_websocket y).
  - apply hoare_skip. intros rc. destruct (Z.eqb_spec rc SOCKET_ERROR) as [->|Hne]; [by apply hoare_ret; intros y' _|].
    eapply hoare_bind with (J := fun _ y => in_state [WAIT_FOR_CONNACK; WEBSOCKET_IN_PROGRESS] (y_st y)).
    + eapply hoare_mono; [apply (hoare_on_st (fun _ => True)), hoare_set_state|done|]. intros u y' H.
      apply list_elem_of_further, H.
    + intros u. apply hoare_or_stop. apply keep_state. respects.
  - eapply hoare_mono; [apply (hoare_or_stop (fun _ => True)), ends_send_connect|done|]. intros [[rc b]|] y'; [|done]. cbn. intros H H0.
    destruct (H H0) as [? H1]. split; [done|]. apply list_elem_of_singleton in H1. unfold in_state. rewrite H1. apply list_elem_of_here.
Qed.

Lemma stage_tcp rc :
  hoare (stage [WAIT_FOR_CONNACK] (rc, true)) (tcp_stage http_proxy fuel serverURI version start millisecsTimeout cp wp rc)
    (over (stage [WAIT_FOR_CONNACK; WEBSOCKET_IN_PROGRESS])).
Proof.
  eapply hoare_bind; [apply hoare_state_is|]. intros [|]; cbv beta.
  - apply hoare_skip. intros left. apply hoare_unless_skip. intros [rc' pack].
    destruct (Z.eqb_spec rc' 0); [apply stage_tcp_complete|]. by apply hoare_ret.
  - apply hoare_ret. intros y [H _] H0. destruct (H H0) as [_ H1]. split; [done|]. apply list_elem_of_singleton in H1.
    unfold in_state. rewrite H1. apply list_elem_of_here.
Qed.

Lemma stage_websocket rc :
  hoare (stage [WAIT_FOR_CONNACK; WEBSOCKET_IN_PROGRESS] (rc, true)) (websocket_stage fuel version start millisecsTimeout cp wp rc)
    (over (stage [WAIT_FOR_CONNACK])).
Proof.
  eapply hoare_bind; [apply hoare_state_is|]. intros [|]; cbv beta.
  - apply hoare_skip. intros left. apply hoare_unless_skip. intros [rc' pack]. apply (hoare_or_stop (fun _ => True)), ends_send_connect.
  - apply hoare_ret. intros y [H E] H0. destruct (H H0) as [_ H1]. split; [done|]. unfold in_state in *.
    apply elem_of_cons in H1 as [H1|H1]; [rewrite H1; apply list_elem_of_here|]. apply list_elem_of_singleton in H1. by rewrite H1 in E.
Qed.

Definition outcome_ok (rc : Z) (y : Sync P N) : Prop := accepted rc (y_st y).
Lemma ends_take_connack connack : ends (take_connack version connack) (fun r y => outcome_ok r.1.1 y).
Proof.
  eapply hoare_bind with (J := fun r y => outcome_ok r.1.1 y).
  - destruct (Z.eqb_spec (cka_rc connack) MQTTCLIENT_SUCCESS); [|by apply hoare_ret; intros y _ E].
    eapply hoare_bind; [apply (hoare_on_st (fun _ => True)), ends_connack_accepted|]. intros rc. cbv beta.
    intros y r y' Ha E. apply sm_bind_Ok in E as (s1 & y1 & E1 & E). injection E1 as <- <-.
    apply sm_bind_Ok in E as (p & y2 & E2 & E). injection E as <- <-. unfold outcome_ok. cbn.
    assert (y2 = put_st y (y_st y)) as ->.
    { destruct (_ =? _); [|by injection E2]. destruct (cka_properties connack); [|done].
      apply sm_bind_Ok in E2 as (q & y3 & E3 & E2). unfold sm_lift in E3. destruct (MQTTProperties_copy _); [|done|done].
      injection E3 as _ <-. by injection E2. }
    exact Ha.
  - intros [[rc sp] p]. intros y r y' Ha E. apply sm_bind_Ok in E as (u & y1 & E1 & E). injection E as <- <-.
    unfold sm_lift in E1. destruct (MQTTPacket_freeConnack _); [|done|done]. injection E1 as _ <-. exact Ha.
Qed.

Lemma stage_connack rc :
  hoare (stage [WAIT_FOR_CONNACK] (rc, true)) (connack_stage fuel version start millisecsTimeout rc) (over (fun r y => outcome_ok r.1.1 y)).
Proof.
  eapply hoare_bind; [apply hoare_state_is|]. intros [|]; cbv beta.
  - apply hoare_skip. intros left. apply hoare_unless_skip. intros [rc' pack].
    destruct pack as [[c| | | | |]|]; try apply hoare_oob; [|by apply hoare_ret].
    eapply hoare_bind; [apply ends_take_connack|]. intros r. by apply hoare_ret.
  - apply hoare_ret. intros y [H E] H0. destruct (H H0) as [_ H1]. apply list_elem_of_singleton in H1. by rewrite H1 in E.
Qed.

Lemma ends_stages : ends (stages http_proxy fuel serverURI version start millisecsTimeout cp wp) (over (fun r y => outcome_ok r.1.1 y)).
Proof.
  eapply hoare_unless; [apply stage_start|]. intros [rc more].
  eapply hoare_unless with (J := stage [WAIT_FOR_CONNACK; WEBSOCKET_IN_PROGRESS]).
  { destruct more; [apply stage_tcp|]. apply hoare_ret. intros y H H0. by destruct (H H0). }
  intros [rc2 more2]. eapply hoare_unless with (J := stage [WAIT_FOR_CONNACK]).
  { destruct more2; [apply stage_websocket|]. apply hoare_ret. intros y H H0. by destruct (H H0). }
  intros [rc3 more3]. destruct more3; [apply stage_connack|]. apply hoare_ret. intros y H H0. by destruct (H H0).
Qed.

(** Connected when the code is 0, and without a connection when it is not. *)
Definition connect_outcome_ok (rc : Z) (s : St P N) : Prop :=
  if rc =? MQTTCLIENT_SUCCESS then idle s /\ connected (st_client s) = 1 else disconnected s.
Lemma ends_connectURIVersion :
  ends (MQTTClient_connectURIVersion http_proxy fuel serverURI version start millisecsTimeout cp wp)
    (over (fun r y => connect_outcome_ok (r_reasonCode r.1) (y_st y))).
Proof.
  eapply hoare_unless; [apply ends_stages|]. intros [[rc sp] p].
  eapply hoare_bind with (J := fun _ y => connect_outcome_ok rc (y_st y)); [|intros u; by apply hoare_ret].
  cbv beta. unfold connect_outcome_ok. destruct (Z.eqb_spec rc MQTTCLIENT_SUCCESS) as [->|Hne].
  - apply hoare_ret. intros y H. by apply H.
  - eapply hoare_mono; [apply (hoare_on_st (fun _ => True)), ends_disconnect|done|done].
Qed.
End Version.

Definition response_ok (r : MQTTResponse * option returned) (y : Sync P N) : Prop := connect_outcome_ok (r_reasonCode r.1) (y_st y).
Lemma ends_connectURI fuel o uri cp wp : ends (MQTTClient_connectURI http_proxy fuel o uri cp wp) (over response_ok).
Proof.
  unfold MQTTClient_connectURI. cbv zeta. do 6 (apply hoare_skip; intros ?). set (version := if 3 <=? _ then _ else _). destruct (version =? _).
  - eapply hoare_unless; [apply ends_connectURIVersion|]. intros [r sp]. cbv beta. cbn [fst]. destruct (negb _).
    + apply hoare_any. eapply hoare_unless; [apply ends_connectURIVersion|]. intros [r' sp']. by apply hoare_ret.
    + by apply hoare_ret.
  - eapply hoare_unless; [apply ends_connectURIVersion|]. intros [r sp]. by apply hoare_ret.
Qed.

Lemma ends_server_loop fuel o uris cp wp last :
  hoare (fun y => uris = [] -> response_ok last y) (server_loop http_proxy fuel o uris cp wp last) (over response_ok).
Proof.
  revert last. induction uris as [|uri uris IH]; intros last; cbn [server_loop]; [apply hoare_ret; intros y H; by apply H|].
  destruct (server_address uri) as [serverURI ws]. apply hoare_skip. intros u.
  eapply hoare_unless; [apply ends_connectURI|]. intros r. destruct (_ =? _); [by apply hoare_ret|].
  eapply hoare_mono; [apply IH|by intros y H _|done].
Qed.

(** The code of options that are refused. *)
Definition refused (options : option connectOptions) : option Z :=
  match options with
  | None => Some MQTTCLIENT_NULL_PARAMETER
  | Some o => if option_tests o =? MQTTCLIENT_SUCCESS then None else Some (option_tests o)
  end.

(** The receive maximum of a response. *)
Definition receive_max (r : MQTTResponse) (n : Z) : Prop :=
  exists props, r_properties r = Some props /\ MQTTProperties_hasProperty props PROPERTY_RECEIVE_MAXIMUM = true /\
    MQTTProperties_getNumericValue props PROPERTY_RECEIVE_MAXIMUM = Ok n.

Lemma receive_maximum_ok r c c' :
  receive_maximum r c = Ok c' ->
  connect_state c' = connect_state c /\ connected c' = connected c /\ net c' = net c /\ will c' = will c /\
  forall n, r_reasonCode r = MQTTREASONCODE_SUCCESS -> receive_max r n -> maxInflightMessages c' <= n.
Proof.
  unfold receive_maximum, receive_max. destruct (r_properties r) as [props|]; [|intros [= <-]; repeat split; by intros n _ (? & ? & _)].
  destruct (Z.eqb_spec (r_reasonCode r) MQTTREASONCODE_SUCCESS) as [E|Hne]; [|intros [= <-]; by repeat split].
  destruct (MQTTProperties_hasProperty _ _) eqn:Hp; cbn [andb]; [|intros [= <-]; repeat split; intros n _ (p & [= <-] & H & _); congruence].
  intros H. apply res_bind_Ok in H as (m & Hm & H). injection H as <-.
  destruct (Z.ltb_spec m (maxInflightMessages c)); repeat split; intros n _ (p & [= <-] & _ & Hn); cbn; rewrite Hm in Hn; injection Hn as <-; lia.
Qed.

Lemma outcome_link rc s s' : same_view link s s' -> connect_outcome_ok rc s -> connect_outcome_ok rc s'.
Proof.
  intros H. unfold connect_outcome_ok. destruct (_ =? _); [|by apply disconnected_link].
  intros [Hi Hc]. split; [by eapply idle_link|]. injection H as _ H _. by rewrite H.
Qed.
Lemma ends_attempts fuel o uri cp wp :
  ends (if (o_struct_version o <? 2) || (Zlen (o_serverURIs o) =? 0) then MQTTClient_connectURI http_proxy fuel o uri cp wp
        else server_loop http_proxy fuel o (o_serverURIs o) cp wp (response SOCKET_ERROR, None)) (over response_ok).
Proof.
  destruct (_ || _) eqn:E; [apply ends_connectURI|]. eapply hoare_mono; [apply ends_server_loop| |done].
  intros y _ Hnil. rewrite Hnil in E. by rewrite orb_true_r in E.
Qed.
(** The end of connect. *)
Lemma finish_run (r0 r : MQTTResponse * option returned) (y2 y1 y' : Sync P N) :
  (s ← on_st sm_get; c ← sm_lift (receive_maximum r0.1 (st_client s)); _ ← on_st (modify_client (fun _ => c)); mret (Some r0)) y2 = Ok (Some r, y1) ->
  (_ ← on_st (modify_client (fun c => set_will c None)); mret (Some r)) y1 = Ok (Some r, y') ->
  r0 = r /\ exists c, receive_maximum r.1 (st_client (y_st y2)) = Ok c /\ y_st y' = set_client (y_st y2) (set_will c None).
Proof.
  intros E1 E. apply sm_bind_Ok in E1 as (s0 & y3 & E3 & E1). injection E3 as <- <-. apply sm_bind_Ok in E1 as (c & y4 & E4 & E1).
  unfold sm_lift in E4. destruct (receive_maximum _ _) as [c0| |] eqn:Ec; [|done|done]. injection E4 as <- <-.
  injection E1 as -> <-. split; [done|]. exists c0. injection E as <-. by split.
Qed.

(** What connecting leaves, when it is over. *)
Lemma connect_leaves (fuel : nat) (options : option connectOptions) (cp wp : option MQTTProperties) (y y' : Sync P N)
    (r : MQTTResponse) (ret : option returned) :
  MQTTClient_connectAll http_proxy fuel options cp wp y = Ok (Some (r, ret), y') ->
  match refused options with
  | Some code => r = response code /\ y' = put_st y (set_client (y_st y) (set_will (st_client (y_st y)) None))
  | None =>
      connect_outcome_ok (r_reasonCode r) (y_st y') /\ will (st_client (y_st y')) = None /\
      forall n, r_reasonCode r = MQTTREASONCODE_SUCCESS -> receive_max r n -> maxInflightMessages (st_client (y_st y')) <= n
  end.
Proof.
  unfold MQTTClient_connectAll, refused. destruct options as [o|].
  - destruct (Z.eqb_spec (option_tests o) MQTTCLIENT_SUCCESS) as [Ho|Ho]; cbn [negb].
    + intros E. apply sm_bind_Ok in E as ([r0|] & y1 & E1 & E); [|done]. apply sm_bind_Ok in E1 as (y0 & ? & [= <- <-] & E1).
      apply sm_bind_Ok in E1 as ([r1|] & y2 & E2 & E1); [|done]. assert (r0 = (r, ret)) as -> by (by injection E).
      apply (ends_attempts fuel o (y_serverURI y) cp wp y) in E2; [|done]. destruct (finish_run _ _ _ _ _ E1 E) as (-> & c & Hc & ->).
      destruct (receive_maximum_ok _ _ _ Hc) as (Hs & Hcon & Hnet & _ & Hmax). split; [|split; [done|exact Hmax]].
      eapply outcome_link; [|exact E2]. unfold same_view, link, the_socket. cbn. by rewrite Hs, Hcon, Hnet.
    + intros E. cbn in E. by injection E as <- <- <-.
  - intros E. cbn in E. by injection E as <- <- <-.
Qed.

End Connecting.

(** ** Examples *)

(** Options with a will, for MQTT 5 and one server, and a client that is not connected. *)
Definition sample_options : connectOptions :=
  mkOptions true 8 60 0 1 (Some (mkWillOptions true 0 (Some [119]) (Some [98; 121; 101]) None 0 1)) (Some [117]) (Some [112]) 30 0 5
    [URI_TCP ++ [104; 58; 49]] None 10 1 None (mkSocks5 None 0 None None).
Definition sample_sync (input : list Z) : Sync MemStore ScriptNet :=
  mkSync (mkSt (set_will (set_flags (set_net Packet.sample_client (mkNet 0 0 0 0)) 0 1 0) None) ∅ (mkPubs ∅ AList.empty) []
            (mkScript [] [] input 0 1000) 0 0)
    [104; 58; 49] false None (mkSocks5 None 0 None None) 10000 5000 0.
Abbreviation connecting input := (MQTTClient_connectAll None 100 (Some sample_options) None None (sample_sync input)).
Definition summary (r : res (option (MQTTResponse * option returned) * Sync MemStore ScriptNet)) : option (Z * Z * Z * Z) :=
  match r with
  | Ok (Some (r, _), y) =>
      let c := st_client (y_st y) in Some (r_reasonCode r, connected c, net_socket (net c), maxInflightMessages c)
  | _ => None
  end.

(** The code for a server that needs TLS is another one than that documented. *)
Example create_ssl :
  MQTTClient_create (Some (URI_SSL ++ [104])) (Some [99]) MQTTCLIENT_PERSISTENCE_NONE None (∅ : MemStore) (mkScript [] [] [] 0 0) =
  Ok (MQTTCLIENT_BAD_PROTOCOL, None).
Proof. vm_compute. reflexivity. Qed.

(** A server that accepts, with a receive maximum of 5; and one that refuses. *)
Example connect_accepted : summary (connecting [32; 6; 0; 0; 3; 33; 0; 5]) = Some (0, 1, 3, 5).
Proof. vm_compute. reflexivity. Qed.
Example connect_refused : summary (connecting [32; 3; 0; 135; 0]) = Some (135, 0, 0, 10).
Proof. vm_compute. reflexivity. Qed.

(** A will without a topic. *)
Definition bad_options : connectOptions :=
  mkOptions true 8 60 0 1 (Some (mkWillOptions true 0 (Some []) None None 0 1)) (Some [117]) (Some [112]) 30 0 5 [] None 10 1 None (mkSocks5 None 0 None None).
End SyncConnect.
