(* ===== verification/SyncWaits.v ===== *)
(** * The waits of the synchronous client end

    Every call of the synchronous client that has a time-out ends, however the network and
    the server behave, provided that time goes on: the turns of its loops are bounded by
    the microseconds of the time-out. *)

From S2P Require Import Prelude.
From S2P Require Import Wire.
From S2P Require Import Properties.
From S2P Require Import LinkedList.
From S2P Require Import Clients.
From S2P Require Import Packet.
From S2P Require Import State.
From S2P Require Import Store.
From S2P Require Import Persistence.
From S2P Require Import PacketIO.
From S2P Require Import Protocol.
From S2P Require Import Session.
From S2P Require Import Outgoing.
From S2P Require Import SyncClient.
From S2P Require Import SyncConnect.
From Stdlib Require Import ZArith Lia List.
From stdpp Require Import base numbers list gmap.

Open Scope Z_scope.

Module SyncWaits.
Import Wire Properties Clients Packet State Store Persistence PacketIO Protocol Session Outgoing SyncClient SyncConnect.

(** ** The clock

    The clock of the network does not go back, [time_now] reads it, and [select] takes at
    least a microsecond. *)
Class ClockLaws (N : Type) `{Transport N, Connector N, Poller N} := {
  clock : N -> Z;
  time_now_clock n : clock n <= fst (time_now n) <= clock (snd (time_now n));
  putdatas_clock sk b l m n : clock n <= clock (snd (putdatas sk b l m n));
  noPendingWrites_clock sk n : clock n <= clock (snd (noPendingWrites sk n));
  updateWrite_clock sk t p n : clock n <= clock (snd (updateWrite sk t p n));
  getch_clock sk n : clock n <= clock (snd (getch sk n));
  getdata_clock sk b n : clock n <= clock (snd (getdata sk b n));
  seek_clock p n : clock n <= clock (framePosSeekTo p n);
  close_clock sk n : clock n <= clock (net_close sk n);
  Socket_new_clock a p n : clock n <= clock (snd (Socket_new a p n));
  WebSocket_connect_clock sk u n : clock n <= clock (snd (WebSocket_connect sk u n));
  proxy_connect_clock sk u n : clock n <= clock (snd (WebSocket_proxy_connect sk u n));
  socks5_connect_clock sk n : clock n <= clock (snd (WebSocket_socks5_proxy_connect sk n));
  upgrade_clock sk n : clock n <= clock (snd (WebSocket_upgrade sk n));
  outcome_clock sk n : clock n <= clock (snd (connect_outcome sk n));
  getReadySocket_clock sk t n : clock n + 1 <= clock (snd (getReadySocket sk t n))
}.

Section Later.
Context {P N : Type} {PO : PersistenceOps P} {NT : Transport N} {NC : Connector N} {NP : Poller N} {CL : ClockLaws N}.
Implicit Types s : St P N.

Definition now (s : St P N) : Z := clock (st_net s).
(** The clock is not behind. *)
Definition later (s s' : St P N) : Prop := now s <= now s'.
#[export] Instance later_preorder : PreOrder later.
Proof. split; [intros s; apply Z.le_refl|]. intros x y z. apply Z.le_trans. Qed.

Lemma later_call_net {X} (f : N -> X * N) : (forall n, clock n <= clock (snd (f n))) -> respects later (call_net f).
Proof. intros H s x s' E. unfold call_net in E. specialize (H (st_net s)). destruct (f (st_net s)) as [a n]. by injection E as _ <-. Qed.
Lemma later_call_persistence (f : P -> Z * P) : respects later (call_persistence f).
Proof. intros s x s' E. unfold call_persistence in E. destruct (f (st_phandle s)) as [a n]. injection E as _ <-. apply Z.le_refl. Qed.
Lemma later_now : respects later MQTTTime_now.
Proof. apply later_call_net. intros n. pose proof (time_now_clock n). lia. Qed.
Lemma later_close sk s : later s (set_network s (net_close sk (st_net s))).
Proof. apply close_clock. Qed.
Lemma later_seek p s : later s (set_network s (framePosSeekTo p (st_net s))).
Proof. apply seek_clock. Qed.
End Later.

Create HintDb clock.
#[export] Hint Resolve putdatas_clock noPendingWrites_clock updateWrite_clock getch_clock getdata_clock Socket_new_clock WebSocket_connect_clock proxy_connect_clock socks5_connect_clock upgrade_clock outcome_clock : clock.
#[export] Hint Resolve later_call_persistence later_now later_close later_seek : respects.
#[export] Hint Extern 1 (respects later (call_net _)) => apply later_call_net; intros ?; solve [auto with clock nocore] : respects.
#[export] Hint Extern 1 (later _ _) => apply Z.le_refl : respects.

Section Sessions.
Context {P N : Type} {PO : PersistenceOps P} {NT : Transport N} {NC : Connector N} {NP : Poller N} {CL : ClockLaws N}.
Abbreviation goes_on := (respects (later (P:=P) (N:=N))).

Lemma goes_on_removePublications l : goes_on (removePublications l).
Proof. induction l as [|m l IH]; cbn [removePublications]; respects; apply IH. Qed.
Lemma goes_on_pending_loop l : goes_on (pending_loop l).
Proof. induction l as [|m l IH]; cbn [pending_loop]; respects; apply IH. Qed.
#[local] Hint Resolve goes_on_removePublications goes_on_pending_loop : respects.
Lemma goes_on_disconnect : goes_on MQTTClient_disconnect_internal.
Proof. respects. Qed.
Lemma goes_on_closeSession reason props : goes_on (MQTTClient_closeSession reason props).
Proof. respects. Qed.
#[local] Hint Resolve goes_on_disconnect : respects.
Lemma goes_on_retry_message now regardless i m : goes_on (retry_message now regardless i m).
Proof. respects. Qed.
#[local] Hint Resolve goes_on_retry_message : respects.
Lemma goes_on_retries_loop n i now regardless : goes_on (retries_loop n i now regardless).
Proof. revert i. induction n as [|n IH]; intros i; cbn [retries_loop]; respects; apply IH. Qed.
#[local] Hint Resolve goes_on_retries_loop : respects.
Lemma goes_on_retry interval last : goes_on (MQTTClient_retry interval last).
Proof. respects. Qed.
Lemma goes_on_Factory v : goes_on (MQTTPacket_Factory v).
Proof. respects. Qed.
Lemma goes_on_handlePublishes p : goes_on (MQTTProtocol_handlePublishes p).
Proof. respects. Qed.
Lemma goes_on_handlePubrels a : goes_on (MQTTProtocol_handlePubrels a).
Proof. respects. Qed.
Lemma goes_on_handlePubrecs a : goes_on (MQTTProtocol_handlePubrecs a).
Proof. respects. Qed.
#[local] Hint Resolve goes_on_handlePublishes goes_on_handlePubrels goes_on_handlePubrecs goes_on_Factory : respects.
Lemma goes_on_handle_packet p : goes_on (handle_packet p).
Proof. respects. Qed.
Lemma goes_on_receive_packet : goes_on receive_packet.
Proof. respects. Qed.
Lemma goes_on_deliverMessage rc : goes_on (MQTTClient_deliverMessage rc).
Proof. respects. Qed.
Lemma goes_on_send_subscribe t q o p id d : goes_on (MQTTPacket_send_subscribe t q o p id d).
Proof. respects. Qed.
Lemma goes_on_send_unsubscribe t p id d : goes_on (MQTTPacket_send_unsubscribe t p id d).
Proof. respects. Qed.
Lemma goes_on_wait_test p rc pack : goes_on (wait_test p rc pack).
Proof. respects. Qed.
Lemma goes_on_connack_accepted : goes_on connack_accepted.
Proof. respects. Qed.
End Sessions.
#[export] Hint Resolve goes_on_connack_accepted goes_on_disconnect goes_on_closeSession goes_on_retry goes_on_Factory goes_on_handle_packet goes_on_receive_packet goes_on_deliverMessage goes_on_send_subscribe goes_on_send_unsubscribe goes_on_wait_test : respects.

(** ** The turns of the loops *)

Section Waits.
Context {P N : Type} {PO : PersistenceOps P} {NT : Transport N} {NC : Connector N} {NP : Poller N} {CL : ClockLaws N}.
Abbreviation A := (SM (Sync P N)).
Implicit Types y : Sync P N.

Definition time (y : Sync P N) : Z := now (y_st y).
Definition after (y y' : Sync P N) : Prop := time y <= time y'.
#[export] Instance after_preorder : PreOrder after.
Proof. split; [intros y; apply Z.le_refl|]. intros x y z. apply Z.le_trans. Qed.

Lemma after_on_st {X} (m : SM (St P N) X) : respects later m -> respects after (on_st m).
Proof.
  intros H y x y' E. unfold on_st in E. apply res_bind_Ok in E as ([x0 s] & E0 & E). injection E as _ <-. exact (H _ _ _ E0).
Qed.
Lemma after_put_last y t : after y (put_last y t).
Proof. apply Z.le_refl. Qed.

(** Reading the clock. *)
Lemma start_run y start y' : on_st MQTTTime_now y = Ok (start, y') -> time y <= start <= time y'.
Proof.
  intros E. unfold on_st, MQTTTime_now, call_net in E. pose proof (time_now_clock (st_net (y_st y))) as H.
  destruct (time_now (st_net (y_st y))) as [t n]. cbn in E. injection E as <- <-. exact H.
Qed.

(** The time that has passed, as long as it is not more than the clock can count. *)
Definition horizon : Z := 2 ^ 63.
Lemma elapsed_run start y e y' :
  on_st (MQTTTime_elapsed start) y = Ok (e, y') -> start <= time y -> time y' < start + horizon ->
  exists t, time y <= t <= time y' /\ e = (t - start) / 1000.
Proof.
  intros E Hs Hh. unfold on_st, MQTTTime_elapsed, MQTTTime_now, call_net in E. pose proof (time_now_clock (st_net (y_st y))) as H.
  unfold mbind, sm_bind in E. destruct (time_now (st_net (y_st y))) as [t n]. cbn in E. injection E as <- <-. cbn [fst snd] in H.
  exists t. split; [exact H|]. unfold time, now in *. cbn in Hh. unfold horizon in *. unfold to_u64, MQTTTime_difftime.
  assert (0 <= t - start < 2 ^ 63) as Hd by lia. rewrite Z.mod_small; dlia.
Qed.

Lemma elapsed_after start y e y' : on_st (MQTTTime_elapsed start) y = Ok (e, y') -> time y <= time y'.
Proof. apply (after_on_st (MQTTTime_elapsed start)). respects. Qed.

Lemma later_poll sk t s x s' : call_net (P:=P) (getReadySocket sk t) s = Ok (x, s') -> now s + 1 <= now s'.
Proof.
  intros E. unfold call_net in E. pose proof (getReadySocket_clock sk t (st_net s)) as H.
  destruct (getReadySocket sk t (st_net s)) as [a n]. by injection E as _ <-.
Qed.

End Waits.
#[export] Hint Resolve after_put_last : respects.
#[export] Hint Extern 1 (after _ _) => apply Z.le_refl : respects.
(** A computation of the handle is made of computations of the session. *)
Ltac goes_on := repeat first [apply after_on_st; solve [respects] | respects1].

Section Loops.
Context {P N : Type} {PO : PersistenceOps P} {NT : Transport N} {NC : Connector N} {NP : Poller N} {CL : ClockLaws N}.
Abbreviation A := (SM (Sync P N)).
Implicit Types y : Sync P N.

(** A turn takes a microsecond. *)
Lemma cycle_run timeout y r y' : MQTTClient_cycle timeout y = Ok (r, y') -> time y + 1 <= time y'.
Proof.
  intros E. unfold MQTTClient_cycle in E. apply sm_bind_Ok in E as (s0 & y1 & E1 & E). injection E1 as <- <-.
  apply sm_bind_Ok in E as (sock & y2 & E2 & E). unfold on_st in E2. apply res_bind_Ok in E2 as ([x s] & E0 & E2). injection E2 as <- <-.
  apply later_poll in E0. cbn in E0.
  match type of E with ?m _ = _ => assert (respects after m) as H by goes_on end.
  apply H in E. unfold after, time in *. cbn in E. lia.
Qed.
Lemma after_cycle timeout : respects after (MQTTClient_cycle (P:=P) (N:=N) timeout).
Proof. intros y r y' E. apply cycle_run in E. unfold after. lia. Qed.
#[local] Hint Resolve after_cycle : respects.
Lemma after_wait_loop fuel p start timeout : respects after (wait_loop (P:=P) (N:=N) fuel p start timeout).
Proof. induction fuel as [|fuel IH]; cbn [wait_loop]; goes_on; apply IH. Qed.
Lemma after_yield_loop fuel start e : respects after (yield_loop (P:=P) (N:=N) fuel start e).
Proof. revert e. induction fuel as [|fuel IH]; intros e; cbn [yield_loop]; goes_on; apply IH. Qed.
Lemma after_receive_loop fuel start timeout e : respects after (receive_loop (P:=P) (N:=N) fuel start timeout e).
Proof. revert e. induction fuel as [|fuel IH]; intros e; cbn [receive_loop]; goes_on; apply IH. Qed.
#[local] Hint Resolve after_wait_loop after_yield_loop after_receive_loop : respects.
Lemma after_yield fuel : respects after (MQTTClient_yield (P:=P) (N:=N) fuel).
Proof. goes_on. Qed.
#[local] Hint Resolve after_yield : respects.
Lemma after_completion_loop fuel mdt start timeout e : respects after (completion_loop (P:=P) (N:=N) fuel mdt start timeout e).
Proof. revert e. induction fuel as [|fuel IH]; intros e; cbn [completion_loop]; goes_on; apply IH. Qed.
Lemma after_flush_loop fuel start timeout : respects after (flush_loop (P:=P) (N:=N) fuel start timeout).
Proof. induction fuel as [|fuel IH]; cbn [flush_loop]; goes_on; apply IH. Qed.

(** The turns of a wait that is not over: no more than the microseconds that are left of
    [limit] milliseconds. *)
Definition turns (fuel : nat) (start limit t : Z) : Prop := Z.of_nat fuel <= Z.max 0 (1000 * limit - (t - start)).
Lemma turns_step fuel start limit t t' :
  turns fuel start limit t' -> t + 1 <= t' -> t' - start < 1000 * limit -> turns (S fuel) start limit t.
Proof. unfold turns. lia. Qed.
Lemma turns_0 start limit t : turns 0 start limit t.
Proof. unfold turns. lia. Qed.

(** The end of a turn of a wait. *)
Lemma turn_end fuel start limit y y4 (y3 : Sync P N) e y' n :
  on_st (MQTTTime_elapsed start) y3 = Ok (e, y4) -> after y4 y' ->
  start <= time y3 -> time y + 1 <= time y3 -> time y' < start + horizon -> e <= n -> n < limit ->
  (start <= time y4 -> turns fuel start limit (time y4)) -> turns (S fuel) start limit (time y).
Proof.
  intros E A Hs Hy Hh He Hn IH. unfold after in A. assert (time y3 <= time y4) as A3 by exact (elapsed_after _ _ _ _ E).
  apply elapsed_run in E as (t & Ht & ->); [|lia|lia]. apply (turns_step _ _ _ _ t); [|lia|dlia].
  specialize (IH ltac:(lia)). unfold turns in *. lia.
Qed.

Lemma wait_loop_turns fuel p start timeout y y' :
  wait_loop fuel p start timeout y = Ok (None, y') -> start <= time y -> time y' < start + horizon -> turns fuel start (timeout + 1) (time y).
Proof.
  revert y. induction fuel as [|fuel IH]; intros y E Hs Hh; [apply turns_0|]. cbn [wait_loop] in E.
  apply sm_bind_Ok in E as ([[sock rc] pack] & y1 & E1 & E). apply cycle_run in E1.
  apply sm_bind_Ok in E as (s & y2 & E2 & E). injection E2 as <- <-.
  apply sm_bind_Ok in E as (stop & y3 & E3 & E). assert (time y1 <= time y3) as A3.
  { revert E3. match goal with |- ?m _ = _ -> _ => assert (respects after m) as H by goes_on end. apply H. }
  destruct stop as [rc'|]; [done|]. apply sm_bind_Ok in E as (e & y4 & E4 & E).
  destruct (Z.ltb_spec timeout e); [done|]. eapply (turn_end _ _ _ _ _ _ _ _ timeout E4 (after_wait_loop _ _ _ _ _ _ _ E)); [lia|lia|done|lia|lia|].
  intros Hs4. by apply IH.
Qed.

Lemma yield_loop_turns fuel start e y y' :
  yield_loop fuel start e y = Ok (None, y') -> start <= time y -> time y' < start + horizon -> turns fuel start yield_timeout (time y).
Proof.
  revert e y. induction fuel as [|fuel IH]; intros e y E Hs Hh; [apply turns_0|]. cbn [yield_loop] in E.
  apply sm_bind_Ok in E as ([[sock rc] pack] & y1 & E1 & E). apply cycle_run in E1.
  apply sm_bind_Ok in E as (s & y2 & E2 & E). injection E2 as <- <-.
  apply sm_bind_Ok in E as (u & y3 & E3 & E). assert (time y1 <= time y3) as A3.
  { revert E3. match goal with |- ?m _ = _ -> _ => assert (respects after m) as H by goes_on end. apply H. }
  apply sm_bind_Ok in E as (e' & y4 & E4 & E). destruct (Z.ltb_spec e' yield_timeout); [|done].
  eapply (turn_end _ _ _ _ _ _ _ _ (yield_timeout - 1) E4 (after_yield_loop _ _ _ _ _ _ E)); [lia|lia|done|lia|lia|]. intros Hs4. by eapply IH.
Qed.

Lemma receive_loop_turns fuel start timeout e y y' :
  receive_loop fuel start timeout e y = Ok (None, y') -> start <= time y -> time y' < start + horizon -> turns fuel start timeout (time y).
Proof.
  revert e y. induction fuel as [|fuel IH]; intros e y E Hs Hh; [apply turns_0|]. cbn [receive_loop] in E.
  apply sm_bind_Ok in E as ([[sock rc] pack] & y1 & E1 & E). apply cycle_run in E1.
  apply sm_bind_Ok in E as (s & y2 & E2 & E). injection E2 as <- <-. destruct (_ && _); [done|].
  apply sm_bind_Ok in E as (e' & y4 & E4 & E). apply sm_bind_Ok in E as (s & y5 & E5 & E). injection E5 as <- <-.
  destruct (Z.ltb_spec e' timeout); [|done]. destruct (_ =? _); [|done]. cbn [andb] in E.
  eapply (turn_end _ _ _ _ _ _ _ _ (timeout - 1) E4 (after_receive_loop _ _ _ _ _ _ _ E)); [unfold time in *; cbn; lia|unfold time in *; cbn; lia|done|lia|lia|]. intros Hs4. exact (IH _ _ E Hs4 Hh).
Qed.

(** A call is not over when its fuel is out only after what the clock can count, from the
    time [t0] on. *)
Definition finishes {X} (t0 : Z) (m : A (option X)) (y : Sync P N) : Prop := forall y', m y = Ok (None, y') -> t0 + horizon <= time y'.

Lemma yield_finishes fuel y : 100000 < Z.of_nat fuel -> finishes (time y) (MQTTClient_yield fuel) y.
Proof.
  intros Hf y' E. apply sm_bind_Ok in E as (start & y1 & E1 & E). apply start_run in E1.
  apply sm_bind_Ok in E as (e & y2 & E2 & E). assert (time y1 <= time y2) as A2 by exact (elapsed_after _ _ _ _ E2).
  destruct (Z.le_gt_cases (start + horizon) (time y')); [lia|]. apply yield_loop_turns in E; [|lia|lia].
  unfold turns, yield_timeout in E. lia.
Qed.
Lemma yield_run fuel y u y' : MQTTClient_yield fuel y = Ok (Some u, y') -> time y + 1 <= time y'.
Proof.
  intros E. apply sm_bind_Ok in E as (start & y1 & E1 & E). apply start_run in E1.
  apply sm_bind_Ok in E as (e & y2 & E2 & E). assert (time y1 <= time y2) as A2 by exact (elapsed_after _ _ _ _ E2).
  destruct fuel as [|fuel]; [done|]. cbn [yield_loop] in E. apply sm_bind_Ok in E as ([[sock rc] pack] & y3 & E3 & E).
  apply cycle_run in E3. assert (time y3 <= time y') as A3; [|lia].
  revert E. match goal with |- ?m _ = _ -> _ => assert (respects after m) as H by goes_on end. apply H.
Qed.

(** The loops that yield need the fuel of a yield besides. *)
Definition yield_fuel : nat := Z.to_nat 100000.
Lemma yield_waits fuel start limit y y' :
  MQTTClient_yield fuel y = Ok (None, y') -> time y' < time y + horizon -> turns (fuel - yield_fuel) start limit (time y).
Proof.
  intros E Hh. destruct (Z.le_gt_cases (Z.of_nat fuel) 100000).
  - unfold turns, yield_fuel. lia.
  - apply yield_finishes in E; lia.
Qed.
(** A turn at [t] before the limit, and the next one at [t']. *)
Lemma turns_next fuel start limit t t' :
  turns (fuel - yield_fuel) start limit t' -> t + 1 <= t' -> t - start < 1000 * limit -> turns (S fuel - yield_fuel) start limit t.
Proof. unfold turns. lia. Qed.

Lemma completion_loop_turns fuel mdt start timeout t y y' :
  completion_loop fuel mdt start timeout ((t - start) / 1000) y = Ok (None, y') -> start <= t <= time y -> time y' < start + horizon ->
  turns (fuel - yield_fuel) start timeout t.
Proof.
  revert t y. induction fuel as [|fuel IH]; intros t y E Hs Hh; [apply turns_0|]. cbn [completion_loop] in E.
  destruct (Z.ltb_spec ((t - start) / 1000) timeout) as [Ht|]; [|done]. apply sm_bind_Ok in E as (s & y1 & E1 & E). injection E1 as <- <-.
  destruct (completion_test _ _); [done|]. apply sm_bind_Ok in E as (r & y2 & E2 & E). destruct r as [u|].
  - apply yield_run in E2. apply sm_bind_Ok in E as (e & y3 & E3 & E). pose proof (after_completion_loop _ _ _ _ _ _ _ _ E) as A.
    assert (time y2 <= time y3) as A3 by exact (elapsed_after _ _ _ _ E3).
    change (time (put_st y (y_st y))) with (time y) in E2. unfold after in A.
    apply elapsed_run in E3 as (t' & Ht' & ->); [|lia|lia]. apply (turns_next _ _ _ _ t'); [|lia|dlia]. eapply IH; [exact E|lia|done].
  - injection E as <-. pose proof (yield_waits _ start timeout _ _ E2) as H. change (time (put_st y (y_st y))) with (time y) in H.
    specialize (H ltac:(lia)). unfold turns in *. lia.
Qed.

Lemma flush_loop_turns fuel start timeout y y' :
  flush_loop fuel start timeout y = Ok (None, y') -> start <= time y -> time y' < start + horizon ->
  turns (fuel - yield_fuel) start (to_u64 timeout) (time y).
Proof.
  revert y. induction fuel as [|fuel IH]; intros y E Hs Hh; [apply turns_0|]. cbn [flush_loop] in E.
  apply sm_bind_Ok in E as (s & y1 & E1 & E). injection E1 as <- <-. destruct (_ || _); [|done].
  apply sm_bind_Ok in E as (e & y2 & E2 & E). assert (time y <= time y2) as A2 by exact (elapsed_after _ _ _ _ E2).
  destruct (Z.leb_spec (to_u64 timeout) e) as [|He]; [done|]. apply sm_bind_Ok in E as (r & y3 & E3 & E). destruct r as [u|].
  - apply yield_run in E3. pose proof (after_flush_loop _ _ _ _ _ _ E) as A. unfold after in A.
    apply elapsed_run in E2 as (t & Ht & ->); [|done|lia]. change (time (put_st y (y_st y))) with (time y) in Ht.
    assert (turns (S fuel - yield_fuel) start (to_u64 timeout) t) as H; [|unfold turns in *; lia].
    apply (turns_next _ _ _ _ (time y3)); [|lia|dlia]. by apply IH; [|lia|].
  - injection E as <-. pose proof (yield_waits _ start (to_u64 timeout) _ _ E3 ltac:(lia)) as H. unfold turns in *. lia.
Qed.

(** ** The calls *)

Lemma turns_mono fuel start l l' t : turns fuel start l t -> l <= l' -> turns fuel start l' t.
Proof. unfold turns. lia. Qed.

Lemma finishes_bind {X Y} t0 (m : A X) (f : X -> A (option Y)) y :
  (forall x y1, m y = Ok (x, y1) -> finishes t0 (f x) y1) -> finishes t0 (m ≫= f) y.
Proof. intros Hf y' E. apply sm_bind_Ok in E as (x & y1 & E1 & E). by eapply Hf. Qed.
Lemma finishes_ret {X} t0 (x : X) y : finishes t0 (mret (Some x)) y.
Proof. done. Qed.
Lemma finishes_unless {X Y} t0 (m : A (option X)) (f : X -> A (option Y)) y :
  finishes t0 m y -> (forall x y1, m y = Ok (Some x, y1) -> finishes t0 (f x) y1) -> finishes t0 (unless_waiting m f) y.
Proof.
  intros H Hf y' E. unfold unless_waiting in E. apply sm_bind_Ok in E as ([x|] & y1 & E1 & E); [by eapply Hf|]. injection E as <-. by apply H.
Qed.
(** A part that has nothing to wait for. *)
Ltac over := repeat first [apply finishes_ret | apply finishes_bind; intros ? ? _ | match goal with |- finishes _ (let '_ := ?x in _) _ => destruct x | |- finishes _ (if ?b then _ else _) _ => destruct b | |- finishes _ (match ?x with _ => _ end) _ => destruct x end].

(** A call that begins by reading the clock. *)
Lemma finishes_start {X} (f : Z -> A (option X)) t0 y :
  t0 <= time y -> (forall start y1, t0 <= start <= time y1 -> time y <= time y1 -> finishes t0 (f start) y1) ->
  finishes t0 (start ← on_st MQTTTime_now; f start) y.
Proof. intros H0 H. apply finishes_bind. intros start y1 E. apply start_run in E. apply H; lia. Qed.

Lemma waitfor_finishes fuel p timeout t0 y :
  t0 <= time y -> 1000 * (timeout + 1) < Z.of_nat fuel -> finishes t0 (MQTTClient_waitfor fuel p timeout) y.
Proof.
  intros H0 Hf. apply finishes_start; [done|]. intros start y1 Hs _. destruct (Z.leb_spec timeout 0); [apply finishes_ret|].
  intros y' E. destruct (Z.le_gt_cases (t0 + horizon) (time y')); [done|]. apply wait_loop_turns in E; [|lia|lia]. unfold turns in E. lia.
Qed.

Lemma receive_finishes fuel timeout t0 y :
  t0 <= time y -> 0 <= timeout -> 1000 * timeout < Z.of_nat fuel -> finishes t0 (MQTTClient_receive fuel timeout) y.
Proof.
  intros H0 Ht Hf. apply finishes_start; [done|]. intros start y1 Hs _. apply finishes_bind. intros s y2 E2. injection E2 as <- <-.
  destruct (_ =? 0); [apply finishes_ret|]. cbv zeta. set (limit := if 0 <? _ then 0 else timeout).
  assert (limit <= timeout) as Hl by (unfold limit; destruct (0 <? _); lia).
  apply finishes_bind. intros e y3 E3. apply finishes_unless; [|intros; over].
  intros y' E. destruct (Z.le_gt_cases (t0 + horizon) (time y')); [done|]. apply elapsed_after in E3.
  change (time (put_st y1 (y_st y1))) with (time y1) in E3. apply receive_loop_turns in E; [|lia|lia]. unfold turns in E. lia.
Qed.

Lemma completion_finishes fuel mdt timeout t0 y :
  t0 <= time y -> 0 <= timeout -> 1000 * timeout + 100000 < Z.of_nat fuel -> finishes t0 (MQTTClient_waitForCompletion fuel mdt timeout) y.
Proof.
  intros H0 Ht Hf. apply finishes_start; [done|]. intros start y1 Hs _. apply finishes_bind. intros e y2 E2.
  intros y' E. destruct (Z.le_gt_cases (t0 + horizon) (time y')); [done|]. pose proof (after_completion_loop _ _ _ _ _ _ _ _ E) as A. unfold after in A.
  apply elapsed_run in E2 as (t & Htt & ->); [|lia|lia]. apply completion_loop_turns in E; [|lia|lia]. unfold turns, yield_fuel in E. lia.
Qed.

Lemma disconnect_finishes fuel timeout reason props t0 y :
  t0 <= time y -> 0 <= timeout < 2 ^ 31 -> 1000 * timeout + 100000 < Z.of_nat fuel -> finishes t0 (MQTTClient_disconnect1 fuel timeout reason props) y.
Proof.
  intros H0 Ht Hf. apply finishes_bind. intros s y1 E1. injection E1 as <- <-. apply finishes_unless; [|intros; over].
  destruct (negb _); [|apply finishes_ret]. apply finishes_start; [done|]. intros start y1 Hs _. apply finishes_bind. intros u y2 E2.
  assert (time y1 <= time y2) as A2 by (injection E2 as _ <-; apply Z.le_refl).
  intros y' E. destruct (Z.le_gt_cases (t0 + horizon) (time y')); [done|]. apply flush_loop_turns in E; [|lia|lia].
  unfold to_u64 in E. rewrite Z.mod_small in E by lia. unfold turns, yield_fuel in E. lia.
Qed.

(** An identifier is free for a request. *)
Definition id_free (c : Clients) : Prop :=
  0 <= msgID c <= MAX_MSG_ID /\ exists i, 1 <= i <= MAX_MSG_ID /\ ~ in_use (outboundMsgs c) i.
Lemma assign_some c : id_free c -> MQTTProtocol_assignMsgId c <> None.
Proof. intros [Hm (i & Hi & Hu)]. pose proof (assignMsgId_ok c Hm) as H. destruct (MQTTProtocol_assignMsgId c); [done|]. destruct H as [_ H]. by destruct (Hu (H i Hi)). Qed.

(** The time-out of the requests does not change before their wait. *)
Definition same_timeout (y y1 : Sync P N) : Prop := time y <= time y1 /\ y_commandTimeout y1 = y_commandTimeout y.
Lemma request_run {X} (m : SM (St P N) X) y x y1 : respects later m -> on_st m y = Ok (x, y1) -> same_timeout y y1.
Proof.
  intros H E. split; [by eapply (after_on_st m)|]. unfold on_st in E. apply res_bind_Ok in E as ([x0 s] & E0 & E). by injection E as _ <-.
Qed.

Lemma suback_finishes fuel qos t0 y : t0 <= time y -> 1000 * (y_commandTimeout y + 1) < Z.of_nat fuel -> finishes t0 (await_suback fuel qos) y.
Proof.
  intros H0 Hf. apply finishes_bind. intros y0 y1 [= <- <-]. apply finishes_unless; [by apply waitfor_finishes|].
  intros [rc pack] y1 _. destruct pack as [[]|]; try done; over.
Qed.
Lemma unsuback_finishes fuel t0 y : t0 <= time y -> 1000 * (y_commandTimeout y + 1) < Z.of_nat fuel -> finishes t0 (await_unsuback fuel) y.
Proof.
  intros H0 Hf. apply finishes_bind. intros y0 y1 [= <- <-]. apply finishes_unless; [by apply waitfor_finishes|].
  intros [rc pack] y1 _. destruct pack as [[]|]; try done; over.
Qed.

Lemma subscribe_finishes fuel topics qos opts props t0 y :
  t0 <= time y -> 1000 * (y_commandTimeout y + 1) < Z.of_nat fuel -> id_free (st_client (y_st y)) ->
  finishes t0 (MQTTClient_subscribeMany5 fuel topics qos opts props) y.
Proof.
  intros H0 Hf Hid. apply finishes_bind. intros s y1 E1. injection E1 as <- <-. destruct (_ =? 0); [apply finishes_ret|]. cbv zeta.
  destruct (negb _); [apply finishes_ret|]. pose proof (assign_some _ Hid) as Ha. destruct (MQTTProtocol_assignMsgId _) as [[msgid c]|]; [|done].
  apply finishes_bind. intros u y1 E1. injection E1 as _ <-. destruct (msgid =? 0); [apply finishes_ret|].
  apply finishes_bind. intros rc y2 E2. apply request_run in E2 as [A2 T2]; [|respects]. apply finishes_unless; [|intros [[rc' r] qos'] y3 _; over].
  destruct (_ =? _); [|apply finishes_ret]. apply suback_finishes; [|by rewrite T2].
  change (time y <= time y2) in A2. lia.
Qed.
Lemma unsubscribe_finishes fuel topics props t0 y :
  t0 <= time y -> 1000 * (y_commandTimeout y + 1) < Z.of_nat fuel -> id_free (st_client (y_st y)) ->
  finishes t0 (MQTTClient_unsubscribeMany5 fuel topics props) y.
Proof.
  intros H0 Hf Hid. apply finishes_bind. intros s y1 E1. injection E1 as <- <-. destruct (_ =? 0); [apply finishes_ret|].
  destruct (negb _); [apply finishes_ret|]. pose proof (assign_some _ Hid) as Ha. destruct (MQTTProtocol_assignMsgId _) as [[msgid c]|]; [|done].
  apply finishes_bind. intros u y1 E1. injection E1 as _ <-. destruct (msgid =? 0); [apply finishes_ret|].
  apply finishes_bind. intros rc y2 E2. apply request_run in E2 as [A2 T2]; [|respects]. apply finishes_unless; [|intros [rc' r] y3 _; over].
  destruct (_ =? _); [|apply finishes_ret]. apply unsuback_finishes; [|by rewrite T2].
  change (time y <= time y2) in A2. lia.
Qed.

(** ** Connecting

    Its waits get what is left of the time-out, or, when nothing is left, nearly [2 ^ 64]
    milliseconds. *)
Section Connecting.
Context (http_proxy : option (list Z)).

Lemma after_waitfor fuel p timeout : respects after (MQTTClient_waitfor (P:=P) (N:=N) fuel p timeout).
Proof. goes_on. Qed.
#[local] Hint Resolve after_waitfor : respects.

Lemma finishes_seq {X Y} t0 (m : A (option X)) (f : X -> A (option Y)) y :
  t0 <= time y -> respects after m -> finishes t0 m y -> (forall x y1, t0 <= time y1 -> finishes t0 (f x) y1) -> finishes t0 (unless_waiting m f) y.
Proof. intros H0 Hm H Hf. apply finishes_unless; [done|]. intros x y1 E. apply Hf. apply Hm in E. unfold after in E. lia. Qed.
Lemma finishes_then {X Y} t0 (m : A X) (f : X -> A (option Y)) y :
  t0 <= time y -> respects after m -> (forall x y1, t0 <= time y1 -> finishes t0 (f x) y1) -> finishes t0 (m ≫= f) y.
Proof. intros H0 Hm Hf. apply finishes_bind. intros x y1 E. apply Hf. apply Hm in E. unfold after in E. lia. Qed.

Section Version.
Context (fuel : nat) (Hfuel : 1000 * (2 ^ 64 + 1) < Z.of_nat fuel).
Context (serverURI : list Z) (version start T : Z) (cp wp : option MQTTProperties).

(** A wait for what is left of the time. *)
Lemma left_finishes {X} p (f : Z * option packet -> A (option X)) t0 y :
  t0 <= time y -> (forall x y1, t0 <= time y1 -> finishes t0 (f x) y1) ->
  finishes t0 (left ← time_left start T; unless_waiting (MQTTClient_waitfor fuel p left) f) y.
Proof.
  intros H0 Hf. apply finishes_bind. intros l y1 E. apply sm_bind_Ok in E as (e & y2 & E & [= <- <-]). apply elapsed_after in E.
  apply finishes_seq; [lia|apply after_waitfor| |exact Hf]. apply waitfor_finishes; [lia|].
  unfold to_u64. pose proof (Z.mod_pos_bound (T - e) 18446744073709551616 ltac:(lia)). lia.
Qed.

Lemma tcp_finishes rc t0 y : t0 <= time y -> finishes t0 (tcp_stage http_proxy fuel serverURI version start T cp wp rc) y.
Proof.
  intros H0. apply finishes_then; [done|goes_on|]. intros [|] y1 H1; [|over]. apply left_finishes; [done|].
  intros [rc' pack] y2 _. over.
Qed.
Lemma websocket_finishes rc t0 y : t0 <= time y -> finishes t0 (websocket_stage fuel version start T cp wp rc) y.
Proof.
  intros H0. apply finishes_then; [done|goes_on|]. intros [|] y1 H1; [|over]. apply left_finishes; [done|].
  intros [rc' pack] y2 _. over.
Qed.
Lemma connack_finishes rc t0 y : t0 <= time y -> finishes t0 (connack_stage fuel version start T rc) y.
Proof.
  intros H0. apply finishes_then; [done|goes_on|]. intros [|] y1 H1; [|over]. apply left_finishes; [done|].
  intros [rc' pack] y2 _. destruct pack as [[]|]; try done; over.
Qed.

Lemma stages_finish t0 y : t0 <= time y -> finishes t0 (stages http_proxy fuel serverURI version start T cp wp) y.
Proof.
  intros H0. apply finishes_seq; [done|goes_on| |].
  { over. }
  intros [rc1 m1] y1 H1. apply finishes_seq; [done|destruct m1; goes_on|destruct m1; [by apply tcp_finishes|over]|].
  intros [rc2 m2] y2 H2. apply finishes_seq; [done|destruct m2; goes_on|destruct m2; [by apply websocket_finishes|over]|].
  intros [rc3 m3] y3 H3. destruct m3; [by apply connack_finishes|over].
Qed.
Lemma after_stages : respects after (stages (P:=P) (N:=N) http_proxy fuel serverURI version start T cp wp).
Proof. goes_on. Qed.
End Version.

#[local] Hint Resolve after_stages : respects.

Lemma version_finishes fuel uri v start T cp wp t0 y :
  1000 * (2 ^ 64 + 1) < Z.of_nat fuel -> t0 <= time y -> finishes t0 (MQTTClient_connectURIVersion http_proxy fuel uri v start T cp wp) y.
Proof. intros Hf H0. apply finishes_seq; [done|apply after_stages|by apply stages_finish|]. intros [[rc sp] props] y1 _. over. Qed.
Lemma after_version fuel uri v start T cp wp : respects after (MQTTClient_connectURIVersion (P:=P) (N:=N) http_proxy fuel uri v start T cp wp).
Proof. goes_on. Qed.
#[local] Hint Resolve after_version : respects.

Lemma uri_finishes fuel o uri cp wp t0 y :
  1000 * (2 ^ 64 + 1) < Z.of_nat fuel -> t0 <= time y -> finishes t0 (MQTTClient_connectURI http_proxy fuel o uri cp wp) y.
Proof.
  intros Hf H0. unfold MQTTClient_connectURI. cbv zeta. do 6 (apply finishes_then; [done|goes_on|]; clear y H0; intros ? y H0).
  destruct (_ =? _).
  - apply finishes_seq; [done|apply after_version|by apply version_finishes|]. intros r y2 H2. destruct (negb _); [|over].
    apply finishes_seq; [done|apply after_version|by apply version_finishes|]. intros; over.
  - apply finishes_seq; [done|apply after_version|by apply version_finishes|]. intros; over.
Qed.
Lemma after_uri fuel o uri cp wp : respects after (MQTTClient_connectURI (P:=P) (N:=N) http_proxy fuel o uri cp wp).
Proof. goes_on. Qed.
#[local] Hint Resolve after_uri : respects.

Lemma after_websocket (ws : bool) : respects after (sm_modify (fun y : Sync P N => if ws then put_websocket y true else y)).
Proof. intros y u y' [= _ <-]. destruct ws; apply Z.le_refl. Qed.

Lemma servers_finish fuel o uris cp wp last t0 y :
  1000 * (2 ^ 64 + 1) < Z.of_nat fuel -> t0 <= time y -> finishes t0 (server_loop http_proxy fuel o uris cp wp last) y.
Proof.
  intros Hf. revert last y. induction uris as [|uri uris IH]; intros last y H0; cbn [server_loop]; [over|]. destruct (server_address uri) as [u ws].
  apply finishes_then; [done|apply after_websocket|]. intros ? y1 H1. apply finishes_seq; [done|apply after_uri|by apply uri_finishes|].
  intros r y2 H2. destruct (_ =? _); [over|by apply IH].
Qed.
Lemma after_servers fuel o uris cp wp last : respects after (server_loop (P:=P) (N:=N) http_proxy fuel o uris cp wp last).
Proof.
  revert last. induction uris as [|uri uris IH]; intros last; cbn [server_loop]; [goes_on|]. destruct (server_address uri) as [u ws].
  apply (respects_bind after); [apply after_websocket|]. intros x. goes_on; apply IH.
Qed.
#[local] Hint Resolve after_servers : respects.

Lemma connect_finishes fuel options cp wp t0 y :
  1000 * (2 ^ 64 + 1) < Z.of_nat fuel -> t0 <= time y -> finishes t0 (MQTTClient_connectAll http_proxy fuel options cp wp) y.
Proof.
  intros Hf H0. apply finishes_seq; [done|goes_on| |intros r y1 _; over].
  destruct options as [o|]; [|over]. destruct (negb _); [over|]. apply finishes_then; [done|goes_on|]. intros y0 y1 H1.
  apply finishes_seq; [done|goes_on| |intros r y2 _; over]. destruct (_ || _); [by apply uri_finishes|by apply servers_finish].
Qed.

End Connecting.


End Loops.

(** ** Examples *)

#[export] Instance script_clock : ClockLaws ScriptNet.
Proof.
  refine {| clock := sn_clock |}; intros; cbn; try lia.
  - destruct (drop _ _); cbn; lia.
  - unfold script_poll. destruct (drop _ _); cbn; lia.
Defined.

(** A connected client whose server says nothing. *)
Definition silent_server : Sync MemStore ScriptNet :=
  let y := sample_sync [] in put_st y (set_client (y_st y) (set_flags (set_net (st_client (y_st y)) (mkNet 3 0 0 0)) 1 1 0)).



(** The time-out of a subscription is that of the commands: ten seconds, a hundred turns
    of a tenth of a second, and the connection is given up. *)
Example silent_subscription :
  match MQTTClient_subscribeMany5 105 [[116]] [1] None None silent_server with
  | Ok (Some (r, _), y) => (r_reasonCode r, connected (st_client (y_st y)), (sn_clock (st_net (y_st y)) - 1000) / 1000)
  | _ => (0, 0, 0)
  end = (SOCKET_ERROR, 0, 10100).
Proof. vm_compute. reflexivity. Qed.

(** What is left of a time that is over is not less than 0 but very long: a wait with it
    is not over when the clock can count no further. *)
Example time_left_late :
  match time_left (1000 - 31000000) 30000 silent_server with Ok (time, _) => time | _ => 0 end = 2 ^ 64 - 1000.
Proof. vm_compute. reflexivity. Qed.
End SyncWaits.
