(* ===== verification/SyncSafety.v ===== *)
(** * The session under the calls of the synchronous client

    Whatever an application calls, and however the network and the server behave, the
    session satisfies its invariant after every call: the waits of the synchronous client
    handle packets, time-outs and retries between any two of their steps. *)

From S2P Require Import Prelude.
From S2P Require Import Utf8.
From S2P Require Import Wire.
From S2P Require Import Properties.
From S2P Require Import LinkedList.
From S2P Require Import Clients.
From S2P Require Import Packet.
From S2P Require Import State.
From S2P Require Import Store.
From S2P Require Import Persistence.
From S2P Require Import PacketIO.
From S2P Require Import Protocol.
From S2P Require Import Invariant.
From S2P Require Import Exchange.
From S2P Require Import Receiver.
From S2P Require Import Session.
From S2P Require Import Safety.
From S2P Require Import Outgoing.
From S2P Require Import SyncClient.
From S2P Require Import SyncConnect.
From Stdlib Require Import ZArith Lia List.
From stdpp Require Import base numbers list gmap.

Open Scope Z_scope.

Module SyncSafety.
Import Utf8 Wire Properties Clients Packet State Store Persistence PacketIO Protocol Invariant Exchange Receiver Session Safety Outgoing SyncClient SyncConnect.

(** What is read from the network is bytes, and no more than was asked for. *)
Class NetBytes (N : Type) `{Transport N} := {
  getdata_bytes sk b n d len : fst (getdata sk b n) = (Some d, len) -> bytes_ok d /\ Zlen d <= Z.max 0 b
}.

Section Session.
Context {P N : Type} {PO : PersistenceOps P} {NT : Transport N} {NL : TransportLaws N} {NB : NetBytes N} {NC : Connector N} {NP : Poller N}.
Implicit Types s : St P N.

Definition kept (s s' : St P N) : Prop := inv s -> inv s'.
#[export] Instance kept_preorder : PreOrder kept.
Proof. split; [intros s H; exact H|]. intros x y z H1 H2 H. exact (H2 (H1 H)). Qed.

Lemma kept_safe {X} (m : SM (St P N) X) : safe m -> respects kept m.
Proof. intros H s x s' E Hi. destruct (H s Hi) as (x1 & s1 & E1 & Hi1). rewrite E1 in E. by injection E as _ <-. Qed.
Lemma kept_client (f : Clients -> Clients) :
  (forall c, AList.items (inboundMsgs (f c)) = AList.items (inboundMsgs c) /\
             AList.items (outboundMsgs (f c)) = AList.items (outboundMsgs c) /\ msgID (f c) = msgID c) ->
  respects kept (modify_client f).
Proof. intros H. by apply kept_safe, safe_client. Qed.
Lemma kept_call_net {X} (f : N -> X * N) : respects kept (call_net f).
Proof. intros s x s' E. unfold call_net in E. destruct (f (st_net s)) as [a n]. injection E as _ <-. intros Hi. by eapply inv_core; [..|exact Hi]. Qed.
Lemma kept_call_persistence (f : P -> Z * P) : respects kept (call_persistence f).
Proof. intros s x s' E. unfold call_persistence in E. destruct (f (st_phandle s)) as [a n]. injection E as _ <-. intros Hi. by eapply inv_core; [..|exact Hi]. Qed.
Lemma kept_network s n : kept s (set_network s n).
Proof. intros Hi. by eapply inv_core; [..|exact Hi]. Qed.

Lemma kept_disconnect : respects kept MQTTClient_disconnect_internal.
Proof. apply kept_safe. intros s Hi. eapply wp_mono; [by apply wp_disconnect_internal|]. by intros u s' [H _]. Qed.
Lemma kept_closeSession reason props : props_arg_ok props -> respects kept (MQTTClient_closeSession reason props).
Proof. intros Hp. apply kept_safe. intros s Hi. eapply wp_mono; [by apply wp_closeSession|]. by intros u s' [H _]. Qed.
Lemma kept_retry interval last : respects kept (MQTTClient_retry interval last).
Proof. apply kept_safe, safe_client_retry. Qed.
Lemma kept_connack_accepted : respects kept connack_accepted.
Proof. apply kept_safe, safe_connack_accepted. Qed.
Lemma kept_deliverMessage rc : respects kept (MQTTClient_deliverMessage rc).
Proof.
  intros s x s' E Hi. destruct (queue s) as [|qe q] eqn:Hq.
  - unfold MQTTClient_deliverMessage in E. apply sm_bind_Ok in E as (? & ? & [= <- <-] & E). unfold queue in Hq. by rewrite Hq in E.
  - destruct (wp_deliverMessage rc s Hi) as (x1 & s1 & E1 & Hi1 & _); [by rewrite Hq|]. rewrite E1 in E. by injection E as _ <-.
Qed.
End Session.
#[export] Hint Resolve kept_call_net kept_call_persistence kept_network kept_disconnect kept_retry kept_connack_accepted kept_deliverMessage : respects.
#[export] Hint Extern 1 (respects kept (modify_client _)) => apply kept_client; intros ?; split; [|split]; reflexivity : respects.

Section Operations.
Context {P N : Type} {PO : PersistenceOps P} {NT : Transport N} {NL : TransportLaws N} {NB : NetBytes N} {NC : Connector N} {NP : Poller N}.
Abbreviation keeps := (respects (kept (P:=P) (N:=N))).

Lemma kept_send_connect v cp wp : keeps (MQTTPacket_send_connect v cp wp).
Proof. respects. Qed.
Lemma kept_send_subscribe t q o p id d : keeps (MQTTPacket_send_subscribe t q o p id d).
Proof. respects. Qed.
Lemma kept_send_unsubscribe t p id d : keeps (MQTTPacket_send_unsubscribe t p id d).
Proof. respects. Qed.
#[local] Hint Resolve kept_send_connect : respects.
Lemma kept_connect px ip ws v cp wp : keeps (MQTTProtocol_connect px ip ws v cp wp).
Proof. respects. Qed.
Lemma kept_start_connect v cp wp : keeps (send_connect v cp wp).
Proof. respects. Qed.
Lemma kept_wait_test p rc pack : keeps (wait_test p rc pack).
Proof. respects. Qed.

(** Packets that are read can be handled. *)
Lemma decode_loop_bound fuel len value multiplier s rc v s' :
  decode_loop (P:=P) (N:=N) fuel len value multiplier s = Ok ((rc, v), s') ->
  0 <= len -> 0 <= value -> multiplier = 128 ^ len -> value < 128 ^ len -> len <= 4 -> 0 <= v < 128 ^ 4.
Proof.
  revert len value multiplier s. induction fuel as [|fuel IH]; intros len value multiplier s E H0 Hv -> Hb Hl; cbn [decode_loop] in E.
  - injection E as _ <- _. split; [done|]. eapply Z.lt_le_trans; [exact Hb|]. by apply Z.pow_le_mono_r.
  - destruct (Z.ltb_spec 4 (len + 1)).
    { injection E as _ <- _. split; [done|]. eapply Z.lt_le_trans; [exact Hb|]. by apply Z.pow_le_mono_r. }
    apply sm_bind_Ok in E as (s0 & s1 & E1 & E). injection E1 as <- <-. apply sm_bind_Ok in E as ([rc1 c] & s2 & E2 & E).
    destruct (negb _).
    { injection E as _ <- _. split; [done|]. eapply Z.lt_le_trans; [exact Hb|]. by apply Z.pow_le_mono_r. }
    assert (0 <= Z.land c 127 < 128) as Hc by (change 127 with (Z.ones 7); rewrite Z.land_ones by done; by apply Z.mod_pos_bound).
    assert (128 ^ (len + 1) = 128 ^ len * 128) as Hp by (rewrite Z.pow_add_r by lia; lia).
    assert (0 < 128 ^ len) by (apply Z.pow_pos_nonneg; lia).
    assert (0 <= value + Z.land c 127 * 128 ^ len < 128 ^ (len + 1)) as Hn by nia.
    destruct (negb _).
    + eapply IH; [exact E|lia|lia|lia|lia|lia].
    + injection E as _ <- _. split; [lia|]. eapply Z.lt_le_trans; [apply Hn|]. apply Z.pow_le_mono_r; lia.
Qed.

Definition good_packet (r : Z * option packet) (s : St P N) : Prop := inv s /\ match r.2 with Some p => packet_ok p | None => True end.
Lemma hoare_kept {X} (m : SM (St P N) X) : keeps m -> hoare inv m (fun _ => inv).
Proof. intros H s x s' Hi E. by eapply H. Qed.
Lemma factory_packet_good v header data : bytes_ok data -> Zlen data < 268435456 -> hoare inv (factory_packet v header data) good_packet.
Proof.
  intros Hb Hl. unfold factory_packet. destruct (factory_entry v (hdr_type header)) as [f|] eqn:Hf; [|by apply hoare_ret].
  destruct (f v header data) as [p| |] eqn:Hp; [|by apply hoare_ret|apply hoare_oob].
  pose proof (parsed_packet_ok _ _ _ _ _ Hb Hl Hf Hp) as Hk. destruct (_ && _); [|by apply hoare_ret].
  destruct p as [?|q|?|?|?|?]; try apply hoare_oob. apply hoare_get. intros s0. apply hoare_right.
  eapply hoare_bind; [apply hoare_kept; respects|]. intros e. by apply hoare_ret.
Qed.

Lemma frame_done_good v header data : bytes_ok data -> Zlen data < 268435456 -> hoare inv (frame_done v header data) good_packet.
Proof.
  intros Hb Hl. eapply hoare_bind; [by apply factory_packet_good|]. intros [error pack]. cbv beta.
  eapply hoare_bind with (J := fun _ => good_packet (error, pack)); [|intros u; by apply hoare_ret].
  intros s u s' [Hi Hp] E. split; [|exact Hp]. revert E Hi.
  match goal with |- ?m _ = _ -> _ => assert (keeps m) as H by respects end. apply H.
Qed.

Lemma read_body_good v header len sk :
  0 <= len < 268435456 ->
  hoare inv ('(data, actual_len) ← call_net (getdata sk len);
             if negb (len =? 0) && negb (bool_decide (is_Some data)) then mret (SOCKET_ERROR, None)
             else if actual_len <? len then mret (TCPSOCKET_INTERRUPTED, None)
             else frame_done v header (default [] data)) good_packet.
Proof.
  intros Hlen. eapply hoare_bind with (J := fun r s => inv s /\ bytes_ok (default [] r.1) /\ Zlen (default [] r.1) < 268435456).
  - intros s [d l] s' Hi E. split; [by eapply kept_call_net|]. unfold call_net in E. pose proof (getdata_bytes sk len (st_net s)) as Hd.
    destruct (getdata sk len (st_net s)) as [[d0 l0] n]. injection E as <- <- <-. destruct d0 as [d0|]; [|by split; [constructor|]].
    destruct (Hd d0 l0 eq_refl). cbn. split; [done|lia].
  - intros [d l]. cbv beta. cbn [fst]. destruct (_ && _); [apply hoare_ret; by intros s [H _]|]. destruct (_ <? _); [apply hoare_ret; by intros s [H _]|].
    intros s r s' (Hi & Hb & Hl) E. by eapply frame_done_good.
Qed.

Lemma Factory_good v : hoare inv (MQTTPacket_Factory v) good_packet.
Proof.
  apply hoare_get. intros s0. apply hoare_right. eapply hoare_bind with (J := good_packet).
  - apply hoare_get. intros s1. apply hoare_right. eapply hoare_bind; [apply hoare_kept; respects|]. intros [error header]. cbv beta.
    destruct (negb _); [by apply hoare_ret|]. eapply hoare_bind with (J := fun r s => inv s /\ 0 <= r.2 < 268435456).
    + intros s [e len] s' Hi E. split; [|change 268435456 with (128 ^ 4); eapply decode_loop_bound; [exact E|cbn; lia..]].
      revert E Hi. assert (keeps MQTTPacket_decode) as H by respects. apply H.
    + intros [e len]. cbv beta. cbn [snd]. destruct (negb _); [apply hoare_ret; by intros s [H _]|].
      intros s r s' [Hi Hlen] E. by eapply (read_body_good v header len).
  - intros [error pack]. cbv beta. eapply hoare_bind with (J := fun _ => good_packet (error, pack)); [|intros u; by apply hoare_ret].
    intros s u s' [Hi Hp] E. split; [|exact Hp]. revert E Hi.
    match goal with |- ?m _ = _ -> _ => assert (keeps m) as H by respects end. apply H.
Qed.

Lemma receive_packet_good : hoare inv receive_packet good_packet.
Proof.
  apply hoare_get. intros s0. apply hoare_right. cbv zeta. destruct (_ || _); [by apply hoare_ret|]. destruct (_ =? _).
  - eapply hoare_bind; [apply hoare_kept; respects|]. intros rc. by apply hoare_ret.
  - eapply hoare_bind; [apply Factory_good|]. intros [rc pack]. by apply hoare_ret.
Qed.
End Operations.
#[export] Hint Resolve kept_send_connect kept_send_subscribe kept_send_unsubscribe kept_connect kept_start_connect kept_wait_test : respects.

(** ** The handle *)

Section Handle.
Context {P N : Type} {PO : PersistenceOps P} {NT : Transport N} {NL : TransportLaws N} {NB : NetBytes N} {NC : Connector N} {NP : Poller N}.
Abbreviation A := (SM (Sync P N)).

Definition sound (y : Sync P N) : Prop := inv (y_st y).
Definition stays_sound (y y' : Sync P N) : Prop := sound y -> sound y'.
#[export] Instance stays_sound_preorder : PreOrder stays_sound.
Proof. split; [intros y H; exact H|]. intros x y z H1 H2 H. exact (H2 (H1 H)). Qed.

Lemma sound_on_st {X} (m : SM (St P N) X) : respects kept m -> respects stays_sound (on_st m).
Proof.
  intros H y x y' E. unfold on_st in E. apply res_bind_Ok in E as ([x0 s] & E0 & E). injection E as _ <-. exact (H _ _ _ E0).
Qed.
Lemma sound_hoare {X} (m : A X) Q : hoare sound m Q -> (forall x y, Q x y -> sound y) -> respects stays_sound m.
Proof. intros H HQ y x y' E Hs. eapply HQ, H; done. Qed.
Lemma hoare_sound {X} (m : A X) : respects stays_sound m -> hoare sound m (fun _ => sound).
Proof. intros H y x y' Hs E. by eapply H. Qed.

(** The part of a turn that reads and handles a packet. *)
Lemma sound_read :
  respects stays_sound
    ('(rc, pack) ← on_st receive_packet;
     match pack with
     | None => mret (rc, None)
     | Some pack => '(rc', rest) ← on_st (handle_packet pack); mret (match rest with None => rc' | Some _ => rc end, rest)
     end).
Proof.
  apply (sound_hoare _ (fun _ => sound)); [|done]. eapply hoare_bind; [apply hoare_on_st, receive_packet_good|]. intros [rc [p|]]; cbv beta.
  - eapply hoare_bind with (J := fun _ => sound); [|intros [rc' rest]; by apply hoare_ret].
    intros y r y' [Hi Hp] E. revert E Hi. apply sound_on_st, kept_safe, safe_handle_packet, Hp.
  - apply hoare_ret. by intros y [H _].
Qed.
End Handle.
#[export] Hint Extern 1 (stays_sound _ _) => exact (fun H => H) : respects.
#[export] Hint Extern 1 (stays_sound _ (if ?b then _ else _)) => destruct b; exact (fun H => H) : respects.
#[export] Hint Extern 1 (respects stays_sound (on_st _)) => apply sound_on_st; solve [respects] : respects.

Section Calls.
Context {P N : Type} {PO : PersistenceOps P} {NT : Transport N} {NL : TransportLaws N} {NB : NetBytes N} {NC : Connector N} {NP : Poller N}.
Context (http_proxy : option (list Z)).
Abbreviation A := (SM (Sync P N)).
Abbreviation sounds := (respects (stays_sound (P:=P) (N:=N))).
Abbreviation R := (stays_sound (P:=P) (N:=N)).

Lemma sound_cycle timeout : sounds (MQTTClient_cycle timeout).
Proof.
  unfold MQTTClient_cycle. do 2 (apply (respects_bind R); [by eauto with respects nocore|intros ?]).
  apply (respects_bind R); [destruct (_ && _); [apply sound_read|apply (respects_ret R)]|intros [rc pack]; respects].
Qed.
#[local] Hint Resolve sound_cycle : respects.
Lemma sound_wait_loop fuel p start timeout : sounds (wait_loop fuel p start timeout).
Proof. induction fuel as [|fuel IH]; cbn [wait_loop]; respects; apply IH. Qed.
Lemma sound_yield_loop fuel start e : sounds (yield_loop fuel start e).
Proof. revert e. induction fuel as [|fuel IH]; intros e; cbn [yield_loop]; respects; apply IH. Qed.
Lemma sound_receive_loop fuel start timeout e : sounds (receive_loop fuel start timeout e).
Proof. revert e. induction fuel as [|fuel IH]; intros e; cbn [receive_loop]; respects; apply IH. Qed.
#[local] Hint Resolve sound_wait_loop sound_yield_loop sound_receive_loop : respects.
Lemma sound_waitfor fuel p timeout : sounds (MQTTClient_waitfor fuel p timeout).
Proof. respects. Qed.
Lemma sound_yield fuel : sounds (MQTTClient_yield fuel).
Proof. respects. Qed.
#[local] Hint Resolve sound_waitfor sound_yield : respects.
Lemma sound_completion_loop fuel mdt start timeout e : sounds (completion_loop fuel mdt start timeout e).
Proof. revert e. induction fuel as [|fuel IH]; intros e; cbn [completion_loop]; respects; apply IH. Qed.
Lemma sound_flush_loop fuel start timeout : sounds (flush_loop fuel start timeout).
Proof. induction fuel as [|fuel IH]; cbn [flush_loop]; respects; apply IH. Qed.
Lemma sound_block_loop fuel : sounds (block_loop fuel).
Proof. induction fuel as [|fuel IH]; cbn [block_loop]; respects; apply IH. Qed.
Lemma sound_drain_loop fuel : sounds (drain_loop fuel).
Proof. induction fuel as [|fuel IH]; cbn [drain_loop]; respects; apply IH. Qed.
#[local] Hint Resolve sound_completion_loop sound_flush_loop sound_block_loop sound_drain_loop : respects.

Lemma sound_receive fuel timeout : sounds (MQTTClient_receive fuel timeout).
Proof. respects. Qed.
Lemma sound_waitForCompletion fuel mdt timeout : sounds (MQTTClient_waitForCompletion fuel mdt timeout).
Proof. respects. Qed.
Lemma sound_disconnect fuel timeout reason props : props_arg_ok props -> sounds (MQTTClient_disconnect1 fuel timeout reason props).
Proof.
  intros Hp. assert (respects (kept (P:=P) (N:=N)) (MQTTClient_closeSession reason props)) as H by (by apply kept_closeSession).
  unfold MQTTClient_disconnect1. respects.
Qed.
Lemma sound_await_suback fuel qos : sounds (await_suback fuel qos).
Proof. respects. Qed.
Lemma sound_await_unsuback fuel : sounds (await_unsuback fuel).
Proof. respects. Qed.
#[local] Hint Resolve sound_await_suback sound_await_unsuback : respects.

(** A client that is read, and then replaced. *)
Lemma hoare_st {X} I (f : St P N -> A X) Q :
  (forall y, hoare (fun y1 => y1 = y /\ I y1) (f (y_st y)) Q) -> hoare I (s ← on_st sm_get; f s) Q.
Proof.
  intros H y r y' HI E. apply sm_bind_Ok in E as (s & y1 & E1 & E). injection E1 as <- <-. replace (put_st y (y_st y)) with y in E by (by destruct y).
  by eapply (H y).
Qed.
Lemma hoare_replace {X} (y : Sync P N) c (k : A X) :
  (inv (y_st y) -> inv (set_client (y_st y) c)) -> sounds k ->
  hoare (fun y1 => y1 = y /\ sound y1) (_ ← on_st (modify_client (fun _ => c)); k) (fun _ => sound).
Proof.
  intros Hc Hk y1 r y' [-> Hs] E. apply sm_bind_Ok in E as (u & y2 & E2 & E). injection E2 as _ <-.
  eapply Hk; [exact E|]. by apply Hc.
Qed.
Lemma hoare_now_sound {X} (y : Sync P N) (m : A X) : sounds m -> hoare (fun y1 => y1 = y /\ sound y1) m (fun _ => sound).
Proof. intros H. by apply hoare_right, hoare_sound. Qed.
Lemma as_sound {X} (m : A X) : hoare sound m (fun _ => sound) -> sounds m.
Proof. intros H. by apply (sound_hoare _ (fun _ => sound)). Qed.

Lemma sound_subscribe fuel topics qos opts props : sounds (MQTTClient_subscribeMany5 fuel topics qos opts props).
Proof.
  apply as_sound, hoare_st. intros y. destruct (_ =? 0); [by apply hoare_ret; intros ? [_ H]|]. cbv zeta.
  destruct (negb _); [by apply hoare_ret; intros ? [_ H]|]. destruct (MQTTProtocol_assignMsgId _) as [[msgid c]|] eqn:Ha; [|by apply hoare_ret; intros ? [_ H]].
  apply hoare_replace; [intros Hi; by eapply assigned_inv|]. respects.
Qed.
Lemma sound_unsubscribe fuel topics props : sounds (MQTTClient_unsubscribeMany5 fuel topics props).
Proof.
  apply as_sound, hoare_st. intros y. destruct (_ =? 0); [by apply hoare_ret; intros ? [_ H]|].
  destruct (negb _); [by apply hoare_ret; intros ? [_ H]|]. destruct (MQTTProtocol_assignMsgId _) as [[msgid c]|] eqn:Ha; [|by apply hoare_ret; intros ? [_ H]].
  apply hoare_replace; [intros Hi; by eapply assigned_inv|]. respects.
Qed.

Lemma sound_publish fuel topicName payload qos retained properties :
  message_ok qos properties -> sounds (MQTTClient_publish5 fuel topicName payload qos retained properties).
Proof.
  intros Hok. apply as_sound, hoare_st. intros y0. destruct (_ =? 0); [by apply hoare_ret; intros ? [_ H]|].
  destruct (negb _); [by apply hoare_ret; intros ? [_ H]|]. apply hoare_right.
  eapply hoare_bind; [apply hoare_sound; respects|]. intros [free|]; [|by apply hoare_ret]. cbv beta.
  destruct (negb free); [by apply hoare_ret|]. apply hoare_st. intros y.
  destruct (if 0 <? qos then _ else _) as [[msgid c]|] eqn:Ha; [|by apply hoare_ret; intros ? [_ H]].
  intros y1 r y' [-> Hs] E. destruct (wp_publish_step topicName payload qos retained properties (y_st y) msgid c Hok Hs Ha) as [Hi1 Hp].
  apply sm_bind_Ok in E as (u & y2 & E2 & E). injection E2 as _ <-. destruct (_ && _); [by injection E as _ <-|].
  destruct (Hp eq_refl) as (res & s3 & E3 & Hi3). apply sm_bind_Ok in E as (x & y3 & E4 & E).
  assert (sound y3) as Hs3.
  { unfold on_st in E4. cbn [y_st put_st] in E4. rewrite E3 in E4. by injection E4 as _ <-. }
  revert E Hs3. match goal with |- ?m _ = _ -> _ => assert (sounds m) as H by respects end. apply H.
Qed.

Lemma copy_options_lists o c c' :
  copy_options o c = Ok c' -> inboundMsgs c' = inboundMsgs c /\ outboundMsgs c' = outboundMsgs c /\ msgID c' = msgID c.
Proof.
  unfold copy_options. intros H. apply res_bind_Ok in H as (u & _ & H). apply res_bind_Ok in H as (p & _ & H). by injection H as <-.
Qed.
Lemma receive_maximum_lists r c c' :
  receive_maximum r c = Ok c' -> inboundMsgs c' = inboundMsgs c /\ outboundMsgs c' = outboundMsgs c /\ msgID c' = msgID c.
Proof.
  unfold receive_maximum. destruct (r_properties r); [|by intros [= <-]]. destruct (_ && _); [|by intros [= <-]].
  intros H. apply res_bind_Ok in H as (n0 & _ & H). injection H as <-. by destruct (_ <? _).
Qed.
Lemma inv_replaced s c c' :
  inv s -> st_client s = c -> inboundMsgs c' = inboundMsgs c /\ outboundMsgs c' = outboundMsgs c /\ msgID c' = msgID c -> inv (set_client (P:=P) (N:=N) s c').
Proof.
  intros Hi <- (H1 & H2 & H3). eapply inv_core; [..|exact Hi]; try done; unfold outs, ins, last_id; cbn; by rewrite ?H1, ?H2, ?H3.
Qed.
(** The client is read, changed by [f], and written. *)
Lemma sound_update {X} (f : Clients -> res Clients) (k : A X) :
  (forall c c', f c = Ok c' -> inboundMsgs c' = inboundMsgs c /\ outboundMsgs c' = outboundMsgs c /\ msgID c' = msgID c) -> sounds k ->
  sounds (s ← on_st sm_get; c ← sm_lift (f (st_client s)); _ ← on_st (modify_client (fun _ => c)); k).
Proof.
  intros Hf Hk. apply as_sound, hoare_st. intros y. destruct (f (st_client (y_st y))) as [c| |] eqn:E; [|by intros ? ? ? _|by intros ? ? ? _].
  intros y1 r y' Hy E1. change ((_ ← on_st (modify_client (fun _ => c)); k) y1 = Ok (r, y')) in E1.
  revert Hy E1. apply hoare_replace; [|done]. intros Hi. by eapply inv_replaced, Hf.
Qed.

Lemma sound_connectURIVersion fuel uri version start ms cp wp : sounds (MQTTClient_connectURIVersion http_proxy fuel uri version start ms cp wp).
Proof. respects. Qed.
#[local] Hint Resolve sound_connectURIVersion : respects.
Lemma sound_connectURI fuel o uri cp wp : sounds (MQTTClient_connectURI http_proxy fuel o uri cp wp).
Proof.
  unfold MQTTClient_connectURI. cbv zeta. do 3 (apply (respects_bind R); [respects|intros ?]).
  apply (sound_update (copy_options o)); [apply copy_options_lists|]. respects.
Qed.
#[local] Hint Resolve sound_connectURI : respects.
Lemma sound_server_loop fuel o uris cp wp last : sounds (server_loop http_proxy fuel o uris cp wp last).
Proof. revert last. induction uris as [|uri uris IH]; intros last; cbn [server_loop]; respects; apply IH. Qed.
#[local] Hint Resolve sound_server_loop : respects.
Lemma sound_connectAll fuel options cp wp : sounds (MQTTClient_connectAll http_proxy fuel options cp wp).
Proof.
  unfold MQTTClient_connectAll, unless_waiting. apply (respects_bind R); [|intros r; respects].
  destruct options as [o|]; [|apply (respects_ret R)]. destruct (negb _); [apply (respects_ret R)|].
  apply (respects_bind R); [respects|intros y]. apply (respects_bind R); [respects|intros [r|]; [|apply (respects_ret R)]].
  apply (sound_update (receive_maximum r.1)); [apply receive_maximum_lists|]. respects.
Qed.
End Calls.

(** ** Sequences of calls *)

(** The calls of an application, with their arguments. *)
Inductive sync_call :=
| CallConnect (options : option connectOptions) (connectProperties willProperties : option MQTTProperties)
| CallPublish (topicName payload : list Z) (qos retained : Z) (properties : option MQTTProperties)
| CallSubscribe (topics : list (list Z)) (qos : list Z) (opts : option (list MQTTSubscribe_options)) (props : option MQTTProperties)
| CallUnsubscribe (topics : list (list Z)) (props : option MQTTProperties)
| CallReceive (timeout : Z)
| CallYield
| CallWaitForCompletion (mdt timeout : Z)
| CallDisconnect (timeout reason : Z) (props : option MQTTProperties).

Definition call_ok (call : sync_call) : Prop :=
  match call with
  | CallPublish _ _ qos _ properties => message_ok qos properties
  | CallDisconnect _ _ props => props_arg_ok props
  | _ => True
  end.

Section Run.
Context {P N : Type} {PO : PersistenceOps P} {NT : Transport N} {NL : TransportLaws N} {NB : NetBytes N} {NC : Connector N} {NP : Poller N}.
Context (http_proxy : option (list Z)).
Abbreviation A := (SM (Sync P N)).

Definition ignore {X} (m : A X) : A () := _ ← m; mret ().
Definition perform_call (fuel : nat) (call : sync_call) : A () :=
  match call with
  | CallConnect options cp wp => ignore (MQTTClient_connectAll http_proxy fuel options cp wp)
  | CallPublish t p q r props => ignore (MQTTClient_publish5 fuel t p q r props)
  | CallSubscribe t q o p => ignore (MQTTClient_subscribeMany5 fuel t q o p)
  | CallUnsubscribe t p => ignore (MQTTClient_unsubscribeMany5 fuel t p)
  | CallReceive timeout => ignore (MQTTClient_receive fuel timeout)
  | CallYield => ignore (MQTTClient_yield fuel)
  | CallWaitForCompletion mdt timeout => ignore (MQTTClient_waitForCompletion fuel mdt timeout)
  | CallDisconnect timeout reason props => ignore (MQTTClient_disconnect5 fuel timeout reason props)
  end.
Fixpoint perform_calls (fuel : nat) (calls : list sync_call) : A () :=
  match calls with
  | [] => mret ()
  | call :: calls => _ ← perform_call fuel call; perform_calls fuel calls
  end.

Lemma sound_ignore {X} (m : A X) : respects stays_sound m -> respects stays_sound (ignore m).
Proof. intros H. apply (respects_bind stays_sound); [exact H|intros x; apply (respects_ret stays_sound)]. Qed.
Lemma sound_call fuel call : call_ok call -> respects stays_sound (perform_call fuel call).
Proof.
  destruct call; intros H; apply sound_ignore.
  - apply sound_connectAll.
  - by apply sound_publish.
  - apply sound_subscribe.
  - apply sound_unsubscribe.
  - apply sound_receive.
  - apply sound_yield.
  - apply sound_waitForCompletion.
  - by apply sound_disconnect.
Qed.

(** A client created without a store satisfies the invariant. *)
Lemma create_sound serverURI clientId structure options (store : P) (network : N) rc y :
  MQTTClient_createWithOptions serverURI clientId MQTTCLIENT_PERSISTENCE_NONE structure options store network = Ok (rc, Some y) -> inv (y_st y).
Proof.
  unfold MQTTClient_createWithOptions. destruct serverURI as [uri|]; [|done]. destruct clientId as [id|]; [|done].
  destruct (negb _); [done|]. destruct (create_server uri) as [[uri' ws]|]; [|done].
  change (MQTTPersistence_create MQTTCLIENT_PERSISTENCE_NONE structure) with (0, false). cbn. intros [= _ <-]. cbn.
  split; try done; [exact store_inv_empty | constructor | constructor].
Qed.

(** Destroying a client frees every publication but those of pending writes. *)
Definition pending_refs (s : St P N) : list positive := map pw_p (st_pending s).
Lemma wp_close_persistence (s : St P N) : inv s -> wp MQTTPersistence_close s (fun _ s' => inv s' /\ st_pending s' = st_pending s).
Proof.
  intros Hi. apply wp_bind, wp_get. destruct (persistence (st_client s)); [|by apply wp_ret].
  apply wp_bind, wp_call_persistence. intros rc p _. apply wp_bind, wp_modify, wp_ret. split; [by eapply inv_core; [..|exact Hi]|done].
Qed.
Lemma wp_free_list l (s : St P N) refs :
  store_inv (st_pubs s) (omap m_publish (AList.items l) ++ refs) ->
  wp (MQTTProtocol_freeMessageList l) s (fun _ s' => exists ps, s' = set_pubs s ps /\ store_inv ps refs).
Proof.
  intros Hs. destruct (removePublications_spec (AList.items l) s refs Hs) as (ps & Hr & Hps).
  apply wp_bind, wp_bind. eapply wp_run; [exact Hr|]. apply wp_ret, wp_ret. by exists ps.
Qed.
Lemma wp_freeClient (s : St P N) :
  inv s -> wp MQTTProtocol_freeClient s (fun _ s' => st_pending s' = st_pending s /\ store_inv (st_pubs s') (pending_refs s)).
Proof.
  intros Hi. apply wp_bind, wp_get, wp_bind. eapply wp_mono; [apply wp_free_list, (inv_store _ Hi)|]. intros [] s1 (ps & -> & Hps).
  apply wp_bind, wp_get. eapply wp_mono; [apply wp_free_list, Hps|]. by intros [] s2 (ps2 & -> & Hps2).
Qed.
Lemma destroy_frees (y : Sync P N) :
  inv (y_st y) ->
  exists store pubs network, MQTTClient_destroy y = Ok (store, pubs, st_pending (y_st y), network) /\ store_inv pubs (pending_refs (y_st y)).
Proof.
  intros Hi.
  assert (wp (_ ← MQTTPersistence_close; _ ← MQTTClient_emptyMessageQueue; MQTTProtocol_freeClient) (y_st y) (fun _ s' =>
    st_pending s' = st_pending (y_st y) /\ store_inv (st_pubs s') (pending_refs (y_st y)))) as (u & s & E & Hp & Hs).
  { apply wp_bind. eapply wp_mono; [by apply wp_close_persistence|]. intros rc s1 (Hi1 & Hp1). apply wp_bind, wp_modify.
    eapply wp_mono; [apply wp_freeClient; by eapply inv_core; [..|exact Hi1]|]. intros v s2. unfold pending_refs. cbn. by rewrite Hp1. }
  exists (st_phandle s), (st_pubs s), (st_net s). split; [|exact Hs]. unfold MQTTClient_destroy. rewrite E. cbn. by rewrite Hp.
Qed.

(** C6. Safety of the synchronous client.  Whatever calls an application makes one after the
    other, over any network that reads bytes, any server and any persistence store, and
    even when a wait is cut short: if the calls return, the session satisfies its
    invariant after them: the publications stored are held once, and no two messages in
    flight in one direction have the same identifier.  The application publishes with
    QoS 0, 1 or 2 and well formed properties - the QoS is not tested, and another one
    breaks the invariant ([Safety.publish5_any_qos]) - and the properties it gives a
    DISCONNECT are well formed, with four byte integers below 2^31 ([call_ok]). *)
Theorem sync_calls_safe (fuel : nat) (calls : list sync_call) (y y' : Sync P N) :
  inv (y_st y) -> Forall call_ok calls -> perform_calls fuel calls y = Ok ((), y') -> inv (y_st y').
Proof.
  intros Hi Hc E. revert y Hi E. induction Hc as [|call calls Hcall Hc IH]; intros y Hi E; [by injection E as <-|].
  apply sm_bind_Ok in E as ([] & y1 & E1 & E). eapply IH; [|exact E]. by eapply sound_call.
Qed.
End Run.

(** ** A network for examples *)

(** A scripted network whose input is made of bytes. *)
Record ByteNet := mkByteNet {
  bn_script : ScriptNet;
  bn_input : list Byte.byte
}.
Definition byte_value (b : Byte.byte) : Z := Z.of_N (Byte.to_N b).
Definition script_of (n : ByteNet) : ScriptNet :=
  let s := bn_script n in mkScript (sn_results s) (sn_written s) (map byte_value (bn_input n)) (sn_pos s) (sn_clock s).
Definition on_script {X} (f : ScriptNet -> X * ScriptNet) (n : ByteNet) : X * ByteNet :=
  let '(x, s) := f (script_of n) in (x, mkByteNet s (bn_input n)).

#[export] Instance ByteNet_transport : Transport ByteNet := {
  putdatas sk buf0 bufs mask := on_script (putdatas sk buf0 bufs mask);
  noPendingWrites sk := on_script (noPendingWrites sk);
  updateWrite sk t p := on_script (updateWrite sk t p);
  getch sk := on_script (getch sk);
  getdata sk b := on_script (getdata sk b);
  framePos n := framePos (script_of n);
  framePosSeekTo pos n := mkByteNet (framePosSeekTo pos (script_of n)) (bn_input n);
  net_close sk n := n;
  time_now := on_script time_now
}.
#[export] Instance ByteNet_connector : Connector ByteNet := {
  Socket_new a p := on_script (Socket_new a p);
  WebSocket_connect sk u := on_script (WebSocket_connect sk u);
  WebSocket_proxy_connect sk u := on_script (WebSocket_proxy_connect sk u);
  WebSocket_socks5_proxy_connect sk := on_script (WebSocket_socks5_proxy_connect sk);
  WebSocket_upgrade sk := on_script (WebSocket_upgrade sk);
  connect_outcome sk := on_script (connect_outcome sk);
  Socket_addPendingWrite _ n := n;
  Socket_clearPendingWrite _ n := n
}.
#[export] Instance ByteNet_poller : Poller ByteNet := { getReadySocket sk t := on_script (getReadySocket sk t); getWrite _ _ := false }.

#[export] Instance ByteNet_laws : TransportLaws ByteNet.
Proof.
  split. intros sk buf0 bufs mask n rc bufs' mask' n'. cbn. intros E. injection E as _ <- _ _. clear. induction bufs; by constructor.
Qed.
#[export] Instance ByteNet_bytes : NetBytes ByteNet.
Proof.
  split. intros sk b n d len E. cbn in E. injection E as <- _. split.
  - apply Forall_take, Forall_drop, Forall_map, Forall_forall. intros x _. unfold byte_ok, byte_value. pose proof (Byte.to_N_bounded x). cbn. lia.
  - unfold Zlen. rewrite length_take. lia.
Qed.

(** A client that connects to a server, subscribes, receives a message of QoS 2, publishes
    one of QoS 1 and disconnects. *)
Definition sample_calls : list sync_call :=
  [CallConnect (Some sample_options) None None; CallSubscribe [[116]] [2] None None; CallPublish [116] [104; 105] 1 0 None;
   CallReceive 1000; CallReceive 1000; CallDisconnect 100 0 None].
Definition byte_client (input : list Byte.byte) : Sync MemStore ByteNet :=
  let y := sample_sync [] in
  mkSync (mkSt (st_client (y_st y)) ∅ (mkPubs ∅ AList.empty) [] (mkByteNet (mkScript [] [] [] 0 1000) input) 0 0)
    (y_serverURI y) false None (y_socks5 y) 10000 5000 0.
Definition server_bytes : list Byte.byte :=
  [Byte.x20; Byte.x03; Byte.x00; Byte.x00; Byte.x00; Byte.x90; Byte.x04; Byte.x00; Byte.x01; Byte.x00; Byte.x02;
   Byte.x34; Byte.x07; Byte.x00; Byte.x01; Byte.x74; Byte.x00; Byte.x07; Byte.x00; Byte.x21;
   Byte.x62; Byte.x02; Byte.x00; Byte.x07; Byte.x40; Byte.x02; Byte.x00; Byte.x02].
Definition summary_of (r : res (() * Sync MemStore ByteNet)) : option (Z * Z * Z * list Z) :=
  match r with
  | Ok (_, y) =>
      let c := st_client (y_st y) in
      Some (connected c, Zlen (AList.items (inboundMsgs c)), Zlen (AList.items (outboundMsgs c)), map (fun f => List.hd 0 f) (sn_written (bn_script (st_net (y_st y)))))
  | _ => None
  end.

(** What it writes: CONNECT, SUBSCRIBE, PUBLISH, PUBREC, PUBCOMP and DISCONNECT. *)
Example sample_session :
  summary_of (perform_calls None 100 sample_calls (byte_client server_bytes)) = Some (0, 0, 0, [16; 130; 50; 80; 112; 224]).
Proof. vm_compute. reflexivity. Qed.

Lemma byte_client_inv input : inv (y_st (byte_client input)).
Proof. split; try done; [exact store_inv_empty | constructor | constructor]. Qed.
Lemma sync_calls_safe_witness :
  exists y', perform_calls None 100 sample_calls (byte_client server_bytes) = Ok ((), y') /\ inv (y_st y').
Proof.
  destruct (perform_calls None 100 sample_calls (byte_client server_bytes)) as [[[] y']| |] eqn:E; try (vm_compute in E; discriminate E).
  exists y'. split; [reflexivity|].
  apply (sync_calls_safe None 100 sample_calls (byte_client server_bytes) y'); [apply byte_client_inv| |exact E].
  repeat (apply Forall_cons; split); try apply Forall_nil_2; try exact I. split; [lia|exact I].
Defined.
End SyncSafety.
