(* ===== verification/Trees.v ===== *)
(** * Red-black trees ([src/src/Tree.c], [Tree.h]): the operations

    The pointer implementation over an explicit store of nodes: a node has the pointers to
    its parent and to its children, [malloc] is the choice of an unused address and may
    fail, [free] removes the node, and an access through a null or dangling pointer is
    [Oob].  A tree is indexed at most twice, by functions of comparison.

    [TreeShapes] and [TreeBalance] say what the operations do. *)

From S2P Require Import Prelude.
From Stdlib Require Import ZArith Lia List.
From stdpp Require Import base numbers list gmap.

Open Scope Z_scope.

Module Trees.

(** [LEFT] and [RIGHT], the indices of the children. *)
Abbreviation LEFT := false (only parsing).
Abbreviation RIGHT := true (only parsing).

Section Data.
(** [C]: what the contents point to; [K]: what the keys point to. *)
Context {C K : Type}.

(** [Node]: the content of a node of a tree is not null. *)
Record Node := mkNode {
  parent : option positive;
  child0 : option positive;
  child1 : option positive;
  content : option C;
  nsize : Z;
  red : bool
}.

Definition child (d : bool) (n : Node) : option positive := if d then child1 n else child0 n.

Definition set_parent (p : option positive) (n : Node) : Node :=
  mkNode p (child0 n) (child1 n) (content n) (nsize n) (red n).
Definition set_child (d : bool) (p : option positive) (n : Node) : Node :=
  if d then mkNode (parent n) (child0 n) p (content n) (nsize n) (red n)
  else mkNode (parent n) p (child1 n) (content n) (nsize n) (red n).
Definition set_content (c : option C) (z : Z) (n : Node) : Node :=
  mkNode (parent n) (child0 n) (child1 n) c z (red n).
Definition set_red (b : bool) (n : Node) : Node :=
  mkNode (parent n) (child0 n) (child1 n) (content n) (nsize n) b.

(** The second argument of a comparison, a key or a content as its last argument
    ([value]) says. *)
Definition cmp_fn : Type := C -> K + C -> Z.

(** [index] of [Tree], an array of two. *)
Record Index := mkIndex { root : option positive; compare : option cmp_fn }.

Record Tree := mkTree {
  index : list Index;
  indexes : nat;
  count : Z;
  tsize : Z;
  heap_tracking : bool;
  allow_duplicates : bool
}.

Definition set_indices (l : list Index) (t : Tree) : Tree :=
  mkTree l (indexes t) (count t) (tsize t) (heap_tracking t) (allow_duplicates t).
Definition set_sizes (n z : Z) (t : Tree) : Tree :=
  mkTree (index t) (indexes t) n z (heap_tracking t) (allow_duplicates t).

(** The nodes in memory, the tree, and what the next calls of [malloc] do (they succeed
    when nothing is said). *)
Record TS := mkTS { nodes : gmap positive Node; tree : Tree; mallocs : list bool }.

Definition set_nodes (h : gmap positive Node) (s : TS) : TS := mkTS h (tree s) (mallocs s).
Definition set_tree (t : Tree) (s : TS) : TS := mkTS (nodes s) t (mallocs s).

(** *** Accesses to memory *)

Definition deref (p : option positive) : SM TS positive :=
  match p with Some q => mret q | None => sm_oob end.

Definition node_at (p : positive) : SM TS Node :=
  h ← sm_gets nodes; match h !! p with Some n => mret n | None => sm_oob end.

Definition upd (p : positive) (f : Node -> Node) : SM TS () :=
  n ← node_at p; sm_modify (fun s => set_nodes (<[p := f n]> (nodes s)) s).

Definition get_index (i : nat) : SM TS Index :=
  t ← sm_gets tree; match index t !! i with Some x => mret x | None => sm_oob end.

Definition get_root (i : nat) : SM TS (option positive) := x ← get_index i; mret (root x).

Definition set_root (i : nat) (r : option positive) : SM TS () :=
  x ← get_index i;
  sm_modify (fun s => set_tree (set_indices (<[i := mkIndex r (compare x)]> (index (tree s))) (tree s)) s).

(** A call of the function of comparison of an index. *)
Definition call_compare (i : nat) (c : option C) (k : K + C) : SM TS Z :=
  x ← get_index i;
  match compare x, c with Some f, Some c => mret (f c k) | _, _ => sm_oob end.

(** [malloc] of a node, cleared by [memset]; [None] when there is no memory. *)
Definition zero_node : Node := mkNode None None None None 0 false.

Definition malloc_node : SM TS (option positive) :=
  s ← sm_get;
  let rest := mkTS (nodes s) (tree s) (tail (mallocs s)) in
  if default true (head (mallocs s)) then
    let p := fresh (dom (nodes s)) in
    sm_modify (fun _ => set_nodes (<[p := zero_node]> (nodes s)) rest);; mret (Some p)
  else sm_modify (fun _ => rest);; mret None.

Definition free_node (p : positive) : SM TS () :=
  _ ← node_at p; sm_modify (fun s => set_nodes (delete p (nodes s)) s).

(** *** Creation *)

(** [TreeInitializeNoMalloc]: the tree after [memset]. *)
Definition TreeInitializeNoMalloc (cmp : cmp_fn) : Tree :=
  mkTree [mkIndex None (Some cmp); mkIndex None None] 1 0 0 true false.

(** [TreeAddIndex]: a third index is outside of the array. *)
Definition TreeAddIndex (cmp : cmp_fn) : SM TS () :=
  t ← sm_gets tree;
  x ← get_index (indexes t);
  sm_modify (set_tree (mkTree (<[indexes t := mkIndex (root x) (Some cmp)]> (index t)) (S (indexes t))
                         (count t) (tsize t) (heap_tracking t) (allow_duplicates t))).

(** *** Colours and rotations *)

Definition isRed (aNode : option positive) : SM TS bool :=
  match aNode with None => mret false | Some p => n ← node_at p; mret (red n) end.

Definition isBlack (aNode : option positive) : SM TS bool :=
  match aNode with None => mret true | Some p => n ← node_at p; mret (negb (red n)) end.

(** [TreeRotate] *)
Definition TreeRotate (curnode : positive) (direction : bool) (i : nat) : SM TS () :=
  n ← node_at curnode;
  other ← deref (child (negb direction) n);
  o ← node_at other;
  upd curnode (set_child (negb direction) (child direction o));;
  match child direction o with
  | Some q => upd q (set_parent (Some curnode))
  | None => mret ()
  end;;
  n ← node_at curnode;
  upd other (set_parent (parent n));;
  match parent n with
  | None => set_root i (Some other)
  | Some pp =>
      m ← node_at pp;
      if bool_decide (child direction m = Some curnode) then upd pp (set_child direction (Some other))
      else upd pp (set_child (negb direction) (Some other))
  end;;
  upd other (set_child direction (Some curnode));;
  upd curnode (set_parent (Some other)).

(** *** Insertion *)

(** [TreeBAASub]: the node to go on with. *)
Definition TreeBAASub (curnode : positive) (which : bool) (i : nat) : SM TS positive :=
  n ← node_at curnode;
  pp ← deref (parent n);
  p ← node_at pp;
  gg ← deref (parent p);
  g ← node_at gg;
  let uncle := child which g in
  r ← isRed uncle;
  if (r : bool) then
    u ← deref uncle;
    upd pp (set_red false);;
    upd u (set_red false);;
    upd gg (set_red true);;
    mret gg
  else
    curnode ←
      (if bool_decide (child which p = Some curnode) then TreeRotate pp (negb which) i;; mret pp
       else mret curnode);
    n ← node_at curnode;
    pp ← deref (parent n);
    upd pp (set_red false);;
    p ← node_at pp;
    gg ← deref (parent p);
    upd gg (set_red true);;
    TreeRotate gg which i;;
    mret curnode.

(** The loop of [TreeBalanceAfterAdd]. *)
Fixpoint baa_loop (fuel : nat) (curnode : positive) (i : nat) : SM TS () :=
  match fuel with
  | O => sm_oob
  | S fuel' =>
      n ← node_at curnode;
      r ← isRed (parent n);
      if (r : bool) then
        pp ← deref (parent n);
        p ← node_at pp;
        match parent p with
        | None => mret ()
        | Some gg =>
            g ← node_at gg;
            c ← TreeBAASub curnode (bool_decide (child LEFT g = Some pp)) i;
            baa_loop fuel' c i
        end
      else mret ()
  end.

(** [TreeBalanceAfterAdd]: the loop goes up, and ends before the nodes do. *)
Definition TreeBalanceAfterAdd (curnode : positive) (i : nat) : SM TS () :=
  h ← sm_gets nodes;
  baa_loop (S (size h)) curnode i;;
  r ← get_root i;
  r ← deref r;
  upd r (set_red false).

(** The first loop of [TreeAddByIndex] and that of [TreeFindIndex1]: the node found, its
    would-be parent and side ([left]) when there is none. *)
Fixpoint descend (fuel : nat) (i : nat) (k : K + C) (curparent : option positive) (lft : bool)
    (curnode : option positive) : SM TS (option positive * option positive * bool) :=
  match curnode with
  | None => mret (None, curparent, lft)
  | Some p =>
      match fuel with
      | O => sm_oob
      | S fuel' =>
          n ← node_at p;
          result ← call_compare i (content n) k;
          if result =? 0 then mret (Some p, curparent, 0 <? result)
          else descend fuel' i k (Some p) (0 <? result) (child (0 <? result) n)
      end
  end.

(** The middle of [TreeAddByIndex]: the node for the content, that of the same key or a new
    one; [None] when nothing is added. *)
Definition place_node (sz : Z) (i : nat) (found curparent : option positive) (lft : bool) : SM TS (option positive) :=
  match found with
  | Some p =>
      t ← sm_gets tree;
      if allow_duplicates t then mret None
      else
        n ← node_at p;
        (if Nat.eqb i 0 then
           sm_modify (fun s => set_tree (set_sizes (count (tree s)) (to_u64 (tsize (tree s) + to_u64 (sz - nsize n))) (tree s)) s)
         else mret ());;
        mret (Some p)
  | None =>
      m ← malloc_node;
      match m with
      | None => mret None
      | Some newel =>
          match curparent with
          | Some pp => upd pp (set_child lft (Some newel))
          | None => set_root i (Some newel)
          end;;
          upd newel (fun n => set_red true (set_parent curparent n));;
          (if Nat.eqb i 0 then
             sm_modify (fun s => set_tree (set_sizes (to_i32 (count (tree s) + 1)) (to_u64 (tsize (tree s) + sz)) (tree s)) s)
           else mret ());;
          mret (Some newel)
      end
  end.

(** [TreeAddByIndex]: the content of the node, [None] when nothing is added. *)
Definition TreeAddByIndex (c : C) (sz : Z) (i : nat) : SM TS (option C) :=
  curnode ← get_root i;
  h ← sm_gets nodes;
  '(found, curparent, lft) ← descend (size h) i (inr c) None false curnode;
  newel ← place_node sz i found curparent lft;
  match newel with
  | None => mret None
  | Some newel =>
      upd newel (set_content (Some c) sz);;
      TreeBalanceAfterAdd newel i;;
      mret (Some c)
  end.

Fixpoint add_loop (n : nat) (i : nat) (c : C) (sz : Z) (rc : option C) : SM TS (option C) :=
  match n with
  | O => mret rc
  | S n' => rc ← TreeAddByIndex c sz i; add_loop n' (S i) c sz rc
  end.

(** [TreeAdd] *)
Definition TreeAdd (c : C) (sz : Z) : SM TS (option C) :=
  t ← sm_gets tree; add_loop (indexes t) 0 c sz None.

(** *** Searches *)

(** [TreeFindIndex1]: the loop is that of [TreeAddByIndex], the node being the result. *)
Definition TreeFindIndex1 (k : K + C) (i : nat) : SM TS (option positive) :=
  curnode ← get_root i;
  h ← sm_gets nodes;
  '(found, _, _) ← descend (size h) i k None false curnode;
  mret found.

Definition TreeFindIndex (key : K) (i : nat) : SM TS (option positive) := TreeFindIndex1 (inl key) i.
Definition TreeFindContentIndex (c : C) (i : nat) : SM TS (option positive) := TreeFindIndex1 (inr c) i.
Definition TreeFind (key : K) : SM TS (option positive) := TreeFindIndex key 0.

(** *** Iteration *)

Fixpoint minimum_loop (fuel : nat) (p : positive) : SM TS positive :=
  match fuel with
  | O => sm_oob
  | S fuel' =>
      n ← node_at p;
      match child LEFT n with Some q => minimum_loop fuel' q | None => mret p end
  end.

(** [TreeMinimum] *)
Definition TreeMinimum (curnode : option positive) : SM TS (option positive) :=
  match curnode with
  | None => mret None
  | Some p => h ← sm_gets nodes; q ← minimum_loop (size h) p; mret (Some q)
  end.

Fixpoint ascend (fuel : nat) (curnode : positive) (curparent : option positive) : SM TS (option positive) :=
  match curparent with
  | None => mret None
  | Some pp =>
      match fuel with
      | O => sm_oob
      | S fuel' =>
          p ← node_at pp;
          if bool_decide (child RIGHT p = Some curnode) then ascend fuel' pp (parent p)
          else mret (Some pp)
      end
  end.

(** [TreeSuccessor] *)
Definition TreeSuccessor (curnode : positive) : SM TS (option positive) :=
  n ← node_at curnode;
  match child RIGHT n with
  | Some r => TreeMinimum (Some r)
  | None => h ← sm_gets nodes; ascend (size h) curnode (parent n)
  end.

Definition TreeNextElementIndex (curnode : option positive) (i : nat) : SM TS (option positive) :=
  match curnode with
  | None => r ← get_root i; TreeMinimum r
  | Some p => TreeSuccessor p
  end.

Definition TreeNextElement (curnode : option positive) : SM TS (option positive) :=
  TreeNextElementIndex curnode 0.

(** *** Removal *)

(** The last turn of a removal: the far nephew is red. *)
Definition bar_last (pp sb : positive) (which : bool) (i : nat) : SM TS positive :=
  p ← node_at pp;
  upd sb (set_red (red p));;
  upd pp (set_red false);;
  s ← node_at sb;
  far ← deref (child which s);
  upd far (set_red false);;
  TreeRotate pp (negb which) i;;
  r ← get_root i;
  deref r.

(** [TreeBARSub] once the sibling is not red. *)
Definition bar_rest (curnode : positive) (sibling : option positive) (which : bool) (i : nat) : SM TS positive :=
  n ← node_at curnode;
  match sibling with
  | None => deref (parent n)
  | Some sb =>
      s ← node_at sb;
      b1 ← isBlack (child (negb which) s);
      b2 ← isBlack (child which s);
      if (b1 : bool) && (b2 : bool) then upd sb (set_red true);; deref (parent n)
      else
        pp ← deref (parent n);
        if (b2 : bool) then
          near ← deref (child (negb which) s);
          upd near (set_red false);;
          upd sb (set_red true);;
          TreeRotate sb which i;;
          p ← node_at pp;
          sb ← deref (child which p);
          bar_last pp sb which i
        else bar_last pp sb which i
  end.

(** [TreeBARSub] *)
Definition TreeBARSub (curnode : positive) (which : bool) (i : nat) : SM TS positive :=
  n ← node_at curnode;
  pp ← deref (parent n);
  p ← node_at pp;
  let sibling := child which p in
  r ← isRed sibling;
  if (r : bool) then
    sb ← deref sibling;
    upd sb (set_red false);;
    upd pp (set_red true);;
    TreeRotate pp (negb which) i;;
    n ← node_at curnode;
    pp ← deref (parent n);
    p ← node_at pp;
    bar_rest curnode (child which p) which i
  else bar_rest curnode sibling which i.

(** The loop of [TreeBalanceAfterRemove]. *)
Fixpoint bar_loop (fuel : nat) (curnode : positive) (i : nat) : SM TS positive :=
  match fuel with
  | O => sm_oob
  | S fuel' =>
      r ← get_root i;
      b ← isBlack (Some curnode);
      if negb (bool_decide (r = Some curnode)) && b then
        n ← node_at curnode;
        pp ← deref (parent n);
        p ← node_at pp;
        let this := match content n with Some _ => Some curnode | None => None end in
        c ← TreeBARSub curnode (bool_decide (this = child LEFT p)) i;
        bar_loop fuel' c i
      else mret curnode
  end.

(** [TreeBalanceAfterRemove] *)
Definition TreeBalanceAfterRemove (curnode : positive) (i : nat) : SM TS () :=
  h ← sm_gets nodes;
  c ← bar_loop (S (S (size h))) curnode i;
  upd c (set_red false).

(** The statements of [TreeRemoveNodeIndex] that take a node with at most one child out of
    the tree: its child takes its place. *)
Definition unlink_node (redundant : positive) (i : nat) : SM TS (option positive) :=
  d ← node_at redundant;
  let curchild := child (if child LEFT d then LEFT else RIGHT) d in
  match curchild with Some q => upd q (set_parent (parent d)) | None => mret () end;;
  match parent d with
  | None => set_root i curchild
  | Some pp =>
      p ← node_at pp;
      if bool_decide (child LEFT p = Some redundant) then upd pp (set_child LEFT curchild)
      else upd pp (set_child RIGHT curchild)
  end;;
  mret curchild.

(** Its rebalancing when the node was black; [temp], on the stack, has an address that no
    node has. *)
Definition rebalance_removed (redundant : positive) (curchild : option positive) (i : nat) : SM TS () :=
  d ← node_at redundant;
  if red d then mret ()
  else
    match curchild, parent d with
    | Some q, _ => TreeBalanceAfterRemove q i
    | None, Some pp =>
        h ← sm_gets nodes;
        let temp := fresh (dom h) in
        sm_modify (fun s => set_nodes (<[temp := set_parent (Some pp) zero_node]> (nodes s)) s);;
        TreeBalanceAfterRemove temp i;;
        free_node temp
    | None, None => mret ()
    end.

(** [TreeRemoveNodeIndex] *)
Definition TreeRemoveNodeIndex (curnode : positive) (i : nat) : SM TS (option C) :=
  n ← node_at curnode;
  redundant ←
    match child LEFT n, child RIGHT n with
    | Some _, Some _ => r ← TreeSuccessor curnode; deref r
    | _, _ => mret curnode
    end;
  curchild ← unlink_node redundant i;
  (if bool_decide (redundant <> curnode) then
     d ← node_at redundant; upd curnode (set_content (content d) (nsize d))
   else mret ());;
  rebalance_removed redundant curchild i;;
  free_node redundant;;
  (if Nat.eqb i 0 then
     sm_modify (fun s => set_tree (set_sizes (to_i32 (count (tree s) - 1)) (to_u64 (tsize (tree s) - nsize n)) (tree s)) s)
   else mret ());;
  mret (content n).

Definition TreeRemoveIndex (c : C) (i : nat) : SM TS (option C) :=
  curnode ← TreeFindContentIndex c i;
  match curnode with None => mret None | Some p => TreeRemoveNodeIndex p i end.

Fixpoint remove_loop (n : nat) (i : nat) (c : C) (rc : option C) : SM TS (option C) :=
  match n with
  | O => mret rc
  | S n' => rc ← TreeRemoveIndex c i; remove_loop n' (S i) c rc
  end.

(** [TreeRemove] *)
Definition TreeRemove (c : C) : SM TS (option C) :=
  t ← sm_gets tree; remove_loop (indexes t) 0 c None.

(** The loop of [TreeRemoveKeyIndex] over the other indexes; the content comes from the
    index before, and is compared there when it is null. *)
Fixpoint remove_others (n : nat) (i skip : nat) (c : option C) : SM TS (option C) :=
  match n with
  | O => mret c
  | S n' =>
      if Nat.eqb i skip then remove_others n' (S i) skip c
      else
        match c with
        | Some c => c' ← TreeRemoveIndex c i; remove_others n' (S i) skip c'
        | None => sm_oob
        end
  end.

Definition TreeRemoveKeyIndex (key : K) (i : nat) : SM TS (option C) :=
  curnode ← TreeFindIndex key i;
  match curnode with
  | None => mret None
  | Some p =>
      c ← TreeRemoveNodeIndex p i;
      t ← sm_gets tree;
      remove_others (indexes t) 0 i c
  end.

Definition TreeRemoveKey (key : K) : SM TS (option C) := TreeRemoveKeyIndex key 0.

End Data.

Arguments Node : clear implicits.
Arguments TS : clear implicits.
Arguments Tree : clear implicits.
Arguments Index : clear implicits.
Arguments cmp_fn : clear implicits.

(** ** The functions of comparison of the module *)

(** [TreeIntCompare] on the integers pointed to, [TreePtrCompare] on addresses. *)
Definition TreeIntCompare (i : Z) (j : Z + Z) : Z :=
  let j := match j with inl j | inr j => j end in
  if j <? i then -1 else if i =? j then 0 else 1.
Definition TreePtrCompare (a : Z) (b : Z + Z) : Z :=
  let b := match b with inl b | inr b => b end in
  if b <? a then -1 else if a =? b then 0 else 1.

(** [strcmp] on the bytes before the terminating zero: the sign of the difference of the
    first two that differ. *)
Fixpoint strcmp (a b : list Z) : Z :=
  match a, b with
  | [], [] => 0
  | [], _ :: _ => -1
  | _ :: _, [] => 1
  | x :: a', y :: b' => if x =? y then strcmp a' b' else if x <? y then -1 else 1
  end.

Definition TreeStringCompare (a : list Z) (b : list Z + list Z) : Z :=
  strcmp a (match b with inl b | inr b => b end).

(** ** Examples *)

Definition start : TS Z Z := mkTS ∅ (TreeInitializeNoMalloc TreeIntCompare) [].

(** The contents in the order of an iteration of at most [n] elements. *)
Fixpoint iterate (n : nat) (cur : option positive) (s : TS Z Z) : list Z :=
  match n with
  | O => []
  | S n' =>
      match TreeNextElement cur s with
      | Ok (Some p, _) =>
          match nodes s !! p with
          | Some m => match content m with Some c => c :: iterate n' (Some p) s | None => [] end
          | None => []
          end
      | _ => []
      end
  end.

Definition run {A} (m : SM (TS Z Z) A) (s : TS Z Z) : TS Z Z := match m s with Ok (_, s') => s' | _ => start end.

Example ex_sorted :
  iterate 20 None (run (mapM (fun x => TreeAdd x 8) [5; 2; 9; 1; 7; 3; 8; 6; 4]) start) = [1; 2; 3; 4; 5; 6; 7; 8; 9].
Proof. vm_compute. reflexivity. Qed.

Example ex_removed :
  let s := run (mapM (fun x => TreeAdd x 8) [5; 2; 9; 1; 7; 3; 8; 6; 4]) start in
  let s := run (mapM TreeRemove [5; 1; 9; 3]) s in
  (iterate 20 None s, count (tree s), tsize (tree s)) = ([2; 4; 6; 7; 8], 5, 40).
Proof. vm_compute. reflexivity. Qed.

End Trees.
