(* ===== verification/TreeShapes.v ===== *)
(** * Trees in memory

    The abstract trees that the nodes in memory form, seen from a node of the tree through
    its context, and the effect of every step of [Trees] on them.  The functions [fix_add]
    and [fix_del] on abstract trees are what the loops of rebalancing compute, with no
    condition on the colours. *)

From S2P Require Import Prelude.
From S2P Require Import Trees.
From Stdlib Require Import ZArith Lia List.
From stdpp Require Import base numbers list gmap.

Open Scope Z_scope.

Module TreeShapes.
Import Trees.

(** ** Abstract trees *)
Section Shapes.
Context {C : Type}.

(** The address of a node, its content and its size. *)
Record info := mkInfo { ip : positive; iv : C; isz : Z }.

Inductive tree_of :=
| E
| N (c : bool) (i : info) (l r : tree_of).

(** A node whose child on the side [d] is [a], and [b] on the other. *)
Definition Nd (d c : bool) (i : info) (a b : tree_of) : tree_of := if d then N c i b a else N c i a b.

Definition pick {A} (d : bool) (l r : A) : A := if d then r else l.

Definition ptr (t : tree_of) : option positive := match t with E => None | N _ i _ _ => Some (ip i) end.
Definition is_red (t : tree_of) : bool := match t with E => false | N c _ _ _ => c end.
Definition black (t : tree_of) : tree_of := match t with E => E | N _ i l r => N false i l r end.

(** The nodes in order. *)
Fixpoint infos (t : tree_of) : list info :=
  match t with E => [] | N _ i l r => infos l ++ i :: infos r end.
Definition ptrs (t : tree_of) : list positive := map ip (infos t).

(** A step of the path from a node to the root: the node above, the side it is on, and the
    other subtree. *)
Record frame := F { fd : bool; fc : bool; fi : info; fs : tree_of }.

Fixpoint fill (t : tree_of) (k : list frame) : tree_of :=
  match k with [] => t | F d c i s :: k' => fill (Nd d c i t s) k' end.

(** What is before and after the place of a context. *)
Fixpoint before (k : list frame) : list info :=
  match k with
  | [] => []
  | F d c i s :: k' => before k' ++ (if d then infos s ++ [i] else [])
  end.
Fixpoint after (k : list frame) : list info :=
  match k with
  | [] => []
  | F d c i s :: k' => (if d then [] else i :: infos s) ++ after k'
  end.

Lemma Nd_pick d c i l r : N c i l r = Nd d c i (pick d l r) (pick (negb d) l r).
Proof. by destruct d. Qed.

Lemma ptr_Nd d c i a b : ptr (Nd d c i a b) = Some (ip i).
Proof. by destruct d. Qed.
Lemma is_red_Nd d c i a b : is_red (Nd d c i a b) = c.
Proof. by destruct d. Qed.
Lemma black_Nd d c i a b : black (Nd d c i a b) = Nd d false i a b.
Proof. by destruct d. Qed.
Lemma ptr_black t : ptr (black t) = ptr t.
Proof. by destruct t. Qed.
Lemma infos_black t : infos (black t) = infos t.
Proof. by destruct t. Qed.
Lemma infos_Nd d c i a b : infos (Nd d c i a b) = if d then infos b ++ i :: infos a else infos a ++ i :: infos b.
Proof. by destruct d. Qed.

Lemma fill_app t k k' : fill t (k ++ k') = fill (fill t k) k'.
Proof. revert t. by induction k as [|[] k IH]; simpl. Qed.

Lemma infos_fill t k : infos (fill t k) = before k ++ infos t ++ after k.
Proof.
  revert t. induction k as [|[d c i s] k IH]; intros t; simpl; [by rewrite app_nil_r|].
  rewrite IH, infos_Nd. destruct d; simpl; rewrite <- ?app_assoc; simpl; by rewrite <- ?app_assoc.
Qed.

Lemma infos_fill_eq t t' k : infos t = infos t' -> infos (fill t k) = infos (fill t' k).
Proof. rewrite !infos_fill. by intros ->. Qed.

Lemma ptrs_fill_eq t t' k : infos t = infos t' -> ptrs (fill t k) = ptrs (fill t' k).
Proof. unfold ptrs. intros H. by rewrite (infos_fill_eq t t' k H). Qed.

Lemma ptr_fill_eq t t' k : ptr t = ptr t' -> ptr (fill t k) = ptr (fill t' k).
Proof.
  revert t t'. induction k as [|[d c i s] k IH]; intros t t' H; simpl; [done|].
  apply IH. by rewrite !ptr_Nd.
Qed.

Lemma ptr_fill_cons t t' f k : ptr (fill t (f :: k)) = ptr (fill t' (f :: k)).
Proof. destruct f as [d c i s]. simpl. apply ptr_fill_eq. by rewrite !ptr_Nd. Qed.

Lemma fill_black_inv t k : k <> [] -> black (fill t k) <> E.
Proof.
  revert t. induction k as [|[d c i s] k IH]; intros t H; [done|].
  simpl. destruct k; [by destruct d|by apply IH].
Qed.

(** ** The computations on abstract trees *)

(** The loop of [TreeBalanceAfterAdd] from the node [x], before the root is made black. *)
Fixpoint fix_add (x : tree_of) (k : list frame) : tree_of :=
  match k with
  | F dp true i s :: ((F dg cg ig u :: k') as k1) =>
      if is_red u then fix_add (Nd dg true ig (Nd dp false i x s) (black u)) k'
      else if Bool.eqb dp dg then fill (Nd dg false i x (Nd dg true ig s u)) k'
      else match x with
           | E => fill x k
           | N cx ix l r =>
               fill (Nd dg false ix (Nd dg true i s (pick dg l r)) (Nd dg true ig (pick (negb dg) l r) u)) k'
           end
  | _ => fill x k
  end.

(** [TreeBARSub] on the node [x], the child [d] of a node [c], [i] whose other child, [s],
    is not red: the tree to go on with, or the last one. *)
Definition bar (d c : bool) (i : info) (x s : tree_of) : tree_of + tree_of :=
  match s with
  | E => inl (Nd d c i x E)
  | N _ js l r =>
      let a := pick d l r in
      let b := pick (negb d) l r in
      if is_red b then inr (Nd d c js (Nd d false i x a) (black b))
      else
        match a with
        | N true ia al ar =>
            inr (Nd d c ia (Nd d false i x (pick d al ar)) (Nd d false js (pick (negb d) al ar) b))
        | _ => inl (Nd d c i x (Nd d true js a b))
        end
  end.

(** [TreeBalanceAfterRemove] from the node [x]. *)
Fixpoint fix_del (x : tree_of) (k : list frame) : tree_of :=
  match k with
  | [] => black x
  | F d c i s :: k' =>
      if is_red x then fill (black x) k
      else
        match s with
        | N true js l r =>
            let k1 := F d false js (pick (negb d) l r) :: k' in
            match bar d true i x (pick d l r) with
            | inl t => fill (black t) k1
            | inr t => black (fill t k1)
            end
        | _ =>
            match bar d c i x s with
            | inl t => fix_del t k'
            | inr t => black (fill t k')
            end
        end
  end.

Lemma infos_bar d c i x s :
  match bar d c i x s with inl t => infos t | inr t => infos t end = infos (Nd d c i x s).
Proof.
  unfold bar. destruct s as [|cs js l r]; [done|].
  destruct (is_red (pick (negb d) l r)).
  - destruct d; simpl; rewrite infos_black; by rewrite <- ?app_assoc.
  - destruct d; simpl; [destruct r as [|[] ia al ar]|destruct l as [|[] ia al ar]]; simpl; rewrite <- ?app_assoc; simpl; by rewrite <- ?app_assoc.
Qed.

Ltac infos_solve :=
  rewrite ?infos_Nd, ?infos_black;
  repeat match goal with d : bool |- _ => destruct d end; simpl;
  rewrite ?infos_black; rewrite <- ?app_assoc; simpl; rewrite <- ?app_assoc; reflexivity.

(** Rebalancing does not change the nodes nor their order. *)
Lemma infos_fix_add x k : infos (fix_add x k) = infos (fill x k).
Proof.
  remember (length k) as n eqn:En. revert k En x. induction n as [n IH] using lt_wf_ind. intros k -> x.
  destruct k as [|[dp [] i s] [|[dg cg ig u] k']]; try done. simpl.
  destruct (is_red u).
  - rewrite (IH (length k')); [|simpl; lia|done]. apply infos_fill_eq. infos_solve.
  - destruct (Bool.eqb dp dg) eqn:Ed.
    + apply Bool.eqb_prop in Ed as ->. apply infos_fill_eq. infos_solve.
    + destruct x as [|cx ix l r]; [done|]. apply infos_fill_eq.
      destruct dp, dg; try done; simpl; rewrite <- ?app_assoc; simpl; by rewrite <- ?app_assoc.
Qed.

Lemma infos_fix_del x k : infos (fix_del x k) = infos (fill x k).
Proof.
  revert x. induction k as [|[d c i s] k IH]; intros x; simpl; [apply infos_black|].
  destruct (is_red x). { apply infos_fill_eq. by rewrite !infos_Nd, infos_black. }
  assert (Hb : forall c', infos (match bar d c' i x s with inl t => fix_del t k | inr t => black (fill t k) end)
                 = infos (fill (Nd d c i x s) k)).
  { intros c'. pose proof (infos_bar d c' i x s) as H. destruct (bar d c' i x s) as [t|t].
    - rewrite IH. apply infos_fill_eq. rewrite H. by rewrite !infos_Nd.
    - rewrite infos_black. apply infos_fill_eq. rewrite H. by rewrite !infos_Nd. }
  destruct s as [|[] js l r]; [apply Hb| |apply Hb].
  pose proof (infos_bar d true i x (pick d l r)) as H.
  assert (Hk : forall t, infos t = infos (Nd d true i x (pick d l r)) ->
    infos (fill t (F d false js (pick (negb d) l r) :: k)) = infos (fill (Nd d c i x (N true js l r)) k)).
  { intros t Ht. simpl. apply infos_fill_eq. rewrite !infos_Nd, Ht, infos_Nd.
    destruct d; simpl; rewrite <- ?app_assoc; simpl; by rewrite <- ?app_assoc. }
  destruct (bar d true i x (pick d l r)) as [t|t].
  - apply (Hk (black t)). by rewrite infos_black.
  - rewrite infos_black. by apply Hk.
Qed.

End Shapes.

Arguments info : clear implicits.
Arguments tree_of : clear implicits.
Arguments frame : clear implicits.

(** ** Trees in memory *)

Section Memory.
Context {C K : Type}.
Implicit Types (t a b : tree_of C) (k : list (frame C)) (h : gmap positive (Node C)).

(** The node of an info, with its neighbours. *)
Definition mk_node (d : bool) (par x y : option positive) (j : info C) (c : bool) : Node C :=
  if d then mkNode par y x (Some (iv j)) (isz j) c else mkNode par x y (Some (iv j)) (isz j) c.

Fixpoint rep h (par : option positive) t : Prop :=
  match t with
  | E => True
  | N c j l r =>
      h !! ip j = Some (mkNode par (ptr l) (ptr r) (Some (iv j)) (isz j) c) /\
      rep h (Some (ip j)) l /\ rep h (Some (ip j)) r
  end.

(** The parent of the place of a context. *)
Definition cpar k : option positive := match k with [] => None | f :: _ => Some (ip (fi f)) end.

Fixpoint rep_ctx h (hole : option positive) k : Prop :=
  match k with
  | [] => True
  | F d c j s :: k' =>
      h !! ip j = Some (mk_node d (cpar k') hole (ptr s) j c) /\
      rep h (Some (ip j)) s /\ rep_ctx h (Some (ip j)) k'
  end.

Definition cptrs k : list positive := map ip (before k) ++ map ip (after k).

Lemma rep_Nd h par d c j a b :
  rep h par (Nd d c j a b) <->
  h !! ip j = Some (mk_node d par (ptr a) (ptr b) j c) /\ rep h (Some (ip j)) a /\ rep h (Some (ip j)) b.
Proof. destruct d; simpl; tauto. Qed.

Lemma rep_fill h t k : rep h None (fill t k) <-> rep h (cpar k) t /\ rep_ctx h (ptr t) k.
Proof.
  revert t. induction k as [|[d c j s] k IH]; intros t; simpl; [tauto|].
  rewrite IH, rep_Nd, ptr_Nd. tauto.
Qed.

Lemma ptr_in t p : ptr t = Some p -> p ∈ ptrs t.
Proof. destruct t as [|c j l r]; [done|]. intros [= <-]. unfold ptrs. simpl. rewrite map_app. set_solver. Qed.

Lemma ptrs_Nd d c j a b : ptrs (Nd d c j a b) ≡ₚ ip j :: ptrs a ++ ptrs b.
Proof. unfold ptrs. rewrite infos_Nd. destruct d; rewrite map_app; simpl; solve_Permutation. Qed.

Lemma ptrs_fill t k : ptrs (fill t k) ≡ₚ ptrs t ++ cptrs k.
Proof. unfold ptrs, cptrs. rewrite infos_fill, !map_app. solve_Permutation. Qed.

Lemma cptrs_cons d c j s k : cptrs (F d c j s :: k) ≡ₚ ip j :: ptrs s ++ cptrs k.
Proof. unfold cptrs, ptrs. simpl. destruct d; rewrite !map_app; simpl; rewrite ?map_app; simpl; solve_Permutation. Qed.

(** Writing to a node that is not of a tree. *)
Lemma rep_ext h h' par t : (forall q, q ∈ ptrs t -> h' !! q = h !! q) -> rep h par t -> rep h' par t.
Proof.
  revert par. induction t as [|c j l IHl r IHr]; intros par H; [done|]. intros (Hj & Hl & Hr).
  assert (Hin : forall q, q ∈ ptrs (N c j l r) <-> q ∈ ptrs l \/ q = ip j \/ q ∈ ptrs r).
  { intros q. unfold ptrs. simpl. rewrite map_app. set_solver. }
  simpl. rewrite (H (ip j)) by (apply Hin; auto). split; [done|].
  split; [apply IHl|apply IHr]; auto; intros q Hq; apply H, Hin; auto.
Qed.

Lemma rep_ctx_ext h h' hole k : (forall q, q ∈ cptrs k -> h' !! q = h !! q) -> rep_ctx h hole k -> rep_ctx h' hole k.
Proof.
  revert hole. induction k as [|[d c j s] k IH]; intros hole H; [done|]. intros (Hj & Hs & Hk).
  assert (Hin : forall q, q ∈ cptrs (F d c j s :: k) <-> q = ip j \/ q ∈ ptrs s \/ q ∈ cptrs k).
  { intros q. rewrite cptrs_cons. set_solver. }
  simpl. rewrite (H (ip j)) by (apply Hin; auto). split; [done|].
  split; [eapply rep_ext; [|done]|apply IH; [|done]]; intros q Hq; apply H, Hin; auto.
Qed.

Lemma rep_store h par t p n : p ∉ ptrs t -> rep h par t -> rep (<[p := n]> h) par t.
Proof. intros Hp. apply rep_ext. intros q Hq. apply lookup_insert_ne. by intros ->. Qed.

Lemma rep_ctx_insert h hole k p n : p ∉ cptrs k -> rep_ctx h hole k -> rep_ctx (<[p := n]> h) hole k.
Proof. intros Hp. apply rep_ctx_ext. intros q Hq. apply lookup_insert_ne. by intros ->. Qed.

(** The fields of a node in memory. *)
Lemma child_mk d par x y j c : child d (mk_node d par x y j c) = x.
Proof. by destruct d. Qed.
Lemma child_mk_negb d par x y j c : child (negb d) (mk_node d par x y j c) = y.
Proof. by destruct d. Qed.
Lemma parent_mk d par x y j c : parent (mk_node d par x y j c) = par.
Proof. by destruct d. Qed.
Lemma red_mk d par x y j c : red (mk_node d par x y j c) = c.
Proof. by destruct d. Qed.
Lemma content_mk d par x y j c : content (mk_node d par x y j c) = Some (iv j).
Proof. by destruct d. Qed.
Lemma nsize_mk d par x y j c : nsize (mk_node d par x y j c) = isz j.
Proof. by destruct d. Qed.

Lemma set_child_mk d par x y j c z : set_child d z (mk_node d par x y j c) = mk_node d par z y j c.
Proof. by destruct d. Qed.
Lemma set_child_mk_negb d par x y j c z : set_child (negb d) z (mk_node d par x y j c) = mk_node d par x z j c.
Proof. by destruct d. Qed.
Lemma set_parent_mk d par x y j c z : set_parent z (mk_node d par x y j c) = mk_node d z x y j c.
Proof. by destruct d. Qed.
Lemma set_red_mk d par x y j c z : set_red z (mk_node d par x y j c) = mk_node d par x y j z.
Proof. by destruct d. Qed.
Lemma set_content_mk d par x y j c v z :
  set_content (Some v) z (mk_node d par x y j c) = mk_node d par x y (mkInfo (ip j) v z) c.
Proof. by destruct d. Qed.

(** A node of the tree is in memory. *)
Lemma rep_in h par t p : rep h par t -> p ∈ ptrs t -> is_Some (h !! p).
Proof.
  revert par. induction t as [|c j l IHl r IHr]; intros par; [unfold ptrs; simpl; set_solver|].
  intros (Hj & Hl & Hr). rewrite (ptrs_Nd LEFT c j l r).
  intros [->|[H|H]%elem_of_app]%elem_of_cons; [by eexists|by eapply IHl|by eapply IHr].
Qed.

(** The nodes when the root of a subtree gets another parent. *)
Definition reparent h (par : option positive) t : gmap positive (Node C) :=
  match t with E => h | N c j l r => <[ip j := mkNode par (ptr l) (ptr r) (Some (iv j)) (isz j) c]> h end.

Lemma reparent_out h par t q : q ∉ ptrs t -> reparent h par t !! q = h !! q.
Proof. destruct t as [|c j l r]; [done|]. intros Hq. apply lookup_insert_ne. intros <-. apply Hq. by apply (ptr_in _ (ip j)). Qed.

Lemma reparent_rep h par par' t : NoDup (ptrs t) -> rep h par t -> rep (reparent h par' t) par' t.
Proof.
  destruct t as [|c j l r]; [done|]. intros Hn (Hj & Hl & Hr). rewrite (ptrs_Nd LEFT c j l r) in Hn.
  apply NoDup_cons in Hn as [Hnin _]. simpl. rewrite lookup_insert_eq.
  split; [done|]. split; apply rep_store; set_solver.
Qed.

(** The nodes when the place of a context gets another root. *)
Definition rehole h (p : option positive) k : gmap positive (Node C) :=
  match k with [] => h | F d c j s :: k' => <[ip j := mk_node d (cpar k') p (ptr s) j c]> h end.

Lemma rehole_out h p k q : q ∉ cptrs k -> rehole h p k !! q = h !! q.
Proof. destruct k as [|[d c j s] k]; [done|]. rewrite cptrs_cons. intros Hq. apply lookup_insert_ne. intros <-. set_solver. Qed.

Lemma rehole_rep h p p' k : NoDup (cptrs k) -> rep_ctx h p k -> rep_ctx (rehole h p' k) p' k.
Proof.
  destruct k as [|[d c j s] k]; [done|]. rewrite cptrs_cons. intros [Hnin _]%NoDup_cons (Hj & Hs & Hk). simpl.
  rewrite lookup_insert_eq. split; [done|]. split; [apply rep_store; set_solver|apply rep_ctx_insert; set_solver].
Qed.

(** The addresses around a rotation are all different. *)
Lemma rotate_nodup d cx jx a cy jy b c k :
  NoDup (ptrs (fill (Nd d cx jx a (Nd d cy jy b c)) k)) ->
  NoDup (ip jx :: ip jy :: ptrs a ++ ptrs b ++ ptrs c ++ cptrs k).
Proof.
  rewrite ptrs_fill, ptrs_Nd, ptrs_Nd. intros Hn.
  by assert (ip jx :: ip jy :: ptrs a ++ ptrs b ++ ptrs c ++ cptrs k ≡ₚ
    (ip jx :: ptrs a ++ ip jy :: ptrs b ++ ptrs c) ++ cptrs k) as -> by solve_Permutation.
Qed.

Lemma Nd_negb d c (j : info C) a b : Nd (negb d) c j a b = Nd d c j b a.
Proof. by destruct d. Qed.

(** Two memories with the same tree. *)
Lemma rep_same h h' par t q : rep h par t -> rep h' par t -> q ∈ ptrs t -> h !! q = h' !! q.
Proof.
  revert par. induction t as [|c j l IHl r IHr]; intros par; [unfold ptrs; simpl; set_solver|].
  intros (Hj & Hl & Hr) (Hj' & Hl' & Hr'). rewrite (ptrs_Nd LEFT c j l r). intros [->|[H|H]%elem_of_app]%elem_of_cons.
  - by rewrite Hj, Hj'.
  - by eapply IHl.
  - by eapply IHr.
Qed.

Lemma other_ptr t d c j b k p : NoDup (ptrs (fill t (F d c j b :: k))) -> ptr t = Some p -> ptr b <> Some p.
Proof.
  rewrite ptrs_fill, cptrs_cons. intros (_ & Hd & _)%NoDup_app Ht Hb. apply ptr_in in Ht, Hb.
  apply (Hd p); [done|]. set_solver.
Qed.

(** Which child of its parent a node is. *)
Lemma child_side d c j b k t p q :
  NoDup (ptrs (fill t (F d c j b :: k))) -> ptr t = Some p ->
  bool_decide (child q (mk_node d (cpar k) (Some p) (ptr b) j c) = Some p) = Bool.eqb q d.
Proof.
  intros Hn Ht. pose proof (other_ptr _ _ _ _ _ _ _ Hn Ht) as Hb.
  destruct q, d; simpl; (rewrite bool_decide_true by done) || (rewrite bool_decide_false by done); done.
Qed.

Lemma length_ptrs_fill t k : length (ptrs (fill t k)) = (length (ptrs t) + length (cptrs k))%nat.
Proof. rewrite ptrs_fill. apply length_app. Qed.

Lemma length_cptrs k : (length k <= length (cptrs k))%nat.
Proof. induction k as [|[d c j s] k IH]; [simpl; lia|]. rewrite cptrs_cons. simpl. rewrite length_app. lia. Qed.

(** The search of [descend] on abstract trees, and its last step. *)
Fixpoint go (f : C -> Z) t k : tree_of C * list (frame C) :=
  match t with
  | E => (E, k)
  | N c j l r =>
      if f (iv j) =? 0 then (t, k)
      else if 0 <? f (iv j) then go f r (F true c j l :: k) else go f l (F false c j r :: k)
  end.

(** The height, at most the number of nodes. *)
Fixpoint height t : nat := match t with E => O | N _ _ l r => S (Nat.max (height l) (height r)) end.

Lemma height_ptrs t : (height t <= length (ptrs t))%nat.
Proof.
  unfold ptrs. rewrite length_map. induction t as [|c j l IHl r IHr]; simpl; [lia|]. rewrite length_app. simpl. lia.
Qed.

Definition side k : bool := match k with [] => false | f :: _ => fd f end.

Lemma fill_go f t k : fill (fst (go f t k)) (snd (go f t k)) = fill t k.
Proof.
  revert k. induction t as [|c j l IHl r IHr]; intros k; [done|]. simpl.
  destruct (f (iv j) =? 0); [done|]. destruct (0 <? f (iv j)); [by rewrite IHr|by rewrite IHl].
Qed.

End Memory.

Create Rewrite HintDb node.
#[export] Hint Rewrite @child_mk @child_mk_negb @parent_mk @red_mk @content_mk @nsize_mk
  @set_child_mk @set_child_mk_negb @set_parent_mk @set_red_mk @set_content_mk @ptr_Nd @Bool.negb_involutive : node.

(** ** The state around the tree of an index

    [ok s t]: the state [s] is the tree [t] of the index [i], the other nodes [X], the rest
    [tr] of the tree, and the future [ml] of [malloc]. *)
Section Steps.
Context {C K : Type}.

(** The tree with the root of an index replaced. *)
Definition with_root (i : nat) (r : option positive) (tr : Tree C K) : Tree C K :=
  match index tr !! i with
  | Some x => set_indices (<[i := mkIndex r (compare x)]> (index tr)) tr
  | None => tr
  end.

Record ok (i : nat) (X : gmap positive (Node C)) (tr : Tree C K) (ml : list bool) (s : TS C K) (t : tree_of C) : Prop := {
  ok_tree : tree s = with_root i (ptr t) tr;
  ok_mallocs : mallocs s = ml;
  ok_rep : rep (nodes s) None t;
  ok_nodup : NoDup (ptrs t);
  ok_dom : forall q, q ∈ ptrs t -> X !! q = None;
  ok_rest : forall q, q ∉ ptrs t -> nodes s !! q = X !! q
}.

(** The tree has the index, with its function of comparison. *)
Class HasIndex (i : nat) (tr : Tree C K) (x : Index C K) : Prop := has_index : index tr !! i = Some x.

Lemma with_root_index i r tr x : index tr !! i = Some x -> index (with_root i r tr) !! i = Some (mkIndex r (compare x)).
Proof. intros H. unfold with_root. rewrite H. simpl. apply list_lookup_insert_eq. by eapply lookup_lt_Some. Qed.

Lemma with_root_twice i r r' tr : with_root i r (with_root i r' tr) = with_root i r tr.
Proof.
  unfold with_root at 1. destruct (index tr !! i) as [x|] eqn:E.
  - rewrite (with_root_index i r' tr x E). unfold with_root. rewrite E. cbn -[insert]. unfold set_indices. cbn -[insert]. by rewrite list_insert_insert_eq.
  - unfold with_root. by rewrite E, E.
Qed.

Lemma with_root_tree i r r' tr x :
  index tr !! i = Some x ->
  set_indices (<[i := mkIndex r (compare x)]> (index (with_root i r' tr))) (with_root i r' tr) = with_root i r tr.
Proof. intros H. rewrite <- (with_root_twice i r r' tr). unfold with_root at 3. by rewrite (with_root_index i r' tr x H). Qed.

Context {i : nat} {X : gmap positive (Node C)} {tr : Tree C K} {ml : list bool} {x : Index C K} {Hx : HasIndex i tr x}.
Implicit Types (t a b : tree_of C) (k : list (frame C)).
Abbreviation OK := (ok i X tr ml).

(** [runs t m a t']: from a state whose tree is [t] the computation gives [a] and a state
    whose tree is [t'], and changes nothing else. *)
Definition runs {A} t (m : SM (TS C K) A) (a : A) t' : Prop :=
  forall s, OK s t -> exists s', m s = Ok (a, s') /\ OK s' t'.

Lemma runs_ret {A} t (a : A) : runs t (mret a) a t.
Proof. intros s H. by exists s. Qed.

Lemma runs_bind {A B} t1 t2 t3 (m : SM (TS C K) A) (f : A -> SM (TS C K) B) u v :
  runs t1 m u t2 -> runs t2 (f u) v t3 -> runs t1 (m ≫= f) v t3.
Proof.
  intros H1 H2 s H. destruct (H1 s H) as (s1 & E1 & O1). destruct (H2 s1 O1) as (s2 & E2 & O2).
  exists s2. split; [|done]. by rewrite (sm_bind_run _ _ _ _ _ E1).
Qed.

Lemma runs_deref t p : runs t (deref (Some p)) p t.
Proof. apply runs_ret. Qed.

Lemma runs_get {A} t (f : TS C K -> A) (v : A) : (forall s, OK s t -> f s = v) -> runs t (sm_gets f) v t.
Proof. intros H s Hs. exists s. split; [|done]. unfold sm_gets. by rewrite (H s Hs). Qed.

(** *** Reading *)

Lemma ok_lookup s d c j a b k :
  OK s (fill (Nd d c j a b) k) -> nodes s !! ip j = Some (mk_node d (cpar k) (ptr a) (ptr b) j c).
Proof. intros H. pose proof (ok_rep _ _ _ _ _ _ H) as Hr. apply rep_fill in Hr as [Hr _]. by apply rep_Nd in Hr as [? _]. Qed.

Lemma runs_node_at d c j a b k :
  runs (fill (Nd d c j a b) k) (node_at (ip j)) (mk_node d (cpar k) (ptr a) (ptr b) j c) (fill (Nd d c j a b) k).
Proof. intros s H. exists s. split; [|done]. unfold node_at, sm_gets, mbind, sm_bind. by rewrite (ok_lookup _ _ _ _ _ _ _ H). Qed.

(** The node above. *)
Lemma runs_node_above t d c j b k :
  runs (fill t (F d c j b :: k)) (node_at (ip j)) (mk_node d (cpar k) (ptr t) (ptr b) j c) (fill t (F d c j b :: k)).
Proof. apply (runs_node_at d c j t b k). Qed.

(** A node that is not of the tree. *)
Lemma ok_outside s t p n : OK s t -> X !! p = Some n -> nodes s !! p = Some n.
Proof.
  intros H Hp. rewrite (ok_rest _ _ _ _ _ _ H); [done|]. intros Hin. by rewrite (ok_dom _ _ _ _ _ _ H) in Hp.
Qed.

Lemma runs_outside t p n : X !! p = Some n -> runs t (node_at p) n t.
Proof. intros Hp s H. exists s. split; [|done]. unfold node_at, sm_gets, mbind, sm_bind. by rewrite (ok_outside _ _ _ _ H Hp). Qed.

Lemma runs_isRed t k : runs (fill t k) (isRed (ptr t)) (is_red t) (fill t k).
Proof.
  destruct t as [|c j l r]; [apply runs_ret|]. simpl ptr. simpl isRed.
  eapply runs_bind; [apply (runs_node_at LEFT c j l r k)|]. rewrite red_mk. apply runs_ret.
Qed.

Lemma runs_isBlack t k : runs (fill t k) (isBlack (ptr t)) (negb (is_red t)) (fill t k).
Proof.
  destruct t as [|c j l r]; [apply runs_ret|]. simpl ptr. simpl isBlack.
  eapply runs_bind; [apply (runs_node_at LEFT c j l r k)|]. rewrite red_mk. apply runs_ret.
Qed.

Lemma runs_get_root t : runs t (get_root i) (ptr t) t.
Proof.
  intros s H. exists s. split; [|done]. unfold get_root, get_index, sm_gets, mbind, sm_bind, mret, sm_ret.
  by rewrite (ok_tree _ _ _ _ _ _ H), (with_root_index i _ tr x Hx).
Qed.

(** The nodes are at least those of the tree. *)
Lemma ok_size s t : OK s t -> (length (ptrs t) <= size (nodes s))%nat.
Proof.
  intros H. rewrite <- (size_dom (D:=gset positive)), <- (size_list_to_set (C:=gset positive) (ptrs t)) by apply (ok_nodup _ _ _ _ _ _ H).
  apply subseteq_size. intros p Hp. apply elem_of_list_to_set in Hp. apply elem_of_dom.
  eapply rep_in; [apply (ok_rep _ _ _ _ _ _ H)|done].
Qed.

(** *** Writing *)

(** The state after the nodes of the tree have been written. *)
Lemma ok_write s t t' h :
  OK s t -> infos t' = infos t \/ ptrs t' = ptrs t -> ptr t' = ptr t -> rep h None t' ->
  (forall q, q ∉ ptrs t -> h !! q = nodes s !! q) -> OK (set_nodes h s) t'.
Proof.
  intros [Ht Hm Hr Hn Hd Ho] Hi Hp Hh Hq. assert (Hpt : ptrs t' = ptrs t). { destruct Hi as [Hi|Hi]; [|done]. unfold ptrs. by rewrite Hi. }
  split; cbn; rewrite ?Hpt, ?Hp; try done. intros q Hnq. rewrite Hq by done. by apply Ho.
Qed.

(** A node written that keeps its children and its parent. *)
Lemma runs_upd d c j a b k c' j' f :
  ip j' = ip j ->
  f (mk_node d (cpar k) (ptr a) (ptr b) j c) = mk_node d (cpar k) (ptr a) (ptr b) j' c' ->
  runs (fill (Nd d c j a b) k) (upd (ip j) f) () (fill (Nd d c' j' a b) k).
Proof.
  intros Hj Hf s H. exists (set_nodes (<[ip j := f (mk_node d (cpar k) (ptr a) (ptr b) j c)]> (nodes s)) s). split.
  { unfold upd. rewrite (sm_bind_run _ _ s (mk_node d (cpar k) (ptr a) (ptr b) j c) s); [done|].
    unfold node_at, sm_gets, mbind, sm_bind. by rewrite (ok_lookup _ _ _ _ _ _ _ H). }
  pose proof (ok_nodup _ _ _ _ _ _ H) as Hn. rewrite ptrs_fill, ptrs_Nd in Hn. simpl in Hn. apply NoDup_cons in Hn as [Hnin _].
  rewrite Hf. eapply ok_write; [done| | | |].
  - right. unfold ptrs. rewrite !infos_fill, !map_app, !infos_Nd. destruct d; rewrite !map_app; simpl; by rewrite Hj.
  - apply ptr_fill_eq. rewrite !ptr_Nd. by rewrite Hj.
  - pose proof (ok_rep _ _ _ _ _ _ H) as Hr. apply rep_fill in Hr as [Hr Hc]. apply rep_Nd in Hr as (_ & Ha & Hb).
    apply rep_fill. rewrite ptr_Nd in *. rewrite rep_Nd, Hj. split; [split; [by rewrite lookup_insert_eq|split; apply rep_store; [set_solver|done|set_solver|done]]|].
    apply rep_ctx_insert; [set_solver|done].
  - intros q Hq. apply lookup_insert_ne. intros <-. apply Hq. rewrite ptrs_fill, ptrs_Nd. set_solver.
Qed.

Lemma runs_set_red t k c : t <> E -> runs (fill t k) (p ← deref (ptr t); upd p (set_red c)) () (fill (match t with E => E | N _ j l r => N c j l r end) k).
Proof.
  destruct t as [|c0 j l r]; [done|]. intros _. eapply runs_bind; [apply runs_deref|].
  apply (runs_upd LEFT c0 j l r k c j); [done|]. by rewrite set_red_mk.
Qed.

(** *** Rotations *)

(** One write at a time, on the nodes alone. *)
Lemma upd_run (s : TS C K) p n f :
  nodes s !! p = Some n -> upd p f s = Ok ((), set_nodes (<[p := f n]> (nodes s)) s).
Proof. intros H. unfold upd, node_at, sm_gets, mbind, sm_bind. by rewrite H. Qed.

Lemma node_at_run (s : TS C K) p n : nodes s !! p = Some n -> node_at p s = Ok (n, s).
Proof. intros H. unfold node_at, sm_gets, mbind, sm_bind. by rewrite H. Qed.

Lemma reparent_run (s : TS C K) par par' t :
  rep (nodes s) par t ->
  match ptr t with Some q => upd q (set_parent par') | None => mret () end s =
  Ok ((), set_nodes (reparent (nodes s) par' t) s).
Proof.
  destruct t as [|c j l r]; [by destruct s|]. intros (Hj & _ & _). 
  change (upd (ip j) (set_parent par') s = Ok ((), set_nodes (reparent (nodes s) par' (N c j l r)) s)).
  by rewrite (upd_run _ _ _ _ Hj).
Qed.

(** The tree with the root of the place, when it is the whole of it. *)
Definition root_of (r : option positive) k (t : Tree C K) : Tree C K :=
  match k with [] => with_root i r tr | _ => t end.

Lemma root_of_fill t t' k : root_of (ptr t') k (with_root i (ptr (fill t k)) tr) = with_root i (ptr (fill t' k)) tr.
Proof. destruct k as [|f k]; [done|]. unfold root_of. by rewrite (ptr_fill_cons t t'). Qed.

Lemma set_root_run (s : TS C K) r r' : tree s = with_root i r tr -> set_root i r' s = Ok ((), set_tree (with_root i r' tr) s).
Proof.
  intros H. unfold set_root, get_index, sm_gets, mbind, sm_bind, mret, sm_ret, sm_modify.
  rewrite H, (with_root_index i _ tr x Hx). rewrite H. cbn [compare]. by rewrite (with_root_tree i r' r tr x Hx).
Qed.

(** The parent of the root of a place gets another child. *)
Lemma rehole_run (s : TS C K) p p' r0 k d :
  tree s = with_root i r0 tr -> rep_ctx (nodes s) (Some p) k -> p ∉ cptrs k ->
  match cpar k with
  | None => set_root i p'
  | Some pp =>
      m ← node_at pp;
      if bool_decide (child d m = Some p) then upd pp (set_child d p') else upd pp (set_child (negb d) p')
  end s = Ok ((), set_nodes (rehole (nodes s) p' k) (set_tree (root_of p' k (tree s)) s)).
Proof.
  destruct k as [|[d' c j u] k]; simpl; intros Ht Hk Hp.
  - rewrite (set_root_run s r0 p' Ht). by destruct s.
  - destruct Hk as (Hj & Hu & Hk). rewrite (sm_bind_run _ _ _ _ _ (node_at_run _ _ _ Hj)).
    assert (Hpu : ptr u <> Some p). { intros Hu'. apply Hp. rewrite cptrs_cons. apply ptr_in in Hu'. set_solver. }
    destruct (decide (d' = d)) as [->|Hd].
    + rewrite child_mk, bool_decide_true by done. rewrite (upd_run _ _ _ _ Hj), set_child_mk. by destruct s.
    + assert (d = negb d') as -> by (by destruct d, d'). rewrite child_mk_negb, bool_decide_false by done.
      rewrite (upd_run _ _ _ _ Hj), Bool.negb_involutive, set_child_mk. by destruct s.
Qed.

(** What is known of the addresses is enough. *)
Ltac sep :=
  repeat match goal with
         | H : ?T |- _ =>
             lazymatch T with
             | context [_ <-> _] => clear H
             | context [@elem_of] => fail
             | _ <> _ => fail
             | _ => clear H
             end
         end;
  set_solver.

(** The writes of a rotation, in order. *)
Lemma rotate_run s d cx jx a cy jy b c k :
  OK s (fill (Nd d cx jx a (Nd d cy jy b c)) k) ->
  let h1 := <[ip jx := mk_node d (cpar k) (ptr a) (ptr b) jx cx]> (nodes s) in
  let h2 := reparent h1 (Some (ip jx)) b in
  let h3 := <[ip jy := mk_node d (cpar k) (ptr b) (ptr c) jy cy]> h2 in
  let h4 := rehole h3 (Some (ip jy)) k in
  let h5 := <[ip jy := mk_node d (cpar k) (Some (ip jx)) (ptr c) jy cy]> h4 in
  let h6 := <[ip jx := mk_node d (Some (ip jy)) (ptr a) (ptr b) jx cx]> h5 in
  TreeRotate (ip jx) d i s = Ok ((), set_nodes h6 (set_tree (root_of (Some (ip jy)) k (tree s)) s)).
Proof.
  intros H. pose proof (ok_nodup _ _ _ _ _ _ H) as Hn. apply rotate_nodup in Hn.
  apply NoDup_cons in Hn as [Hnx Hn]. apply NoDup_cons in Hn as [Hny Hn].
  apply NoDup_app in Hn as (Hna & Hda & Hn). apply NoDup_app in Hn as (Hnb & Hdb & Hn).
  pose proof (ok_rep _ _ _ _ _ _ H) as Hr. apply rep_fill in Hr as [Hr Hk]. apply rep_Nd in Hr as (Hjx & Ha & Hr).
  rewrite ptr_Nd in Hk. rewrite ptr_Nd in Hjx. apply rep_Nd in Hr as (Hjy & Hb & Hc). intros h1 h2 h3 h4 h5 h6.
  assert (Hne : ip jx <> ip jy) by sep.
  assert (H2x : h2 !! ip jx = Some (mk_node d (cpar k) (ptr a) (ptr b) jx cx)).
  { unfold h2. rewrite reparent_out by sep. apply lookup_insert_eq. }
  assert (H2y : h2 !! ip jy = Some (mk_node d (Some (ip jx)) (ptr b) (ptr c) jy cy)).
  { unfold h2. rewrite reparent_out by sep. unfold h1. by rewrite lookup_insert_ne. }
  assert (H4y : h4 !! ip jy = Some (mk_node d (cpar k) (ptr b) (ptr c) jy cy)).
  { unfold h4. rewrite rehole_out by sep. apply lookup_insert_eq. }
  assert (H4x : h4 !! ip jx = h2 !! ip jx).
  { unfold h4. rewrite rehole_out by sep. by apply lookup_insert_ne. }
  assert (Hk3 : rep_ctx h3 (Some (ip jx)) k).
  { apply (rep_ctx_ext (nodes s)); [|done]. intros q Hq. unfold h3, h2, h1.
    rewrite lookup_insert_ne, reparent_out, lookup_insert_ne; sep. }
  unfold TreeRotate. rewrite (sm_bind_run _ _ _ _ _ (node_at_run _ _ _ Hjx)), child_mk_negb.
  rewrite (sm_bind_run _ _ s (ip jy) s) by done. rewrite (sm_bind_run _ _ _ _ _ (node_at_run _ _ _ Hjy)), child_mk.
  rewrite (sm_bind_run _ _ _ _ _ (upd_run _ _ _ _ Hjx)), set_child_mk_negb. fold h1.
  assert (Hb1 : rep h1 (Some (ip jy)) b) by (apply rep_store; [sep|done]).
  rewrite (sm_bind_run _ _ _ _ _ (reparent_run (set_nodes h1 s) (Some (ip jy)) (Some (ip jx)) b Hb1)). fold h2.
  rewrite (sm_bind_run _ _ _ _ _ (node_at_run (set_nodes h2 _) _ _ H2x)), parent_mk.
  rewrite (sm_bind_run _ _ _ _ _ (upd_run (set_nodes h2 _) _ _ _ H2y)), set_parent_mk. fold h3.
  rewrite (sm_bind_run _ _ _ _ _ (rehole_run (set_nodes h3 s) (ip jx) (Some (ip jy)) _ k d (ok_tree _ _ _ _ _ _ H) Hk3 ltac:(sep))).
  fold h4.
  rewrite (sm_bind_run _ _ _ _ _ (upd_run (set_nodes h4 _) _ _ _ H4y)), set_child_mk. fold h5.
  rewrite (upd_run (set_nodes h5 _) (ip jx) (mk_node d (cpar k) (ptr a) (ptr b) jx cx)), set_parent_mk; [done|].
  cbn. unfold h5. rewrite lookup_insert_ne by done. by rewrite H4x.
Qed.


Lemma runs_rotate d cx jx a cy jy b c k :
  runs (fill (Nd d cx jx a (Nd d cy jy b c)) k) (TreeRotate (ip jx) d i) ()
    (fill (Nd d cy jy (Nd d cx jx a b) c) k).
Proof.
  intros s H. eexists. split; [by apply rotate_run|].
  pose proof (ok_nodup _ _ _ _ _ _ H) as Hn0. pose proof (rotate_nodup _ _ _ _ _ _ _ _ _ Hn0) as Hn.
  assert (Hp : ptrs (fill (Nd d cy jy (Nd d cx jx a b) c) k) = ptrs (fill (Nd d cx jx a (Nd d cy jy b c)) k)).
  { apply ptrs_fill_eq. destruct d; simpl; rewrite <- ?app_assoc; simpl; by rewrite <- ?app_assoc. }
  assert (Hin : forall q, q ∈ ptrs (fill (Nd d cx jx a (Nd d cy jy b c)) k) <->
    q = ip jx \/ q = ip jy \/ q ∈ ptrs a \/ q ∈ ptrs b \/ q ∈ ptrs c \/ q ∈ cptrs k).
  { intros q. rewrite ptrs_fill, ptrs_Nd, ptrs_Nd. sep. }
  apply NoDup_cons in Hn as [Hnx Hn]. apply NoDup_cons in Hn as [Hny Hn].
  apply NoDup_app in Hn as (Hna & Hda & Hn). apply NoDup_app in Hn as (Hnb & Hdb & Hn).
  apply NoDup_app in Hn as (Hnc & Hdc & Hnk).
  pose proof (ok_rep _ _ _ _ _ _ H) as Hr. apply rep_fill in Hr as [Hr Hk]. apply rep_Nd in Hr as (Hjx & Ha & Hr).
  rewrite ptr_Nd in Hk. rewrite ptr_Nd in Hjx. apply rep_Nd in Hr as (Hjy & Hb & Hc).
  assert (Hne : ip jx <> ip jy) by sep.
  split; rewrite ?Hp; cbn -[TreeRotate].
  - rewrite (ok_tree _ _ _ _ _ _ H).
    rewrite <- (root_of_fill (Nd d cx jx a (Nd d cy jy b c)) (Nd d cy jy (Nd d cx jx a b) c) k). by rewrite ptr_Nd.
  - apply (ok_mallocs _ _ _ _ _ _ H).
  - apply rep_fill. rewrite rep_Nd, rep_Nd, !ptr_Nd.
    rewrite lookup_insert_ne, lookup_insert_eq, lookup_insert_eq by done. repeat split.
    + apply (rep_ext (nodes s)); [|done]. intros q Hq.
      rewrite !lookup_insert_ne, rehole_out, lookup_insert_ne, reparent_out, lookup_insert_ne; sep.
    + apply (rep_ext (reparent (<[ip jx := mk_node d (cpar k) (ptr a) (ptr b) jx cx]> (nodes s)) (Some (ip jx)) b)).
      { intros q Hq. rewrite !lookup_insert_ne, rehole_out, lookup_insert_ne; sep. }
      apply (reparent_rep _ (Some (ip jy))); [done|]. apply rep_store; [sep|done].
    + apply (rep_ext (nodes s)); [|done]. intros q Hq.
      rewrite !lookup_insert_ne, rehole_out, lookup_insert_ne, reparent_out, lookup_insert_ne; sep.
    + apply rep_ctx_insert; [sep|]. apply rep_ctx_insert; [sep|].
      apply (rehole_rep _ (Some (ip jx))); [done|]. apply (rep_ctx_ext (nodes s)); [|done]. intros q Hq.
      rewrite lookup_insert_ne, reparent_out, lookup_insert_ne; sep.
  - apply (ok_nodup _ _ _ _ _ _ H).
  - apply (ok_dom _ _ _ _ _ _ H).
  - intros q Hq. rewrite <- (ok_rest _ _ _ _ _ _ H) by done. rewrite Hin in Hq.
    rewrite !lookup_insert_ne, rehole_out, lookup_insert_ne, reparent_out, lookup_insert_ne; sep.
Qed.

End Steps.

End TreeShapes.
