(* ===== verification/TreeRuns.v ===== *)
(** * What the operations on red-black trees do to the tree

    Every operation of [Trees] computes, on the tree that the nodes in memory form, the
    function of [TreeShapes]: insertion and removal end, make no access that is not
    allowed, and change nothing but the tree of the index, whatever the colours are. *)

From S2P Require Import Prelude.
From S2P Require Import Trees.
From S2P Require Import TreeShapes.
From Stdlib Require Import ZArith Lia List.
From stdpp Require Import base numbers list gmap.

Open Scope Z_scope.

Module TreeRuns.
Import Trees TreeShapes.

#[export] Hint Mode HasIndex - - - ! - : typeclass_instances.

Section Runs.
Context {C K : Type}.
Context {i : nat} {X : gmap positive (Node C)} {tr : Tree C K} {ml : list bool} {x : Index C K} {Hx : HasIndex i tr x}.
Implicit Types (t a b : tree_of C) (k : list (frame C)).
Abbreviation OK := (ok i X tr ml).
Abbreviation runs := (TreeShapes.runs (i:=i) (X:=X) (tr:=tr) (ml:=ml)).

(** The tree determines the state. *)
Lemma ok_unique s s' t : OK s t -> OK s' t -> s = s'.
Proof.
  intros [T1 M1 R1 N1 D1 O1] [T2 M2 R2 N2 D2 O2]. destruct s as [h1 t1 m1], s' as [h2 t2 m2]. simpl in *.
  f_equal; [|congruence|congruence]. apply map_eq. intros q. destruct (decide (q ∈ ptrs t)) as [H|H].
  - by eapply rep_same.
  - by rewrite O1, O2.
Qed.

(** A computation that leaves the tree leaves the state. *)
Lemma runs_read {A} t (m : SM (TS C K) A) u s : runs t m u t -> OK s t -> m s = Ok (u, s).
Proof. intros H Hs. destruct (H s Hs) as (s' & E & Hs'). rewrite <- (ok_unique _ _ _ Hs Hs') in E. done. Qed.

(** *** Rebalancing after an insertion *)

Lemma runs_rotate_negb d cx jx a cy jy b c k :
  runs (fill (Nd d cx jx (Nd d cy jy c b) a) k) (TreeRotate (ip jx) (negb d) i) ()
    (fill (Nd d cy jy c (Nd d cx jx b a)) k).
Proof. rewrite <- (Nd_negb d cx), <- (Nd_negb d cy), <- (Nd_negb d cy), <- (Nd_negb d cx). apply runs_rotate. Qed.

(** One step of a computation whose first part is known by the lemma [L]. *)
Tactic Notation "step" uconstr(L) := eapply runs_bind; [eapply L|autorewrite with node; cbn [cpar fi]].

(** The same tree seen from another of its nodes. *)
Tactic Notation "view" uconstr(t) :=
  lazymatch goal with |- TreeShapes.runs _ ?m ?u ?t' => change (runs t m u t') end.

(** A node above is made red or black. *)
Lemma runs_colour t d c j b k c' :
  runs (fill t (F d c j b :: k)) (upd (ip j) (set_red c')) () (fill t (F d c' j b :: k)).
Proof. apply (runs_upd d c j t b k c' j); [done|]. by rewrite set_red_mk. Qed.

(** The other child of a node above. *)
Lemma runs_colour_other t d c j b k c' q :
  ptr b = Some q ->
  runs (fill t (F d c j b :: k)) (upd q (set_red c')) ()
    (fill t (F d c j (match b with E => E | N _ jb l r => N c' jb l r end) :: k)).
Proof.
  destruct b as [|cb jb l r]; [done|]. intros [= <-].
  pose proof (runs_upd (i:=i) (X:=X) (tr:=tr) (ml:=ml) LEFT cb jb l r (F (negb d) c j t :: k) c' jb (set_red c') eq_refl) as H.
  rewrite set_red_mk in H. specialize (H eq_refl). simpl in H. by destruct d.
Qed.

Lemma runs_isRed_other t d c j b k :
  runs (fill t (F d c j b :: k)) (isRed (ptr b)) (is_red b) (fill t (F d c j b :: k)).
Proof. pose proof (runs_isRed (i:=i) (X:=X) (tr:=tr) (ml:=ml) b (F (negb d) c j t :: k)) as H. simpl in *. by destruct d. Qed.

(** The uncle is red: the colours change, and the grandparent is the next node. *)
Lemma runs_BAASub_red cx jx l r dp cp j s dg cg g u k :
  is_red u = true ->
  runs (fill (N cx jx l r) (F dp cp j s :: F dg cg g u :: k)) (TreeBAASub (ip jx) (negb dg) i) (ip g)
    (fill (Nd dg true g (Nd dp false j (N cx jx l r) s) (black u)) k).
Proof.
  destruct u as [|cu ju lu ru]; [done|]. intros Hu. unfold TreeBAASub.
  step (runs_node_at LEFT cx jx l r). step runs_deref. step runs_node_above. step runs_deref.
  step (runs_node_above (Nd dp cp j (N cx jx l r) s)). step (runs_isRed_other (Nd dp cp j (N cx jx l r) s)). rewrite Hu.
  step runs_deref. step (runs_colour (N cx jx l r) dp cp j s (F dg cg g (N cu ju lu ru) :: k)). step (runs_colour_other (Nd dp false j (N cx jx l r) s)); [done|].
  step (runs_colour (Nd dp false j (N cx jx l r) s)). apply runs_ret.
Qed.

(** The uncle is black and the node is on the outside. *)
Lemma runs_BAASub_outer cx jx l r cp j s dg cg g u k :
  is_red u = false -> ptr s <> Some (ip jx) ->
  runs (fill (N cx jx l r) (F dg cp j s :: F dg cg g u :: k)) (TreeBAASub (ip jx) (negb dg) i) (ip jx)
    (fill (Nd dg false j (N cx jx l r) (Nd dg true g s u)) k).
Proof.
  intros Hu Hs. unfold TreeBAASub.
  step (runs_node_at LEFT cx jx l r). step runs_deref. step runs_node_above. step runs_deref.
  step (runs_node_above (Nd dg cp j (N cx jx l r) s)). step (runs_isRed_other (Nd dg cp j (N cx jx l r) s)). rewrite Hu.
  rewrite bool_decide_false by done. step runs_ret.
  view (fill (N cx jx l r) (F dg cp j s :: F dg cg g u :: k)).
  step (runs_node_at LEFT cx jx l r). step runs_deref. step (runs_colour (N cx jx l r) dg cp j s (F dg cg g u :: k)).
  step runs_node_above. step runs_deref.
  step (runs_colour (Nd dg false j (N cx jx l r) s)). 
  view (fill (Nd dg true g (Nd dg false j (N cx jx l r) s) u) k). step runs_rotate_negb. apply runs_ret.
Qed.

(** The uncle is black and the node is on the inside. *)
Lemma runs_BAASub_inner cx jx l r cp j s dg cg g u k :
  is_red u = false ->
  runs (fill (N cx jx l r) (F (negb dg) cp j s :: F dg cg g u :: k)) (TreeBAASub (ip jx) (negb dg) i) (ip j)
    (fill (Nd dg false jx (Nd dg cp j s (pick dg l r)) (Nd dg true g (pick (negb dg) l r) u)) k).
Proof.
  intros Hu. unfold TreeBAASub.
  step (runs_node_at LEFT cx jx l r). step runs_deref. step runs_node_above. step runs_deref.
  step (runs_node_above (Nd (negb dg) cp j (N cx jx l r) s)).
  step (runs_isRed_other (Nd (negb dg) cp j (N cx jx l r) s)). rewrite Hu.
  rewrite bool_decide_true by done. rewrite (Nd_pick dg cx), Nd_negb.
  set (a := pick dg l r). set (b := pick (negb dg) l r).
  view (fill (Nd dg cp j s (Nd dg cx jx a b)) (F dg cg g u :: k)).
  eapply runs_bind. { eapply runs_bind; [apply runs_rotate|apply runs_ret]. }
  view (fill (Nd dg cp j s a) (F dg cx jx b :: F dg cg g u :: k)).
  step runs_node_at. step runs_deref. step (runs_colour (Nd dg cp j s a) dg cx jx b (F dg cg g u :: k)).
  step runs_node_above. step runs_deref. 
  step (runs_colour (Nd dg false jx (Nd dg cp j s a) b) dg cg g u k).
  view (fill (Nd dg true g (Nd dg false jx (Nd dg cp j s a) b) u) k). step runs_rotate_negb. apply runs_ret.
Qed.

(** The addresses of a tree in memory are different. *)
Lemma runs_nodup {A} t (m : SM (TS C K) A) u t' : (NoDup (ptrs t) -> runs t m u t') -> runs t m u t'.
Proof. intros H s Hs. by apply H; [apply (ok_nodup _ _ _ _ _ _ Hs)|]. Qed.

(** A node whose parent is black ends the loop. *)
Lemma runs_baa_end fuel c j a b k d :
  match k with F _ true _ _ :: _ => False | _ => True end ->
  runs (fill (Nd d c j a b) k) (baa_loop (S fuel) (ip j) i) () (fill (Nd d c j a b) k).
Proof.
  intros Hk. cbn [baa_loop]. step runs_node_at. destruct k as [|[d' [] j' s'] k]; [|done|].
  - step runs_ret. apply runs_ret.
  - eapply runs_bind; [eapply runs_bind; [apply runs_node_above|apply runs_ret]|]. rewrite red_mk. apply runs_ret.
Qed.

Lemma runs_baa_loop fuel t p k :
  ptr t = Some p -> (length k < fuel)%nat ->
  runs (fill t k) (baa_loop fuel p i) () (fix_add t k).
Proof.
  revert fuel t p. remember (length k) as n eqn:En. revert k En.
  induction n as [n IH] using lt_wf_ind. intros k -> fuel [|cx jx l r] p Hp Hf; [done|].
  injection Hp as <-. destruct fuel as [|fuel]; [lia|].
  destruct k as [|[dp [] j s] k1]; [by apply (runs_baa_end fuel cx jx l r [] LEFT)| |by apply (runs_baa_end fuel cx jx l r _ LEFT)].
  destruct k1 as [|[dg cg g u] k'].
  { cbn [baa_loop]. step (runs_node_at LEFT cx jx l r). eapply runs_bind; [eapply runs_bind; [apply runs_node_above|apply runs_ret]|].
    rewrite red_mk. step runs_deref. step runs_node_above. apply runs_ret. }
  apply runs_nodup. intros Hn. cbn [baa_loop]. step (runs_node_at LEFT cx jx l r).
  eapply runs_bind; [eapply runs_bind; [apply runs_node_above|apply runs_ret]|].
  rewrite red_mk. step runs_deref. step runs_node_above. step (runs_node_above (Nd dp true j (N cx jx l r) s)).
  rewrite (child_side dg cg g u k' (Nd dp true j (N cx jx l r) s) (ip j) LEFT Hn) by apply ptr_Nd.
  replace (Bool.eqb LEFT dg) with (negb dg) by (by destruct dg).
  simpl fix_add. destruct (is_red u) eqn:Hu.
  - eapply runs_bind; [by apply runs_BAASub_red|].
    apply (IH (length k')); simpl in *; [lia|done|apply ptr_Nd|lia].
  - destruct (Bool.eqb dp dg) eqn:Ed.
    + apply Bool.eqb_prop in Ed as ->. assert (Hs : ptr s <> Some (ip jx)) by (eapply (other_ptr (N cx jx l r)); [exact Hn|done]).
      eapply runs_bind; [by apply runs_BAASub_outer|]. destruct fuel as [|fuel]; [simpl in Hf; lia|].
      by apply (runs_baa_end fuel cx jx l r (F dg false j (Nd dg true g s u) :: k') LEFT).
    + assert (dp = negb dg) as -> by (by destruct dp, dg).
      eapply runs_bind; [by apply runs_BAASub_inner|]. destruct fuel as [|fuel]; [simpl in Hf; lia|].
      by apply (runs_baa_end fuel true j s (pick dg l r) (F dg false jx (Nd dg true g (pick (negb dg) l r) u) :: k') dg).
Qed.

(** The loops have as many turns as there are nodes. *)
Lemma runs_nodes {A} t (f : gmap positive (Node C) -> SM (TS C K) A) u t' :
  (forall h, (length (ptrs t) <= size h)%nat -> runs t (f h) u t') -> runs t (h ← sm_gets nodes; f h) u t'.
Proof. intros H s Hs. apply (H (nodes s)); [by eapply ok_size|done]. Qed.

(** [TreeBalanceAfterAdd] *)
Lemma runs_BalanceAfterAdd t p k :
  ptr t = Some p -> runs (fill t k) (TreeBalanceAfterAdd p i) () (black (fix_add t k)).
Proof.
  intros Hp. apply runs_nodes. intros h Hh. rewrite length_ptrs_fill in Hh. pose proof (length_cptrs k) as Hk.
  eapply runs_bind; [apply (runs_baa_loop _ t p); [done|lia]|]. step runs_get_root.
  destruct (fix_add t k) as [|c j l r] eqn:E.
  { exfalso. pose proof (infos_fix_add t k) as Hi. rewrite E, infos_fill in Hi. destruct t; [done|]. simpl in Hi. by destruct (before k), (infos t1). }
  step runs_deref. apply (runs_upd LEFT c j l r [] false j); [done|]. by rewrite set_red_mk.
Qed.

(** *** Searches *)

Lemma runs_compare t f c (key : K + C) : compare x = Some f -> runs t (call_compare i (Some c) key) (f c key) t.
Proof.
  intros Hf s Hs. exists s. split; [|done]. unfold call_compare, get_index, sm_gets, mbind, sm_bind, mret, sm_ret.
  rewrite (ok_tree _ _ _ _ _ _ Hs), (with_root_index i _ tr x Hx). cbn [compare]. by rewrite Hf.
Qed.

Lemma runs_descend fuel f key t k :
  compare x = Some f -> (height t <= fuel)%nat ->
  exists (b : bool), runs (fill t k) (descend fuel i key (cpar k) (side k) (ptr t))
    (ptr (fst (go (fun c => f c key) t k)), cpar (snd (go (fun c => f c key) t k)), b) (fill t k) /\
    (fst (go (fun c => f c key) t k) = E -> b = side (snd (go (fun c => f c key) t k))).
Proof.
  intros Hf. revert fuel k. induction t as [|c j l IHl r IHr]; intros fuel k Hl.
  { exists (side k). split; [|done]. destruct fuel; apply runs_ret. }
  simpl in Hl. destruct fuel as [|fuel]; [lia|].
  assert (Hd : forall b : option positive * option positive * bool, runs (fill (N c j l r) k) (result ← call_compare i (Some (iv j)) key;
      if result =? 0 then mret (Some (ip j), cpar k, 0 <? result)
      else descend fuel i key (Some (ip j)) (0 <? result) (child (0 <? result) (mk_node LEFT (cpar k) (ptr l) (ptr r) j c)))
      b (fill (N c j l r) k) ->
    runs (fill (N c j l r) k) (descend (S fuel) i key (cpar k) (side k) (Some (ip j))) b (fill (N c j l r) k)).
  { intros b H. cbn [descend]. eapply runs_bind; [apply (runs_node_at LEFT c j l r)|]. rewrite content_mk. exact H. }
  simpl. destruct (f (iv j) key =? 0) eqn:E0.
  { exists (0 <? f (iv j) key). split; [|done]. apply Hd. eapply runs_bind; [by apply runs_compare|]. rewrite E0. apply runs_ret. }
  destruct (0 <? f (iv j) key) eqn:E1.
  - destruct (IHr fuel (F true c j l :: k) ltac:(lia)) as (b & Hr & Hb). exists b. split; [|done]. apply Hd.
    eapply runs_bind; [by apply runs_compare|]. rewrite E0, E1. exact Hr.
  - destruct (IHl fuel (F false c j r :: k) ltac:(lia)) as (b & Hr & Hb). exists b. split; [|done]. apply Hd.
    eapply runs_bind; [by apply runs_compare|]. rewrite E0, E1. exact Hr.
Qed.

Lemma runs_FindIndex1 f key t :
  compare x = Some f -> runs t (TreeFindIndex1 key i) (ptr (fst (go (fun c => f c key) t []))) t.
Proof.
  intros Hf. unfold TreeFindIndex1. step runs_get_root. apply runs_nodes. intros h Hh.
  pose proof (height_ptrs t) as Hht.
  destruct (runs_descend (size h) f key t [] Hf ltac:(lia)) as (b & H & _). eapply runs_bind; [exact H|]. apply runs_ret.
Qed.

(** The end of [TreeAddByIndex]. *)
Lemma add_finish c sz s cj j l r k :
  OK s (fill (N cj j l r) k) ->
  exists s', (upd (ip j) (set_content (Some c) sz);; TreeBalanceAfterAdd (ip j) i;; mret (Some c)) s = Ok (Some c, s') /\
    OK s' (black (fix_add (N cj (mkInfo (ip j) c sz) l r) k)).
Proof.
  intros Hs. refine (runs_bind _ _ _ _ _ _ _ _ _ s Hs).
  { apply (runs_upd LEFT cj j l r k cj (mkInfo (ip j) c sz) (set_content (Some c) sz)); [done|]. apply set_content_mk. }
  eapply runs_bind; [|apply runs_ret]. by apply runs_BalanceAfterAdd.
Qed.

Lemma attach_run (s : TS C K) p r0 k :
  tree s = with_root i r0 tr -> rep_ctx (nodes s) None k ->
  match cpar k with Some pp => upd pp (set_child (side k) p) | None => set_root i p end s =
  Ok ((), set_nodes (rehole (nodes s) p k) (set_tree (root_of (i:=i) (tr:=tr) p k (tree s)) s)).
Proof.
  destruct k as [|[d c j u] k]; simpl; intros Ht Hk.
  - rewrite (set_root_run s r0 p Ht). by destruct s.
  - destruct Hk as (Hj & Hu & Hk). rewrite (upd_run _ _ _ _ Hj), set_child_mk. by destruct s.
Qed.

(** A node attached at the place of a context. *)
Lemma ok_attach s k p c sz :
  ok i X tr ml s (fill E k) -> nodes s !! p = None ->
  let h := <[p := mkNode (cpar k) None None (Some c) sz true]> (rehole (nodes s) (Some p) k) in
  ok i X tr ml (set_nodes h (set_tree (root_of (i:=i) (tr:=tr) (Some p) k (tree s)) s)) (fill (N true (mkInfo p c sz) E E) k).
Proof.
  intros Hs Hp h. pose proof (ok_rep _ _ _ _ _ _ Hs) as Hr.
  assert (Hnin : p ∉ ptrs (fill E k)). { intros H. apply (rep_in _ _ _ _ Hr) in H as [n Hn]. congruence. }
  assert (Hpt : ptrs (fill (N true (mkInfo p c sz) E E) k) ≡ₚ p :: ptrs (fill E k)).
  { rewrite !ptrs_fill. unfold ptrs at 1. simpl. done. }
  pose proof (ok_nodup _ _ _ _ _ _ Hs) as Hn. apply rep_fill in Hr as [_ Hk].
  assert (Hc : p ∉ cptrs k) by (rewrite ptrs_fill in Hnin; set_solver).
  split; cbn; try apply Hs.
  - rewrite (ok_tree _ _ _ _ _ _ Hs). apply (root_of_fill E (N true (mkInfo p c sz) E E)).
  - apply rep_fill. simpl. unfold h. rewrite lookup_insert_eq. split; [done|]. apply rep_ctx_insert; [done|].
    apply (rehole_rep _ None); [|done]. rewrite ptrs_fill in Hn. by apply NoDup_app in Hn as (_ & _ & ?).
  - rewrite Hpt. by constructor.
  - intros q. rewrite Hpt. intros [->|Hq]%elem_of_cons; [|by apply Hs].
    by rewrite <- (ok_rest _ _ _ _ _ _ Hs).
  - intros q. rewrite Hpt, not_elem_of_cons. intros [Hq1 Hq2]. unfold h. rewrite lookup_insert_ne by done.
    rewrite rehole_out; [by apply Hs|]. rewrite ptrs_fill in Hq2. set_solver.
Qed.

End Runs.

(** ** Insertion *)
Section Insertion.
Context {C K : Type}.
Implicit Types (t a b : tree_of C) (k : list (frame C)) (tr : Tree C K).

#[export] Instance has_index_sizes i tr (x : Index C K) n z : HasIndex i tr x -> HasIndex i (set_sizes n z tr) x.
Proof. done. Qed.

Lemma with_root_sizes i r n z tr : with_root i r (set_sizes n z tr) = set_sizes n z (with_root i r tr).
Proof. unfold with_root. simpl. by destruct (index tr !! i). Qed.

Lemma ok_sizes i X tr ml (s : TS C K) t n z :
  ok i X tr ml s t -> ok i X (set_sizes n z tr) ml (set_tree (set_sizes n z (tree s)) s) t.
Proof. intros [Ht Hm Hr Hn Hd Ho]. split; try done. cbn. by rewrite with_root_sizes, Ht. Qed.

Lemma allow_duplicates_root i r tr : allow_duplicates (with_root i r tr) = allow_duplicates tr.
Proof. unfold with_root. by destruct (index tr !! i). Qed.
Lemma count_root i r tr : count (with_root i r tr) = count tr.
Proof. unfold with_root. by destruct (index tr !! i). Qed.
Lemma tsize_root i r tr : tsize (with_root i r tr) = tsize tr.
Proof. unfold with_root. by destruct (index tr !! i). Qed.
Lemma indexes_root i r tr : indexes (with_root i r tr) = indexes tr.
Proof. unfold with_root. by destruct (index tr !! i). Qed.

(** The sizes after the content of a node is replaced, and after a node is added: only the
    first index counts. *)
Definition resized (i : nat) (z : Z) tr : Tree C K :=
  if Nat.eqb i 0 then set_sizes (count tr) (to_u64 (tsize tr + to_u64 z)) tr else tr.
Definition counted (i : nat) (n z : Z) tr : Tree C K :=
  if Nat.eqb i 0 then set_sizes (to_i32 (count tr + n)) (to_u64 (tsize tr + z)) tr else tr.

#[export] Instance has_index_resized i j tr (x : Index C K) z : HasIndex i tr x -> HasIndex i (resized j z tr) x.
Proof. intros H. unfold resized. by destruct (Nat.eqb j 0). Qed.
#[export] Instance has_index_counted i j tr (x : Index C K) n z : HasIndex i tr x -> HasIndex i (counted j n z tr) x.
Proof. intros H. unfold counted. by destruct (Nat.eqb j 0). Qed.

Context {i : nat} {X : gmap positive (Node C)} {tr : Tree C K} {ml : list bool} {x : Index C K} {Hx : HasIndex i tr x}.

(** The search of [TreeAddByIndex]. *)
Lemma add_start f c sz s t t' k :
  compare x = Some f -> ok i X tr ml s t -> go (fun v => f v (inr c)) t [] = (t', k) ->
  exists b : bool, TreeAddByIndex c sz i s =
    (newel ← place_node sz i (ptr t') (cpar k) b;
     match newel with
     | None => mret None
     | Some newel => upd newel (set_content (Some c) sz);; TreeBalanceAfterAdd newel i;; mret (Some c)
     end) s /\ (t' = E -> b = side k).
Proof.
  intros Hf Hs Hg. pose proof (ok_size _ _ Hs) as Hsz. pose proof (height_ptrs t) as Hht.
  destruct (runs_descend (X:=X) (tr:=tr) (ml:=ml) (size (nodes s)) f (inr c) t [] Hf ltac:(lia)) as (b & Hr & Hb).
  rewrite Hg in Hr, Hb. exists b. split; [|done]. unfold TreeAddByIndex.
  rewrite (sm_bind_run _ _ _ _ _ (runs_read _ _ _ _ (runs_get_root _) Hs)).
  rewrite (sm_bind_run _ _ s (nodes s) s) by done.
  by rewrite (sm_bind_run _ _ _ _ _ (runs_read _ _ _ _ Hr Hs)).
Qed.

(** [TreeAddByIndex] when the key is there. *)
Lemma add_found f c sz s t cj j l r k :
  compare x = Some f -> allow_duplicates tr = false -> ok i X tr ml s t ->
  go (fun v => f v (inr c)) t [] = (N cj j l r, k) ->
  exists s', TreeAddByIndex c sz i s = Ok (Some c, s') /\
    ok i X (resized i (sz - isz j) tr) ml s' (black (fix_add (N cj (mkInfo (ip j) c sz) l r) k)).
Proof.
  intros Hf Hd Hs Hg. destruct (add_start f c sz s t _ k Hf Hs Hg) as (b & -> & _).
  pose proof (fill_go (fun v => f v (inr c)) t []) as Ht. rewrite Hg in Ht. simpl in Ht. subst t.
  assert (Hj : nodes s !! ip j = Some (mk_node LEFT (cpar k) (ptr l) (ptr r) j cj)) by (by eapply (ok_lookup s LEFT)).
  set (s1 := if Nat.eqb i 0 then set_tree (resized i (sz - isz j) (tree s)) s else s).
  assert (Hs1 : ok i X (resized i (sz - isz j) tr) ml s1 (fill (N cj j l r) k)).
  { unfold s1, resized. destruct (Nat.eqb i 0); [|done].
    rewrite (ok_tree _ _ _ _ _ _ Hs), count_root, tsize_root, <- (ok_tree _ _ _ _ _ _ Hs). by apply ok_sizes. }
  destruct (add_finish c sz s1 cj j l r k Hs1) as (s' & E & Hs'). exists s'. split; [|done].
  assert (Hp : place_node sz i (Some (ip j)) (cpar k) b s = Ok (Some (ip j), s1)); [|by rewrite (sm_bind_run _ _ _ _ _ Hp)].
  cbn [place_node]. rewrite (sm_bind_run _ _ s (tree s) s) by done. rewrite (ok_tree _ _ _ _ _ _ Hs), allow_duplicates_root, Hd.
  rewrite (sm_bind_run _ _ _ _ _ (node_at_run _ _ _ Hj)), nsize_mk. unfold s1, resized. by destruct (Nat.eqb i 0).
Qed.

(** It is refused when duplicates are allowed. *)
Lemma add_refused f c sz s t cj j l r k :
  compare x = Some f -> allow_duplicates tr = true -> ok i X tr ml s t ->
  go (fun v => f v (inr c)) t [] = (N cj j l r, k) ->
  TreeAddByIndex c sz i s = Ok (None, s).
Proof.
  intros Hf Hd Hs Hg. destruct (add_start f c sz s t _ k Hf Hs Hg) as (b & -> & _).
  assert (Hp : place_node sz i (Some (ip j)) (cpar k) b s = Ok (None, s)); [|by rewrite (sm_bind_run _ _ _ _ _ Hp)].
  cbn [place_node]. rewrite (sm_bind_run _ _ s (tree s) s) by done. by rewrite (ok_tree _ _ _ _ _ _ Hs), allow_duplicates_root, Hd.
Qed.

(** Nothing changes when there is no memory. *)
Lemma add_no_memory f c sz s t k ml' :
  compare x = Some f -> ml = false :: ml' -> ok i X tr ml s t -> go (fun v => f v (inr c)) t [] = (E, k) ->
  exists s', TreeAddByIndex c sz i s = Ok (None, s') /\ ok i X tr ml' s' t.
Proof.
  intros Hf Hm Hs Hg. destruct (add_start f c sz s t _ k Hf Hs Hg) as (b & -> & _).
  exists (mkTS (nodes s) (tree s) ml'). split; [|by destruct Hs].
  assert (Hp : place_node sz i None (cpar k) b s = Ok (None, mkTS (nodes s) (tree s) ml')); [|by rewrite (sm_bind_run _ _ _ _ _ Hp)].
  cbn [place_node]. by rewrite (sm_bind_run _ _ s None (mkTS (nodes s) (tree s) ml')) by (unfold malloc_node, mbind, sm_bind, sm_get; by rewrite (ok_mallocs _ _ _ _ _ _ Hs), Hm).
Qed.

(** [TreeAddByIndex] with a new key: the node is where the search ended. *)
Lemma add_leaf f c sz s t k :
  compare x = Some f -> default true (head ml) = true -> ok i X tr ml s t ->
  go (fun v => f v (inr c)) t [] = (E, k) ->
  exists s' p, TreeAddByIndex c sz i s = Ok (Some c, s') /\ nodes s !! p = None /\
    ok i X (counted i 1 sz tr) (tail ml) s' (black (fix_add (N true (mkInfo p c sz) E E) k)).
Proof.
  intros Hf Hm Hs Hg. destruct (add_start f c sz s t _ k Hf Hs Hg) as (b & -> & Hb). rewrite (Hb eq_refl).
  pose proof (fill_go (fun v => f v (inr c)) t []) as Ht. rewrite Hg in Ht. simpl in Ht. subst t. clear Hb Hg b.
  set (p := fresh (dom (nodes s))).
  assert (Hp : nodes s !! p = None) by (apply not_elem_of_dom, is_fresh).
  pose proof (rep_fill (nodes s) E k) as [Hk _]. destruct (Hk (ok_rep _ _ _ _ _ _ Hs)) as [_ Hr]. clear Hk. simpl in Hr.
  assert (Hc : p ∉ cptrs k).
  { intros Hin. destruct (rep_in (nodes s) None (fill E k) p (ok_rep _ _ _ _ _ _ Hs)) as [n Hn]; [rewrite ptrs_fill; set_solver|congruence]. }
  set (s0 := mkTS (nodes s) (tree s) (tail ml)).
  assert (Hs0 : ok i X tr (tail ml) s0 (fill E k)) by (destruct Hs; by split).
  pose proof (ok_attach s0 k p c sz Hs0 Hp) as Hs1. cbn zeta in Hs1.
  set (s1 := set_nodes _ _) in Hs1.
  assert (Hs2 : ok i X (counted i 1 sz tr) (tail ml) (if Nat.eqb i 0 then set_tree (counted i 1 sz (tree s1)) s1 else s1)
                  (fill (N true (mkInfo p c sz) E E) k)).
  { unfold counted. destruct (Nat.eqb i 0); [|done].
    rewrite (ok_tree _ _ _ _ _ _ Hs1), count_root, tsize_root, <- (ok_tree _ _ _ _ _ _ Hs1). by apply ok_sizes. }
  destruct (runs_BalanceAfterAdd (N true (mkInfo p c sz) E E) p k eq_refl _ Hs2) as (s3 & E3 & Hs3). exists s3, p. split; [|by split].
  set (h1 := <[p := zero_node]> (nodes s)).
  set (h2 := <[p := mkNode (cpar k) None None None 0 true]> (rehole h1 (Some p) k)).
  set (t2 := root_of (i:=i) (tr:=tr) (Some p) k (tree s)).
  set (s2 := mkTS h2 (if Nat.eqb i 0 then counted i 1 sz t2 else t2) (tail ml)).
  assert (Hpl : place_node sz i None (cpar k) (side k) s = Ok (Some p, s2)).
  { cbn [place_node]. rewrite (sm_bind_run _ _ s (Some p) (mkTS h1 (tree s) (tail ml))).
    2: { unfold malloc_node, mbind, sm_bind, sm_get. by rewrite (ok_mallocs _ _ _ _ _ _ Hs), Hm. }
    rewrite (sm_bind_run _ _ _ _ _ (attach_run (mkTS h1 (tree s) (tail ml)) (Some p) _ k (ok_tree _ _ _ _ _ _ Hs)
               (rep_ctx_insert _ _ _ _ zero_node Hc Hr))).
    assert (Hl : rehole h1 (Some p) k !! p = Some zero_node) by (rewrite rehole_out by done; apply lookup_insert_eq).
    rewrite (sm_bind_run _ _ _ _ _ (upd_run (set_nodes (rehole h1 (Some p) k) _) p zero_node _ Hl)).
    unfold s2, counted. by destruct (Nat.eqb i 0). }
  rewrite (sm_bind_run _ _ _ _ _ Hpl).
  rewrite (sm_bind_run _ _ _ _ _ (upd_run s2 p _ _ (lookup_insert_eq _ _ _))). cbn [tree nodes].
  refine (sm_bind_run _ _ _ _ _ _). rewrite <- E3. f_equal. unfold s2, s1, t2, h2, h1, s0. cbn. unfold set_content. cbn.
  rewrite insert_insert_eq.
  assert (<[p := mkNode (cpar k) None None (Some c) sz true]> (rehole (<[p := zero_node]> (nodes s)) (Some p) k) =
    <[p := mkNode (cpar k) None None (Some c) sz true]> (rehole (nodes s) (Some p) k)) as ->.
  { apply map_eq. intros q. destruct (decide (p = q)) as [<-|Hq]; [by rewrite !lookup_insert_eq|].
    rewrite !lookup_insert_ne by done. destruct k as [|[d' c' j' u'] k']; simpl; [by apply lookup_insert_ne|].
    destruct (decide (ip j' = q)) as [<-|Hq']; [by rewrite !lookup_insert_eq|]. by rewrite !lookup_insert_ne. }
  by destruct (Nat.eqb i 0).
Qed.

End Insertion.

End TreeRuns.
