(* ===== verification/TreeWalk.v ===== *)
(** * Walking along a red-black tree

    The minimum, the successor and the next element, on the tree in memory: an iteration
    meets the nodes in the order of the tree. *)

From S2P Require Import Prelude.
From S2P Require Import Trees.
From S2P Require Import TreeShapes.
From S2P Require Import TreeRuns.
From Stdlib Require Import ZArith Lia List.
From stdpp Require Import base numbers list gmap.

Open Scope Z_scope.

Module TreeWalk.
Import Trees TreeShapes TreeRuns.

Section Walk.
Context {C K : Type}.
Context {i : nat} {X : gmap positive (Node C)} {tr : Tree C K} {ml : list bool} {x : Index C K} {Hx : HasIndex i tr x}.
Implicit Types (t a b : tree_of C) (k : list (frame C)).
Abbreviation OK := (ok i X tr ml).
Abbreviation runs := (TreeShapes.runs (i:=i) (X:=X) (tr:=tr) (ml:=ml)).

Tactic Notation "step" uconstr(L) := eapply runs_bind; [eapply L|autorewrite with node; cbn [cpar fi]].

Lemma before_app k k' : before (k ++ k') = before k' ++ before k.
Proof. induction k as [|[d c j s] k IH]; simpl; [by rewrite app_nil_r|]. by rewrite IH, app_assoc. Qed.
Lemma after_app k k' : after (k ++ k') = after k ++ after k'.
Proof. induction k as [|[d c j s] k IH]; simpl; [done|]. by rewrite IH, app_assoc. Qed.

(** The first node of a subtree. *)
Fixpoint leftmost t k : tree_of C * list (frame C) :=
  match t with
  | E => (E, k)
  | N c j l r => match l with E => (t, k) | _ => leftmost l (F false c j r :: k) end
  end.

Lemma fill_leftmost t k : fill (fst (leftmost t k)) (snd (leftmost t k)) = fill t k.
Proof.
  revert k. induction t as [|c j l IHl r IHr]; intros k; [done|]. simpl. destruct l as [|cl jl ll rl]; [done|]. by rewrite IHl.
Qed.

Lemma leftmost_spec t k :
  t <> E -> exists c j r k', leftmost t k = (N c j E r, k' ++ k) /\ before k' = [] /\ infos t = j :: infos r ++ after k'.
Proof.
  intros Ht.
  assert (H : exists c j r k', leftmost t k = (N c j E r, k' ++ k) /\ before k' = []).
  { revert k Ht. induction t as [|c j l IHl r IHr]; intros k Ht; [done|]. simpl. destruct l as [|cl jl ll rl].
    - by exists c, j, r, [].
    - destruct (IHl (F false c j r :: k) ltac:(done)) as (c' & j' & r' & k' & E & Hb).
      exists c', j', r', (k' ++ [F false c j r]). rewrite E, <- app_assoc, before_app, Hb. done. }
  destruct H as (c & j & r & k' & E & Hb). exists c, j, r, k'. split; [done|]. split; [done|].
  pose proof (infos_fill t k) as H1. rewrite <- fill_leftmost, E in H1. simpl in H1.
  rewrite infos_fill, before_app, after_app, Hb, app_nil_r in H1. simpl in H1.
  apply app_inv_head in H1. simpl in H1. rewrite app_comm_cons, app_assoc in H1. apply app_inv_tail in H1. by rewrite <- H1.
Qed.

Lemma runs_minimum_loop fuel t k p :
  ptr t = Some p -> (length (ptrs t) <= fuel)%nat ->
  exists q, runs (fill t k) (minimum_loop fuel p) q (fill t k) /\ ptr (fst (leftmost t k)) = Some q.
Proof.
  revert fuel k p. induction t as [|c j l IHl r IHr]; intros fuel k p Hp Hf; [done|]. injection Hp as <-.
  rewrite (ptrs_Nd LEFT c j l r) in Hf. simpl in Hf. rewrite length_app in Hf. destruct fuel as [|fuel]; [lia|].
  cbn [minimum_loop].
  assert (Hn : forall u, runs (fill (N c j l r) k) (match ptr l with Some q => minimum_loop fuel q | None => mret (ip j) end) u (fill (N c j l r) k) ->
    runs (fill (N c j l r) k) (n ← node_at (ip j); match child LEFT n with Some q => minimum_loop fuel q | None => mret (ip j) end) u (fill (N c j l r) k)).
  { intros u H. eapply runs_bind; [apply (runs_node_at LEFT c j l r k)|]. by rewrite child_mk. }
  destruct l as [|cl jl ll rl] eqn:El.
  - exists (ip j). split; [|done]. apply Hn. apply runs_ret.
  - rewrite <- El in *. destruct (IHl fuel (F false c j r :: k) (ip jl)) as (q & Hq & Hl); [by rewrite El|lia|].
    exists q. split; [|by rewrite El in *]. apply Hn. rewrite El at 2. exact Hq.
Qed.

Lemma head_leftmost t k : ptr (fst (leftmost t k)) = head (ptrs t).
Proof.
  destruct t as [|c j l r]; [done|].
  destruct (leftmost_spec (N c j l r) k ltac:(done)) as (c' & j' & r' & k' & E & _ & Hi).
  rewrite E. unfold ptrs. by rewrite Hi.
Qed.

(** [TreeMinimum] *)
Lemma runs_TreeMinimum t k : runs (fill t k) (TreeMinimum (ptr t)) (head (ptrs t)) (fill t k).
Proof.
  destruct (ptr t) as [p|] eqn:Hp; [|destruct t; [apply runs_ret|done]]. cbn [TreeMinimum]. apply runs_nodes.
  intros h Hh. rewrite length_ptrs_fill in Hh.
  destruct (runs_minimum_loop (size h) t k p Hp ltac:(lia)) as (q & Hq & Hl).
  eapply runs_bind; [exact Hq|]. rewrite head_leftmost in Hl. rewrite Hl. apply runs_ret.
Qed.

(** The walk up of [TreeSuccessor]. *)
Lemma runs_ascend fuel t k p :
  ptr t = Some p -> (length k <= fuel)%nat ->
  runs (fill t k) (ascend fuel p (cpar k)) (head (map ip (after k))) (fill t k).
Proof.
  revert fuel t p. induction k as [|[d c j s] k IH]; intros fuel t p Hp Hf; [destruct fuel; apply runs_ret|].
  destruct fuel as [|fuel]; [simpl in Hf; lia|]. apply runs_nodup. intros Hn. cbn [ascend cpar fi].
  step runs_node_above. rewrite Hp, (child_side d c j s k t p RIGHT Hn Hp). destruct d; simpl Bool.eqb; cbv iota.
  - apply (IH fuel (Nd true c j t s)); [done|simpl in Hf; lia].
  - apply runs_ret.
Qed.

(** [TreeSuccessor] *)
Lemma runs_TreeSuccessor c j l r k :
  runs (fill (N c j l r) k) (TreeSuccessor (ip j)) (head (ptrs r ++ map ip (after k))) (fill (N c j l r) k).
Proof.
  unfold TreeSuccessor. eapply runs_bind; [apply (runs_node_at LEFT c j l r k)|]. rewrite parent_mk. simpl child.
  destruct r as [|cr jr lr rr] eqn:Er.
  - simpl. apply runs_nodes. intros h Hh. rewrite length_ptrs_fill in Hh. pose proof (length_cptrs k).
    apply (runs_ascend (size h) (N c j l E) k); [done|lia].
  - assert (Hh : head (ptrs r ++ map ip (after k)) = head (ptrs r)).
    { rewrite Er. unfold ptrs. simpl. rewrite map_app. simpl. by destruct (map ip (infos lr)). }
    rewrite <- Er, Hh, Er. cbn [ptr]. rewrite <- Er. change (Some (ip jr)) with (ptr (N cr jr lr rr)). rewrite <- Er.
    apply (runs_TreeMinimum r (F true c j l :: k)).
Qed.

(** Any node of a tree can be the place. *)
Lemma find_place t k l1 j l2 :
  infos t = l1 ++ j :: l2 ->
  exists c l r k', fill t k = fill (N c j l r) k' /\ before k' ++ infos l = before k ++ l1 /\ infos r ++ after k' = l2 ++ after k.
Proof.
  revert k l1 l2. induction t as [|c i' l IHl r IHr]; intros k l1 l2 H; simpl in H; [by destruct l1|].
  apply app_eq_app in H as (m & [[H1 H2]|[H1 H2]]).
  - destruct m as [|j' m].
    + injection H2 as -> ->. exists c, l, r, k. rewrite H1, app_nil_r. done.
    + injection H2 as <- ->. destruct (IHl (F false c i' r :: k) l1 m H1) as (c2 & l' & r' & k' & E1 & E2 & E3).
      exists c2, l', r', k'. split; [done|]. split; [by rewrite E2; simpl; rewrite app_nil_r|].
      rewrite E3. simpl. by rewrite <- app_assoc.
  - destruct m as [|j' m].
    + simpl in H2. injection H2 as -> <-. exists c, l, r, k. rewrite H1, app_nil_r. done.
    + injection H2 as <- Hr. destruct (IHr (F true c i' l :: k) m l2 Hr) as (c2 & l' & r' & k' & E1 & E2 & E3).
      exists c2, l', r', k'. split; [done|]. split; [rewrite E2, H1; simpl; by rewrite <- !app_assoc|]. exact E3.
Qed.

(** [TreeNextElementIndex]: the first node, and the node after a node. *)
Lemma runs_next_first t : runs t (TreeNextElementIndex None i) (head (ptrs t)) t.
Proof. unfold TreeNextElementIndex. step runs_get_root. apply (runs_TreeMinimum t []). Qed.

Lemma runs_next t l1 j l2 :
  infos t = l1 ++ j :: l2 -> runs t (TreeNextElementIndex (Some (ip j)) i) (head (map ip l2)) t.
Proof.
  intros H. destruct (find_place t [] l1 j l2 H) as (c & l & r & k' & E1 & _ & E3). simpl in E1. rewrite E1.
  simpl in E3. rewrite app_nil_r in E3. rewrite <- E3, map_app. apply runs_TreeSuccessor.
Qed.

End Walk.

End TreeWalk.
