(* ===== verification/TreeRemoval.v ===== *)
(** * What removal does to a red-black tree

    [TreeBalanceAfterRemove] computes [fix_del], and [TreeRemoveNodeIndex] removes a node
    from the tree in memory, whatever the colours are. *)

From S2P Require Import Prelude.
From S2P Require Import Trees.
From S2P Require Import TreeShapes.
From S2P Require Import TreeRuns.
From S2P Require Import TreeWalk.
From Stdlib Require Import ZArith Lia List.
From stdpp Require Import base numbers list gmap.

Open Scope Z_scope.

Module TreeRemoval.
Import Trees TreeShapes TreeRuns TreeWalk.

Section Rebalance.
Context {C K : Type}.
Context {i : nat} {X : gmap positive (Node C)} {tr : Tree C K} {ml : list bool} {x : Index C K} {Hx : HasIndex i tr x}.
Implicit Types (t a b : tree_of C) (k : list (frame C)).
Abbreviation OK := (ok i X tr ml).
Abbreviation runs := (TreeShapes.runs (i:=i) (X:=X) (tr:=tr) (ml:=ml)).

Tactic Notation "step" uconstr(L) := eapply runs_bind; [eapply L|autorewrite with node; cbn [cpar fi]].
Tactic Notation "view" uconstr(t) :=
  lazymatch goal with |- TreeShapes.runs _ ?m ?u ?t' => change (runs t m u t') end.

(** The sibling seen as the place. *)
Lemma fill_other t d c (j : info C) s k : fill t (F d c j s :: k) = fill s (F (negb d) c j t :: k).
Proof. simpl. by rewrite Nd_negb. Qed.

Lemma runs_isBlack_other t d c j b k :
  runs (fill t (F d c j b :: k)) (isBlack (ptr b)) (negb (is_red b)) (fill t (F d c j b :: k)).
Proof. rewrite fill_other. apply runs_isBlack. Qed.

Lemma root_of_tree t k p : ptr t = Some p -> exists q, ptr (fill t k) = Some q.
Proof.
  intros Ht. destruct (fill t k) as [|c j l r] eqn:E; [|by eexists].
  exfalso. pose proof (infos_fill t k) as Hi. rewrite E in Hi. destruct t as [|ct jt lt rt]; [done|].
  apply (f_equal length) in Hi. simpl in Hi. rewrite !length_app in Hi. simpl in Hi. lia.
Qed.

(** The far nephew is not null: the sibling takes the colour of the parent, which becomes
    black with the nephew, and the parent is rotated. *)
Lemma runs_bar_last t d c j cs js a b k q :
  b <> E -> ptr (fill (Nd d c js (Nd d false j t a) (black b)) k) = Some q ->
  runs (fill t (F d c j (Nd d cs js a b) :: k)) (bar_last (ip j) (ip js) (negb d) i) q
    (fill (Nd d c js (Nd d false j t a) (black b)) k).
Proof.
  intros Hb Hq. destruct b as [|cb jb lb rb]; [done|]. unfold bar_last. step runs_node_above.
  rewrite fill_other. step (runs_upd d cs js a (N cb jb lb rb) (F (negb d) c j t :: k) c js); [done|apply set_red_mk|].
  rewrite <- (fill_other t). step runs_colour. rewrite fill_other. step runs_node_at. step runs_deref.
  view (fill a (F d c js (N cb jb lb rb) :: F (negb d) false j t :: k)). step runs_colour_other; [done|].
  view (fill (Nd d c js a (N false jb lb rb)) (F (negb d) false j t :: k)). rewrite <- (fill_other t).
  view (fill (Nd d false j t (Nd d c js a (N false jb lb rb))) k). step runs_rotate. step runs_get_root.
  simpl black in Hq. rewrite Hq. apply runs_deref.
Qed.

(** The node the rebalancing is at: that of the place, or the temporary node that stands
    for an empty one. *)
Definition at_focus (cur : positive) t k : Prop :=
  ptr t = Some cur \/ t = E /\ X !! cur = Some (mkNode (cpar k) None None None 0 false).

Lemma runs_cur cur t k :
  at_focus cur t k ->
  exists n, runs (fill t k) (node_at cur) n (fill t k) /\ parent n = cpar k /\ red n = is_red t /\
    match content n with Some _ => Some cur | None => None end = ptr t.
Proof.
  intros [Ht|[-> HX]].
  - destruct t as [|c j l r]; [done|]. injection Ht as <-. exists (mk_node LEFT (cpar k) (ptr l) (ptr r) j c).
    split; [apply (runs_node_at LEFT c j l r k)|done].
  - eexists. split; [by apply runs_outside|done].
Qed.

(** [bar_rest] computes [bar]. *)
Definition bar_node (r : tree_of C + tree_of C) (j : info C) k : option positive :=
  match r with inl _ => Some (ip j) | inr t => ptr (fill t k) end.
Definition bar_tree (r : tree_of C + tree_of C) k : tree_of C := match r with inl t | inr t => fill t k end.

Lemma runs_bar_rest cur t d c j s k q :
  at_focus cur t (F d c j s :: k) -> bar_node (bar d c j t s) j k = Some q ->
  runs (fill t (F d c j s :: k)) (bar_rest cur (ptr s) (negb d) i) q (bar_tree (bar d c j t s) k).
Proof.
  intros Hc Hq. destruct (runs_cur _ _ _ Hc) as (n & Hn & Hp & _ & _). unfold bar_rest. step Hn. rewrite Hp.
  destruct s as [|cs js l r]; [injection Hq as <-; apply runs_deref|].
  cbn [bar] in *. rewrite (Nd_pick d cs js). set (a := pick d l r) in *. set (b := pick (negb d) l r) in *. rewrite ptr_Nd.
  rewrite fill_other. step runs_node_at.
  view (fill a (F d cs js b :: F (negb d) c j t :: k)). step runs_isBlack.
  step runs_isBlack_other. view (fill (Nd d cs js a b) (F (negb d) c j t :: k)). rewrite <- fill_other.
  destruct (is_red b) eqn:Eb.
  { rewrite andb_false_r. step runs_deref. simpl negb. cbv iota. apply runs_bar_last; [by intros ->|done]. }
  destruct a as [|[] ja al ar] eqn:Ea.
  - injection Hq as <-. cbn [is_red negb andb]. rewrite fill_other.
    step (runs_upd d cs js E b (F (negb d) c j t :: k) true js); [done|apply set_red_mk|]. rewrite <- fill_other. apply runs_deref.
  - cbn [is_red negb andb]. step runs_deref. step runs_deref.
    rewrite fill_other. view (fill (N true ja al ar) (F d cs js b :: F (negb d) c j t :: k)).
    step (runs_upd LEFT true ja al ar (F d cs js b :: F (negb d) c j t :: k) false ja); [done|apply set_red_mk|]. cbn [Nd].
    step runs_colour. rewrite (Nd_pick d false ja).
    view (fill (Nd d true js (Nd d false ja (pick d al ar) (pick (negb d) al ar)) b) (F (negb d) c j t :: k)).
    step runs_rotate_negb. rewrite <- fill_other. step runs_node_above. step runs_deref.
    cbn [bar_tree bar_node] in *. rewrite <- (black_Nd d true js) in Hq |- *. apply runs_bar_last; [by destruct d|done].
  - injection Hq as <-. cbn [is_red negb andb]. rewrite fill_other.
    step (runs_upd d cs js (N false ja al ar) b (F (negb d) c j t :: k) true js); [done|apply set_red_mk|]. rewrite <- fill_other. apply runs_deref.
Qed.

(** The tree that [TreeBARSub] leaves, and the node it returns. *)
Definition barsub t d c (j : info C) s k : tree_of C + tree_of C :=
  match s with
  | N true js l r => bar d true j t (pick d l r)
  | _ => bar d c j t s
  end.
Definition barsub_ctx d s k : list (frame C) :=
  match s with N true js l r => F d false js (pick (negb d) l r) :: k | _ => k end.

Lemma at_focus_same cur t d c c' j s s' k k' :
  at_focus cur t (F d c j s :: k) -> at_focus cur t (F d c' j s' :: k').
Proof. done. Qed.

Lemma runs_BARSub cur t d c j s k q :
  at_focus cur t (F d c j s :: k) -> bar_node (barsub t d c j s k) j (barsub_ctx d s k) = Some q ->
  runs (fill t (F d c j s :: k)) (TreeBARSub cur (negb d) i) q (bar_tree (barsub t d c j s k) (barsub_ctx d s k)).
Proof.
  intros Hc Hq. destruct (runs_cur _ _ _ Hc) as (n & Hn & Hp & _ & _). unfold TreeBARSub. step Hn. rewrite Hp. step runs_deref.
  step runs_node_above. step runs_isRed_other.
  destruct s as [|[] js l r]; [by apply runs_bar_rest| |by apply runs_bar_rest]. cbn [is_red]. step runs_deref.
  step runs_colour_other; [done|]. step runs_colour. cbn [barsub barsub_ctx] in *.
  rewrite (Nd_pick d false js). set (a := pick d l r) in *. set (b := pick (negb d) l r) in *.
  view (fill (Nd d true j t (Nd d false js a b)) k). step runs_rotate.
  view (fill t (F d true j a :: F d false js b :: k)).
  assert (Hc' : at_focus cur t (F d true j a :: F d false js b :: k)) by done.
  destruct (runs_cur _ _ _ Hc') as (n' & Hn' & Hp' & _ & _). step Hn'. rewrite Hp'. step runs_deref. step runs_node_above.
  by apply runs_bar_rest.
Qed.

(** The node of a place is not the root. *)
Lemma not_root s cur t d c j u k :
  OK s (fill t (F d c j u :: k)) -> at_focus cur t (F d c j u :: k) -> ptr (fill t (F d c j u :: k)) <> Some cur.
Proof.
  intros Hs Hc Hr. pose proof (ok_nodup _ _ _ _ _ _ Hs) as Hn. destruct Hc as [Ht|[-> HX]].
  - assert (Hin : cur ∈ cptrs (F d c j u :: k)).
    { rewrite (ptr_fill_cons t E) in Hr. apply ptr_in in Hr. rewrite ptrs_fill in Hr. set_solver. }
    rewrite ptrs_fill in Hn. apply NoDup_app in Hn as (_ & Hd & _). apply (Hd cur); [by apply ptr_in|done].
  - apply ptr_in in Hr. by rewrite (ok_dom _ _ _ _ _ _ Hs) in HX.
Qed.

(** The loop stops at a red node and at the root. *)
Lemma runs_bar_stop fuel t k q :
  ptr t = Some q -> k = [] \/ is_red t = true ->
  runs (fill t k) (bar_loop (S fuel) q i) q (fill t k).
Proof.
  intros Ht Hk. cbn [bar_loop]. step runs_get_root. rewrite <- Ht. step runs_isBlack. rewrite Ht.
  assert (negb (bool_decide (ptr (fill t k) = Some q)) && negb (is_red t) = false) as ->; [|apply runs_ret].
  destruct Hk as [->|Hk]; [|by rewrite Hk, andb_false_r]. simpl fill. by rewrite bool_decide_true.
Qed.

Lemma runs_blacken t k q : ptr t = Some q -> runs (fill t k) (upd q (set_red false)) () (fill (black t) k).
Proof. destruct t as [|c j l r]; [done|]. intros [= <-]. apply (runs_upd LEFT c j l r k false j); [done|apply set_red_mk]. Qed.

(** The side of the place, but when it does not matter. *)
Lemma cur_side s t d c j u k :
  OK s (fill t (F d c j u :: k)) -> is_Some (ptr t) \/ is_Some (ptr u) ->
  bool_decide (ptr t = child LEFT (mk_node d (cpar k) (ptr t) (ptr u) j c)) = negb d.
Proof.
  intros Hs Hn. destruct d; [|by apply bool_decide_true]. apply bool_decide_false. simpl. intros Heq.
  destruct (ptr t) as [p|] eqn:Ep; [|by destruct Hn as [[? ?]|[? ?]]; congruence].
  apply (other_ptr t RIGHT c j u k p); [apply (ok_nodup _ _ _ _ _ _ Hs)|done|done].
Qed.

Lemma cur_branch fuel cur t d c j s k q :
  at_focus cur t (F d c j s :: k) -> is_red t = false -> bar_node (barsub t d c j s k) j (barsub_ctx d s k) = Some q ->
  forall v t', runs (bar_tree (barsub t d c j s k) (barsub_ctx d s k)) (bar_loop fuel q i) v t' ->
  runs (fill t (F d c j s :: k)) (bar_loop (S fuel) cur i) v t'.
Proof.
  intros Hc Hr Hq v t' Hrest st Hst. revert st Hst.
  enough (Hgo : forall st, OK st (fill t (F d c j s :: k)) ->
    runs (fill t (F d c j s :: k)) (bar_loop (S fuel) cur i) v t') by (intros st Hst; by apply (Hgo st)).
  intros st Hst. pose proof (not_root _ _ _ _ _ _ _ _ Hst Hc) as Hnr.
  destruct (runs_cur _ _ _ Hc) as (n & Hn & Hp & Hrd & Hcn). cbn [bar_loop]. step runs_get_root.
  eapply runs_bind; [eapply runs_bind; [exact Hn|apply runs_ret]|]. rewrite Hrd, Hr, bool_decide_false by done. cbn [negb andb].
  step Hn. rewrite Hp. step runs_deref. step runs_node_above. rewrite Hcn.
  destruct (decide (is_Some (ptr t) \/ is_Some (ptr s))) as [Hsome|Hnone].
  - rewrite (cur_side _ _ _ _ _ _ _ Hst Hsome). eapply runs_bind; [by apply runs_BARSub|done].
  - destruct t as [|ct jt lt rt]; [|by destruct Hnone; left; eexists].
    destruct s as [|cs js l r]; [|by destruct Hnone; right; eexists].
    rewrite bool_decide_true by (by destruct d). change true with (negb LEFT).
    assert (Hd : forall c, Nd d c j (@E C) E = Nd LEFT c j E E) by (by destruct d).
    cbn [barsub bar bar_tree bar_node barsub_ctx] in *. rewrite Hd in Hrest.
    change (fill (@E C) (F d c j E :: k)) with (fill (Nd d c j E E) k). rewrite Hd.
    eapply runs_bind; [by apply (runs_BARSub cur E LEFT c j E k q)|exact Hrest].
Qed.

(** The loop, and what is left to the last statement of [TreeBalanceAfterRemove]. *)
Definition loop_then fuel cur t k t' : Prop :=
  exists q t1, runs (fill t k) (bar_loop fuel cur i) q t1 /\ runs t1 (upd q (set_red false)) () t'.

Lemma bar_stop fuel t k q :
  ptr t = Some q -> k = [] \/ is_red t = true -> loop_then (S fuel) q t k (fill (black t) k).
Proof. intros Ht Hk. exists q, (fill t k). split; [by apply runs_bar_stop|by apply runs_blacken]. Qed.

Lemma loop_root fuel t k q : ptr (fill t k) = Some q -> loop_then (S fuel) q (fill t k) [] (black (fill t k)).
Proof. intros Ht. apply (bar_stop fuel (fill t k) [] q Ht). by left. Qed.

Lemma loop_branch fuel cur t d c j s k q t' :
  at_focus cur t (F d c j s :: k) -> is_red t = false -> bar_node (barsub t d c j s k) j (barsub_ctx d s k) = Some q ->
  loop_then fuel q (bar_tree (barsub t d c j s k) (barsub_ctx d s k)) [] t' ->
  loop_then (S fuel) cur t (F d c j s :: k) t'.
Proof.
  intros Hc Hr Hq (q1 & t1 & H1 & H2). exists q1, t1. split; [|done]. eapply cur_branch; done.
Qed.

Lemma bar_inl d c (j : info C) t s t' : bar d c j t s = inl t' -> ptr t' = Some (ip j) /\ is_red t' = c.
Proof.
  unfold bar. destruct s as [|cs js l r]; [intros [= <-]; by rewrite ptr_Nd, is_red_Nd|].
  destruct (is_red (pick (negb d) l r)); [done|].
  destruct (pick d l r) as [|[] ja al ar]; intros [= <-]; by rewrite ptr_Nd, is_red_Nd.
Qed.

Lemma bar_inr d c (j : info C) t s t' : bar d c j t s = inr t' -> exists q, ptr t' = Some q.
Proof.
  unfold bar. destruct s as [|cs js l r]; [done|].
  destruct (is_red (pick (negb d) l r)); [intros [= <-]; rewrite ptr_Nd; by eexists|].
  destruct (pick d l r) as [|[] ja al ar]; intros [= <-]; rewrite ptr_Nd; by eexists.
Qed.

(** The loop computes [fix_del]. *)
Lemma runs_bar_loop fuel cur t k :
  at_focus cur t k -> (t = E -> k <> []) -> (length k < fuel)%nat -> loop_then fuel cur t k (fix_del t k).
Proof.
  revert fuel cur t. induction k as [|[d c j s] k IH]; intros fuel cur t Hc Ht Hf; (destruct fuel as [|fuel]; [simpl in Hf; lia|]).
  - destruct Hc as [Hp|[-> _]]; [|by destruct (Ht eq_refl)]. apply (bar_stop fuel t []); auto.
  - cbn [fix_del]. destruct (is_red t) eqn:Er.
    { destruct Hc as [Hp|[-> _]]; [|done]. apply bar_stop; auto. }
    destruct fuel as [|fuel]; [simpl in Hf; lia|].
    assert (Hdone : forall t' k', (exists c s, bar d c j t s = inr t') -> barsub t d c j s k = inr t' -> barsub_ctx d s k = k' ->
      loop_then (S (S fuel)) cur t (F d c j s :: k) (black (fill t' k'))).
    { intros t' k' (c' & s' & Hb) Hbs Hk. destruct (bar_inr _ _ _ _ _ _ Hb) as [p Hp].
      destruct (root_of_tree t' k' p Hp) as [q Hq]. apply (loop_branch _ _ _ _ _ _ _ _ q); [done|done| |].
      - by rewrite Hbs, Hk.
      - rewrite Hbs, Hk. by apply loop_root. }
    assert (Hgo : forall t' k', barsub t d c j s k = inl t' -> barsub_ctx d s k = k' ->
      forall t2, loop_then (S fuel) (ip j) t' k' t2 -> loop_then (S (S fuel)) cur t (F d c j s :: k) t2).
    { intros t' k' Hbs Hk t2 H2. apply (loop_branch _ _ _ _ _ _ _ _ (ip j)); [done|done|by rewrite Hbs|].
      rewrite Hbs, Hk. exact H2. }
    destruct s as [|[] js l r]; cbn [barsub barsub_ctx] in *.
    + apply (Hgo _ k eq_refl eq_refl). apply IH; [left; apply ptr_Nd|by destruct d|simpl in Hf; lia].
    + destruct (bar d true j t (pick d l r)) as [t'|t'] eqn:Eb.
      * destruct (bar_inl _ _ _ _ _ _ Eb) as [Hp Hrd]. apply (Hgo t' _ eq_refl eq_refl). apply bar_stop; auto.
      * apply (Hdone t' _); eauto.
    + destruct (bar d c j t (N false js l r)) as [t'|t'] eqn:Eb.
      * destruct (bar_inl _ _ _ _ _ _ Eb) as [Hp Hrd]. apply (Hgo t' k eq_refl eq_refl).
        apply IH; [by left|by intros ->|simpl in Hf; lia].
      * apply (Hdone t' _); eauto.
Qed.

(** [TreeBalanceAfterRemove] *)
Lemma runs_BalanceAfterRemove cur t k :
  at_focus cur t k -> (t = E -> k <> []) -> runs (fill t k) (TreeBalanceAfterRemove cur i) () (fix_del t k).
Proof.
  intros Hc Ht. apply runs_nodes. intros h Hh. rewrite length_ptrs_fill in Hh. pose proof (length_cptrs k) as Hk.
  destruct (runs_bar_loop (S (S (size h))) cur t k Hc Ht ltac:(lia)) as (q & t1 & H1 & H2).
  by eapply runs_bind; [exact H1|].
Qed.

End Rebalance.

(** ** Nodes out of the tree *)
Section Outside.
Context {C K : Type}.
Context {i : nat} {X : gmap positive (Node C)} {tr : Tree C K} {ml : list bool}.
Implicit Types (t a b : tree_of C) (k : list (frame C)).

Lemma ok_add_outside (s : TS C K) t p n :
  ok i X tr ml s t -> nodes s !! p = None -> ok i (<[p := n]> X) tr ml (set_nodes (<[p := n]> (nodes s)) s) t.
Proof.
  intros [Ht Hm Hr Hn Hd Ho] Hp.
  assert (Hnin : p ∉ ptrs t). { intros Hin. destruct (rep_in _ _ _ _ Hr Hin) as [n0 Hn0]. by rewrite Hp in Hn0. }
  split; cbn; try done.
  - by apply rep_store.
  - intros q Hq. rewrite lookup_insert_ne by (by intros ->). by apply Hd.
  - intros q Hq. destruct (decide (p = q)) as [->|Hne]; [by rewrite !lookup_insert_eq|].
    rewrite !lookup_insert_ne by done. by apply Ho.
Qed.

Lemma ok_free_outside (s : TS C K) t p n :
  ok i (<[p := n]> X) tr ml s t -> X !! p = None ->
  free_node p s = Ok ((), set_nodes (delete p (nodes s)) s) /\ ok i X tr ml (set_nodes (delete p (nodes s)) s) t.
Proof.
  intros [Ht Hm Hr Hn Hd Ho] Hp.
  assert (Hnin : p ∉ ptrs t). { intros Hin. specialize (Hd p Hin). by rewrite lookup_insert_eq in Hd. }
  assert (Hl : nodes s !! p = Some n) by (by rewrite Ho, lookup_insert_eq).
  split. { unfold free_node. by rewrite (sm_bind_run _ _ _ _ _ (node_at_run _ _ _ Hl)). }
  split; cbn; try done.
  - apply (rep_ext (nodes s)); [|done]. intros q Hq. apply lookup_delete_ne. by intros ->.
  - intros q Hq. specialize (Hd q Hq). rewrite lookup_insert_ne in Hd; [done|]. by intros ->.
  - intros q Hq. destruct (decide (p = q)) as [->|Hne]; [by rewrite lookup_delete_eq, Hp|].
    rewrite lookup_delete_ne, Ho, lookup_insert_ne by done. done.
Qed.

End Outside.

Section Unlink.
Context {C K : Type}.
Context {i : nat} {X : gmap positive (Node C)} {tr : Tree C K} {ml : list bool} {x : Index C K} {Hx : HasIndex i tr x}.
Implicit Types (t a b : tree_of C) (k : list (frame C)).

(** The only child of a node. *)
Definition only (l r : tree_of C) : tree_of C := match l with E => r | _ => l end.

Lemma only_sub (l r : tree_of C) : l = E \/ r = E -> only l r = l \/ only l r = r.
Proof. destruct l; [by right|by left]. Qed.

(** A node with at most one child leaves the tree and stays in memory. *)
Lemma unlink_ok (s : TS C K) c j l r k :
  ok i X tr ml s (fill (N c j l r) k) -> l = E \/ r = E ->
  exists s', unlink_node (ip j) i s = Ok (ptr (only l r), s') /\
    ok i (<[ip j := mk_node LEFT (cpar k) (ptr l) (ptr r) j c]> X) tr ml s' (fill (only l r) k).
Proof.
  intros Hs Hlr. set (y := only l r). set (n := mk_node LEFT (cpar k) (ptr l) (ptr r) j c).
  pose proof (ok_rep _ _ _ _ _ _ Hs) as Hr. apply rep_fill in Hr as [(Hj & Hl & Hrr) Hk].
  pose proof (ok_nodup _ _ _ _ _ _ Hs) as Hn. rewrite ptrs_fill in Hn.
  assert (Hpl : ptrs (N c j l r) ≡ₚ ip j :: ptrs y).
  { rewrite (ptrs_Nd LEFT c j l r). unfold y, only. destruct Hlr as [-> | ->]; [done|]. by destruct l; rewrite ?app_nil_r. }
  rewrite Hpl in Hn. simpl in Hn. apply NoDup_cons in Hn as [Hnj Hn]. apply NoDup_app in Hn as (Hny & Hdis & Hnk).
  assert (Hy : rep (nodes s) (Some (ip j)) y) by (unfold y, only; by destruct l).
  set (h1 := reparent (nodes s) (cpar k) y). set (h2 := rehole h1 (ptr y) k).
  set (s2 := set_nodes h2 (set_tree (root_of (i:=i) (tr:=tr) (ptr y) k (tree s)) s)).
  assert (Hk1 : rep_ctx h1 (Some (ip j)) k).
  { apply (rep_ctx_ext (nodes s)); [|done]. intros q Hq. apply reparent_out. set_solver. }
  exists s2. split.
  - unfold unlink_node. rewrite (sm_bind_run _ _ _ _ _ (node_at_run _ _ _ Hj)).
    assert (Hch : child (if ptr l then LEFT else RIGHT) (mkNode (cpar k) (ptr l) (ptr r) (Some (iv j)) (isz j) c) = ptr y)
      by (unfold y, only; by destruct l).
    cbn [child child0 child1 parent] in *. rewrite Hch.
    rewrite (sm_bind_run _ _ _ _ _ (reparent_run s (Some (ip j)) (cpar k) y Hy)). fold h1.
    rewrite (sm_bind_run _ _ _ _ _ (rehole_run (set_nodes h1 s) (ip j) (ptr y) _ k LEFT (ok_tree _ _ _ _ _ _ Hs) Hk1 ltac:(set_solver))).
    done.
  - split; cbn.
    + rewrite (ok_tree _ _ _ _ _ _ Hs). apply (root_of_fill (N c j l r) y).
    + apply (ok_mallocs _ _ _ _ _ _ Hs).
    + apply rep_fill. split.
      * apply (rep_ext h1); [intros q Hq; apply rehole_out; set_solver|]. by apply (reparent_rep _ (Some (ip j))).
      * by apply (rehole_rep _ (Some (ip j))).
    + rewrite ptrs_fill. by apply NoDup_app.
    + intros q. rewrite ptrs_fill. intros Hq. rewrite lookup_insert_ne by set_solver.
      apply (ok_dom _ _ _ _ _ _ Hs). rewrite ptrs_fill, Hpl. set_solver.
    + intros q. rewrite ptrs_fill. intros Hq. unfold h2, h1. rewrite rehole_out, reparent_out by set_solver.
      destruct (decide (ip j = q)) as [<-|Hne]; [by rewrite lookup_insert_eq|]. rewrite lookup_insert_ne by done.
      apply (ok_rest _ _ _ _ _ _ Hs). rewrite ptrs_fill, Hpl. set_solver.
Qed.

(** The tree when the node that had the colour [c] has left the place. *)
Definition spliced (c : bool) t k : tree_of C := if c then fill t k else fix_del t k.

Lemma rebalance_ok (s : TS C K) (j : info C) c (l r : tree_of C) t k :
  X !! ip j = None -> let n := mk_node LEFT (cpar k) (ptr l) (ptr r) j c in
  ok i (<[ip j := n]> X) tr ml s (fill t k) ->
  exists s', rebalance_removed (ip j) (ptr t) i s = Ok ((), s') /\
    ok i (<[ip j := n]> X) tr ml s' (spliced c t k).
Proof.
  intros HX n Hs. assert (Hn : nodes s !! ip j = Some n) by (eapply ok_outside; [exact Hs|apply lookup_insert_eq]).
  unfold rebalance_removed. rewrite (sm_bind_run _ _ _ _ _ (node_at_run _ _ _ Hn)). 
  assert (Hrd : red n = c) by done. assert (Hpar : parent n = cpar k) by done. rewrite Hrd, Hpar. clear Hrd Hpar.
  destruct c; [by exists s|]. unfold spliced. destruct (ptr t) as [q|] eqn:Hq.
  { apply (runs_BalanceAfterRemove q t k); [by left|by intros ->|done]. }
  destruct t as [|]; [|done]. destruct k as [|f k]; [by exists s|]. cbn [cpar].
  rewrite (sm_bind_run _ _ s (nodes s) s) by done. set (p := fresh (dom (nodes s))).
  assert (Hp : nodes s !! p = None) by (apply not_elem_of_dom, is_fresh).
  set (m := set_parent (Some (ip (fi f))) zero_node).
  pose proof (ok_add_outside s _ p m Hs Hp) as Hs1.
  rewrite (sm_bind_run _ _ s () (set_nodes (<[p := m]> (nodes s)) s)) by done.
  assert (Hc : at_focus (X:=<[p := m]> (<[ip j := n]> X)) p E (f :: k)).
  { right. split; [done|]. by rewrite lookup_insert_eq. }
  assert (Hk : @E C = E -> f :: k <> []) by (intros _; discriminate).
  destruct (runs_BalanceAfterRemove p E (f :: k) Hc Hk _ Hs1) as (s2 & E2 & Hs2).
  rewrite (sm_bind_run _ _ _ _ _ E2).
  assert (Hpn : <[ip j := n]> X !! p = None).
  { rewrite <- (ok_rest _ _ _ _ _ _ Hs); [done|]. intros Hin. apply (rep_in _ _ _ _ (ok_rep _ _ _ _ _ _ Hs)) in Hin as [? ?]. congruence. }
  destruct (ok_free_outside s2 _ p m Hs2 Hpn) as [E3 Hs3]. by eexists.
Qed.

(** The tree without the node of a place. *)
Definition del_node (c : bool) (j : info C) (l r : tree_of C) k : tree_of C :=
  match l, r with
  | N _ _ _ _, N _ _ _ _ =>
      match leftmost r [] with
      | (N cm jm _ rm, km) => spliced cm rm (km ++ F true c (mkInfo (ip j) (iv jm) (isz jm)) l :: k)
      | (E, _) => E
      end
  | _, _ => spliced c (only l r) k
  end.

(** The end of [TreeRemoveNodeIndex]. *)
Lemma remove_end (s : TS C K) (p : positive) n z (v : option C) t :
  X !! p = None -> ok i (<[p := n]> X) tr ml s t ->
  exists s', (free_node p;;
    (if Nat.eqb i 0 then
       sm_modify (fun s => set_tree (set_sizes (to_i32 (count (tree s) - 1)) (to_u64 (tsize (tree s) - z)) (tree s)) s)
     else mret ());;
    mret v) s = Ok (v, s') /\ ok i X (counted i (-1) (- z) tr) ml s' t.
Proof.
  intros HX Hs. destruct (ok_free_outside s _ p n Hs HX) as [E1 Hs1]. set (s1 := set_nodes _ _) in *.
  rewrite (sm_bind_run _ _ _ _ _ E1).
  exists (if Nat.eqb i 0 then set_tree (counted i (-1) (- z) (tree s1)) s1 else s1). split.
  - unfold counted. by destruct (Nat.eqb i 0).
  - unfold counted. destruct (Nat.eqb i 0); [|done].
    rewrite (ok_tree _ _ _ _ _ _ Hs1), count_root, tsize_root, <- (ok_tree _ _ _ _ _ _ Hs1). by apply ok_sizes.
Qed.

Lemma ok_apart (s : TS C K) c j l r k : ok i X tr ml s (fill (N c j l r) k) -> X !! ip j = None.
Proof. intros Hs. apply (ok_dom _ _ _ _ _ _ Hs). rewrite ptrs_fill, (ptrs_Nd LEFT c j l r). set_solver. Qed.

End Unlink.

Section Remove.
Context {C K : Type}.
Context {i : nat} {X : gmap positive (Node C)} {tr : Tree C K} {ml : list bool} {x : Index C K} {Hx : HasIndex i tr x}.
Implicit Types (t a b : tree_of C) (k : list (frame C)).

(** With no child on one side. *)
Lemma remove_one (s : TS C K) c j l r k :
  ok i X tr ml s (fill (N c j l r) k) -> l = E \/ r = E ->
  exists s', TreeRemoveNodeIndex (ip j) i s = Ok (Some (iv j), s') /\
    ok i X (counted i (-1) (- isz j) tr) ml s' (spliced c (only l r) k).
Proof.
  intros Hs Hlr. pose proof (ok_apart s c j l r k Hs) as HX.
  destruct (unlink_ok s c j l r k Hs Hlr) as (s1 & E1 & Hs1).
  destruct (rebalance_ok s1 j c l r (only l r) k HX Hs1) as (s2 & E2 & Hs2).
  destruct (remove_end s2 (ip j) _ (isz j) (Some (iv j)) _ HX Hs2) as (s3 & E3 & Hs3).
  exists s3. split; [|done]. unfold TreeRemoveNodeIndex.
  rewrite (sm_bind_run _ _ _ _ _ (node_at_run _ _ _ (ok_lookup s LEFT c j l r k Hs))). cbn [mk_node child child0 child1].
  assert (Hred : match ptr l, ptr r with Some _, Some _ => r0 ← TreeSuccessor (ip j); deref r0 | _, _ => mret (ip j) end s = Ok (ip j, s))
    by (destruct Hlr as [->| ->]; [done|by destruct l]).
  rewrite (sm_bind_run _ _ _ _ _ Hred), (sm_bind_run _ _ _ _ _ E1), bool_decide_false by (by intros []).
  rewrite (sm_bind_run _ _ s1 () s1) by done. by rewrite (sm_bind_run _ _ _ _ _ E2).
Qed.

(** The successor of a node with two children, as a place. *)
Lemma successor_place c j l r k :
  r <> E -> exists cm jm rm km,
    leftmost r [] = (N cm jm E rm, km) /\ fill (N c j l r) k = fill (N cm jm E rm) (km ++ F true c j l :: k) /\
    head (ptrs r ++ map ip (after k)) = Some (ip jm).
Proof.
  intros Hr. destruct (leftmost_spec r [] Hr) as (cm & jm & rm & km & E & _ & Hi). rewrite app_nil_r in E.
  exists cm, jm, rm, km. split; [done|]. split.
  - rewrite fill_app. pose proof (fill_leftmost r []) as Hf. rewrite E in Hf. cbn [fst snd] in Hf. by rewrite Hf.
  - unfold ptrs. by rewrite Hi.
Qed.

(** With two children: the node gets the content of its successor, which leaves the tree. *)
Lemma remove_two (s : TS C K) c j l r k :
  ok i X tr ml s (fill (N c j l r) k) -> l <> E -> r <> E ->
  exists s', TreeRemoveNodeIndex (ip j) i s = Ok (Some (iv j), s') /\
    ok i X (counted i (-1) (- isz j) tr) ml s' (del_node c j l r k).
Proof.
  intros Hs Hl Hr. destruct (successor_place c j l r k Hr) as (cm & jm & rm & km & Elm & Ef & Eh).
  pose proof Hs as Hs0. rewrite Ef in Hs0. pose proof (ok_apart s cm jm E rm _ Hs0) as HX.
  pose proof (ok_lookup s LEFT c j l r k Hs) as Hj. pose proof (ok_lookup s LEFT cm jm E rm _ Hs0) as Hjm.
  assert (Hne : ip jm <> ip j).
  { pose proof (ok_nodup _ _ _ _ _ _ Hs0) as Hn. rewrite ptrs_fill, (ptrs_Nd LEFT cm jm E rm) in Hn.
    intros Heq. apply NoDup_app in Hn as (_ & Hd & _). apply (Hd (ip jm)); [set_solver|].
    unfold cptrs. rewrite before_app, after_app, !map_app. simpl. rewrite !map_app. simpl. rewrite Heq. set_solver. }
  destruct (unlink_ok s cm jm E rm _ Hs0 ltac:(by left)) as (s1 & E1 & Hs1). cbn [only] in *.
  set (m := mk_node LEFT (cpar (km ++ F true c j l :: k)) (ptr E) (ptr rm) jm cm) in *.
  set (j' := mkInfo (ip j) (iv jm) (isz jm)).
  assert (Hs1' : ok i (<[ip jm := m]> X) tr ml s1 (fill (Nd true c j (fill rm km) l) k)) by (rewrite fill_app in Hs1; exact Hs1).
  destruct (runs_upd true c j (fill rm km) l k c j' (set_content (Some (iv jm)) (isz jm)) eq_refl (set_content_mk _ _ _ _ _ _ _ _) s1 Hs1')
    as (s2 & E2 & Hs2).
  assert (Hs2' : ok i (<[ip jm := m]> X) tr ml s2 (fill rm (km ++ F true c j' l :: k))) by (rewrite fill_app; exact Hs2).
  assert (Hm : m = mk_node LEFT (cpar (km ++ F true c j' l :: k)) (ptr E) (ptr rm) jm cm) by (unfold m; by destruct km).
  rewrite Hm in Hs2'.
  destruct (rebalance_ok s2 jm cm E rm rm _ HX Hs2') as (s3 & E3 & Hs3).
  destruct (remove_end s3 (ip jm) _ (isz j) (Some (iv j)) _ HX Hs3) as (s4 & E4 & Hs4).
  exists s4. split.
  - unfold TreeRemoveNodeIndex. rewrite (sm_bind_run _ _ _ _ _ (node_at_run _ _ _ Hj)). cbn [mk_node child child0 child1].
    assert (Hred : match ptr l, ptr r with Some _, Some _ => r0 ← TreeSuccessor (ip j); deref r0 | _, _ => mret (ip j) end s = Ok (ip jm, s)).
    { destruct l as [|cl jl ll rl]; [done|]. destruct r as [|cr jr lr rr]; [done|]. cbn [ptr].
      rewrite (sm_bind_run _ _ _ _ _ (runs_read _ _ _ _ (runs_TreeSuccessor c j _ _ k) Hs)). by rewrite Eh. }
    rewrite (sm_bind_run _ _ _ _ _ Hred), (sm_bind_run _ _ _ _ _ E1), bool_decide_true by done.
    assert (Hm1 : nodes s1 !! ip jm = Some m) by (eapply ok_outside; [exact Hs1|apply lookup_insert_eq]).
    assert (Hc : (d ← node_at (ip jm); upd (ip j) (set_content (content d) (nsize d))) s1 = Ok ((), s2)).
    { rewrite (sm_bind_run _ _ _ _ _ (node_at_run _ _ _ Hm1)). unfold m. rewrite content_mk, nsize_mk. exact E2. }
    rewrite (sm_bind_run _ _ _ _ _ Hc). by rewrite (sm_bind_run _ _ _ _ _ E3).
  - unfold del_node. destruct l as [|cl jl ll rl]; [done|]. destruct r as [|cr jr lr rr]; [done|]. rewrite Elm. exact Hs4.
Qed.

(** [TreeRemoveNodeIndex] computes [del_node]. *)
Lemma remove_node (s : TS C K) c j l r k :
  ok i X tr ml s (fill (N c j l r) k) ->
  exists s', TreeRemoveNodeIndex (ip j) i s = Ok (Some (iv j), s') /\
    ok i X (counted i (-1) (- isz j) tr) ml s' (del_node c j l r k).
Proof.
  intros Hs. destruct l as [|cl jl ll rl]; [apply remove_one; auto|].
  destruct r as [|cr jr lr rr]; [apply (remove_one s c j (N cl jl ll rl) E); auto|]. by apply remove_two.
Qed.

End Remove.

End TreeRemoval.
