(* ===== verification/TreeBalance.v ===== *)
(** * The order and the balance of red-black trees

    On the abstract trees of [TreeShapes]: a search ends where the order says, and the
    rebalancing functions [fix_add] and [fix_del] keep the invariant of red-black trees,
    whose height is at most twice the logarithm of their size. *)

From S2P Require Import Prelude.
From S2P Require Import Trees.
From S2P Require Import TreeShapes.
From S2P Require Import TreeRuns.
From S2P Require Import TreeWalk.
From S2P Require Import TreeRemoval.
From Stdlib Require Import ZArith Lia List Sorting.Sorted.
From stdpp Require Import base numbers list gmap.

Open Scope Z_scope.

Module TreeBalance.
Import Trees TreeShapes TreeRuns TreeWalk TreeRemoval.

(** ** Balance *)
Section Balance.
Context {C : Type}.
Implicit Types (t a b x : tree_of C) (k : list (frame C)).

(** [rbt c n t]: no red node of [t] has a red child, every path from its root has [n] black
    nodes, and its root is red when [c] is [true]. *)
Inductive rbt : bool -> nat -> tree_of C -> Prop :=
| rbt_E : rbt false 0 E
| rbt_red n i l r : rbt false n l -> rbt false n r -> rbt true n (N true i l r)
| rbt_black n i l r cl cr : rbt cl n l -> rbt cr n r -> rbt false (S n) (N false i l r).

(** [rbk c n k]: the context becomes a red-black tree with any tree of black height [n] at
    its place, a red root being allowed there when [c] is [true]. *)
Inductive rbk : bool -> nat -> list (frame C) -> Prop :=
| rbk_nil n : rbk false n []
| rbk_under_red n d i s k : rbt false n s -> rbk true n k -> rbk false n (F d true i s :: k)
| rbk_under_black c n d i s cs k : rbt cs n s -> rbk false (S n) k -> rbk c n (F d false i s :: k).

(** A red-black tree: its root is black. *)
Definition balanced t : Prop := exists n, rbt false n t.

Lemma rbt_root c n t : rbt c n t -> is_red t = c.
Proof. by destruct 1. Qed.

Lemma rbt_Nd_red n d i a b : rbt false n a -> rbt false n b -> rbt true n (Nd d true i a b).
Proof. destruct d; by constructor. Qed.
Lemma rbt_Nd_black n d i a b ca cb : rbt ca n a -> rbt cb n b -> rbt false (S n) (Nd d false i a b).
Proof. destruct d; econstructor; eauto. Qed.

Lemma rbt_inv_red n i l r : forall c, rbt c n (N true i l r) -> c = true /\ rbt false n l /\ rbt false n r.
Proof. intros c H. by inversion H. Qed.
Lemma rbt_inv_black n i l r : forall c, rbt c n (N false i l r) -> c = false /\ exists m cl cr, n = S m /\ rbt cl m l /\ rbt cr m r.
Proof. intros c H. inversion H; subst. split; [done|]. by eexists _, _, _. Qed.

Lemma rbt_pick {P : tree_of C -> Prop} d l r : P l -> P r -> P (pick d l r).
Proof. by destruct d. Qed.

(** The children by side. *)
Lemma rbt_sub_red n c i l r d : rbt c n (N true i l r) -> rbt false n (pick d l r).
Proof. intros (_ & Hl & Hr)%rbt_inv_red. by destruct d. Qed.
Lemma rbt_sub_black n c i l r d : rbt c n (N false i l r) -> exists m cs, n = S m /\ rbt cs m (pick d l r).
Proof. intros (_ & m & cl & cr & -> & Hl & Hr)%rbt_inv_black. exists m. destruct d; by eexists. Qed.

Lemma rbt_make_black c n t : rbt c n t -> exists m, rbt false m (black t).
Proof. destruct 1; eexists; [constructor|eapply rbt_black|eapply rbt_black]; eauto. Qed.

Lemma rbt_blacken_red n t : rbt true n t -> rbt false (S n) (black t).
Proof. inversion 1; subst. simpl. by eapply rbt_black. Qed.

Lemma balanced_black t : balanced t -> balanced (black t).
Proof. intros [n H]. by eapply rbt_make_black. Qed.

(** A context filled. *)
Lemma rb_fill c n k t : rbk c n k -> forall c', rbt c' n t -> (c' = true -> c = true) -> balanced (fill t k).
Proof.
  intros Hk. revert t. induction Hk as [n|n d i s k Hs Hk IH|c n d i s cs k Hs Hk IH]; intros t c' Ht Hc; simpl.
  - destruct c'; [by discriminate Hc|]. by exists n.
  - destruct c'; [by discriminate Hc|]. apply (IH _ true); [by apply rbt_Nd_red|done].
  - apply (IH _ false); [by eapply rbt_Nd_black|done].
Qed.

(** A place in a red-black tree. *)
Lemma rbk_place x k : balanced (fill x k) -> exists n, rbt (is_red x) n x /\ rbk (is_red x) n k.
Proof.
  revert x. induction k as [|[d cf j s] k IH]; intros x H.
  - destruct H as [m H]. simpl in H. rewrite (rbt_root _ _ _ H). exists m. split; [done|constructor].
  - destruct (IH _ H) as (n & Hn & Hk). rewrite is_red_Nd in Hn, Hk. destruct cf.
    + assert (Hs : rbt false n x /\ rbt false n s) by (destruct d; by apply rbt_inv_red in Hn as (_ & ? & ?)).
      destruct Hs as [Hx Hs]. rewrite (rbt_root _ _ _ Hx). exists n. split; [done|by constructor].
    + assert (Hs : exists m cx cs, n = S m /\ rbt cx m x /\ rbt cs m s).
      { destruct d; apply rbt_inv_black in Hn as (_ & m' & cl & cr & -> & ? & ?); by eexists _, _, _. }
      destruct Hs as (m' & cx & cs & -> & Hx & Hs). rewrite (rbt_root _ _ _ Hx).
      exists m'. split; [done|]. by eapply rbk_under_black.
Qed.

(** ** Insertion *)
Lemma fix_add_rb x k n : rbt true n x -> rbk false n k -> balanced (black (fix_add x k)).
Proof.
  remember (length k) as len eqn:El. revert k El x n. induction len as [len IH] using lt_wf_ind. intros k -> x n Hx Hk.
  destruct k as [|[dp [] i s] k1].
  - by eapply rbt_make_black.
  - inversion Hk as [|? ? ? ? ? Hs Hk1|]; subst. destruct k1 as [|[dg cg g u] k']; [inversion Hk1|].
    inversion Hk1 as [| |? ? ? ? ? cu ? Hu Hk']; subst. simpl. destruct (is_red u) eqn:Eu; rewrite (rbt_root _ _ _ Hu) in Eu; subst cu.
    + apply (IH (length k')) with (n := S n); [simpl; lia|done| |done].
      apply rbt_Nd_red; [by eapply rbt_Nd_black|by apply rbt_blacken_red].
    + apply balanced_black. destruct (Bool.eqb dp dg).
      * eapply (rb_fill false (S n) k' _ Hk' false); [|done]. eapply rbt_Nd_black; [exact Hx|]. by apply rbt_Nd_red.
      * destruct x as [|cx ix l r]; [inversion Hx|]. pose proof (rbt_root _ _ _ Hx) as Hc. simpl in Hc. subst cx.
        eapply (rb_fill false (S n) k' _ Hk' false); [|done].
        eapply rbt_Nd_black; apply rbt_Nd_red; try done; by eapply rbt_sub_red.
  - apply balanced_black. inversion Hk as [| |? ? ? ? ? cs ? Hs Hk1]; subst. simpl.
    apply (rb_fill false (S n) k1 _ Hk1 false); [by eapply rbt_Nd_black|done].
Qed.

(** ** Removal *)

(** [bar] under a sibling of the black height that the place lacks. *)
Lemma bar_rb d c i x s n cs :
  rbt false n x -> rbt cs (S n) s -> is_red s = false ->
  match bar d c i x s with
  | inl t => exists a b js, t = Nd d c i x (Nd d true js a b) /\ rbt true n (Nd d true js a b)
  | inr t => if c then rbt true (S n) t else rbt false (S (S n)) t
  end.
Proof.
  intros Hx Hs Hr. destruct s as [|[] js l r]; [inversion Hs|done|].
  destruct (rbt_sub_black _ _ _ _ _ d Hs) as (m & ca & [= <-] & Ha).
  destruct (rbt_sub_black _ _ _ _ _ (negb d) Hs) as (m & cb & [= <-] & Hb). simpl.
  set (a := pick d l r) in *. set (b := pick (negb d) l r) in *.
  assert (Hc : forall t u, rbt false (S n) t -> rbt false (S n) u -> forall j,
    if c then rbt true (S n) (Nd d c j t u) else rbt false (S (S n)) (Nd d c j t u)).
  { intros t u Ht Hu j. destruct c; [by apply rbt_Nd_red|by eapply rbt_Nd_black]. }
  destruct (is_red b) eqn:Eb; rewrite (rbt_root _ _ _ Hb) in Eb; subst cb.
  - apply Hc; [by eapply rbt_Nd_black|by apply rbt_blacken_red].
  - destruct a as [|[] ja al ar] eqn:Ea.
    + exists E, b, js. split; [done|]. apply rbt_Nd_red; [|done]. inversion Ha; subst. exact Ha.
    + pose proof (rbt_inv_red _ _ _ _ _ Ha) as (-> & _ & _).
      apply Hc; eapply rbt_Nd_black; try done; by eapply rbt_sub_red.
    + exists (N false ja al ar), b, js. split; [done|]. apply rbt_Nd_red; [|done]. by destruct (rbt_inv_black _ _ _ _ _ Ha) as [-> _].
Qed.

Lemma fix_del_red t k : is_red t = true -> fix_del t k = fill (black t) k.
Proof. intros H. destruct k as [|[d c i s] k]; [done|]. cbn [fix_del]. by rewrite H. Qed.

Lemma fix_del_rb x k n : rbt false n x -> rbk false (S n) k -> balanced (fix_del x k).
Proof.
  revert x n. induction k as [|[d c i s] k IH]; intros x n Hx Hk; [by apply balanced_black; exists n|].
  cbn [fix_del]. rewrite (rbt_root _ _ _ Hx).
  destruct s as [|[] js l r].
  - exfalso. inversion Hk as [| ? ? ? ? ? Hs|? ? ? ? ? ? ? Hs]; subst; inversion Hs.
  - inversion Hk as [|? ? ? ? ? Hs Hk'|? ? ? ? ? cs ? Hs Hk']; subst; [inversion Hs|].
    pose proof (rbt_sub_red _ _ _ _ _ d Hs) as Ha. pose proof (rbt_sub_red _ _ _ _ _ (negb d) Hs) as Hb.
    pose proof (bar_rb d true i x _ n _ Hx Ha (rbt_root _ _ _ Ha)) as Hbar.
    assert (Hk1 : rbk true (S n) (F d false js (pick (negb d) l r) :: k)) by (by eapply rbk_under_black).
    destruct (bar d true i x (pick d l r)) as [t|t].
    + destruct Hbar as (a & b & jb & -> & Hab). rewrite black_Nd.
      apply (rb_fill true (S n) _ _ Hk1 false); [|done]. by eapply rbt_Nd_black.
    + apply balanced_black. by apply (rb_fill true (S n) _ _ Hk1 true).
  - assert (Hs : rbt false (S n) (N false js l r)).
    { inversion Hk as [| |? ? ? ? ? cs ? Hs ?]; subst; [done|]. by destruct (rbt_inv_black _ _ _ _ _ Hs) as [-> _]. }
    pose proof (bar_rb d c i x _ n _ Hx Hs eq_refl) as Hbar.
    destruct (bar d c i x (N false js l r)) as [t|t].
    + destruct Hbar as (a & b & jb & -> & Hab).
      assert (Hbl : rbt false (S n) (Nd d false i x (Nd d true jb a b))) by (by eapply rbt_Nd_black).
      inversion Hk as [|? ? ? ? ? _ Hk'|? ? ? ? ? ? ? _ Hk']; subst.
      * rewrite fix_del_red by apply is_red_Nd. rewrite black_Nd. by apply (rb_fill true (S n) _ _ Hk' false).
      * by apply (IH _ (S n)).
    + apply balanced_black. inversion Hk as [|? ? ? ? ? _ Hk'|? ? ? ? ? ? ? _ Hk']; subst.
      * by apply (rb_fill true (S n) _ _ Hk' true).
      * by apply (rb_fill false (S (S n)) _ _ Hk' false).
Qed.

(** The removal of a node. *)
Lemma spliced_rb c t k n l r i :
  rbt c n (N c i l r) -> rbk c n k -> l = E \/ r = E -> t = only l r -> balanced (spliced c t k).
Proof.
  intros Ht Hk Hlr ->. destruct c; simpl.
  - apply rbt_inv_red in Ht as (_ & Hl & Hr).
    apply (rb_fill true n _ _ Hk false); [|done]. destruct (only_sub l r Hlr) as [-> | ->]; done.
  - apply rbt_inv_black in Ht as (_ & m & cl & cr & -> & Hl & Hr).
    assert (Ho : exists co, rbt co m (only l r)) by (destruct (only_sub l r Hlr) as [-> | ->]; by eexists).
    destruct Ho as [[] Ho]; [|by eapply fix_del_rb].
    rewrite fix_del_red by (by eapply rbt_root). apply (rb_fill false (S m) _ _ Hk false); [|done]. by apply rbt_blacken_red.
Qed.

Lemma del_node_rb c j l r k : balanced (fill (N c j l r) k) -> balanced (del_node c j l r k).
Proof.
  intros Hb. destruct (rbk_place (N c j l r) k Hb) as (n & Ht & Hk). cbn [is_red] in Ht, Hk.
  destruct l as [|cl jl ll rl]; [eapply spliced_rb; eauto|]. destruct r as [|cr jr lr rr]; [eapply spliced_rb; eauto|].
  set (l := N cl jl ll rl) in *. set (r := N cr jr lr rr) in *. cbn [del_node].
  destruct (successor_place c j l r k ltac:(done)) as (cm & jm & rm & km & Elm & Ef & _).
  unfold del_node. fold r. fold l. change (N cl jl ll rl) with l. rewrite Elm.
  set (j' := mkInfo (ip j) (iv jm) (isz jm)).
  assert (Hb' : balanced (fill (N cm jm E rm) (km ++ F true c j' l :: k))).
  { rewrite fill_app. pose proof (fill_leftmost r []) as Hf. rewrite Elm in Hf. cbn [fst snd] in Hf. rewrite Hf.
    apply (rb_fill c n k _ Hk c); [|done]. simpl. destruct c.
    - apply rbt_inv_red in Ht as (_ & ? & ?). by apply rbt_red.
    - apply rbt_inv_black in Ht as (_ & m & c1 & c2 & -> & ? & ?). by eapply rbt_black. }
  destruct (rbk_place (N cm jm E rm) _ Hb') as (n' & Ht' & Hk'). cbn [is_red] in Ht', Hk'.
  eapply spliced_rb; [exact Ht'|exact Hk'|by left|done].
Qed.

(** ** Height *)
Lemma rbt_height c n t : rbt c n t -> (height t <= 2 * n + (if c then 1 else 0))%nat.
Proof. induction 1; simpl in *; try lia; repeat match goal with c : bool |- _ => destruct c end; lia. Qed.

Lemma rbt_size c n t : rbt c n t -> (2 ^ n <= S (length (infos t)))%nat.
Proof.
  induction 1; simpl; [lia| |]; rewrite length_app; simpl; try lia.
Qed.

(** The height of a red-black tree of [m] nodes. *)
Lemma balanced_height t : balanced t -> (height t <= 2 * Nat.log2 (S (length (infos t))))%nat.
Proof.
  intros [n H]. pose proof (rbt_height _ _ _ H) as Hh. pose proof (rbt_size _ _ _ H) as Hs. simpl in Hh.
  assert (n <= Nat.log2 (S (length (infos t))))%nat; [|lia].
  apply Nat.log2_le_pow2; lia.
Qed.

End Balance.
End TreeBalance.
