(* ===== verification/TreeSpec.v ===== *)
(** * Red-black trees as sorted lists

    What the operations of [Trees] mean: the contents of an index are a list sorted by its
    function of comparison; insertion, removal, search and iteration are those of the list,
    also when memory runs out, and keep the tree balanced. *)

From S2P Require Import Prelude.
From S2P Require Import Trees.
From S2P Require Import TreeShapes.
From S2P Require Import TreeRuns.
From S2P Require Import TreeWalk.
From S2P Require Import TreeRemoval.
From S2P Require Import TreeBalance.
From Stdlib Require Import ZArith Lia List Sorting.Sorted.
From stdpp Require Import base numbers list gmap.

Open Scope Z_scope.

Module TreeSpec.
Import Trees TreeShapes TreeRuns TreeWalk TreeRemoval TreeBalance.

(** ** Sorted lists of contents and sizes *)

(** A function of comparison is that of an order: keys and contents have places in it, and
    the result tells on which side of the first argument the second is. *)
Class Ordered {C K : Type} (cmp : cmp_fn C K) := {
  ord : Type;
  before_in : ord -> ord -> Prop;
  rank : C -> ord;
  dest : K + C -> ord;
  order_strict : StrictOrder before_in;
  dest_content c : dest (inr c) = rank c;
  cmp_pos a y : 0 < cmp a y <-> before_in (rank a) (dest y);
  cmp_zero a y : cmp a y = 0 <-> rank a = dest y;
  cmp_neg a y : cmp a y < 0 <-> before_in (dest y) (rank a)
}.
#[export] Existing Instance order_strict.

Section Lists.
Context {C K : Type} {cmp : cmp_fn C K} {OR : Ordered cmp}.
Implicit Types (l : list (C * Z)) (y : K + C) (e a b : C * Z).

Definition sorted l : Prop := StronglySorted (fun a b => before_in (rank a.1) (rank b.1)) l.

(** The element at the place [y]. *)
Fixpoint look y l : option (C * Z) :=
  match l with [] => None | a :: l' => if cmp a.1 y =? 0 then Some a else look y l' end.

(** The list with [e] put at its place: in place of what is there. *)
Fixpoint put e l : list (C * Z) :=
  match l with
  | [] => [e]
  | a :: l' =>
      if cmp a.1 (inr e.1) =? 0 then e :: l'
      else if 0 <? cmp a.1 (inr e.1) then a :: put e l' else e :: a :: l'
  end.

(** The list without what is at the place [y]. *)
Fixpoint drop_at y l : list (C * Z) :=
  match l with [] => [] | a :: l' => if cmp a.1 y =? 0 then l' else a :: drop_at y l' end.

(** What is on the left and on the right of the place [y]. *)
Definition lefts y l : Prop := Forall (fun e => 0 < cmp e.1 y) l.
Definition rights y l : Prop := Forall (fun e => cmp e.1 y < 0) l.

Lemma sorted_app l1 l2 :
  sorted (l1 ++ l2) <-> sorted l1 /\ sorted l2 /\ (forall a b, a ∈ l1 -> b ∈ l2 -> before_in (rank a.1) (rank b.1)).
Proof.
  unfold sorted. induction l1 as [|a l1 IH]; simpl.
  - split; [intros H; split; [constructor|]; split; [done|]; intros a b Ha; by apply elem_of_nil in Ha|tauto].
  - split.
    + intros [H1 H2]%StronglySorted_inv. apply IH in H1 as (H1 & H3 & H4). apply Forall_app in H2 as [H2 H5].
      split; [by constructor|]. split; [done|]. intros a' b [->|Ha]%elem_of_cons Hb; [by eapply Forall_forall in H5|by apply H4].
    + intros ([H1 H2]%StronglySorted_inv & H3 & H4). constructor.
      * apply IH. split; [done|]. split; [done|]. intros a' b Ha Hb. apply H4; [by constructor|done].
      * apply Forall_app. split; [done|]. apply Forall_forall. intros b Hb. apply H4; [by constructor|done].
Qed.

Lemma sorted_cons a l : sorted (a :: l) <-> sorted l /\ (forall b, b ∈ l -> before_in (rank a.1) (rank b.1)).
Proof.
  unfold sorted. split.
  - intros [H1 H2]%StronglySorted_inv. split; [done|]. by apply Forall_forall.
  - intros [H1 H2]. constructor; [done|]. by apply Forall_forall.
Qed.

Lemma look_lefts y l1 l2 : lefts y l1 -> look y (l1 ++ l2) = look y l2.
Proof. induction 1 as [|a l1 Ha _ IH]; [done|]. simpl. destruct (Z.eqb_spec (cmp a.1 y) 0); [lia|done]. Qed.
Lemma look_rights y l : rights y l -> look y l = None.
Proof. induction 1 as [|a l Ha _ IH]; [done|]. simpl. destruct (Z.eqb_spec (cmp a.1 y) 0); [lia|done]. Qed.
Lemma put_lefts e l1 l2 : lefts (inr e.1) l1 -> put e (l1 ++ l2) = l1 ++ put e l2.
Proof.
  induction 1 as [|a l1 Ha _ IH]; [done|]. simpl. rewrite IH.
  destruct (Z.eqb_spec (cmp a.1 (inr e.1)) 0); [lia|]. by destruct (Z.ltb_spec 0 (cmp a.1 (inr e.1))); [|lia].
Qed.
Lemma put_rights e l : rights (inr e.1) l -> put e l = e :: l.
Proof.
  destruct 1 as [|a l Ha _]; [done|]. simpl.
  destruct (Z.eqb_spec (cmp a.1 (inr e.1)) 0); [lia|]. by destruct (Z.ltb_spec 0 (cmp a.1 (inr e.1))); [lia|].
Qed.
Lemma drop_lefts y l1 l2 : lefts y l1 -> drop_at y (l1 ++ l2) = l1 ++ drop_at y l2.
Proof. induction 1 as [|a l1 Ha _ IH]; [done|]. simpl. rewrite IH. destruct (Z.eqb_spec (cmp a.1 y) 0); [lia|done]. Qed.
Lemma drop_rights y l : rights y l -> drop_at y l = l.
Proof. induction 1 as [|a l Ha _ IH]; [done|]. simpl. rewrite IH. destruct (Z.eqb_spec (cmp a.1 y) 0); [lia|done]. Qed.

(** The place of [y] splits a sorted list. *)
Lemma lefts_before y l a : (forall b, b ∈ l -> before_in (rank b.1) (rank a.1)) -> 0 <= cmp a.1 y -> lefts y l.
Proof.
  intros Hl Ha. apply Forall_forall. intros b Hb. apply cmp_pos. specialize (Hl b Hb).
  destruct (Z.eq_dec (cmp a.1 y) 0) as [H0%cmp_zero|H0]; [by rewrite <- H0|].
  etrans; [exact Hl|]. apply cmp_pos. lia.
Qed.
Lemma rights_after y l a : (forall b, b ∈ l -> before_in (rank a.1) (rank b.1)) -> cmp a.1 y <= 0 -> rights y l.
Proof.
  intros Hl Ha. apply Forall_forall. intros b Hb. apply cmp_neg. specialize (Hl b Hb).
  destruct (Z.eq_dec (cmp a.1 y) 0) as [H0%cmp_zero|H0]; [by rewrite <- H0|].
  etrans; [|exact Hl]. apply cmp_neg. lia.
Qed.

(** The operations keep the order. *)
Lemma put_sorted e l : sorted l -> sorted (put e l).
Proof.
  induction l as [|a l IH]; intros H; simpl; [by apply sorted_cons; split; [|intros b Hb; apply elem_of_nil in Hb]|].
  apply sorted_cons in H as [Hl Ha]. destruct (Z.eqb_spec (cmp a.1 (inr e.1)) 0) as [H0|H0].
  - apply cmp_zero in H0. rewrite dest_content in H0. apply sorted_cons. rewrite <- H0. done.
  - destruct (Z.ltb_spec 0 (cmp a.1 (inr e.1))) as [H1|H1].
    + apply sorted_cons. split; [by apply IH|]. apply cmp_pos in H1. rewrite dest_content in H1.
      assert (Hput : forall b, b ∈ put e l -> b = e \/ b ∈ l).
      { clear. induction l as [|c l IH]; simpl; intros b; [by intros ->%list_elem_of_singleton; left|].
        destruct (_ =? 0); [|destruct (0 <? _)]; rewrite !elem_of_cons; naive_solver. }
      intros b [-> | Hb]%Hput; [done|by apply Ha].
    + apply sorted_cons. split; [by apply sorted_cons|].
      assert (Hn : before_in (rank e.1) (rank a.1)) by (rewrite <- dest_content; apply cmp_neg; lia).
      intros b [-> | Hb]%elem_of_cons; [done|]. etrans; [exact Hn|by apply Ha].
Qed.

Lemma drop_sorted y l : sorted l -> sorted (drop_at y l).
Proof.
  induction l as [|a l IH]; intros H; simpl; [done|]. apply sorted_cons in H as [Hl Ha].
  destruct (cmp a.1 y =? 0); [done|]. apply sorted_cons. split; [by apply IH|].
  assert (Hd : forall b, b ∈ drop_at y l -> b ∈ l).
  { clear. induction l as [|c l IH]; simpl; intros b; [done|]. destruct (_ =? 0); rewrite ?elem_of_cons; naive_solver. }
  intros b Hb. apply Ha. by apply Hd.
Qed.

(** What is put and taken away. *)
Lemma look_None y l : look y l = None <-> forall e, e ∈ l -> cmp e.1 y <> 0.
Proof.
  induction l as [|a l IH]; simpl; [split; [intros _ e He; by apply elem_of_nil in He|done]|].
  destruct (Z.eqb_spec (cmp a.1 y) 0) as [H|H].
  - split; [done|]. intros He. by destruct (He a ltac:(by constructor)).
  - rewrite IH. split; [intros He e [-> | Hi]%elem_of_cons; auto|]. intros He e Hi. apply He. by constructor.
Qed.

Lemma put_perm e l : look (inr e.1) l = None -> put e l ≡ₚ e :: l.
Proof.
  induction l as [|a l IH]; simpl; [done|]. destruct (cmp a.1 (inr e.1) =? 0); [done|].
  intros Hl. destruct (0 <? cmp a.1 (inr e.1)); [|done]. rewrite (IH Hl). apply Permutation_swap.
Qed.

Lemma drop_perm y l e : look y l = Some e -> l ≡ₚ e :: drop_at y l.
Proof.
  induction l as [|a l IH]; simpl; [done|]. destruct (cmp a.1 y =? 0); [by intros [= ->]|].
  intros Hl. rewrite (IH Hl) at 1. apply Permutation_swap.
Qed.

Lemma look_drop y l : sorted l -> look y (drop_at y l) = None.
Proof.
  induction l as [|a l IH]; intros H; simpl; [done|]. apply sorted_cons in H as [Hl Ha].
  destruct (Z.eqb_spec (cmp a.1 y) 0) as [H0|H0].
  - apply look_rights, (rights_after y l a Ha). lia.
  - simpl. destruct (Z.eqb_spec (cmp a.1 y) 0); [done|]. by apply IH.
Qed.

Lemma look_Some y l e : look y l = Some e -> e ∈ l /\ cmp e.1 y = 0.
Proof.
  induction l as [|a l IH]; simpl; [done|]. destruct (Z.eqb_spec (cmp a.1 y) 0) as [H|H].
  - intros [= ->]. split; [by constructor|done].
  - intros Hl. destruct (IH Hl). split; [by constructor|done].
Qed.

(** What is at the place of an element put there. *)
Lemma look_put e l : look (inr e.1) (put e l) = Some e.
Proof.
  assert (He : cmp e.1 (inr e.1) = 0) by (apply cmp_zero; by rewrite dest_content).
  induction l as [|a l IH]; simpl; [by rewrite He|].
  destruct (Z.eqb_spec (cmp a.1 (inr e.1)) 0); [by simpl; rewrite He|].
  destruct (0 <? cmp a.1 (inr e.1)); simpl; [|by rewrite He]. by destruct (Z.eqb_spec (cmp a.1 (inr e.1)) 0).
Qed.

End Lists.
Arguments sorted {C K} cmp {OR} l.
Arguments look {C K} cmp y l.
Arguments put {C K} cmp e l.
Arguments drop_at {C K} cmp y l.
Arguments lefts {C K} cmp y l.
Arguments rights {C K} cmp y l.

(** ** The tree of an index *)
Section Index.
Context {C K : Type}.
Implicit Types (t : tree_of C) (k : list (frame C)).

Definition item (j : info C) : C * Z := (iv j, isz j).
Definition entries t : list (C * Z) := map item (infos t).

(** The nodes in memory form [t], which the index [i] has as its tree and [cmp] orders. *)
Record tree_at (i : nat) (cmp : cmp_fn C K) (s : TS C K) t : Prop := {
  at_index : index (tree s) !! i = Some (mkIndex (ptr t) (Some cmp));
  at_rep : rep (nodes s) None t;
  at_nodup : NoDup (ptrs t)
}.

(** The nodes that are not of the tree. *)
Definition others (s : TS C K) t : gmap positive (Node C) := filter (fun p => p.1 ∉ ptrs t) (nodes s).

Lemma tree_at_ok i cmp s t : tree_at i cmp s t -> ok i (others s t) (tree s) (mallocs s) s t.
Proof.
  intros [Hi Hr Hn]. split; try done.
  - unfold with_root. rewrite Hi. cbn [compare]. rewrite list_insert_id by done. by destruct (tree s).
  - intros q Hq. apply map_lookup_filter_None. right. intros n _ Hn'. by apply Hn'.
  - intros q Hq. unfold others. destruct (nodes s !! q) as [n|] eqn:E; symmetry.
    + by apply map_lookup_filter_Some.
    + apply map_lookup_filter_None. by left.
Qed.

Lemma ok_tree_at i cmp X tr ml s t r :
  ok i X tr ml s t -> index tr !! i = Some (mkIndex r (Some cmp)) -> tree_at i cmp s t.
Proof.
  intros H Hi. split; [|apply H|apply H]. rewrite (ok_tree _ _ _ _ _ _ H).
  by rewrite (with_root_index i (ptr t) tr _ Hi).
Qed.

(** What an operation on an index leaves: the nodes that are not of its tree, and the
    other fields, the sizes being those of the first index. *)
Definition elsewhere (i : nat) (s : TS C K) t (s' : TS C K) t' : Prop :=
  (forall q, q ∉ ptrs t -> q ∉ ptrs t' -> nodes s' !! q = nodes s !! q) /\
  (forall j, j <> i -> index (tree s') !! j = index (tree s) !! j) /\
  indexes (tree s') = indexes (tree s) /\ allow_duplicates (tree s') = allow_duplicates (tree s) /\
  heap_tracking (tree s') = heap_tracking (tree s).

Lemma with_root_others i r (tr : Tree C K) j : j <> i -> index (with_root i r tr) !! j = index tr !! j.
Proof. intros H. unfold with_root. destruct (index tr !! i); [|done]. simpl. by apply list_lookup_insert_ne. Qed.

Lemma ok_elsewhere i cmp s t s' t' tr' ml' :
  tree_at i cmp s t -> ok i (others s t) tr' ml' s' t' -> index tr' = index (tree s) -> indexes tr' = indexes (tree s) ->
  allow_duplicates tr' = allow_duplicates (tree s) -> heap_tracking tr' = heap_tracking (tree s) -> elsewhere i s t s' t'.
Proof.
  intros Ht H H1 H2 H3 H4. pose proof (tree_at_ok _ _ _ _ Ht) as H0.
  unfold elsewhere. rewrite <- H2, <- H3, <- H4. rewrite (ok_tree _ _ _ _ _ _ H). split; [|split].
  - intros q Hq Hq'. by rewrite (ok_rest _ _ _ _ _ _ H), (ok_rest _ _ _ _ _ _ H0).
  - intros j Hj. rewrite with_root_others by done. by rewrite H1.
  - unfold with_root. by destruct (index tr' !! i).
Qed.

Context {cmp : cmp_fn C K} {OR : Ordered cmp}.

(** *** Searches *)

Lemma go_place t k y :
  sorted cmp (entries t) -> exists kk, snd (go (fun v => cmp v y) t k) = kk ++ k /\
    lefts cmp y (map item (before kk)) /\ rights cmp y (map item (after kk)) /\
    match fst (go (fun v => cmp v y) t k) with E => True | N c j l r => cmp (iv j) y = 0 end.
Proof.
  revert k. induction t as [|c j l IHl r IHr]; intros k Hs; [exists []; repeat split; constructor|].
  unfold entries in Hs. simpl in Hs. rewrite map_app in Hs. simpl in Hs.
  apply sorted_app in Hs as (Hl & Hr & Hlr). apply sorted_cons in Hr as [Hr Hjr]. simpl.
  destruct (Z.eqb_spec (cmp (iv j) y) 0) as [H0|H0]; [exists []; repeat split; [constructor|constructor|done]|].
  destruct (Z.ltb_spec 0 (cmp (iv j) y)) as [H1|H1].
  - destruct (IHr (F true c j l :: k) Hr) as (kk & E & Hb & Ha & Hf). exists (kk ++ [F true c j l]).
    rewrite before_app, after_app, !map_app, <- app_assoc. simpl. rewrite app_nil_r, map_app. simpl.
    split; [done|]. split; [|done]. apply Forall_app. split; [|done]. apply Forall_app. split; [|by constructor].
    apply (lefts_before y _ (item j)); [|simpl; lia]. intros b Hbl. apply Hlr; [done|by constructor].
  - destruct (IHl (F false c j r :: k) Hl) as (kk & E & Hb & Ha & Hf). exists (kk ++ [F false c j r]).
    rewrite before_app, after_app, !map_app, <- app_assoc. simpl. rewrite ?app_nil_r.
    split; [done|]. split; [done|]. split; [|done]. apply Forall_app. split; [done|]. constructor; [simpl; lia|].
    apply (rights_after y _ (item j)); [done|simpl; lia].
Qed.

(** A search splits the list. *)
Lemma go_split t y :
  sorted cmp (entries t) ->
  match go (fun v => cmp v y) t [] with
  | (E, k) => t = fill E k /\ exists l1 l2, entries t = l1 ++ l2 /\ map item (before k) = l1 /\ map item (after k) = l2 /\
                lefts cmp y l1 /\ rights cmp y l2
  | (N c j l r, k) => t = fill (N c j l r) k /\ cmp (iv j) y = 0 /\ exists l1 l2, entries t = l1 ++ item j :: l2 /\
                l1 = map item (before k) ++ entries l /\ l2 = entries r ++ map item (after k) /\
                lefts cmp y l1 /\ rights cmp y l2
  end.
Proof.
  intros Hs. destruct (go_place t [] y Hs) as (kk & E & Hb & Ha & Hf). rewrite app_nil_r in E.
  pose proof (fill_go (fun v => cmp v y) t []) as Hfill. simpl in Hfill.
  destruct (go (fun v => cmp v y) t []) as [[|c j l r] k]; simpl in *; subst k.
  - split; [done|]. exists (map item (before kk)), (map item (after kk)). rewrite <- Hfill at 1. unfold entries.
    rewrite infos_fill, !map_app. done.
  - split; [done|]. split; [done|]. assert (He : entries t = (map item (before kk) ++ entries l) ++ item j :: entries r ++ map item (after kk)).
    { rewrite <- Hfill. unfold entries. rewrite infos_fill, !map_app. simpl. rewrite map_app. simpl. by rewrite <- !app_assoc. }
    eexists _, _. split; [exact He|]. split; [done|]. split; [done|]. rewrite He in Hs.
    apply sorted_app in Hs as (Hl & Hr & Hlr). apply sorted_cons in Hr as [_ Hjr]. split.
    + apply (lefts_before y _ (item j)); [|simpl; lia]. intros b Hbl. apply Hlr; [done|by constructor].
    + apply (rights_after y _ (item j)); [done|simpl; lia].
Qed.

Lemma look_go t y :
  sorted cmp (entries t) ->
  look cmp y (entries t) = match fst (go (fun v => cmp v y) t []) with E => None | N _ j _ _ => Some (item j) end.
Proof.
  intros Hs. pose proof (go_split t y Hs) as H. destruct (go (fun v => cmp v y) t []) as [[|c j l r] k]; simpl.
  - destruct H as (_ & l1 & l2 & -> & _ & _ & H1 & H2). by rewrite look_lefts, look_rights.
  - destruct H as (_ & H0 & l1 & l2 & -> & _ & _ & H1 & H2). rewrite look_lefts by done. simpl. by rewrite H0.
Qed.

(** *** The sizes *)

Definition total (l : list (C * Z)) : Z := foldr (fun e z => e.2 + z) 0 l.

(** [count] and [size] of the tree are those of the list, in their types. *)
Definition sized (s : TS C K) (l : list (C * Z)) : Prop :=
  count (tree s) = to_i32 (Zlen l) /\ tsize (tree s) = to_u64 (total l).

Lemma total_app l1 l2 : total (l1 ++ l2) = total l1 + total l2.
Proof. induction l1 as [|a l1 IH]; simpl; [done|]. rewrite IH. lia. Qed.

Lemma total_cons e l : total (e :: l) = e.2 + total l.
Proof. done. Qed.

Lemma to_i32_mod a : to_i32 a mod 4294967296 = a mod 4294967296.
Proof. unfold to_i32. destruct (Z.ltb_spec (a mod 4294967296) 2147483648); dlia. Qed.

Lemma to_i32_add a b : to_i32 (to_i32 a + b) = to_i32 (a + b).
Proof.
  unfold to_i32 at 1 3. rewrite <- (Z.add_mod_idemp_l (to_i32 a)), to_i32_mod, Z.add_mod_idemp_l by done. done.
Qed.

Lemma to_u64_add a b : to_u64 (to_u64 a + b) = to_u64 (a + b).
Proof. unfold to_u64. by rewrite Z.add_mod_idemp_l. Qed.
Lemma to_u64_add_r a b : to_u64 (a + to_u64 b) = to_u64 (a + b).
Proof. unfold to_u64. by rewrite Z.add_mod_idemp_r. Qed.

Lemma sized_counted i X tr ml s t r n z l l' :
  ok i X (counted i n z tr) ml s t -> i = O -> index tr !! i = Some r ->
  count tr = to_i32 (Zlen l) /\ tsize tr = to_u64 (total l) ->
  Zlen l' = Zlen l + n -> total l' = total l + z -> sized s l'.
Proof.
  intros Hs -> _ [Hc Hz] Hn Ht. unfold sized. rewrite (ok_tree _ _ _ _ _ _ Hs), count_root, tsize_root. simpl.
  by rewrite Hc, Hz, to_i32_add, to_u64_add, Hn, Ht.
Qed.

Lemma sized_resized i X tr ml s t z l l' :
  ok i X (resized i z tr) ml s t -> i = O ->
  count tr = to_i32 (Zlen l) /\ tsize tr = to_u64 (total l) ->
  Zlen l' = Zlen l -> total l' = total l + z -> sized s l'.
Proof.
  intros Hs -> [Hc Hz] Hn Ht. unfold sized. rewrite (ok_tree _ _ _ _ _ _ Hs), count_root, tsize_root. simpl.
  by rewrite Hc, Hz, to_u64_add, to_u64_add_r, Hn, Ht.
Qed.

(** *** Operations on an index *)

(** What an operation with the result [r] leaves of an index with the contents [l]: the
    contents [l'], and [ml] of the next results of [malloc]; a tree that was balanced still
    is, provided that [keeps]. *)
Definition leaves {A} (i : nat) (m : SM (TS C K) A) (s : TS C K) t (r : A) (l' : list (C * Z)) (ml : list bool) (keeps : Prop) : Prop :=
  exists s' t', m s = Ok (r, s') /\ tree_at i cmp s' t' /\ entries t' = l' /\ mallocs s' = ml /\ elsewhere i s t s' t' /\
    (i = O -> sized s (entries t) -> sized s' l') /\ (keeps -> balanced t -> balanced t').

Lemma entries_black t : entries (black t) = entries t.
Proof. unfold entries. by rewrite infos_black. Qed.

(** [TreeAddByIndex] when the key is new: a node is added, if there is memory. *)
Lemma add_index_new i s t c z :
  tree_at i cmp s t -> sorted cmp (entries t) -> look cmp (inr c) (entries t) = None ->
  default true (head (mallocs s)) = true ->
  leaves i (TreeAddByIndex c z i) s t (Some c) (put cmp (c, z) (entries t)) (tail (mallocs s)) True.
Proof.
  intros Ht Hs Hl Hm. pose proof (tree_at_ok _ _ _ _ Ht) as Hok. pose proof (at_index _ _ _ _ Ht) as Hi.
  pose proof (look_go t (inr c) Hs) as Hg. rewrite Hl in Hg. pose proof (go_split t (inr c) Hs) as Hsp.
  destruct (go (fun v => cmp v (inr c)) t []) as [[|cj j l r] k] eqn:Eg; [|done].
  destruct Hsp as (Ef & l1 & l2 & He & H1 & H2 & Hl1 & Hl2).
  destruct (add_leaf (Hx:=Hi) cmp c z s t k eq_refl Hm Hok Eg) as (s' & p & Er & Hp & Hok').
  set (t' := black (fix_add (N true (mkInfo p c z) E E) k)) in *.
  assert (He' : entries t' = put cmp (c, z) (entries t)).
  { rewrite He, put_lefts, put_rights by done. unfold t'. rewrite entries_black. unfold entries.
    by rewrite infos_fix_add, infos_fill, !map_app, H1, H2. }
  exists s', t'. split; [done|]. split; [by eapply ok_tree_at; [exact Hok'|apply has_index_counted]|]. split; [done|].
  split; [apply (ok_mallocs _ _ _ _ _ _ Hok')|]. split; [|split].
  - eapply ok_elsewhere; [done|exact Hok'|..]; unfold counted; by destruct (Nat.eqb i 0).
  - intros Hi0 Hz. eapply (sized_counted i _ (tree s) _ _ _ _ 1 z); [done|done|done|exact Hz|..];
      rewrite He, put_lefts, put_rights by done; [zlen|rewrite !total_app; simpl; lia].
  - intros _ Hb. rewrite Ef in Hb. destruct (rbk_place E k Hb) as (n & Hn & Hk). inversion Hn; subst n.
    apply (fix_add_rb _ _ 0); [by apply rbt_red; constructor|done].
Qed.

(** The search of an insertion when the key is there. *)
Lemma found_place i s t y e :
  tree_at i cmp s t -> sorted cmp (entries t) -> look cmp y (entries t) = Some e ->
  exists c j l r k, go (fun v => cmp v y) t [] = (N c j l r, k) /\ t = fill (N c j l r) k /\ e = item j /\
    cmp (iv j) y = 0 /\ lefts cmp y (map item (before k) ++ entries l) /\ rights cmp y (entries r ++ map item (after k)) /\
    entries t = (map item (before k) ++ entries l) ++ item j :: entries r ++ map item (after k).
Proof.
  intros Ht Hs Hl. pose proof (look_go t y Hs) as Hg. rewrite Hl in Hg. pose proof (go_split t y Hs) as Hsp.
  destruct (go (fun v => cmp v y) t []) as [[|c j l r] k] eqn:Eg; [done|].
  destruct Hsp as (Ef & H0 & l1 & l2 & He & -> & -> & Hl1 & Hl2). injection Hg as ->.
  by exists c, j, l, r, k.
Qed.

(** When the key is there, the new content replaces the old one. *)
Lemma add_index_found i s t c z e :
  tree_at i cmp s t -> sorted cmp (entries t) -> allow_duplicates (tree s) = false ->
  look cmp (inr c) (entries t) = Some e ->
  leaves i (TreeAddByIndex c z i) s t (Some c) (put cmp (c, z) (entries t)) (mallocs s) False.
Proof.
  intros Ht Hs Hd Hl. pose proof (tree_at_ok _ _ _ _ Ht) as Hok. pose proof (at_index _ _ _ _ Ht) as Hi.
  destruct (found_place i s t _ e Ht Hs Hl) as (cj & j & l & r & k & Eg & Ef & -> & H0 & Hl1 & Hl2 & He).
  destruct (add_found (Hx:=Hi) cmp c z s t cj j l r k eq_refl Hd Hok Eg) as (s' & Er & Hok').
  set (t' := black _) in Hok'.
  assert (Hput : put cmp (c, z) (entries t) = (map item (before k) ++ entries l) ++ (c, z) :: entries r ++ map item (after k)).
  { rewrite He, put_lefts by done. simpl. by rewrite H0. }
  assert (He' : entries t' = put cmp (c, z) (entries t)).
  { rewrite Hput. unfold t'. rewrite entries_black. unfold entries. rewrite infos_fix_add, infos_fill, !map_app. simpl.
    rewrite !map_app. simpl. by rewrite <- !app_assoc. }
  exists s', t'. split; [done|]. split; [by eapply ok_tree_at; [exact Hok'|apply has_index_resized]|]. split; [done|].
  split; [apply (ok_mallocs _ _ _ _ _ _ Hok')|]. split; [|split].
  - eapply ok_elsewhere; [done|exact Hok'|..]; unfold resized; by destruct (Nat.eqb i 0).
  - intros Hi0 Hz. eapply (sized_resized i _ (tree s)); [done|done|exact Hz|..]; rewrite He, put_lefts by done; simpl; rewrite H0; simpl.
    + zlen.
    + rewrite !total_app. simpl. lia.
  - done.
Qed.

(** When there is no memory for a node nothing changes. *)
Lemma add_index_no_memory i s t c z ml :
  tree_at i cmp s t -> sorted cmp (entries t) -> look cmp (inr c) (entries t) = None -> mallocs s = false :: ml ->
  leaves i (TreeAddByIndex c z i) s t None (entries t) ml True.
Proof.
  intros Ht Hs Hl Hm. pose proof (tree_at_ok _ _ _ _ Ht) as Hok. pose proof (at_index _ _ _ _ Ht) as Hi.
  pose proof (look_go t (inr c) Hs) as Hg. rewrite Hl in Hg.
  destruct (go (fun v => cmp v (inr c)) t []) as [[|cj j l r] k] eqn:Eg; [|done].
  destruct (add_no_memory (Hx:=Hi) cmp c z s t k ml eq_refl Hm Hok Eg) as (s' & Er & Hok').
  exists s', t. split; [done|]. split; [by eapply ok_tree_at|]. split; [done|].
  split; [apply (ok_mallocs _ _ _ _ _ _ Hok')|]. split; [by eapply ok_elsewhere|]. split; [|done].
  intros _ Hz. unfold sized. by rewrite (ok_tree _ _ _ _ _ _ Hok'), <- (ok_tree _ _ _ _ _ _ Hok).
Qed.

(** A duplicate is refused when the tree allows duplicates. *)
Lemma add_index_refused i s t c z e :
  tree_at i cmp s t -> sorted cmp (entries t) -> allow_duplicates (tree s) = true ->
  look cmp (inr c) (entries t) = Some e -> TreeAddByIndex c z i s = Ok (None, s).
Proof.
  intros Ht Hs Hd Hl. pose proof (tree_at_ok _ _ _ _ Ht) as Hok. pose proof (at_index _ _ _ _ Ht) as Hi.
  destruct (found_place i s t _ e Ht Hs Hl) as (cj & j & l & r & k & Eg & _).
  by eapply (add_refused (Hx:=Hi) cmp c z s t).
Qed.

(** [TreeFindIndex1] finds the node of the element looked for. *)
Lemma find_index i s t y :
  tree_at i cmp s t -> sorted cmp (entries t) ->
  exists p, TreeFindIndex1 y i s = Ok (p, s) /\
    match look cmp y (entries t) with
    | None => p = None
    | Some e => exists c j l r k, p = Some (ip j) /\ e = item j /\ t = fill (N c j l r) k /\
        nodes s !! ip j = Some (mk_node LEFT (cpar k) (ptr l) (ptr r) j c) /\
        cmp (iv j) y = 0 /\ lefts cmp y (map item (before k) ++ entries l) /\
        entries t = (map item (before k) ++ entries l) ++ item j :: entries r ++ map item (after k)
    end.
Proof.
  intros Ht Hs. pose proof (tree_at_ok _ _ _ _ Ht) as Hok. pose proof (at_index _ _ _ _ Ht) as Hi.
  pose proof (runs_read _ _ _ _ (runs_FindIndex1 (Hx:=Hi) cmp y t eq_refl) Hok) as Er.
  eexists. split; [exact Er|]. destruct (look cmp y (entries t)) as [e|] eqn:Hl.
  - destruct (found_place i s t y e Ht Hs Hl) as (c & j & l & r & k & Eg & Ef & -> & H0 & Hl1 & _ & He).
    rewrite Eg. exists c, j, l, r, k. split; [done|]. split; [done|]. split; [done|]. split; [|done].
    rewrite Ef in Hok. by apply (ok_lookup s LEFT c j l r k Hok).
  - rewrite look_go in Hl by done. by destruct (fst (go (fun v => cmp v y) t [])).
Qed.

Lemma entries_spliced c x k : entries (spliced c x k) = map item (before k) ++ entries x ++ map item (after k).
Proof.
  unfold spliced, entries. destruct c; rewrite ?infos_fix_del, infos_fill, !map_app; done.
Qed.

Lemma entries_del_node c j l r k :
  entries (del_node c j l r k) = map item (before k) ++ entries l ++ entries r ++ map item (after k).
Proof.
  destruct l as [|cl jl ll rl]; [apply entries_spliced|].
  destruct r as [|cr jr lr rr]; [by unfold del_node; rewrite entries_spliced|].
  unfold del_node. destruct (leftmost_spec (N cr jr lr rr) [] ltac:(done)) as (cm & jm & rm & km & Elm & Hb & Hi).
  assert (Her : entries (N cr jr lr rr) = item jm :: map item (infos rm) ++ map item (after km)) by (unfold entries; rewrite Hi; simpl; by rewrite map_app).
  rewrite Her. rewrite app_nil_r in Elm. rewrite Elm, entries_spliced, before_app, after_app, Hb, app_nil_r.
  cbn [before after app]. rewrite !map_app. unfold entries. cbn [map]. rewrite <- !app_assoc. by destruct jm.
Qed.

(** [TreeRemoveNodeIndex] on a node of the tree. *)
Lemma remove_node_index i s t y c j l r k :
  tree_at i cmp s t -> t = fill (N c j l r) k -> cmp (iv j) y = 0 -> lefts cmp y (map item (before k) ++ entries l) ->
  leaves i (TreeRemoveNodeIndex (ip j) i) s t (Some (iv j)) (drop_at cmp y (entries t)) (mallocs s) True.
Proof.
  intros Ht Ef H0 Hl1. pose proof (tree_at_ok _ _ _ _ Ht) as Hok. pose proof (at_index _ _ _ _ Ht) as Hi.
  assert (Hok2 : ok i (others s t) (tree s) (mallocs s) s (fill (N c j l r) k)) by (by rewrite <- Ef).
  destruct (remove_node (Hx:=Hi) s c j l r k Hok2) as (s' & Er & Hok').
  assert (He : entries t = (map item (before k) ++ entries l) ++ item j :: entries r ++ map item (after k)).
  { rewrite Ef. unfold entries. rewrite infos_fill, !map_app. simpl. rewrite map_app. simpl. by rewrite <- !app_assoc. }
  assert (Hd : drop_at cmp y (entries t) = (map item (before k) ++ entries l) ++ entries r ++ map item (after k)).
  { rewrite He, drop_lefts by done. simpl. by rewrite H0. }
  exists s', (del_node c j l r k). split; [done|]. split; [by eapply ok_tree_at; [exact Hok'|apply has_index_counted]|].
  split; [by rewrite entries_del_node, Hd, <- app_assoc|].
  split; [apply (ok_mallocs _ _ _ _ _ _ Hok')|]. split; [|split].
  - eapply ok_elsewhere; [done|exact Hok'|..]; unfold counted; by destruct (Nat.eqb i 0).
  - intros Hi0 Hz. eapply (sized_counted i _ (tree s) _ _ _ _ (-1) (- isz j)); [done|done|done|exact Hz|..]; rewrite Hd, He.
    + zlen.
    + rewrite !total_app, total_cons, !total_app. change ((item j).2) with (isz j). lia.
  - intros _ Hb. rewrite Ef in Hb. by apply del_node_rb.
Qed.

(** *** Iteration *)

(** The loop of a client over the elements: [while ((cur = TreeNextElement(tree, cur)))]. *)
Fixpoint walk (fuel : nat) (cur : option positive) : SM (TS C K) (list C) :=
  match fuel with
  | O => sm_oob
  | S fuel' =>
      p ← TreeNextElement cur;
      match p with
      | None => mret []
      | Some q =>
          n ← node_at q;
          match content n with
          | Some c => rest ← walk fuel' (Some q); mret (c :: rest)
          | None => sm_oob
          end
      end
  end.

Lemma runs_walk X tr ml r fuel t l1 l2 (cur : option positive) :
  index tr !! O = Some r -> infos t = l1 ++ l2 ->
  match cur with None => l1 = [] | Some p => exists l0 j, l1 = l0 ++ [j] /\ p = ip j end ->
  (length l2 < fuel)%nat -> runs (i:=O) (X:=X) (tr:=tr) (ml:=ml) t (walk fuel cur) (map iv l2) t.
Proof.
  intros Hi. revert fuel l1 cur. induction l2 as [|j l2 IH]; intros fuel l1 cur Ht Hc Hf; (destruct fuel as [|fuel]; [simpl in Hf; lia|]).
  - assert (Hn : runs (i:=O) (X:=X) (tr:=tr) (ml:=ml) t (TreeNextElement cur) None t).
    { destruct cur as [p|].
      - destruct Hc as (l0 & j & -> & ->). rewrite <- app_assoc in Ht. apply (runs_next t l0 j [] Ht).
      - subst l1. simpl in Ht. pose proof (runs_next_first (X:=X) (ml:=ml) (Hx:=Hi) t) as H. unfold ptrs in H. by rewrite Ht in H. }
    cbn [walk]. eapply runs_bind; [exact Hn|apply runs_ret].
  - assert (Hn : runs (i:=O) (X:=X) (tr:=tr) (ml:=ml) t (TreeNextElement cur) (Some (ip j)) t).
    { destruct cur as [p|].
      - destruct Hc as (l0 & j0 & -> & ->). rewrite <- app_assoc in Ht. apply (runs_next t l0 j0 (j :: l2) Ht).
      - subst l1. simpl in Ht. pose proof (runs_next_first (X:=X) (ml:=ml) (Hx:=Hi) t) as H. unfold ptrs in H. by rewrite Ht in H. }
    cbn [walk]. eapply runs_bind; [exact Hn|].
    destruct (find_place t [] l1 j l2 Ht) as (c & l & r' & k & Ef & _ & _). simpl in Ef.
    assert (Hr : runs (i:=O) (X:=X) (tr:=tr) (ml:=ml) t (walk fuel (Some (ip j))) (map iv l2) t).
    { apply (IH fuel (l1 ++ [j])); [by rewrite <- app_assoc|by exists l1, j|simpl in Hf; lia]. }
    assert (Hnode : runs (i:=O) (X:=X) (tr:=tr) (ml:=ml) t (node_at (ip j)) (mk_node LEFT (cpar k) (ptr l) (ptr r') j c) t).
    { rewrite Ef. apply (runs_node_at LEFT c j l r' k). }
    eapply runs_bind; [exact Hnode|]. rewrite content_mk. simpl map.
    eapply runs_bind; [exact Hr|apply runs_ret].
Qed.

Lemma walk_index s t : tree_at O cmp s t -> walk (S (size (nodes s))) None s = Ok (map fst (entries t), s).
Proof.
  intros Ht. pose proof (tree_at_ok _ _ _ _ Ht) as Hok. pose proof (at_index _ _ _ _ Ht) as Hi.
  pose proof (ok_size _ _ Hok) as Hsz. unfold ptrs in Hsz. rewrite length_map in Hsz.
  assert (Hm : map fst (entries t) = map iv (infos t)) by (unfold entries; by rewrite map_map). rewrite Hm.
  eapply runs_read; [|exact Hok]. eapply (runs_walk _ _ _ _ _ t [] (infos t)); [exact Hi|done|done|lia].
Qed.

(** ** The interface of a tree with one index *)

Inductive op :=
| OAdd (c : C) (z : Z)
| ORemove (c : C)
| ORemoveKey (k : K)
| OFind (k : K)
| OWalk.

Definition result (c : option C) : list C := match c with Some c => [c] | None => [] end.

Definition do_op (o : op) : SM (TS C K) (list C) :=
  match o with
  | OAdd c z => r ← TreeAdd c z; mret (result r)
  | ORemove c => r ← TreeRemove c; mret (result r)
  | ORemoveKey k => r ← TreeRemoveKey k; mret (result r)
  | OFind k => p ← TreeFind k; match p with None => mret [] | Some p => n ← node_at p; mret (result (content n)) end
  | OWalk => h ← sm_gets nodes; walk (S (size h)) None
  end.

Fixpoint do_ops (l : list op) : SM (TS C K) (list (list C)) :=
  match l with [] => mret [] | o :: l' => r ← do_op o; rs ← do_ops l'; mret (r :: rs) end.

(** The same on a sorted list; [ml] are the next results of [malloc]. *)
Definition spec_op (o : op) (l : list (C * Z)) (ml : list bool) : list C * list (C * Z) * list bool :=
  match o with
  | OAdd c z =>
      match look cmp (inr c) l with
      | Some _ => ([c], put cmp (c, z) l, ml)
      | None => if default true (head ml) then ([c], put cmp (c, z) l, tail ml) else ([], l, tail ml)
      end
  | ORemove c => (result (fst <$> look cmp (inr c) l), drop_at cmp (inr c) l, ml)
  | ORemoveKey k => (result (fst <$> look cmp (inl k) l), drop_at cmp (inl k) l, ml)
  | OFind k => (result (fst <$> look cmp (inl k) l), l, ml)
  | OWalk => (map fst l, l, ml)
  end.

Fixpoint spec_ops (os : list op) (l : list (C * Z)) (ml : list bool) : list (list C) * list (C * Z) * list bool :=
  match os with
  | [] => ([], l, ml)
  | o :: os' => let '(r, l1, ml1) := spec_op o l ml in let '(rs, l2, ml2) := spec_ops os' l1 ml1 in (r :: rs, l2, ml2)
  end.

(** The state of a tree with one index whose contents are [l]. *)
Record shows (s : TS C K) (l : list (C * Z)) t : Prop := {
  shows_at : tree_at O cmp s t;
  shows_entries : entries t = l;
  shows_sorted : sorted cmp l;
  shows_indexes : indexes (tree s) = 1%nat;
  shows_duplicates : allow_duplicates (tree s) = false;
  shows_sized : sized s l
}.

(** An operation with a key that is there and not replaced keeps the balance. *)
Definition keeps (o : op) (l : list (C * Z)) : Prop := match o with OAdd c _ => look cmp (inr c) l = None | _ => True end.

Definition steps {A} (m : SM (TS C K) A) s t (r : A) (l' : list (C * Z)) (ml : list bool) (kp : Prop) : Prop :=
  exists s' t', m s = Ok (r, s') /\ shows s' l' t' /\ mallocs s' = ml /\ (kp -> balanced t -> balanced t').

Lemma leaves_steps {A} (m : SM (TS C K) A) s l t r l' ml (kp : Prop) :
  shows s l t -> sorted cmp l' -> leaves O m s t r l' ml kp -> steps m s t r l' ml kp.
Proof.
  intros [Ha He Hs Hi Hd Hz] Hs' (s' & t' & E & Ha' & He' & Hm & (_ & _ & Hi' & Hd' & _) & Hz' & Hb).
  exists s', t'. split; [done|]. split; [|done]. split; [done|done|done|by rewrite Hi'|by rewrite Hd'|].
  apply Hz'; [done|]. by rewrite He.
Qed.

Lemma steps_bind {A B} (m : SM (TS C K) A) (f : A -> B) s t r l' ml kp :
  steps m s t r l' ml kp -> steps (x ← m; mret (f x)) s t (f r) l' ml kp.
Proof. intros (s' & t' & E & H). exists s', t'. split; [|done]. by rewrite (sm_bind_run _ _ _ _ _ E). Qed.

Lemma steps_same {A} (m : SM (TS C K) A) s l t r (kp : Prop) : shows s l t -> m s = Ok (r, s) -> steps m s t r l (mallocs s) kp.
Proof. intros H E. by exists s, t. Qed.

(** The nodes that [TreeFindIndex1] and [TreeRemoveNodeIndex] work on. *)
Lemma steps_remove y (m : option positive -> SM (TS C K) (option C)) s l t :
  shows s l t -> m None = mret None -> (forall p, m (Some p) = TreeRemoveNodeIndex p 0) ->
  steps (p ← TreeFindIndex1 y 0; m p) s t (fst <$> look cmp y l) (drop_at cmp y l) (mallocs s) True.
Proof.
  intros H Hm1 Hm2. pose proof H as [Ha He Hs Hi Hd Hz]. rewrite <- He in Hs.
  destruct (find_index 0 s t y Ha Hs) as (p & E & Hp). rewrite He in Hp.
  destruct (look cmp y l) as [e|] eqn:El.
  - destruct Hp as (c & j & l0 & r & k & -> & -> & Ef & _ & H0 & Hl & _).
    assert (Hsm : steps (TreeRemoveNodeIndex (ip j) 0) s t (Some (iv j)) (drop_at cmp y l) (mallocs s) True).
    { apply (leaves_steps _ s l); [done|apply drop_sorted; by rewrite <- He|]. rewrite <- He. by eapply remove_node_index. }
    destruct Hsm as (s' & t' & E2 & H2). exists s', t'. split; [|done]. by rewrite (sm_bind_run _ _ _ _ _ E), Hm2.
  - subst p. assert (Hdr : drop_at cmp y l = l).
    { clear - El. induction l as [|a l IH]; simpl in *; [done|]. destruct (cmp a.1 y =? 0); [done|]. by rewrite IH. }
    rewrite Hdr. apply steps_same; [done|]. by rewrite (sm_bind_run _ _ _ _ _ E), Hm1.
Qed.

(** Statements before an operation that only read. *)
Lemma steps_read {A B} (m : SM (TS C K) A) (f : A -> SM (TS C K) B) s t (u : A) r l' ml kp :
  m s = Ok (u, s) -> steps (f u) s t r l' ml kp -> steps (m ≫= f) s t r l' ml kp.
Proof. intros E (s' & t' & E2 & H). exists s', t'. split; [|done]. by rewrite (sm_bind_run _ _ _ _ _ E). Qed.

Lemma add_step s l t c z :
  shows s l t ->
  match look cmp (inr c) l with
  | Some _ => steps (TreeAddByIndex c z 0) s t (Some c) (put cmp (c, z) l) (mallocs s) False
  | None =>
      if default true (head (mallocs s)) then steps (TreeAddByIndex c z 0) s t (Some c) (put cmp (c, z) l) (tail (mallocs s)) True
      else steps (TreeAddByIndex c z 0) s t None l (tail (mallocs s)) True
  end.
Proof.
  intros H. pose proof H as [Ha He Hs Hi Hd Hz]. pose proof Hs as Hs'. rewrite <- He in Hs.
  destruct (look cmp (inr c) l) as [e|] eqn:El; [|destruct (default true (head (mallocs s))) eqn:Em];
    (apply (leaves_steps _ s l); [done|try apply put_sorted; done|]); rewrite <- He in El |- *.
  - by eapply add_index_found.
  - by apply add_index_new.
  - destruct (mallocs s) as [|[] ml] eqn:Eml; [done|done|]. by apply add_index_no_memory.
Qed.

(** With one index [TreeAdd] is [TreeAddByIndex], and the removal by key has no other index. *)
Lemma add_one s l t c z r l' ml kp :
  shows s l t -> steps (TreeAddByIndex c z 0) s t r l' ml kp -> steps (TreeAdd c z) s t r l' ml kp.
Proof.
  intros H Hst. unfold TreeAdd. eapply steps_read; [done|]. rewrite (shows_indexes _ _ _ H).
  apply (steps_bind _ (fun x => x)). exact Hst.
Qed.

Lemma remove_key_step s l t (k : K) :
  shows s l t -> steps (TreeRemoveKey k) s t (fst <$> look cmp (inl k) l) (drop_at cmp (inl k) l) (mallocs s) True.
Proof.
  intros H. unfold TreeRemoveKey, TreeRemoveKeyIndex, TreeFindIndex.
  destruct (steps_remove (inl k) (fun p => match p with None => mret None | Some p => TreeRemoveNodeIndex p 0 end) s l t H eq_refl (fun _ => eq_refl))
    as (s' & t' & E & H1 & H2). exists s', t'. split; [|done].
  pose proof H as [Ha He Hs Hi Hd Hz]. rewrite <- He in Hs. destruct (find_index 0 s t (inl k) Ha Hs) as (p & Ep & _).
  rewrite (sm_bind_run _ _ _ _ _ Ep) in E. rewrite (sm_bind_run _ _ _ _ _ Ep).
  destruct p as [p|]; [|done]. rewrite (sm_bind_run _ _ _ _ _ E). rewrite (sm_bind_run _ _ s' (tree s') s') by done.
  by rewrite (shows_indexes _ _ _ H1).
Qed.

(** The node found, and its removal. *)
Lemma find_step s l t (k : K) :
  shows s l t ->
  match look cmp (inl k) l with
  | None => TreeFind k s = Ok (None, s)
  | Some e => exists p n, TreeFind k s = Ok (Some p, s) /\ nodes s !! p = Some n /\ content n = Some e.1 /\ nsize n = e.2 /\
      steps (TreeRemoveNodeIndex p 0) s t (Some e.1) (drop_at cmp (inl k) l) (mallocs s) True
  end.
Proof.
  intros H. pose proof H as [Ha He Hs Hi Hd Hz]. rewrite <- He in Hs.
  destruct (find_index 0 s t (inl k) Ha Hs) as (p & E & Hp). rewrite He in Hp. unfold TreeFind, TreeFindIndex.
  destruct (look cmp (inl k) l) as [e|] eqn:El; [|by subst p].
  destruct Hp as (c & j & l0 & r & k0 & -> & -> & Ef & Hn & H0 & Hl & _).
  eexists _, _. split; [exact E|]. split; [exact Hn|]. rewrite content_mk, nsize_mk. split; [done|]. split; [done|].
  apply (leaves_steps _ s l); [done|apply drop_sorted; by rewrite <- He|]. rewrite <- He. by eapply remove_node_index.
Qed.

Lemma steps_weaken {A} (m : SM (TS C K) A) s t r l' ml (kp kp' : Prop) :
  (kp' -> kp) -> steps m s t r l' ml kp -> steps m s t r l' ml kp'.
Proof. intros Hk (s' & t' & E & H1 & H2 & H3). exists s', t'. split; [done|]. split; [done|]. split; [done|]. intros Hp. apply H3, Hk, Hp. Qed.

Lemma op_step o s l t :
  shows s l t ->
  let '(r, l', ml') := spec_op o l (mallocs s) in steps (do_op o) s t r l' ml' (keeps o l).
Proof.
  intros H. destruct o as [c z|c|k|k|]; simpl.
  - pose proof (add_step s l t c z H) as Ha.
    destruct (look cmp (inr c) l) as [e|]; [|destruct (default true (head (mallocs s)))].
    + apply (steps_weaken _ _ _ _ _ _ False); [done|]. by apply (steps_bind (TreeAdd c z) result _ _ (Some c)), (add_one s l t).
    + apply (steps_weaken _ _ _ _ _ _ True); [done|]. by apply (steps_bind (TreeAdd c z) result _ _ (Some c)), (add_one s l t).
    + apply (steps_weaken _ _ _ _ _ _ True); [done|]. by apply (steps_bind (TreeAdd c z) result _ _ None), (add_one s l t).
  - apply steps_bind. unfold TreeRemove. eapply steps_read; [done|]. rewrite (shows_indexes _ _ _ H).
    apply (steps_bind _ (fun x => x)). by apply (steps_remove (inr c) _ s l t H).
  - apply steps_bind. by apply remove_key_step.
  - pose proof (find_step s l t k H) as Hf. apply steps_same; [done|].
    destruct (look cmp (inl k) l) as [e|]; [|by rewrite (sm_bind_run _ _ _ _ _ Hf)].
    destruct Hf as (p & n & E & Hn & Hc & _). rewrite (sm_bind_run _ _ _ _ _ E), (sm_bind_run _ _ _ _ _ (node_at_run _ _ _ Hn)).
    by rewrite Hc.
  - apply steps_same; [done|]. rewrite (sm_bind_run _ _ s (nodes s) s) by done.
    etrans; [apply (walk_index s t (shows_at _ _ _ H))|]. by rewrite (shows_entries _ _ _ H).
Qed.

Lemma ops_steps os s l t :
  shows s l t ->
  let '(rs, l', ml') := spec_ops os l (mallocs s) in
  exists s' t', do_ops os s = Ok (rs, s') /\ shows s' l' t' /\ mallocs s' = ml'.
Proof.
  revert s l t. induction os as [|o os IH]; intros s l t H; simpl; [by exists s, t|].
  pose proof (op_step o s l t H) as Ho. destruct (spec_op o l (mallocs s)) as [[r l1] ml1].
  destruct Ho as (s1 & t1 & E1 & H1 & <- & _). specialize (IH s1 l1 t1 H1).
  destruct (spec_ops os l1 (mallocs s1)) as [[rs l2] ml2]. destruct IH as (s2 & t2 & E2 & H2 & Hm).
  exists s2, t2. split; [|done]. rewrite (sm_bind_run _ _ _ _ _ E1). by rewrite (sm_bind_run _ _ _ _ _ E2).
Qed.

(** No content is added under a key that is there. *)
Fixpoint fresh_adds (os : list op) (l : list (C * Z)) (ml : list bool) : Prop :=
  match os with
  | [] => True
  | o :: os' => keeps o l /\ let '(_, l1, ml1) := spec_op o l ml in fresh_adds os' l1 ml1
  end.

Lemma ops_balanced os s l t :
  shows s l t -> balanced t -> fresh_adds os l (mallocs s) ->
  let '(rs, l', ml') := spec_ops os l (mallocs s) in
  exists s' t', do_ops os s = Ok (rs, s') /\ shows s' l' t' /\ balanced t'.
Proof.
  revert s l t. induction os as [|o os IH]; intros s l t H Hb Hf; simpl; [by exists s, t|].
  pose proof (op_step o s l t H) as Ho. destruct Hf as [Hk Hf]. destruct (spec_op o l (mallocs s)) as [[r l1] ml1].
  destruct Ho as (s1 & t1 & E1 & H1 & <- & Hb1). specialize (IH s1 l1 t1 H1 (Hb1 Hk Hb) Hf).
  destruct (spec_ops os l1 (mallocs s1)) as [[rs l2] ml2]. destruct IH as (s2 & t2 & E2 & H2 & Hb2).
  exists s2, t2. split; [|done]. rewrite (sm_bind_run _ _ _ _ _ E1). by rewrite (sm_bind_run _ _ _ _ _ E2).
Qed.

(** A tree just initialised, in a memory [h]. *)
Definition initial (h : gmap positive (Node C)) (ml : list bool) : TS C K := mkTS h (TreeInitializeNoMalloc cmp) ml.

Lemma initial_shows h ml : shows (initial h ml) [] E.
Proof. split; try done; [split; [done|done|constructor]|constructor]. Qed.

(** The turns of a search in a balanced tree. *)
Lemma balanced_search s l t y :
  shows s l t -> balanced t ->
  exists r, descend (2 * Nat.log2 (S (length l))) 0 y None false (ptr t) s = Ok (r, s).
Proof.
  intros H Hb. pose proof (balanced_height t Hb) as Hh. rewrite <- (shows_entries _ _ _ H). unfold entries. rewrite length_map.
  pose proof (tree_at_ok _ _ _ _ (shows_at _ _ _ H)) as Hok. pose proof (at_index _ _ _ _ (shows_at _ _ _ H)) as Hi.
  destruct (runs_descend (Hx:=Hi) (X:=others s t) (ml:=mallocs s) _ cmp y t [] eq_refl Hh) as (b & Hr & _).
  eexists. eapply runs_read; [exact Hr|exact Hok].
Qed.

(** C19. The tree of [TreeInitialize] behaves as the sorted list of its contents, whatever is
    called and whenever memory runs out: every call ends, accesses only live nodes, and
    returns what the list gives. *)
Theorem tree_refines (os : list op) h ml :
  let '(rs, l', ml') := spec_ops os [] ml in
  exists s' t', do_ops os (initial h ml) = Ok (rs, s') /\ shows s' l' t' /\ mallocs s' = ml'.
Proof. apply (ops_steps os (initial h ml) [] E). apply initial_shows. Qed.

(** C20. As long as no content replaces another the tree is balanced, and a search takes at most
    twice the logarithm of the number of elements. *)
Theorem tree_balanced (os : list op) h ml :
  fresh_adds os [] ml ->
  let '(rs, l', ml') := spec_ops os [] ml in
  exists s' t', do_ops os (initial h ml) = Ok (rs, s') /\ shows s' l' t' /\ balanced t' /\
    forall y, exists r, descend (2 * Nat.log2 (S (length l'))) 0 y None false (ptr t') s' = Ok (r, s').
Proof.
  intros Hf. pose proof (ops_balanced os (initial h ml) [] E (initial_shows h ml) (ex_intro _ O rbt_E) Hf) as H. simpl in H.
  destruct (spec_ops os [] ml) as [[rs l'] ml']. destruct H as (s' & t' & E & Hs & Hb).
  exists s', t'. split; [done|]. split; [done|]. split; [done|]. intros y. by apply balanced_search.
Qed.

End Index.

(** ** The comparisons of the module *)

#[export] Instance int_ordered : Ordered TreeIntCompare.
Proof.
  refine {| ord := Z; before_in := Z.lt; rank := fun c => c; dest := fun y => match y with inl k => k | inr c => c end |};
    unfold TreeIntCompare; try done; intros a y; destruct y; zcases; lia.
Defined.

#[export] Instance ptr_ordered : Ordered TreePtrCompare.
Proof.
  refine {| ord := Z; before_in := Z.lt; rank := fun c => c; dest := fun y => match y with inl k => k | inr c => c end |};
    unfold TreePtrCompare; try done; intros a y; destruct y; zcases; lia.
Defined.

Lemma strcmp_refl a : strcmp a a = 0.
Proof. induction a as [|x a IH]; [done|]. simpl. by rewrite Z.eqb_refl. Qed.
Lemma strcmp_zero a b : strcmp a b = 0 <-> a = b.
Proof.
  split; [|intros ->; apply strcmp_refl]. revert b. induction a as [|x a IH]; intros [|y b]; simpl; try done.
  destruct (Z.eqb_spec x y) as [->|]; [intros H; by rewrite (IH b H)|]. destruct (x <? y); lia.
Qed.
Lemma strcmp_swap a b : strcmp b a = - strcmp a b.
Proof.
  revert b. induction a as [|x a IH]; intros [|y b]; simpl; try done.
  destruct (Z.eqb_spec x y) as [->|H]; [rewrite Z.eqb_refl; apply IH|].
  destruct (Z.eqb_spec y x); [lia|]. zcases; lia.
Qed.
Lemma strcmp_trans a b c : 0 < strcmp a b -> 0 < strcmp b c -> 0 < strcmp a c.
Proof.
  revert b c. induction a as [|x a IH]; intros [|y b] [|z c]; simpl; try lia.
  intros H1 H2. revert H1 H2. zcases; intros; subst; try lia. by eapply IH.
Qed.

(** The strings in the order opposite to that of [strcmp]. *)
#[export] Instance string_ordered : Ordered TreeStringCompare.
Proof.
  refine {| ord := list Z; before_in := fun a b => 0 < strcmp a b; rank := fun c => c;
            dest := fun y => match y with inl k => k | inr c => c end |}; unfold TreeStringCompare; try done.
  - split; [|intros a b c; apply strcmp_trans]. intros a. unfold complement. rewrite strcmp_refl. lia.
  - intros a y. apply strcmp_zero.
  - intros a y. destruct y; rewrite (strcmp_swap _ a); lia.
Defined.

(** ** Replacement and balance *)

(** The tree in memory, read back. *)
Fixpoint read_tree {C} (fuel : nat) (h : gmap positive (Node C)) (p : option positive) : option (tree_of C) :=
  match p, fuel with
  | None, _ => Some E
  | Some q, S fuel' =>
      n ← h !! q; v ← content n; l ← read_tree fuel' h (child0 n); r ← read_tree fuel' h (child1 n);
      Some (N (red n) (mkInfo q v (nsize n)) l r)
  | Some _, O => None
  end.

(** The black height of a red-black tree. *)
Fixpoint black_height {C} (t : tree_of C) : option nat :=
  match t with
  | E => Some O
  | N c _ l r =>
      nl ← black_height l; nr ← black_height r;
      if Nat.eqb nl nr && negb (c && (is_red l || is_red r)) then Some (if c then nl else S nl) else None
  end.

Lemma rbt_black_height {C} c n (t : tree_of C) : rbt c n t -> black_height t = Some n.
Proof.
  induction 1 as [|n i l r Hl IHl Hr IHr|n i l r cl cr Hl IHl Hr IHr]; simpl; [done| |].
  - rewrite IHl, IHr. simpl. by rewrite Nat.eqb_refl, (rbt_root _ _ _ Hl), (rbt_root _ _ _ Hr).
  - rewrite IHl, IHr. simpl. by rewrite Nat.eqb_refl.
Qed.

(** The black height of the tree of the first index. *)
Definition height_of {C K} (s : TS C K) : option nat :=
  x ← index (tree s) !! O; t ← read_tree (S (size (nodes s))) (nodes s) (root x); black_height t.

Definition added (l : list Z) : TS Z Z := run (mapM (fun x => TreeAdd x 8) l) start.

(** Adding a content under a key that is there rebalances as if a red node had been added:
    here the tree of six elements stops being a red-black tree when the third is replaced. *)
Example replace_unbalances :
  height_of (added [1; 2; 3; 4; 5; 6]) = Some 2%nat /\ height_of (added [1; 2; 3; 4; 5; 6; 3]) = None.
Proof. vm_compute. done. Qed.

(** A content that replaces another under the first index and not under the second one
    leaves the other in the second index. *)
Definition last_digit (a : Z) (b : Z + Z) : Z := TreeIntCompare (a mod 10) (sum_map (fun k => k) (fun c => c mod 10) b).
Example second_index_stale :
  let s := run (mapM (fun x => TreeAdd x 8) [15; 25]) (mkTS ∅ (mkTree [mkIndex None (Some last_digit); mkIndex None (Some TreeIntCompare)] 2 0 0 true false) []) in
  (TreeFindIndex1 (inr 15) 0 s, TreeFindIndex1 (inr 15) 1 s) = (Ok (Some 1%positive, s), Ok (Some 2%positive, s)) /\
  (content <$> nodes s !! 1%positive, content <$> nodes s !! 2%positive) = (Some (Some 25), Some (Some 15)).
Proof. vm_compute. done. Qed.

(** A duplicate is refused when the tree is told to allow duplicates. *)
Example duplicates_refused :
  let s := run (TreeAdd 7 8) (mkTS ∅ (mkTree [mkIndex None (Some TreeIntCompare); mkIndex None None] 1 0 0 true true) []) in
  TreeAdd 7 8 s = Ok (None, s).
Proof. vm_compute. done. Qed.

Lemma tree_balanced_witness :
  let os := [OAdd 5 8; OAdd 2 8; OAdd 9 8; OAdd 1 8; OAdd 7 8; ORemove 2; OFind 7; OWalk; ORemoveKey 3] in
  fresh_adds (cmp:=TreeIntCompare) os [] [] /\
  let '(rs, l', ml') := spec_ops (cmp:=TreeIntCompare) os [] [] in
  exists s' t', do_ops os (initial (cmp:=TreeIntCompare) ∅ []) = Ok (rs, s') /\ shows (cmp:=TreeIntCompare) s' l' t' /\ balanced t' /\
    forall y, exists r, descend (2 * Nat.log2 (S (length l'))) 0 y None false (ptr t') s' = Ok (r, s').
Proof.
  assert (H : fresh_adds (cmp:=TreeIntCompare) [OAdd 5 8; OAdd 2 8; OAdd 9 8; OAdd 1 8; OAdd 7 8; ORemove 2; OFind 7; OWalk; ORemoveKey 3] [] [])
    by (repeat split).
  split; [exact H|exact (tree_balanced _ ∅ [] H)].
Defined.

End TreeSpec.
