(* ===== verification/HeapTracker.v ===== *)
(** * The heap tracker ([src/src/Heap.c])

    [mymalloc], [myrealloc] and [myfree] in place of [malloc], [realloc] and [free]: a
    red-black tree records the blocks that are in use, an eyecatcher stands at each end of
    a block, and the bytes in use are counted.  The allocator of the standard library is an
    interface with laws; whether it has memory is said by the state. *)

From S2P Require Import Prelude.
From S2P Require Import Trees.
From Stdlib Require Import ZArith Lia List.
From stdpp Require Import base numbers list gmap.

Open Scope Z_scope.

Module HeapTracker.
Import Trees.

(** ** The state *)

(** [storageElement]; its name of file is without the terminating zero. *)
Record storageElement := mkStorage { file : list Z; line : Z; sptr : Z; ssize : Z }.

(** The size of a [storageElement] and of an eyecatcher, on a 64 bit system. *)
Definition sizeof_storageElement : Z := 32.
Definition sizeof_eyecatcher : Z := 8.

(** The bytes of the [double] that [0x8888888888888888] is converted to. *)
Definition eyecatcher : list Z := [17; 17; 17; 17; 17; 17; 225; 67].

(** What is reported with [LOG_ERROR]. *)
Inductive report :=
| MemoryAllocationError
| InvalidEyecatcher (at_start : bool) (f : list Z) (n : Z)
| FailedToRemove (f : list Z) (n : Z)
| FailedToReallocate (f : list Z) (n : Z)
| FreeOfNull (f : list Z) (n : Z)
| MemoryNotFreed
| ScanStart (total : Z)
| ScanElement (e : storageElement) (content : list Z)
| ScanEnd.

(** The blocks that the allocator has given and not got back, by address, with their
    bytes; [oks] and [reoks] say whether the next calls of [malloc] and of [realloc] find
    memory (they do when nothing is said). *)
Record Heap := mkHeap {
  heap : TS storageElement Z;
  current_size : Z;
  max_size : Z;
  blocks : gmap Z (list Z);
  oks : list bool;
  reoks : list bool;
  reports : list report
}.

Definition set_heap (t : TS storageElement Z) (s : Heap) : Heap :=
  mkHeap t (current_size s) (max_size s) (blocks s) (oks s) (reoks s) (reports s).
Definition set_sizes (c m : Z) (s : Heap) : Heap := mkHeap (heap s) c m (blocks s) (oks s) (reoks s) (reports s).
Definition set_blocks (b : gmap Z (list Z)) (s : Heap) : Heap :=
  mkHeap (heap s) (current_size s) (max_size s) b (oks s) (reoks s) (reports s).
Definition set_oks (o : list bool) (s : Heap) : Heap :=
  mkHeap (heap s) (current_size s) (max_size s) (blocks s) o (reoks s) (reports s).
Definition set_reoks (o : list bool) (s : Heap) : Heap :=
  mkHeap (heap s) (current_size s) (max_size s) (blocks s) (oks s) o (reports s).
Definition Log (r : report) : SM Heap () :=
  sm_modify (fun s => mkHeap (heap s) (current_size s) (max_size s) (blocks s) (oks s) (reoks s) (reports s ++ [r])).

Definition on_tree {A} (m : SM (TS storageElement Z) A) : SM Heap A :=
  fun s => match m (heap s) with Ok (a, t) => Ok (a, set_heap t s) | Fail => Fail | Oob => Oob end.

(** ** The allocator

    A new block is where no block is; a block reallocated stays where it is or goes where
    no block is. *)
Class Allocator := {
  pick : gmap Z (list Z) -> Z -> Z;
  repick : gmap Z (list Z) -> Z -> Z -> Z;
  pick_new h n : 0 < pick h n /\ h !! pick h n = None;
  repick_new h p n : 0 < repick h p n /\ (repick h p n = p \/ h !! repick h p n = None)
}.

Section Tracker.
Context {AL : Allocator}.

(** Whether the next [malloc] finds memory. *)
Definition malloc_ok : SM Heap bool :=
  o ← sm_gets oks; sm_modify (set_oks (tail o));; mret (default true (head o)).

(** [malloc] of a block, cleared by [memset]; 0 is the null pointer. *)
Definition malloc_block (n : Z) : SM Heap Z :=
  ok ← malloc_ok;
  if (ok : bool) then
    b ← sm_gets blocks;
    let p := pick b n in
    sm_modify (set_blocks (<[p := replicate (Z.to_nat n) 0]> b));; mret p
  else mret 0.

(** [realloc] of a block: the bytes that both have are kept, the others are anything. *)
Definition resize (n : Z) (d : list Z) : list Z := take (Z.to_nat n) (d ++ replicate (Z.to_nat n) 0).

Definition realloc_block (p n : Z) : SM Heap Z :=
  o ← sm_gets reoks;
  sm_modify (set_reoks (tail o));;
  if default true (head o) then
    b ← sm_gets blocks;
    match b !! p with
    | Some d => let q := repick b p n in sm_modify (set_blocks (<[q := resize n d]> (delete p b)));; mret q
    | None => sm_oob
    end
  else mret 0.

(** [free] of a block. *)
Definition free_block (p : Z) : SM Heap () :=
  b ← sm_gets blocks;
  match b !! p with Some _ => sm_modify (set_blocks (delete p b)) | None => sm_oob end.

(** Reading and writing [n] bytes of a block. *)
Definition read_block (p off n : Z) : SM Heap (list Z) :=
  b ← sm_gets blocks;
  match b !! p with
  | Some d => if (0 <=? off) && (off + n <=? Zlen d) then mret (take (Z.to_nat n) (drop (Z.to_nat off) d)) else sm_oob
  | None => sm_oob
  end.

Definition write_block (p off : Z) (bytes : list Z) : SM Heap () :=
  b ← sm_gets blocks;
  match b !! p with
  | Some d =>
      if (0 <=? off) && (off + Zlen bytes <=? Zlen d)
      then sm_modify (set_blocks (<[p := take (Z.to_nat off) d ++ bytes ++ drop (Z.to_nat (off + Zlen bytes)) d]> b))
      else sm_oob
  | None => sm_oob
  end.

(** ** The operations *)

(** [Heap_roundup], to a multiple of 16. *)
Definition Heap_roundup (size : Z) : Z :=
  if size mod 16 =? 0 then size else to_u64 (size + (16 - size mod 16)).

(** [ptrCompare] *)
Definition ptrCompare (a : storageElement) (b : Z + storageElement) : Z :=
  let b := match b with inl b => b | inr b => sptr b end in
  if b <? sptr a then -1 else if sptr a =? b then 0 else 1.

(** The eyecatchers of a block for [size] bytes. *)
Definition write_eyecatchers (p size : Z) : SM Heap () :=
  write_block p 0 eyecatcher;; write_block p (sizeof_eyecatcher + size) eyecatcher.

Definition note_sizes (c : Z) : SM Heap () :=
  sm_modify (fun s => set_sizes c (if max_size s <? c then c else max_size s) s).

(** The buffer of a copy of [f] is cleared by [memset(s->file, 0, sizeof(filenamelen))],
    which writes 8 bytes. *)
Definition clear_name (f : list Z) : SM Heap () := if Zlen f + 1 <? 8 then sm_oob else mret ().

(** [mymalloc] *)
Definition mymalloc (f : list Z) (n : Z) (size : Z) : SM Heap Z :=
  let size := Heap_roundup size in
  ok ← malloc_ok;
  if negb ok then Log MemoryAllocationError;; mret 0
  else
    ok ← malloc_ok;
    if negb ok then Log MemoryAllocationError;; mret 0
    else
      clear_name f;;
      p ← malloc_block (to_u64 (size + 2 * sizeof_eyecatcher));
      if p =? 0 then Log MemoryAllocationError;; mret 0
      else
        let space := to_u64 (sizeof_storageElement + (Zlen f + 1) + (size + 2 * sizeof_eyecatcher)) in
        write_eyecatchers p size;;
        _ ← on_tree (TreeAdd (mkStorage f n p size) space);
        c ← sm_gets current_size;
        note_sizes (to_u64 (c + size));;
        mret (p + sizeof_eyecatcher).

(** [checkEyecatchers]: [p] is the address after the first one. *)
Definition checkEyecatchers (f : list Z) (n : Z) (p size : Z) : SM Heap () :=
  us ← read_block (p - sizeof_eyecatcher) 0 8;
  (if bool_decide (us = eyecatcher) then mret () else Log (InvalidEyecatcher true f n));;
  us ← read_block (p - sizeof_eyecatcher) (sizeof_eyecatcher + size) 8;
  if bool_decide (us = eyecatcher) then mret () else Log (InvalidEyecatcher false f n).

(** [Internal_heap_unlink] *)
Definition Internal_heap_unlink (f : list Z) (n : Z) (p : Z) : SM Heap bool :=
  e ← on_tree (TreeFind (p - sizeof_eyecatcher));
  match e with
  | None => Log (FailedToRemove f n);; mret false
  | Some e =>
      nd ← on_tree (node_at e);
      match content nd with
      | None => sm_oob
      | Some s =>
          checkEyecatchers f n p (ssize s);;
          sm_modify (fun h => set_sizes (to_u64 (current_size h - ssize s)) (max_size h) h);;
          _ ← on_tree (TreeRemoveNodeIndex e 0);
          mret true
      end
  end.

(** [myfree] *)
Definition myfree (f : list Z) (n : Z) (p : Z) : SM Heap () :=
  if p =? 0 then Log (FreeOfNull f n)
  else
    r ← Internal_heap_unlink f n p;
    if (r : bool) then free_block (p - sizeof_eyecatcher) else mret ().

(** [Heap_unlink] *)
Definition Heap_unlink (f : list Z) (n : Z) (p : Z) : SM Heap () :=
  _ ← Internal_heap_unlink f n p; mret ().

(** [myrealloc]; the copy of the name of the file is not checked after its [realloc]. *)
Definition myrealloc (f : list Z) (n : Z) (p : Z) (size : Z) : SM Heap Z :=
  e ← on_tree (TreeRemoveKey (p - sizeof_eyecatcher));
  match e with
  | None => Log (FailedToReallocate f n);; mret 0
  | Some s =>
      checkEyecatchers f n p (ssize s);;
      let size := Heap_roundup size in
      c ← sm_gets current_size;
      note_sizes (to_u64 (c + to_u64 (size - ssize s)));;
      q ← realloc_block (sptr s) (to_u64 (size + 2 * sizeof_eyecatcher));
      if q =? 0 then Log MemoryAllocationError;; mret 0
      else
        let space := to_u64 (sizeof_storageElement + (size + 2 * sizeof_eyecatcher - ssize s) - Zlen (file s) + (Zlen f + 1)) in
        write_eyecatchers q size;;
        o ← sm_gets reoks;
        sm_modify (set_reoks (tail o));;
        if default true (head o) then
          _ ← on_tree (TreeAdd (mkStorage f n q size) space);
          mret (q + sizeof_eyecatcher)
        else sm_oob
  end.

(** [Heap_findItem] *)
Definition Heap_findItem (p : Z) : SM Heap (option storageElement) :=
  e ← on_tree (TreeFind (p - sizeof_eyecatcher));
  match e with None => mret None | Some e => nd ← on_tree (node_at e); mret (content nd) end.

(** The bytes that [%.*s] prints: at most [n], up to a zero. *)
Fixpoint print_bytes (fuel : nat) (p off : Z) : SM Heap (list Z) :=
  match fuel with
  | O => mret []
  | S fuel' =>
      b ← read_block p off 1;
      match b with
      | [c] => if c =? 0 then mret [] else rest ← print_bytes fuel' p (off + 1); mret (c :: rest)
      | _ => sm_oob
      end
  end.

(** [HeapScan]; the number of elements bounds the loop. *)
Fixpoint scan_loop (fuel : nat) (cur : option positive) : SM Heap () :=
  match fuel with
  | O => sm_oob
  | S fuel' =>
      p ← on_tree (TreeNextElement cur);
      match p with
      | None => mret ()
      | Some q =>
          nd ← on_tree (node_at q);
          match content nd with
          | None => sm_oob
          | Some s =>
              bytes ← print_bytes (Z.to_nat (if nsize nd <? 10 then ssize s else 10)) (sptr s) sizeof_eyecatcher;
              Log (ScanElement s bytes);;
              scan_loop fuel' (Some q)
          end
      end
  end.

Definition HeapScan : SM Heap () :=
  c ← sm_gets current_size;
  Log (ScanStart c);;
  h ← sm_gets heap;
  scan_loop (S (size (nodes h))) None;;
  Log ScanEnd.

(** [Heap_terminate] *)
Definition Heap_terminate : SM Heap () :=
  c ← sm_gets current_size;
  if 20 <? c then Log MemoryNotFreed;; HeapScan else mret ().

(** [HeapDump] to a file that can be written: for each element its address, its size and
    as many bytes of its block. *)
Fixpoint dump_loop (fuel : nat) (cur : option positive) : SM Heap (list (Z * Z * list Z)) :=
  match fuel with
  | O => sm_oob
  | S fuel' =>
      p ← on_tree (TreeNextElement cur);
      match p with
      | None => mret []
      | Some q =>
          nd ← on_tree (node_at q);
          match content nd with
          | None => sm_oob
          | Some s =>
              bytes ← read_block (sptr s) 0 (nsize nd);
              rest ← dump_loop fuel' (Some q);
              mret ((sptr s, nsize nd, bytes) :: rest)
          end
      end
  end.

Definition HeapDump : SM Heap (list (Z * Z * list Z)) :=
  h ← sm_gets heap; dump_loop (S (size (nodes h))) None.

End Tracker.

(** [Heap_initialize]: the tree does not track its own nodes. *)
Definition Heap_initialize (s : Heap) : Heap :=
  let t := TreeInitializeNoMalloc ptrCompare in
  set_heap (mkTS (nodes (heap s)) (mkTree (index t) (indexes t) (count t) (tsize t) false (allow_duplicates t)) (mallocs (heap s))) s.

(** ** Examples *)

(** An allocator that takes the first address after all blocks and never moves one. *)
Definition next_free (h : gmap Z (list Z)) : Z := 1 + foldr Z.max 0 (map fst (map_to_list h)).

Lemma next_free_new h : 0 < next_free h /\ h !! next_free h = None.
Proof.
  unfold next_free. assert (Hnn : 0 <= foldr Z.max 0 (map fst (map_to_list h))) by (induction (map_to_list h); simpl; lia).
  split; [lia|]. destruct (h !! _) as [d|] eqn:E; [|done]. exfalso. apply elem_of_map_to_list in E.
  assert (Hle : forall (l : list (Z * list Z)) p x, (p, x) ∈ l -> p <= foldr Z.max 0 (map fst l)).
  { induction l as [|[a y] l IH]; intros p z; [by intros ?%elem_of_nil|]. intros [[= -> ->]|H]%elem_of_cons; simpl; [lia|].
    specialize (IH p z H). lia. }
  specialize (Hle _ _ _ E). lia.
Qed.

#[export] Instance bump : Allocator.
Proof.
  refine {| pick := fun h _ => next_free h; repick := fun h p _ => if 0 <? p then p else next_free h |}.
  - intros h _. apply next_free_new.
  - intros h p _. destruct (Z.ltb_spec 0 p); [by auto|]. destruct (next_free_new h). auto.
Defined.

Definition nothing : Heap := Heap_initialize (mkHeap (mkTS ∅ (TreeInitializeNoMalloc ptrCompare) []) 0 0 ∅ [] [] []).

Definition file_name : list Z := [72; 101; 97; 112; 84; 101; 115; 116; 46; 99].

(** Allocation, reallocation and release, and a second release of the same block. *)
Example ex_session :
  match (p ← mymalloc (AL:=bump) file_name 1 12; q ← myrealloc file_name 2 p 25; myfree file_name 3 q;; myfree file_name 4 q) nothing with
  | Ok (_, s) => (current_size s, max_size s, map_to_list (blocks s), reports s) = (0, 32, [], [FailedToRemove file_name 4])
  | _ => False
  end.
Proof. vm_compute. reflexivity. Qed.

(** A byte written after the end of a block is reported when it is released. *)
Example ex_overrun :
  match (p ← mymalloc (AL:=bump) file_name 1 16; write_block (p - 8) (8 + 16) [0];; myfree file_name 2 p) nothing with
  | Ok (_, s) => reports s = [InvalidEyecatcher false file_name 2]
  | _ => False
  end.
Proof. vm_compute. reflexivity. Qed.

(** A [realloc] that finds no memory: the block is still allocated, and counted with its
    new size, but it is no longer recorded, so it cannot be freed. *)
Example realloc_failure_loses_block :
  match (p ← mymalloc (AL:=bump) file_name 1 16; sm_modify (set_reoks [false]);; _ ← myrealloc file_name 2 p 64; myfree file_name 3 p) nothing with
  | Ok (_, s) => (current_size s, size (blocks s), reports s) = (64, 1%nat, [MemoryAllocationError; FailedToRemove file_name 3])
  | _ => False
  end.
Proof. vm_compute. reflexivity. Qed.

(** The name of a file of less than seven characters is overrun when its copy is cleared. *)
Example short_name_overrun : mymalloc (AL:=bump) [97; 46; 99] 1 16 nothing = Oob.
Proof. vm_compute. reflexivity. Qed.

(** Without memory for the node of the tree the block is given, but it is not recorded. *)
Example no_node_not_recorded :
  match (sm_modify (fun s => set_heap (mkTS (nodes (heap s)) (tree (heap s)) [false]) s);; p ← mymalloc (AL:=bump) file_name 1 16; myfree file_name 2 p) nothing with
  | Ok (_, s) => (current_size s, size (blocks s), reports s) = (16, 1%nat, [FailedToRemove file_name 2])
  | _ => False
  end.
Proof. vm_compute. reflexivity. Qed.

(** A dump writes as many bytes as the element is said to have in the tree, which are more
    than its block has. *)
Example dump_overruns : (_ ← mymalloc (AL:=bump) file_name 1 16; HeapDump) nothing = Oob.
Proof. vm_compute. reflexivity. Qed.

(** A scan prints ten bytes of a block of none. *)
Example scan_overruns : (_ ← mymalloc (AL:=bump) file_name 1 0; HeapScan) nothing = Oob.
Proof. vm_compute. reflexivity. Qed.

(** A scan of two blocks. *)
Example ex_scan :
  match (_ ← mymalloc (AL:=bump) file_name 1 16; _ ← mymalloc (AL:=bump) file_name 2 16; HeapScan) nothing with
  | Ok (_, s) => map (fun r => match r with ScanElement e _ => line e | ScanStart n => n | _ => -1 end) (reports s) = [32; 1; 2; -1]
  | _ => False
  end.
Proof. vm_compute. reflexivity. Qed.

End HeapTracker.
