(* ===== verification/HeapSafety.v ===== *)
(** * What the heap tracker promises

    The operations of [HeapTracker] keep the tracker true: what the tree records is what the
    application holds, each block recorded has room for its eyecatchers, the bytes in use
    are counted, and an application that keeps to its blocks is never told that an
    eyecatcher was overwritten. *)

From S2P Require Import Prelude.
From S2P Require Import Trees.
From S2P Require Import TreeShapes.
From S2P Require Import TreeRuns.
From S2P Require Import TreeBalance.
From S2P Require Import TreeSpec.
From S2P Require Import HeapTracker.
From Stdlib Require Import ZArith Lia List.
From stdpp Require Import base numbers list gmap.

Open Scope Z_scope.

Module HeapSafety.
Import Trees TreeShapes TreeRuns TreeBalance TreeSpec HeapTracker.

(** ** The order of the tracker *)
#[export] Instance heap_ordered : Ordered ptrCompare.
Proof.
  refine {| ord := Z; before_in := Z.lt; rank := sptr; dest := fun y => match y with inl k => k | inr c => sptr c end |};
    unfold ptrCompare; try done; intros a y; destruct y; zcases; lia.
Defined.

(** ** Safety and accounting *)
Section Safe.
Context {AL : Allocator}.
Implicit Types (s : Heap) (l : list (storageElement * Z)).

Definition in_use l : Z := foldr (fun e z => ssize e.1 + z) 0 l.

(** The reports of the eyecatchers of a block that are not as they were written. *)
Definition broken (f : list Z) (n size : Z) (d : list Z) : list report :=
  (if bool_decide (take 8 d = eyecatcher) then [] else [InvalidEyecatcher true f n]) ++
  (if bool_decide (take 8 (drop (Z.to_nat (8 + size)) d) = eyecatcher) then [] else [InvalidEyecatcher false f n]).

(** A block whose eyecatchers are as they were written. *)
Definition framed (m : list Z) : list Z := eyecatcher ++ m ++ eyecatcher.

Lemma Zlen_framed m : Zlen (framed m) = Zlen m + 16.
Proof. unfold framed, Zlen. rewrite !length_app. change (List.length eyecatcher) with 8%nat. lia. Qed.

Lemma framed_broken f n m : broken f n (Zlen m) (framed m) = [].
Proof.
  unfold broken, framed. rewrite (bool_decide_eq_true_2 (take 8 _ = _)) by done.
  rewrite (bool_decide_eq_true_2 (take 8 (drop _ _) = _)); [done|].
  replace (Z.to_nat (8 + Zlen m)) with (8 + List.length m)%nat by (unfold Zlen; lia).
  rewrite (drop_app_add' eyecatcher) by done. by rewrite drop_app_length.
Qed.

(** An element recorded has its block, with room for the eyecatchers. *)
Definition block_of (b : gmap Z (list Z)) (e : storageElement * Z) : Prop :=
  0 < sptr e.1 /\ 0 <= ssize e.1 /\ ssize e.1 + 16 < 18446744073709551616 /\
  exists d, b !! sptr e.1 = Some d /\ Zlen d = ssize e.1 + 16.

(** The tracker records [l]: in a balanced tree, with a block for each element, the bytes
    in use being counted; the allocator has memory for the nodes of the tree. *)
Record heap_ok s l : Prop := {
  h_tree : exists t, shows (cmp:=ptrCompare) (heap s) l t /\ balanced t;
  h_nodes : mallocs (heap s) = [];
  h_blocks : Forall (block_of (blocks s)) l;
  h_current : current_size s = to_u64 (in_use l)
}.

Lemma in_use_perm l l' : l ≡ₚ l' -> in_use l = in_use l'.
Proof. induction 1; simpl; lia. Qed.

(** *** The operations on the tree *)
Lemma on_tree_run {A} (m : SM (TS storageElement Z) A) s a h : m (heap s) = Ok (a, h) -> on_tree m s = Ok (a, set_heap h s).
Proof. unfold on_tree. by intros ->. Qed.

Lemma set_heap_id s : set_heap (heap s) s = s.
Proof. by destruct s. Qed.

(** *** Blocks *)
Definition patch (off : Z) (bytes d : list Z) : list Z := take (Z.to_nat off) d ++ bytes ++ drop (Z.to_nat (off + Zlen bytes)) d.

Lemma Zlen_patch off bytes d : 0 <= off -> off + Zlen bytes <= Zlen d -> Zlen (patch off bytes d) = Zlen d.
Proof. intros H0 H1. unfold patch, Zlen in *. rewrite !length_app, length_take, length_drop. lia. Qed.

Lemma write_block_run s p off bytes d :
  blocks s !! p = Some d -> 0 <= off -> off + Zlen bytes <= Zlen d ->
  write_block p off bytes s = Ok ((), set_blocks (<[p := patch off bytes d]> (blocks s)) s).
Proof.
  intros Hb H0 H1. unfold write_block. rewrite (sm_bind_run _ _ s (blocks s) s) by done. rewrite Hb.
  destruct (Z.leb_spec 0 off); [|lia]. by destruct (Z.leb_spec (off + Zlen bytes) (Zlen d)); [|lia].
Qed.

(** Writes to each of the three parts. *)
Lemma patch_at (a m b bytes : list Z) off :
  off = Zlen a -> Zlen bytes = Zlen m -> patch off bytes (a ++ m ++ b) = a ++ bytes ++ b.
Proof.
  intros -> Hm. unfold patch, Zlen in *. rewrite Nat2Z.id, take_app_length.
  replace (Z.to_nat (Z.of_nat (List.length a) + Z.of_nat (List.length bytes))) with (List.length a + List.length m)%nat by lia.
  by rewrite drop_app_add, drop_app_length.
Qed.

Lemma patch_inside (a m b bytes : list Z) off :
  0 <= off -> off + Zlen bytes <= Zlen m -> exists m', patch (Zlen a + off) bytes (a ++ m ++ b) = a ++ m' ++ b.
Proof.
  intros H0 H1. unfold Zlen in *. exists (take (Z.to_nat off) m ++ bytes ++ drop (Z.to_nat off + List.length bytes) m).
  rewrite <- (take_drop (Z.to_nat off) m) at 1. rewrite <- (take_drop (List.length bytes) (drop (Z.to_nat off) m)) at 1.
  rewrite drop_drop. rewrite <- !(assoc_L (++)). rewrite (assoc_L (++) a). erewrite patch_at.
  - by rewrite <- !(assoc_L (++)).
  - unfold Zlen. rewrite length_app, length_take. lia.
  - unfold Zlen. rewrite length_take, length_drop. lia.
Qed.

Lemma eyecatchers_run s p size (a m b : list Z) :
  blocks s !! p = Some (a ++ m ++ b) -> List.length a = 8%nat -> Zlen m = size -> List.length b = 8%nat ->
  write_eyecatchers p size s = Ok ((), set_blocks (<[p := framed m]> (blocks s)) s).
Proof.
  intros Hb Ha Hm Hlb. unfold write_eyecatchers.
  assert (Hd : Zlen (a ++ m ++ b) = size + 16) by (unfold Zlen in *; rewrite !length_app; lia).
  assert (H0 : 0 <= size) by (unfold Zlen in Hm; lia).
  pose proof (write_block_run s p 0 eyecatcher _ Hb ltac:(lia)) as E1. rewrite Hd in E1. specialize (E1 ltac:(change (Zlen eyecatcher) with 8; lia)).
  change (a ++ m ++ b) with ([] ++ a ++ (m ++ b)) in E1. rewrite patch_at in E1 by (unfold Zlen; by rewrite ?Ha). simpl app in E1.
  rewrite (sm_bind_run _ _ _ _ _ E1). set (d1 := eyecatcher ++ m ++ b) in *.
  assert (Hl1 : Zlen d1 = size + 16) by (unfold d1, Zlen in *; rewrite !length_app; change (List.length eyecatcher) with 8%nat; lia).
  rewrite (write_block_run _ p (sizeof_eyecatcher + size) eyecatcher d1); [|apply lookup_insert_eq|unfold sizeof_eyecatcher; lia|
    rewrite Hl1; change (Zlen eyecatcher) with 8; unfold sizeof_eyecatcher; lia].
  do 2 f_equal. unfold set_blocks. cbn [heap current_size max_size blocks oks reoks reports]. rewrite insert_insert_eq.
  assert (Hpt : patch (sizeof_eyecatcher + size) eyecatcher d1 = framed m); [|by rewrite Hpt].
  unfold d1. rewrite (assoc_L (++)), <- (app_nil_r b), patch_at.
  - unfold framed. by rewrite app_nil_r, <- (assoc_L (++)).
  - unfold Zlen in *. rewrite length_app. change (List.length eyecatcher) with 8%nat. unfold sizeof_eyecatcher. lia.
  - unfold Zlen. by rewrite Hlb.
Qed.

Lemma read_block_run s p off n d :
  blocks s !! p = Some d -> 0 <= off -> off + n <= Zlen d ->
  read_block p off n s = Ok (take (Z.to_nat n) (drop (Z.to_nat off) d), s).
Proof.
  intros Hb H0 H1. unfold read_block. rewrite (sm_bind_run _ _ s (blocks s) s) by done. rewrite Hb.
  destruct (Z.leb_spec 0 off); [|lia]. by destruct (Z.leb_spec (off + n) (Zlen d)); [|lia].
Qed.

Definition add_reports (r : list report) s : Heap :=
  mkHeap (heap s) (current_size s) (max_size s) (blocks s) (oks s) (reoks s) (reports s ++ r).

Lemma checkEyecatchers_run s f n p size d :
  blocks s !! (p - sizeof_eyecatcher) = Some d -> 0 <= size -> Zlen d = size + 16 ->
  checkEyecatchers f n p size s = Ok ((), add_reports (broken f n size d) s).
Proof.
  intros Hb H0 Hd. unfold checkEyecatchers, broken.
  rewrite (sm_bind_run _ _ _ _ _ (read_block_run s _ 0 8 d Hb ltac:(lia) ltac:(lia))). cbn [Z.to_nat drop]. change (Z.to_nat 0) with O. rewrite drop_0.
  change (Z.to_nat 8) with 8%nat. change (Pos.to_nat 8) with 8%nat.
  set (r1 := if bool_decide (take 8 d = eyecatcher) then [] else [InvalidEyecatcher true f n]).
  assert (E1 : (if bool_decide (take 8 d = eyecatcher) then mret () else Log (InvalidEyecatcher true f n)) s = Ok ((), add_reports r1 s)).
  { unfold r1. destruct (bool_decide _); [|done]. unfold add_reports. rewrite app_nil_r. by destruct s. }
  rewrite (sm_bind_run _ _ _ _ _ E1).
  rewrite (sm_bind_run _ _ _ _ _ (read_block_run (add_reports r1 s) _ (sizeof_eyecatcher + size) 8 d Hb ltac:(unfold sizeof_eyecatcher; lia) ltac:(unfold sizeof_eyecatcher; lia))).
  change (Z.to_nat 8) with 8%nat. change (Pos.to_nat 8) with 8%nat. unfold sizeof_eyecatcher.
  clear E1; clearbody r1; destruct (bool_decide (take 8 (drop (Z.to_nat (8 + size)) d) = eyecatcher)).
  - by rewrite app_nil_r.
  - unfold Log, sm_modify, add_reports. cbn. by rewrite <- app_assoc.
Qed.

(** *** Allocation *)

Lemma heap_ok_same s s' l :
  heap s' = heap s -> current_size s' = current_size s -> blocks s' = blocks s -> heap_ok s l -> heap_ok s' l.
Proof. intros H1 H2 H3 [Ht Hn Hb Hc]. split; by rewrite ?H1, ?H2, ?H3. Qed.

Definition size_ok (sz : Z) : Prop := 0 <= sz /\ sz + 32 <= 18446744073709551616.

Lemma roundup_bounds sz : size_ok sz -> sz <= Heap_roundup sz < sz + 16.
Proof. intros [H0 H1]. unfold Heap_roundup. destruct (Z.eqb_spec (sz mod 16) 0); [lia|]. unfold to_u64. rewrite Z.mod_small; dlia. Qed.

Lemma block_of_insert b p d e : block_of b e -> sptr e.1 <> p -> block_of (<[p := d]> b) e.
Proof. intros (H0 & H1 & H2 & d' & Hd & Hl) Hne. split; [done|]. split; [done|]. split; [done|]. exists d'. by rewrite lookup_insert_ne. Qed.

(** An address that is not of a block is not of an element. *)
Lemma blocks_apart b l p : Forall (block_of b) l -> b !! p = None -> forall e, e ∈ l -> sptr e.1 <> p.
Proof.
  intros Hl Hp e He Heq. rewrite Forall_forall in Hl. destruct (Hl e He) as (_ & _ & _ & d & Hd & _). congruence.
Qed.

Lemma blocks_insert b l p d :
  Forall (block_of b) l -> (forall e, e ∈ l -> sptr e.1 <> p) -> Forall (block_of (<[p := d]> b)) l.
Proof. rewrite !Forall_forall. intros H Hne e He. apply block_of_insert; auto. Qed.

Lemma blocks_delete b l p :
  Forall (block_of b) l -> (forall e, e ∈ l -> sptr e.1 <> p) -> Forall (block_of (delete p b)) l.
Proof.
  rewrite !Forall_forall. intros H Hne e He. destruct (H e He) as (H0 & H1 & H2 & d & Hd & Hl).
  split; [done|]. split; [done|]. split; [done|]. exists d. split; [|done]. rewrite lookup_delete_ne; [done|]. intros Heq. by apply (Hne e He).
Qed.

Lemma cmp_key e p : ptrCompare e (inl p) = 0 <-> sptr e = p.
Proof. unfold ptrCompare. zcases; lia. Qed.
Lemma cmp_element e e' : ptrCompare e (inr e') = 0 <-> sptr e = sptr e'.
Proof. unfold ptrCompare. zcases; lia. Qed.

(** A block that has just been given is recorded. *)
Lemma record_block s l e d :
  (exists t, shows (cmp:=ptrCompare) (heap s) l t /\ balanced t) -> mallocs (heap s) = [] ->
  Forall (block_of (blocks s)) l ->
  0 < sptr e.1 -> 0 <= ssize e.1 -> ssize e.1 + 16 < 18446744073709551616 ->
  blocks s !! sptr e.1 = Some d -> Zlen d = ssize e.1 + 16 -> (forall e', e' ∈ l -> sptr e'.1 <> sptr e.1) ->
  exists h, TreeAdd e.1 e.2 (heap s) = Ok (Some e.1, h) /\
    forall s', heap s' = h -> blocks s' = blocks s -> current_size s' = to_u64 (ssize e.1 + in_use l) ->
    heap_ok s' (put ptrCompare e l).
Proof.
  intros (t & Ht & Hb) Hm Hbl H0 H1 H2 Hd Hl Hne.
  assert (Hlook : look ptrCompare (inr e.1) l = None) by (apply look_None; intros e' He'; rewrite cmp_element; by apply Hne).
  pose proof (add_step (heap s) l t e.1 e.2 Ht) as Ha. rewrite Hlook, Hm in Ha. simpl in Ha.
  apply (add_one _ l) in Ha; [|done]. destruct Ha as (h & t' & E & Hs & Hm' & Hb'). exists h. split; [done|].
  replace (e.1, e.2) with e in Hs by (by destruct e). pose proof (put_perm e l Hlook) as Hp.
  intros s' H3 H4 H5. split; rewrite ?H3, ?H4.
  - exists t'. split; [done|by apply Hb'].
  - done.
  - rewrite Hp. constructor; [|done]. split; [done|]. split; [done|]. split; [done|]. by exists d.
  - by rewrite H5, (in_use_perm _ _ Hp).
Qed.

(** [mymalloc]: either nothing changes but reports, or the address is that after the first
    eyecatcher of a new block, which is recorded. *)
Lemma mymalloc_wp s l f n sz :
  heap_ok s l -> 7 <= Zlen f -> size_ok sz ->
  wp (mymalloc f n sz) s (fun p s' => reoks s' = reoks s /\
    (p = 0 /\ heap_ok s' l /\ blocks s' = blocks s /\ reports s' = reports s ++ [MemoryAllocationError] \/
     exists e, p = sptr e.1 + sizeof_eyecatcher /\ ssize e.1 = Heap_roundup sz /\ blocks s !! sptr e.1 = None /\
       heap_ok s' (put ptrCompare e l) /\ reports s' = reports s /\
       blocks s' = <[sptr e.1 := framed (replicate (Z.to_nat (ssize e.1)) 0)]> (blocks s))).
Proof.
  intros Hok Hf Hsz. pose proof (roundup_bounds sz Hsz) as Hr. destruct Hsz as [Hsz0 Hsz1].
  set (size := Heap_roundup sz) in *. unfold mymalloc. fold size.
  assert (Hfail : forall s', heap s' = heap s -> current_size s' = current_size s -> blocks s' = blocks s -> reoks s' = reoks s -> reports s' = reports s ->
    wp (Log MemoryAllocationError;; mret 0) s' (fun p s' => reoks s' = reoks s /\
    (p = 0 /\ heap_ok s' l /\ blocks s' = blocks s /\ reports s' = reports s ++ [MemoryAllocationError] \/
     exists e, p = sptr e.1 + sizeof_eyecatcher /\ ssize e.1 = size /\ blocks s !! sptr e.1 = None /\
       heap_ok s' (put ptrCompare e l) /\ reports s' = reports s /\
       blocks s' = <[sptr e.1 := framed (replicate (Z.to_nat (ssize e.1)) 0)]> (blocks s)))).
  { intros s' H1 H2 H3 H4 H5. apply wp_bind, wp_modify, wp_ret. split; [done|]. left. split; [done|].
    split; [by apply (heap_ok_same s)|]. split; [done|]. cbn. by rewrite H5. }
  apply wp_bind. exists (default true (head (oks s))), (set_oks (tail (oks s)) s). split; [done|].
  set (s1 := set_oks (tail (oks s)) s). destruct (default true (head (oks s))); [|by apply Hfail]. cbn [negb].
  apply wp_bind. exists (default true (head (oks s1))), (set_oks (tail (oks s1)) s1). split; [done|].
  set (s2 := set_oks (tail (oks s1)) s1). destruct (default true (head (oks s1))); [|by apply Hfail]. cbn [negb].
  apply wp_bind. unfold clear_name. destruct (Z.ltb_spec (Zlen f + 1) 8); [lia|]. apply wp_ret.
  assert (Hu : to_u64 (size + 2 * sizeof_eyecatcher) = size + 16) by (unfold to_u64, sizeof_eyecatcher; rewrite Z.mod_small; lia).
  rewrite Hu. apply wp_bind. unfold malloc_block. apply wp_bind.
  exists (default true (head (oks s2))), (set_oks (tail (oks s2)) s2). split; [done|].
  set (s3 := set_oks (tail (oks s2)) s2). destruct (default true (head (oks s2))); [|apply wp_ret; by apply Hfail].
  apply wp_bind. exists (blocks s), s3. split; [done|].
  destruct (pick_new (blocks s) (size + 16)) as [Hp0 Hpn]. set (p := pick (blocks s) (size + 16)) in *.
  apply wp_bind, wp_modify, wp_ret. destruct (Z.eqb_spec p 0) as [|_]; [lia|].
  set (s4 := set_blocks _ s3).
  set (d' := framed (replicate (Z.to_nat size) 0)).
  assert (Hd' : Zlen d' = size + 16) by (unfold d'; rewrite Zlen_framed; unfold Zlen; rewrite length_replicate; lia).
  pose proof (eyecatchers_run s4 p size (replicate 8 0) (replicate (Z.to_nat size) 0) (replicate 8 0)) as E.
  fold d' in E. rewrite <- !replicate_add in E. replace (8 + (Z.to_nat size + 8))%nat with (Z.to_nat (size + 16)) in E by lia.
  specialize (E ltac:(apply lookup_insert_eq) ltac:(done) ltac:(unfold Zlen; rewrite length_replicate; lia) ltac:(done)).
  apply wp_bind. eexists _, _. split; [exact E|]. set (s5 := set_blocks _ s4).
  set (z := to_u64 (sizeof_storageElement + (Zlen f + 1) + (size + 2 * sizeof_eyecatcher))).
  set (e := (mkStorage f n p size, z)).
  destruct Hok as [Ht Hn Hb Hc].
  assert (Hb5 : blocks s5 = <[p := d']> (blocks s)) by (unfold s5, s4; cbn; apply insert_insert_eq).
  pose proof (blocks_apart _ _ _ Hb Hpn) as Hne.
  destruct (record_block s5 l e d') as (h & Eh & Hrec); [done|done|rewrite Hb5; by apply blocks_insert|done|simpl; lia|simpl; lia|
    rewrite Hb5; apply lookup_insert_eq|done|done|].
  apply wp_bind. eexists _, _. split; [by apply on_tree_run|].
  apply wp_bind. eexists _, _. split; [done|]. apply wp_bind, wp_modify, wp_ret. split; [done|]. right.
  exists e. split; [done|]. split; [done|]. split; [done|]. split; [|split; [done|exact Hb5]]. apply Hrec; [done|done|].
  cbn. rewrite Hc, to_u64_add. f_equal. lia.
Qed.

(** *** Release *)

(** The element at an address, and the others. *)
Lemma element_at s l p e :
  heap_ok s l -> look ptrCompare (inl p) l = Some e ->
  e ∈ l /\ sptr e.1 = p /\ l ≡ₚ e :: drop_at ptrCompare (inl p) l /\
  (forall e', e' ∈ drop_at ptrCompare (inl p) l -> sptr e'.1 <> p) /\
  0 <= ssize e.1 /\ ssize e.1 + 16 < 18446744073709551616 /\ 0 < p /\ exists d, blocks s !! p = Some d /\ Zlen d = ssize e.1 + 16.
Proof.
  intros [(t & Ht & _) _ Hb _] Hl. destruct (look_Some _ _ _ Hl) as [He H0]. apply cmp_key in H0.
  split; [done|]. split; [done|]. split; [by apply drop_perm|]. split.
  - intros e' He'. pose proof (look_drop (inl p) l (shows_sorted _ _ _ Ht)) as Hn. rewrite look_None in Hn.
    intros Heq. apply (Hn e' He'). by apply cmp_key.
  - rewrite Forall_forall in Hb. destruct (Hb e He) as (H1 & H2 & H3 & d & Hd & Hlen). rewrite H0 in *. eauto 10.
Qed.

Lemma in_use_drop l p e : l ≡ₚ e :: drop_at ptrCompare (inl p) l -> in_use (drop_at ptrCompare (inl p) l) = in_use l - ssize e.1.
Proof. intros Hp. rewrite (in_use_perm _ _ Hp). simpl. lia. Qed.

Lemma to_u64_sub a b : to_u64 (to_u64 a - b) = to_u64 (a - b).
Proof. unfold to_u64. apply Zminus_mod_idemp_l. Qed.

(** The element leaves the tree; the block stays. *)
Lemma unlink_wp s l f n p :
  heap_ok s l ->
  wp (Internal_heap_unlink f n p) s (fun r s' =>
    match look ptrCompare (inl (p - sizeof_eyecatcher)) l with
    | None => r = false /\ s' = add_reports [FailedToRemove f n] s
    | Some e => r = true /\ heap_ok s' (drop_at ptrCompare (inl (p - sizeof_eyecatcher)) l) /\ blocks s' = blocks s /\
        reoks s' = reoks s /\
        exists d, blocks s !! (p - sizeof_eyecatcher) = Some d /\ Zlen d = ssize e.1 + 16 /\
          reports s' = reports s ++ broken f n (ssize e.1) d
    end).
Proof.
  intros Hok. pose proof Hok as [(t & Ht & Hb) Hn Hbl Hc]. set (q := p - sizeof_eyecatcher).
  pose proof (find_step (heap s) l t q Ht) as Hf. unfold Internal_heap_unlink. fold q. apply wp_bind.
  destruct (look ptrCompare (inl q) l) as [e|] eqn:El.
  - destruct Hf as (nd & node & E & Hnd & Hcont & _ & Hrm).
    destruct (element_at s l q e Hok El) as (He & Hq & Hp & Hne & H0 & H1 & H2 & d & Hd & Hlen).
    exists (Some nd), s. split; [by rewrite (on_tree_run _ _ _ _ E), set_heap_id|].
    apply wp_bind. exists node, s. split; [by rewrite (on_tree_run _ _ _ _ (node_at_run _ _ _ Hnd)), set_heap_id|].
    rewrite Hcont. apply wp_bind. eexists _, _. split; [by apply (checkEyecatchers_run s f n p _ d)|].
    apply wp_bind, wp_modify. destruct Hrm as (h & t' & Er & Hs' & Hm' & Hb').
    apply wp_bind. eexists _, _. split; [by apply on_tree_run; exact Er|]. apply wp_ret. split; [done|].
    split; [|split; [done|split; [done|by exists d]]]. split; cbn.
    + exists t'. split; [done|by apply Hb'].
    + by rewrite Hm'.
    + eapply Forall_Permutation in Hp; [|reflexivity]. rewrite Hp in Hbl. by apply Forall_cons in Hbl as [_ ?].
    + rewrite Hc, to_u64_sub. by rewrite (in_use_drop l q e Hp).
  - exists None, s. split; [by rewrite (on_tree_run _ _ _ _ Hf), set_heap_id|].
    apply wp_bind, wp_modify, wp_ret. done.
Qed.

Lemma heap_ok_free s l p :
  heap_ok s l -> (forall e, e ∈ l -> sptr e.1 <> p) -> heap_ok (set_blocks (delete p (blocks s)) s) l.
Proof. intros [Ht Hn Hb Hc] Hne. split; try done. by apply blocks_delete. Qed.

Lemma myfree_wp s l f n p :
  heap_ok s l -> p <> 0 ->
  wp (myfree f n p) s (fun _ s' =>
    match look ptrCompare (inl (p - sizeof_eyecatcher)) l with
    | None => s' = add_reports [FailedToRemove f n] s
    | Some e => heap_ok s' (drop_at ptrCompare (inl (p - sizeof_eyecatcher)) l) /\
        blocks s' = delete (p - sizeof_eyecatcher) (blocks s) /\ reoks s' = reoks s /\
        exists d, blocks s !! (p - sizeof_eyecatcher) = Some d /\ Zlen d = ssize e.1 + 16 /\
          reports s' = reports s ++ broken f n (ssize e.1) d
    end).
Proof.
  intros Hok Hp. unfold myfree. destruct (Z.eqb_spec p 0) as [|_]; [done|]. apply wp_bind.
  eapply wp_mono; [by apply (unlink_wp s l)|]. intros r s' H. cbv beta in H.
  destruct (look ptrCompare (inl (p - sizeof_eyecatcher)) l) as [e|] eqn:El.
  - destruct H as (-> & Hok' & Hb & Hre & d & Hd & Hr).
    destruct (element_at s l _ e Hok El) as (_ & _ & _ & Hne & _).
    unfold free_block. apply wp_bind. exists (blocks s'), s'. split; [done|].
    assert (Hd' : blocks s' !! (p - sizeof_eyecatcher) = Some d) by (by rewrite Hb). rewrite Hd'.
    apply wp_modify. split; [by apply heap_ok_free|]. split; [cbn; by rewrite Hb|]. split; [done|]. by exists d.
  - destruct H as [-> ->]. by apply wp_ret.
Qed.

(** *** Reallocation *)

(** What the application finds in a block of [n] bytes made from the block [d]. *)
Definition kept (n : Z) (d : list Z) : list Z := take (Z.to_nat n) (drop 8 (resize (n + 16) d)).

Lemma length_resize n d : List.length (resize n d) = Z.to_nat n.
Proof. unfold resize. rewrite length_take, length_app, length_replicate. lia. Qed.

Lemma Zlen_kept n d : 0 <= n -> Zlen (kept n d) = n.
Proof. intros Hn. unfold kept, Zlen. rewrite length_take, length_drop, length_resize. lia. Qed.

(** The bytes that both blocks have are the same. *)
Lemma kept_prefix n m : 0 <= n -> take (Z.to_nat (Z.min n (Zlen m))) (kept n (framed m)) = take (Z.to_nat (Z.min n (Zlen m))) m.
Proof.
  intros Hn. unfold kept, resize, framed. rewrite take_take. replace (Z.to_nat (n + 16)) with (8 + Z.to_nat (n + 8))%nat by lia.
  rewrite skipn_firstn_comm, take_take. replace (8 + Z.to_nat (n + 8) - 8)%nat with (Z.to_nat (n + 8)) by lia.
  replace (Z.to_nat (Z.min n (Zlen m)) `min` Z.to_nat n `min` Z.to_nat (n + 8))%nat with (Z.to_nat (Z.min n (Zlen m))) by (unfold Zlen; lia).
  rewrite <- !(assoc_L (++)), (drop_app_length' eyecatcher) by done. rewrite take_app_le; [done|]. unfold Zlen. lia.
Qed.

Lemma realloc_run s p n d :
  reoks s = [] -> blocks s !! p = Some d -> 0 <= n ->
  exists q, realloc_block p n s = Ok (q, set_blocks (<[q := resize n d]> (delete p (blocks s))) (set_reoks [] s)) /\
    0 < q /\ (q = p \/ blocks s !! q = None).
Proof.
  intros Hr Hb Hn. exists (repick (blocks s) p n). split; [|apply repick_new].
  unfold realloc_block. rewrite (sm_bind_run _ _ s (reoks s) s) by done. rewrite Hr.
  rewrite (sm_bind_run _ _ s () (set_reoks [] s)) by done. cbn [head default from_option].
  rewrite (sm_bind_run _ _ _ (blocks s) (set_reoks [] s)) by done. by rewrite Hb.
Qed.

Lemma frame_resized s q size d :
  0 <= size -> blocks s !! q = Some (resize (size + 16) d) ->
  write_eyecatchers q size s = Ok ((), set_blocks (<[q := framed (kept size d)]> (blocks s)) s).
Proof.
  intros H0 Hb. set (r := resize (size + 16) d) in *.
  assert (Hr : List.length r = Z.to_nat (size + 16)) by apply length_resize.
  apply (eyecatchers_run s q size (take 8 r) (kept size d) (drop (Z.to_nat size) (drop 8 r))).
  - rewrite Hb. unfold kept. fold r. by rewrite !take_drop.
  - rewrite length_take. lia.
  - by apply Zlen_kept.
  - rewrite !length_drop. lia.
Qed.

(** [myrealloc] when [realloc] finds memory: the element moves with its block. *)
Lemma myrealloc_wp s l f n p sz :
  heap_ok s l -> reoks s = [] -> size_ok sz ->
  wp (myrealloc f n p sz) s (fun q s' => reoks s' = [] /\
    match look ptrCompare (inl (p - sizeof_eyecatcher)) l with
    | None => q = 0 /\ s' = add_reports [FailedToReallocate f n] s
    | Some e => exists e' d, q = sptr e'.1 + sizeof_eyecatcher /\ ssize e'.1 = Heap_roundup sz /\
        (forall x, x ∈ drop_at ptrCompare (inl (p - sizeof_eyecatcher)) l -> sptr x.1 <> sptr e'.1) /\
        heap_ok s' (put ptrCompare e' (drop_at ptrCompare (inl (p - sizeof_eyecatcher)) l)) /\
        blocks s !! (p - sizeof_eyecatcher) = Some d /\ Zlen d = ssize e.1 + 16 /\
        reports s' = reports s ++ broken f n (ssize e.1) d /\
        blocks s' = <[sptr e'.1 := framed (kept (Heap_roundup sz) d)]> (delete (p - sizeof_eyecatcher) (blocks s))
    end).
Proof.
  intros Hok Hre Hsz. pose proof (roundup_bounds sz Hsz) as Hr. destruct Hsz as [Hsz0 Hsz1].
  set (size := Heap_roundup sz) in *. set (a := p - sizeof_eyecatcher).
  pose proof Hok as [(t & Ht & Hb) Hn Hbl Hc]. unfold myrealloc. fold a. fold size. apply wp_bind.
  destruct (remove_key_step (heap s) l t a Ht) as (h & t' & E & Hs' & Hm' & Hb'). specialize (Hb' I Hb).
  destruct (look ptrCompare (inl a) l) as [e|] eqn:El; cbn [fmap option_fmap option_map] in E.
  2: { exists None, s. split.
       { unfold on_tree. rewrite E. assert (h = heap s) as ->; [|by rewrite set_heap_id].
         pose proof (find_step (heap s) l t a Ht) as Hf. rewrite El in Hf.
         unfold TreeRemoveKey, TreeRemoveKeyIndex, TreeFind in *. rewrite (sm_bind_run _ _ _ _ _ Hf) in E. by injection E as <-. }
       apply wp_bind, wp_modify, wp_ret. done. }
  destruct (element_at s l a e Hok El) as (He & Hq & Hp & Hne & H0 & H1 & H2 & d & Hd & Hlen).
  set (l1 := drop_at ptrCompare (inl a) l) in *.
  eexists _, _. split; [by apply on_tree_run|]. set (s1 := set_heap h s).
  apply wp_bind. eexists _, _. split; [by apply (checkEyecatchers_run s1 f n p _ d)|]. set (s2 := add_reports _ s1).
  apply wp_bind. eexists _, _. split; [done|]. apply wp_bind, wp_modify.
  assert (Hu : to_u64 (size + 2 * sizeof_eyecatcher) = size + 16) by (unfold to_u64, sizeof_eyecatcher; rewrite Z.mod_small; lia).
  rewrite Hu, Hq. set (c := to_u64 (current_size s + to_u64 (size - ssize e.1))).
  assert (Hc' : c = to_u64 (size + in_use l1)).
  { unfold c. rewrite Hc, to_u64_add, (in_use_perm _ _ Hp). simpl. fold l1.
    rewrite (Z.add_comm _ (to_u64 _)), to_u64_add. f_equal. lia. }
  match goal with |- wp _ ?st _ => set (s3 := st) end.
  apply wp_bind. destruct (realloc_run s3 a (size + 16) d Hre Hd ltac:(lia)) as (q & Er & Hq0 & Hqn).
  eexists _, _. split; [exact Er|]. destruct (Z.eqb_spec q 0) as [|_]; [lia|]. set (s4 := set_blocks _ _).
  set (d2 := framed (kept size d)).
  assert (Hd2 : Zlen d2 = size + 16) by (unfold d2; rewrite Zlen_framed, Zlen_kept; lia).
  assert (Ee : write_eyecatchers q size s4 = Ok ((), set_blocks (<[q := d2]> (blocks s4)) s4)) by (apply frame_resized; [lia|apply lookup_insert_eq]).
  apply wp_bind. eexists _, _. split; [exact Ee|]. set (s5 := set_blocks _ s4).
  apply wp_bind. eexists _, _. split; [done|]. apply wp_bind, wp_modify.
  replace (reoks s5) with (@nil bool) by (by rewrite <- Hre). cbn [head default tail].
  set (z := to_u64 _). set (e' := (mkStorage f n q size, z)).
  assert (Hb5 : blocks s5 = <[q := d2]> (delete a (blocks s))) by (unfold s5, s4; cbn; apply insert_insert_eq).
  assert (Hbl1 : Forall (block_of (blocks s)) l1).
  { eapply Forall_Permutation in Hp; [|reflexivity]. rewrite Hp in Hbl. by apply Forall_cons in Hbl as [_ ?]. }
  assert (Hneq : forall x, x ∈ l1 -> sptr x.1 <> q).
  { intros x Hx. destruct Hqn as [-> | Hqn]; [by apply Hne|]. by apply (blocks_apart _ _ _ Hbl1 Hqn). }
  destruct (record_block (set_reoks [] s5) l1 e' d2) as (h' & Eh & Hrec);
    [exists t'; by split|exact (eq_trans Hm' Hn)|change (blocks (set_reoks [] s5)) with (blocks s5); rewrite Hb5; apply blocks_insert; [by apply blocks_delete|done]|done|simpl; lia|simpl; lia|
    change (blocks (set_reoks [] s5)) with (blocks s5); rewrite Hb5; apply lookup_insert_eq|done|done|].
  apply wp_bind. eexists _, _. split; [apply on_tree_run; exact Eh|]. apply wp_ret. split; [done|].
  exists e', d. split; [done|]. split; [done|]. split; [done|]. split; [by apply Hrec|]. split; [done|]. split; [done|]. split; [done|]. exact Hb5.
Qed.

End Safe.

(** ** Applications

    What an application has: the blocks recorded for it, by the address it was given, with
    all their bytes. *)
Definition held (b : gmap Z (list Z)) (l : list (storageElement * Z)) : gmap Z (list Z) :=
  list_to_map (map (fun e => (sptr e.1 + sizeof_eyecatcher, default [] (b !! sptr e.1))) l).

Definition bytes_held (h : gmap Z (list Z)) : Z := map_fold (fun _ d z => Zlen d - 2 * sizeof_eyecatcher + z) 0 h.

Inductive call :=
| Malloc (f : list Z) (n size : Z)
| Realloc (f : list Z) (n p size : Z)
| Free (f : list Z) (n p : Z)
| Unlink (f : list Z) (n p : Z)
| Write (p off : Z) (bytes : list Z).

(** A program of the application: a call, and how it goes on with the address it gets. *)
Inductive app := Done | Do (c : call) (k : Z -> app).

Section Run.
Context {AL : Allocator}.

Definition do_call (c : call) : SM Heap Z :=
  match c with
  | Malloc f n size => mymalloc f n size
  | Realloc f n p size => myrealloc f n p size
  | Free f n p => myfree f n p;; mret 0
  | Unlink f n p => Heap_unlink f n p;; mret 0
  | Write p off bytes => write_block (p - sizeof_eyecatcher) (sizeof_eyecatcher + off) bytes;; mret 0
  end.

Fixpoint run_app (a : app) : SM Heap () :=
  match a with Done => mret () | Do c k => q ← do_call c; run_app (k q) end.
End Run.

(** What an application may do: ask for sizes that exist, with file names that have at
    least seven characters, and write to the blocks it has, eyecatchers included. *)
Definition permitted (h : gmap Z (list Z)) (c : call) : Prop :=
  match c with
  | Malloc f _ size => 7 <= Zlen f /\ size_ok size
  | Realloc _ _ _ size => size_ok size
  | Free _ _ _ | Unlink _ _ _ => True
  | Write p off bytes => exists d, h !! p = Some d /\ 0 <= sizeof_eyecatcher + off /\ sizeof_eyecatcher + off + Zlen bytes <= Zlen d
  end.

(** What it gets: the address, what it has afterwards, and what is reported. *)
Definition found (f : list Z) (n p : Z) (h : gmap Z (list Z)) (missing : report) : list report :=
  match h !! p with Some d => broken f n (Zlen d - 2 * sizeof_eyecatcher) d | None => [missing] end.

Definition gives (c : call) (h : gmap Z (list Z)) (q : Z) (h' : gmap Z (list Z)) (r : list report) : Prop :=
  match c with
  | Malloc f n size =>
      q = 0 /\ h' = h /\ r = [MemoryAllocationError] \/
      sizeof_eyecatcher < q /\ h !! q = None /\ h' = <[q := framed (replicate (Z.to_nat (Heap_roundup size)) 0)]> h /\ r = []
  | Realloc f n p size =>
      r = found f n p h (FailedToReallocate f n) /\
      match h !! p with
      | None => q = 0 /\ h' = h
      | Some d => sizeof_eyecatcher < q /\ delete p h !! q = None /\ h' = <[q := framed (kept (Heap_roundup size) d)]> (delete p h)
      end
  | Free f n p => q = 0 /\ h' = delete p h /\ r = if p =? 0 then [FreeOfNull f n] else found f n p h (FailedToRemove f n)
  | Unlink f n p => q = 0 /\ h' = delete p h /\ r = found f n p h (FailedToRemove f n)
  | Write p off bytes => q = 0 /\ h' = alter (patch (sizeof_eyecatcher + off) bytes) p h /\ r = []
  end.

Fixpoint keeps_to (h : gmap Z (list Z)) (a : app) : Prop :=
  match a with
  | Done => True
  | Do c k => permitted h c /\ forall q h' r, gives c h q h' r -> keeps_to h' (k q)
  end.

Inductive behaves : gmap Z (list Z) -> app -> gmap Z (list Z) -> list report -> Prop :=
| behaves_done h : behaves h Done h []
| behaves_do h c k q h' r h'' r' : gives c h q h' r -> behaves h' (k q) h'' r' -> behaves h (Do c k) h'' (r ++ r').

(** *** What is recorded and what is held *)
Section Held.
Context {AL : Allocator}.
Implicit Types (s : Heap) (b : gmap Z (list Z)) (l : list (storageElement * Z)).

(** The tracker records what the application has; [realloc] finds memory. *)
Definition tracks s (h : gmap Z (list Z)) : Prop := reoks s = [] /\ exists l, heap_ok s l /\ h = held (blocks s) l.

Definition apart l : Prop := NoDup (map (fun e => sptr e.1) l).

Lemma sorted_apart l : sorted ptrCompare l -> apart l.
Proof.
  induction l as [|a l IH]; intros H; [constructor|]. apply sorted_cons in H as [Hl Ha]. unfold apart. cbn [map]. constructor; [|by apply IH].
  intros (b & Hb & Hin)%list_elem_of_fmap. specialize (Ha b Hin). simpl in Ha. lia.
Qed.

Lemma heap_ok_apart s l : heap_ok s l -> apart l.
Proof. intros [(t & Ht & _) _ _ _]. by apply sorted_apart, (shows_sorted _ _ _ Ht). Qed.

Lemma apart_keys b l : apart l -> NoDup (map fst (map (fun e : storageElement * Z => (sptr e.1 + sizeof_eyecatcher, default [] (b !! sptr e.1))) l)).
Proof.
  intros Ha. assert (Inj eq eq (Z.add sizeof_eyecatcher)) by (intros x y; lia).
  apply (NoDup_fmap_2 (Z.add sizeof_eyecatcher)) in Ha. unfold fmap in Ha. rewrite map_map in *.
  erewrite map_ext; [exact Ha|]. intros e. simpl. lia.
Qed.

Lemma held_perm b l l' : apart l -> l ≡ₚ l' -> held b l = held b l'.
Proof. intros Ha Hp. apply list_to_map_proper; [by apply apart_keys|]. by rewrite Hp. Qed.

Lemma held_ext b b' l : (forall e, e ∈ l -> b' !! sptr e.1 = b !! sptr e.1) -> held b' l = held b l.
Proof. intros H. unfold held. f_equal. apply map_ext_in. intros e He%list_elem_of_In. by rewrite H. Qed.

Lemma held_None b l p : (forall e, e ∈ l -> sptr e.1 <> p - sizeof_eyecatcher) -> held b l !! p = None.
Proof.
  intros H. apply not_elem_of_list_to_map_1. intros (x & -> & (e & -> & He)%list_elem_of_fmap)%list_elem_of_fmap.
  apply (H e He). simpl. lia.
Qed.

(** The element of a block that is held. *)
Lemma held_Some s l p e :
  heap_ok s l -> look ptrCompare (inl (p - sizeof_eyecatcher)) l = Some e ->
  held (blocks s) l !! p = blocks s !! (p - sizeof_eyecatcher) /\
  held (blocks s) (drop_at ptrCompare (inl (p - sizeof_eyecatcher)) l) = delete p (held (blocks s) l).
Proof.
  intros Hok El. destruct (element_at s l _ e Hok El) as (He & Hq & Hp & Hne & _ & _ & _ & d & Hd & _).
  set (l1 := drop_at _ _ l) in *. rewrite (held_perm _ _ _ (heap_ok_apart _ _ Hok) Hp). unfold held at 1 3. cbn [map list_to_map foldr fst snd].
  fold (held (blocks s) l1). rewrite Hq, Hd, Z.sub_add. cbn [default]. rewrite lookup_insert_eq. split; [done|].
  rewrite delete_insert_id; [done|]. by apply held_None.
Qed.

Lemma held_lookup s l p :
  heap_ok s l -> held (blocks s) l !! p = match look ptrCompare (inl (p - sizeof_eyecatcher)) l with Some _ => blocks s !! (p - sizeof_eyecatcher) | None => None end.
Proof.
  intros Hok. destruct (look _ _ l) as [e|] eqn:El; [by apply (held_Some s l p e)|].
  apply held_None. intros e He Heq. rewrite look_None in El. apply (El e He). by apply cmp_key.
Qed.

Lemma held_put s b l e d :
  heap_ok s (put ptrCompare e l) -> (forall x, x ∈ l -> sptr x.1 <> sptr e.1) -> b !! sptr e.1 = Some d ->
  held b (put ptrCompare e l) = <[sptr e.1 + sizeof_eyecatcher := d]> (held b l).
Proof.
  intros Hok Hne Hd. rewrite (held_perm _ _ (e :: l)); [|by apply (heap_ok_apart s)|].
  - unfold held. cbn [map list_to_map foldr fst snd]. by rewrite Hd.
  - apply put_perm, look_None. intros x Hx. rewrite cmp_element. by apply Hne.
Qed.

Lemma bytes_in_use s l : heap_ok s l -> in_use l = bytes_held (held (blocks s) l).
Proof.
  intros Hok. pose proof (heap_ok_apart _ _ Hok) as Ha. destruct Hok as [_ _ Hb _].
  induction l as [|e l IH]; [done|]. apply Forall_cons in Hb as [(_ & _ & _ & d & Hd & Hl) Hb]. apply NoDup_cons in Ha as [Hn Ha].
  specialize (IH Hb Ha). unfold held. cbn [map list_to_map foldr fst snd in_use]. fold (held (blocks s) l). fold (in_use l).
  unfold bytes_held in *. rewrite map_fold_insert_L; [|intros; lia|].
  - rewrite <- IH, Hd. cbn [default]. unfold sizeof_eyecatcher, id. lia.
  - apply held_None. intros x Hx Heq. apply Hn, list_elem_of_fmap. exists x. split; [lia|done].
Qed.

(** A block newly recorded. *)
Lemma held_new s b l e d :
  heap_ok s (put ptrCompare e l) -> (forall x, x ∈ l -> sptr x.1 <> sptr e.1) -> blocks s = <[sptr e.1 := d]> b ->
  held (blocks s) (put ptrCompare e l) = <[sptr e.1 + sizeof_eyecatcher := d]> (held b l) /\
  sizeof_eyecatcher < sptr e.1 + sizeof_eyecatcher /\ held b l !! (sptr e.1 + sizeof_eyecatcher) = None.
Proof.
  intros Hok Hne Hb. split; [|split].
  - rewrite (held_put s _ l e d Hok Hne), Hb; [|rewrite Hb; apply lookup_insert_eq]. f_equal.
    apply held_ext. intros x Hx. rewrite lookup_insert_ne; [done|]. intros Heq. by apply (Hne x Hx).
  - assert (He : e ∈ put ptrCompare e l).
    { rewrite put_perm; [by constructor|]. apply look_None. intros x Hx. rewrite cmp_element. by apply Hne. }
    pose proof (h_blocks _ _ Hok) as Hall. rewrite Forall_forall in Hall. destruct (Hall e He). lia.
  - apply held_None. intros x Hx. rewrite Z.add_simpl_r. by apply Hne.
Qed.

(** *** Each call *)
Definition simulates s (h : gmap Z (list Z)) (c : call) : Prop :=
  wp (do_call c) s (fun q s' => exists h' r, gives c h q h' r /\ tracks s' h' /\ reports s' = reports s ++ r).

Lemma Malloc_call s h f n sz : tracks s h -> permitted h (Malloc f n sz) -> simulates s h (Malloc f n sz).
Proof.
  intros [Hre (l & Hok & ->)] [Hf Hsz]. unfold simulates. eapply wp_mono; [by apply (mymalloc_wp s l)|].
  intros q s' [Hre' [(-> & Hok' & Hb & Hr) | (e & -> & Hsize & Hnew & Hok' & Hr & Hb)]]; cbv beta.
  - exists (held (blocks s) l), [MemoryAllocationError]. split; [by left|]. split; [|done].
    split; [congruence|]. exists l. by rewrite Hb.
  - assert (Hne : forall x, x ∈ l -> sptr x.1 <> sptr e.1) by (exact (blocks_apart (blocks s) l _ (h_blocks _ _ Hok) Hnew)).
    destruct (held_new s' _ l e _ Hok' Hne Hb) as (Hh & Hpos & Hfresh). rewrite Hsize in Hh.
    eexists _, []. rewrite app_nil_r. split; [right; by eauto|]. split; [|done].
    split; [congruence|]. exists (put ptrCompare e l). by rewrite Hh.
Qed.

(** A block no longer recorded, whether it is given back or not. *)
Lemma held_removed s b l p e :
  heap_ok s l -> look ptrCompare (inl (p - sizeof_eyecatcher)) l = Some e ->
  b = blocks s \/ b = delete (p - sizeof_eyecatcher) (blocks s) ->
  held b (drop_at ptrCompare (inl (p - sizeof_eyecatcher)) l) = delete p (held (blocks s) l).
Proof.
  intros Hok El Hb. destruct (held_Some s l p e Hok El) as [_ <-]. destruct (element_at s l _ e Hok El) as (_ & _ & _ & Hno & _).
  apply held_ext. intros x Hx. destruct Hb as [-> | ->]; [done|]. rewrite lookup_delete_ne; [done|]. intros Heq. by apply (Hno x Hx).
Qed.

Lemma Realloc_call s h f n p sz : tracks s h -> permitted h (Realloc f n p sz) -> simulates s h (Realloc f n p sz).
Proof.
  intros [Hre (l & Hok & ->)] Hsz. unfold simulates. eapply wp_mono; [by apply (myrealloc_wp s l)|].
  intros q s' [Hre' H]. cbv beta in *. pose proof (held_lookup s l p Hok) as Hl.
  destruct (look ptrCompare (inl (p - sizeof_eyecatcher)) l) as [e|] eqn:El.
  - destruct H as (e' & d & -> & Hsize & Hne & Hok' & Hd & Hlen & Hr & Hb). rewrite Hd in Hl.
    destruct (held_new s' _ _ e' _ Hok' Hne Hb) as (Hh & Hpos & Hfresh).
    rewrite (held_removed s _ l p e Hok El (or_intror eq_refl)) in Hh, Hfresh.
    eexists _, _. split; [|split; [split; [done|exists (put ptrCompare e' (drop_at ptrCompare (inl (p - sizeof_eyecatcher)) l)); by rewrite Hh]|exact Hr]].
    simpl. unfold found. rewrite Hl. split; [|done]. f_equal. unfold sizeof_eyecatcher. lia.
  - destruct H as [-> ->]. eexists _, _. split; [|split; [|done]].
    + simpl. unfold found. rewrite Hl. by eauto.
    + split; [done|]. exists l. split; [|done]. by apply (heap_ok_same s).
Qed.

Lemma held_missing s l p : heap_ok s l -> look ptrCompare (inl (p - sizeof_eyecatcher)) l = None -> delete p (held (blocks s) l) = held (blocks s) l.
Proof. intros Hok El. apply delete_id. by rewrite held_lookup, El. Qed.

Lemma Unlink_call s h f n p : tracks s h -> simulates s h (Unlink f n p).
Proof.
  intros [Hre (l & Hok & ->)]. unfold simulates, do_call, Heap_unlink. apply wp_bind, wp_bind. eapply wp_mono; [by apply (unlink_wp s l)|].
  intros r s' H. cbv beta in H. apply wp_ret, wp_ret. pose proof (held_lookup s l p Hok) as Hl.
  destruct (look ptrCompare (inl (p - sizeof_eyecatcher)) l) as [e|] eqn:El.
  - destruct H as (_ & Hok' & Hb & Hre' & d & Hd & Hlen & Hr). rewrite Hd in Hl.
    eexists _, _. split; [|split; [split; [congruence|]|exact Hr]].
    + simpl. unfold found. rewrite Hl. split; [done|]. split; [done|]. f_equal. unfold sizeof_eyecatcher. lia.
    + eexists. split; [exact Hok'|]. rewrite (held_removed s _ l p e Hok El); auto.
  - destruct H as [_ ->]. eexists _, _. split; [|split; [|done]].
    + simpl. unfold found. by rewrite Hl.
    + split; [done|]. exists l. split; [by apply (heap_ok_same s)|]. exact (held_missing s l p Hok El).
Qed.

Lemma Free_call s h f n p : tracks s h -> simulates s h (Free f n p).
Proof.
  intros [Hre (l & Hok & ->)]. unfold simulates, do_call. apply wp_bind. pose proof (held_lookup s l p Hok) as Hl.
  destruct (Z.eqb_spec p 0) as [-> | Hp].
  { unfold myfree. simpl Z.eqb. cbv iota. apply wp_modify, wp_ret. eexists _, [FreeOfNull f n]. split; [simpl; by eauto|]. split; [|done].
    split; [done|]. exists l. split; [by apply (heap_ok_same s)|]. apply (held_missing s); [done|].
    destruct (look _ _ l) as [e|] eqn:El; [|done]. destruct (element_at s l _ e Hok El) as (_ & _ & _ & _ & _ & _ & Hpos & _).
    unfold sizeof_eyecatcher in Hpos. lia. }
  eapply wp_mono; [by apply (myfree_wp s l)|]. intros [] s' H. cbv beta in H. apply wp_ret.
  destruct (look ptrCompare (inl (p - sizeof_eyecatcher)) l) as [e|] eqn:El.
  - destruct H as (Hok' & Hb & Hre' & d & Hd & Hlen & Hr). rewrite Hd in Hl.
    eexists _, _. split; [|split; [split; [congruence|]|exact Hr]].
    + simpl. destruct (Z.eqb_spec p 0) as [|_]; [done|]. unfold found. rewrite Hl. split; [done|]. split; [done|]. f_equal. unfold sizeof_eyecatcher. lia.
    + eexists. split; [exact Hok'|]. rewrite (held_removed s _ l p e Hok El); auto.
  - subst s'. eexists _, _. split; [|split; [|done]].
    + simpl. destruct (Z.eqb_spec p 0) as [|_]; [done|]. unfold found. by rewrite Hl.
    + split; [done|]. exists l. split; [by apply (heap_ok_same s)|]. exact (held_missing s l p Hok El).
Qed.

Lemma block_of_write b e a d d' : b !! a = Some d -> Zlen d' = Zlen d -> block_of b e -> block_of (<[a := d']> b) e.
Proof.
  intros Ha Hl (H0 & H1 & H2 & x & Hx & Hlx). split; [done|]. split; [done|]. split; [done|].
  destruct (decide (sptr e.1 = a)) as [<- | Hne].
  - exists d'. split; [apply lookup_insert_eq|]. congruence.
  - exists x. by rewrite lookup_insert_ne.
Qed.

Lemma Write_call s h p off bytes : tracks s h -> permitted h (Write p off bytes) -> simulates s h (Write p off bytes).
Proof.
  intros [Hre (l & Hok & ->)] (d & Hd & H0 & H1). unfold simulates, do_call. apply wp_bind.
  rewrite (held_lookup s l p Hok) in Hd. destruct (look ptrCompare (inl (p - sizeof_eyecatcher)) l) as [e|] eqn:El; [|done].
  eexists _, _. split; [by apply (write_block_run s _ _ _ d)|]. apply wp_ret. eexists _, []. rewrite app_nil_r. split; [by simpl|]. split; [|done].
  set (d' := patch (sizeof_eyecatcher + off) bytes d). set (s' := set_blocks _ s).
  assert (Hok' : heap_ok s' l).
  { destruct Hok as [Ht Hn Hb Hc]. split; try done. eapply Forall_impl; [exact Hb|]. intros x. by apply (block_of_write _ _ _ d), Zlen_patch. }
  split; [done|]. exists l. split; [done|]. destruct (element_at s l _ e Hok El) as (_ & Hq & Hp & Hno & _).
  set (l1 := drop_at _ _ l) in *. rewrite !(held_perm _ l _ (heap_ok_apart _ _ Hok) Hp). unfold held. cbn [map list_to_map foldr fst snd].
  fold (held (blocks s) l1). fold (held (blocks s') l1). unfold s' at 1. cbn [blocks set_blocks].
  rewrite Hq, Hd, lookup_insert_eq, Z.sub_add, alter_insert_eq. f_equal.
  apply held_ext. intros x Hx. cbn [s' blocks set_blocks]. rewrite lookup_insert_ne; [done|]. intros Heq. by apply (Hno x Hx).
Qed.

Lemma call_simulates s h c : tracks s h -> permitted h c -> simulates s h c.
Proof.
  destruct c; intros Ht Hp; [by apply Malloc_call|by apply Realloc_call|by apply Free_call|by apply Unlink_call|by apply Write_call].
Qed.

Lemma tracks_bytes s h : tracks s h -> current_size s = to_u64 (bytes_held h).
Proof. intros [_ (l & Hok & ->)]. rewrite <- (bytes_in_use s l Hok). apply (h_current _ _ Hok). Qed.

(** C21. The tracker follows the application, when the names of its source files have seven
    characters or more, the sizes it asks for are at most 2^64 - 32, it writes to blocks that it
    has - over their eyecatchers too ([permitted]) - and reallocations find memory ([tracks])
    as the nodes of the tree do.  Then whatever the program of calls and writes, every call
    completes, within its blocks; an allocation that finds no memory is reported; the
    addresses it is given are new, a block is cleared, keeps the bytes of the block it is
    reallocated from, and has its eyecatchers; a block is gone once freed; the eyecatchers
    reported are those that were overwritten, when the block is freed or reallocated, and
    the addresses reported are those of no block; the bytes counted are those of the blocks
    that the application has. *)
Theorem tracker_refines (a : app) s h :
  tracks s h -> keeps_to h a ->
  exists s' h' r, run_app a s = Ok ((), s') /\ behaves h a h' r /\ tracks s' h' /\
    current_size s' = to_u64 (bytes_held h') /\ reports s' = reports s ++ r.
Proof.
  revert s h. induction a as [|c k IH]; intros s h Ht Hk.
  - exists s, h, []. rewrite app_nil_r. split; [done|]. split; [constructor|]. split; [done|]. split; [by apply tracks_bytes|done].
  - destruct Hk as [Hp Hk]. destruct (call_simulates s h c Ht Hp) as (q & s1 & E & h1 & r1 & Hg & Ht1 & Hr1).
    destruct (IH q s1 h1 Ht1 (Hk _ _ _ Hg)) as (s2 & h2 & r2 & E2 & Hb & Ht2 & Hc & Hr2).
    exists s2, h2, (r1 ++ r2). split; [simpl; by rewrite (sm_bind_run _ _ _ _ _ E)|].
    split; [by econstructor|]. split; [done|]. split; [done|]. by rewrite Hr2, Hr1, (assoc_L (++)).
Qed.

End Held.

(** *** A run *)
Lemma nothing_tracks : tracks nothing ∅.
Proof.
  split; [done|]. exists []. split; [|done]. split; [|done|constructor|done].
  exists E. split; [|by exists O; constructor]. split; try done; [split; [done|done|constructor]|constructor].
Qed.

(** A block is written to, reallocated, overwritten before its start, freed, freed again. *)
Definition ex_app : app :=
  Do (Malloc file_name 1 5) (fun p => if p =? 0 then Done else
    Do (Write p 0 [1; 2]) (fun _ =>
    Do (Realloc file_name 2 p 40) (fun q => if q =? 0 then Done else
    Do (Write q (-1) [0]) (fun _ =>
    Do (Free file_name 3 q) (fun _ =>
    Do (Free file_name 4 q) (fun _ => Done)))))).

Lemma ex_app_keeps : keeps_to ∅ ex_app.
Proof.
  split; [by vm_compute|]. intros p h' r [(-> & _ & _) | (Hp & _ & -> & _)]; [done|].
  destruct (Z.eqb_spec p 0) as [|_]; [done|]. split.
  { eexists. split; [apply lookup_insert_eq|]. by vm_compute. }
  intros _ h' r' (_ & -> & _). split; [by vm_compute|]. rewrite alter_insert_eq. intros q h' r2 [_ H].
  rewrite lookup_insert_eq in H. destruct H as (Hq & _ & ->). destruct (Z.eqb_spec q 0) as [|_]; [done|]. split.
  { eexists. split; [apply lookup_insert_eq|]. rewrite Zlen_framed, Zlen_kept by (by vm_compute). by vm_compute. }
  intros _ h' r3 _. split; [done|]. intros _ h'' r4 _. by split.
Qed.

Lemma tracker_refines_witness :
  tracks nothing ∅ /\ keeps_to ∅ ex_app /\
  exists s' h' r, run_app (AL:=bump) ex_app nothing = Ok ((), s') /\ behaves ∅ ex_app h' r /\ tracks s' h' /\
    current_size s' = to_u64 (bytes_held h') /\ reports s' = reports nothing ++ r.
Proof.
  split; [exact nothing_tracks|]. split; [exact ex_app_keeps|].
  exact (tracker_refines (AL:=bump) ex_app nothing ∅ nothing_tracks ex_app_keeps).
Defined.

(** The report of that run. *)
Example ex_app_reports :
  match run_app (AL:=bump) ex_app nothing with
  | Ok (_, s) => reports s = [InvalidEyecatcher true file_name 3; FailedToRemove file_name 4] /\ current_size s = 0
  | _ => False
  end.
Proof. vm_compute. by split. Qed.

End HeapSafety.
